(* ===== verification/_CoqProject ===== *)
-Q . S2P
Prelude.v
OsState.v
OsSched.v
OsInv.v
OsSem.v
OsMutex.v
OsEventq.v
OsCallout.v
OsSanity.v
OsTask.v
OsKernel.v
OsProps.v
OsMempool.v
OsMbuf.v
OsMbufSpec.v
OsMbufProps.v
OsMbufWrite.v
OsMbufHeld.v
OsMqueue.v
Base64.v
Crc16.v
Cbmem.v
Cfmt.v
Config.v
Log.v
Stats.v
Console.v
Shell.v
ShellProps.v
JsonEncode.v
JsonDecode.v
JsonProps.v
HalFlash.v
Fs.v
Boot.v
BootProps.v
HalCputime.v
BleSched.v
BleSchedProps.v
BleSchedSteps.v
BleAtt.v
BleL2cap.v
BleL2capProps.v
BleConn.v
BleConnLink.v
BleConnProps.v
BleConnChan.v
BleConnSetup.v
