(* ===== verification/Prelude.v ===== *)
(** * A verification of the Mynewt operating system

    Mynewt is an operating system for microcontrollers: a preemptive kernel with its
    memory pools and packet buffers (libs/os), utility libraries (libs/util, libs/json,
    the C library libs/baselibc), a boot loader that upgrades firmware images
    (libs/bootutil) over flash drivers (hw/hal) and a file system (fs), management and
    shell services, and a Bluetooth stack.  This development translates the core of it
    from the C source and proves what makes it correct.

    ** How the code is modelled

    Each C function is a definition of the same name, in a state monad with faults ([M],
    in this file): a failed [assert], a dereference of NULL, an operation on an element
    that is not in a list, and a loop that exhausts its fuel are faults, so a theorem
    that a run returns says that none of them happens.  [wp m Q s] is total
    correctness: [m] returns from [s] and its result satisfies [Q].  Structures are
    records, tagged unions inductive types, pointers are identifiers or 32-bit
    addresses ([0] is NULL), integers are [Z] with their wrap-around written out
    ([u8], [u16], [u32], [u64], [s32]).  The head of a C loop that is not structural has
    a fuel argument; the lemma about the loop shows that the fuel given is enough.  Code
    behind an interface is a class or a parameter: [Allocator] (memory pools, for the
    mbufs), [FlashDrivers] and [FlashApi] (flash), [FsApi] (file systems), [ConsoleApi]
    (the console), [json_buffer] (input of the JSON decoder); each class has an instance.

    ** The parts, in the order of the files

    - Prelude: integers, the monad and its tactics, lists as the queue macros use them.
    - The kernel, libs/os.  OsState has the state ([kstate]: the tasks, semaphores,
      mutexes, event queues, callouts and the global variables).  OsSched models
      os_sched.c, os_time.c and the context switch of the Cortex-M4 port; OsSem,
      OsMutex, OsEventq, OsCallout, OsSanity and OsTask the files of these names.  A
      blocking call is split where it calls the scheduler: [os_sem_pend] and
      [os_sem_pend_resume], and so on.  OsInv has the invariant of the kernel state
      ([kinv]), each component file proves that its operations keep it.  OsKernel puts the
      kernel together as a transition system: a step is a system call of the running
      task, the continuation of a blocked call or the timer interrupt, followed by the
      PendSV exception.  OsProps has the theorems: no permitted call ever faults and the
      invariant holds in every reachable state ([kernel_safe]); the running task is a
      ready task of the highest priority ([kernel_runs_highest], [tick_runs_highest]);
      sleepers and callouts are served at exactly their tick ([sleeper_wakes_on_time],
      [callout_fires_on_time]); what each operation does on every branch; and how a
      mutex is lost when its release is preempted ([mutex_release_race]).  Runs of an example
      show an inherited priority that stays ([mutex_priority_leak]) and a long timeout that
      expires at the next tick ([long_timeout_expires]).
    - OsMempool: os_mempool.c, with the free list threaded through the free blocks in
      memory.  No block is handed out twice, whatever a client does.
    - OsMbuf, OsMbufSpec, OsMbufProps: os_mbuf.c, the packet buffers and the system
      pools.  A chain is a byte sequence ([chain_data]); appending, copying, comparing,
      trimming, joining and freeing are proved against it.  OsMbufWrite has the packets
      that are built piece by piece, OsMbufHeld the packets a client keeps side by side:
      each operation with the mbufs it touches.
    - OsMqueue: the queues of packets of os_mbuf.c, on top of the mbufs and the event
      queues of the kernel.  In every interleaving of producers and the consumer no packet
      and no wake-up is lost ([mqueue_no_lost_packets]).
    - Base64, Crc16, Cbmem: libs/util/src/base64.c, fs/nffs/src/crc16.c and
      libs/util/src/cbmem.c.  Decoding inverts encoding; the table-driven CRC is the
      division by its polynomial and detects bursts; a circular buffer is a list of
      entries.
    - Cfmt: the number conversions of libs/baselibc (tinyprintf.c, strntoumax.c) and
      [console_printf] of libs/console/full/src/cons_fmt.c, which keeps 127 characters of a
      text and puts the time in front of every line.
    - Config: the configuration of sys/config: names, values, handlers and the shell command,
      with strtok_r of the C library and the handler of project/slinky.  Values survive
      their text form ([conf_value_roundtrip]) and commands do what they say
      ([conf_commands]); [conf_flaws] are three defects.
    - Log: sys/log, on top of Cbmem: the shell hands [console_printf] what was logged, and
      the console shows it when the lines are short enough ([log_printf_dumped]);
      [shell_log_dump_flaws] are three defects.
    - Stats: sys/stats, the registry of statistics and how they are shown
      ([stats_register_shown]).  Config, Log and Stats return the texts they hand to
      console_printf, in order.
    - Console: libs/console/full/src/cons_tty.c.  The rings are bounded queues, output is
      transmitted in order, and a typed line is read as it was edited.  What the shell
      relies on is the class [ConsoleApi].
    - Shell, ShellProps: libs/shell/src/shell.c.  Management packets cross the console as
      lines of base64 text; [nlip_roundtrip] composes the encoder, the mbufs, the console
      and the mbuf queue of the newtmgr task.  [nlip_encodebuf_overrun] and
      [shell_merges_lines] are two defects.
    - JsonEncode, JsonDecode, JsonProps: libs/json.  The decoder reads what the encoder
      writes ([json_roundtrip]) and handles every input ([json_decode_returns]).
    - HalFlash: hw/hal/src/hal_flash.c over any drivers, and the driver of the
      simulator; Fs: the file system interface of fs/fs.
    - Boot, BootProps: libs/bootutil.  The monad of the loader has a third outcome, the
      loss of power, which can hit before or during any flash operation (leaving
      anything in the range of the operation) and between operations on files; the
      flash and the files survive it.  [boot_survives_resets] is the crash safety of an
      upgrade, [boot_interruption_flaws] shows two examples in which it is not safe.
    - HalCputime: the cpu timers of hw/mcu/nordic/nrf52xxx/src/hal_cputime.c.  The counter
      is a clock that advances at every access.  Timers are queued in the order in which
      they expire ([cputimer_restart]), fire in that order and not early
      ([cputimer_fires_in_order]), and the 64-bit time is exact ([cputime_get64_exact]).
    - BleSched, BleSchedProps, BleSchedSteps: the scheduler of the Bluetooth link layer
      (net/nimble/controller/src/ble_ll_sched.c) on top of the cpu timers.  BleSched has the
      operations, BleSchedProps what each does to the queue, BleSchedSteps the schedule over
      time: [sched_step] is an operation, the interrupt of its timer or the clock moving on.
      The radio is never reserved twice ([ble_sched_disjoint]), an advertising event finds a
      place ([ble_adv_new_placed]), a connection is rescheduled exactly when everything in
      its way may be displaced ([ble_conn_reschedule_lru]); [ble_sched_flaws] are two defects,
      which the steps exclude by what they ask of an operation.
    - BleAtt: net/nimble/src/util.c (byte order), ble_uuid.c and the message formats of the
      attribute protocol, ble_att_cmd.c, of net/nimble/host/src.  The parsers invert the
      writers ([att_header_roundtrip]); they are total and return typed headers
      ([att_parse_typed]); [byte_order_roundtrip] is about the byte order.
    - BleL2cap, BleL2capProps: the logical link layer of the Bluetooth host (ble_l2cap.c,
      ble_hs_conn.c and the data packets of host_hci.c in net/nimble/host/src) over the
      mbufs.  Reception implements an abstract reassembler and loses no mbuf
      ([l2cap_rx_refines]), every data packet is handled ([hci_data_rx_handled]), what one
      host sends another delivers ([l2cap_roundtrip]); [l2cap_rx_flaws] are two defects.
    - BleConn: the data path of a connection of the Bluetooth link layer
      (net/nimble/controller/src/ble_ll_conn.c, the packet queues of ble_ll.c): choice of
      the channel and the access address, events, transmission, reception with
      acknowledgement, data length.  BleConnLink puts a master and a slave together over a
      radio that loses and corrupts frames ([link_step]; each step is a whole handler
      of one side) and proves the invariant of the link ([link_ok]).  BleConnProps: each
      direction is a queue in every reachable state ([ble_link_refines_queue]), and
      undisturbed exchanges, each closed by [event_end] on both sides, deliver everything and
      keep the connection as long as neither side ends it ([ble_link_delivers]).  BleConnChan:
      the channel of an event for every channel map, and when it is not the specified one
      ([ble_event_channel]); hopping visits all channels ([ble_hops_over_all_channels]);
      [ble_conn_flaws] are five examples of defects.  BleConnSetup: the command that creates a connection, the connect
      request, which the slave accepts with the master's parameters or refuses because of
      a missing check ([ble_connect_request_agrees]), and the move to the next event
      ([next_event_rest]), which keeps both sides on the same channel with the same
      parameters, also when the slave skips events and the parameters change
      ([ble_conn_in_step]).  The slave moves its anchor point only by what it hears ([hear]);
      the steps in which it hears nothing ([silent_step]) keep the two anchor points as far
      apart as they were.

    ** Bounds and fuel

    The loops of the kernel run over lists that get shorter, whose length is the fuel.
    The decoder of JSON text takes at most two rounds per character; [decode_text] gives
    it one more.  Copying an area takes at most a round per byte, filling a slot at most
    a round per area.  The nesting depth of a JSON template is bounded by 8 in
    [decode_text]; templates nest through arrays only.

    ** What is not modelled

    Names of tasks and pools; register contents and interrupt masking: interrupts are
    taken between system calls, and within [os_mutex_release] at the start of its
    critical section.  The preconditions of the system calls ([api_ok]: for instance an
    object is not initialised while tasks wait for it) are those of the documentation.
    The simulator and Cortex-M0 ports, field widths and flags of printf, real numbers in
    JSON (the code refuses them too).  The table of shell commands and the commands
    themselves.  The flash file system itself (fs/nffs), which the
    boot loader uses through [FsApi]; the host file behind the simulated flash.  Board
    support packages, MCU drivers and CMSIS are vendor code and device registers; eLua is
    a third-party interpreter.

    Of the Bluetooth stack (net/nimble) the advertiser, scanner and initiator of the
    controller, the attribute server and client, GAP and the commands of the host
    controller interface are not modelled, nor the lock of the connections and the log
    of the parts that are.  A connection of the link layer is followed from the state
    [ble_ll_conn_sm_new] leaves while it lasts: [event_end] says whether the end of an event
    ends it, but what ble_ll_conn_end then does, the scheduling of its events and the
    control procedures are left out (in [link_step] its parameters may change in any way and
    exchanges go on, in [pair_step] an update reaches both sides at once);
    control packets are opaque bytes.  Packets of the link layer
    are values, so the memory of their mbufs is not part of that model, and packets from the
    host are in one mbuf and shorter than 256 bytes.

    Of libs/newtmgr only the receiver of packets is modelled, with the shell; its requests (and with
    them the handlers in sys/config, sys/stats and libs/imgmgr) are not.  The objects of the
    flash file system (fs/nffs) and of the attribute server would come next. *)
From Stdlib Require Import ZArith Lia.
From Stdlib Require Import Sorting.Sorted.
From stdpp Require Import base decidable list numbers gmap.

#[local] Open Scope Z_scope.

(** ** Machine integers

    An integer of the C code is kept as a [Z]; a value stored in an unsigned
    [w]-bit object is reduced modulo [2^w], a signed reading of 32 bits is
    brought back to [-2^31 .. 2^31-1] (two's complement, as both supported
    architectures do). *)
Definition u8 (z : Z) : Z := z mod 2 ^ 8.
Definition u16 (z : Z) : Z := z mod 2 ^ 16.
Definition u32 (z : Z) : Z := z mod 2 ^ 32.
Definition u64 (z : Z) : Z := z mod 2 ^ 64.
Definition s32 (z : Z) : Z := (z + 2 ^ 31) mod 2 ^ 32 - 2 ^ 31.

(** The values of the types. *)
Definition is_byte (z : Z) : Prop := 0 <= z < 256.
Definition is_u16 (z : Z) : Prop := 0 <= z < 65536.
Definition is_u32 (z : Z) : Prop := 0 <= z < 4294967296.
Definition is_s32 (z : Z) : Prop := - 2147483648 <= z < 2147483648.

Lemma u8_bound z : 0 <= u8 z < 256.
Proof. unfold u8. change (2 ^ 8) with 256. apply Z.mod_pos_bound. lia. Qed.

Lemma u16_bound z : 0 <= u16 z < 65536.
Proof. unfold u16. change (2 ^ 16) with 65536. apply Z.mod_pos_bound. lia. Qed.

Lemma u32_bound z : 0 <= u32 z < 4294967296.
Proof. unfold u32. change (2 ^ 32) with 4294967296. apply Z.mod_pos_bound. lia. Qed.

Lemma s32_bound z : - 2147483648 <= s32 z < 2147483648.
Proof.
  unfold s32. change (2 ^ 31) with 2147483648. change (2 ^ 32) with 4294967296.
  pose proof (Z.mod_pos_bound (z + 2147483648) 4294967296). lia.
Qed.

Lemma u16_small z : 0 <= z < 65536 → u16 z = z.
Proof. intros. unfold u16. change (2 ^ 16) with 65536. by rewrite Z.mod_small. Qed.

Lemma u8_small z : 0 <= z < 256 → u8 z = z.
Proof. intros. unfold u8. change (2 ^ 8) with 256. by rewrite Z.mod_small. Qed.

Lemma u32_small z : 0 <= z < 4294967296 → u32 z = z.
Proof. intros. unfold u32. change (2 ^ 32) with 4294967296. by rewrite Z.mod_small. Qed.

(** Unfolds the wrap-arounds and lets [lia] see the divisions. *)
Ltac wrap_lia :=
  unfold u8, u16, u32, s32 in *;
  change (2 ^ 8) with 256 in *; change (2 ^ 16) with 65536 in *;
  change (2 ^ 31) with 2147483648 in *; change (2 ^ 32) with 4294967296 in *;
  Z.to_euclidean_division_equations; lia.

(** ** Memory

    An integer of [n] bytes, little endian as on both supported architectures, and the
    string at an address. *)
Fixpoint int_bytes (n : nat) (v : Z) : list Z :=
  match n with O => [] | S n => v mod 256 :: int_bytes n (v / 256) end.
Fixpoint bytes_val (l : list Z) : Z := match l with [] => 0 | b :: l => b + 256 * bytes_val l end.
Fixpoint c_string (vp : list Z) : list Z :=
  match vp with [] => [] | c :: vp => if c =? 0 then [] else c :: c_string vp end.

Lemma length_int_bytes n : ∀ v, length (int_bytes n v) = n.
Proof. induction n as [|n IH]; intros v; [done|]. cbn. by rewrite IH. Qed.

Lemma int_bytes_byte n : ∀ v, Forall is_byte (int_bytes n v).
Proof.
  induction n as [|n IH]; intros v; constructor; [|apply IH]. unfold is_byte. apply Z.mod_pos_bound. lia.
Qed.

Lemma int_bytes_val l : ∀ k, Forall is_byte l → int_bytes (length l) (bytes_val l + k * 256 ^ Z.of_nat (length l)) = l.
Proof.
  induction l as [|b l IH]; intros k Hl; [done|]. apply Forall_cons in Hl as [Hb Hl]. unfold is_byte in Hb.
  cbn [int_bytes length bytes_val]. rewrite Nat2Z.inj_succ, Z.pow_succ_r by lia.
  replace (b + 256 * bytes_val l + k * (256 * 256 ^ Z.of_nat (length l)))
    with (b + (bytes_val l + k * 256 ^ Z.of_nat (length l)) * 256) by lia.
  rewrite Z.mod_add, Z.mod_small, Z.div_add, Z.div_small, Z.add_0_l by lia. by rewrite IH.
Qed.

Lemma bytes_val_bound l : Forall is_byte l → 0 <= bytes_val l < 256 ^ Z.of_nat (length l).
Proof.
  induction 1 as [|b l Hb _ IH]; [cbn; lia|]. unfold is_byte in Hb. cbn [bytes_val length].
  rewrite Nat2Z.inj_succ, Z.pow_succ_r by lia. lia.
Qed.

Lemma bytes_val_int n : ∀ v, 0 <= v < 256 ^ Z.of_nat n → bytes_val (int_bytes n v) = v.
Proof.
  induction n as [|n IH]; intros v Hv; [cbn in *; lia|]. cbn [int_bytes bytes_val].
  rewrite Nat2Z.inj_succ, Z.pow_succ_r in Hv by lia. rewrite IH.
  - pose proof (Z.div_mod v 256). lia.
  - split; [apply Z.div_pos; lia|apply Z.div_lt_upper_bound; lia].
Qed.

Lemma c_string_app s rest : 0 ∉ s → c_string (s ++ 0 :: rest) = s.
Proof.
  induction s as [|c s IH]; intros Hs; [done|]. apply not_elem_of_cons in Hs as [Hc Hs]. cbn.
  rewrite (proj2 (Z.eqb_neq _ _)) by done. by rewrite IH.
Qed.

(** ** Faults and the state monad of the kernel model

    A C function that dereferences [NULL], trips an [assert], removes an
    element from a list it is not on, or (for the model only) exhausts the fuel
    of a loop has no result: the model returns a [fault].  Everything else is
    explicit state passing. *)
Inductive fault :=
| FAssert   (* assert() failed *)
| FNull     (* NULL (or otherwise invalid) pointer dereferenced *)
| FList     (* intrusive list operation on an element that is not linked there *)
| FFuel.    (* the model's loop bound was exceeded *)

Inductive res (A : Type) :=
| Ret (a : A)
| Fault (f : fault).
Arguments Ret {A} a.
Arguments Fault {A} f.

Definition M (S A : Type) : Type := S → res (A * S).

#[export] Instance M_ret S : MRet (M S) := λ A a s, Ret (a, s).
#[export] Instance M_bind S : MBind (M S) := λ A B f m s,
  match m s with
  | Ret (a, s') => f a s'
  | Fault e => Fault e
  end.

Definition get {S} : M S S := λ s, Ret (s, s).
Definition gets {S A} (f : S → A) : M S A := λ s, Ret (f s, s).
Definition modify {S} (f : S → S) : M S unit := λ s, Ret (tt, f s).
Definition fault_with {S A} (f : fault) : M S A := λ _, Fault f.
Definition assert_ {S} (b : bool) : M S unit :=
  if b then mret tt else fault_with FAssert.
Definition from_option_fault {S A} (f : fault) (o : option A) : M S A :=
  match o with Some a => mret a | None => fault_with f end.

(** Total correctness: [m] runs without a fault from [s] and its result
    satisfies [Q]. *)
Definition wp {S A} (m : M S A) (Q : A → S → Prop) (s : S) : Prop :=
  match m s with Ret (a, s') => Q a s' | Fault _ => False end.

Section wp.
Context {S : Type}.

Lemma wp_bind {A B} (m : M S A) (f : A → M S B) Q s :
  wp m (λ a, wp (f a) Q) s → wp (m ≫= f) Q s.
Proof. unfold wp, mbind, M_bind. by destruct (m s) as [[a s']|]. Qed.

Lemma wp_ret {A} (a : A) Q s : Q a s → wp (mret a : M S A) Q s.
Proof. done. Qed.

Lemma wp_mono {A} (m : M S A) (Q Q' : A → S → Prop) s :
  wp m Q s → (∀ a s', Q a s' → Q' a s') → wp m Q' s.
Proof. unfold wp. destruct (m s) as [[a s']|]; eauto. Qed.

Lemma wp_run {A} (m : M S A) Q s :
  wp m Q s ↔ ∃ a s', m s = Ret (a, s') ∧ Q a s'.
Proof.
  unfold wp. destruct (m s) as [[a s']|]; split.
  - eauto.
  - intros (? & ? & ? & ?). by simplify_eq.
  - done.
  - intros (? & ? & ? & ?). by simplify_eq.
Qed.

(** The result of a run that cannot fault. *)
Lemma wp_with_run {A} (m : M S A) Q s : wp m Q s → wp m (λ a s', Q a s' ∧ m s = Ret (a, s')) s.
Proof. rewrite !wp_run. intros (a & s' & ? & ?). by exists a, s'. Qed.

Lemma wp_get Q s : Q s s → wp (get : M S S) Q s.
Proof. done. Qed.

Lemma wp_gets {A} (f : S → A) Q s : Q (f s) s → wp (gets f) Q s.
Proof. done. Qed.

Lemma wp_modify f Q s : Q tt (f s) → wp (modify f : M S unit) Q s.
Proof. done. Qed.

Lemma wp_option {A} f (o : option A) a Q s :
  o = Some a → Q a s → wp (from_option_fault f o : M S A) Q s.
Proof. by intros ->. Qed.

Lemma wp_assert (b : bool) Q s : b = true → Q tt s → wp (assert_ b : M S unit) Q s.
Proof. by intros ->. Qed.

Lemma wp_eq {A} (m : M S A) a s' Q s : m s = Ret (a, s') → Q a s' → wp m Q s.
Proof. unfold wp. by intros ->. Qed.

Lemma bind_ret_run {A B} (m : M S A) (f : A → M S B) s a s' :
  m s = Ret (a, s') → (m ≫= f) s = f a s'.
Proof. intros Hm. unfold mbind, M_bind. by rewrite Hm. Qed.

(** Replacing a program by one that runs the same from this state. *)
Lemma wp_ext {A} (m m' : M S A) Q s : m s = m' s → wp m' Q s → wp m Q s.
Proof. unfold wp. by intros ->. Qed.
End wp.

(** Runs the straight-line prefix of a monadic program. *)
Ltac wp_step :=
  lazymatch goal with
  | |- wp (mbind _ _) _ _ => apply wp_bind
  | |- wp (mret _) _ _ => apply wp_ret
  | |- wp get _ _ => apply wp_get
  | |- wp (gets _) _ _ => apply wp_gets
  | |- wp (modify _) _ _ => apply wp_modify
  | |- wp (from_option_fault _ (Some _)) _ _ => apply wp_ret
  end; cbn beta.
Ltac wp_simp := repeat wp_step.

(** ** Lists

    [insert_before p x l] is the C idiom
    [TAILQ_FOREACH(entry) { if (p) break; }] followed by
    [TAILQ_INSERT_BEFORE] or, when the loop ran off the end,
    [TAILQ_INSERT_TAIL]. *)
Fixpoint insert_before {A} (p : A → bool) (x : A) (l : list A) : list A :=
  match l with
  | [] => [x]
  | e :: l' => if p e then x :: l else e :: insert_before p x l'
  end.

(** The singly linked version keeps the last entry passed: [slist_scan] is the
    [SLIST_FOREACH] loop that computes [last], [slist_insert] the
    [SLIST_INSERT_AFTER] / [SLIST_INSERT_HEAD] that follows it. *)
Fixpoint slist_scan {A} (p : A → bool) (last : option A) (l : list A) : option A :=
  match l with
  | [] => last
  | e :: l' => if p e then last else slist_scan p (Some e) l'
  end.

Fixpoint insert_after {A} `{EqDecision A} (y x : A) (l : list A) : list A :=
  match l with
  | [] => []
  | e :: l' => if decide (e = y) then e :: x :: l' else e :: insert_after y x l'
  end.

Definition slist_insert {A} `{EqDecision A} (last : option A) (x : A) (l : list A) : list A :=
  match last with Some y => insert_after y x l | None => x :: l end.

(** The element that follows [x] in [l] ([TAILQ_NEXT]). *)
Fixpoint next_of {A} `{EqDecision A} (x : A) (l : list A) : option A :=
  match l with
  | [] => None
  | e :: l' => if decide (e = x) then head l' else next_of x l'
  end.

Section insert.
Context {A : Type}.
Implicit Types (p : A → bool) (x : A) (l : list A).

Lemma insert_before_perm p x l : insert_before p x l ≡ₚ x :: l.
Proof.
  induction l as [|e l IH]; simpl; [done|].
  destruct (p e); [done|]. rewrite IH. constructor.
Qed.

Lemma elem_of_insert_before p x y l : y ∈ insert_before p x l ↔ y = x ∨ y ∈ l.
Proof. by rewrite insert_before_perm, elem_of_cons. Qed.

Lemma NoDup_insert_before p x l : x ∉ l → NoDup l → NoDup (insert_before p x l).
Proof. intros. rewrite insert_before_perm. by constructor. Qed.

Lemma length_insert_before p x l : length (insert_before p x l) = S (length l).
Proof. by rewrite insert_before_perm. Qed.

Lemma insert_before_ext p q x l :
  (∀ e, e ∈ l → p e = q e) → insert_before p x l = insert_before q x l.
Proof.
  induction l as [|e l IH]; intros Hpq; simpl; [done|].
  rewrite Hpq by left. rewrite IH; [done|]. intros; apply Hpq; by right.
Qed.

(** Splitting view: everything before the insertion point fails the test. *)
Lemma insert_before_split p x l :
  ∃ l1 l2, l = l1 ++ l2 ∧ insert_before p x l = l1 ++ x :: l2 ∧
           Forall (λ e, p e = false) l1 ∧
           (∀ e, head l2 = Some e → p e = true).
Proof.
  induction l as [|e l (l1 & l2 & Hl & Hins & H1 & H2)]; simpl.
  - by exists [], [].
  - destruct (p e) eqn:Hp.
    + exists [], (e :: l). repeat split; [done|]. by intros ? [= ->].
    + exists (e :: l1), l2. rewrite Hins, Hl. repeat split; [|done]. by constructor.
Qed.

Lemma head_insert_before p x l :
  head (insert_before p x l) =
    match l with e :: _ => if p e then Some x else Some e | [] => Some x end.
Proof. destruct l as [|e l]; simpl; [done|]. by destruct (p e). Qed.
End insert.

Section slist.
Context {A : Type} `{EqDecision A}.
Implicit Types (p : A → bool) (x y : A) (l : list A).

Lemma insert_after_app_last l1 y x l2 :
  y ∉ l1 → insert_after y x (l1 ++ y :: l2) = l1 ++ y :: x :: l2.
Proof.
  induction l1 as [|e l1 IH]; intros Hy; simpl.
  - by rewrite decide_True.
  - apply not_elem_of_cons in Hy as [? ?].
    rewrite decide_False by done. by rewrite IH.
Qed.

Lemma slist_scan_app p l1 : ∀ l2 prev,
  NoDup (l1 ++ l2) → Forall (λ e, p e = false) l1 →
  slist_scan p prev (l1 ++ l2) =
    slist_scan p (match last l1 with Some e => Some e | None => prev end) l2.
Proof.
  induction l1 as [|e l1 IH]; intros l2 prev Hnd Hl1; simpl; [done|].
  apply Forall_cons in Hl1 as [-> Hl1]. simpl in Hnd. apply NoDup_cons in Hnd as [_ Hnd].
  rewrite IH by done. f_equal. rewrite last_cons. by destruct (last l1).
Qed.

(** The SLIST idiom with its [last] pointer inserts at the same place as the
    TAILQ idiom. *)
Lemma slist_insert_scan p x l :
  NoDup l → slist_insert (slist_scan p None l) x l = insert_before p x l.
Proof.
  intros Hnd. destruct (insert_before_split p x l) as (l1 & l2 & -> & -> & H1 & H2).
  rewrite slist_scan_app by done.
  assert (Hstop : ∀ o, slist_scan p o l2 = o).
  { intros o. destruct l2 as [|e l2]; simpl; [done|]. by rewrite (H2 e). }
  rewrite Hstop. destruct l1 as [|y l1 _] using rev_ind; [done|].
  rewrite last_snoc. simpl. rewrite <- !(assoc_L (++)). simpl.
  apply insert_after_app_last.
  rewrite <- (assoc_L (++)) in Hnd. apply NoDup_app in Hnd as (_ & Hd & _).
  intros Hin. apply (Hd y Hin). by left.
Qed.
End slist.

(** *** Removal

    [list_remove x l] deletes the first occurrence of [x] and is [None] when
    there is none: the model of [TAILQ_REMOVE], [SLIST_REMOVE] and
    [STAILQ_REMOVE]. *)
Fixpoint list_remove {A} `{EqDecision A} (x : A) (l : list A) : option (list A) :=
  match l with
  | [] => None
  | y :: l' => if decide (x = y) then Some l' else cons y <$> list_remove x l'
  end.

Section remove.
Context {A : Type} `{EqDecision A}.
Implicit Types (x y : A) (l : list A).

Lemma list_remove_is_Some x l : x ∈ l → is_Some (list_remove x l).
Proof.
  induction l as [|y l IH]; intros Hx; [by apply not_elem_of_nil in Hx|].
  simpl. case_decide; [eauto|].
  destruct IH as [l' Hl']; [set_solver|]. rewrite Hl'. simpl. eauto.
Qed.

Lemma list_remove_perm x l l' : list_remove x l = Some l' → l ≡ₚ x :: l'.
Proof.
  revert l'. induction l as [|y l IH]; intros l'; simpl; [done|].
  case_decide as Hxy.
  - intros [= <-]. by subst.
  - destruct (list_remove x l) as [k|]; simpl; [|done]. intros [= <-].
    rewrite (IH k) by done. constructor.
Qed.

Lemma list_remove_elem x l l' y :
  NoDup l → list_remove x l = Some l' → y ∈ l' ↔ y ∈ l ∧ y ≠ x.
Proof.
  intros Hnd Hrm%list_remove_perm. rewrite Hrm in Hnd |- *.
  apply NoDup_cons in Hnd as [? ?]. rewrite elem_of_cons. naive_solver.
Qed.

Lemma list_remove_NoDup x l l' : NoDup l → list_remove x l = Some l' → NoDup l'.
Proof.
  intros Hnd Hrm%list_remove_perm. rewrite Hrm in Hnd. by apply NoDup_cons in Hnd as [_ ?].
Qed.

Lemma list_remove_split x l l' :
  list_remove x l = Some l' → ∃ l1 l2, l = l1 ++ x :: l2 ∧ l' = l1 ++ l2 ∧ x ∉ l1.
Proof.
  revert l'. induction l as [|y l IH]; intros l'; simpl; [done|].
  case_decide as Hxy.
  - intros [= <-]. subst. exists [], l. set_solver.
  - destruct (list_remove x l) as [k|]; simpl; [|done]. intros [= <-].
    destruct (IH k eq_refl) as (l1 & l2 & -> & -> & ?).
    exists (y :: l1), l2. set_solver.
Qed.

Lemma list_remove_app_notin l1 x l2 : x ∉ l1 → list_remove x (l1 ++ x :: l2) = Some (l1 ++ l2).
Proof.
  induction l1 as [|y l1 IH]; intros Hx; simpl.
  - by rewrite decide_True.
  - apply not_elem_of_cons in Hx as [? ?]. rewrite decide_False by done.
    by rewrite IH.
Qed.

Lemma next_of_app l1 x l2 : x ∉ l1 → next_of x (l1 ++ x :: l2) = head l2.
Proof.
  induction l1 as [|y l1 IH]; intros Hx; simpl.
  - by rewrite decide_True.
  - apply not_elem_of_cons in Hx as [? ?]. rewrite decide_False by done. auto.
Qed.
End remove.

(** *** Lists sorted by a key *)
Definition sorted_by {A} (f : A → Z) (l : list A) : Prop :=
  StronglySorted (λ a b, f a <= f b) l.

Section sorted.
Context {A : Type}.
Implicit Types (f g : A → Z) (x : A) (l : list A).

Lemma sorted_by_app f l1 l2 :
  sorted_by f (l1 ++ l2) ↔
    sorted_by f l1 ∧ sorted_by f l2 ∧ (∀ a b, a ∈ l1 → b ∈ l2 → f a <= f b).
Proof.
  unfold sorted_by. induction l1 as [|a l1 IH]; simpl.
  - split; [|naive_solver]. intros. repeat split; [constructor|done|set_solver].
  - split.
    + intros Hs. apply StronglySorted_inv in Hs as [Hs Hall].
      apply IH in Hs as (? & ? & ?). apply Forall_app in Hall as [? Hall].
      rewrite Forall_forall in Hall.
      split; [by constructor|]. split; [done|].
      intros a' b. rewrite elem_of_cons. naive_solver.
    + intros (Hs & ? & Hle). apply StronglySorted_inv in Hs as [Hs Hall].
      constructor.
      * apply IH. repeat split; [done..|]. intros; apply Hle; [by right|done].
      * apply Forall_app. split; [done|]. apply Forall_forall.
        intros; apply Hle; [by left|done].
Qed.

Lemma sorted_by_cons f x l :
  sorted_by f (x :: l) ↔ sorted_by f l ∧ ∀ b, b ∈ l → f x <= f b.
Proof.
  unfold sorted_by. split.
  - intros [? H]%StronglySorted_inv. split; [done|]. by apply Forall_forall.
  - intros [? ?]. constructor; [done|]. by apply Forall_forall.
Qed.

Lemma sorted_by_ext f g l :
  (∀ a, a ∈ l → f a = g a) → sorted_by f l → sorted_by g l.
Proof.
  induction l as [|a l IH]; intros Hfg; [constructor|].
  rewrite !sorted_by_cons. intros [Hs Hle]. split.
  - apply IH; [|done]. intros; apply Hfg; by right.
  - intros b Hb. rewrite <- !Hfg; [auto|by right|by left].
Qed.

Lemma sorted_by_remove_middle f l1 x l2 : sorted_by f (l1 ++ x :: l2) → sorted_by f (l1 ++ l2).
Proof.
  rewrite !sorted_by_app, sorted_by_cons. intros (? & [? ?] & Hle).
  repeat split; [done..|]. intros; apply Hle; [done|by right].
Qed.

(** Stable insertion at the first strictly larger key keeps the list sorted. *)
Lemma sorted_by_insert f x l :
  sorted_by f l → sorted_by f (insert_before (λ e, f x <? f e) x l).
Proof.
  intros Hs. destruct (insert_before_split (λ e, f x <? f e) x l)
    as (l1 & l2 & -> & -> & H1 & H2).
  rewrite Forall_forall in H1. rewrite sorted_by_app in Hs. destruct Hs as (Hs1 & Hs2 & Hs3).
  rewrite sorted_by_app, sorted_by_cons. repeat split; [done|done| |].
  - intros b Hb. destruct l2 as [|e l2]; [by apply not_elem_of_nil in Hb|].
    specialize (H2 e eq_refl). apply sorted_by_cons in Hs2 as [_ Hs2].
    apply elem_of_cons in Hb as [->|Hb]; [lia|]. specialize (Hs2 b Hb). lia.
  - intros a b Ha [->|Hb]%elem_of_cons; [|auto]. specialize (H1 a Ha). simpl in H1. lia.
Qed.

(** In a sorted list the elements below a bound are a prefix. *)
Lemma sorted_by_head_le f x l y : sorted_by f (x :: l) → y ∈ x :: l → f x <= f y.
Proof. rewrite sorted_by_cons. intros [_ ?] [->|?]%elem_of_cons; [lia|auto]. Qed.
End sorted.

Lemma sorted_by_remove {A} `{EqDecision A} (f : A → Z) x (l l' : list A) :
  list_remove x l = Some l' → sorted_by f l → sorted_by f l'.
Proof.
  intros (l1 & l2 & -> & -> & _)%list_remove_split. apply sorted_by_remove_middle.
Qed.

(** *** Filters *)

Lemma list_filter_all_true {A} (P : A → Prop) `{∀ x, Decision (P x)} (l : list A) :
  (∀ x, x ∈ l → P x) → filter P l = l.
Proof.
  induction l as [|x l IH]; intros H'; [done|].
  rewrite filter_cons_True by (apply H'; by left). f_equal. apply IH. set_solver.
Qed.

Lemma list_filter_none {A} (P : A → Prop) `{∀ x, Decision (P x)} (l : list A) :
  (∀ x, x ∈ l → ¬ P x) → filter P l = [].
Proof.
  induction l as [|x l IH]; intros H'; [done|].
  rewrite filter_cons_False by (apply H'; by left). apply IH. set_solver.
Qed.

Lemma list_filter_ext_in {A} (p q : A → bool) (l : list A) :
  (∀ x, x ∈ l → p x = q x) → filter (λ x, p x = true) l = filter (λ x, q x = true) l.
Proof.
  induction l as [|x l IH]; intros H'; [done|]. rewrite !filter_cons, IH by set_solver.
  rewrite (H' x) by left. done.
Qed.

Lemma list_filter_ext_neg {A} (p q : A → bool) (l : list A) :
  (∀ x, x ∈ l → p x = q x) → filter (λ x, p x = false) l = filter (λ x, q x = false) l.
Proof.
  induction l as [|x l IH]; intros H'; [done|]. rewrite !filter_cons, IH by set_solver.
  rewrite (H' x) by left. done.
Qed.

Lemma list_remove_filter {A} `{EqDecision A} (x : A) l l' :
  NoDup l → list_remove x l = Some l' → l' = filter (λ y, y ≠ x) l.
Proof.
  intros Hnd Hl. destruct (list_remove_split _ _ _ Hl) as (l1 & l2 & -> & -> & Hn1).
  apply NoDup_app in Hnd as (_ & _ & Hn2). apply NoDup_cons in Hn2 as [Hn2 _].
  rewrite filter_app, filter_cons_False by naive_solver.
  rewrite !list_filter_all_true; [done|set_solver..].
Qed.
