(* ===== verification/OsState.v ===== *)
(** The state of the RTOS kernel (libs/os): the C structs as records, the
    global variables as one record [kstate], and the primitive reads and
    writes the kernel functions are composed of.

    A pointer to a struct is an identifier into a finite map; a lookup uses
    stdpp's total lookup, so that a struct that was never written reads as
    zero-initialised memory (all the structs in question are static objects or
    cleared with [memset]).  Intrusive lists are lists of identifiers. *)
From Stdlib Require Import ZArith Lia.
From stdpp Require Import base decidable list numbers gmap countable.
From S2P Require Import Prelude.

#[local] Open Scope Z_scope.

(** ** Constants *)
Inductive os_error :=
| OS_OK | OS_ENOMEM | OS_EINVAL | OS_INVALID_PARM | OS_MEM_NOT_ALIGNED
| OS_BAD_MUTEX | OS_TIMEOUT | OS_ERR_IN_ISR | OS_ERR_PRIV | OS_NOT_STARTED
| OS_ENOENT.
#[export] Instance os_error_eq_dec : EqDecision os_error.
Proof. solve_decision. Defined.

(** [t_state] of a task struct that was never initialised is 0, which is
    neither of the two enumerators. *)
Inductive os_task_state := OS_TASK_UNINIT | OS_TASK_READY | OS_TASK_SLEEP.
#[export] Instance os_task_state_eq_dec : EqDecision os_task_state.
Proof. solve_decision. Defined.

Definition OS_TASK_FLAG_NO_TIMEOUT : Z := 1.
Definition OS_TASK_FLAG_SEM_WAIT : Z := 2.
Definition OS_TASK_FLAG_MUTEX_WAIT : Z := 4.
Definition OS_TIMEOUT_NEVER : Z := 4294967295.
Definition OS_WAIT_FOREVER : Z := 4294967295.   (* (os_time_t) -1 *)
Definition OS_IDLE_PRIO : Z := 255.
Definition OS_SANITY_PRIO : Z := 254.
Definition OS_EVENT_T_TIMER : Z := 1.
Definition OS_TICKS_PER_SEC : Z := 1000.

(** Flag tests and updates on a flag word. *)
Definition has_flag (f m : Z) : bool := negb (Z.land f m =? 0).
Definition set_flag (f m : Z) : Z := Z.lor f m.
Definition clear_flag (f m : Z) : Z := Z.land f (Z.lnot m).

Lemma has_flag_pow2 f k : 0 <= k → has_flag f (2 ^ k) = Z.testbit f k.
Proof.
  intros Hk. unfold has_flag. destruct (Z.testbit f k) eqn:Hb.
  - apply negb_true_iff, Z.eqb_neq. intros H0.
    assert (Z.testbit (Z.land f (2 ^ k)) k = false) as Hc by by rewrite H0, Z.bits_0.
    by rewrite Z.land_spec, Hb, Z.pow2_bits_true in Hc.
  - apply negb_false_iff, Z.eqb_eq, Z.bits_inj_0. intros n. rewrite Z.land_spec.
    destruct (decide (n = k)) as [->|]; [by rewrite Hb|].
    rewrite Z.pow2_bits_false by done. apply andb_false_r.
Qed.

Lemma has_set_flag f k j : 0 <= k → 0 <= j →
  has_flag (set_flag f (2 ^ k)) (2 ^ j) = if decide (k = j) then true else has_flag f (2 ^ j).
Proof.
  intros. rewrite !has_flag_pow2 by done. unfold set_flag. rewrite Z.lor_spec.
  case_decide; subst.
  - rewrite Z.pow2_bits_true by done. apply orb_true_r.
  - rewrite Z.pow2_bits_false by done. apply orb_false_r.
Qed.

Lemma has_clear_flag f k j : 0 <= k → 0 <= j →
  has_flag (clear_flag f (2 ^ k)) (2 ^ j) = if decide (k = j) then false else has_flag f (2 ^ j).
Proof.
  intros. rewrite !has_flag_pow2 by done. unfold clear_flag.
  rewrite Z.land_spec, Z.lnot_spec by done. case_decide; subst.
  - rewrite Z.pow2_bits_true by done. apply andb_false_r.
  - rewrite Z.pow2_bits_false by done. apply andb_true_r.
Qed.

(** The nine combinations that occur, for rewriting. *)
Lemma no_timeout_set f : has_flag (set_flag f OS_TASK_FLAG_NO_TIMEOUT) OS_TASK_FLAG_NO_TIMEOUT = true.
Proof. by apply (has_set_flag f 0 0). Qed.
Lemma no_timeout_set_sem f :
  has_flag (set_flag f OS_TASK_FLAG_SEM_WAIT) OS_TASK_FLAG_NO_TIMEOUT = has_flag f OS_TASK_FLAG_NO_TIMEOUT.
Proof. by apply (has_set_flag f 1 0). Qed.
Lemma no_timeout_set_mutex f :
  has_flag (set_flag f OS_TASK_FLAG_MUTEX_WAIT) OS_TASK_FLAG_NO_TIMEOUT = has_flag f OS_TASK_FLAG_NO_TIMEOUT.
Proof. by apply (has_set_flag f 2 0). Qed.
Lemma no_timeout_clear f : has_flag (clear_flag f OS_TASK_FLAG_NO_TIMEOUT) OS_TASK_FLAG_NO_TIMEOUT = false.
Proof. by apply (has_clear_flag f 0 0). Qed.
Lemma no_timeout_clear_sem f :
  has_flag (clear_flag f OS_TASK_FLAG_SEM_WAIT) OS_TASK_FLAG_NO_TIMEOUT = has_flag f OS_TASK_FLAG_NO_TIMEOUT.
Proof. by apply (has_clear_flag f 1 0). Qed.
Lemma no_timeout_clear_mutex f :
  has_flag (clear_flag f OS_TASK_FLAG_MUTEX_WAIT) OS_TASK_FLAG_NO_TIMEOUT = has_flag f OS_TASK_FLAG_NO_TIMEOUT.
Proof. by apply (has_clear_flag f 2 0). Qed.
Lemma sem_wait_set f : has_flag (set_flag f OS_TASK_FLAG_SEM_WAIT) OS_TASK_FLAG_SEM_WAIT = true.
Proof. by apply (has_set_flag f 1 1). Qed.
Lemma sem_wait_set_no_timeout f :
  has_flag (set_flag f OS_TASK_FLAG_NO_TIMEOUT) OS_TASK_FLAG_SEM_WAIT = has_flag f OS_TASK_FLAG_SEM_WAIT.
Proof. by apply (has_set_flag f 0 1). Qed.
Lemma sem_wait_clear f : has_flag (clear_flag f OS_TASK_FLAG_SEM_WAIT) OS_TASK_FLAG_SEM_WAIT = false.
Proof. by apply (has_clear_flag f 1 1). Qed.
Lemma sem_wait_clear_no_timeout f :
  has_flag (clear_flag f OS_TASK_FLAG_NO_TIMEOUT) OS_TASK_FLAG_SEM_WAIT = has_flag f OS_TASK_FLAG_SEM_WAIT.
Proof. by apply (has_clear_flag f 0 1). Qed.

Create Rewrite HintDb flags.
#[export] Hint Rewrite no_timeout_set no_timeout_set_sem no_timeout_set_mutex no_timeout_clear
  no_timeout_clear_sem no_timeout_clear_mutex sem_wait_set sem_wait_set_no_timeout
  sem_wait_clear sem_wait_clear_no_timeout : flags.

(** ** Tick arithmetic: the OS_TIME_TICK macros of os_time.h *)
Definition OS_TIME_TICK_LT (t1 t2 : Z) : bool := s32 (u32 (t1 - t2)) <? 0.
Definition OS_TIME_TICK_GT (t1 t2 : Z) : bool := 0 <? s32 (u32 (t1 - t2)).
Definition OS_TIME_TICK_GEQ (t1 t2 : Z) : bool := 0 <=? s32 (u32 (t1 - t2)).

(** Ticks that remain, at time [now], until the tick counter reads [t]. *)
Definition ticks_until (now t : Z) : Z := u32 (t - now).

(** Within half the counter's range the signed comparison of two tick counts is
    the comparison of the ticks that remain until them, wrap-around included. *)
Lemma tick_gt_until now a b :
  ticks_until now a < 2147483648 → ticks_until now b < 2147483648 →
  OS_TIME_TICK_GT a b = (ticks_until now b <? ticks_until now a).
Proof. unfold OS_TIME_TICK_GT, ticks_until. intros. wrap_lia. Qed.

Lemma tick_lt_until now a b :
  ticks_until now a < 2147483648 → ticks_until now b < 2147483648 →
  OS_TIME_TICK_LT a b = (ticks_until now a <? ticks_until now b).
Proof. unfold OS_TIME_TICK_LT, ticks_until. intros. wrap_lia. Qed.

Lemma tick_geq_until now a :
  ticks_until now a < 2147483648 → OS_TIME_TICK_GEQ now a = (ticks_until now a =? 0).
Proof. unfold OS_TIME_TICK_GEQ, ticks_until. intros. wrap_lia. Qed.

Lemma ticks_until_add now n : 0 <= n < 4294967296 → ticks_until now (u32 (now + n)) = n.
Proof. unfold ticks_until. intros. wrap_lia. Qed.

Lemma ticks_until_succ now t :
  1 <= ticks_until now t → ticks_until (u32 (now + 1)) t = ticks_until now t - 1.
Proof. unfold ticks_until. intros. wrap_lia. Qed.

Lemma ticks_until_bound now t : 0 <= ticks_until now t < 4294967296.
Proof. apply u32_bound. Qed.

(** ** Identifiers *)
Abbreviation tid := nat (only parsing).

(** What [t_obj] can point to: the structs that start with a waiter list. *)
Inductive obj := ObjSem (k : nat) | ObjMutex (k : nat).
#[export] Instance obj_eq_dec : EqDecision obj.
Proof. solve_decision. Defined.

(** Events are embedded in callouts, mqueues and task packet queues, or
    belong to the application. *)
Inductive evid := EvUser (n : nat) | EvCallout (c : nat) | EvQueue (q : nat).
#[export] Instance evid_eq_dec : EqDecision evid.
Proof. solve_decision. Defined.
#[export] Instance evid_countable : Countable evid.
Proof.
  refine (inj_countable'
    (λ e, match e with
          | EvUser n => inl n
          | EvCallout c => inr (inl c)
          | EvQueue q => inr (inr q)
          end)
    (λ x, match x with
          | inl n => EvUser n
          | inr (inl c) => EvCallout c
          | inr (inr q) => EvQueue q
          end) _). by intros [].
Defined.

(** A sanity check is embedded in a task or belongs to the application. *)
Inductive scid := ScTask (t : nat) | ScUser (n : nat).
#[export] Instance scid_eq_dec : EqDecision scid.
Proof. solve_decision. Defined.
#[export] Instance scid_countable : Countable scid.
Proof.
  refine (inj_countable'
    (λ e, match e with ScTask t => inl t | ScUser n => inr n end)
    (λ x, match x with inl t => ScTask t | inr n => ScUser n end) _). by intros [].
Defined.

(** ** Structs

    One record per C struct, one [set_<field>] per field. *)
Record os_task := mk_task {
  t_prio : Z;
  t_state : os_task_state;
  t_flags : Z;
  t_obj : option obj;
  t_next_wakeup : Z;
  t_run_time : Z;
  t_ctx_sw_cnt : Z;
  t_taskid : Z;
  t_stacksize : Z;
  t_stack : list Z;
}.
Definition set_t_prio (v : Z) (s : os_task) : os_task :=
  mk_task v (t_state s) (t_flags s) (t_obj s) (t_next_wakeup s) (t_run_time s) (t_ctx_sw_cnt s) (t_taskid s) (t_stacksize s) (t_stack s).
Definition set_t_state (v : os_task_state) (s : os_task) : os_task :=
  mk_task (t_prio s) v (t_flags s) (t_obj s) (t_next_wakeup s) (t_run_time s) (t_ctx_sw_cnt s) (t_taskid s) (t_stacksize s) (t_stack s).
Definition set_t_flags (v : Z) (s : os_task) : os_task :=
  mk_task (t_prio s) (t_state s) v (t_obj s) (t_next_wakeup s) (t_run_time s) (t_ctx_sw_cnt s) (t_taskid s) (t_stacksize s) (t_stack s).
Definition set_t_obj (v : option obj) (s : os_task) : os_task :=
  mk_task (t_prio s) (t_state s) (t_flags s) v (t_next_wakeup s) (t_run_time s) (t_ctx_sw_cnt s) (t_taskid s) (t_stacksize s) (t_stack s).
Definition set_t_next_wakeup (v : Z) (s : os_task) : os_task :=
  mk_task (t_prio s) (t_state s) (t_flags s) (t_obj s) v (t_run_time s) (t_ctx_sw_cnt s) (t_taskid s) (t_stacksize s) (t_stack s).
Definition set_t_run_time (v : Z) (s : os_task) : os_task :=
  mk_task (t_prio s) (t_state s) (t_flags s) (t_obj s) (t_next_wakeup s) v (t_ctx_sw_cnt s) (t_taskid s) (t_stacksize s) (t_stack s).
Definition set_t_ctx_sw_cnt (v : Z) (s : os_task) : os_task :=
  mk_task (t_prio s) (t_state s) (t_flags s) (t_obj s) (t_next_wakeup s) (t_run_time s) v (t_taskid s) (t_stacksize s) (t_stack s).
Definition set_t_taskid (v : Z) (s : os_task) : os_task :=
  mk_task (t_prio s) (t_state s) (t_flags s) (t_obj s) (t_next_wakeup s) (t_run_time s) (t_ctx_sw_cnt s) v (t_stacksize s) (t_stack s).
Definition set_t_stacksize (v : Z) (s : os_task) : os_task :=
  mk_task (t_prio s) (t_state s) (t_flags s) (t_obj s) (t_next_wakeup s) (t_run_time s) (t_ctx_sw_cnt s) (t_taskid s) v (t_stack s).
Definition set_t_stack (v : list Z) (s : os_task) : os_task :=
  mk_task (t_prio s) (t_state s) (t_flags s) (t_obj s) (t_next_wakeup s) (t_run_time s) (t_ctx_sw_cnt s) (t_taskid s) (t_stacksize s) v.
#[export] Instance os_task_inhabited : Inhabited os_task :=
  populate (mk_task 0 OS_TASK_UNINIT 0 None 0 0 0 0 0 []).

Record os_sem := mk_sem {
  sem_head : list tid;
  sem_tokens : Z;
}.
Definition set_sem_head (v : list tid) (s : os_sem) : os_sem :=
  mk_sem v (sem_tokens s).
Definition set_sem_tokens (v : Z) (s : os_sem) : os_sem :=
  mk_sem (sem_head s) v.
#[export] Instance os_sem_inhabited : Inhabited os_sem := populate (mk_sem [] 0).

Record os_mutex := mk_mutex {
  mu_head : list tid;
  mu_prio : Z;
  mu_level : Z;
  mu_owner : option tid;
}.
Definition set_mu_head (v : list tid) (s : os_mutex) : os_mutex :=
  mk_mutex v (mu_prio s) (mu_level s) (mu_owner s).
Definition set_mu_prio (v : Z) (s : os_mutex) : os_mutex :=
  mk_mutex (mu_head s) v (mu_level s) (mu_owner s).
Definition set_mu_level (v : Z) (s : os_mutex) : os_mutex :=
  mk_mutex (mu_head s) (mu_prio s) v (mu_owner s).
Definition set_mu_owner (v : option tid) (s : os_mutex) : os_mutex :=
  mk_mutex (mu_head s) (mu_prio s) (mu_level s) v.
#[export] Instance os_mutex_inhabited : Inhabited os_mutex := populate (mk_mutex [] 0 0 None).

Record os_sanity_check := mk_sanity_check {
  sc_checkin_last : Z;
  sc_checkin_itvl : Z;
  sc_func : option nat;
}.
Definition set_sc_checkin_last (v : Z) (s : os_sanity_check) : os_sanity_check :=
  mk_sanity_check v (sc_checkin_itvl s) (sc_func s).
Definition set_sc_checkin_itvl (v : Z) (s : os_sanity_check) : os_sanity_check :=
  mk_sanity_check (sc_checkin_last s) v (sc_func s).
Definition set_sc_func (v : option nat) (s : os_sanity_check) : os_sanity_check :=
  mk_sanity_check (sc_checkin_last s) (sc_checkin_itvl s) v.
#[export] Instance os_sanity_check_inhabited : Inhabited os_sanity_check :=
  populate (mk_sanity_check 0 0 None).

Record os_event := mk_event {
  ev_queued : bool;
  ev_type : Z;
  ev_arg : Z;
}.
Definition set_ev_queued (v : bool) (s : os_event) : os_event :=
  mk_event v (ev_type s) (ev_arg s).
Definition set_ev_type (v : Z) (s : os_event) : os_event :=
  mk_event (ev_queued s) v (ev_arg s).
Definition set_ev_arg (v : Z) (s : os_event) : os_event :=
  mk_event (ev_queued s) (ev_type s) v.
#[export] Instance os_event_inhabited : Inhabited os_event := populate (mk_event false 0 0).

Record os_eventq := mk_eventq {
  evq_task : option tid;
  evq_list : list evid;
}.
Definition set_evq_task (v : option tid) (s : os_eventq) : os_eventq :=
  mk_eventq v (evq_list s).
Definition set_evq_list (v : list evid) (s : os_eventq) : os_eventq :=
  mk_eventq (evq_task s) v.
#[export] Instance os_eventq_inhabited : Inhabited os_eventq := populate (mk_eventq None []).

(** [c_linked] is [c_next.tqe_prev != NULL], the test of [os_callout_queued];
    [cf_func] is the function of the [os_callout_func] a callout may be embedded
    in. *)
Record os_callout := mk_callout {
  c_evq : option nat;
  c_ticks : Z;
  c_linked : bool;
  cf_func : option nat;
}.
Definition set_c_evq (v : option nat) (s : os_callout) : os_callout :=
  mk_callout v (c_ticks s) (c_linked s) (cf_func s).
Definition set_c_ticks (v : Z) (s : os_callout) : os_callout :=
  mk_callout (c_evq s) v (c_linked s) (cf_func s).
Definition set_c_linked (v : bool) (s : os_callout) : os_callout :=
  mk_callout (c_evq s) (c_ticks s) v (cf_func s).
Definition set_cf_func (v : option nat) (s : os_callout) : os_callout :=
  mk_callout (c_evq s) (c_ticks s) (c_linked s) v.
#[export] Instance os_callout_inhabited : Inhabited os_callout :=
  populate (mk_callout None 0 false None).

(** ** The global state

    [pendsv] is the PendSV pending bit of the ARM interrupt controller, which
    [os_arch_ctx_sw] sets. *)
Record kstate := mk_kstate {
  tasks : gmap tid os_task;
  g_os_run_list : list tid;
  g_os_sleep_list : list tid;
  g_current_task : option tid;
  g_os_time : Z;
  g_os_last_ctx_sw_time : Z;
  g_os_started : bool;
  pendsv : bool;
  sems : gmap nat os_sem;
  mutexes : gmap nat os_mutex;
  eventqs : gmap nat os_eventq;
  events : gmap evid os_event;
  callouts : gmap nat os_callout;
  g_callout_list : list nat;
  g_task_id : Z;
  g_os_task_list : list tid;
  sanity_checks : gmap scid os_sanity_check;
  g_os_sanity_check_list : list scid;
}.
Definition set_tasks (v : gmap tid os_task) (s : kstate) : kstate :=
  mk_kstate v (g_os_run_list s) (g_os_sleep_list s) (g_current_task s) (g_os_time s) (g_os_last_ctx_sw_time s) (g_os_started s) (pendsv s) (sems s) (mutexes s) (eventqs s) (events s) (callouts s) (g_callout_list s) (g_task_id s) (g_os_task_list s) (sanity_checks s) (g_os_sanity_check_list s).
Definition set_g_os_run_list (v : list tid) (s : kstate) : kstate :=
  mk_kstate (tasks s) v (g_os_sleep_list s) (g_current_task s) (g_os_time s) (g_os_last_ctx_sw_time s) (g_os_started s) (pendsv s) (sems s) (mutexes s) (eventqs s) (events s) (callouts s) (g_callout_list s) (g_task_id s) (g_os_task_list s) (sanity_checks s) (g_os_sanity_check_list s).
Definition set_g_os_sleep_list (v : list tid) (s : kstate) : kstate :=
  mk_kstate (tasks s) (g_os_run_list s) v (g_current_task s) (g_os_time s) (g_os_last_ctx_sw_time s) (g_os_started s) (pendsv s) (sems s) (mutexes s) (eventqs s) (events s) (callouts s) (g_callout_list s) (g_task_id s) (g_os_task_list s) (sanity_checks s) (g_os_sanity_check_list s).
Definition set_g_current_task (v : option tid) (s : kstate) : kstate :=
  mk_kstate (tasks s) (g_os_run_list s) (g_os_sleep_list s) v (g_os_time s) (g_os_last_ctx_sw_time s) (g_os_started s) (pendsv s) (sems s) (mutexes s) (eventqs s) (events s) (callouts s) (g_callout_list s) (g_task_id s) (g_os_task_list s) (sanity_checks s) (g_os_sanity_check_list s).
Definition set_g_os_time (v : Z) (s : kstate) : kstate :=
  mk_kstate (tasks s) (g_os_run_list s) (g_os_sleep_list s) (g_current_task s) v (g_os_last_ctx_sw_time s) (g_os_started s) (pendsv s) (sems s) (mutexes s) (eventqs s) (events s) (callouts s) (g_callout_list s) (g_task_id s) (g_os_task_list s) (sanity_checks s) (g_os_sanity_check_list s).
Definition set_g_os_last_ctx_sw_time (v : Z) (s : kstate) : kstate :=
  mk_kstate (tasks s) (g_os_run_list s) (g_os_sleep_list s) (g_current_task s) (g_os_time s) v (g_os_started s) (pendsv s) (sems s) (mutexes s) (eventqs s) (events s) (callouts s) (g_callout_list s) (g_task_id s) (g_os_task_list s) (sanity_checks s) (g_os_sanity_check_list s).
Definition set_g_os_started (v : bool) (s : kstate) : kstate :=
  mk_kstate (tasks s) (g_os_run_list s) (g_os_sleep_list s) (g_current_task s) (g_os_time s) (g_os_last_ctx_sw_time s) v (pendsv s) (sems s) (mutexes s) (eventqs s) (events s) (callouts s) (g_callout_list s) (g_task_id s) (g_os_task_list s) (sanity_checks s) (g_os_sanity_check_list s).
Definition set_pendsv (v : bool) (s : kstate) : kstate :=
  mk_kstate (tasks s) (g_os_run_list s) (g_os_sleep_list s) (g_current_task s) (g_os_time s) (g_os_last_ctx_sw_time s) (g_os_started s) v (sems s) (mutexes s) (eventqs s) (events s) (callouts s) (g_callout_list s) (g_task_id s) (g_os_task_list s) (sanity_checks s) (g_os_sanity_check_list s).
Definition set_sems (v : gmap nat os_sem) (s : kstate) : kstate :=
  mk_kstate (tasks s) (g_os_run_list s) (g_os_sleep_list s) (g_current_task s) (g_os_time s) (g_os_last_ctx_sw_time s) (g_os_started s) (pendsv s) v (mutexes s) (eventqs s) (events s) (callouts s) (g_callout_list s) (g_task_id s) (g_os_task_list s) (sanity_checks s) (g_os_sanity_check_list s).
Definition set_mutexes (v : gmap nat os_mutex) (s : kstate) : kstate :=
  mk_kstate (tasks s) (g_os_run_list s) (g_os_sleep_list s) (g_current_task s) (g_os_time s) (g_os_last_ctx_sw_time s) (g_os_started s) (pendsv s) (sems s) v (eventqs s) (events s) (callouts s) (g_callout_list s) (g_task_id s) (g_os_task_list s) (sanity_checks s) (g_os_sanity_check_list s).
Definition set_eventqs (v : gmap nat os_eventq) (s : kstate) : kstate :=
  mk_kstate (tasks s) (g_os_run_list s) (g_os_sleep_list s) (g_current_task s) (g_os_time s) (g_os_last_ctx_sw_time s) (g_os_started s) (pendsv s) (sems s) (mutexes s) v (events s) (callouts s) (g_callout_list s) (g_task_id s) (g_os_task_list s) (sanity_checks s) (g_os_sanity_check_list s).
Definition set_events (v : gmap evid os_event) (s : kstate) : kstate :=
  mk_kstate (tasks s) (g_os_run_list s) (g_os_sleep_list s) (g_current_task s) (g_os_time s) (g_os_last_ctx_sw_time s) (g_os_started s) (pendsv s) (sems s) (mutexes s) (eventqs s) v (callouts s) (g_callout_list s) (g_task_id s) (g_os_task_list s) (sanity_checks s) (g_os_sanity_check_list s).
Definition set_callouts (v : gmap nat os_callout) (s : kstate) : kstate :=
  mk_kstate (tasks s) (g_os_run_list s) (g_os_sleep_list s) (g_current_task s) (g_os_time s) (g_os_last_ctx_sw_time s) (g_os_started s) (pendsv s) (sems s) (mutexes s) (eventqs s) (events s) v (g_callout_list s) (g_task_id s) (g_os_task_list s) (sanity_checks s) (g_os_sanity_check_list s).
Definition set_g_callout_list (v : list nat) (s : kstate) : kstate :=
  mk_kstate (tasks s) (g_os_run_list s) (g_os_sleep_list s) (g_current_task s) (g_os_time s) (g_os_last_ctx_sw_time s) (g_os_started s) (pendsv s) (sems s) (mutexes s) (eventqs s) (events s) (callouts s) v (g_task_id s) (g_os_task_list s) (sanity_checks s) (g_os_sanity_check_list s).
Definition set_g_task_id (v : Z) (s : kstate) : kstate :=
  mk_kstate (tasks s) (g_os_run_list s) (g_os_sleep_list s) (g_current_task s) (g_os_time s) (g_os_last_ctx_sw_time s) (g_os_started s) (pendsv s) (sems s) (mutexes s) (eventqs s) (events s) (callouts s) (g_callout_list s) v (g_os_task_list s) (sanity_checks s) (g_os_sanity_check_list s).
Definition set_g_os_task_list (v : list tid) (s : kstate) : kstate :=
  mk_kstate (tasks s) (g_os_run_list s) (g_os_sleep_list s) (g_current_task s) (g_os_time s) (g_os_last_ctx_sw_time s) (g_os_started s) (pendsv s) (sems s) (mutexes s) (eventqs s) (events s) (callouts s) (g_callout_list s) (g_task_id s) v (sanity_checks s) (g_os_sanity_check_list s).
Definition set_sanity_checks (v : gmap scid os_sanity_check) (s : kstate) : kstate :=
  mk_kstate (tasks s) (g_os_run_list s) (g_os_sleep_list s) (g_current_task s) (g_os_time s) (g_os_last_ctx_sw_time s) (g_os_started s) (pendsv s) (sems s) (mutexes s) (eventqs s) (events s) (callouts s) (g_callout_list s) (g_task_id s) (g_os_task_list s) v (g_os_sanity_check_list s).
Definition set_g_os_sanity_check_list (v : list scid) (s : kstate) : kstate :=
  mk_kstate (tasks s) (g_os_run_list s) (g_os_sleep_list s) (g_current_task s) (g_os_time s) (g_os_last_ctx_sw_time s) (g_os_started s) (pendsv s) (sems s) (mutexes s) (eventqs s) (events s) (callouts s) (g_callout_list s) (g_task_id s) (g_os_task_list s) (sanity_checks s) v.

Abbreviation K := (M kstate) (only parsing).

(** ** Primitive accesses *)
Definition task_of (s : kstate) (t : tid) : os_task := tasks s !!! t.
Definition sem_of (s : kstate) (k : nat) : os_sem := sems s !!! k.
Definition mutex_of (s : kstate) (k : nat) : os_mutex := mutexes s !!! k.
Definition eventq_of (s : kstate) (q : nat) : os_eventq := eventqs s !!! q.
Definition event_of (s : kstate) (e : evid) : os_event := events s !!! e.
Definition callout_of (s : kstate) (c : nat) : os_callout := callouts s !!! c.
Definition sanity_of (s : kstate) (c : scid) : os_sanity_check := sanity_checks s !!! c.

Definition upd_task (t : tid) (f : os_task → os_task) (s : kstate) : kstate :=
  set_tasks (<[t := f (task_of s t)]> (tasks s)) s.
Definition upd_sem (k : nat) (f : os_sem → os_sem) (s : kstate) : kstate :=
  set_sems (<[k := f (sem_of s k)]> (sems s)) s.
Definition upd_mutex (k : nat) (f : os_mutex → os_mutex) (s : kstate) : kstate :=
  set_mutexes (<[k := f (mutex_of s k)]> (mutexes s)) s.
Definition upd_eventq (q : nat) (f : os_eventq → os_eventq) (s : kstate) : kstate :=
  set_eventqs (<[q := f (eventq_of s q)]> (eventqs s)) s.
Definition upd_event (e : evid) (f : os_event → os_event) (s : kstate) : kstate :=
  set_events (<[e := f (event_of s e)]> (events s)) s.
Definition upd_callout (c : nat) (f : os_callout → os_callout) (s : kstate) : kstate :=
  set_callouts (<[c := f (callout_of s c)]> (callouts s)) s.
Definition upd_sanity (c : scid) (f : os_sanity_check → os_sanity_check) (s : kstate) : kstate :=
  set_sanity_checks (<[c := f (sanity_of s c)]> (sanity_checks s)) s.

(** The waiter list an object starts with ([struct os_task_obj]). *)
Definition obj_head (s : kstate) (o : obj) : list tid :=
  match o with
  | ObjSem k => sem_head (sem_of s k)
  | ObjMutex k => mu_head (mutex_of s k)
  end.
Definition set_obj_head (o : obj) (l : list tid) (s : kstate) : kstate :=
  match o with
  | ObjSem k => upd_sem k (set_sem_head l) s
  | ObjMutex k => upd_mutex k (set_mu_head l) s
  end.

Lemma task_of_upd t f s u :
  task_of (upd_task t f s) u = if decide (t = u) then f (task_of s t) else task_of s u.
Proof.
  unfold task_of, upd_task. simpl. case_decide; subst.
  - by rewrite lookup_total_insert_eq.
  - by rewrite lookup_total_insert_ne.
Qed.
Lemma task_of_upd_eq t f s : task_of (upd_task t f s) t = f (task_of s t).
Proof. by rewrite task_of_upd, decide_True. Qed.
Lemma task_of_upd_ne t f s u : t ≠ u → task_of (upd_task t f s) u = task_of s u.
Proof. intros. by rewrite task_of_upd, decide_False. Qed.

Lemma sem_of_upd k f s j :
  sem_of (upd_sem k f s) j = if decide (k = j) then f (sem_of s k) else sem_of s j.
Proof.
  unfold sem_of, upd_sem. simpl. case_decide; subst.
  - by rewrite lookup_total_insert_eq.
  - by rewrite lookup_total_insert_ne.
Qed.
Lemma mutex_of_upd k f s j :
  mutex_of (upd_mutex k f s) j = if decide (k = j) then f (mutex_of s k) else mutex_of s j.
Proof.
  unfold mutex_of, upd_mutex. simpl. case_decide; subst.
  - by rewrite lookup_total_insert_eq.
  - by rewrite lookup_total_insert_ne.
Qed.
Lemma eventq_of_upd k f s j :
  eventq_of (upd_eventq k f s) j = if decide (k = j) then f (eventq_of s k) else eventq_of s j.
Proof.
  unfold eventq_of, upd_eventq. simpl. case_decide; subst.
  - by rewrite lookup_total_insert_eq.
  - by rewrite lookup_total_insert_ne.
Qed.
Lemma event_of_upd k f s j :
  event_of (upd_event k f s) j = if decide (k = j) then f (event_of s k) else event_of s j.
Proof.
  unfold event_of, upd_event. simpl. case_decide; subst.
  - by rewrite lookup_total_insert_eq.
  - by rewrite lookup_total_insert_ne.
Qed.
Lemma callout_of_upd k f s j :
  callout_of (upd_callout k f s) j = if decide (k = j) then f (callout_of s k) else callout_of s j.
Proof.
  unfold callout_of, upd_callout. simpl. case_decide; subst.
  - by rewrite lookup_total_insert_eq.
  - by rewrite lookup_total_insert_ne.
Qed.
Lemma obj_head_set o l s o' :
  obj_head (set_obj_head o l s) o' = if decide (o = o') then l else obj_head s o'.
Proof.
  destruct o as [k|k], o' as [j|j]; cbn [obj_head set_obj_head];
    [rewrite sem_of_upd| | |rewrite mutex_of_upd]; repeat case_decide; naive_solver.
Qed.
