(* ===== verification/OsSched.v ===== *)
(** The scheduler: libs/os/src/os_sched.c and os_time.c, with the context switch
    of the Cortex-M4 port (os_arch_arm.c and the PendSV handler of HAL_CM4.s).

    The operations come first, in the order of the source; then the scheduler
    invariant ([sched_ok], [sleep_ok], [wait_ok], [wait_asleep]) and, for each
    operation, the state it produces and the preservation of the invariant. *)
From Stdlib Require Import ZArith Lia.
From stdpp Require Import base decidable list numbers gmap.
From S2P Require Import Prelude.
From S2P Require Import OsState.

#[local] Open Scope Z_scope.

(** ** Operations *)

(** *** os_time.c *)
Definition os_time_get : K Z := gets g_os_time.
Definition os_time_tick : K unit := modify (λ s, set_g_os_time (u32 (g_os_time s + 1)) s).

(** *** os_sched.c *)
Definition os_sched_insert (t : tid) : K os_error :=
  s ← get;
  if bool_decide (t_state (task_of s t) ≠ OS_TASK_READY) then mret OS_EINVAL
  else
    modify (set_g_os_run_list
      (insert_before (λ e, t_prio (task_of s t) <? t_prio (task_of s e)) t (g_os_run_list s))) ;;
    mret OS_OK.

Definition os_sched_ctx_sw_hook (next_t : tid) : K unit :=
  s ← get;
  if bool_decide (g_current_task s = Some next_t) then mret tt
  else
    modify (upd_task next_t (λ k, set_t_ctx_sw_cnt (u32 (t_ctx_sw_cnt k + 1)) k)) ;;
    cur ← from_option_fault FNull (g_current_task s);
    modify (upd_task cur (λ k, set_t_run_time
      (u32 (t_run_time k + (g_os_time s - g_os_last_ctx_sw_time s))) k)) ;;
    modify (set_g_os_last_ctx_sw_time (g_os_time s)).

Definition os_sched_get_current_task : K (option tid) := gets g_current_task.
Definition os_sched_set_current_task (t : option tid) : K unit := modify (set_g_current_task t).
Definition os_sched_next_task : K (option tid) := gets (λ s, head (g_os_run_list s)).

(** The Cortex-M4 context switch: [os_arch_ctx_sw] and [os_arch_ctx_sw_isr] run
    the hook and set the PendSV pending bit; the PendSV exception, once taken,
    makes the head of the run list current. *)
Definition os_arch_ctx_sw (t : tid) : K unit :=
  os_sched_ctx_sw_hook t ;; modify (set_pendsv true).
Definition os_arch_ctx_sw_isr (t : tid) : K unit :=
  os_sched_ctx_sw_hook t ;; modify (set_pendsv true).

Definition PendSV_Handler : K unit :=
  s ← get;
  if pendsv s then
    modify (set_pendsv false) ;;
    if bool_decide (g_current_task s = head (g_os_run_list s)) then mret tt
    else
      next ← from_option_fault FNull (head (g_os_run_list s));
      modify (set_g_current_task (Some next))
  else mret tt.

Definition os_sched (next_t : option tid) (isr : bool) : K unit :=
  next ← match next_t with Some t => mret (Some t) | None => os_sched_next_task end;
  cur ← os_sched_get_current_task;
  if bool_decide (next ≠ cur) then
    t ← from_option_fault FNull next;
    if isr then os_arch_ctx_sw_isr t else os_arch_ctx_sw t
  else mret tt.

(** The loop test of [os_sched_sleep]: the entry waits forever, or wakes up
    strictly later than the task that goes to sleep. *)
Definition sleep_after (s : kstate) (t e : tid) : bool :=
  has_flag (t_flags (task_of s e)) OS_TASK_FLAG_NO_TIMEOUT ||
  OS_TIME_TICK_GT (t_next_wakeup (task_of s e)) (t_next_wakeup (task_of s t)).

Definition os_sched_sleep (t : tid) (nticks : Z) : K Z :=
  s ← get;
  run ← from_option_fault FList (list_remove t (g_os_run_list s));
  modify (set_g_os_run_list run) ;;
  modify (upd_task t (set_t_state OS_TASK_SLEEP)) ;;
  now ← os_time_get;
  modify (upd_task t (set_t_next_wakeup (u32 (now + nticks)))) ;;
  (if nticks =? OS_TIMEOUT_NEVER then
     modify (upd_task t (λ k, set_t_flags (set_flag (t_flags k) OS_TASK_FLAG_NO_TIMEOUT) k)) ;;
     modify (λ s, set_g_os_sleep_list (g_os_sleep_list s ++ [t]) s)
   else
     modify (λ s, set_g_os_sleep_list (insert_before (sleep_after s t) t (g_os_sleep_list s)) s)) ;;
  mret 0.

Definition os_sched_wakeup (t : tid) : K Z :=
  s ← get;
  assert_ (bool_decide (t_state (task_of s t) = OS_TASK_SLEEP)) ;;
  match t_obj (task_of s t) with
  | Some o =>
      assert_ (bool_decide (obj_head s o ≠ [])) ;;
      h ← from_option_fault FList (list_remove t (obj_head s o));
      modify (set_obj_head o h) ;;
      modify (upd_task t (set_t_obj None))
  | None => mret tt
  end ;;
  modify (upd_task t (set_t_state OS_TASK_READY)) ;;
  modify (upd_task t (set_t_next_wakeup 0)) ;;
  modify (upd_task t (λ k, set_t_flags (clear_flag (t_flags k) OS_TASK_FLAG_NO_TIMEOUT) k)) ;;
  s ← get;
  sl ← from_option_fault FList (list_remove t (g_os_sleep_list s));
  modify (set_g_os_sleep_list sl) ;;
  os_sched_insert t ;;
  mret 0.

(** The [while (t)] loop of [os_sched_os_timer_exp]; [next] is read before the
    task is woken up.  Every iteration removes a task from the sleep list, whose
    length is therefore enough fuel. *)
Fixpoint timer_exp_loop (fuel : nat) (now : Z) (t : option tid) : K unit :=
  match t with
  | None => mret tt
  | Some t =>
      match fuel with
      | O => fault_with FFuel
      | S fuel =>
          s ← get;
          if has_flag (t_flags (task_of s t)) OS_TASK_FLAG_NO_TIMEOUT then mret tt
          else if OS_TIME_TICK_GEQ now (t_next_wakeup (task_of s t)) then
            os_sched_wakeup t ;;
            timer_exp_loop fuel now (next_of t (g_os_sleep_list s))
          else mret tt
      end
  end.

Definition os_sched_os_timer_exp : K unit :=
  now ← os_time_get;
  s ← get;
  timer_exp_loop (length (g_os_sleep_list s)) now (head (g_os_sleep_list s)).

Definition os_sched_resort (t : tid) : K unit :=
  s ← get;
  if bool_decide (t_state (task_of s t) = OS_TASK_READY) then
    run ← from_option_fault FList (list_remove t (g_os_run_list s));
    modify (set_g_os_run_list run) ;;
    os_sched_insert t ;;
    mret tt
  else mret tt.

(** [os_time_delay] up to its call of [os_sched]; [true]: the caller blocks. *)
Definition os_time_delay (osticks : Z) : K bool :=
  if 0 <? osticks then
    cur ← os_sched_get_current_task;
    t ← from_option_fault FNull cur;
    os_sched_sleep t osticks ;;
    os_sched None false ;;
    mret true
  else mret false.

(** Runs straight-line kernel code, reads of the current task included. *)
Ltac k_step :=
  lazymatch goal with
  | |- wp os_sched_get_current_task _ _ => apply wp_gets; cbn beta
  | |- wp os_time_get _ _ => apply wp_gets; cbn beta
  | |- wp os_sched_next_task _ _ => apply wp_gets; cbn beta
  | |- _ => wp_step
  end.
Ltac k_simp := repeat k_step.

(** ** The scheduler invariant *)

Definition task_state (s : kstate) (t : tid) : os_task_state := t_state (task_of s t).
Definition task_prio (s : kstate) (t : tid) : Z := t_prio (task_of s t).
Definition no_timeout (s : kstate) (t : tid) : bool :=
  has_flag (t_flags (task_of s t)) OS_TASK_FLAG_NO_TIMEOUT.

(** The run list holds exactly the ready tasks, the sleep list exactly the
    sleeping ones, each once, and the run list is sorted by priority. *)
Record sched_ok (s : kstate) : Prop := {
  so_run_nodup : NoDup (g_os_run_list s);
  so_sleep_nodup : NoDup (g_os_sleep_list s);
  so_ready : ∀ t, t ∈ g_os_run_list s ↔ task_state s t = OS_TASK_READY;
  so_sleep : ∀ t, t ∈ g_os_sleep_list s ↔ task_state s t = OS_TASK_SLEEP;
  so_sorted : sorted_by (task_prio s) (g_os_run_list s);
}.

(** Order of the sleep list: ticks that remain until the wake-up time, tasks
    that wait forever last. *)
Definition wake_key (s : kstate) (t : tid) : Z :=
  if no_timeout s t then 4294967296
  else ticks_until (g_os_time s) (t_next_wakeup (task_of s t)).

(** The sleep list is sorted by wake-up time, every timed sleeper has at least
    [lo] and less than [2^31] ticks to go, and only sleeping tasks carry the
    wait-forever flag. *)
Record sleep_ok (lo : Z) (s : kstate) : Prop := {
  sl_sorted : sorted_by (wake_key s) (g_os_sleep_list s);
  sl_range : ∀ t, t ∈ g_os_sleep_list s → no_timeout s t = false →
    lo <= ticks_until (g_os_time s) (t_next_wakeup (task_of s t)) < 2147483648;
  sl_flag : ∀ t, no_timeout s t = true → task_state s t = OS_TASK_SLEEP;
}.

(** [t_obj] and the waiter lists of semaphores and mutexes describe the same
    relation. *)
Record wait_ok (s : kstate) : Prop := {
  wo_iff : ∀ t o, t_obj (task_of s t) = Some o ↔ t ∈ obj_head s o;
  wo_nodup : ∀ o, NoDup (obj_head s o);
}.

(** A task linked to an object is asleep. *)
Definition wait_asleep (s : kstate) : Prop :=
  ∀ t o, t_obj (task_of s t) = Some o → task_state s t = OS_TASK_SLEEP.

(** *** The part of the state these invariants depend on *)
Definition task_core (k : os_task) : Z * os_task_state * Z * option obj * Z :=
  (t_prio k, t_state k, t_flags k, t_obj k, t_next_wakeup k).

Record core_eq (s s' : kstate) : Prop := {
  ce_task : ∀ t, task_core (task_of s t) = task_core (task_of s' t);
  ce_run : g_os_run_list s = g_os_run_list s';
  ce_sleep : g_os_sleep_list s = g_os_sleep_list s';
  ce_time : g_os_time s = g_os_time s';
  ce_sems : sems s = sems s';
  ce_mutexes : mutexes s = mutexes s';
}.

#[export] Instance core_eq_equiv : Equivalence core_eq.
Proof.
  split.
  - by split.
  - intros s s' [????]. by split.
  - intros s1 s2 s3 [????] [????]. split; congruence.
Qed.

Lemma core_eq_state s s' t : core_eq s s' → task_state s t = task_state s' t.
Proof. intros [H]. unfold task_state. specialize (H t). unfold task_core in H. congruence. Qed.
Lemma core_eq_prio s s' t : core_eq s s' → task_prio s t = task_prio s' t.
Proof. intros [H]. unfold task_prio. specialize (H t). unfold task_core in H. congruence. Qed.
Lemma core_eq_obj s s' t : core_eq s s' → t_obj (task_of s t) = t_obj (task_of s' t).
Proof. intros [H]. specialize (H t). unfold task_core in H. congruence. Qed.
Lemma core_eq_no_timeout s s' t : core_eq s s' → no_timeout s t = no_timeout s' t.
Proof. intros [H]. unfold no_timeout. specialize (H t). unfold task_core in H. congruence. Qed.
Lemma core_eq_wakeup s s' t :
  core_eq s s' → t_next_wakeup (task_of s t) = t_next_wakeup (task_of s' t).
Proof. intros [H]. specialize (H t). unfold task_core in H. congruence. Qed.
Lemma core_eq_flags s s' t : core_eq s s' → t_flags (task_of s t) = t_flags (task_of s' t).
Proof. intros [H]. specialize (H t). unfold task_core in H. congruence. Qed.
Lemma core_eq_obj_head s s' o : core_eq s s' → obj_head s o = obj_head s' o.
Proof. intros []. destruct o; simpl; unfold sem_of, mutex_of; congruence. Qed.

Lemma sched_ok_core s s' : core_eq s s' → sched_ok s → sched_ok s'.
Proof.
  intros E [H1 H2 H3 H4 H5].
  rewrite (ce_run _ _ E) in *. rewrite (ce_sleep _ _ E) in *.
  split; [done|done|..].
  - intros t. by rewrite H3, (core_eq_state s s').
  - intros t. by rewrite H4, (core_eq_state s s').
  - eapply sorted_by_ext; [|done]. intros; by apply core_eq_prio.
Qed.

Lemma sleep_ok_core lo s s' : core_eq s s' → sleep_ok lo s → sleep_ok lo s'.
Proof.
  intros E [H1 H2 H3]. rewrite (ce_sleep _ _ E) in *. split.
  - eapply sorted_by_ext; [|done]. intros t _. unfold wake_key.
    by rewrite (core_eq_no_timeout s s'), (core_eq_wakeup s s'), (ce_time _ _ E).
  - intros t. rewrite <- (core_eq_no_timeout s s'), <- (core_eq_wakeup s s'), <- (ce_time _ _ E)
      by done. auto.
  - intros t. rewrite <- (core_eq_no_timeout s s'), <- (core_eq_state s s') by done. auto.
Qed.

Lemma wait_ok_core s s' : core_eq s s' → wait_ok s → wait_ok s'.
Proof.
  intros E [H1 H2]. split.
  - intros t o. by rewrite <- (core_eq_obj s s'), <- (core_eq_obj_head s s').
  - intros o. by rewrite <- (core_eq_obj_head s s').
Qed.

Lemma wait_asleep_core s s' : core_eq s s' → wait_asleep s → wait_asleep s'.
Proof.
  intros E H t o. rewrite <- (core_eq_obj s s'), <- (core_eq_state s s') by done. apply H.
Qed.

(** The scheduler invariants do not see run times, switch counts, the current
    task or the pending bit. *)
#[export] Instance sched_ok_proper : Proper (core_eq ==> iff) sched_ok.
Proof. intros s s' E. split; apply sched_ok_core; [done|by symmetry]. Qed.
#[export] Instance sleep_ok_proper lo : Proper (core_eq ==> iff) (sleep_ok lo).
Proof. intros s s' E. split; apply sleep_ok_core; [done|by symmetry]. Qed.
#[export] Instance wait_ok_proper : Proper (core_eq ==> iff) wait_ok.
Proof. intros s s' E. split; apply wait_ok_core; [done|by symmetry]. Qed.
#[export] Instance wait_asleep_proper : Proper (core_eq ==> iff) wait_asleep.
Proof. intros s s' E. split; apply wait_asleep_core; [done|by symmetry]. Qed.

(** ** Inserting into the run list *)

Lemma task_prio_run_list l s : task_prio (set_g_os_run_list l s) = task_prio s.
Proof. done. Qed.

Definition insert_st (t : tid) (s : kstate) : kstate :=
  set_g_os_run_list
    (insert_before (λ e, task_prio s t <? task_prio s e) t (g_os_run_list s)) s.

Lemma os_sched_insert_run t s :
  task_state s t = OS_TASK_READY → os_sched_insert t s = Ret (OS_OK, insert_st t s).
Proof.
  intros Hst. unfold os_sched_insert, mbind, M_bind, get. unfold task_state in Hst.
  rewrite Hst. by rewrite bool_decide_false by auto.
Qed.

(** A ready task that is missing from the run list is put in its place. *)
Lemma insert_st_sorted t s :
  sorted_by (task_prio s) (g_os_run_list s) →
  sorted_by (task_prio (insert_st t s)) (g_os_run_list (insert_st t s)).
Proof. apply sorted_by_insert. Qed.

(** ** Going to sleep *)

Definition sleep_st (t : tid) (nticks : Z) (s : kstate) : kstate :=
  let run := default [] (list_remove t (g_os_run_list s)) in
  let s := set_g_os_run_list run s in
  let s := upd_task t (set_t_state OS_TASK_SLEEP) s in
  let s := upd_task t (set_t_next_wakeup (u32 (g_os_time s + nticks))) s in
  if nticks =? OS_TIMEOUT_NEVER then
    let s := upd_task t (λ k, set_t_flags (set_flag (t_flags k) OS_TASK_FLAG_NO_TIMEOUT) k) s in
    set_g_os_sleep_list (g_os_sleep_list s ++ [t]) s
  else set_g_os_sleep_list (insert_before (sleep_after s t) t (g_os_sleep_list s)) s.

Lemma os_sched_sleep_run t n s :
  t ∈ g_os_run_list s → os_sched_sleep t n s = Ret (0, sleep_st t n s).
Proof.
  intros [run Hrun]%list_remove_is_Some.
  unfold os_sched_sleep, sleep_st, mbind, M_bind, get, from_option_fault, modify, os_time_get, gets.
  rewrite Hrun. simpl. by destruct (n =? OS_TIMEOUT_NEVER).
Qed.

Definition sleep_task (now n : Z) (k : os_task) : os_task :=
  let k := set_t_next_wakeup (u32 (now + n)) (set_t_state OS_TASK_SLEEP k) in
  if n =? OS_TIMEOUT_NEVER then set_t_flags (set_flag (t_flags k) OS_TASK_FLAG_NO_TIMEOUT) k else k.

Lemma sleep_st_task t n s u :
  task_of (sleep_st t n s) u =
    if decide (t = u) then sleep_task (g_os_time s) n (task_of s t) else task_of s u.
Proof.
  unfold sleep_st, sleep_task. destruct (n =? OS_TIMEOUT_NEVER); cbn [task_of tasks];
    change (task_of (set_g_os_sleep_list ?l ?x) u) with (task_of x u);
    rewrite !task_of_upd; case_decide; subst; rewrite ?decide_True by done; done.
Qed.

Lemma sleep_st_run t n s :
  g_os_run_list (sleep_st t n s) = default [] (list_remove t (g_os_run_list s)).
Proof. unfold sleep_st. by destruct (n =? OS_TIMEOUT_NEVER). Qed.
Lemma sleep_st_time t n s : g_os_time (sleep_st t n s) = g_os_time s.
Proof. unfold sleep_st. by destruct (n =? OS_TIMEOUT_NEVER). Qed.
Lemma sleep_st_obj_head t n s o : obj_head (sleep_st t n s) o = obj_head s o.
Proof. unfold sleep_st. by destruct (n =? OS_TIMEOUT_NEVER), o. Qed.

Lemma sleep_st_state t n s u :
  task_state (sleep_st t n s) u = if decide (t = u) then OS_TASK_SLEEP else task_state s u.
Proof.
  unfold task_state. rewrite sleep_st_task. case_decide; [|done].
  unfold sleep_task. by destruct (n =? OS_TIMEOUT_NEVER).
Qed.
Lemma sleep_st_prio t n s u : task_prio (sleep_st t n s) u = task_prio s u.
Proof.
  unfold task_prio. rewrite sleep_st_task. case_decide; [subst|done].
  unfold sleep_task. by destruct (n =? OS_TIMEOUT_NEVER).
Qed.
Lemma sleep_st_obj t n s u : t_obj (task_of (sleep_st t n s) u) = t_obj (task_of s u).
Proof.
  rewrite sleep_st_task. case_decide; [subst|done].
  unfold sleep_task. by destruct (n =? OS_TIMEOUT_NEVER).
Qed.
Lemma sleep_st_no_timeout t n s u :
  no_timeout (sleep_st t n s) u =
    if decide (t = u) then (n =? OS_TIMEOUT_NEVER) || no_timeout s t else no_timeout s u.
Proof.
  unfold no_timeout. rewrite sleep_st_task. case_decide; [subst|done].
  unfold sleep_task. destruct (n =? OS_TIMEOUT_NEVER); simpl; [|done].
  by autorewrite with flags.
Qed.
Lemma sleep_st_wakeup t n s u :
  t_next_wakeup (task_of (sleep_st t n s) u) =
    if decide (t = u) then u32 (g_os_time s + n) else t_next_wakeup (task_of s u).
Proof.
  rewrite sleep_st_task. case_decide; [subst|done].
  unfold sleep_task. by destruct (n =? OS_TIMEOUT_NEVER).
Qed.

(** The timeouts for which the tick comparison is exact. *)
Definition timeout_ok (n : Z) : Prop := n = OS_TIMEOUT_NEVER ∨ 1 <= n < 2147483648.

Lemma wake_key_bound s t : 0 <= wake_key s t <= 4294967296.
Proof.
  unfold wake_key. destruct (no_timeout s t); [lia|].
  pose proof (ticks_until_bound (g_os_time s) (t_next_wakeup (task_of s t))). lia.
Qed.

Lemma wake_key_sleep_ne t n s u : t ≠ u → wake_key (sleep_st t n s) u = wake_key s u.
Proof.
  intros. unfold wake_key.
  by rewrite sleep_st_no_timeout, sleep_st_wakeup, sleep_st_time, !decide_False.
Qed.

Lemma wake_key_sleep_eq t n s :
  timeout_ok n → no_timeout s t = false →
  wake_key (sleep_st t n s) t = if n =? OS_TIMEOUT_NEVER then 4294967296 else n.
Proof.
  intros Hn Hf. unfold wake_key.
  rewrite sleep_st_no_timeout, sleep_st_wakeup, sleep_st_time, !decide_True, Hf, orb_false_r by done.
  destruct (Z.eqb_spec n OS_TIMEOUT_NEVER); [done|].
  apply ticks_until_add. destruct Hn; [done|lia].
Qed.

(** The scan of the sleep list compares wake-up keys. *)
Lemma sleep_st_sleep_list lo t n s :
  0 <= lo → sched_ok s → sleep_ok lo s → task_state s t = OS_TASK_READY → timeout_ok n →
  g_os_sleep_list (sleep_st t n s) =
    insert_before (λ e, wake_key (sleep_st t n s) t <? wake_key (sleep_st t n s) e) t
      (g_os_sleep_list s).
Proof.
  intros Hlo Hs [_ Hrange Hflag] Hst Hn.
  assert (Hf : no_timeout s t = false).
  { destruct (no_timeout s t) eqn:E; [|done]. by rewrite Hflag in Hst. }
  assert (Hne : ∀ e, e ∈ g_os_sleep_list s → t ≠ e).
  { intros e He ->. apply (so_sleep _ Hs) in He. congruence. }
  rewrite wake_key_sleep_eq by done.
  unfold sleep_st at 1. destruct (Z.eqb_spec n OS_TIMEOUT_NEVER) as [->|Hnv].
  - assert (Hp : ∀ l, (∀ e, e ∈ l → t ≠ e) →
      insert_before (λ e, 4294967296 <? wake_key (sleep_st t OS_TIMEOUT_NEVER s) e) t l = l ++ [t]).
    { induction l as [|e l IH]; intros Hl; simpl; [done|].
      pose proof (wake_key_bound (sleep_st t OS_TIMEOUT_NEVER s) e).
      rewrite (proj2 (Z.ltb_ge _ _)) by lia. rewrite IH; [done|].
      intros; apply Hl; by right. }
    by rewrite Hp.
  - apply insert_before_ext. intros e He. rewrite wake_key_sleep_ne by auto.
    unfold sleep_after. rewrite !(task_of_upd_ne t _ _ e), !task_of_upd_eq by auto.
    change (task_of (set_g_os_run_list _ s) e) with (task_of s e). simpl.
    fold (no_timeout s e). unfold wake_key. destruct (no_timeout s e) eqn:Hfe; simpl.
    + symmetry. apply Z.ltb_lt. destruct Hn; [done|lia].
    + specialize (Hrange e He Hfe). destruct Hn as [|Hn]; [done|].
      rewrite (tick_gt_until (g_os_time s)), ticks_until_add by (rewrite ?ticks_until_add; lia).
      done.
Qed.

Lemma sched_ok_sleep lo t n s :
  0 <= lo → sched_ok s → sleep_ok lo s → task_state s t = OS_TASK_READY → timeout_ok n →
  sched_ok (sleep_st t n s).
Proof.
  intros Hlo Hs Hl Hst Hn.
  assert (Hin : t ∈ g_os_run_list s) by by apply so_ready.
  destruct (list_remove_is_Some t (g_os_run_list s)) as [run Hrun]; [done|].
  assert (Hnot : t ∉ g_os_sleep_list s).
  { intros H. apply (so_sleep _ Hs) in H. congruence. }
  destruct Hs as [H1 H2 H3 H4 H5].
  split; rewrite ?sleep_st_run, ?Hrun, ?(sleep_st_sleep_list lo) by done; simpl.
  - exact (list_remove_NoDup _ _ _ H1 Hrun).
  - by apply NoDup_insert_before.
  - intros u. rewrite sleep_st_state, (list_remove_elem t _ _ u H1 Hrun). rewrite H3.
    case_decide; naive_solver.
  - intros u. rewrite sleep_st_state, elem_of_insert_before, H4. case_decide; naive_solver.
  - eapply sorted_by_remove; [done|]. eapply sorted_by_ext; [|done].
    intros; by rewrite sleep_st_prio.
Qed.

Lemma sleep_ok_sleep lo t n s :
  0 <= lo <= 1 → sched_ok s → sleep_ok lo s → task_state s t = OS_TASK_READY → timeout_ok n →
  sleep_ok lo (sleep_st t n s).
Proof.
  intros Hlo Hs Hl Hst Hn.
  assert (Hf : no_timeout s t = false).
  { destruct (no_timeout s t) eqn:E; [|done]. by rewrite (sl_flag _ _ Hl) in Hst. }
  assert (Hnot : t ∉ g_os_sleep_list s).
  { intros H. apply (so_sleep _ Hs) in H. congruence. }
  split; rewrite ?(sleep_st_sleep_list lo) by (by auto || lia).
  - apply sorted_by_insert. eapply sorted_by_ext; [|apply Hl].
    intros e He. rewrite wake_key_sleep_ne; [done|]. set_solver.
  - intros u Hu. rewrite sleep_st_no_timeout, sleep_st_wakeup, sleep_st_time.
    case_decide as Hd; subst.
    + rewrite Hf, orb_false_r. intros Hne%Z.eqb_neq. destruct Hn as [|Hn]; [done|].
      rewrite ticks_until_add; lia.
    + apply elem_of_insert_before in Hu as [?|?]; [by subst|]. by apply Hl.
  - intros u. rewrite sleep_st_no_timeout, sleep_st_state. case_decide; [done|]. apply Hl.
Qed.

Lemma wait_ok_sleep t n s : wait_ok s → wait_ok (sleep_st t n s).
Proof.
  intros [H1 H2]. split; intros; rewrite ?sleep_st_obj, sleep_st_obj_head; auto.
Qed.

Lemma wait_asleep_sleep t n s :
  (∀ u o, u ≠ t → t_obj (task_of s u) = Some o → task_state s u = OS_TASK_SLEEP) →
  wait_asleep (sleep_st t n s).
Proof.
  intros H u o. rewrite sleep_st_obj, sleep_st_state. case_decide; [done|]. by apply H.
Qed.

(** ** Waking up *)

Definition unlink_st (t : tid) (s : kstate) : kstate :=
  match t_obj (task_of s t) with
  | Some o =>
      upd_task t (set_t_obj None)
        (set_obj_head o (default [] (list_remove t (obj_head s o))) s)
  | None => s
  end.

Definition wakeup_st (t : tid) (s : kstate) : kstate :=
  let s := unlink_st t s in
  let s := upd_task t (set_t_state OS_TASK_READY) s in
  let s := upd_task t (set_t_next_wakeup 0) s in
  let s := upd_task t (λ k, set_t_flags (clear_flag (t_flags k) OS_TASK_FLAG_NO_TIMEOUT) k) s in
  let s := set_g_os_sleep_list (default [] (list_remove t (g_os_sleep_list s))) s in
  insert_st t s.

Definition wake_task (k : os_task) : os_task :=
  set_t_flags (clear_flag (t_flags k) OS_TASK_FLAG_NO_TIMEOUT)
    (set_t_next_wakeup 0 (set_t_state OS_TASK_READY (set_t_obj None k))).

Lemma task_of_set_obj_head o l s t : task_of (set_obj_head o l s) t = task_of s t.
Proof. by destruct o. Qed.

Lemma unlink_st_task t s u :
  task_of (unlink_st t s) u = if decide (t = u) then set_t_obj None (task_of s t) else task_of s u.
Proof.
  unfold unlink_st. destruct (t_obj (task_of s t)) as [o|] eqn:Ho.
  - rewrite task_of_upd, !task_of_set_obj_head. done.
  - case_decide; [subst|done]. destruct (task_of s u); simpl in *. by subst.
Qed.

Lemma wakeup_st_task t s u :
  task_of (wakeup_st t s) u = if decide (t = u) then wake_task (task_of s t) else task_of s u.
Proof.
  unfold wakeup_st, insert_st.
  change (task_of (set_g_os_run_list ?l ?x) u) with (task_of x u).
  change (task_of (set_g_os_sleep_list ?l ?x) u) with (task_of x u).
  rewrite !task_of_upd, !unlink_st_task. case_decide; subst; rewrite ?decide_True by done; done.
Qed.

Lemma unlink_st_obj_head t s o :
  obj_head (unlink_st t s) o =
    if decide (t_obj (task_of s t) = Some o) then default [] (list_remove t (obj_head s o))
    else obj_head s o.
Proof.
  unfold unlink_st. destruct (t_obj (task_of s t)) as [o'|] eqn:Ho.
  - change (obj_head (upd_task t (set_t_obj None) ?x) o) with (obj_head x o).
    rewrite obj_head_set. repeat case_decide; naive_solver.
  - by rewrite decide_False.
Qed.

Lemma wakeup_st_obj_head t s o :
  obj_head (wakeup_st t s) o =
    if decide (t_obj (task_of s t) = Some o) then default [] (list_remove t (obj_head s o))
    else obj_head s o.
Proof. rewrite <- unlink_st_obj_head. by destruct o. Qed.

Lemma unlink_st_sleep t s : g_os_sleep_list (unlink_st t s) = g_os_sleep_list s.
Proof. unfold unlink_st. by destruct (t_obj (task_of s t)) as [[]|]. Qed.
Lemma unlink_st_run t s : g_os_run_list (unlink_st t s) = g_os_run_list s.
Proof. unfold unlink_st. by destruct (t_obj (task_of s t)) as [[]|]. Qed.
Lemma unlink_st_time t s : g_os_time (unlink_st t s) = g_os_time s.
Proof. unfold unlink_st. by destruct (t_obj (task_of s t)) as [[]|]. Qed.

Lemma wakeup_st_sleep t s :
  g_os_sleep_list (wakeup_st t s) = default [] (list_remove t (g_os_sleep_list s)).
Proof.
  unfold wakeup_st, insert_st. simpl. by rewrite unlink_st_sleep.
Qed.
Lemma wakeup_st_time t s : g_os_time (wakeup_st t s) = g_os_time s.
Proof. unfold wakeup_st, insert_st. simpl. apply unlink_st_time. Qed.

Lemma wakeup_st_state t s u :
  task_state (wakeup_st t s) u = if decide (t = u) then OS_TASK_READY else task_state s u.
Proof. unfold task_state. rewrite wakeup_st_task. by case_decide. Qed.
Lemma wakeup_st_prio t s u : task_prio (wakeup_st t s) u = task_prio s u.
Proof. unfold task_prio. rewrite wakeup_st_task. case_decide; by subst. Qed.
Lemma wakeup_st_obj t s u :
  t_obj (task_of (wakeup_st t s) u) = if decide (t = u) then None else t_obj (task_of s u).
Proof. rewrite wakeup_st_task. by case_decide. Qed.
Lemma wakeup_st_no_timeout t s u :
  no_timeout (wakeup_st t s) u = if decide (t = u) then false else no_timeout s u.
Proof.
  unfold no_timeout. rewrite wakeup_st_task. case_decide; [|done].
  simpl. by autorewrite with flags.
Qed.

Lemma wakeup_st_run t s :
  g_os_run_list (wakeup_st t s) =
    insert_before (λ e, task_prio s t <? task_prio s e) t (g_os_run_list s).
Proof.
  unfold wakeup_st, insert_st. simpl. rewrite unlink_st_run.
  apply insert_before_ext. intros e _. unfold task_prio.
  change (task_of (set_g_os_sleep_list ?l ?x) ?u) with (task_of x u).
  rewrite !task_of_upd, !unlink_st_task. repeat case_decide; by subst.
Qed.

Lemma os_sched_wakeup_run t s :
  sched_ok s → wait_ok s → task_state s t = OS_TASK_SLEEP →
  os_sched_wakeup t s = Ret (0, wakeup_st t s).
Proof.
  intros Hs Hw Hst. unfold os_sched_wakeup, wakeup_st, unlink_st.
  assert (Hin : t ∈ g_os_sleep_list s) by by apply so_sleep.
  destruct (list_remove_is_Some t (g_os_sleep_list s)) as [sl Hsl]; [done|].
  unfold mbind, M_bind, get, assert_. unfold task_state in Hst.
  rewrite bool_decide_true by done. simpl.
  destruct (t_obj (task_of s t)) as [o|] eqn:Ho.
  - assert (Hho : t ∈ obj_head s o) by by apply wo_iff.
    destruct (list_remove_is_Some t (obj_head s o)) as [h Hh]; [done|].
    rewrite Hh, bool_decide_true by (intros E; rewrite E in Hho; by apply not_elem_of_nil in Hho).
    simpl. destruct o as [k|k]; simpl; rewrite Hsl; simpl;
      (rewrite os_sched_insert_run; [done|]); unfold task_state;
      change (task_of (set_g_os_sleep_list ?l ?x) ?u) with (task_of x u);
      by rewrite !task_of_upd_eq.
  - simpl. rewrite Hsl. simpl. rewrite os_sched_insert_run; [done|]. unfold task_state.
    change (task_of (set_g_os_sleep_list ?l ?x) ?u) with (task_of x u).
    by rewrite !task_of_upd_eq.
Qed.

Lemma sched_ok_wakeup t s :
  sched_ok s → task_state s t = OS_TASK_SLEEP → sched_ok (wakeup_st t s).
Proof.
  intros Hs Hst.
  assert (Hin : t ∈ g_os_sleep_list s) by by apply so_sleep.
  destruct (list_remove_is_Some t (g_os_sleep_list s)) as [sl Hsl]; [done|].
  assert (Hnot : t ∉ g_os_run_list s).
  { intros H. apply (so_ready _ Hs) in H. congruence. }
  destruct Hs as [H1 H2 H3 H4 H5].
  split; rewrite ?wakeup_st_run, ?wakeup_st_sleep, ?Hsl; simpl.
  - by apply NoDup_insert_before.
  - exact (list_remove_NoDup _ _ _ H2 Hsl).
  - intros u. rewrite wakeup_st_state, elem_of_insert_before, H3. case_decide; naive_solver.
  - intros u. rewrite wakeup_st_state, (list_remove_elem t _ _ u H2 Hsl), H4.
    case_decide; naive_solver.
  - eapply sorted_by_ext; [|by apply (sorted_by_insert (task_prio s))].
    intros; by rewrite wakeup_st_prio.
Qed.

Lemma sleep_ok_wakeup lo t s :
  sched_ok s → sleep_ok lo s → task_state s t = OS_TASK_SLEEP → sleep_ok lo (wakeup_st t s).
Proof.
  intros Hs [H1 H2 H3] Hst.
  assert (Hin : t ∈ g_os_sleep_list s) by by apply so_sleep.
  destruct (list_remove_is_Some t (g_os_sleep_list s)) as [sl Hsl]; [done|].
  assert (Hmem := λ u, list_remove_elem t _ _ u (so_sleep_nodup _ Hs) Hsl).
  split; rewrite ?wakeup_st_sleep, ?Hsl; cbn [default from_option id].
  - eapply sorted_by_ext; [|by eapply sorted_by_remove].
    intros u [_ Hu]%Hmem. unfold wake_key.
    by rewrite wakeup_st_no_timeout, wakeup_st_task, wakeup_st_time, !decide_False by done.
  - intros u [Hu Hne]%Hmem.
    rewrite wakeup_st_no_timeout, wakeup_st_task, wakeup_st_time, !decide_False by done. auto.
  - intros u. rewrite wakeup_st_no_timeout, wakeup_st_state. case_decide; [done|]. auto.
Qed.

Lemma wait_ok_wakeup t s : wait_ok s → wait_ok (wakeup_st t s).
Proof.
  intros [H1 H2]. split.
  - intros u o. rewrite wakeup_st_obj, wakeup_st_obj_head.
    destruct (decide (t_obj (task_of s t) = Some o)) as [Hto|Hto].
    + destruct (list_remove_is_Some t (obj_head s o)) as [h Hh]; [by apply H1|].
      rewrite Hh. simpl. rewrite (list_remove_elem t _ _ u (H2 o) Hh), <- H1.
      case_decide; naive_solver.
    + rewrite <- H1. case_decide; naive_solver.
  - intros o. rewrite wakeup_st_obj_head. case_decide as Hto; [|done].
    destruct (list_remove_is_Some t (obj_head s o)) as [h Hh]; [by apply H1|].
    rewrite Hh. exact (list_remove_NoDup _ _ _ (H2 o) Hh).
Qed.

Lemma wait_asleep_wakeup t s : wait_asleep s → wait_asleep (wakeup_st t s).
Proof.
  intros H u o. rewrite wakeup_st_obj, wakeup_st_state. case_decide; [done|]. apply H.
Qed.

(** What waking up tasks leaves alone: everything but the woken tasks, the two
    scheduler lists and the waiter lists, which can only lose elements. *)
Record wake_frame (s s' : kstate) : Prop := {
  wf_current : g_current_task s' = g_current_task s;
  wf_time : g_os_time s' = g_os_time s;
  wf_last : g_os_last_ctx_sw_time s' = g_os_last_ctx_sw_time s;
  wf_started : g_os_started s' = g_os_started s;
  wf_pendsv : pendsv s' = pendsv s;
  wf_eventqs : eventqs s' = eventqs s;
  wf_events : events s' = events s;
  wf_callouts : callouts s' = callouts s;
  wf_callout_list : g_callout_list s' = g_callout_list s;
  wf_task_list : g_os_task_list s' = g_os_task_list s;
  wf_tokens : ∀ k, sem_tokens (sem_of s' k) = sem_tokens (sem_of s k);
  wf_owner : ∀ k, mu_owner (mutex_of s' k) = mu_owner (mutex_of s k);
  wf_level : ∀ k, mu_level (mutex_of s' k) = mu_level (mutex_of s k);
  wf_mu_prio : ∀ k, mu_prio (mutex_of s' k) = mu_prio (mutex_of s k);
  wf_head : ∀ o, obj_head s' o ⊆ obj_head s o;
  wf_prio : ∀ t, task_prio s' t = task_prio s t;
  wf_ready : ∀ t, task_state s t = OS_TASK_READY → task_state s' t = OS_TASK_READY;
  wf_run : g_os_run_list s ⊆ g_os_run_list s';
}.

#[export] Instance wake_frame_preorder : PreOrder wake_frame.
Proof.
  split.
  - by split.
  - intros s1 s2 s3 [] []. split; try congruence; try set_solver; intros; try congruence; auto.
Qed.

Lemma unlink_st_sem t s k : sem_tokens (sem_of (unlink_st t s) k) = sem_tokens (sem_of s k).
Proof.
  unfold unlink_st. destruct (t_obj (task_of s t)) as [[j|j]|]; [|done..].
  change (sem_of (upd_task t (set_t_obj None) ?x) k) with (sem_of x k).
  cbn [set_obj_head]. rewrite sem_of_upd. by case_decide; subst.
Qed.
Lemma unlink_st_mutex t s k :
  mu_owner (mutex_of (unlink_st t s) k) = mu_owner (mutex_of s k) ∧
  mu_level (mutex_of (unlink_st t s) k) = mu_level (mutex_of s k) ∧
  mu_prio (mutex_of (unlink_st t s) k) = mu_prio (mutex_of s k).
Proof.
  unfold unlink_st. destruct (t_obj (task_of s t)) as [[j|j]|]; [done| |done].
  change (mutex_of (upd_task t (set_t_obj None) ?x) k) with (mutex_of x k).
  cbn [set_obj_head]. rewrite mutex_of_upd. by case_decide; subst.
Qed.

Lemma list_remove_default_subseteq (x : tid) l : default [] (list_remove x l) ⊆ l.
Proof.
  destruct (list_remove x l) as [l'|] eqn:Hl; simpl; [|set_solver].
  apply list_remove_split in Hl as (l1 & l2 & -> & -> & _). set_solver.
Qed.

Lemma wakeup_st_frame t s : task_state s t = OS_TASK_SLEEP → wake_frame s (wakeup_st t s).
Proof.
  intros Hst. split; try by (unfold wakeup_st, unlink_st; destruct (t_obj (task_of s t)) as [[]|]).
  - intros k. apply (unlink_st_sem t s k).
  - intros k. apply (unlink_st_mutex t s k).
  - intros k. apply (unlink_st_mutex t s k).
  - intros k. apply (unlink_st_mutex t s k).
  - intros o. rewrite wakeup_st_obj_head. case_decide; [apply list_remove_default_subseteq|done].
  - apply wakeup_st_prio.
  - intros u Hu. rewrite wakeup_st_state. by case_decide.
  - rewrite wakeup_st_run. intros u Hu. apply elem_of_insert_before. by right.
Qed.

(** ** The timer tick *)

(** A sleeping task whose wake-up time has come. *)
Definition expired (s : kstate) (t : tid) : bool :=
  negb (no_timeout s t) &&
  (ticks_until (g_os_time s) (t_next_wakeup (task_of s t)) =? 0).

Lemma expired_wakeup_ne t s u : t ≠ u → expired (wakeup_st t s) u = expired s u.
Proof.
  intros. unfold expired.
  by rewrite wakeup_st_no_timeout, wakeup_st_task, wakeup_st_time, !decide_False by done.
Qed.

(** The scheduler invariant the tick relies on, with at least [lo] ticks to go
    for every timed sleeper. *)
Definition sched_inv (lo : Z) (s : kstate) : Prop :=
  sched_ok s ∧ sleep_ok lo s ∧ wait_ok s ∧ wait_asleep s.

Lemma sched_inv_wakeup lo t s :
  sched_inv lo s → task_state s t = OS_TASK_SLEEP → sched_inv lo (wakeup_st t s).
Proof.
  intros (Hs & Hl & Hw & Ha) Hst. unfold sched_inv.
  split; [by apply sched_ok_wakeup|]. split; [by apply sleep_ok_wakeup|].
  split; [by apply wait_ok_wakeup|]. by apply wait_asleep_wakeup.
Qed.

Lemma sched_inv_sleep lo t n s :
  0 <= lo <= 1 → sched_inv lo s → task_state s t = OS_TASK_READY → timeout_ok n →
  sched_inv lo (sleep_st t n s).
Proof.
  intros Hlo (Hs & Hl & Hw & Ha) Hst Hn. unfold sched_inv.
  split; [apply (sched_ok_sleep lo); by auto || lia|]. split; [by apply sleep_ok_sleep|].
  split; [by apply wait_ok_sleep|]. apply wait_asleep_sleep. intros; by eapply Ha.
Qed.

#[export] Instance sched_inv_proper lo : Proper (core_eq ==> iff) (sched_inv lo).
Proof. intros s s' E. unfold sched_inv. by rewrite E. Qed.

(** Without an expired sleeper, the bound on the ticks to go is 1. *)
Lemma sleep_ok_strengthen s :
  sleep_ok 0 s → (∀ t, t ∈ g_os_sleep_list s → expired s t = false) → sleep_ok 1 s.
Proof.
  intros [H1 H2 H3] He. split; [done| |done]. intros t Ht Hf. specialize (H2 t Ht Hf).
  specialize (He t Ht). unfold expired in He. rewrite Hf in He. simpl in He. lia.
Qed.

(** Outcome of the expiry loop when the sleep list was [l]: exactly the expired
    tasks of [l] were woken. *)
Definition timer_post (s : kstate) (l : list tid) (s' : kstate) : Prop :=
  sched_inv 1 s' ∧ wake_frame s s' ∧
  g_os_sleep_list s' = filter (λ t, expired s t = false) l ∧
  (∀ t, task_of s' t = if bool_decide (t ∈ l) && expired s t then wake_task (task_of s t)
                       else task_of s t).

Lemma timer_post_quit s l :
  sched_inv 0 s → g_os_sleep_list s = l → (∀ u, u ∈ l → expired s u = false) → timer_post s l s.
Proof.
  intros (Hs & Hsl & Hw & Ha) Hl He. split_and!; [|done| |].
  - split_and!; [done| |done|done]. apply sleep_ok_strengthen; [done|]. by rewrite Hl.
  - rewrite Hl. symmetry. by apply list_filter_all_true.
  - intros u. case_bool_decide as Hu; [|done]. by rewrite He.
Qed.

Lemma timer_post_step s t l s' :
  task_state s t = OS_TASK_SLEEP → NoDup (t :: l) → expired s t = true →
  timer_post (wakeup_st t s) l s' → timer_post s (t :: l) s'.
Proof.
  intros Hst [Hnot Hnd]%NoDup_cons Hexp (Hinv & Hfr & Hsl & Htask). split_and!; [done| | |].
  - etransitivity; [by apply wakeup_st_frame|done].
  - rewrite Hsl, filter_cons_False by congruence. clear -Hnot.
    induction l as [|u l IH]; [done|]. apply not_elem_of_cons in Hnot as [? ?].
    rewrite !filter_cons, expired_wakeup_ne, IH by done. done.
  - intros u. rewrite Htask, wakeup_st_task. destruct (decide (t = u)) as [<-|Hne].
    + rewrite bool_decide_false, bool_decide_true by set_solver. by rewrite Hexp.
    + rewrite expired_wakeup_ne by done.
      by rewrite (bool_decide_ext (u ∈ t :: l) (u ∈ l)) by set_solver.
Qed.

(** In a sorted sleep list an unexpired head has no expired task behind it. *)
Lemma expired_head_first s t l :
  sleep_ok 0 s → g_os_sleep_list s = t :: l → expired s t = false →
  ∀ u, u ∈ t :: l → expired s u = false.
Proof.
  intros Hsl Hl Ht u Hu.
  assert (Hkey : wake_key s t <= wake_key s u).
  { eapply sorted_by_head_le; [|done]. rewrite <- Hl. apply Hsl. }
  unfold expired, wake_key in *. destruct (no_timeout s u) eqn:Hfu; simpl; [done|].
  pose proof (sl_range _ _ Hsl u) as Hr. rewrite Hl in Hr. specialize (Hr Hu Hfu).
  pose proof (ticks_until_bound (g_os_time s) (t_next_wakeup (task_of s t))).
  destruct (no_timeout s t); simpl in *; lia.
Qed.

(** The test the loop makes on the head of the list decides expiry. *)
Lemma expired_test s t l :
  sleep_ok 0 s → g_os_sleep_list s = t :: l →
  expired s t = negb (no_timeout s t) &&
    OS_TIME_TICK_GEQ (g_os_time s) (t_next_wakeup (task_of s t)).
Proof.
  intros Hsl Hl. unfold expired. destruct (no_timeout s t) eqn:Hf; simpl; [done|].
  rewrite tick_geq_until; [done|]. apply Hsl; [rewrite Hl; by left|done].
Qed.

Lemma timer_exp_loop_spec l : ∀ fuel s,
  sched_inv 0 s → g_os_sleep_list s = l → (length l <= fuel)%nat →
  wp (timer_exp_loop fuel (g_os_time s) (head l)) (λ _, timer_post s l) s.
Proof.
  induction l as [|t l IH]; intros fuel s Hinv Hl Hfuel; destruct (Hinv) as (Hs & Hsl & Hw & Ha).
  { destruct fuel; apply wp_ret, timer_post_quit; set_solver. }
  destruct fuel as [|fuel]; [simpl in Hfuel; lia|].
  assert (Hst : task_state s t = OS_TASK_SLEEP) by (apply so_sleep; [done|]; rewrite Hl; by left).
  pose proof (expired_test s t l Hsl Hl) as Hexp.
  pose proof (expired_head_first s t l Hsl Hl) as Hstop.
  assert (Hnd : NoDup (t :: l)) by (rewrite <- Hl; apply Hs).
  simpl. apply wp_bind. unfold wp at 1, get. fold (no_timeout s t).
  destruct (no_timeout s t) eqn:Hf; simpl in Hexp; [by apply wp_ret, timer_post_quit; auto|].
  destruct (OS_TIME_TICK_GEQ _ _); [|by apply wp_ret, timer_post_quit; auto].
  apply wp_bind. unfold wp at 1. rewrite os_sched_wakeup_run by done.
  rewrite Hl. simpl. rewrite decide_True by done.
  rewrite <- (wakeup_st_time t s). eapply wp_mono.
  { apply (IH fuel (wakeup_st t s)).
    - by apply sched_inv_wakeup.
    - rewrite wakeup_st_sleep, Hl. simpl. by rewrite decide_True.
    - simpl in Hfuel. lia. }
  intros ? s'. by apply timer_post_step.
Qed.

Lemma os_sched_os_timer_exp_spec s :
  sched_inv 0 s → wp os_sched_os_timer_exp (λ _, timer_post s (g_os_sleep_list s)) s.
Proof. intros Hinv. by apply timer_exp_loop_spec. Qed.

(** One tick of the clock takes one tick from every timed sleeper. *)
Lemma sched_inv_tick s :
  sched_inv 1 s → sched_inv 0 (set_g_os_time (u32 (g_os_time s + 1)) s).
Proof.
  intros (Hs & [H1 H2 H3] & Hw & Ha). split_and!; [|split| |]; try done.
  - by destruct Hs; split.
  - assert (Hk : ∀ t, t ∈ g_os_sleep_list s →
      wake_key (set_g_os_time (u32 (g_os_time s + 1)) s) t =
        if no_timeout s t then 4294967296 else wake_key s t - 1).
    { intros t Ht. unfold wake_key.
      change (no_timeout (set_g_os_time (u32 (g_os_time s + 1)) s) t) with (no_timeout s t).
      destruct (no_timeout s t) eqn:Hf; [done|]. apply ticks_until_succ. by apply H2. }
    simpl. revert H1 Hk. generalize (g_os_sleep_list s) as l.
    induction l as [|t l IH]; intros Hsort Hk; [constructor|].
    apply sorted_by_cons in Hsort as [Hsort Hle]. apply sorted_by_cons. split.
    { apply IH; [done|]. intros; apply Hk; by right. }
    intros u Hu. specialize (Hle u Hu). rewrite !Hk by set_solver.
    pose proof (wake_key_bound s t). pose proof (wake_key_bound s u). unfold wake_key in *.
    destruct (no_timeout s t), (no_timeout s u); try lia.
    pose proof (ticks_until_bound (g_os_time s) (t_next_wakeup (task_of s u))). lia.
  - intros t Ht Hf. specialize (H2 t Ht Hf). cbn [g_os_time set_g_os_time].
    change (task_of (set_g_os_time _ s) t) with (task_of s t).
    rewrite ticks_until_succ; lia.
  - by destruct Hw; split.
Qed.

(** ** Changing a priority and resorting *)

(** The two statements [t->t_prio = p; os_sched_resort(t);] of os_mutex.c. *)
Definition set_prio_resort (t : tid) (p : Z) : K unit :=
  modify (upd_task t (set_t_prio p)) ;; os_sched_resort t.

Definition reprio_st (t : tid) (p : Z) (s : kstate) : kstate :=
  let s' := upd_task t (set_t_prio p) s in
  if decide (task_state s t = OS_TASK_READY) then
    insert_st t (set_g_os_run_list (default [] (list_remove t (g_os_run_list s))) s')
  else s'.

Lemma set_prio_resort_run t p s :
  sched_ok s → set_prio_resort t p s = Ret (tt, reprio_st t p s).
Proof.
  intros Hs. unfold set_prio_resort, os_sched_resort, reprio_st, mbind, M_bind, modify, get.
  rewrite task_of_upd_eq. simpl. fold (task_state s t). case_decide as Hst.
  - rewrite bool_decide_true by done.
    destruct (list_remove_is_Some t (g_os_run_list s)) as [run Hrun]; [by apply so_ready|].
    rewrite Hrun. simpl. rewrite os_sched_insert_run; [done|].
    unfold task_state in *. change (task_of (set_g_os_run_list ?l ?x) t) with (task_of x t).
    by rewrite task_of_upd_eq.
  - by rewrite bool_decide_false.
Qed.

Lemma reprio_st_task t p s u :
  task_of (reprio_st t p s) u =
    if decide (t = u) then set_t_prio p (task_of s t) else task_of s u.
Proof.
  rewrite <- (task_of_upd t (set_t_prio p)). unfold reprio_st, insert_st. by case_decide.
Qed.
Lemma reprio_st_sleep t p s : g_os_sleep_list (reprio_st t p s) = g_os_sleep_list s.
Proof. unfold reprio_st, insert_st. by case_decide. Qed.
Lemma reprio_st_time t p s : g_os_time (reprio_st t p s) = g_os_time s.
Proof. unfold reprio_st, insert_st. by case_decide. Qed.
Lemma reprio_st_obj_head t p s o : obj_head (reprio_st t p s) o = obj_head s o.
Proof. unfold reprio_st, insert_st. by case_decide; destruct o. Qed.

Lemma reprio_st_state t p s u : task_state (reprio_st t p s) u = task_state s u.
Proof. unfold task_state. rewrite reprio_st_task. case_decide; by subst. Qed.
Lemma reprio_st_prio t p s u :
  task_prio (reprio_st t p s) u = if decide (t = u) then p else task_prio s u.
Proof. unfold task_prio. rewrite reprio_st_task. by case_decide. Qed.
Lemma reprio_st_obj t p s u : t_obj (task_of (reprio_st t p s) u) = t_obj (task_of s u).
Proof. rewrite reprio_st_task. case_decide; by subst. Qed.
Lemma reprio_st_no_timeout t p s u : no_timeout (reprio_st t p s) u = no_timeout s u.
Proof. unfold no_timeout. rewrite reprio_st_task. case_decide; by subst. Qed.
Lemma reprio_st_wakeup t p s u :
  t_next_wakeup (task_of (reprio_st t p s) u) = t_next_wakeup (task_of s u).
Proof. rewrite reprio_st_task. case_decide; by subst. Qed.

Lemma reprio_st_run t p s :
  sched_ok s → task_state s t = OS_TASK_READY →
  ∃ run, list_remove t (g_os_run_list s) = Some run ∧
    g_os_run_list (reprio_st t p s) =
      insert_before (λ e, task_prio (reprio_st t p s) t <? task_prio (reprio_st t p s) e) t run.
Proof.
  intros Hs Hst.
  destruct (list_remove_is_Some t (g_os_run_list s)) as [run Hrun]; [by apply so_ready|].
  exists run. split; [done|].
  assert (reprio_st t p s = insert_st t (set_g_os_run_list run (upd_task t (set_t_prio p) s))) as ->.
  { unfold reprio_st. by rewrite decide_True, Hrun. }
  done.
Qed.

Lemma sched_ok_reprio t p s : sched_ok s → sched_ok (reprio_st t p s).
Proof.
  intros Hs. destruct (decide (task_state s t = OS_TASK_READY)) as [Hst|Hst].
  - destruct (reprio_st_run t p s) as (run & Hrun & Heq); [done..|].
    destruct Hs as [H1 H2 H3 H4 H5].
    assert (Hmem := λ u, list_remove_elem t _ _ u H1 Hrun).
    split; rewrite ?Heq, ?reprio_st_sleep.
    + apply NoDup_insert_before; [rewrite Hmem; naive_solver|].
      exact (list_remove_NoDup _ _ _ H1 Hrun).
    + done.
    + intros u. rewrite elem_of_insert_before, Hmem, reprio_st_state, <- H3.
      destruct (decide (u = t)); naive_solver.
    + intros u. rewrite reprio_st_state. apply H4.
    + apply sorted_by_insert. eapply sorted_by_ext; [|by eapply sorted_by_remove].
      intros u [_ Hu]%Hmem. by rewrite reprio_st_prio, decide_False.
  - unfold reprio_st. rewrite decide_False by done.
    destruct Hs as [H1 H2 H3 H4 H5]. split; simpl; [done|done|..].
    + intros u. rewrite H3. unfold task_state. rewrite task_of_upd. case_decide; by subst.
    + intros u. rewrite H4. unfold task_state. rewrite task_of_upd. case_decide; by subst.
    + eapply sorted_by_ext; [|done]. intros u Hu. unfold task_prio.
      rewrite task_of_upd_ne; [done|]. intros ->. by apply Hst, H3.
Qed.

Lemma sched_inv_reprio lo t p s : sched_inv lo s → sched_inv lo (reprio_st t p s).
Proof.
  intros (Hs & [H1 H2 H3] & [H4 H5] & Ha).
  split; [by apply sched_ok_reprio|]. split; [|split].
  - split; rewrite ?reprio_st_sleep.
    + eapply sorted_by_ext; [|done]. intros u _. unfold wake_key.
      by rewrite reprio_st_no_timeout, reprio_st_wakeup, reprio_st_time.
    + intros u. rewrite reprio_st_no_timeout, reprio_st_wakeup, reprio_st_time. auto.
    + intros u. rewrite reprio_st_no_timeout, reprio_st_state. auto.
  - split; intros; rewrite ?reprio_st_obj, reprio_st_obj_head; auto.
  - intros u o. rewrite reprio_st_obj, reprio_st_state. apply Ha.
Qed.

(** ** Context switches *)

Lemma core_eq_upd_task t f s :
  (∀ k, task_core (f k) = task_core k) → core_eq s (upd_task t f s).
Proof.
  intros Hf. split; try done. intros u. rewrite task_of_upd. case_decide; subst; [|done].
  by rewrite Hf.
Qed.

Lemma core_eq_set_last v s : core_eq s (set_g_os_last_ctx_sw_time v s).
Proof. by split. Qed.
Lemma core_eq_set_pendsv v s : core_eq s (set_pendsv v s).
Proof. by split. Qed.

(** Everything but the tasks' accounting fields, the current task, the time of
    the last switch and the pending bit. *)
Definition sw_eq (s s' : kstate) : Prop :=
  core_eq s s' ∧ g_os_started s' = g_os_started s ∧ eventqs s' = eventqs s ∧
  events s' = events s ∧ callouts s' = callouts s ∧ g_callout_list s' = g_callout_list s ∧
  g_os_task_list s' = g_os_task_list s.

#[export] Instance sw_eq_preorder : PreOrder sw_eq.
Proof.
  split.
  - intros s. by split_and!.
  - intros s1 s2 s3 (?&?&?&?&?&?&?) (?&?&?&?&?&?&?).
    split_and!; try congruence. by etransitivity.
Qed.

Lemma os_sched_ctx_sw_hook_spec t s c :
  g_current_task s = Some c →
  wp (os_sched_ctx_sw_hook t) (λ _ s',
    sw_eq s s' ∧ g_current_task s' = Some c ∧ pendsv s' = pendsv s) s.
Proof.
  intros Hc. unfold os_sched_ctx_sw_hook. apply wp_bind. unfold wp at 1, get.
  rewrite Hc. case_bool_decide; [by apply wp_ret|].
  unfold wp, mbind, M_bind, modify, from_option_fault, mret, M_ret. simpl.
  split_and!; [|done|done]. split_and!; try done.
  etransitivity; [|apply core_eq_set_last]. etransitivity; [|by apply core_eq_upd_task].
  by apply core_eq_upd_task.
Qed.

(** [os_sched] requests a switch exactly when the chosen task is not the
    current one. *)
Lemma os_sched_spec next isr s c :
  g_current_task s = Some c → g_os_run_list s ≠ [] →
  wp (os_sched next isr) (λ _ s',
    sw_eq s s' ∧ g_current_task s' = Some c ∧
    pendsv s' = pendsv s ||
      bool_decide (match next with Some t => Some t | None => head (g_os_run_list s) end ≠ Some c)) s.
Proof.
  intros Hc Hne. unfold os_sched. apply wp_bind.
  assert (Hchoose : ∃ t, match next with Some t => Some t | None => head (g_os_run_list s) end = Some t).
  { destruct next; [eauto|]. destruct (g_os_run_list s); [done|]. simpl. eauto. }
  destruct Hchoose as [t Ht]. rewrite Ht.
  eapply (wp_mono _ (λ n s', n = Some t ∧ s' = s)).
  { destruct next; [by apply wp_ret|]. unfold wp, os_sched_next_task, gets. by simplify_eq/=. }
  intros n s' [-> ->]. apply wp_bind. unfold wp at 1, os_sched_get_current_task, gets.
  rewrite Hc. case_bool_decide; [|apply wp_ret; by rewrite orb_false_r].
  simpl. unfold mbind, M_bind at 1, from_option_fault. simpl.
  assert (H' : ∀ m, m = os_arch_ctx_sw t ∨ m = os_arch_ctx_sw_isr t →
    wp m (λ _ s', sw_eq s s' ∧ g_current_task s' = Some c ∧ pendsv s' = pendsv s || true) s).
  { intros m Hm. assert (m = (os_sched_ctx_sw_hook t ;; modify (set_pendsv true))) as -> by (by destruct Hm).
    apply wp_bind. eapply wp_mono; [by apply os_sched_ctx_sw_hook_spec|].
    simpl. intros _ s' ((?&?&?&?&?&?&?) & ? & ?). unfold wp, modify. simpl.
    rewrite orb_true_r. split_and!; try done. split_and!; try done.
    etransitivity; [done|apply core_eq_set_pendsv]. }
  destruct isr; apply H'; auto.
Qed.

(** PendSV makes the head of the run list current. *)
Lemma PendSV_Handler_spec s c :
  g_current_task s = Some c → g_os_run_list s ≠ [] →
  wp PendSV_Handler (λ _ s',
    sw_eq s s' ∧ pendsv s' = false ∧
    g_current_task s' = if pendsv s then head (g_os_run_list s) else Some c) s.
Proof.
  intros Hc Hne. unfold PendSV_Handler. apply wp_bind. unfold wp at 1, get.
  destruct (pendsv s) eqn:Hp; [|by apply wp_ret].
  unfold wp, mbind, M_bind, modify. rewrite Hc.
  destruct (g_os_run_list s) as [|h l] eqn:Hrl; [done|].
  case_bool_decide; simpl; split_and!; try done; try by split_and!.
  by rewrite Hc.
Qed.
