(* ===== verification/OsInv.v ===== *)
(** The kernel invariant: what holds of the whole kernel state between two
    operations, and how the scheduler's primitives preserve it.

    [kinv lo_s lo_c] is indexed by the least number of ticks the timed sleepers
    ([lo_s]) and the armed callouts ([lo_c]) still have to go: 1 between
    operations, 0 inside the tick interrupt, after the clock has advanced and
    before the expired ones have been served. *)
From Stdlib Require Import ZArith Lia.
From stdpp Require Import base decidable list numbers gmap.
From S2P Require Import Prelude.
From S2P Require Import OsState.
From S2P Require Import OsSched.

#[local] Open Scope Z_scope.

(** The idle task is the first one [os_init] creates. *)
Definition g_idle_task : tid := 0%nat.

(** ** Objects *)

(** Tokens and waiters exclude each other. *)
Definition sem_ok (s : kstate) (k : nat) : Prop :=
  0 <= sem_tokens (sem_of s k) < 65536 ∧
  (sem_tokens (sem_of s k) ≠ 0 → sem_head (sem_of s k) = []).

(** A mutex is free (level 0, no owner, no waiter) or has an owner, who is not
    among the waiters. *)
Definition mutex_ok (s : kstate) (k : nat) : Prop :=
  let mu := mutex_of s k in
  0 <= mu_level mu < 65536 ∧
  (mu_level mu = 0 → mu_owner mu = None ∧ mu_head mu = []) ∧
  (mu_level mu ≠ 0 → ∃ o, mu_owner mu = Some o ∧ o ∉ mu_head mu).

(** A task registered with an event queue sleeps without timeout and without
    waiting for a semaphore or mutex, and is registered with one queue only. *)
Record evq_ok (s : kstate) : Prop := {
  eq_asleep : ∀ q t, evq_task (eventq_of s q) = Some t →
    task_state s t = OS_TASK_SLEEP ∧ t_obj (task_of s t) = None ∧ no_timeout s t = true;
  eq_unique : ∀ q q' t, evq_task (eventq_of s q) = Some t →
    evq_task (eventq_of s q') = Some t → q = q';
}.

(** An event is marked as queued exactly when it is on a queue, and then it is
    on one queue, once. *)
Record ev_ok (s : kstate) : Prop := {
  ev_iff : ∀ e, ev_queued (event_of s e) = true ↔ ∃ q, e ∈ evq_list (eventq_of s q);
  ev_one : ∀ e q q', e ∈ evq_list (eventq_of s q) → e ∈ evq_list (eventq_of s q') → q = q';
  ev_nodup : ∀ q, NoDup (evq_list (eventq_of s q));
}.

Definition callout_key (s : kstate) (c : nat) : Z :=
  ticks_until (g_os_time s) (c_ticks (callout_of s c)).

(** The callout list holds the linked callouts in the order in which they come
    due; the event of a callout is only ever posted to the callout's queue. *)
Record callout_ok (lo : Z) (s : kstate) : Prop := {
  co_nodup : NoDup (g_callout_list s);
  co_iff : ∀ c, c ∈ g_callout_list s ↔ c_linked (callout_of s c) = true;
  co_sorted : sorted_by (callout_key s) (g_callout_list s);
  co_range : ∀ c, c ∈ g_callout_list s → lo <= callout_key s c < 2147483648;
  co_evq : ∀ c, c ∈ g_callout_list s → is_Some (c_evq (callout_of s c));
  co_event : ∀ c q, EvCallout c ∈ evq_list (eventq_of s q) → c_evq (callout_of s c) = Some q;
}.

(** [kbase] is the invariant without the claim that the current task is ready:
    it also holds in the window between the moment a blocking call has put the
    caller to sleep and the context switch. *)
Record kbase (lo_s lo_c : Z) (s : kstate) : Prop := {
  ki_sched : sched_inv lo_s s;
  ki_sem : ∀ k, sem_ok s k;
  ki_mutex : ∀ k, mutex_ok s k;
  ki_evq : evq_ok s;
  ki_ev : ev_ok s;
  ki_callout : callout_ok lo_c s;
  ki_cur : is_Some (g_current_task s);
  ki_idle : task_state s g_idle_task = OS_TASK_READY;
  ki_started : g_os_started s = true;
}.

(** The same without the mutexes, for the inside of the mutex operations. *)
Record kcore (lo_s lo_c : Z) (s : kstate) : Prop := {
  kc_sched : sched_inv lo_s s;
  kc_sem : ∀ k, sem_ok s k;
  kc_evq : evq_ok s;
  kc_ev : ev_ok s;
  kc_callout : callout_ok lo_c s;
  kc_cur : is_Some (g_current_task s);
  kc_idle : task_state s g_idle_task = OS_TASK_READY;
  kc_started : g_os_started s = true;
}.

Lemma kbase_kcore lo_s lo_c s : kbase lo_s lo_c s ↔ kcore lo_s lo_c s ∧ ∀ k, mutex_ok s k.
Proof. split; [by intros []; split; [split|]|]. intros [[] ?]. by split. Qed.

Definition cur_ready (s : kstate) : Prop :=
  ∃ c, g_current_task s = Some c ∧ task_state s c = OS_TASK_READY.

Definition kinv (lo_s lo_c : Z) (s : kstate) : Prop := kbase lo_s lo_c s ∧ cur_ready s.

Lemma kbase_run_nonempty lo_s lo_c s : kbase lo_s lo_c s → g_os_run_list s ≠ [].
Proof.
  intros [(Hs & _) _ _ _ _ _ _ Hi _] E. apply (so_ready _ Hs) in Hi. rewrite E in Hi.
  by apply not_elem_of_nil in Hi.
Qed.

(** ** The event queues and callouts depend on four fields and the clock *)
Record queue_eq (s s' : kstate) : Prop := {
  qe_eventqs : eventqs s' = eventqs s;
  qe_events : events s' = events s;
  qe_callouts : callouts s' = callouts s;
  qe_callout_list : g_callout_list s' = g_callout_list s;
  qe_time : g_os_time s' = g_os_time s;
}.

Lemma ev_ok_eq s s' : queue_eq s s' → ev_ok s → ev_ok s'.
Proof.
  intros [E1 E2 _ _ _] [H1 H2 H3]. unfold eventq_of, event_of in *.
  split; unfold eventq_of, event_of; rewrite E1, ?E2; auto.
Qed.

Lemma callout_ok_eq lo s s' : queue_eq s s' → callout_ok lo s → callout_ok lo s'.
Proof.
  intros [E1 E2 E3 E4 E5] [H1 H2 H3 H4 H5 H6].
  unfold callout_key, eventq_of, callout_of in *.
  split; unfold callout_key, eventq_of, callout_of; rewrite ?E1, ?E3, ?E4, ?E5; auto.
Qed.

Lemma wake_frame_queue s s' : wake_frame s s' → queue_eq s s'.
Proof. by intros []. Qed.
Lemma sw_eq_queue s s' : sw_eq s s' → queue_eq s s'.
Proof. intros ([] & ? & ? & ? & ? & ? & ?). by split. Qed.

(** ** Preservation by wake-ups *)

Lemma sem_ok_wake s s' k : wake_frame s s' → sem_ok s k → sem_ok s' k.
Proof.
  intros F [H1 H2]. unfold sem_ok. rewrite (wf_tokens _ _ F). split; [done|].
  intros Hne. pose proof (wf_head _ _ F (ObjSem k)) as Hh. simpl in Hh.
  rewrite H2 in Hh by done. by apply list_nil_subseteq.
Qed.

Lemma mutex_ok_wake s s' k : wake_frame s s' → mutex_ok s k → mutex_ok s' k.
Proof.
  intros F (H1 & H2 & H3). unfold mutex_ok.
  rewrite (wf_level _ _ F), (wf_owner _ _ F).
  pose proof (wf_head _ _ F (ObjMutex k)) as Hh. simpl in Hh.
  split_and!; [apply H1|apply H1|..].
  - intros Hl. destruct (H2 Hl) as [Ho Hm]. rewrite Hm in Hh.
    split; [done|]. by apply list_nil_subseteq.
  - intros Hl. destruct (H3 Hl) as (o & Ho & Hm). exists o. set_solver.
Qed.

Lemma evq_ok_wakeup t s :
  (∀ q, evq_task (eventq_of s q) ≠ Some t) → evq_ok s → evq_ok (wakeup_st t s).
Proof.
  intros Hnot [H1 H2].
  assert (E : ∀ q, eventq_of (wakeup_st t s) q = eventq_of s q).
  { intros q. unfold eventq_of, wakeup_st, insert_st, unlink_st. simpl.
    by destruct (t_obj (task_of s t)) as [[]|]. }
  split.
  - intros q u. rewrite E. intros Hq.
    rewrite wakeup_st_state, wakeup_st_obj, wakeup_st_no_timeout.
    assert (t ≠ u) by (intros ->; by eapply Hnot). rewrite !decide_False by done. by eapply H1.
  - intros q q' u. rewrite !E. apply H2.
Qed.

(** Waking up a sleeping task that no event queue has registered. *)
Lemma kcore_wakeup lo_s lo_c t s :
  kcore lo_s lo_c s → task_state s t = OS_TASK_SLEEP →
  (∀ q, evq_task (eventq_of s q) ≠ Some t) → kcore lo_s lo_c (wakeup_st t s).
Proof.
  intros [H1 H2 H4 H5 H6 H7 H8 H9] Hst Hnot.
  pose proof (wakeup_st_frame t s Hst) as F. pose proof (wake_frame_queue _ _ F) as Q.
  split.
  - by apply sched_inv_wakeup.
  - intros k. by eapply sem_ok_wake.
  - by apply evq_ok_wakeup.
  - by eapply ev_ok_eq.
  - by eapply callout_ok_eq.
  - by rewrite (wf_current _ _ F).
  - by apply F.
  - by rewrite (wf_started _ _ F).
Qed.

Lemma kbase_wakeup lo_s lo_c t s :
  kbase lo_s lo_c s → task_state s t = OS_TASK_SLEEP →
  (∀ q, evq_task (eventq_of s q) ≠ Some t) → kbase lo_s lo_c (wakeup_st t s).
Proof.
  rewrite !kbase_kcore. intros [Hk Hm] Hst Hnot. split; [by apply kcore_wakeup|].
  intros k. eapply mutex_ok_wake; [by apply wakeup_st_frame|done].
Qed.

Lemma cur_ready_wake s s' : wake_frame s s' → cur_ready s → cur_ready s'.
Proof.
  intros F (c & Hc & Hs). exists c. rewrite (wf_current _ _ F). split; [done|]. by apply F.
Qed.

(** A task that waits for an object, or with a timeout, is not registered with
    an event queue. *)
Lemma not_evq_obj s t o : evq_ok s → t_obj (task_of s t) = Some o →
  ∀ q, evq_task (eventq_of s q) ≠ Some t.
Proof. intros [H _] Ho q Hq. destruct (H q t Hq) as (_ & ? & _). congruence. Qed.
Lemma not_evq_ready s t : evq_ok s → task_state s t = OS_TASK_READY →
  ∀ q, evq_task (eventq_of s q) ≠ Some t.
Proof. intros [H _] Ho q Hq. destruct (H q t Hq) as (? & _). congruence. Qed.

(** ** Preservation by context switches *)

Lemma sem_ok_sw s s' k : sw_eq s s' → sem_ok s k → sem_ok s' k.
Proof. intros (E & _). unfold sem_ok, sem_of. by rewrite (ce_sems _ _ E). Qed.
Lemma mutex_ok_sw s s' k : sw_eq s s' → mutex_ok s k → mutex_ok s' k.
Proof. intros (E & _). unfold mutex_ok, mutex_of. by rewrite (ce_mutexes _ _ E). Qed.
Lemma evq_ok_sw s s' : sw_eq s s' → evq_ok s → evq_ok s'.
Proof.
  intros (E & _ & Eq & _) [H1 H2]. unfold eventq_of in *. rewrite <- Eq in *.
  split; [|done]. intros q t Hq.
  rewrite <- (core_eq_state s s'), <- (core_eq_obj s s'), <- (core_eq_no_timeout s s') by done.
  by eapply H1.
Qed.

Lemma kbase_sw lo_s lo_c s s' :
  sw_eq s s' → is_Some (g_current_task s') → kbase lo_s lo_c s → kbase lo_s lo_c s'.
Proof.
  intros E Hc [H1 H2 H3 H4 H5 H6 _ H8 H9]. destruct (E) as (Ec & Es & _).
  pose proof (sw_eq_queue _ _ E) as Q. split.
  - by rewrite <- Ec.
  - intros k. by eapply sem_ok_sw.
  - intros k. by eapply mutex_ok_sw.
  - by eapply evq_ok_sw.
  - by eapply ev_ok_eq.
  - by eapply callout_ok_eq.
  - done.
  - by rewrite <- (core_eq_state s s').
  - by rewrite Es.
Qed.

(** [os_sched] preserves the invariant, and the PendSV exception that follows a
    requested switch makes a ready task of the highest priority current. *)
Definition highest_ready (s : kstate) (c : tid) : Prop :=
  task_state s c = OS_TASK_READY ∧
  ∀ t, task_state s t = OS_TASK_READY → task_prio s c <= task_prio s t.

Lemma head_highest_ready s c :
  sched_ok s → head (g_os_run_list s) = Some c → highest_ready s c.
Proof.
  intros Hs Hh. destruct (g_os_run_list s) as [|h l] eqn:E; simplify_eq/=. split.
  - apply Hs. rewrite E. by left.
  - intros t Ht. apply (sorted_by_head_le (task_prio s) c l t).
    + rewrite <- E. apply Hs.
    + rewrite <- E. by apply Hs.
Qed.

Lemma os_sched_kbase lo_s lo_c next isr s :
  kbase lo_s lo_c s →
  wp (os_sched next isr) (λ _ s',
    sw_eq s s' ∧ kbase lo_s lo_c s' ∧ g_current_task s' = g_current_task s ∧
    pendsv s' = pendsv s ||
      bool_decide (match next with Some t => Some t | None => head (g_os_run_list s) end
                   ≠ g_current_task s)) s.
Proof.
  intros Hk. destruct (ki_cur _ _ _ Hk) as [c Hc]. eapply wp_mono.
  { apply (os_sched_spec next isr s c); [done|]. by eapply kbase_run_nonempty. }
  simpl. intros _ s' (E & Hc' & Hp). rewrite Hc. split_and!; [done| |done|done].
  eapply kbase_sw; [done|by rewrite Hc'|done].
Qed.

(** The conditional reschedule most operations end with. *)
Lemma sched_if_spec lo_s lo_c (b : bool) next isr s c :
  kinv lo_s lo_c s → pendsv s = false → g_current_task s = Some c →
  wp (if b then os_sched next isr else mret tt) (λ _ s',
    sw_eq s s' ∧ kinv lo_s lo_c s' ∧ g_current_task s' = Some c ∧
    pendsv s' = b &&
      bool_decide (match next with Some t => Some t | None => head (g_os_run_list s) end ≠ Some c)) s.
Proof.
  intros [Hk Hcr] Hp Hc. destruct b; [|by apply wp_ret; split_and!].
  eapply wp_mono; [by apply (os_sched_kbase lo_s lo_c)|].
  intros ? s' (E & Hk' & Hc' & Hp'). rewrite Hc in Hc', Hp'. rewrite Hp in Hp'.
  split_and!; [done| |done|done]. split; [done|].
  destruct Hcr as (c' & ? & ?). exists c'. simplify_eq. split; [done|].
  destruct E as [E _]. by rewrite <- (core_eq_state s s').
Qed.

Lemma PendSV_kbase lo_s lo_c s :
  kbase lo_s lo_c s → pendsv s = true ∨ cur_ready s →
  wp PendSV_Handler (λ _ s',
    sw_eq s s' ∧ kinv lo_s lo_c s' ∧ pendsv s' = false ∧
    g_current_task s' = if pendsv s then head (g_os_run_list s) else g_current_task s) s.
Proof.
  intros Hk Hor. destruct (ki_cur _ _ _ Hk) as [c Hc].
  pose proof (kbase_run_nonempty _ _ _ Hk) as Hne. eapply wp_mono.
  { by apply (PendSV_Handler_spec s c). }
  simpl. intros _ s' (E & Hp & Hc').
  assert (Hcur : ∃ h, g_current_task s' = Some h ∧ task_state s h = OS_TASK_READY).
  { rewrite Hc'. destruct (pendsv s).
    - destruct (g_os_run_list s) as [|h l] eqn:El; [done|]. exists h. split; [done|].
      eapply head_highest_ready; [apply Hk|by rewrite El].
    - destruct Hor as [|(c' & ? & ?)]; [done|]. exists c. by simplify_eq. }
  destruct Hcur as (h & Hh & Hhs). split_and!; [done| |done|].
  - split; [by eapply kbase_sw; [|rewrite Hh|]|]. exists h. split; [done|].
    destruct E as [E _]. by rewrite <- (core_eq_state s s').
  - by rewrite Hc', Hc.
Qed.

(** ** Preservation by blocking *)

Lemma sleep_st_queue t n s : queue_eq s (sleep_st t n s).
Proof. unfold sleep_st. by destruct (n =? OS_TIMEOUT_NEVER). Qed.

Lemma evq_ok_sleep t n s :
  evq_ok s → task_state s t = OS_TASK_READY → evq_ok (sleep_st t n s).
Proof.
  intros H Hst. pose proof (not_evq_ready s t H Hst) as Hnot. destruct H as [H1 H2].
  assert (E : ∀ q, eventq_of (sleep_st t n s) q = eventq_of s q).
  { intros q. unfold eventq_of. by rewrite (qe_eventqs _ _ (sleep_st_queue t n s)). }
  split.
  - intros q u. rewrite E. intros Hq.
    rewrite sleep_st_state, sleep_st_obj, sleep_st_no_timeout.
    assert (t ≠ u) by (intros ->; by eapply Hnot). rewrite !decide_False by done. by eapply H1.
  - intros q q' u. rewrite !E. apply H2.
Qed.

Lemma sched_ok_transfer s s' :
  g_os_run_list s' = g_os_run_list s → g_os_sleep_list s' = g_os_sleep_list s →
  (∀ t, task_state s' t = task_state s t) → (∀ t, task_prio s' t = task_prio s t) →
  sched_ok s → sched_ok s'.
Proof.
  intros Er Es Est Ep [H1 H2 H3 H4 H5]. split; rewrite ?Er, ?Es; [done|done|..].
  - intros t. by rewrite Est.
  - intros t. by rewrite Est.
  - eapply sorted_by_ext; [|done]. intros; by rewrite Ep.
Qed.

Lemma sleep_ok_transfer lo s s' :
  g_os_sleep_list s' = g_os_sleep_list s → g_os_time s' = g_os_time s →
  (∀ t, task_state s' t = task_state s t) → (∀ t, no_timeout s' t = no_timeout s t) →
  (∀ t, t_next_wakeup (task_of s' t) = t_next_wakeup (task_of s t)) →
  sleep_ok lo s → sleep_ok lo s'.
Proof.
  intros Es Et Est Ef Ew [H1 H2 H3]. split; rewrite ?Es.
  - eapply sorted_by_ext; [|done]. intros t _. unfold wake_key. by rewrite Ef, Ew, Et.
  - intros t. rewrite Ef, Ew, Et. auto.
  - intros t. rewrite Ef, Est. auto.
Qed.

(** A ready task other than the idle task may be put to sleep. *)
Lemma kbase_sleep lo_s lo_c c n s :
  0 <= lo_s <= 1 → kbase lo_s lo_c s → task_state s c = OS_TASK_READY → c ≠ g_idle_task →
  timeout_ok n → kbase lo_s lo_c (sleep_st c n s).
Proof.
  intros Hlo [H1 H2 H3 H4 H5 H6 H7 H8 H9] Hst Hid Hn.
  pose proof (sleep_st_queue c n s) as Q. pose proof (sleep_st_obj_head c n s) as Hh. split; try done.
  - by apply sched_inv_sleep.
  - intros k. unfold sem_ok, sem_of. replace (sems (sleep_st c n s)) with (sems s); [apply H2|].
    unfold sleep_st. by destruct (n =? OS_TIMEOUT_NEVER).
  - intros k. unfold mutex_ok, mutex_of. replace (mutexes (sleep_st c n s)) with (mutexes s); [apply H3|].
    unfold sleep_st. by destruct (n =? OS_TIMEOUT_NEVER).
  - by apply evq_ok_sleep.
  - by eapply ev_ok_eq.
  - by eapply callout_ok_eq.
  - unfold sleep_st. by destruct (n =? OS_TIMEOUT_NEVER).
  - by rewrite sleep_st_state, decide_False.
  - unfold sleep_st. by destruct (n =? OS_TIMEOUT_NEVER).
Qed.

(** [linked s t o s']: in [s'] the task [t] of [s] has been linked to the object
    [o]; it is not asleep yet. *)
Record linked (s : kstate) (t : tid) (o : obj) (s' : kstate) : Prop := {
  ln_state : ∀ u, task_state s' u = task_state s u;
  ln_prio : ∀ u, task_prio s' u = task_prio s u;
  ln_no_timeout : ∀ u, no_timeout s' u = no_timeout s u;
  ln_wakeup : ∀ u, t_next_wakeup (task_of s' u) = t_next_wakeup (task_of s u);
  ln_obj : ∀ u, t_obj (task_of s' u) = if decide (t = u) then Some o else t_obj (task_of s u);
  ln_head : obj_head s' o ≡ₚ t :: obj_head s o;
  ln_head_ne : ∀ o', o' ≠ o → obj_head s' o' = obj_head s o';
  ln_run : g_os_run_list s' = g_os_run_list s;
  ln_sleep : g_os_sleep_list s' = g_os_sleep_list s;
  ln_queue : queue_eq s s';
  ln_current : g_current_task s' = g_current_task s;
  ln_started : g_os_started s' = g_os_started s;
}.

Lemma sched_inv_block lo s t o s' n :
  0 <= lo <= 1 → sched_inv lo s → task_state s t = OS_TASK_READY → linked s t o s' →
  timeout_ok n → sched_inv lo (sleep_st t n s').
Proof.
  intros Hlo (Hs & Hsl & [Hw1 Hw2] & Ha) Hst L Hn.
  assert (Hst' : task_state s' t = OS_TASK_READY) by by rewrite (ln_state _ _ _ _ L).
  assert (Hs' : sched_ok s') by (eapply sched_ok_transfer; [apply L..|done]).
  assert (Hsl' : sleep_ok lo s').
  { eapply sleep_ok_transfer; [| |apply L..|done]; [apply L|]. apply (ln_queue _ _ _ _ L). }
  assert (Hno : t_obj (task_of s t) = None).
  { destruct (t_obj (task_of s t)) eqn:E; [|done]. apply Ha in E. congruence. }
  assert (Hnot : ∀ o', t ∉ obj_head s o') by (intros o' ?%Hw1; congruence).
  split; [apply (sched_ok_sleep lo); by auto || lia|].
  split; [by apply sleep_ok_sleep|]. split.
  - apply wait_ok_sleep. split.
    + intros u o'. rewrite (ln_obj _ _ _ _ L). destruct (decide (o' = o)) as [->|Hne].
      * rewrite (ln_head _ _ _ _ L), elem_of_cons, <- Hw1. case_decide; naive_solver.
      * rewrite (ln_head_ne _ _ _ _ L), <- Hw1 by done. case_decide; naive_solver.
    + intros o'. destruct (decide (o' = o)) as [->|Hne].
      * rewrite (ln_head _ _ _ _ L). by constructor.
      * by rewrite (ln_head_ne _ _ _ _ L).
  - apply wait_asleep_sleep. intros u o' Hu. rewrite (ln_obj _ _ _ _ L), decide_False by done.
    rewrite (ln_state _ _ _ _ L). apply Ha.
Qed.

(** What a blocking call must still establish about semaphores and mutexes. *)
Lemma kbase_block lo_s lo_c s t o s' n :
  0 <= lo_s <= 1 → kbase lo_s lo_c s → task_state s t = OS_TASK_READY → t ≠ g_idle_task →
  linked s t o s' → timeout_ok n →
  (∀ k, sem_ok s' k) → (∀ k, mutex_ok s' k) → kbase lo_s lo_c (sleep_st t n s').
Proof.
  intros Hlo [H1 _ _ H4 H5 H6 H7 H8 H9] Hst Hid L Hn Hsem Hmu.
  pose proof (sleep_st_queue t n s') as Q.
  assert (E1 : sems (sleep_st t n s') = sems s')
    by (unfold sleep_st; by destruct (n =? OS_TIMEOUT_NEVER)).
  assert (E2 : mutexes (sleep_st t n s') = mutexes s')
    by (unfold sleep_st; by destruct (n =? OS_TIMEOUT_NEVER)).
  assert (E3 : g_current_task (sleep_st t n s') = g_current_task s')
    by (unfold sleep_st; by destruct (n =? OS_TIMEOUT_NEVER)).
  assert (E4 : g_os_started (sleep_st t n s') = g_os_started s')
    by (unfold sleep_st; by destruct (n =? OS_TIMEOUT_NEVER)).
  assert (Hst' : task_state s' t = OS_TASK_READY) by by rewrite (ln_state _ _ _ _ L).
  split.
  - by eapply sched_inv_block.
  - intros k. unfold sem_ok, sem_of. rewrite E1. apply Hsem.
  - intros k. unfold mutex_ok, mutex_of. rewrite E2. apply Hmu.
  - apply evq_ok_sleep; [|done]. pose proof (not_evq_ready s t H4 Hst) as Hnot.
    destruct H4 as [Ha Hb]. unfold eventq_of in *.
    rewrite <- (qe_eventqs _ _ (ln_queue _ _ _ _ L)) in *.
    split; [|done]. intros q u Hq. destruct (Ha q u Hq) as (? & ? & ?).
    rewrite (ln_state _ _ _ _ L), (ln_obj _ _ _ _ L), (ln_no_timeout _ _ _ _ L).
    rewrite decide_False by (intros ->; by eapply Hnot). done.
  - eapply ev_ok_eq; [done|]. eapply ev_ok_eq; [apply L|done].
  - eapply callout_ok_eq; [done|]. eapply callout_ok_eq; [apply L|done].
  - by rewrite E3, (ln_current _ _ _ _ L).
  - rewrite sleep_st_state, decide_False by done. by rewrite (ln_state _ _ _ _ L).
  - by rewrite E4, (ln_started _ _ _ _ L).
Qed.

(** ** Preservation by changes of the wait flags *)

(** An update of a task that keeps what the invariant looks at. *)
Definition benign (g : os_task → os_task) : Prop :=
  ∀ k, t_prio (g k) = t_prio k ∧ t_state (g k) = t_state k ∧ t_obj (g k) = t_obj k ∧
       t_next_wakeup (g k) = t_next_wakeup k ∧
       has_flag (t_flags (g k)) OS_TASK_FLAG_NO_TIMEOUT = has_flag (t_flags k) OS_TASK_FLAG_NO_TIMEOUT.

Lemma benign_task t g s u : benign g →
  task_prio (upd_task t g s) u = task_prio s u ∧
  task_state (upd_task t g s) u = task_state s u ∧
  t_obj (task_of (upd_task t g s) u) = t_obj (task_of s u) ∧
  t_next_wakeup (task_of (upd_task t g s) u) = t_next_wakeup (task_of s u) ∧
  no_timeout (upd_task t g s) u = no_timeout s u.
Proof.
  intros Hg. unfold task_prio, task_state, no_timeout. rewrite task_of_upd.
  case_decide; [|by split_and!]. subst.
  destruct (Hg (task_of s u)) as (?&?&?&?&?). by split_and!.
Qed.

Lemma sched_inv_benign lo t g s : benign g → sched_inv lo s → sched_inv lo (upd_task t g s).
Proof.
  intros Hg (Hs & Hsl & [Hw1 Hw2] & Ha). pose proof (λ u, benign_task t g s u Hg) as B.
  split; [eapply sched_ok_transfer; [..|done]; try done; intros u; apply B|].
  split; [eapply sleep_ok_transfer; [..|done]; try done; intros u; apply B|].
  split; [split|].
  - intros u o. destruct (B u) as (_ & _ & -> & _). apply Hw1.
  - intros o. apply Hw2.
  - intros u o. destruct (B u) as (_ & -> & -> & _). apply Ha.
Qed.

Lemma kbase_benign lo_s lo_c t g s :
  benign g → kbase lo_s lo_c s → kbase lo_s lo_c (upd_task t g s).
Proof.
  intros Hg [H1 H2 H3 [H4a H4b] H5 H6 H7 H8 H9]. pose proof (λ u, benign_task t g s u Hg) as B.
  split; try done.
  - by apply sched_inv_benign.
  - split; [|done]. intros q u. destruct (B u) as (_ & -> & -> & _ & ->). apply H4a.
  - apply (ev_ok_eq s); [by split|done].
  - apply (callout_ok_eq _ s); [by split|done].
  - by destruct (B g_idle_task) as (_ & -> & _).
Qed.

Lemma cur_ready_benign t g s : benign g → cur_ready s → cur_ready (upd_task t g s).
Proof.
  intros Hg (c & Hc & Hs). exists c. split; [done|].
  by destruct (benign_task t g s c Hg) as (_ & -> & _).
Qed.

Definition clear_sem_wait (t : os_task) : os_task :=
  set_t_flags (clear_flag (t_flags t) OS_TASK_FLAG_SEM_WAIT) t.
Definition clear_mutex_wait (t : os_task) : os_task :=
  set_t_flags (clear_flag (t_flags t) OS_TASK_FLAG_MUTEX_WAIT) t.

Lemma benign_clear_sem : benign clear_sem_wait.
Proof. intros k. split_and!; try done. simpl. by autorewrite with flags. Qed.
Lemma benign_clear_mutex : benign clear_mutex_wait.
Proof. intros k. split_and!; try done. simpl. by autorewrite with flags. Qed.

Create HintDb kernel.
#[export] Hint Resolve benign_clear_sem benign_clear_mutex : kernel.
#[export] Hint Resolve kbase_benign cur_ready_benign : kernel.

(** ** Waking up every waiter of an object

    The loops of [os_sem_delete] and [os_mutex_delete]; [check] is what the loop
    does before it wakes a task up (nothing, or an assertion). *)
Fixpoint wake_all_loop (check : tid → K unit) (fuel : nat) (o : obj) : K unit :=
  s ← get;
  match head (obj_head s o) with
  | None => mret tt
  | Some rdy =>
      match fuel with
      | O => fault_with FFuel
      | S fuel => check rdy ;; os_sched_wakeup rdy ;; wake_all_loop check fuel o
      end
  end.

Definition wake_all_post (s : kstate) (o : obj) (s' : kstate) : Prop :=
  wake_frame s s' ∧ obj_head s' o = [] ∧
  (∀ t, task_of s' t = if decide (t ∈ obj_head s o) then wake_task (task_of s t) else task_of s t) ∧
  (∀ t, t ∈ obj_head s o → t ∈ g_os_run_list s').

Lemma wake_all_loop_spec lo_s lo_c check o :
  (∀ t s, t_obj (task_of s t) = Some o → check t s = Ret (tt, s)) → ∀ fuel s,
  kbase lo_s lo_c s → (length (obj_head s o) <= fuel)%nat →
  wp (wake_all_loop check fuel o) (λ _ s', kbase lo_s lo_c s' ∧ wake_all_post s o s') s.
Proof.
  intros Hcheck.
  induction fuel as [|fuel IH]; intros s Hk Hlen; simpl;
    unfold wp at 1, mbind, M_bind at 1, get; destruct (obj_head s o) as [|r l] eqn:Ho; simpl in *.
  - split; [done|]. split_and!; [done|done| |]; rewrite Ho; [|set_solver].
    intros t. by rewrite decide_False by set_solver.
  - lia.
  - split; [done|]. split_and!; [done|done| |]; rewrite Ho; [|set_solver].
    intros t. by rewrite decide_False by set_solver.
  - destruct (ki_sched _ _ _ Hk) as (Hs & Hsl & Hw & Ha).
    assert (Hobj : t_obj (task_of s r) = Some o) by (apply (wo_iff _ Hw); rewrite Ho; by left).
    assert (Hst : task_state s r = OS_TASK_SLEEP) by by eapply Ha.
    assert (Hnd : NoDup (r :: l)) by (rewrite <- Ho; apply Hw). apply NoDup_cons in Hnd as [Hr _].
    unfold mbind, M_bind. rewrite Hcheck, os_sched_wakeup_run by done.
    assert (Hhead : obj_head (wakeup_st r s) o = l).
    { rewrite wakeup_st_obj_head, decide_True, Ho by done. simpl. by rewrite decide_True. }
    pose proof (wakeup_st_frame r s Hst) as F.
    change (wp (wake_all_loop check fuel o) (λ _ s', kbase lo_s lo_c s' ∧ wake_all_post s o s') (wakeup_st r s)).
    eapply wp_mono.
    { apply IH; [|rewrite Hhead; lia]. eapply kbase_wakeup; [done|done|].
      eapply not_evq_obj; [apply Hk|done]. }
    simpl. intros _ s' (Hk' & F' & Hn & Ht & Hr'). split; [done|]. split_and!; [|done| |].
    + by etransitivity.
    + intros t. rewrite Ht, Hhead, wakeup_st_task, Ho.
      destruct (decide (r = t)) as [<-|Hne].
      * by rewrite decide_False, decide_True by set_solver.
      * by rewrite (decide_ext (t ∈ l) (t ∈ r :: l)) by set_solver.
    + intros t. rewrite Ho. intros [->|Hin]%elem_of_cons.
      * apply F'. rewrite wakeup_st_run. apply elem_of_insert_before. by left.
      * apply Hr'. by rewrite Hhead.
Qed.

(** ** Preservation by priority changes *)

Lemma reprio_st_queue t p s : queue_eq s (reprio_st t p s).
Proof. unfold reprio_st. by case_decide. Qed.
Lemma reprio_st_mutexes t p s : mutexes (reprio_st t p s) = mutexes s.
Proof. unfold reprio_st. by case_decide. Qed.
Lemma reprio_st_sems t p s : sems (reprio_st t p s) = sems s.
Proof. unfold reprio_st. by case_decide. Qed.
Lemma reprio_st_current t p s : g_current_task (reprio_st t p s) = g_current_task s.
Proof. unfold reprio_st. by case_decide. Qed.
Lemma reprio_st_started t p s : g_os_started (reprio_st t p s) = g_os_started s.
Proof. unfold reprio_st. by case_decide. Qed.
Lemma reprio_st_pendsv t p s : pendsv (reprio_st t p s) = pendsv s.
Proof. unfold reprio_st. by case_decide. Qed.

Lemma kcore_reprio lo_s lo_c t p s : kcore lo_s lo_c s → kcore lo_s lo_c (reprio_st t p s).
Proof.
  intros [H1 H2 [H4a H4b] H5 H6 H7 H8 H9]. pose proof (reprio_st_queue t p s) as Q. split.
  - by apply sched_inv_reprio.
  - intros k. unfold sem_ok, sem_of. rewrite reprio_st_sems. apply H2.
  - unfold eventq_of in *. split; unfold eventq_of; rewrite (qe_eventqs _ _ Q); [|done].
    intros q u. rewrite reprio_st_state, reprio_st_obj, reprio_st_no_timeout. apply H4a.
  - by eapply ev_ok_eq.
  - by eapply callout_ok_eq.
  - by rewrite reprio_st_current.
  - by rewrite reprio_st_state.
  - by rewrite reprio_st_started.
Qed.

Lemma kbase_reprio lo_s lo_c t p s : kbase lo_s lo_c s → kbase lo_s lo_c (reprio_st t p s).
Proof.
  rewrite !kbase_kcore. intros [Hk Hm]. split; [by apply kcore_reprio|].
  intros k. unfold mutex_ok, mutex_of. rewrite reprio_st_mutexes. apply Hm.
Qed.

Lemma cur_ready_reprio t p s : cur_ready s → cur_ready (reprio_st t p s).
Proof. intros (c & Hc & Hs). exists c. by rewrite reprio_st_current, reprio_st_state. Qed.

(** ** Updates of a mutex other than of its waiter list *)

Lemma kcore_upd_mutex lo_s lo_c k f s :
  kcore lo_s lo_c s → (∀ m, mu_head (f m) = mu_head m) → kcore lo_s lo_c (upd_mutex k f s).
Proof.
  intros [(Hs & Hsl & [Hw1 Hw2] & Ha) H2 H4 H5 H6 H7 H8 H9] Hh.
  assert (Hhead : ∀ o, obj_head (upd_mutex k f s) o = obj_head s o).
  { intros [j|j]; [done|]. simpl. rewrite mutex_of_upd. by case_decide; subst. }
  split; try done.
  - split_and!; [by destruct Hs; split|by destruct Hsl; split| |done].
    split; [intros t o|intros o]; rewrite Hhead; [apply Hw1|apply Hw2].
  - by destruct H4; split.
  - by destruct H5; split.
  - by destruct H6; split.
Qed.

Lemma kbase_upd_mutex lo_s lo_c k f s :
  kbase lo_s lo_c s → (∀ m, mu_head (f m) = mu_head m) →
  mutex_ok (upd_mutex k f s) k → kbase lo_s lo_c (upd_mutex k f s).
Proof.
  rewrite !kbase_kcore. intros [Hk Hm] Hh Hok. split; [by apply kcore_upd_mutex|].
  intros j. destruct (decide (k = j)) as [<-|Hne]; [done|].
  unfold mutex_ok. rewrite mutex_of_upd, decide_False by done. apply Hm.
Qed.
