(* ===== verification/OsSem.v ===== *)
(** Counting semaphores: libs/os/src/os_sem.c.

    A blocking call is split at its call of [os_sched]: [os_sem_pend] returns
    [None] when the caller has been put to sleep, and [os_sem_pend_resume] is
    the rest of the function, which runs when the caller is scheduled again. *)
From Stdlib Require Import ZArith Lia.
From stdpp Require Import base decidable list numbers gmap.
From S2P Require Import Prelude.
From S2P Require Import OsState.
From S2P Require Import OsSched.
From S2P Require Import OsInv.

#[local] Open Scope Z_scope.

(** ** Operations *)

Definition os_sem_init (sem : option nat) (tokens : Z) : K os_error :=
  match sem with
  | None => mret OS_INVALID_PARM
  | Some k =>
      modify (upd_sem k (set_sem_tokens (u16 tokens))) ;;
      modify (upd_sem k (set_sem_head [])) ;;
      mret OS_OK
  end.

Definition os_sem_release (sem : option nat) : K os_error :=
  started ← gets g_os_started;
  if negb started then mret OS_NOT_STARTED
  else match sem with
  | None => mret OS_INVALID_PARM
  | Some k =>
      current ← os_sched_get_current_task;
      s ← get;
      '(resched, rdy) ← (match head (sem_head (sem_of s k)) with
          | Some rdy =>
              modify (upd_task rdy clear_sem_wait) ;;
              os_sched_wakeup rdy ;;
              c ← from_option_fault FNull current;
              s ← get;
              mret (t_prio (task_of s rdy) <? t_prio (task_of s c), Some rdy)
          | None =>
              modify (upd_sem k (λ m, set_sem_tokens (u16 (sem_tokens m + 1)) m)) ;;
              mret (false, None)
          end : K (bool * option tid));
      (if resched : bool then os_sched rdy false else mret tt) ;;
      mret OS_OK
  end.

(** The [last] scan and insertion shared by [os_sem_pend] and [os_mutex_pend]. *)
Definition wait_insert (s : kstate) (current : tid) (l : list tid) : list tid :=
  slist_insert
    (slist_scan (λ entry, t_prio (task_of s current) <? t_prio (task_of s entry)) None l) current l.

Definition os_sem_pend (sem : option nat) (timeout : Z) : K (option os_error) :=
  started ← gets g_os_started;
  if negb started then mret (Some OS_NOT_STARTED)
  else match sem with
  | None => mret (Some OS_INVALID_PARM)
  | Some k =>
      current ← os_sched_get_current_task;
      s ← get;
      if negb (sem_tokens (sem_of s k) =? 0) then
        modify (upd_sem k (λ m, set_sem_tokens (u16 (sem_tokens m - 1)) m)) ;;
        mret (Some OS_OK)
      else if timeout =? 0 then mret (Some OS_TIMEOUT)
      else
        c ← from_option_fault FNull current;
        modify (upd_task c (set_t_obj (Some (ObjSem k)))) ;;
        modify (upd_task c (λ t, set_t_flags (set_flag (t_flags t) OS_TASK_FLAG_SEM_WAIT) t)) ;;
        modify (λ s, upd_sem k (set_sem_head (wait_insert s c (sem_head (sem_of s k)))) s) ;;
        os_sched_sleep c timeout ;;
        os_sched None false ;;
        mret None
  end.

Definition os_sem_pend_resume (current : tid) : K os_error :=
  s ← get;
  if has_flag (t_flags (task_of s current)) OS_TASK_FLAG_SEM_WAIT then
    modify (upd_task current clear_sem_wait) ;;
    mret OS_TIMEOUT
  else mret OS_OK.

Definition os_sem_delete (sem : option nat) : K os_error :=
  started ← gets g_os_started;
  if negb started then mret OS_NOT_STARTED
  else match sem with
  | None => mret OS_INVALID_PARM
  | Some k =>
      current ← os_sched_get_current_task;
      modify (upd_sem k (set_sem_tokens 0)) ;;
      s ← get;
      resched ← match head (sem_head (sem_of s k)) with
          | Some rdy =>
              c ← from_option_fault FNull current;
              wake_all_loop (λ _, mret tt) (length (sem_head (sem_of s k))) (ObjSem k) ;;
              mret (t_prio (task_of s rdy) <? t_prio (task_of s c))
          | None => mret false
          end;
      (if resched : bool then os_sched None false else mret tt) ;;
      mret OS_OK
  end.

(** ** Specifications *)

(** An update of one semaphore touches neither the scheduler's lists nor the
    tasks. *)
Lemma kbase_upd_sem lo_s lo_c k f s :
  kbase lo_s lo_c s → sem_head (f (sem_of s k)) = sem_head (sem_of s k) →
  0 <= sem_tokens (f (sem_of s k)) < 65536 →
  (sem_tokens (f (sem_of s k)) ≠ 0 → sem_head (sem_of s k) = []) →
  kbase lo_s lo_c (upd_sem k f s).
Proof.
  intros [(Hs & Hsl & [Hw1 Hw2] & Ha) H2 H3 H4 H5 H6 H7 H8 H9] Hh Hr Ht.
  assert (Hhead : ∀ o, obj_head (upd_sem k f s) o = obj_head s o).
  { intros [j|j]; [|done]. simpl. rewrite sem_of_upd. by case_decide; subst. }
  split; try done.
  - split_and!; [by destruct Hs; split|by destruct Hsl; split| |done].
    split; [intros t o|intros o]; rewrite Hhead; [apply Hw1|apply Hw2].
  - intros j. unfold sem_ok. rewrite sem_of_upd. case_decide; subst; [|apply H2].
    rewrite Hh. auto.
  - by destruct H4; split.
  - by destruct H5; split.
  - by destruct H6; split.
Qed.

Lemma sem_first_waiter lo_s lo_c s k r l :
  kbase lo_s lo_c s → sem_head (sem_of s k) = r :: l →
  t_obj (task_of s r) = Some (ObjSem k) ∧ task_state s r = OS_TASK_SLEEP ∧ NoDup (r :: l).
Proof.
  intros [(_ & _ & Hw & Ha) _ _ _ _ _ _ _ _] Hh.
  assert (Ho : t_obj (task_of s r) = Some (ObjSem k)).
  { apply (wo_iff _ Hw). simpl. rewrite Hh. by left. }
  split_and!; [done|by eapply Ha|]. rewrite <- Hh. apply (wo_nodup _ Hw (ObjSem k)).
Qed.

(** The state in which the first waiter [r] has been granted the token. *)
Definition grant_st (r : tid) (s : kstate) : kstate := wakeup_st r (upd_task r clear_sem_wait s).

Lemma grant_st_prio r s u : task_prio (grant_st r s) u = task_prio s u.
Proof. unfold grant_st. rewrite wakeup_st_prio. apply (benign_task r _ s u benign_clear_sem). Qed.

Lemma grant_st_run r s :
  g_os_run_list (grant_st r s) =
    insert_before (λ e, task_prio s r <? task_prio s e) r (g_os_run_list s).
Proof.
  unfold grant_st. rewrite wakeup_st_run. apply insert_before_ext. intros e _.
  pose proof (λ u, benign_task r _ s u benign_clear_sem) as B.
  by destruct (B e) as (-> & _), (B r) as (-> & _).
Qed.

Lemma grant_st_flag r s :
  has_flag (t_flags (task_of (grant_st r s) r)) OS_TASK_FLAG_SEM_WAIT = false.
Proof.
  unfold grant_st. rewrite wakeup_st_task, decide_True, task_of_upd_eq by done.
  simpl. by autorewrite with flags.
Qed.

Lemma grant_st_ok lo_s lo_c s k r l :
  kinv lo_s lo_c s → sem_head (sem_of s k) = r :: l →
  os_sched_wakeup r (upd_task r clear_sem_wait s) = Ret (0, grant_st r s) ∧
  kinv lo_s lo_c (grant_st r s) ∧
  wake_frame (upd_task r clear_sem_wait s) (grant_st r s) ∧
  sem_head (sem_of (grant_st r s) k) = l ∧
  task_state (grant_st r s) r = OS_TASK_READY.
Proof.
  intros [Hk Hcr] Hh.
  destruct (sem_first_waiter _ _ _ _ _ _ Hk Hh) as (Ho & Hst & _).
  assert (Hk1 : kbase lo_s lo_c (upd_task r clear_sem_wait s))
    by (apply kbase_benign; [apply benign_clear_sem|done]).
  destruct (benign_task r _ s r benign_clear_sem) as (_ & Bst & Bo & _).
  destruct (ki_sched _ _ _ Hk1) as (Hs1 & _ & Hw1 & _).
  assert (Hsl1 : task_state (upd_task r clear_sem_wait s) r = OS_TASK_SLEEP).
  { congruence. }
  assert (Ho1 : t_obj (task_of (upd_task r clear_sem_wait s) r) = Some (ObjSem k)).
  { congruence. }
  pose proof (wakeup_st_frame r _ Hsl1) as F. split_and!.
  - by apply os_sched_wakeup_run.
  - split.
    + apply kbase_wakeup; [done|done|]. eapply not_evq_obj; [apply Hk1|done].
    + eapply cur_ready_wake; [done|]. apply cur_ready_benign; [apply benign_clear_sem|done].
  - done.
  - change (obj_head (grant_st r s) (ObjSem k) = l). unfold grant_st.
    rewrite wakeup_st_obj_head, decide_True by done.
    change (obj_head (upd_task r _ s) (ObjSem k)) with (sem_head (sem_of s k)).
    rewrite Hh. simpl. by rewrite decide_True.
  - unfold grant_st. by rewrite wakeup_st_state, decide_True.
Qed.

(** Release with a waiter: the first waiter gets the token and is made ready. *)
Lemma os_sem_release_wake s k r l c :
  kinv 1 1 s → pendsv s = false → g_current_task s = Some c → sem_head (sem_of s k) = r :: l →
  wp (os_sem_release (Some k)) (λ rc s',
    rc = OS_OK ∧ kinv 1 1 s' ∧ g_current_task s' = Some c ∧
    sw_eq (grant_st r s) s' ∧ pendsv s' = (task_prio s r <? task_prio s c)) s.
Proof.
  intros Hki Hp Hc Hh. destruct (grant_st_ok _ _ _ _ _ _ Hki Hh) as (Hrun & [Hk2 Hcr2] & F & _).
  unfold os_sem_release. k_simp. rewrite (ki_started _ _ _ (proj1 Hki)). cbn [negb]. k_simp.
  rewrite Hh, Hc. cbn [head]. k_simp.
  eapply wp_eq; [exact Hrun|]. k_simp.
  fold (task_prio (grant_st r s) r) (task_prio (grant_st r s) c). rewrite !grant_st_prio.
  assert (Hc2 : g_current_task (grant_st r s) = Some c) by by rewrite (wf_current _ _ F).
  assert (Hp2 : pendsv (grant_st r s) = false) by by rewrite (wf_pendsv _ _ F).
  eapply wp_mono; [by apply (sched_if_spec 1 1)|].
  intros ? s' (E & Hk' & Hc' & Hp'). k_simp. split_and!; [done..|].
  rewrite Hp'. destruct (Z.ltb_spec (task_prio s r) (task_prio s c)); [|done].
  apply bool_decide_true. intros [= ->]. lia.
Qed.

(** Release without a waiter: the token is banked (modulo 2^16). *)
Lemma os_sem_release_bank s k :
  kinv 1 1 s → sem_head (sem_of s k) = [] →
  os_sem_release (Some k) s =
    Ret (OS_OK, upd_sem k (λ m, set_sem_tokens (u16 (sem_tokens m + 1)) m) s) ∧
  kinv 1 1 (upd_sem k (λ m, set_sem_tokens (u16 (sem_tokens m + 1)) m) s).
Proof.
  intros [Hk Hcr] Hh. split.
  - unfold os_sem_release, mbind, M_bind, gets. rewrite (ki_started _ _ _ Hk). simpl.
    unfold get. by rewrite Hh.
  - split; [|done]. apply kbase_upd_sem; [done|done|apply u16_bound|done].
Qed.

(** *** Pending *)

Definition sem_link_st (c : tid) (k : nat) (s : kstate) : kstate :=
  let s := upd_task c (set_t_obj (Some (ObjSem k))) s in
  let s := upd_task c (λ t, set_t_flags (set_flag (t_flags t) OS_TASK_FLAG_SEM_WAIT) t) s in
  upd_sem k (set_sem_head (wait_insert s c (sem_head (sem_of s k)))) s.

Lemma sem_link_st_task c k s u :
  task_of (sem_link_st c k s) u =
    if decide (c = u) then
      set_t_flags (set_flag (t_flags (task_of s c)) OS_TASK_FLAG_SEM_WAIT)
        (set_t_obj (Some (ObjSem k)) (task_of s c))
    else task_of s u.
Proof.
  unfold sem_link_st. change (task_of (upd_sem k ?f ?x) u) with (task_of x u).
  rewrite !task_of_upd. case_decide; subst; by rewrite ?decide_True.
Qed.

(** The waiter list stays in priority order: the caller goes behind the waiters
    of its own priority. *)
Lemma sem_link_st_head c k s :
  NoDup (sem_head (sem_of s k)) →
  sem_head (sem_of (sem_link_st c k s) k) =
    insert_before (λ e, task_prio s c <? task_prio s e) c (sem_head (sem_of s k)).
Proof.
  intros Hnd. unfold sem_link_st. rewrite sem_of_upd, decide_True by done. simpl.
  unfold wait_insert. change (sem_of (upd_task ?t ?f ?x) k) with (sem_of x k).
  rewrite slist_insert_scan by done. apply insert_before_ext.
  intros e _. unfold task_prio. rewrite !task_of_upd. repeat case_decide; by subst.
Qed.

Lemma sem_link_linked lo s c k :
  sched_inv lo s → linked s c (ObjSem k) (sem_link_st c k s).
Proof.
  intros (_ & _ & Hw & _). split; try done.
  - intros u. unfold task_state. rewrite sem_link_st_task. case_decide; by subst.
  - intros u. unfold task_prio. rewrite sem_link_st_task. case_decide; by subst.
  - intros u. unfold no_timeout. rewrite sem_link_st_task. case_decide; [subst|done].
    simpl. by autorewrite with flags.
  - intros u. rewrite sem_link_st_task. case_decide; by subst.
  - intros u. rewrite sem_link_st_task. by case_decide.
  - simpl. rewrite sem_link_st_head by apply (wo_nodup _ Hw (ObjSem k)).
    apply insert_before_perm.
  - intros [j|j] Hne; simpl; [|done]. unfold sem_link_st. rewrite sem_of_upd.
    by rewrite decide_False by congruence.
Qed.

Lemma sem_link_sem_ok s c k j :
  sem_tokens (sem_of s k) = 0 → (∀ j, sem_ok s j) → sem_ok (sem_link_st c k s) j.
Proof.
  intros Ht Hs. unfold sem_ok, sem_link_st. rewrite sem_of_upd. case_decide; [subst|apply Hs].
  split; [exact (proj1 (Hs j))|]. intros Hne. by destruct Hne.
Qed.

(** A task put to sleep is no longer at the head of the run list. *)
Lemma sleep_st_head_ne lo t n s :
  sched_ok s → sleep_ok lo s → 0 <= lo → task_state s t = OS_TASK_READY → timeout_ok n →
  head (g_os_run_list (sleep_st t n s)) ≠ Some t.
Proof.
  intros Hs Hsl Hlo Hst Hn Hh. pose proof (sched_ok_sleep lo t n s Hlo Hs Hsl Hst Hn) as Hs'.
  apply head_highest_ready in Hh as [Hr _]; [|done].
  by rewrite sleep_st_state, decide_True in Hr.
Qed.

(** No token: the caller joins the waiters, sleeps and a switch is requested. *)
Lemma os_sem_pend_block s k c timeout :
  kinv 1 1 s → g_current_task s = Some c → c ≠ g_idle_task →
  sem_tokens (sem_of s k) = 0 → timeout ≠ 0 → timeout_ok timeout →
  wp (os_sem_pend (Some k) timeout) (λ r s',
    r = None ∧ kbase 1 1 s' ∧ pendsv s' = true ∧ g_current_task s' = Some c ∧
    sw_eq (sleep_st c timeout (sem_link_st c k s)) s') s.
Proof.
  intros [Hk Hcr] Hc Hid Ht Hto Hn.
  assert (Hst : task_state s c = OS_TASK_READY) by (destruct Hcr as (? & ? & ?); congruence).
  pose proof (sem_link_linked 1 s c k (ki_sched _ _ _ Hk)) as L.
  assert (Hk2 : kbase 1 1 (sleep_st c timeout (sem_link_st c k s))).
  { eapply kbase_block; [lia|done..| |].
    - intros j. apply sem_link_sem_ok; [done|apply Hk].
    - intros j. apply (ki_mutex _ _ _ Hk j). }
  destruct (ki_sched _ _ _ Hk) as (Hs & Hsl & _).
  unfold os_sem_pend. k_simp. rewrite (ki_started _ _ _ Hk). cbn [negb]. k_simp.
  rewrite Ht, Hc. cbn [Z.eqb negb]. rewrite (proj2 (Z.eqb_neq _ _)) by done.
  k_simp. fold (sem_link_st c k s).
  eapply wp_eq. { apply os_sched_sleep_run. rewrite (ln_run _ _ _ _ L). by apply Hs. }
  k_simp. eapply wp_mono; [by apply (os_sched_kbase 1 1 None false)|].
  intros ? s' (E & Hk' & Hc' & Hp'). k_simp.
  assert (Hc2 : g_current_task (sleep_st c timeout (sem_link_st c k s)) = Some c).
  { unfold sleep_st. by destruct (timeout =? OS_TIMEOUT_NEVER). }
  rewrite Hc2 in Hc', Hp'. split_and!; try done.
  rewrite Hp'. apply orb_true_intro. right. apply bool_decide_true.
  apply (sleep_st_head_ne 1); [| |lia| |done].
  - eapply sched_ok_transfer; [apply L..|done].
  - eapply sleep_ok_transfer; [apply L|apply (ln_queue _ _ _ _ L)|apply L..|done].
  - by rewrite (ln_state _ _ _ _ L).
Qed.

(** A token is available: it is taken, whatever the timeout. *)
Lemma os_sem_pend_take s k timeout :
  kinv 1 1 s → sem_tokens (sem_of s k) ≠ 0 →
  let s' := upd_sem k (λ m, set_sem_tokens (u16 (sem_tokens m - 1)) m) s in
  os_sem_pend (Some k) timeout s = Ret (Some OS_OK, s') ∧ kinv 1 1 s' ∧
  sem_tokens (sem_of s' k) = sem_tokens (sem_of s k) - 1.
Proof.
  intros [Hk Hcr] Ht s'. destruct (ki_sem _ _ _ Hk k) as [Hr Hw]. split_and!.
  - unfold os_sem_pend, mbind, M_bind, gets. rewrite (ki_started _ _ _ Hk). simpl.
    unfold get. by rewrite (proj2 (Z.eqb_neq _ _)).
  - split; [|done]. apply kbase_upd_sem; [done|done|apply u16_bound|auto].
  - unfold s'. rewrite sem_of_upd, decide_True by done. simpl. rewrite u16_small; lia.
Qed.

(** No token and a zero timeout: nothing changes. *)
Lemma os_sem_pend_poll s k :
  g_os_started s = true → sem_tokens (sem_of s k) = 0 →
  os_sem_pend (Some k) 0 s = Ret (Some OS_TIMEOUT, s).
Proof.
  intros Hst Ht. unfold os_sem_pend, mbind, M_bind, gets. rewrite Hst. simpl.
  unfold get. by rewrite Ht.
Qed.

(** After the wake-up: the wait flag tells a timeout from a granted token. *)
Lemma os_sem_pend_resume_run lo_s lo_c t s :
  kinv lo_s lo_c s →
  wp (os_sem_pend_resume t) (λ rc s',
    rc = (if has_flag (t_flags (task_of s t)) OS_TASK_FLAG_SEM_WAIT then OS_TIMEOUT else OS_OK) ∧
    kinv lo_s lo_c s' ∧ g_os_run_list s' = g_os_run_list s ∧
    g_current_task s' = g_current_task s ∧ pendsv s' = pendsv s ∧ sems s' = sems s) s.
Proof.
  intros [Hk Hcr]. unfold os_sem_pend_resume. k_simp. case_match; k_simp.
  - split_and!; try done. split; [by apply kbase_benign; [apply benign_clear_sem|]|].
    apply cur_ready_benign; [apply benign_clear_sem|done].
  - by split_and!.
Qed.

(** *** Deletion *)

(** Deletion takes all tokens and makes every waiter ready; the waiters keep
    their wait flag, so each of them will see a timeout. *)
Lemma os_sem_delete_spec s k c :
  kinv 1 1 s → pendsv s = false → g_current_task s = Some c →
  wp (os_sem_delete (Some k)) (λ rc s',
    rc = OS_OK ∧ kinv 1 1 s' ∧ g_current_task s' = Some c ∧
    sem_tokens (sem_of s' k) = 0 ∧ sem_head (sem_of s' k) = [] ∧
    (∀ t, t ∈ sem_head (sem_of s k) →
       task_state s' t = OS_TASK_READY ∧
       has_flag (t_flags (task_of s' t)) OS_TASK_FLAG_SEM_WAIT =
         has_flag (t_flags (task_of s t)) OS_TASK_FLAG_SEM_WAIT) ∧
    (∀ r, head (sem_head (sem_of s k)) = Some r →
       pendsv s' = (task_prio s r <? task_prio s c) && bool_decide (head (g_os_run_list s') ≠ Some c))) s.
Proof.
  intros [Hk Hcr] Hp Hc. unfold os_sem_delete. k_simp.
  rewrite (ki_started _ _ _ Hk). cbn [negb]. k_simp.
  set (s1 := upd_sem k (set_sem_tokens 0) s).
  assert (Hk1 : kbase 1 1 s1) by (apply kbase_upd_sem; simpl; [done|done|lia|done]).
  assert (Hsem1 : sem_of s1 k = set_sem_tokens 0 (sem_of s k))
    by (unfold s1; by rewrite sem_of_upd, decide_True).
  rewrite Hsem1. cbn [sem_head set_sem_tokens]. rewrite Hc.
  destruct (sem_head (sem_of s k)) as [|r l] eqn:Hh; cbn [head].
  - k_simp. split_and!; try done; [by rewrite Hsem1|by rewrite Hsem1|set_solver].
  - k_simp. eapply wp_mono.
    { apply (wake_all_loop_spec 1 1); [done|done|]. simpl. rewrite Hsem1. simpl. by rewrite Hh. }
    intros ? s2 (Hk2 & F & Hn & Ht & _). k_simp. simpl in Hn.
    change (task_of s1) with (task_of s). fold (task_prio s r) (task_prio s c).
    assert (Hw : ∀ t, t ∈ r :: l → task_of s2 t = wake_task (task_of s t)).
    { intros t Hin. rewrite Ht, decide_True; [done|]. simpl. rewrite Hsem1. simpl. by rewrite Hh. }
    assert (Hcr2 : cur_ready s2) by by eapply cur_ready_wake.
    assert (Hc2 : g_current_task s2 = Some c) by by rewrite (wf_current _ _ F).
    assert (Htok : sem_tokens (sem_of s2 k) = 0) by by rewrite (wf_tokens _ _ F), Hsem1.
    assert (Hfin : ∀ t, t ∈ r :: l → task_state s2 t = OS_TASK_READY ∧
      has_flag (t_flags (task_of s2 t)) OS_TASK_FLAG_SEM_WAIT =
      has_flag (t_flags (task_of s t)) OS_TASK_FLAG_SEM_WAIT).
    { intros t Hin. unfold task_state. rewrite Hw by done. split; [done|].
      simpl. by autorewrite with flags. }
    eapply wp_mono; [apply (sched_if_spec 1 1); [done| |done]; by rewrite (wf_pendsv _ _ F)|].
    intros ? s' (E & Hk' & Hc' & Hp'). k_simp. destruct (E) as [Ec _].
    unfold sem_of. rewrite <- (ce_sems _ _ Ec), <- (ce_run _ _ Ec). split_and!; try done.
    + intros t Hin. rewrite <- (core_eq_state s2 s'), <- (core_eq_flags s2 s') by done. auto.
    + by intros ? [= <-].
Qed.
