(* ===== verification/OsMutex.v ===== *)
(** Mutexes with priority inheritance: libs/os/src/os_mutex.c.

    [os_mutex_release] is split at its [OS_ENTER_CRITICAL]: the nesting level is
    decremented before interrupts are disabled ([os_mutex_release_enter]), the
    rest runs in the critical section ([os_mutex_release_crit]).  As for
    semaphores, a blocking [os_mutex_pend] returns [None] and is completed by
    [os_mutex_pend_resume]. *)
From Stdlib Require Import ZArith Lia.
From stdpp Require Import base decidable list numbers gmap.
From S2P Require Import Prelude.
From S2P Require Import OsState.
From S2P Require Import OsSched.
From S2P Require Import OsInv.
From S2P Require Import OsSem.

#[local] Open Scope Z_scope.

(** ** Operations *)

Definition os_mutex_init (mu : option nat) : K os_error :=
  match mu with
  | None => mret OS_INVALID_PARM
  | Some k =>
      modify (upd_mutex k (set_mu_prio 0)) ;;
      modify (upd_mutex k (set_mu_level 0)) ;;
      modify (upd_mutex k (set_mu_owner None)) ;;
      modify (upd_mutex k (set_mu_head [])) ;;
      mret OS_OK
  end.

(** [inr c]: the mutex is to be released by the task [c]; [inl rc]: the call
    returns [rc]. *)
Definition os_mutex_release_enter (mu : option nat) : K (os_error + nat * tid) :=
  started ← gets g_os_started;
  if negb started then mret (inl OS_NOT_STARTED)
  else match mu with
  | None => mret (inl OS_INVALID_PARM)
  | Some k =>
      current ← os_sched_get_current_task;
      s ← get;
      if (mu_level (mutex_of s k) =? 0) || bool_decide (mu_owner (mutex_of s k) ≠ current) then
        mret (inl OS_BAD_MUTEX)
      else
        modify (upd_mutex k (λ m, set_mu_level (u16 (mu_level m - 1)) m)) ;;
        s ← get;
        if negb (mu_level (mutex_of s k) =? 0) then mret (inl OS_OK)
        else
          c ← from_option_fault FNull current;
          mret (inr (k, c))
  end.

Definition os_mutex_release_crit (k : nat) (current : tid) : K os_error :=
  s ← get;
  (if negb (t_prio (task_of s current) =? mu_prio (mutex_of s k)) then
     set_prio_resort current (mu_prio (mutex_of s k))
   else mret tt) ;;
  s ← get;
  match head (mu_head (mutex_of s k)) with
  | Some rdy =>
      assert_ (bool_decide (is_Some (t_obj (task_of s rdy)))) ;;
      os_sched_wakeup rdy ;;
      modify (upd_mutex k (set_mu_level 1)) ;;
      modify (λ s, upd_mutex k (set_mu_prio (t_prio (task_of s rdy))) s)
  | None => mret tt
  end ;;
  modify (upd_mutex k (set_mu_owner (head (mu_head (mutex_of s k))))) ;;
  rdy ← os_sched_next_task;
  (if bool_decide (rdy ≠ Some current) then os_sched rdy false else mret tt) ;;
  mret OS_OK.

Definition os_mutex_release (mu : option nat) : K os_error :=
  r ← os_mutex_release_enter mu;
  match r with
  | inl rc => mret rc
  | inr (k, c) => os_mutex_release_crit k c
  end.

Definition os_mutex_pend (mu : option nat) (timeout : Z) : K (option os_error) :=
  started ← gets g_os_started;
  if negb started then mret (Some OS_NOT_STARTED)
  else match mu with
  | None => mret (Some OS_INVALID_PARM)
  | Some k =>
      current ← os_sched_get_current_task;
      s ← get;
      if mu_level (mutex_of s k) =? 0 then
        c ← from_option_fault FNull current;
        modify (upd_mutex k (set_mu_owner current)) ;;
        modify (upd_mutex k (set_mu_prio (t_prio (task_of s c)))) ;;
        modify (upd_mutex k (set_mu_level 1)) ;;
        mret (Some OS_OK)
      else if bool_decide (mu_owner (mutex_of s k) = current) then
        modify (upd_mutex k (λ m, set_mu_level (u16 (mu_level m + 1)) m)) ;;
        mret (Some OS_OK)
      else if timeout =? 0 then mret (Some OS_TIMEOUT)
      else
        owner ← from_option_fault FNull (mu_owner (mutex_of s k));
        c ← from_option_fault FNull current;
        (if t_prio (task_of s c) <? t_prio (task_of s owner) then
           set_prio_resort owner (t_prio (task_of s c))
         else mret tt) ;;
        modify (λ s, upd_mutex k (set_mu_head (wait_insert s c (mu_head (mutex_of s k)))) s) ;;
        modify (upd_task c (set_t_obj (Some (ObjMutex k)))) ;;
        modify (upd_task c (λ t, set_t_flags (set_flag (t_flags t) OS_TASK_FLAG_MUTEX_WAIT) t)) ;;
        os_sched_sleep c timeout ;;
        os_sched None false ;;
        mret None
  end.

Definition os_mutex_pend_resume (k : nat) (current : tid) : K os_error :=
  modify (upd_task current clear_mutex_wait) ;;
  s ← get;
  if bool_decide (mu_owner (mutex_of s k) = Some current) then mret OS_OK else mret OS_TIMEOUT.

Definition os_mutex_delete (mu : option nat) : K os_error :=
  started ← gets g_os_started;
  if negb started then mret OS_NOT_STARTED
  else match mu with
  | None => mret OS_INVALID_PARM
  | Some k =>
      current ← os_sched_get_current_task;
      s ← get;
      (if negb (mu_level (mutex_of s k) =? 0) then
         owner ← from_option_fault FNull (mu_owner (mutex_of s k));
         if negb (t_prio (task_of s owner) =? mu_prio (mutex_of s k)) then
           set_prio_resort owner (mu_prio (mutex_of s k))
         else mret tt
       else mret tt) ;;
      s ← get;
      wake_all_loop (λ rdy, s ← get; assert_ (bool_decide (is_Some (t_obj (task_of s rdy)))))
        (length (mu_head (mutex_of s k))) (ObjMutex k) ;;
      rdy ← os_sched_next_task;
      (if bool_decide (rdy ≠ current) then os_sched rdy false else mret tt) ;;
      mret OS_OK
  end.

(** ** Specifications *)

(** What a (conditional) change of the priority of [t] to [p] leaves alone. *)
Record reprio_frame (s : kstate) (t : tid) (p : Z) (s' : kstate) : Prop := {
  rf_prio : ∀ u, task_prio s' u = if decide (t = u) then p else task_prio s u;
  rf_state : ∀ u, task_state s' u = task_state s u;
  rf_obj : ∀ u, t_obj (task_of s' u) = t_obj (task_of s u);
  rf_flags : ∀ u, t_flags (task_of s' u) = t_flags (task_of s u);
  rf_mutexes : mutexes s' = mutexes s;
  rf_sems : sems s' = sems s;
  rf_current : g_current_task s' = g_current_task s;
  rf_pendsv : pendsv s' = pendsv s;
}.

Lemma reprio_frame_st s t p : reprio_frame s t p (reprio_st t p s).
Proof.
  split; [apply reprio_st_prio|apply reprio_st_state|apply reprio_st_obj| |
    apply reprio_st_mutexes|apply reprio_st_sems|apply reprio_st_current|apply reprio_st_pendsv].
  intros u. rewrite reprio_st_task. case_decide; by subst.
Qed.

Lemma reprio_frame_refl s t p : task_prio s t = p → reprio_frame s t p s.
Proof. intros <-. split; try done. intros u. case_decide; by subst. Qed.

Lemma reprio_if_spec lo_s lo_c (b : bool) t p s :
  kcore lo_s lo_c s →
  wp (if b then set_prio_resort t p else mret tt) (λ _ s',
    kcore lo_s lo_c s' ∧ reprio_frame s t (if b then p else task_prio s t) s') s.
Proof.
  intros Hk. destruct b.
  - eapply wp_eq; [apply set_prio_resort_run, Hk|].
    split; [by apply kcore_reprio|apply reprio_frame_st].
  - apply wp_ret. split; [done|by apply reprio_frame_refl].
Qed.

Lemma reprio_frame_mutex_ok s t p s' k : reprio_frame s t p s' → mutex_ok s k → mutex_ok s' k.
Proof. intros F. unfold mutex_ok, mutex_of. by rewrite (rf_mutexes _ _ _ _ F). Qed.
Lemma reprio_frame_cur_ready s t p s' : reprio_frame s t p s' → cur_ready s → cur_ready s'.
Proof.
  intros F (c & Hc & Hs). exists c. by rewrite (rf_current _ _ _ _ F), (rf_state _ _ _ _ F).
Qed.

(** *** Release *)

(** Only the owner can release; anybody else gets an error and changes nothing. *)
Lemma os_mutex_release_bad s k :
  g_os_started s = true →
  mu_level (mutex_of s k) = 0 ∨ mu_owner (mutex_of s k) ≠ g_current_task s →
  os_mutex_release (Some k) s = Ret (OS_BAD_MUTEX, s).
Proof.
  intros Hst Hbad. unfold os_mutex_release, os_mutex_release_enter, mbind, M_bind, gets. simpl.
  rewrite Hst. simpl. unfold get.
  assert (((mu_level (mutex_of s k) =? 0) ||
    bool_decide (mu_owner (mutex_of s k) ≠ g_current_task s)) = true) as ->; [|done].
  apply orb_true_iff. destruct Hbad; [left; lia|right; by apply bool_decide_true].
Qed.

Lemma os_mutex_release_enter_run s k c :
  g_os_started s = true → mutex_ok s k → mu_level (mutex_of s k) ≠ 0 →
  g_current_task s = Some c → mu_owner (mutex_of s k) = Some c →
  os_mutex_release_enter (Some k) s =
    Ret (if decide (mu_level (mutex_of s k) = 1) then inr (k, c) else inl OS_OK,
         upd_mutex k (λ m, set_mu_level (mu_level m - 1) m) s).
Proof.
  intros Hst (Hr & _ & _) Hl Hc Ho.
  unfold os_mutex_release_enter, mbind, M_bind, gets. simpl. rewrite Hst. simpl. unfold get.
  rewrite Ho, Hc, bool_decide_false, orb_false_r by auto.
  rewrite (proj2 (Z.eqb_neq _ _)) by done. simpl.
  rewrite mutex_of_upd, decide_True by done. simpl. unfold upd_mutex.
  rewrite (u16_small (mu_level _ - 1)) by lia. case_decide.
  - rewrite (proj2 (Z.eqb_eq _ _)) by lia. done.
  - rewrite (proj2 (Z.eqb_neq _ _)) by lia. done.
Qed.

(** Outcome of the critical section for the mutex: it is handed to the first
    waiter, or free. *)
Definition handed_over (s : kstate) (k : nat) (s' : kstate) : Prop :=
  match mu_head (mutex_of s k) with
  | [] => mu_owner (mutex_of s' k) = None ∧ mu_level (mutex_of s' k) = 0 ∧
          mu_head (mutex_of s' k) = []
  | r :: l => mu_owner (mutex_of s' k) = Some r ∧ mu_level (mutex_of s' k) = 1 ∧
              mu_head (mutex_of s' k) = l ∧ mu_prio (mutex_of s' k) = task_prio s r ∧
              task_state s' r = OS_TASK_READY
  end.

Definition hand_st (k : nat) (r : tid) (s : kstate) : kstate :=
  let s := wakeup_st r s in
  let s := upd_mutex k (set_mu_level 1) s in
  let s := upd_mutex k (set_mu_prio (t_prio (task_of s r))) s in
  upd_mutex k (set_mu_owner (Some r)) s.

Lemma hand_st_mutex k r s j :
  mutex_of (hand_st k r s) j =
    if decide (k = j) then
      mk_mutex (mu_head (mutex_of (wakeup_st r s) k)) (task_prio s r) 1 (Some r)
    else mutex_of (wakeup_st r s) j.
Proof.
  unfold hand_st. rewrite !mutex_of_upd. case_decide; subst; rewrite ?decide_True; try done.
  change (t_prio (task_of (upd_mutex ?a ?b ?x) r)) with (task_prio x r).
  by rewrite wakeup_st_prio.
Qed.

(** Handing the mutex to its first waiter. *)
Lemma hand_st_ok lo_s lo_c s k r l :
  kcore lo_s lo_c s → (∀ j, j ≠ k → mutex_ok s j) → mu_head (mutex_of s k) = r :: l →
  t_obj (task_of s r) = Some (ObjMutex k) ∧
  os_sched_wakeup r s = Ret (0, wakeup_st r s) ∧
  kbase lo_s lo_c (hand_st k r s) ∧ wake_frame s (wakeup_st r s) ∧
  mu_head (mutex_of (wakeup_st r s) k) = l.
Proof.
  intros Hk Hm Hh. destruct (kc_sched _ _ _ Hk) as (Hs & _ & Hw & Ha).
  assert (Ho : t_obj (task_of s r) = Some (ObjMutex k)).
  { apply (wo_iff _ Hw). simpl. rewrite Hh. by left. }
  assert (Hst : task_state s r = OS_TASK_SLEEP) by by eapply Ha.
  assert (Hnd : NoDup (r :: l)).
  { rewrite <- Hh. apply (wo_nodup _ Hw (ObjMutex k)). }
  apply NoDup_cons in Hnd as [Hnot _].
  assert (Hhead : mu_head (mutex_of (wakeup_st r s) k) = l).
  { change (obj_head (wakeup_st r s) (ObjMutex k) = l).
    rewrite wakeup_st_obj_head, decide_True by done. simpl. rewrite Hh. simpl.
    by rewrite decide_True. }
  pose proof (wakeup_st_frame r s Hst) as F.
  split_and!; [done|by apply os_sched_wakeup_run| |done|done].
  apply kbase_kcore. split.
  - unfold hand_st. cbv zeta.
    do 3 (apply kcore_upd_mutex; [|done]).
    apply kcore_wakeup; [done|done|]. eapply not_evq_obj; [apply Hk|done].
  - intros j. unfold mutex_ok. rewrite hand_st_mutex. case_decide; [subst j|].
    + rewrite Hhead. simpl. split_and!; [lia|lia|lia|]. intros _. by exists r.
    + by apply (mutex_ok_wake s); [|apply Hm].
Qed.

Lemma handed_over_sw s k s1 s2 : sw_eq s1 s2 → handed_over s k s1 → handed_over s k s2.
Proof.
  intros [E _]. unfold handed_over, mutex_of. rewrite <- (ce_mutexes _ _ E).
  destruct (mu_head _) as [|r l]; [done|]. by rewrite <- (core_eq_state s1 s2).
Qed.

(** What the release of [k] by [c] must establish before it reschedules. *)
Definition released (s : kstate) (k : nat) (c : tid) (s' : kstate) : Prop :=
  kinv 1 1 s' ∧ g_current_task s' = Some c ∧ handed_over s k s' ∧
  (∀ u, task_prio s' u = if decide (c = u) then mu_prio (mutex_of s k) else task_prio s u).

Lemma release_finish s k c s1 :
  released s k c s1 → pendsv s1 = false →
  wp (if bool_decide (head (g_os_run_list s1) ≠ Some c)
      then os_sched (head (g_os_run_list s1)) false else mret tt)
    (λ _, wp (mret OS_OK) (λ rc s', rc = OS_OK ∧ released s k c s' ∧
       pendsv s' = bool_decide (head (g_os_run_list s') ≠ Some c))) s1.
Proof.
  intros (Hk & Hc & Hh & Hpr) Hp. eapply wp_mono; [by apply (sched_if_spec 1 1)|].
  intros ? s' (E & Hk' & Hc' & Hp'). k_simp. destruct (E) as [Ec _].
  split_and!; [done|split_and!; [done|done| |]|].
  - by eapply handed_over_sw.
  - intros u. by rewrite <- (core_eq_prio s1 s').
  - rewrite Hp', <- (ce_run _ _ Ec). destruct (head (g_os_run_list s1)) as [h|] eqn:El.
    + by rewrite andb_diag.
    + destruct (g_os_run_list s1) eqn:El'; [|done].
      by eapply kbase_run_nonempty in El'; [|apply Hk].
Qed.

(** Nobody waits: the mutex becomes free. *)
Lemma free_st_released s c k s1 :
  kcore 1 1 s1 → (∀ j, j ≠ k → mutex_ok s1 j) → cur_ready s1 → g_current_task s1 = Some c →
  reprio_frame s c (mu_prio (mutex_of s k)) s1 →
  mu_level (mutex_of s k) = 0 → mu_head (mutex_of s k) = [] →
  released s k c (upd_mutex k (set_mu_owner None) s1).
Proof.
  intros Hk Hm Hcr Hc R Hl Hh.
  assert (Hmu : mutex_of s1 k = mutex_of s k) by (unfold mutex_of; by rewrite (rf_mutexes _ _ _ _ R)).
  assert (Hmk : mutex_of (upd_mutex k (set_mu_owner None) s1) k = set_mu_owner None (mutex_of s k))
    by by rewrite mutex_of_upd, decide_True, Hmu.
  split_and!; [split; [|done]|done| |].
  - apply kbase_kcore. split; [by apply kcore_upd_mutex|]. intros j.
    destruct (decide (k = j)) as [<-|Hne].
    + unfold mutex_ok. rewrite Hmk. simpl. rewrite Hl, Hh. split_and!; [lia|lia|done|done].
    + unfold mutex_ok. rewrite mutex_of_upd, decide_False by done. by apply Hm.
  - unfold handed_over. rewrite Hh, Hmk. by split_and!.
  - intros u. apply R.
Qed.

(** Somebody waits: the first waiter becomes the owner. *)
Lemma hand_st_released s c k r l s1 :
  kcore 1 1 s1 → (∀ j, j ≠ k → mutex_ok s1 j) → cur_ready s1 → g_current_task s1 = Some c →
  reprio_frame s c (mu_prio (mutex_of s k)) s1 → c ∉ mu_head (mutex_of s k) →
  mu_head (mutex_of s k) = r :: l →
  released s k c (hand_st k r s1).
Proof.
  intros Hk Hm Hcr Hc R Hnot Hh.
  assert (Hmu : mutex_of s1 k = mutex_of s k) by (unfold mutex_of; by rewrite (rf_mutexes _ _ _ _ R)).
  destruct (hand_st_ok 1 1 s1 k r l) as (_ & _ & Hk2 & F & Hhead); [done|done|by rewrite Hmu|].
  assert (Hst : ∀ u, task_state (hand_st k r s1) u = task_state (wakeup_st r s1) u) by done.
  split_and!.
  - split; [done|]. destruct (cur_ready_wake _ _ F Hcr) as (c' & ? & ?). by exists c'.
  - change (g_current_task (wakeup_st r s1) = Some c). by rewrite (wf_current _ _ F).
  - unfold handed_over. rewrite Hh, hand_st_mutex, decide_True by done. simpl.
    split_and!; [done|done|done| |by rewrite Hst, wakeup_st_state, decide_True].
    rewrite (rf_prio _ _ _ _ R), decide_False; [done|]. rewrite Hh in Hnot. set_solver.
  - intros u. change (task_prio (wakeup_st r s1) u =
      if decide (c = u) then mu_prio (mutex_of s k) else task_prio s u).
    rewrite (wf_prio _ _ F). apply R.
Qed.

Lemma os_mutex_release_crit_spec s k c :
  kcore 1 1 s → (∀ j, j ≠ k → mutex_ok s j) → cur_ready s → pendsv s = false →
  g_current_task s = Some c → mu_level (mutex_of s k) = 0 → c ∉ mu_head (mutex_of s k) →
  wp (os_mutex_release_crit k c) (λ rc s', rc = OS_OK ∧ released s k c s' ∧
    pendsv s' = bool_decide (head (g_os_run_list s') ≠ Some c)) s.
Proof.
  intros Hk Hm Hcr Hp Hc Hl Hnot. unfold os_mutex_release_crit. k_simp.
  eapply wp_mono; [by apply (reprio_if_spec 1 1)|].
  intros ? s1 (Hk1 & R).
  replace (if negb _ then _ else _) with (mu_prio (mutex_of s k)) in R
    by (unfold task_prio; by destruct (Z.eqb_spec (t_prio (task_of s c)) (mu_prio (mutex_of s k)))).
  assert (Hmu1 : mutex_of s1 k = mutex_of s k) by (unfold mutex_of; by rewrite (rf_mutexes _ _ _ _ R)).
  assert (Hm1 : ∀ j, j ≠ k → mutex_ok s1 j).
  { intros j Hj. eapply reprio_frame_mutex_ok; [done|by apply Hm]. }
  pose proof (reprio_frame_cur_ready _ _ _ _ R Hcr) as Hcr1.
  assert (Hc1 : g_current_task s1 = Some c) by by rewrite (rf_current _ _ _ _ R).
  assert (Hp1 : pendsv s1 = false) by by rewrite (rf_pendsv _ _ _ _ R).
  k_simp. rewrite Hmu1. destruct (mu_head (mutex_of s k)) as [|r l] eqn:Hh; cbn [head]; k_simp.
  - apply release_finish; [by apply free_st_released|done].
  - destruct (hand_st_ok 1 1 s1 k r l) as (Ho & Hrun & Hk2 & F & _); [done|done|by rewrite Hmu1|].
    apply wp_assert; [by rewrite Ho|]. k_simp. eapply wp_eq; [exact Hrun|]. k_simp.
    apply release_finish; [|by rewrite <- Hp1, <- (wf_pendsv _ _ F)].
    eapply hand_st_released; try done. by rewrite Hh.
Qed.

(** The critical section run by a task [c] when the mutex has meanwhile been taken
    by another one: the owner is erased, the level stays, and [c] gets the priority
    that was saved for the other task. *)
Lemma os_mutex_release_crit_stale s k c :
  kinv 1 1 s → g_current_task s = Some c → mu_head (mutex_of s k) = [] →
  wp (os_mutex_release_crit k c) (λ rc s', rc = OS_OK ∧
    mutex_of s' k = set_mu_owner None (mutex_of s k) ∧
    task_prio s' c = mu_prio (mutex_of s k)) s.
Proof.
  intros [Hk _] Hc Hh. unfold os_mutex_release_crit. k_simp.
  eapply wp_mono; [apply (reprio_if_spec 1 1); by apply kbase_kcore in Hk as [? _]|].
  intros ? s1 (Hk1 & R).
  assert (Hpr1 : task_prio s1 c = mu_prio (mutex_of s k)).
  { rewrite (rf_prio _ _ _ _ R), decide_True by done. unfold task_prio.
    by destruct (Z.eqb_spec (t_prio (task_of s c)) (mu_prio (mutex_of s k))). }
  assert (Hmu1 : mutex_of s1 k = mutex_of s k) by (unfold mutex_of; by rewrite (rf_mutexes _ _ _ _ R)).
  assert (Hne : g_os_run_list s1 ≠ []).
  { apply (kbase_run_nonempty 1 1), kbase_kcore. split; [done|].
    intros j. eapply reprio_frame_mutex_ok; [done|apply Hk]. }
  k_simp. rewrite Hmu1, Hh. cbn [head]. k_simp. set (s2 := upd_mutex k (set_mu_owner None) s1).
  assert (Hmu2 : mutex_of s2 k = set_mu_owner None (mutex_of s k))
    by (unfold s2; by rewrite mutex_of_upd, decide_True, Hmu1).
  assert (Hc2 : g_current_task s2 = Some c) by (rewrite <- Hc; apply (rf_current _ _ _ _ R)).
  fold s2. case_bool_decide; [|by k_simp].
  eapply wp_mono; [by apply (os_sched_spec _ false s2 c)|].
  intros ? s' ((Ec & _) & _). k_simp. rewrite <- Hmu2.
  split_and!; [done|unfold mutex_of; by rewrite <- (ce_mutexes _ _ Ec)|].
  by rewrite <- (core_eq_prio s2 s').
Qed.

(** The owner's last release restores its priority and hands the mutex to the
    first waiter, if there is one. *)
Lemma os_mutex_release_last s k c :
  kinv 1 1 s → pendsv s = false → g_current_task s = Some c →
  mu_owner (mutex_of s k) = Some c → mu_level (mutex_of s k) = 1 →
  wp (os_mutex_release (Some k)) (λ rc s', rc = OS_OK ∧ released s k c s' ∧
    pendsv s' = bool_decide (head (g_os_run_list s') ≠ Some c)) s.
Proof.
  intros [Hk Hcr] Hp Hc Ho Hl. pose proof (ki_mutex _ _ _ Hk k) as Hmk.
  destruct (proj2 (proj2 Hmk)) as (o & Ho' & Hnot); [lia|]. simplify_eq.
  unfold os_mutex_release. apply wp_bind. eapply wp_eq.
  { apply os_mutex_release_enter_run; try done; [apply Hk|lia]. }
  rewrite decide_True by done. set (s1 := upd_mutex k _ s).
  assert (Hmu : mutex_of s1 k = set_mu_level 0 (mutex_of s k)).
  { unfold s1. rewrite mutex_of_upd, decide_True, Hl by done. done. }
  eapply wp_mono.
  { apply os_mutex_release_crit_spec; try done.
    - apply kcore_upd_mutex; [|done]. by apply kbase_kcore in Hk as [? _].
    - intros j Hj. unfold mutex_ok, s1. rewrite mutex_of_upd, decide_False by done. apply Hk.
    - by rewrite Hmu.
    - by rewrite Hmu. }
  intros rc s' (-> & (Hk' & Hc' & Hh & Hpr) & Hp'). split_and!; [done| |done].
  unfold handed_over in Hh. rewrite Hmu in Hh, Hpr. by split_and!.
Qed.

(** An inner release only lowers the nesting level. *)
Lemma os_mutex_release_nested s k c :
  kinv 1 1 s → g_current_task s = Some c →
  mu_owner (mutex_of s k) = Some c → 1 < mu_level (mutex_of s k) →
  let s' := upd_mutex k (λ m, set_mu_level (mu_level m - 1) m) s in
  os_mutex_release (Some k) s = Ret (OS_OK, s') ∧ kinv 1 1 s'.
Proof.
  intros [Hk Hcr] Hc Ho Hl s'. pose proof (ki_mutex _ _ _ Hk k) as (Hr & _ & Hown). split.
  - unfold os_mutex_release, mbind, M_bind. rewrite (os_mutex_release_enter_run s k c);
      [|apply Hk|apply Hk|lia|done|done]. by rewrite decide_False by lia.
  - split; [|done]. apply kbase_upd_mutex; [done|done|].
    unfold mutex_ok. rewrite mutex_of_upd, decide_True by done. simpl.
    split_and!; [lia|lia|lia|]. intros _. apply Hown. lia.
Qed.

(** *** Pending *)

(** A free mutex is taken, and the caller's priority is saved. *)
Lemma os_mutex_pend_free s k c timeout :
  kinv 1 1 s → g_current_task s = Some c → mu_level (mutex_of s k) = 0 →
  wp (os_mutex_pend (Some k) timeout) (λ r s',
    r = Some OS_OK ∧ kinv 1 1 s' ∧ tasks s' = tasks s ∧
    g_os_run_list s' = g_os_run_list s ∧ g_current_task s' = Some c ∧ pendsv s' = pendsv s ∧
    mutex_of s' k = mk_mutex [] (task_prio s c) 1 (Some c)) s.
Proof.
  intros [Hk Hcr] Hc Hl. destruct (ki_mutex _ _ _ Hk k) as (_ & Hfree & _).
  destruct (Hfree Hl) as [Ho Hh].
  unfold os_mutex_pend. k_simp. rewrite (ki_started _ _ _ Hk). cbn [negb]. k_simp.
  rewrite (proj2 (Z.eqb_eq _ _)), Hc by done. k_simp.
  set (s' := upd_mutex k (set_mu_level 1) _).
  assert (Hmu : mutex_of s' k = mk_mutex [] (task_prio s c) 1 (Some c)).
  { unfold s'. rewrite !mutex_of_upd, !decide_True by done. unfold set_mu_level, set_mu_prio, set_mu_owner.
    simpl. by rewrite Hh. }
  split_and!; try done. split; [|done]. apply kbase_kcore. split.
  - unfold s'. do 3 (apply kcore_upd_mutex; [|done]). by apply kbase_kcore in Hk as [? _].
  - intros j. destruct (decide (k = j)) as [<-|Hne].
    + unfold mutex_ok. rewrite Hmu. simpl. split_and!; [lia|lia|lia|].
      intros _. exists c. split; [done|]. apply not_elem_of_nil.
    + unfold mutex_ok, s'. rewrite !mutex_of_upd, !decide_False by done. apply Hk.
Qed.

(** The same without the kernel invariant, for a mutex at level 0. *)
Definition take_st (k : nat) (c : tid) (s : kstate) : kstate :=
  let s := upd_mutex k (set_mu_owner (Some c)) s in
  let s := upd_mutex k (set_mu_prio (t_prio (task_of s c))) s in
  upd_mutex k (set_mu_level 1) s.

Lemma take_st_mutex k c s :
  mutex_of (take_st k c s) k = mk_mutex (mu_head (mutex_of s k)) (task_prio s c) 1 (Some c).
Proof. unfold take_st. by rewrite !mutex_of_upd, !decide_True by done. Qed.

Lemma os_mutex_pend_take s k c timeout :
  g_os_started s = true → g_current_task s = Some c → mu_level (mutex_of s k) = 0 →
  os_mutex_pend (Some k) timeout s = Ret (Some OS_OK, take_st k c s).
Proof.
  intros Hst Hc Hl. unfold os_mutex_pend, mbind, M_bind, gets. rewrite Hst. simpl. unfold get.
  by rewrite (proj2 (Z.eqb_eq _ _) Hl), Hc.
Qed.

(** A mutex at a level without an owner: waiting for it dereferences NULL. *)
Lemma os_mutex_pend_orphan s k c timeout :
  g_os_started s = true → g_current_task s = Some c → mu_level (mutex_of s k) ≠ 0 →
  mu_owner (mutex_of s k) = None → timeout ≠ 0 →
  os_mutex_pend (Some k) timeout s = Fault FNull.
Proof.
  intros Hst Hc Hl Ho Ht. unfold os_mutex_pend, mbind, M_bind, gets. rewrite Hst. simpl. unfold get.
  by rewrite (proj2 (Z.eqb_neq _ _) Hl), Ho, Hc, bool_decide_false, (proj2 (Z.eqb_neq _ _) Ht) by done.
Qed.

(** The owner may take it again; the level counts (up to 65535). *)
Lemma os_mutex_pend_nested s k c timeout :
  kinv 1 1 s → g_current_task s = Some c → mu_owner (mutex_of s k) = Some c →
  0 < mu_level (mutex_of s k) < 65535 →
  let s' := upd_mutex k (λ m, set_mu_level (u16 (mu_level m + 1)) m) s in
  os_mutex_pend (Some k) timeout s = Ret (Some OS_OK, s') ∧ kinv 1 1 s' ∧
  mu_level (mutex_of s' k) = mu_level (mutex_of s k) + 1.
Proof.
  intros [Hk Hcr] Hc Ho Hl s'. destruct (ki_mutex _ _ _ Hk k) as (_ & _ & Hown).
  assert (Hmu : mutex_of s' k = set_mu_level (mu_level (mutex_of s k) + 1) (mutex_of s k)).
  { unfold s'. rewrite mutex_of_upd, decide_True by done. by rewrite u16_small by lia. }
  split_and!.
  - unfold os_mutex_pend, mbind, M_bind, gets. rewrite (ki_started _ _ _ Hk). simpl.
    unfold get. rewrite (proj2 (Z.eqb_neq _ _)) by lia. by rewrite Hc, Ho, bool_decide_true.
  - split; [|done]. apply kbase_upd_mutex; [done|done|]. unfold mutex_ok. fold s'. rewrite Hmu.
    simpl. split_and!; [lia|lia|lia|]. intros _. apply Hown. lia.
  - by rewrite Hmu.
Qed.

(** Somebody else's mutex and a zero timeout: nothing changes. *)
Lemma os_mutex_pend_poll s k :
  g_os_started s = true → mu_level (mutex_of s k) ≠ 0 →
  mu_owner (mutex_of s k) ≠ g_current_task s →
  os_mutex_pend (Some k) 0 s = Ret (Some OS_TIMEOUT, s).
Proof.
  intros Hst Hl Ho. unfold os_mutex_pend, mbind, M_bind, gets. rewrite Hst. simpl. unfold get.
  rewrite (proj2 (Z.eqb_neq _ _)), bool_decide_false by done. done.
Qed.

Definition mutex_link_st (c : tid) (k : nat) (s : kstate) : kstate :=
  let s := upd_mutex k (set_mu_head (wait_insert s c (mu_head (mutex_of s k)))) s in
  let s := upd_task c (set_t_obj (Some (ObjMutex k))) s in
  upd_task c (λ t, set_t_flags (set_flag (t_flags t) OS_TASK_FLAG_MUTEX_WAIT) t) s.

Lemma mutex_link_st_task c k s u :
  task_of (mutex_link_st c k s) u =
    if decide (c = u) then
      set_t_flags (set_flag (t_flags (task_of s c)) OS_TASK_FLAG_MUTEX_WAIT)
        (set_t_obj (Some (ObjMutex k)) (task_of s c))
    else task_of s u.
Proof.
  unfold mutex_link_st. rewrite !task_of_upd. case_decide; subst; by rewrite ?decide_True.
Qed.

Lemma mutex_link_st_mutex c k s j :
  NoDup (mu_head (mutex_of s k)) →
  mutex_of (mutex_link_st c k s) j =
    if decide (k = j) then
      set_mu_head (insert_before (λ e, task_prio s c <? task_prio s e) c (mu_head (mutex_of s k)))
        (mutex_of s k)
    else mutex_of s j.
Proof.
  intros Hnd. unfold mutex_link_st. do 2 change (mutex_of (upd_task ?t ?f ?x) j) with (mutex_of x j).
  rewrite mutex_of_upd. case_decide; [|done]. unfold wait_insert. by rewrite slist_insert_scan.
Qed.

Lemma mutex_link_linked lo s c k :
  sched_inv lo s → linked s c (ObjMutex k) (mutex_link_st c k s).
Proof.
  intros (_ & _ & Hw & _). pose proof (wo_nodup _ Hw (ObjMutex k)) as Hnd. simpl in Hnd.
  split; try done.
  - intros u. unfold task_state. rewrite mutex_link_st_task. case_decide; by subst.
  - intros u. unfold task_prio. rewrite mutex_link_st_task. case_decide; by subst.
  - intros u. unfold no_timeout. rewrite mutex_link_st_task. case_decide; [subst|done].
    simpl. by autorewrite with flags.
  - intros u. rewrite mutex_link_st_task. case_decide; by subst.
  - intros u. rewrite mutex_link_st_task. by case_decide.
  - simpl. rewrite mutex_link_st_mutex, decide_True by done. apply insert_before_perm.
  - intros [j|j] Hne; simpl; [done|].
    by rewrite mutex_link_st_mutex, decide_False by congruence.
Qed.

Lemma mutex_link_mutex_ok s c k j :
  NoDup (mu_head (mutex_of s k)) → mu_level (mutex_of s k) ≠ 0 →
  mu_owner (mutex_of s k) ≠ Some c → (∀ j, mutex_ok s j) → mutex_ok (mutex_link_st c k s) j.
Proof.
  intros Hnd Hl Ho Hm. unfold mutex_ok. rewrite mutex_link_st_mutex by done.
  case_decide; [subst j|apply Hm]. destruct (Hm k) as (Hr & Hf & Hown). simpl.
  split_and!; [lia|lia|done|]. intros _. destruct (Hown Hl) as (o & Hoo & Hnot).
  exists o. split; [done|]. rewrite elem_of_insert_before. naive_solver.
Qed.

(** Somebody else's mutex: the owner inherits the caller's priority if that is
    higher, the caller joins the waiters, sleeps, and a switch is requested. *)
Lemma os_mutex_pend_block s k c o timeout :
  kinv 1 1 s → g_current_task s = Some c → c ≠ g_idle_task →
  mu_level (mutex_of s k) ≠ 0 → mu_owner (mutex_of s k) = Some o → o ≠ c →
  timeout ≠ 0 → timeout_ok timeout →
  wp (os_mutex_pend (Some k) timeout) (λ r s',
    r = None ∧ kbase 1 1 s' ∧ pendsv s' = true ∧ g_current_task s' = Some c ∧
    task_state s' c = OS_TASK_SLEEP ∧ c ∈ mu_head (mutex_of s' k) ∧
    mu_owner (mutex_of s' k) = Some o ∧
    (∀ u, task_prio s' u = if decide (o = u) then Z.min (task_prio s o) (task_prio s c)
                           else task_prio s u)) s.
Proof.
  intros [Hk Hcr] Hc Hid Hl Ho Hne Hto Hn.
  assert (Hst : task_state s c = OS_TASK_READY) by (destruct Hcr as (? & ? & ?); congruence).
  unfold os_mutex_pend. k_simp. rewrite (ki_started _ _ _ Hk). cbn [negb]. k_simp.
  rewrite (proj2 (Z.eqb_neq _ _)), Ho, Hc, bool_decide_false, (proj2 (Z.eqb_neq timeout _))
    by congruence.
  k_simp. eapply wp_mono; [apply (reprio_if_spec 1 1); by apply kbase_kcore in Hk as [? _]|].
  intros ? s1 (Hk1 & R). fold (task_prio s c) (task_prio s o) in R.
  replace (if _ <? _ then _ else _) with (Z.min (task_prio s o) (task_prio s c)) in R
    by (destruct (Z.ltb_spec (task_prio s c) (task_prio s o)); lia).
  assert (Hm1 : ∀ j, mutex_ok s1 j).
  { intros j. eapply reprio_frame_mutex_ok; [done|apply Hk]. }
  assert (Hmu1 : mutex_of s1 k = mutex_of s k) by (unfold mutex_of; by rewrite (rf_mutexes _ _ _ _ R)).
  assert (Hk1' : kbase 1 1 s1) by by apply kbase_kcore.
  assert (Hst1 : task_state s1 c = OS_TASK_READY) by by rewrite (rf_state _ _ _ _ R).
  destruct (kc_sched _ _ _ Hk1) as (Hs1 & Hsl1 & Hw1 & Ha1).
  pose proof (wo_nodup _ Hw1 (ObjMutex k)) as Hnd. simpl in Hnd.
  pose proof (mutex_link_linked 1 s1 c k (kc_sched _ _ _ Hk1)) as L.
  assert (Hk2 : kbase 1 1 (sleep_st c timeout (mutex_link_st c k s1))).
  { eapply kbase_block; [lia|done..| |].
    - intros j. apply (kc_sem _ _ _ Hk1 j).
    - intros j. apply mutex_link_mutex_ok; try done; rewrite Hmu1; congruence. }
  k_simp. fold (mutex_link_st c k s1).
  eapply wp_eq. { apply os_sched_sleep_run. rewrite (ln_run _ _ _ _ L). by apply Hs1. }
  k_simp. eapply wp_mono; [by apply (os_sched_kbase 1 1 None false)|].
  intros ? s' (E & Hk' & Hc' & Hp'). k_simp. destruct (E) as [Ec _].
  assert (Hc2 : g_current_task (sleep_st c timeout (mutex_link_st c k s1)) = Some c).
  { rewrite <- Hc, <- (rf_current _ _ _ _ R). unfold sleep_st.
    by destruct (timeout =? OS_TIMEOUT_NEVER). }
  rewrite Hc2 in Hc', Hp'.
  assert (Hmu' : mutex_of s' k = mutex_of (mutex_link_st c k s1) k).
  { unfold mutex_of. rewrite <- (ce_mutexes _ _ Ec). unfold sleep_st.
    by destruct (timeout =? OS_TIMEOUT_NEVER). }
  rewrite mutex_link_st_mutex, decide_True, Hmu1 in Hmu' by done.
  split_and!; [done|done| |done|..].
  - rewrite Hp'. apply orb_true_intro. right. apply bool_decide_true.
    apply (sleep_st_head_ne 1); [| |lia| |done].
    + eapply sched_ok_transfer; [apply L..|done].
    + eapply sleep_ok_transfer; [apply L|apply (ln_queue _ _ _ _ L)|apply L..|done].
    + by rewrite (ln_state _ _ _ _ L).
  - rewrite <- (core_eq_state _ s') by done. by rewrite sleep_st_state, decide_True.
  - rewrite Hmu'. simpl. apply elem_of_insert_before. by left.
  - by rewrite Hmu'.
  - intros u. rewrite <- (core_eq_prio _ s') by done.
    by rewrite sleep_st_prio, (ln_prio _ _ _ _ L), (rf_prio _ _ _ _ R).
Qed.

(** After the wake-up: the caller got the mutex exactly if it owns it now. *)
Lemma os_mutex_pend_resume_run lo_s lo_c k t s :
  kinv lo_s lo_c s →
  wp (os_mutex_pend_resume k t) (λ rc s',
    rc = (if decide (mu_owner (mutex_of s k) = Some t) then OS_OK else OS_TIMEOUT) ∧
    kinv lo_s lo_c s' ∧ g_os_run_list s' = g_os_run_list s ∧
    g_current_task s' = g_current_task s ∧ pendsv s' = pendsv s ∧ mutexes s' = mutexes s) s.
Proof.
  intros [Hk Hcr]. unfold os_mutex_pend_resume. k_simp.
  change (mutex_of (upd_task ?t ?f ?x) k) with (mutex_of x k).
  assert (kinv lo_s lo_c (upd_task t clear_mutex_wait s)).
  { split; eauto with kernel. }
  case_bool_decide; case_decide; try done; k_simp; by split_and!.
Qed.

(** *** Deletion *)

(** The owner falls back to the priority it had when it took the mutex, every
    waiter is made ready, and the highest ready task is switched to.  Level and
    owner keep their values. *)
Lemma os_mutex_delete_spec s k c :
  kinv 1 1 s → pendsv s = false → g_current_task s = Some c →
  wp (os_mutex_delete (Some k)) (λ rc s',
    rc = OS_OK ∧ kinv 1 1 s' ∧ g_current_task s' = Some c ∧
    mu_head (mutex_of s' k) = [] ∧
    mu_owner (mutex_of s' k) = mu_owner (mutex_of s k) ∧
    mu_level (mutex_of s' k) = mu_level (mutex_of s k) ∧
    (∀ t, t ∈ mu_head (mutex_of s k) → task_state s' t = OS_TASK_READY) ∧
    (∀ o, mu_owner (mutex_of s k) = Some o → task_prio s' o = mu_prio (mutex_of s k)) ∧
    pendsv s' = bool_decide (head (g_os_run_list s') ≠ Some c)) s.
Proof.
  intros [Hk Hcr] Hp Hc. unfold os_mutex_delete. k_simp.
  rewrite (ki_started _ _ _ Hk). cbn [negb]. k_simp.
  destruct (ki_mutex _ _ _ Hk k) as (_ & Hfree & Hown).
  eapply wp_mono.
  { instantiate (1 := λ _ s1, kinv 1 1 s1 ∧ mutexes s1 = mutexes s ∧ pendsv s1 = pendsv s ∧
      g_current_task s1 = g_current_task s ∧ ∀ o, mu_owner (mutex_of s k) = Some o →
      task_prio s1 o = mu_prio (mutex_of s k)).
    destruct (Z.eqb_spec (mu_level (mutex_of s k)) 0) as [Hl|Hl]; cbn [negb].
    - apply wp_ret. split_and!; try done. destruct (Hfree Hl) as [-> _]. done.
    - destruct (Hown Hl) as (o & Ho & _). rewrite Ho. k_simp. eapply wp_mono.
      { apply (reprio_if_spec 1 1). by apply kbase_kcore in Hk as [? _]. }
      intros ? s1 (Hk1 & R). split_and!; try apply R.
      + split; [|by eapply reprio_frame_cur_ready]. apply kbase_kcore. split; [done|].
        intros j. eapply reprio_frame_mutex_ok; [done|apply Hk].
      + intros ? [= <-]. rewrite (rf_prio _ _ _ _ R), decide_True by done.
        fold (task_prio s o). destruct (Z.eqb_spec (task_prio s o) (mu_prio (mutex_of s k))); done. }
  intros ? s1 ([Hk1 Hcr1] & Hm1 & Hp1 & Hc1 & Hpr1). k_simp.
  assert (Hmu1 : mutex_of s1 k = mutex_of s k) by (unfold mutex_of; by rewrite Hm1).
  eapply wp_mono.
  { apply (wake_all_loop_spec 1 1 _ (ObjMutex k)); [|done|done]. intros t s0 Ht.
    unfold mbind, M_bind, get. rewrite Ht. by rewrite bool_decide_true. }
  intros ? s2 (Hk2 & F & Hn & Ht & _). k_simp. simpl in Hn, Ht. rewrite Hmu1 in Ht.
  assert (Hc2 : g_current_task s2 = Some c) by by rewrite (wf_current _ _ F), Hc1.
  assert (Hcr2 : cur_ready s2) by by eapply cur_ready_wake. rewrite Hc.
  eapply wp_mono; [apply (sched_if_spec 1 1); [done| |done]; by rewrite (wf_pendsv _ _ F), Hp1|].
  intros ? s' (E & Hk' & Hc' & Hp'). k_simp. destruct (E) as [Ec _].
  unfold mutex_of at 1 2 4. rewrite <- (ce_mutexes _ _ Ec), <- (ce_run _ _ Ec).
  fold (mutex_of s2 k). rewrite (wf_owner _ _ F), (wf_level _ _ F), Hmu1.
  split_and!; try done.
  - intros t Hin. rewrite <- (core_eq_state s2 s') by done. unfold task_state.
    by rewrite Ht, decide_True.
  - intros o Ho. rewrite <- (core_eq_prio s2 s'), (wf_prio _ _ F) by done. auto.
  - rewrite Hp'. by destruct (head (g_os_run_list s2)); rewrite andb_diag.
Qed.
