(* ===== verification/OsEventq.v ===== *)
(** Event queues: libs/os/src/os_eventq.c.

    [os_eventq_get] on an empty queue blocks; as for semaphores the call is split
    there: it returns [None] after the caller has been put to sleep, and
    [os_eventq_get_resume] is what follows, the [goto pull_one] included. *)
From Stdlib Require Import ZArith Lia.
From stdpp Require Import base decidable list numbers gmap.
From S2P Require Import Prelude.
From S2P Require Import OsState.
From S2P Require Import OsSched.
From S2P Require Import OsInv.
From S2P Require Import OsSem.

#[local] Open Scope Z_scope.

(** ** Operations *)

Definition os_eventq_init (q : nat) : K unit :=
  modify (upd_eventq q (λ _, mk_eventq None [])).

Definition os_eventq_put2 (q : nat) (e : evid) (isr : bool) : K unit :=
  s ← get;
  if ev_queued (event_of s e) then mret tt
  else
    modify (upd_event e (set_ev_queued true)) ;;
    modify (upd_eventq q (λ v, set_evq_list (evq_list v ++ [e]) v)) ;;
    s ← get;
    resched ← match evq_task (eventq_of s q) with
        | Some t =>
            os_sched_wakeup t ;;
            modify (upd_eventq q (set_evq_task None)) ;;
            mret true
        | None => mret false
        end;
    if resched : bool then os_sched None isr else mret tt.

Definition os_eventq_put (q : nat) (e : evid) : K unit := os_eventq_put2 q e false.

Definition os_eventq_get (q : nat) : K (option evid) :=
  s ← get;
  match head (evq_list (eventq_of s q)) with
  | Some e =>
      l ← from_option_fault FList (list_remove e (evq_list (eventq_of s q)));
      modify (upd_eventq q (set_evq_list l)) ;;
      modify (upd_event e (set_ev_queued false)) ;;
      mret (Some e)
  | None =>
      current ← os_sched_get_current_task;
      modify (upd_eventq q (set_evq_task current)) ;;
      c ← from_option_fault FNull current;
      os_sched_sleep c OS_TIMEOUT_NEVER ;;
      os_sched None false ;;
      mret None
  end.

Definition os_eventq_get_resume (q : nat) : K (option evid) :=
  modify (upd_eventq q (set_evq_task None)) ;;
  os_eventq_get q.

Definition os_eventq_remove (q : nat) (e : evid) : K unit :=
  s ← get;
  (if ev_queued (event_of s e) then
     l ← from_option_fault FList (list_remove e (evq_list (eventq_of s q)));
     modify (upd_eventq q (set_evq_list l))
   else mret tt) ;;
  modify (upd_event e (set_ev_queued false)).

(** ** Frame: the operations that touch queues, events and callouts only *)

Record queue_step (s s' : kstate) : Prop := {
  qs_tasks : tasks s' = tasks s;
  qs_run : g_os_run_list s' = g_os_run_list s;
  qs_sleep : g_os_sleep_list s' = g_os_sleep_list s;
  qs_current : g_current_task s' = g_current_task s;
  qs_time : g_os_time s' = g_os_time s;
  qs_started : g_os_started s' = g_os_started s;
  qs_pendsv : pendsv s' = pendsv s;
  qs_sems : sems s' = sems s;
  qs_mutexes : mutexes s' = mutexes s;
}.

#[export] Instance queue_step_preorder : PreOrder queue_step.
Proof.
  split; [by split|]. intros s1 s2 s3 [] []. split; congruence.
Qed.

Lemma queue_step_task_of s s' t : queue_step s s' → task_of s' t = task_of s t.
Proof. intros E. unfold task_of. by rewrite (qs_tasks _ _ E). Qed.

Lemma queue_step_core s s' : queue_step s s' → core_eq s s'.
Proof.
  intros E. split; [intros t; by rewrite (queue_step_task_of _ _ t E)|symmetry; apply E..].
Qed.

Lemma queue_step_cur_ready s s' : queue_step s s' → cur_ready s → cur_ready s'.
Proof.
  intros E (c & Hc & Hr). exists c. unfold task_state.
  by rewrite (qs_current _ _ E), (queue_step_task_of _ _ c E).
Qed.

Lemma kbase_queue_step lo_s lo_c lo_c' s s' :
  queue_step s s' → kbase lo_s lo_c s → evq_ok s' → ev_ok s' → callout_ok lo_c' s' →
  kbase lo_s lo_c' s'.
Proof.
  intros E [H1 H2 H3 H4 H5 H6 H7 H8 H9] He Hv Hco. split; try done.
  - by rewrite <- (queue_step_core _ _ E).
  - intros k. unfold sem_ok, sem_of. rewrite (qs_sems _ _ E). apply H2.
  - intros k. unfold mutex_ok, mutex_of. rewrite (qs_mutexes _ _ E). apply H3.
  - by rewrite (qs_current _ _ E).
  - unfold task_state. by rewrite (queue_step_task_of _ _ _ E).
  - by rewrite (qs_started _ _ E).
Qed.

(** The registered tasks can only become fewer. *)
Lemma evq_ok_queue_step s s' :
  queue_step s s' →
  (∀ q t, evq_task (eventq_of s' q) = Some t → evq_task (eventq_of s q) = Some t) →
  evq_ok s → evq_ok s'.
Proof.
  intros E Hsub [H1 H2]. split.
  - intros q t Hq. unfold task_state, no_timeout. rewrite (queue_step_task_of _ _ t E).
    by eapply H1, Hsub.
  - intros q q' t Hq Hq'. by eapply H2; apply Hsub.
Qed.

Lemma callout_ok_queue_step lo s s' :
  queue_step s s' → callouts s' = callouts s → g_callout_list s' = g_callout_list s →
  (∀ c q, EvCallout c ∈ evq_list (eventq_of s' q) → c_evq (callout_of s c) = Some q) →
  callout_ok lo s → callout_ok lo s'.
Proof.
  intros E Ec El Hev [H1 H2 H3 H4 H5 H6]. unfold callout_key, callout_of in *.
  split; unfold callout_key, callout_of; rewrite ?El, ?Ec, ?(qs_time _ _ E); auto.
Qed.

Lemma queue_eq_eventq s s' : queue_eq s s' → ∀ q, eventq_of s' q = eventq_of s q.
Proof. intros Q q. unfold eventq_of. by rewrite (qe_eventqs _ _ Q). Qed.
Lemma queue_eq_event s s' : queue_eq s s' → ∀ e, event_of s' e = event_of s e.
Proof. intros Q e. unfold event_of. by rewrite (qe_events _ _ Q). Qed.

(** ** Enqueueing and dequeueing as state transformers *)

Definition enqueue_st (q : nat) (e : evid) (s : kstate) : kstate :=
  upd_eventq q (λ v, set_evq_list (evq_list v ++ [e]) v) (upd_event e (set_ev_queued true) s).

Definition dequeue_st (q : nat) (e : evid) (l : list evid) (s : kstate) : kstate :=
  upd_event e (set_ev_queued false) (upd_eventq q (set_evq_list l) s).

Lemma enqueue_st_eventq q e s j :
  eventq_of (enqueue_st q e s) j =
    if decide (q = j) then mk_eventq (evq_task (eventq_of s q)) (evq_list (eventq_of s q) ++ [e])
    else eventq_of s j.
Proof. unfold enqueue_st. by rewrite eventq_of_upd. Qed.

Lemma enqueue_st_event q e s e' :
  event_of (enqueue_st q e s) e' =
    if decide (e = e') then set_ev_queued true (event_of s e) else event_of s e'.
Proof.
  unfold enqueue_st. change (event_of (upd_eventq q ?f ?x) e') with (event_of x e').
  by rewrite event_of_upd.
Qed.

Lemma dequeue_st_eventq q e l s j :
  eventq_of (dequeue_st q e l s) j =
    if decide (q = j) then mk_eventq (evq_task (eventq_of s q)) l else eventq_of s j.
Proof.
  unfold dequeue_st. change (eventq_of (upd_event e ?f ?x) j) with (eventq_of x j).
  by rewrite eventq_of_upd.
Qed.

Lemma dequeue_st_event q e l s e' :
  event_of (dequeue_st q e l s) e' =
    if decide (e = e') then set_ev_queued false (event_of s e) else event_of s e'.
Proof. unfold dequeue_st. by rewrite event_of_upd. Qed.

Lemma ev_ok_enqueue q e s :
  ev_queued (event_of s e) = false → ev_ok s → ev_ok (enqueue_st q e s).
Proof.
  intros Hq [H1 H2 H3].
  assert (Hnot : ∀ j, e ∉ evq_list (eventq_of s j)).
  { intros j Hin. assert (ev_queued (event_of s e) = true) by (apply H1; eauto). congruence. }
  split.
  - intros e'. rewrite enqueue_st_event. split.
    + case_decide as He; subst.
      * intros _. exists q. rewrite enqueue_st_eventq, decide_True by done. set_solver.
      * intros (j & Hj)%H1. exists j. rewrite enqueue_st_eventq. case_decide; subst; set_solver.
    + intros (j & Hj). case_decide; [done|]. apply H1. rewrite enqueue_st_eventq in Hj.
      destruct (decide (q = j)) as [->|]; exists j; set_solver.
  - intros e' j j'. rewrite !enqueue_st_eventq.
    destruct (decide (q = j)) as [<-|], (decide (q = j')) as [<-|]; simpl; try done;
      rewrite ?elem_of_app, ?list_elem_of_singleton;
      intros Ha Hb; try (destruct Ha as [Ha| ->]); try (destruct Hb as [Hb| ->]);
      try (by edestruct Hnot); by eapply H2.
  - intros j. rewrite enqueue_st_eventq. case_decide; [subst|apply H3]. simpl.
    apply NoDup_app. split; [apply H3|]. split; [|apply NoDup_singleton].
    intros x Hx Hx'. apply list_elem_of_singleton in Hx' as ->. by eapply Hnot.
Qed.

Lemma ev_ok_dequeue q e l s :
  list_remove e (evq_list (eventq_of s q)) = Some l → ev_ok s → ev_ok (dequeue_st q e l s).
Proof.
  intros Hrm [H1 H2 H3].
  pose proof (λ y, list_remove_elem e _ l y (H3 q) Hrm) as Hin.
  assert (He : e ∈ evq_list (eventq_of s q)) by (rewrite (list_remove_perm _ _ _ Hrm); by left).
  assert (Hsub : ∀ j x, x ∈ evq_list (eventq_of (dequeue_st q e l s) j) →
    x ∈ evq_list (eventq_of s j) ∧ x ≠ e).
  { intros j x. rewrite dequeue_st_eventq. case_decide; [subst; by intros ?%Hin|].
    intros Hx. split; [done|]. intros ->. by eapply H, H2. }
  split.
  - intros e'. rewrite dequeue_st_event. split.
    + case_decide; [done|]. intros (j & Hj)%H1. exists j. rewrite dequeue_st_eventq.
      case_decide; [subst|done]. apply Hin. naive_solver.
    + intros (j & [? ?]%Hsub). rewrite decide_False by done. apply H1. eauto.
  - intros e' j j' [? _]%Hsub [? _]%Hsub. by eapply H2.
  - intros j. rewrite dequeue_st_eventq. case_decide; [|apply H3].
    by eapply list_remove_NoDup.
Qed.

(** The event of a callout may only be put on the callout's own queue. *)
Definition ev_target (s : kstate) (q : nat) (e : evid) : Prop :=
  ∀ c, e = EvCallout c → c_evq (callout_of s c) = Some q.

Lemma kbase_enqueue lo_s lo_c q e s :
  kbase lo_s lo_c s → ev_queued (event_of s e) = false → ev_target s q e →
  kbase lo_s lo_c (enqueue_st q e s).
Proof.
  intros Hk Hq Ht. assert (E : queue_step s (enqueue_st q e s)) by done.
  eapply kbase_queue_step; [done|done|..].
  - eapply evq_ok_queue_step; [done| |apply Hk]. intros j t. rewrite enqueue_st_eventq.
    case_decide; by subst.
  - apply ev_ok_enqueue; [done|apply Hk].
  - eapply (callout_ok_queue_step _ s); [done..| |apply Hk]. intros c j.
    rewrite enqueue_st_eventq. case_decide; [subst|apply (co_event _ _ (ki_callout _ _ _ Hk))].
    simpl. rewrite elem_of_app, list_elem_of_singleton.
    intros [?|Hc]; [by apply (co_event _ _ (ki_callout _ _ _ Hk))|by apply Ht].
Qed.

Lemma kbase_dequeue lo_s lo_c q e l s :
  kbase lo_s lo_c s → list_remove e (evq_list (eventq_of s q)) = Some l →
  kbase lo_s lo_c (dequeue_st q e l s).
Proof.
  intros Hk Hrm. assert (E : queue_step s (dequeue_st q e l s)) by done.
  eapply kbase_queue_step; [done|done|..].
  - eapply evq_ok_queue_step; [done| |apply Hk]. intros j t. rewrite dequeue_st_eventq.
    case_decide; by subst.
  - apply ev_ok_dequeue; [done|apply Hk].
  - eapply (callout_ok_queue_step _ s); [done..| |apply Hk]. intros c j.
    rewrite dequeue_st_eventq. case_decide; [subst|apply (co_event _ _ (ki_callout _ _ _ Hk))].
    simpl. intros Hin. apply (co_event _ _ (ki_callout _ _ _ Hk)).
    rewrite (list_remove_perm _ _ _ Hrm). by right.
Qed.

(** Unregistering the task of a queue. *)
Lemma kbase_unregister lo_s lo_c q s :
  kbase lo_s lo_c s → kbase lo_s lo_c (upd_eventq q (set_evq_task None) s).
Proof.
  intros Hk. assert (E : queue_step s (upd_eventq q (set_evq_task None) s)) by done.
  assert (Hl : ∀ j, evq_list (eventq_of (upd_eventq q (set_evq_task None) s) j) =
    evq_list (eventq_of s j)).
  { intros j. rewrite eventq_of_upd. case_decide; by subst. }
  eapply kbase_queue_step; [done|done|..].
  - eapply evq_ok_queue_step; [done| |apply Hk]. intros j t. rewrite eventq_of_upd.
    by case_decide.
  - destruct (ki_ev _ _ _ Hk) as [H1 H2 H3]. split.
    + intros e. change (event_of (upd_eventq ?a ?b ?x) e) with (event_of x e). rewrite H1.
      by setoid_rewrite Hl.
    + intros e j j'. rewrite !Hl. apply H2.
    + intros j. rewrite Hl. apply H3.
  - eapply (callout_ok_queue_step _ s); [done..| |apply Hk]. intros c j. rewrite Hl.
    apply (co_event _ _ (ki_callout _ _ _ Hk)).
Qed.

(** ** Specifications *)

(** What a [put] leaves alone besides the invariant: the clock, the callouts,
    the other queues and the priorities. *)
Record put_frame (q : nat) (s s' : kstate) : Prop := {
  pf_current : g_current_task s' = g_current_task s;
  pf_time : g_os_time s' = g_os_time s;
  pf_callouts : callouts s' = callouts s;
  pf_callout_list : g_callout_list s' = g_callout_list s;
  pf_eventq : ∀ j, j ≠ q → eventq_of s' j = eventq_of s j;
  pf_prio : ∀ t, task_prio s' t = task_prio s t;
  pf_ready : ∀ t, task_state s t = OS_TASK_READY → task_state s' t = OS_TASK_READY;
  pf_pendsv : pendsv s = true → pendsv s' = true;
  pf_timed : ∀ t, no_timeout s t = false → task_core (task_of s' t) = task_core (task_of s t);
}.

Definition put_post (q : nat) (e : evid) (s s' : kstate) : Prop :=
  if ev_queued (event_of s e) then s' = s
  else
    put_frame q s s' ∧
    eventq_of s' q = mk_eventq None (evq_list (eventq_of s q) ++ [e]) ∧
    (∀ e', ev_queued (event_of s' e') = bool_decide (e' = e) || ev_queued (event_of s e')) ∧
    match evq_task (eventq_of s q) with
    | Some t => task_state s' t = OS_TASK_READY ∧
                pendsv s' = pendsv s || bool_decide (head (g_os_run_list s') ≠ g_current_task s)
    | None => g_os_run_list s' = g_os_run_list s ∧ pendsv s' = pendsv s
    end.

Lemma wakeup_unregister t q s :
  upd_eventq q (set_evq_task None) (wakeup_st t s) =
  wakeup_st t (upd_eventq q (set_evq_task None) s).
Proof.
  unfold wakeup_st, insert_st, unlink_st, upd_eventq, eventq_of. simpl.
  change (task_of (set_eventqs ?a ?x) t) with (task_of x t).
  by destruct (t_obj (task_of s t)) as [[]|].
Qed.

(** Waking up the task registered with [q] and forgetting the registration. *)
Lemma kbase_wake_registered lo_s lo_c q t s :
  kbase lo_s lo_c s → evq_task (eventq_of s q) = Some t →
  kbase lo_s lo_c (upd_eventq q (set_evq_task None) (wakeup_st t s)).
Proof.
  intros Hk Hq. rewrite wakeup_unregister.
  destruct (ki_evq _ _ _ Hk) as [H1 H2]. destruct (H1 q t Hq) as (Hst & _).
  apply kbase_wakeup; [by apply kbase_unregister|done|].
  intros j. rewrite eventq_of_upd. case_decide; [done|]. intros Hj. by eapply H, H2.
Qed.

Lemma os_eventq_put2_spec lo_s lo_c q e isr s :
  kinv lo_s lo_c s → ev_target s q e →
  wp (os_eventq_put2 q e isr) (λ _ s', kinv lo_s lo_c s' ∧ put_post q e s s') s.
Proof.
  intros [Hk Hcr] Ht. unfold os_eventq_put2, put_post. k_simp.
  destruct (ev_queued (event_of s e)) eqn:Hq; [by apply wp_ret|]. k_simp.
  fold (enqueue_st q e s). set (s1 := enqueue_st q e s).
  pose proof (kbase_enqueue _ _ q e s Hk Hq Ht) as Hk1. fold s1 in Hk1.
  assert (Hq1 : eventq_of s1 q = mk_eventq (evq_task (eventq_of s q)) (evq_list (eventq_of s q) ++ [e])).
  { unfold s1. by rewrite enqueue_st_eventq, decide_True. }
  assert (Hj1 : ∀ j, j ≠ q → eventq_of s1 j = eventq_of s j).
  { intros j Hj. unfold s1. by rewrite enqueue_st_eventq, decide_False. }
  assert (He1 : ∀ e', ev_queued (event_of s1 e') = bool_decide (e' = e) || ev_queued (event_of s e')).
  { intros e'. unfold s1. rewrite enqueue_st_event.
    destruct (decide (e = e')) as [->|]; [by rewrite bool_decide_true|].
    by rewrite bool_decide_false by congruence. }
  rewrite Hq1. cbn [evq_task]. destruct (evq_task (eventq_of s q)) as [t|] eqn:Htk.
  - assert (Hq1' : evq_task (eventq_of s1 q) = Some t) by by rewrite Hq1.
    destruct (eq_asleep _ (ki_evq _ _ _ Hk1) q t Hq1') as (Hst & _).
    pose proof (wakeup_st_frame t s1 Hst) as F.
    pose proof (kbase_wake_registered _ _ q t s1 Hk1 Hq1') as Hk2. k_simp.
    destruct (ki_sched _ _ _ Hk1) as (Hs1 & _ & Hw1 & _).
    eapply wp_eq; [by apply os_sched_wakeup_run|]. k_simp.
    set (s2 := upd_eventq q (set_evq_task None) (wakeup_st t s1)) in *.
    assert (Hq2 : ∀ j, eventq_of s2 j =
      if decide (q = j) then mk_eventq None (evq_list (eventq_of s q) ++ [e]) else eventq_of s j).
    { intros j. unfold s2. rewrite eventq_of_upd. unfold eventq_of at 1 2.
      rewrite (wf_eventqs _ _ F). fold (eventq_of s1 q) (eventq_of s1 j).
      case_decide; [by rewrite Hq1|]. by rewrite Hj1 by congruence. }
    assert (Hr2 : ∀ u, task_state s2 u = if decide (t = u) then OS_TASK_READY else task_state s u).
    { intros u. unfold s2. change (task_state (upd_eventq q ?f ?x) u) with (task_state x u).
      by rewrite wakeup_st_state. }
    assert (Hto : ∀ u, no_timeout s u = false → task_of s2 u = task_of s u).
    { intros u Hu. unfold s2. change (task_of (upd_eventq q ?f ?x) u) with (task_of x u).
      rewrite wakeup_st_task, decide_False; [done|]. intros ->.
      change (no_timeout s u) with (no_timeout s1 u) in Hu.
      destruct (eq_asleep _ (ki_evq _ _ _ Hk1) q u Hq1') as (_ & _ & ?). congruence. }
    assert (He2 : ∀ e', event_of s2 e' = event_of s1 e').
    { intros e'. unfold event_of. by rewrite <- (wf_events _ _ F). }
    assert (Hpr2 : ∀ u, task_prio s2 u = task_prio s u) by exact (wf_prio _ _ F).
    assert (Hsum : g_current_task s2 = g_current_task s ∧ pendsv s2 = pendsv s ∧
      g_os_time s2 = g_os_time s ∧ callouts s2 = callouts s ∧ g_callout_list s2 = g_callout_list s)
      by (split_and!; apply F).
    clearbody s2. destruct Hsum as (Hc2 & Hpend & Ht2 & Hco2 & Hcl2).
    eapply wp_mono; [by apply (os_sched_kbase lo_s lo_c)|].
    intros ? s' (E & Hk' & Hc' & Hp'). pose proof (sw_eq_queue _ _ E) as Q. destruct (E) as [Ec _].
    rewrite Hc2 in Hc', Hp'. rewrite Hpend in Hp'.
    assert (Hrd : ∀ u, task_state s u = OS_TASK_READY → task_state s' u = OS_TASK_READY).
    { intros u Hu. rewrite <- (core_eq_state s2 s'), Hr2 by done. by destruct (decide (t = u)). }
    pose proof (queue_eq_eventq _ _ Q) as Hq'. pose proof (queue_eq_event _ _ Q) as He'.
    split_and!.
    + split; [done|]. destruct Hcr as (c & Hc & Hcs). exists c. rewrite Hc'. auto.
    + split; try done.
      * by rewrite (qe_time _ _ Q).
      * by rewrite (qe_callouts _ _ Q).
      * by rewrite (qe_callout_list _ _ Q).
      * intros j Hj. by rewrite Hq', Hq2, decide_False by congruence.
      * intros u. by rewrite <- (core_eq_prio s2 s').
      * intros Hp. by rewrite Hp', Hp.
      * intros u Hu. by rewrite <- (ce_task _ _ Ec), Hto.
    + by rewrite Hq', Hq2, decide_True.
    + intros e'. by rewrite He', He2, He1.
    + by rewrite <- (core_eq_state s2 s'), Hr2, decide_True.
    + by rewrite <- (ce_run _ _ Ec).
  - k_simp. by split_and!.
Qed.

(** A non-empty queue: the oldest event is unlinked and returned. *)
Lemma os_eventq_get_some lo_s lo_c q e l s :
  kinv lo_s lo_c s → evq_list (eventq_of s q) = e :: l →
  os_eventq_get q s = Ret (Some e, dequeue_st q e l s) ∧ kinv lo_s lo_c (dequeue_st q e l s).
Proof.
  intros [Hk Hcr] Hl.
  assert (Hrm : list_remove e (evq_list (eventq_of s q)) = Some l).
  { rewrite Hl. simpl. by rewrite decide_True. }
  split.
  - unfold os_eventq_get, mbind, M_bind, get. rewrite Hl in Hrm |- *. cbn [head]. rewrite Hrm. done.
  - split; [by apply kbase_dequeue|done].
Qed.

Lemma kbase_register lo_s lo_c q c s :
  kbase lo_s lo_c s → task_state s c = OS_TASK_SLEEP → t_obj (task_of s c) = None →
  no_timeout s c = true → (∀ j, evq_task (eventq_of s j) ≠ Some c) →
  kbase lo_s lo_c (upd_eventq q (set_evq_task (Some c)) s).
Proof.
  intros Hk Hst Ho Hn Hnot. set (s' := upd_eventq q (set_evq_task (Some c)) s).
  assert (Hl : ∀ j, evq_list (eventq_of s' j) = evq_list (eventq_of s j)).
  { intros j. unfold s'. rewrite eventq_of_upd. case_decide; by subst. }
  assert (Hj : ∀ j u, evq_task (eventq_of s' j) = Some u →
    (q = j ∧ u = c) ∨ (q ≠ j ∧ evq_task (eventq_of s j) = Some u)).
  { intros j u. unfold s'. rewrite eventq_of_upd. case_decide; [|by auto]. intros [= ->]. by left. }
  destruct (ki_evq _ _ _ Hk) as [H1 H2], (ki_ev _ _ _ Hk) as [H3 H4 H5].
  eapply (kbase_queue_step _ _ _ s); [done|done|..].
  - split.
    + intros j u [[_ ->]|[_ Hu]]%Hj; [done|by apply (H1 j u)].
    + intros j j' u [[Hq ->]|[_ Hu]]%Hj [[Hq' Hc]|[_ Hu']]%Hj; subst;
        [done|by destruct (Hnot j')|by destruct (Hnot j)|by eapply H2].
  - split.
    + intros e. change (event_of s' e) with (event_of s e). rewrite H3. by setoid_rewrite Hl.
    + intros e j j'. rewrite !Hl. apply H4.
    + intros j. rewrite Hl. apply H5.
  - eapply (callout_ok_queue_step _ s); [done..| |apply Hk]. intros k j. rewrite Hl.
    apply (co_event _ _ (ki_callout _ _ _ Hk)).
Qed.

Lemma register_sleep q c s :
  sleep_st c OS_TIMEOUT_NEVER (upd_eventq q (set_evq_task (Some c)) s) =
  upd_eventq q (set_evq_task (Some c)) (sleep_st c OS_TIMEOUT_NEVER s).
Proof. done. Qed.

(** An empty queue: the caller is registered with the queue, sleeps without a
    timeout, and a switch is requested. *)
Lemma os_eventq_get_block q c s :
  kinv 1 1 s → g_current_task s = Some c → c ≠ g_idle_task → evq_list (eventq_of s q) = [] →
  wp (os_eventq_get q) (λ r s',
    r = None ∧ kbase 1 1 s' ∧ pendsv s' = true ∧ g_current_task s' = Some c ∧
    task_state s' c = OS_TASK_SLEEP ∧ no_timeout s' c = true ∧
    eventq_of s' q = mk_eventq (Some c) []) s.
Proof.
  intros [Hk Hcr] Hc Hid Hl.
  assert (Hst : task_state s c = OS_TASK_READY) by (destruct Hcr as (? & ? & ?); congruence).
  destruct (ki_sched _ _ _ Hk) as (Hs & Hsl & Hw & Ha).
  assert (Hobj : t_obj (task_of s c) = None).
  { destruct (t_obj (task_of s c)) as [o|] eqn:Ho; [|done]. apply Ha in Ho. congruence. }
  assert (Hk1 : kbase 1 1 (upd_eventq q (set_evq_task (Some c)) (sleep_st c OS_TIMEOUT_NEVER s))).
  { apply kbase_register; [apply kbase_sleep; by left || done || lia|..].
    - by rewrite sleep_st_state, decide_True.
    - by rewrite sleep_st_obj.
    - by rewrite sleep_st_no_timeout, decide_True.
    - intros j. change (eventq_of (sleep_st c OS_TIMEOUT_NEVER s) j) with (eventq_of s j).
      by apply not_evq_ready; [apply Hk|]. }
  unfold os_eventq_get. k_simp. rewrite Hl. cbn [head]. k_simp. rewrite Hc. k_simp.
  eapply wp_eq; [apply os_sched_sleep_run; by apply Hs|]. k_simp. rewrite register_sleep.
  eapply wp_mono; [by apply (os_sched_kbase 1 1 None false)|].
  intros ? s' (E & Hk' & Hc' & Hp'). k_simp. destruct (E) as (Ec & _ & Eq & _).
  change (g_current_task (upd_eventq _ _ _)) with (g_current_task s) in Hc', Hp'.
  rewrite Hc in Hc', Hp'. unfold eventq_of. rewrite Eq.
  rewrite <- (core_eq_state _ s'), <- (core_eq_no_timeout _ s') by done.
  split_and!; try done.
  - rewrite Hp'. apply orb_true_intro. right. apply bool_decide_true.
    apply (sleep_st_head_ne 1); [done|done|lia|done|by left].
  - change (task_state (upd_eventq q ?f ?x) c) with (task_state x c).
    by rewrite sleep_st_state, decide_True.
  - change (no_timeout (upd_eventq q ?f ?x) c) with (no_timeout x c).
    by rewrite sleep_st_no_timeout, decide_True.
  - change (eventq_of (upd_eventq q (set_evq_task (Some c)) (sleep_st c OS_TIMEOUT_NEVER s)) q =
      mk_eventq (Some c) []).
    rewrite eventq_of_upd, decide_True by done.
    change (eventq_of (sleep_st c OS_TIMEOUT_NEVER s) q) with (eventq_of s q).
    unfold set_evq_task. by rewrite Hl.
Qed.

Lemma kinv_unregister lo_s lo_c q s :
  kinv lo_s lo_c s → kinv lo_s lo_c (upd_eventq q (set_evq_task None) s).
Proof. intros [? ?]. split; [by apply kbase_unregister|done]. Qed.

(** Removal of an event: from its queue if it is queued there, nothing to do if
    it is not queued. *)
Lemma os_eventq_remove_spec lo_s lo_c q e s :
  kinv lo_s lo_c s → (ev_queued (event_of s e) = true → e ∈ evq_list (eventq_of s q)) →
  wp (os_eventq_remove q e) (λ _ s',
    kinv lo_s lo_c s' ∧ queue_step s s' ∧ callouts s' = callouts s ∧
    g_callout_list s' = g_callout_list s ∧
    ev_queued (event_of s' e) = false ∧
    evq_list (eventq_of s' q) = filter (λ x, x ≠ e) (evq_list (eventq_of s q)) ∧
    (∀ j, j ≠ q → eventq_of s' j = eventq_of s j) ∧
    (∀ e', e' ≠ e → event_of s' e' = event_of s e')) s.
Proof.
  intros [Hk Hcr] Hin. unfold os_eventq_remove. k_simp.
  destruct (ki_ev _ _ _ Hk) as [H1 H2 H3].
  destruct (ev_queued (event_of s e)) eqn:Hq.
  - specialize (Hin eq_refl). destruct (list_remove_is_Some e _ Hin) as [l Hl]. rewrite Hl. k_simp.
    fold (dequeue_st q e l s). split_and!; try done.
    + split; [by apply kbase_dequeue|done].
    + by rewrite dequeue_st_event, decide_True.
    + rewrite dequeue_st_eventq, decide_True by done. simpl.
      by apply list_remove_filter.
    + intros j Hj. by rewrite dequeue_st_eventq, decide_False.
    + intros e' He. by rewrite dequeue_st_event, decide_False.
  - k_simp.
    assert (Hn : ∀ j, e ∉ evq_list (eventq_of s j)).
    { intros j Hj. assert (ev_queued (event_of s e) = true) by (apply H1; eauto). congruence. }
    split_and!; try done.
    + split; [|done]. eapply (kbase_queue_step _ _ _ s); [done|done|..].
      * eapply (evq_ok_queue_step s); [done|done|apply Hk].
      * split; [|done..]. intros e'. rewrite event_of_upd. case_decide; [subst|apply H1].
        split; [done|]. intros (j & Hj). by destruct (Hn j).
      * eapply (callout_ok_queue_step _ s); [done..|apply Hk|apply Hk].
    + by rewrite event_of_upd, decide_True.
    + change (eventq_of (upd_event ?a ?b ?x) q) with (eventq_of x q).
      rewrite list_filter_all_true; [done|]. intros x Hx ->. by destruct (Hn q).
    + intros e' He. by rewrite event_of_upd, decide_False.
Qed.

(** Initialising a queue that holds no event. *)
Lemma os_eventq_init_spec lo_s lo_c q s :
  kinv lo_s lo_c s → evq_list (eventq_of s q) = [] →
  wp (os_eventq_init q) (λ _ s',
    kinv lo_s lo_c s' ∧ queue_step s s' ∧ eventq_of s' q = mk_eventq None []) s.
Proof.
  intros [Hk Hcr] Hl. unfold os_eventq_init. k_simp.
  set (s' := upd_eventq q (λ _, mk_eventq None []) s).
  assert (Hs' : s' = upd_eventq q (set_evq_task None) s).
  { unfold s', upd_eventq. by rewrite <- Hl. }
  split_and!; [|done|].
  - rewrite Hs'. by apply kinv_unregister.
  - unfold s'. by rewrite eventq_of_upd, decide_True.
Qed.
