(* ===== verification/OsCallout.v ===== *)
(** Callouts (timers that post an event): libs/os/src/os_callout.c. *)
From Stdlib Require Import ZArith Lia.
From stdpp Require Import base decidable list numbers gmap.
From S2P Require Import Prelude.
From S2P Require Import OsState.
From S2P Require Import OsSched.
From S2P Require Import OsInv.
From S2P Require Import OsEventq.

#[local] Open Scope Z_scope.

(** ** Operations *)

Definition os_callout_init (c : nat) (evq : option nat) (ev_arg : Z) : K unit :=
  modify (upd_callout c (λ k, mk_callout None 0 false (cf_func k))) ;;
  modify (upd_event (EvCallout c) (λ _, mk_event false 0 0)) ;;
  modify (upd_event (EvCallout c) (set_ev_type OS_EVENT_T_TIMER)) ;;
  modify (upd_event (EvCallout c) (set_ev_arg ev_arg)) ;;
  modify (upd_callout c (set_c_evq evq)).

Definition os_callout_func_init (c : nat) (evq : option nat) (timo_func : nat) (ev_arg : Z) : K unit :=
  os_callout_init c evq ev_arg ;;
  modify (upd_callout c (set_cf_func (Some timo_func))).

Definition os_callout_queued (c : nat) : K bool := gets (λ s, c_linked (callout_of s c)).

Definition os_callout_stop (c : nat) : K unit :=
  queued ← os_callout_queued c;
  (if queued : bool then
     s ← get;
     l ← from_option_fault FList (list_remove c (g_callout_list s));
     modify (set_g_callout_list l) ;;
     modify (upd_callout c (set_c_linked false))
   else mret tt) ;;
  s ← get;
  match c_evq (callout_of s c) with
  | Some q => os_eventq_remove q (EvCallout c)
  | None => mret tt
  end.

(** [0] or [OS_EINVAL]; [ticks] is an [int32_t]. *)
Definition os_callout_reset (c : nat) (ticks : Z) : K os_error :=
  if ticks <? 0 then mret OS_EINVAL
  else
    os_callout_stop c ;;
    let ticks := if ticks =? 0 then 1 else ticks in
    now ← os_time_get;
    modify (upd_callout c (set_c_ticks (u32 (now + ticks)))) ;;
    s ← get;
    modify (set_g_callout_list
      (insert_before (λ entry, OS_TIME_TICK_LT (c_ticks (callout_of s c)) (c_ticks (callout_of s entry)))
         c (g_callout_list s))) ;;
    modify (upd_callout c (set_c_linked true)) ;;
    mret OS_OK.

Fixpoint callout_tick_loop (fuel : nat) (now : Z) : K unit :=
  s ← get;
  match g_callout_list s with
  | [] => mret tt
  | c :: l =>
      if OS_TIME_TICK_GEQ now (c_ticks (callout_of s c)) then
        match fuel with
        | O => fault_with FFuel
        | S fuel =>
            modify (set_g_callout_list l) ;;
            modify (upd_callout c (set_c_linked false)) ;;
            q ← from_option_fault FNull (c_evq (callout_of s c));
            os_eventq_put2 q (EvCallout c) true ;;
            callout_tick_loop fuel now
        end
      else mret tt
  end.

Definition os_callout_tick : K unit :=
  now ← os_time_get;
  s ← get;
  callout_tick_loop (length (g_callout_list s)) now.

(** ** Updates of the callouts *)

(** Unlinking a callout. *)
Definition unlink_callout_st (c : nat) (l : list nat) (s : kstate) : kstate :=
  upd_callout c (set_c_linked false) (set_g_callout_list l s).

Lemma unlink_callout_of c l s j :
  callout_of (unlink_callout_st c l s) j =
    if decide (c = j) then set_c_linked false (callout_of s c) else callout_of s j.
Proof. unfold unlink_callout_st. by rewrite callout_of_upd. Qed.

Lemma unlink_callout_key c l s j : callout_key (unlink_callout_st c l s) j = callout_key s j.
Proof. unfold callout_key. rewrite unlink_callout_of. case_decide; by subst. Qed.

Lemma unlink_callout_evq c l s j :
  c_evq (callout_of (unlink_callout_st c l s) j) = c_evq (callout_of s j).
Proof. rewrite unlink_callout_of. case_decide; by subst. Qed.

Lemma callout_ok_unlink lo c l s :
  list_remove c (g_callout_list s) = Some l → callout_ok lo s →
  callout_ok lo (unlink_callout_st c l s).
Proof.
  intros Hrm [H1 H2 H3 H4 H5 H6].
  pose proof (λ y, list_remove_elem c _ l y H1 Hrm) as Hin.
  split; simpl.
  - by eapply list_remove_NoDup.
  - intros j. rewrite unlink_callout_of, Hin, H2. case_decide; subst; naive_solver.
  - eapply sorted_by_ext; [intros; symmetry; apply unlink_callout_key|].
    by eapply sorted_by_remove.
  - intros j [Hj _]%Hin. rewrite unlink_callout_key. auto.
  - intros j [Hj _]%Hin. rewrite unlink_callout_evq. auto.
  - intros j q Hj. rewrite unlink_callout_evq. by apply H6.
Qed.

Lemma kinv_unlink_callout lo_s lo_c c l s :
  list_remove c (g_callout_list s) = Some l → kinv lo_s lo_c s →
  kinv lo_s lo_c (unlink_callout_st c l s).
Proof.
  intros Hrm [Hk Hcr]. split; [|done].
  eapply (kbase_queue_step _ _ _ s); [done|done|..].
  - eapply (evq_ok_queue_step s); [done|done|apply Hk].
  - destruct (ki_ev _ _ _ Hk) as [H1 H2 H3]. by split.
  - apply callout_ok_unlink; [done|apply Hk].
Qed.

(** Linking a callout that is not linked, [n] ticks from now. *)
Definition link_callout_st (c : nat) (n : Z) (s : kstate) : kstate :=
  let s := upd_callout c (set_c_ticks (u32 (g_os_time s + n))) s in
  let s := set_g_callout_list
    (insert_before (λ entry, OS_TIME_TICK_LT (c_ticks (callout_of s c)) (c_ticks (callout_of s entry)))
       c (g_callout_list s)) s in
  upd_callout c (set_c_linked true) s.

Lemma link_callout_of c n s j :
  callout_of (link_callout_st c n s) j =
    if decide (c = j) then set_c_linked true (set_c_ticks (u32 (g_os_time s + n)) (callout_of s c))
    else callout_of s j.
Proof.
  unfold link_callout_st. rewrite callout_of_upd.
  change (callout_of (set_g_callout_list ?a ?x) ?i) with (callout_of x i).
  rewrite !callout_of_upd. case_decide; subst; by rewrite ?decide_True.
Qed.

Lemma link_callout_key_ne c n s j : c ≠ j → callout_key (link_callout_st c n s) j = callout_key s j.
Proof. intros. unfold callout_key. by rewrite link_callout_of, decide_False. Qed.

Lemma link_callout_key_eq c n s :
  0 <= n < 4294967296 → callout_key (link_callout_st c n s) c = n.
Proof.
  intros. unfold callout_key. rewrite link_callout_of, decide_True by done. simpl.
  by apply ticks_until_add.
Qed.

(** The scan with the signed tick comparison finds the place by remaining ticks. *)
Lemma link_callout_list lo c n s :
  callout_ok lo s → c ∉ g_callout_list s → 1 <= n < 2147483648 →
  g_callout_list (link_callout_st c n s) =
    insert_before (λ e, n <? callout_key s e) c (g_callout_list s).
Proof.
  intros [_ _ _ H4 _ _] Hc Hn. unfold link_callout_st. simpl. apply insert_before_ext.
  intros e He. rewrite !callout_of_upd, decide_True, decide_False by congruence.
  specialize (H4 e He). unfold callout_key in *. simpl.
  rewrite (tick_lt_until (g_os_time s)), ticks_until_add by (rewrite ?ticks_until_add; lia). done.
Qed.

Lemma callout_ok_link lo c n s :
  0 <= lo <= 1 → callout_ok lo s → c ∉ g_callout_list s → 1 <= n < 2147483648 →
  is_Some (c_evq (callout_of s c)) → callout_ok lo (link_callout_st c n s).
Proof.
  intros Hlo Hok Hc Hn Hq. pose proof (link_callout_list lo c n s Hok Hc Hn) as Hl.
  destruct Hok as [H1 H2 H3 H4 H5 H6].
  assert (Hne : ∀ j, j ∈ g_callout_list s → c ≠ j) by congruence.
  assert (Hin : ∀ j, j ∈ g_callout_list (link_callout_st c n s) → j = c ∨ j ∈ g_callout_list s).
  { intros j. by rewrite Hl, elem_of_insert_before. }
  assert (Hevq : ∀ j, c_evq (callout_of (link_callout_st c n s) j) = c_evq (callout_of s j)).
  { intros j. rewrite link_callout_of. case_decide; by subst. }
  split.
  - rewrite Hl. by apply NoDup_insert_before.
  - intros j. rewrite Hl, elem_of_insert_before, link_callout_of, H2. case_decide; naive_solver.
  - rewrite Hl, (insert_before_ext _ (λ e, callout_key (link_callout_st c n s) c <?
      callout_key (link_callout_st c n s) e)).
    + apply sorted_by_insert. eapply sorted_by_ext; [|done].
      intros j Hj. by rewrite link_callout_key_ne by auto.
    + intros j Hj. rewrite link_callout_key_eq by lia. by rewrite link_callout_key_ne by auto.
  - intros j [->|Hj]%Hin; [rewrite link_callout_key_eq; lia|].
    rewrite link_callout_key_ne; auto.
  - intros j [->|Hj]%Hin; rewrite Hevq; auto.
  - intros j q Hj. rewrite Hevq. by apply H6.
Qed.

Lemma kinv_link_callout lo_s lo_c c n s :
  0 <= lo_c <= 1 → kinv lo_s lo_c s → c ∉ g_callout_list s → 1 <= n < 2147483648 →
  is_Some (c_evq (callout_of s c)) → kinv lo_s lo_c (link_callout_st c n s).
Proof.
  intros Hlo [Hk Hcr] Hc Hn Hq. split; [|done].
  eapply (kbase_queue_step _ _ _ s); [done|done|..].
  - eapply (evq_ok_queue_step s); [done|done|apply Hk].
  - destruct (ki_ev _ _ _ Hk) as [H1 H2 H3]. by split.
  - by apply callout_ok_link; [|apply Hk|..].
Qed.

(** ** Specifications *)

(** A stopped callout is neither armed nor is its event on a queue, and no other
    callout is affected. *)
Definition stop_post (c : nat) (s s' : kstate) : Prop :=
  queue_step s s' ∧
  g_callout_list s' = filter (λ j, j ≠ c) (g_callout_list s) ∧
  (∀ j, callout_of s' j = if decide (c = j) then set_c_linked false (callout_of s c)
                          else callout_of s j) ∧
  (∀ q, EvCallout c ∉ evq_list (eventq_of s' q)) ∧
  (∀ e, e ≠ EvCallout c → event_of s' e = event_of s e).

(** An event the callout's queue does not have is on no queue. *)
Lemma callout_event_nowhere lo_s lo_c c s :
  kbase lo_s lo_c s → ev_queued (event_of s (EvCallout c)) = false →
  ∀ q, EvCallout c ∉ evq_list (eventq_of s q).
Proof.
  intros Hk Hq q Hin. destruct (ki_ev _ _ _ Hk) as [H1 _ _].
  assert (ev_queued (event_of s (EvCallout c)) = true) by (apply H1; eauto). congruence.
Qed.

Lemma os_callout_stop_unlink lo_s lo_c c s :
  kinv lo_s lo_c s →
  wp (if c_linked (callout_of s c) then
        s ← get;
        l ← from_option_fault FList (list_remove c (g_callout_list s));
        modify (set_g_callout_list l) ;;
        modify (upd_callout c (set_c_linked false))
      else mret tt) (λ _ s',
    kinv lo_s lo_c s' ∧ queue_step s s' ∧ eventqs s' = eventqs s ∧ events s' = events s ∧
    g_callout_list s' = filter (λ j, j ≠ c) (g_callout_list s) ∧
    (∀ j, callout_of s' j = if decide (c = j) then set_c_linked false (callout_of s c)
                            else callout_of s j)) s.
Proof.
  intros Hk. destruct (ki_callout _ _ _ (proj1 Hk)) as [H1 H2 _ _ _ _].
  destruct (c_linked (callout_of s c)) eqn:Hl.
  - destruct (list_remove_is_Some c (g_callout_list s)) as [l Hrm]; [by apply H2|]. k_simp.
    rewrite Hrm. k_simp. fold (unlink_callout_st c l s).
    split_and!; [by apply kinv_unlink_callout|done..|by apply list_remove_filter|].
    apply unlink_callout_of.
  - k_simp. split_and!; try done.
    + rewrite list_filter_all_true; [done|]. intros j Hj ->. apply H2 in Hj. congruence.
    + intros j. case_decide; [subst|done]. destruct (callout_of s j). simpl in *. by subst.
Qed.

Lemma os_callout_stop_spec lo_s lo_c c s :
  kinv lo_s lo_c s → wp (os_callout_stop c) (λ _ s', kinv lo_s lo_c s' ∧ stop_post c s s') s.
Proof.
  intros Hk. unfold os_callout_stop.
  unfold os_callout_queued. k_simp.
  eapply wp_mono; [by apply (os_callout_stop_unlink lo_s lo_c)|].
  intros ? s1 (Hk1 & Q1 & Eq1 & Ev1 & Hl1 & Hc1). k_simp.
  assert (Hc1' := Hc1 c). rewrite decide_True in Hc1' by done.
  destruct (c_evq (callout_of s1 c)) as [q|] eqn:Hq.
  - eapply wp_mono.
    { apply (os_eventq_remove_spec lo_s lo_c); [done|]. intros Hev.
      destruct (ki_ev _ _ _ (proj1 Hk1)) as [H1 _ _]. apply H1 in Hev as (j & Hj).
      pose proof (co_event _ _ (ki_callout _ _ _ (proj1 Hk1)) c j Hj). by simplify_eq. }
    intros ? s' (Hk' & Q & Ec & El & Hev & _ & _ & Hoth). split; [done|].
    split_and!; [by etransitivity|congruence| | |].
    + intros j. unfold callout_of at 1. rewrite Ec. apply Hc1.
    + eapply callout_event_nowhere; [apply Hk'|done].
    + intros e He. rewrite Hoth by done. unfold event_of. by rewrite Ev1.
  - k_simp. split; [done|]. split_and!; try done.
    + intros j Hj. pose proof (co_event _ _ (ki_callout _ _ _ (proj1 Hk1)) c j Hj). congruence.
    + intros e He. unfold event_of. by rewrite Ev1.
Qed.

(** [os_callout_reset] arms the callout [max 1 ticks] ticks from now, in due
    order, whatever its state was. *)
Lemma os_callout_reset_spec lo_s lo_c c ticks s :
  0 <= lo_c <= 1 → kinv lo_s lo_c s → 0 <= ticks < 2147483648 → is_Some (c_evq (callout_of s c)) →
  wp (os_callout_reset c ticks) (λ rc s',
    rc = OS_OK ∧ kinv lo_s lo_c s' ∧ queue_step s s' ∧
    c ∈ g_callout_list s' ∧ callout_key s' c = Z.max 1 ticks ∧
    (∀ j, j ≠ c → callout_of s' j = callout_of s j) ∧
    (∀ q, EvCallout c ∉ evq_list (eventq_of s' q))) s.
Proof.
  intros Hlo Hk Ht Hq. unfold os_callout_reset. rewrite (proj2 (Z.ltb_ge _ _)) by lia. k_simp.
  eapply wp_mono; [by apply (os_callout_stop_spec lo_s lo_c)|].
  intros ? s1 (Hk1 & Q1 & Hl1 & Hc1 & He1 & _). unfold os_time_get. k_simp.
  set (n := if ticks =? 0 then 1 else ticks).
  assert (Hn : n = Z.max 1 ticks) by (unfold n; destruct (Z.eqb_spec ticks 0); lia).
  fold (link_callout_st c n s1).
  assert (Hnot : c ∉ g_callout_list s1).
  { rewrite Hl1, list_elem_of_filter. naive_solver. }
  split_and!; try done.
  - apply kinv_link_callout; try done; [lia|]. by rewrite Hc1, decide_True.
  - by etransitivity.
  - rewrite (link_callout_list lo_c); [|apply Hk1|done|lia].
    apply elem_of_insert_before. by left.
  - rewrite link_callout_key_eq; lia.
  - intros j Hj. by rewrite link_callout_of, decide_False, Hc1, decide_False.
Qed.

Lemma os_callout_reset_neg c ticks s :
  ticks < 0 → os_callout_reset c ticks s = Ret (OS_EINVAL, s).
Proof. intros Ht. unfold os_callout_reset. by rewrite (proj2 (Z.ltb_lt _ _)). Qed.

(** Initialising a callout that is neither armed nor pending. *)
Lemma os_callout_init_spec lo_s lo_c c evq arg s :
  kinv lo_s lo_c s → c ∉ g_callout_list s → ev_queued (event_of s (EvCallout c)) = false →
  wp (os_callout_init c evq arg) (λ _ s',
    kinv lo_s lo_c s' ∧ queue_step s s' ∧ g_callout_list s' = g_callout_list s ∧
    callout_of s' c = mk_callout evq 0 false (cf_func (callout_of s c)) ∧
    event_of s' (EvCallout c) = mk_event false OS_EVENT_T_TIMER arg) s.
Proof.
  intros [Hk Hcr] Hc He. unfold os_callout_init. k_simp.
  pose proof (callout_event_nowhere _ _ c s Hk He) as Hnw.
  match goal with |- kinv _ _ ?x ∧ _ => set (s' := x) end.
  assert (Hco : ∀ j, callout_of s' j =
    if decide (c = j) then mk_callout evq 0 false (cf_func (callout_of s c)) else callout_of s j).
  { intros j. unfold s'. rewrite callout_of_upd.
    do 3 change (callout_of (upd_event ?a ?f ?x) ?i) with (callout_of x i).
    rewrite !callout_of_upd. case_decide; subst; by rewrite ?decide_True. }
  assert (Hev : ∀ e, event_of s' e =
    if decide (EvCallout c = e) then mk_event false OS_EVENT_T_TIMER arg else event_of s e).
  { intros e. unfold s'. change (event_of (upd_callout ?a ?f ?x) ?i) with (event_of x i).
    rewrite !event_of_upd. destruct (decide (EvCallout c = e)); subst; by rewrite ?decide_True. }
  assert (Hne : ∀ j, j ∈ g_callout_list s → c ≠ j) by congruence.
  split_and!; try done; [|by rewrite Hco, decide_True|by rewrite Hev, decide_True].
  split; [|done]. eapply (kbase_queue_step _ _ _ s); [done|done|..].
  - eapply (evq_ok_queue_step s); [done|done|apply Hk].
  - destruct (ki_ev _ _ _ Hk) as [H1 H2 H3]. split; [|done..]. intros e. rewrite Hev.
    case_decide; [subst|apply H1]. split; [done|]. intros (q & Hq). by destruct (Hnw q).
  - destruct (ki_callout _ _ _ Hk) as [H1 H2 H3 H4 H5 H6].
    assert (Hkey : ∀ j, j ∈ g_callout_list s → callout_key s' j = callout_key s j).
    { intros j Hj. unfold callout_key. by rewrite Hco, decide_False by auto. }
    split; try done.
    + intros j. rewrite Hco. case_decide; [subst|apply H2]. naive_solver.
    + eapply sorted_by_ext; [|done]. intros j Hj. by rewrite Hkey.
    + intros j Hj. rewrite Hkey; auto.
    + intros j Hj. rewrite Hco, decide_False; auto.
    + intros j q Hj. rewrite Hco, decide_False; [by apply H6|]. intros ->. by destruct (Hnw q).
Qed.

(** *** The tick *)

Definition due (s : kstate) (c : nat) : bool := callout_key s c =? 0.

(** Callouts of [l] whose event the tick appends to the queue [q]. *)
Definition posts (s : kstate) (q : nat) (c : nat) : bool :=
  due s c && bool_decide (c_evq (callout_of s c) = Some q) &&
  negb (ev_queued (event_of s (EvCallout c))).

Record tick_post (s : kstate) (l : list nat) (s' : kstate) : Prop := {
  tp_time : g_os_time s' = g_os_time s;
  tp_current : g_current_task s' = g_current_task s;
  tp_prio : ∀ t, task_prio s' t = task_prio s t;
  tp_ready : ∀ t, task_state s t = OS_TASK_READY → task_state s' t = OS_TASK_READY;
  tp_callouts : ∀ c, c_evq (callout_of s' c) = c_evq (callout_of s c) ∧
                     c_ticks (callout_of s' c) = c_ticks (callout_of s c);
  tp_list : g_callout_list s' = filter (λ c, due s c = false) l;
  tp_queue : ∀ q, evq_list (eventq_of s' q) =
    evq_list (eventq_of s q) ++ (EvCallout <$> filter (λ c, posts s q c = true) l);
  tp_timed : ∀ t, no_timeout s t = false → task_core (task_of s' t) = task_core (task_of s t);
}.

Lemma tick_post_quit s l :
  g_callout_list s = l → (∀ c, c ∈ l → due s c = false) → tick_post s l s.
Proof.
  intros Hl Hd. split; try done.
  - by rewrite list_filter_all_true.
  - intros q. rewrite (list_filter_none (λ c, posts s q c = true)), app_nil_r; [done|].
    intros c Hc. unfold posts. by rewrite Hd.
Qed.

(** In due order nothing is due behind a callout that is not. *)
Lemma due_head lo s c l :
  0 <= lo → callout_ok lo s → g_callout_list s = c :: l → due s c = false →
  ∀ j, j ∈ c :: l → due s j = false.
Proof.
  intros Hlo [_ _ H3 H4 _ _] Hl Hd j Hj. rewrite Hl in H3, H4. unfold due in *.
  pose proof (sorted_by_head_le _ _ _ _ H3 Hj).
  pose proof (H4 c ltac:(by left)). apply Z.eqb_neq in Hd. apply Z.eqb_neq. lia.
Qed.

Lemma due_test lo s c l :
  callout_ok lo s → g_callout_list s = c :: l →
  OS_TIME_TICK_GEQ (g_os_time s) (c_ticks (callout_of s c)) = due s c.
Proof.
  intros [_ _ _ H4 _ _] Hl. apply tick_geq_until. apply (H4 c). rewrite Hl. by left.
Qed.

(** One round: the first callout is due, is unlinked and its event is put on its
    queue. *)
Lemma tick_post_step s c l q s1 s' :
  g_callout_list s = c :: l → NoDup (c :: l) → due s c = true → c_evq (callout_of s c) = Some q →
  put_post q (EvCallout c) (unlink_callout_st c l s) s1 →
  tick_post s1 l s' → tick_post s (c :: l) s'.
Proof.
  intros Hl [Hc _]%NoDup_cons Hd Hq Hput [T1 T2 T3 T4 T5 T6 T7 T8]. set (s0 := unlink_callout_st c l s) in *.
  assert (Hsum : g_os_time s1 = g_os_time s ∧ g_current_task s1 = g_current_task s ∧
    (∀ t, task_prio s1 t = task_prio s t) ∧
    (∀ t, task_state s t = OS_TASK_READY → task_state s1 t = OS_TASK_READY) ∧
    (∀ t, no_timeout s t = false → task_core (task_of s1 t) = task_core (task_of s t)) ∧
    callouts s1 = callouts s0 ∧
    (∀ e, e ≠ EvCallout c → ev_queued (event_of s1 e) = ev_queued (event_of s e)) ∧
    (∀ j, evq_list (eventq_of s1 j) =
      evq_list (eventq_of s j) ++ (EvCallout <$> filter (λ c, posts s j c = true) [c]))).
  { unfold put_post in Hput. change (event_of s0) with (event_of s) in Hput.
    change (eventq_of s0) with (eventq_of s) in Hput.
    assert (Hp : ∀ j, posts s j c =
      bool_decide (q = j) && negb (ev_queued (event_of s (EvCallout c)))).
    { intros j. unfold posts. rewrite Hd, Hq. simpl. by rewrite (bool_decide_ext _ (q = j)) by naive_solver. }
    destruct (ev_queued (event_of s (EvCallout c))) eqn:Hev.
    - subst s1. split_and!; try done. intros j. rewrite filter_cons_False; [by rewrite app_nil_r|].
      by rewrite Hp, andb_false_r.
    - destruct Hput as (F & Hq1 & He1 & _). split_and!; try apply F.
      + intros e He. by rewrite He1, bool_decide_false.
      + intros j. destruct (decide (q = j)) as [<-|Hne].
        * rewrite Hq1, filter_cons_True; [done|]. by rewrite Hp, bool_decide_true.
        * rewrite (pf_eventq _ _ _ F) by congruence. rewrite filter_cons_False; [by rewrite app_nil_r|].
          by rewrite Hp, bool_decide_false. }
  destruct Hsum as (E1 & E2 & E3 & E4 & E8 & E5 & E6 & E7).
  assert (Hco : ∀ j, c_evq (callout_of s1 j) = c_evq (callout_of s j) ∧
    c_ticks (callout_of s1 j) = c_ticks (callout_of s j)).
  { intros j. unfold callout_of at 1 3. rewrite E5. fold (callout_of s0 j). unfold s0.
    rewrite unlink_callout_of. case_decide; by subst. }
  assert (Hdue : ∀ j, due s1 j = due s j).
  { intros j. unfold due, callout_key. by rewrite E1, (proj2 (Hco j)). }
  split.
  - congruence.
  - congruence.
  - intros t. by rewrite T3.
  - auto.
  - intros j. destruct (T5 j) as [-> ->]. apply Hco.
  - rewrite T6, filter_cons_False by congruence. apply list_filter_iff. intros j. by rewrite Hdue.
  - intros j. rewrite T7, E7, <- (assoc_L (++)). f_equal.
    rewrite (list_filter_ext_in (posts s1 j) (posts s j) l), <- fmap_app, <- filter_app; [done|].
    intros k Hk. unfold posts. rewrite Hdue, (proj1 (Hco k)), E6; [done|]. by intros [= ->].
  - intros t Ht. assert (Hcore := E8 t Ht). rewrite T8; [done|].
    unfold no_timeout, task_core in *. congruence.
Qed.

Lemma callout_ok_strengthen s :
  callout_ok 0 s → (∀ c, c ∈ g_callout_list s → due s c = false) → callout_ok 1 s.
Proof.
  intros [H1 H2 H3 H4 H5 H6] Hd. split; try done. intros c Hc. specialize (H4 c Hc).
  specialize (Hd c Hc). apply Z.eqb_neq in Hd. lia.
Qed.

Lemma kinv_strengthen_callout lo_s s :
  kinv lo_s 0 s → (∀ c, c ∈ g_callout_list s → due s c = false) → kinv lo_s 1 s.
Proof.
  intros [[H1 H2 H3 H4 H5 H6 H7 H8 H9] Hcr] Hd. split; [|done]. split; try done.
  by apply callout_ok_strengthen.
Qed.

Lemma callout_tick_loop_spec lo_s l : ∀ fuel s,
  kinv lo_s 0 s → g_callout_list s = l → (length l <= fuel)%nat →
  wp (callout_tick_loop fuel (g_os_time s)) (λ _ s', kinv lo_s 1 s' ∧ tick_post s l s') s.
Proof.
  induction l as [|c l IH]; intros fuel s Hk Hl Hfuel; pose proof (ki_callout _ _ _ (proj1 Hk)) as Hco.
  { assert (Hq : kinv lo_s 1 s ∧ tick_post s [] s).
    { split; [apply kinv_strengthen_callout; [done|rewrite Hl; set_solver]|].
      apply tick_post_quit; set_solver. }
    destruct fuel; simpl; k_simp; rewrite Hl; by apply wp_ret. }
  destruct fuel as [|fuel]; [simpl in Hfuel; lia|].
  pose proof (due_test _ s c l Hco Hl) as Htest. simpl. k_simp. rewrite Hl, Htest.
  destruct (due s c) eqn:Hd.
  - pose proof (co_nodup _ _ Hco) as Hnd. rewrite Hl in Hnd.
    destruct (co_evq _ _ Hco c) as [q Hq]; [rewrite Hl; by left|].
    assert (Hk0 : kinv lo_s 0 (unlink_callout_st c l s)).
    { apply kinv_unlink_callout; [|done]. rewrite Hl. simpl. by rewrite decide_True. }
    k_simp. rewrite Hq. k_simp. fold (unlink_callout_st c l s). eapply wp_mono.
    { apply (os_eventq_put2_spec lo_s 0); [done|]. intros k [= <-]. by rewrite unlink_callout_evq. }
    intros ? s1 (Hk1 & Hput).
    assert (Hs1 : g_os_time s1 = g_os_time s ∧ g_callout_list s1 = l).
    { unfold put_post in Hput. destruct (ev_queued _); [by subst s1|].
      destruct Hput as (F & _). split; apply F. }
    destruct Hs1 as [Ht1 Hl1]. rewrite <- Ht1. eapply wp_mono.
    { apply (IH fuel s1 Hk1 Hl1). simpl in Hfuel. lia. }
    intros ? s' [Hk' Hp']. split; [done|]. by eapply tick_post_step.
  - pose proof (due_head 0 s c l ltac:(lia) Hco Hl Hd) as Hall. apply wp_ret.
    split; [by apply kinv_strengthen_callout; [|rewrite Hl]|by apply tick_post_quit].
Qed.

(** The tick takes every due callout off the list and appends its event to its
    queue, in due order; the others stay armed. *)
Lemma os_callout_tick_spec lo_s s :
  kinv lo_s 0 s →
  wp os_callout_tick (λ _ s', kinv lo_s 1 s' ∧ tick_post s (g_callout_list s) s') s.
Proof.
  intros Hk. unfold os_callout_tick, os_time_get. k_simp. by apply callout_tick_loop_spec.
Qed.
