(* ===== verification/OsSanity.v ===== *)
(** The sanity checks (a software watchdog): libs/os/src/os_sanity.c.

    The list of checks is protected by a mutex; a caller that has to wait for it
    is blocked in [os_mutex_pend], and the functions below that take the lock
    return [None] then.  [sanity_locked] is what they do once they are past the
    lock. *)
From Stdlib Require Import ZArith Lia.
From stdpp Require Import base decidable list numbers gmap.
From S2P Require Import Prelude.
From S2P Require Import OsState.
From S2P Require Import OsSched.
From S2P Require Import OsInv.
From S2P Require Import OsMutex.

#[local] Open Scope Z_scope.

(** ** Operations *)

Definition g_os_sanity_check_mu : nat := 0%nat.

Definition os_sanity_check_init (sc : scid) : K os_error :=
  modify (upd_sanity sc (λ _, mk_sanity_check 0 0 None)) ;;
  mret OS_OK.

Definition os_sanity_check_list_lock : K (option os_error) :=
  started ← gets g_os_started;
  if negb started then mret (Some OS_OK)
  else os_mutex_pend (Some g_os_sanity_check_mu) OS_WAIT_FOREVER.

Definition os_sanity_check_list_unlock : K os_error :=
  started ← gets g_os_started;
  if negb started then mret OS_OK
  else os_mutex_release (Some g_os_sanity_check_mu).

(** From the return of the lock function to the end. *)
Definition sanity_locked (body : K unit) (rc : os_error) : K os_error :=
  if bool_decide (rc ≠ OS_OK) then mret rc
  else
    body ;;
    rc ← os_sanity_check_list_unlock;
    mret rc.

Definition with_sanity_lock (body : K unit) : K (option os_error) :=
  r ← os_sanity_check_list_lock;
  match r with
  | None => mret None
  | Some rc => rc ← sanity_locked body rc; mret (Some rc)
  end.

Definition os_sanity_check_register (sc : scid) : K (option os_error) :=
  with_sanity_lock
    (modify (λ s, set_g_os_sanity_check_list (sc :: g_os_sanity_check_list s) s)).

Definition os_sanity_check_reset (sc : scid) : K (option os_error) :=
  with_sanity_lock
    (now ← os_time_get; modify (upd_sanity sc (set_sc_checkin_last now))).

(** One pass over the list by the sanity task; [sc_call f sc] is the call of the
    application's check function. *)
Section pass.
Context (sc_call : nat → scid → K os_error).

(** [rc]: the check function's verdict, [OS_OK] when there is none. *)
Definition sanity_check_one (sc : scid) : K unit :=
  s ← get;
  rc ← (match sc_func (sanity_of s sc) with
        | Some f => rc ← sc_call f sc; mret (Some rc)
        | None => mret None
        end : K (option os_error));
  if bool_decide (rc = Some OS_OK) then
    now ← os_time_get;
    modify (upd_sanity sc (set_sc_checkin_last now))
  else
    now ← os_time_get;
    s ← get;
    if OS_TIME_TICK_GT (u32 (now - sc_checkin_last (sanity_of s sc)))
         (sc_checkin_itvl (sanity_of s sc))
    then assert_ false else mret tt.

Fixpoint sanity_pass (l : list scid) : K unit :=
  match l with
  | [] => mret tt
  | sc :: l => sanity_check_one sc ;; sanity_pass l
  end.

(** An iteration of [os_sanity_task_loop] from the return of the lock function
    to the delay ([true]: the task sleeps now). *)
Definition os_sanity_task_iter (rc : os_error) : K bool :=
  (if bool_decide (rc ≠ OS_OK) then assert_ false else mret tt) ;;
  s ← get;
  sanity_pass (g_os_sanity_check_list s) ;;
  rc ← os_sanity_check_list_unlock;
  (if bool_decide (rc ≠ OS_OK) then assert_ false else mret tt) ;;
  os_time_delay OS_TICKS_PER_SEC.
End pass.

(** ** Specifications *)

Lemma sanity_of_upd k f s j :
  sanity_of (upd_sanity k f s) j = if decide (k = j) then f (sanity_of s k) else sanity_of s j.
Proof.
  unfold sanity_of, upd_sanity. simpl. case_decide; subst.
  - by rewrite lookup_total_insert_eq.
  - by rewrite lookup_total_insert_ne.
Qed.

(** A check is overdue when more than its interval has passed since the last
    check-in. *)
Definition overdue (s : kstate) (sc : scid) : bool :=
  OS_TIME_TICK_GT (u32 (g_os_time s - sc_checkin_last (sanity_of s sc)))
    (sc_checkin_itvl (sanity_of s sc)).

(** [elapsed] ticks after a check-in the check is overdue exactly when
    [elapsed] exceeds the interval, across the wrap-around of the clock. *)
Lemma overdue_elapsed s sc elapsed :
  g_os_time s = u32 (sc_checkin_last (sanity_of s sc) + elapsed) →
  0 <= elapsed < 2147483648 → 0 <= sc_checkin_itvl (sanity_of s sc) < 2147483648 →
  overdue s sc = (sc_checkin_itvl (sanity_of s sc) <? elapsed).
Proof.
  intros Ht He Hi. unfold overdue, OS_TIME_TICK_GT. rewrite Ht. wrap_lia.
Qed.

(** Without check functions the pass reads only: it goes through exactly when no
    check of the list is overdue, and asserts otherwise. *)
Lemma sanity_pass_run sc_call l s :
  (∀ sc, sc ∈ l → sc_func (sanity_of s sc) = None) →
  sanity_pass sc_call l s =
    if existsb (overdue s) l then Fault FAssert else Ret (tt, s).
Proof.
  induction l as [|sc l IH]; intros Hf; [done|]. simpl. fold (overdue s sc).
  unfold mbind at 1, M_bind at 1. unfold sanity_check_one.
  unfold mbind, M_bind, get, os_time_get, gets. rewrite Hf by left. simpl.
  fold (overdue s sc).
  destruct (overdue s sc); [done|]. simpl. apply IH. intros; apply Hf; by right.
Qed.

(** Before the OS is started the lock is not needed. *)
Lemma os_sanity_check_register_boot sc s :
  g_os_started s = false →
  os_sanity_check_register sc s =
    Ret (Some OS_OK, set_g_os_sanity_check_list (sc :: g_os_sanity_check_list s) s).
Proof.
  intros Hs. unfold os_sanity_check_register, with_sanity_lock, os_sanity_check_list_lock.
  unfold mbind, M_bind, gets. rewrite Hs. simpl. unfold sanity_locked.
  rewrite bool_decide_false by naive_solver. unfold mbind, M_bind, modify.
  unfold os_sanity_check_list_unlock, mbind, M_bind, gets. simpl. by rewrite Hs.
Qed.

(** Once the OS runs, an uncontended register or check-in takes the mutex, does
    its work and gives the mutex back; [body] is any update of the sanity
    checks. *)
Lemma with_sanity_lock_spec s c (g : kstate → kstate) :
  kinv 1 1 s → pendsv s = false → g_current_task s = Some c →
  mu_level (mutex_of s g_os_sanity_check_mu) = 0 →
  (∀ x, kinv 1 1 x → kinv 1 1 (g x)) →
  (∀ x, mutexes (g x) = mutexes x ∧ g_current_task (g x) = g_current_task x ∧
        pendsv (g x) = pendsv x ∧ tasks (g x) = tasks x) →
  wp (with_sanity_lock (modify g)) (λ r s',
    r = Some OS_OK ∧ kinv 1 1 s' ∧ g_current_task s' = Some c ∧
    mu_level (mutex_of s' g_os_sanity_check_mu) = 0 ∧
    (∀ t, task_prio s' t = task_prio s t) ∧
    pendsv s' = bool_decide (head (g_os_run_list s') ≠ Some c)) s.
Proof.
  intros Hk Hp Hc Hl Hg Hf. unfold with_sanity_lock, os_sanity_check_list_lock. k_simp.
  rewrite (ki_started _ _ _ (proj1 Hk)). cbn [negb].
  eapply wp_mono; [by apply os_mutex_pend_free|].
  intros ? s1 (-> & Hk1 & Ht1 & Hr1 & Hc1 & Hp1 & Hmu). k_simp. unfold sanity_locked.
  rewrite bool_decide_false by naive_solver. k_simp.
  destruct (Hf s1) as (Em & Ec & Ep & Et). pose proof (Hg s1 Hk1) as Hk2.
  unfold os_sanity_check_list_unlock. k_simp. rewrite (ki_started _ _ _ (proj1 Hk2)). cbn [negb].
  assert (Hmu2 : mutex_of (g s1) g_os_sanity_check_mu = mk_mutex [] (task_prio s c) 1 (Some c))
    by (unfold mutex_of; rewrite Em; exact Hmu).
  eapply wp_mono.
  { apply (os_mutex_release_last (g s1) g_os_sanity_check_mu c); rewrite ?Hmu2; try done; congruence. }
  intros rc s' (-> & (Hk' & Hc' & Hh & Hpr) & Hp'). k_simp. unfold handed_over in Hh.
  rewrite Hmu2 in Hh, Hpr. simpl in Hh, Hpr. destruct Hh as (_ & Hl' & _).
  split_and!; try done. intros t. rewrite Hpr. unfold task_prio, task_of.
  rewrite Et, Ht1. by destruct (decide (c = t)) as [->|].
Qed.

(** The sanity checks are no part of the kernel invariant. *)
Lemma kinv_sanity lo_s lo_c s s' :
  kinv lo_s lo_c s →
  tasks s' = tasks s → g_os_run_list s' = g_os_run_list s → g_os_sleep_list s' = g_os_sleep_list s →
  g_current_task s' = g_current_task s → g_os_time s' = g_os_time s →
  g_os_started s' = g_os_started s → sems s' = sems s → mutexes s' = mutexes s →
  queue_eq s s' → kinv lo_s lo_c s'.
Proof.
  intros [[H1 H2 H3 H4 H5 H6 H7 H8 H9] (c & Hc & Hr)] Et Er Es Ec Eti Est Esem Emu Q.
  assert (C : core_eq s s').
  { split; [intros t; unfold task_of; by rewrite Et|done..]. }
  split; [split|].
  - by rewrite <- C.
  - intros k. unfold sem_ok, sem_of. rewrite Esem. apply H2.
  - intros k. unfold mutex_ok, mutex_of. rewrite Emu. apply H3.
  - destruct H4 as [Ha Hb]. unfold eventq_of in *. split; unfold eventq_of;
      rewrite (qe_eventqs _ _ Q); [|done]. intros q t. unfold task_state, no_timeout, task_of.
    rewrite Et. apply Ha.
  - by eapply ev_ok_eq.
  - by eapply callout_ok_eq.
  - by rewrite Ec.
  - by rewrite <- (core_eq_state s s').
  - by rewrite Est.
  - exists c. rewrite Ec. split; [done|]. by rewrite <- (core_eq_state s s').
Qed.

Lemma os_sanity_check_register_spec s c sc :
  kinv 1 1 s → pendsv s = false → g_current_task s = Some c →
  mu_level (mutex_of s g_os_sanity_check_mu) = 0 →
  wp (os_sanity_check_register sc) (λ r s',
    r = Some OS_OK ∧ kinv 1 1 s' ∧ g_current_task s' = Some c ∧
    mu_level (mutex_of s' g_os_sanity_check_mu) = 0 ∧
    (∀ t, task_prio s' t = task_prio s t) ∧
    pendsv s' = bool_decide (head (g_os_run_list s') ≠ Some c)) s.
Proof.
  intros Hk Hp Hc Hl. apply with_sanity_lock_spec; try done.
  intros x Hx. by eapply kinv_sanity.
Qed.
