(* ===== verification/OsTask.v ===== *)
(** Tasks: libs/os/src/os_task.c, the idle task of os.c, and the initial stack
    frame and start of the Cortex-M4 port (os_arch_arm.c). *)
From Stdlib Require Import ZArith Lia.
From stdpp Require Import base decidable list numbers gmap.
From S2P Require Import Prelude.
From S2P Require Import OsState.
From S2P Require Import OsSched.
From S2P Require Import OsInv.
From S2P Require Import OsMutex.
From S2P Require Import OsSanity.

#[local] Open Scope Z_scope.

(** ** Operations *)

Definition OS_STACK_PATTERN : Z := 3735928559.   (* 0xdeadbeef *)
Definition INITIAL_xPSR : Z := 16777216.         (* 0x01000000 *)
Definition STACK_FRAME_WORDS : nat := 16.        (* sizeof(struct stack_frame) / 4 *)

(** The loop of [_clear_stack]. *)
Fixpoint clear_stack_loop (i : nat) (n : nat) (stack : list Z) : list Z :=
  match n with
  | O => stack
  | S n => clear_stack_loop (S i) n (<[i := OS_STACK_PATTERN]> stack)
  end.
Definition _clear_stack (stack : list Z) (size : nat) : list Z := clear_stack_loop 0 size stack.

(** [os_arch_task_stack_init]: writes the frame a task starts from at the top of
    its stack; [regs] are the values of R4 to R11 at the call, which
    [os_arch_init_task_stack] stores.  A stack that cannot hold the frame would
    be overrun. *)
Definition write_words (base : nat) (ws : list Z) (stack : list Z) : list Z :=
  list_inserts base ws stack.

Definition os_arch_task_stack_init (regs : list Z) (func arg : Z) (stack : list Z) (size : nat) :
    option (list Z) :=
  if decide (size < STACK_FRAME_WORDS)%nat then None
  else
    let s := (size - STACK_FRAME_WORDS)%nat in
    let stack := write_words (s + 9) [0; 0; 0; 0; 0] stack in
    let stack := write_words s regs stack in
    let stack := <[(s + 15)%nat := INITIAL_xPSR]> stack in
    let stack := <[(s + 14)%nat := func]> stack in
    Some (<[(s + 8)%nat := arg]> stack).

Definition os_task_next_id : K Z :=
  rc ← gets g_task_id;
  modify (λ s, set_g_task_id (u8 (g_task_id s + 1)) s) ;;
  mret rc.

Definition os_task_count : K Z := gets g_task_id.

Definition os_task_sanity_checkin (t : option tid) : K (option os_error) :=
  current ← os_sched_get_current_task;
  t ← from_option_fault FNull (match t with Some t => Some t | None => current end);
  os_sanity_check_reset (ScTask t).

(** What follows a registration of the sanity check that did not fail. *)
Definition os_task_init_tail (t : tid) (regs : list Z) (func arg : Z)
    (stack : list Z) (stack_size : Z) : K os_error :=
  stk ← from_option_fault FNull
    (os_arch_task_stack_init regs func arg (_clear_stack stack (Z.to_nat stack_size))
       (Z.to_nat stack_size));
  modify (upd_task t (set_t_stack stk)) ;;
  modify (upd_task t (set_t_stacksize stack_size)) ;;
  modify (λ s, set_g_os_task_list (g_os_task_list s ++ [t]) s) ;;
  os_sched_insert t.

(** [None]: the caller waits for the lock of the sanity checks. *)
Definition os_task_init (t : tid) (regs : list Z) (func arg prio sanity_itvl : Z)
    (stack : list Z) (stack_size : Z) : K (option os_error) :=
  modify (upd_task t (λ _, mk_task 0 OS_TASK_UNINIT 0 None 0 0 0 0 0 [])) ;;
  id ← os_task_next_id;
  modify (upd_task t (set_t_taskid id)) ;;
  modify (upd_task t (set_t_prio prio)) ;;
  modify (upd_task t (set_t_state OS_TASK_READY)) ;;
  modify (upd_task t (set_t_next_wakeup 0)) ;;
  rc ← os_sanity_check_init (ScTask t);
  if bool_decide (rc ≠ OS_OK) then mret (Some rc)
  else
    r ← (if negb (sanity_itvl =? OS_WAIT_FOREVER) then
           modify (upd_sanity (ScTask t) (set_sc_checkin_itvl sanity_itvl)) ;;
           os_sanity_check_register (ScTask t)
         else mret (Some OS_OK));
    match r with
    | None => mret None
    | Some rc =>
        if bool_decide (rc ≠ OS_OK) then mret (Some rc)
        else rc ← os_task_init_tail t regs func arg stack stack_size; mret (Some rc)
    end.

Record os_task_info := mk_task_info {
  oti_prio : Z;
  oti_taskid : Z;
  oti_state : os_task_state;
  oti_stkusage : Z;
  oti_stksize : Z;
  oti_cswcnt : Z;
  oti_runtime : Z;
  oti_last_checkin : Z;
  oti_next_checkin : Z;
}.

(** The [while (bottom < top)] loop: words of pattern from the bottom. *)
Fixpoint stack_unused (stack : list Z) : nat :=
  match stack with
  | [] => O
  | w :: stack => if w =? OS_STACK_PATTERN then S (stack_unused stack) else O
  end.

Definition os_task_info_get_next (prev : option tid) : K (option (tid * os_task_info)) :=
  s ← get;
  let next := match prev with
              | Some p => next_of p (g_os_task_list s)
              | None => head (g_os_task_list s)
              end in
  match next with
  | None => mret None
  | Some t =>
      let k := task_of s t in
      let sc := sanity_of s (ScTask t) in
      mret (Some (t, mk_task_info (t_prio k) (t_taskid k) (t_state k)
        (u16 (t_stacksize k - Z.of_nat (stack_unused (t_stack k)))) (t_stacksize k)
        (t_ctx_sw_cnt k) (t_run_time k) (sc_checkin_last sc)
        (u32 (sc_checkin_last sc + sc_checkin_itvl sc))))
  end.

Definition OS_IDLE_STACK_SIZE : Z := 32.

Definition os_init_idle_task (regs : list Z) (func : Z) (stack : list Z) : K (option os_error) :=
  os_task_init g_idle_task regs func 0 OS_IDLE_PRIO OS_WAIT_FOREVER stack OS_IDLE_STACK_SIZE.

Definition OS_SANITY_STACK_SIZE : Z := 64.

(** The sanity task is an ordinary task; [t] is [g_os_sanity_task]. *)
Definition os_sanity_task_init (t : tid) (regs : list Z) (func : Z) (stack : list Z) :
    K (option os_error) :=
  rc ← os_mutex_init (Some g_os_sanity_check_mu);
  if bool_decide (rc ≠ OS_OK) then mret (Some rc)
  else os_task_init t regs func 0 OS_SANITY_PRIO OS_WAIT_FOREVER stack OS_SANITY_STACK_SIZE.

(** [os_arch_start]: the highest ready task becomes current and the OS is marked
    as started. *)
Definition os_arch_start : K unit :=
  t ← os_sched_next_task;
  os_sched_set_current_task t ;;
  t ← from_option_fault FNull t;
  modify (set_g_os_started true) ;;
  os_arch_ctx_sw t.

(** ** Stacks *)

Lemma clear_stack_loop_spec n : ∀ i stack,
  length stack = (i + n)%nat →
  clear_stack_loop i n stack = take i stack ++ replicate n OS_STACK_PATTERN.
Proof.
  induction n as [|n IH]; intros i stack Hlen; simpl.
  - rewrite app_nil_r, take_ge; [done|lia].
  - rewrite IH by (rewrite length_insert; lia).
    rewrite (take_S_r _ i OS_STACK_PATTERN) by (apply list_lookup_insert_eq; lia).
    rewrite take_insert_ge by lia. by rewrite <- (assoc_L (++)).
Qed.

Lemma clear_stack_spec stack size :
  length stack = size → _clear_stack stack size = replicate size OS_STACK_PATTERN.
Proof. intros Hlen. unfold _clear_stack. by rewrite clear_stack_loop_spec. Qed.

(** The frame a new task starts from. *)
Definition initial_frame (regs : list Z) (func arg : Z) : list Z :=
  regs ++ [arg; 0; 0; 0; 0; 0; func; INITIAL_xPSR].

Lemma stack_init_spec regs func arg size :
  length regs = 8%nat → (STACK_FRAME_WORDS <= size)%nat →
  os_arch_task_stack_init regs func arg (replicate size OS_STACK_PATTERN) size =
    Some (replicate (size - STACK_FRAME_WORDS) OS_STACK_PATTERN ++ initial_frame regs func arg).
Proof.
  intros Hr Hs. unfold os_arch_task_stack_init. rewrite decide_False by lia. f_equal.
  set (n := (size - STACK_FRAME_WORDS)%nat).
  replace size with (n + 16)%nat by (unfold n, STACK_FRAME_WORDS in *; lia).
  do 8 (destruct regs as [|? regs]; [done|]). destruct regs; [|done].
  rewrite replicate_add. unfold write_words, initial_frame.
  assert (Hn : n = length (replicate n OS_STACK_PATTERN)) by by rewrite length_replicate.
  revert Hn. generalize (replicate n OS_STACK_PATTERN) as l. intros l ->.
  rewrite list_inserts_app_r, <- (Nat.add_0_r (length l)), list_inserts_app_r.
  rewrite !Nat.add_0_r, !insert_app_r. done.
Qed.

(** The usage reported by [os_task_info_get_next] is the distance from the top
    of the stack to the lowest word that lost the pattern. *)
Lemma stack_unused_spec stack :
  (stack_unused stack <= length stack)%nat ∧
  take (stack_unused stack) stack = replicate (stack_unused stack) OS_STACK_PATTERN ∧
  (∀ w, stack !! stack_unused stack = Some w → w ≠ OS_STACK_PATTERN).
Proof.
  induction stack as [|w l (IH1 & IH2 & IH3)]; simpl; [split_and!; [lia|done|done]|].
  destruct (Z.eqb_spec w OS_STACK_PATTERN) as [->|Hne]; simpl.
  - split_and!; [lia|by rewrite IH2|done].
  - split_and!; [lia|done|]. by intros ? [= <-].
Qed.

Lemma stack_unused_frame regs func arg n :
  head regs ≠ Some OS_STACK_PATTERN → regs ≠ [] →
  stack_unused (replicate n OS_STACK_PATTERN ++ initial_frame regs func arg) = n.
Proof.
  intros Hh Hne. induction n as [|n IH]; [|simpl; by rewrite IH].
  destruct regs as [|w regs]; [done|]. simpl. rewrite (proj2 (Z.eqb_neq _ _)); [done|].
  intros ->. by destruct Hh.
Qed.

(** ** A new task *)

(** The invariant before the OS is started: [kbase] but for the current task,
    the idle task and the started flag. *)
Record kboot (s : kstate) : Prop := {
  kb_sched : sched_inv 1 s;
  kb_sem : ∀ k, sem_ok s k;
  kb_mutex : ∀ k, mutex_ok s k;
  kb_evq : evq_ok s;
  kb_ev : ev_ok s;
  kb_callout : callout_ok 1 s;
}.

Lemma kbase_kboot s :
  kbase 1 1 s ↔ kboot s ∧ is_Some (g_current_task s) ∧
    task_state s g_idle_task = OS_TASK_READY ∧ g_os_started s = true.
Proof. split; [intros []; by split_and!|]. intros ([] & ? & ? & ?). by split. Qed.

(** [s'] is [s] with the task [t], which was not initialised, ready to run as
    described by [k]. *)
Record new_task (s : kstate) (t : tid) (k : os_task) (s' : kstate) : Prop := {
  nt_task : ∀ u, task_of s' u = if decide (t = u) then k else task_of s u;
  nt_run : g_os_run_list s' =
    insert_before (λ e, t_prio k <? task_prio s e) t (g_os_run_list s);
  nt_sleep : g_os_sleep_list s' = g_os_sleep_list s;
  nt_time : g_os_time s' = g_os_time s;
  nt_sems : sems s' = sems s;
  nt_mutexes : mutexes s' = mutexes s;
  nt_queue : queue_eq s s';
  nt_current : g_current_task s' = g_current_task s;
  nt_started : g_os_started s' = g_os_started s;
  nt_pendsv : pendsv s' = pendsv s;
}.

Lemma new_task_sched s t k s' :
  new_task s t k s' → sched_ok s → task_state s t = OS_TASK_UNINIT → t_state k = OS_TASK_READY →
  sched_ok s'.
Proof.
  intros N [H1 H2 H3 H4 H5] Hu Hk.
  assert (Hr : t ∉ g_os_run_list s) by (rewrite H3, Hu; done).
  assert (Hs : t ∉ g_os_sleep_list s) by (rewrite H4, Hu; done).
  assert (Hst : ∀ u, task_state s' u = if decide (t = u) then OS_TASK_READY else task_state s u).
  { intros u. unfold task_state. rewrite (nt_task _ _ _ _ N). by case_decide. }
  assert (Hp : ∀ u, task_prio s' u = if decide (t = u) then t_prio k else task_prio s u).
  { intros u. unfold task_prio. rewrite (nt_task _ _ _ _ N). by case_decide. }
  split; rewrite ?(nt_run _ _ _ _ N), ?(nt_sleep _ _ _ _ N); [by apply NoDup_insert_before|done|..].
  - intros u. rewrite elem_of_insert_before, H3, Hst. case_decide; naive_solver.
  - intros u. rewrite H4, Hst. case_decide; naive_solver.
  - rewrite (insert_before_ext _ (λ e, task_prio s' t <? task_prio s' e)).
    + apply sorted_by_insert. eapply sorted_by_ext; [|done]. intros u Hin.
      rewrite Hp, decide_False; [done|congruence].
    + intros u Hin. rewrite !Hp, decide_True, decide_False by congruence. done.
Qed.

Lemma kboot_new_task s t k s' :
  new_task s t k s' → kboot s → task_state s t = OS_TASK_UNINIT →
  t_state k = OS_TASK_READY → t_obj k = None → t_flags k = 0 → kboot s'.
Proof.
  intros N [(Hs & Hsl & Hw & Ha) H2 H3 H4 H5 H6] Hu Hk Ho Hf.
  pose proof (nt_task _ _ _ _ N) as Ht. pose proof (nt_queue _ _ _ _ N) as Q.
  assert (Hobj : t_obj (task_of s t) = None).
  { destruct (t_obj (task_of s t)) eqn:E; [|done]. apply Ha in E. congruence. }
  assert (Hnt : no_timeout s t = false).
  { destruct (no_timeout s t) eqn:E; [|done]. apply Hsl in E. congruence. }
  assert (Hsn : t ∉ g_os_sleep_list s) by (rewrite (so_sleep _ Hs), Hu; done).
  assert (Hn : ∀ u, no_timeout s' u = no_timeout s u).
  { intros u. unfold no_timeout in *. rewrite Ht. case_decide; [subst|done]. by rewrite Hf, Hnt. }
  assert (Hob : ∀ u, t_obj (task_of s' u) = t_obj (task_of s u)).
  { intros u. rewrite Ht. case_decide; subst; congruence. }
  assert (Hhead : ∀ o, obj_head s' o = obj_head s o).
  { intros [j|j]; simpl; unfold sem_of, mutex_of;
      [by rewrite (nt_sems _ _ _ _ N)|by rewrite (nt_mutexes _ _ _ _ N)]. }
  assert (Hst : ∀ u, task_state s u = OS_TASK_SLEEP → task_state s' u = OS_TASK_SLEEP).
  { intros u Hus. unfold task_state. rewrite Ht, decide_False; [done|]. intros ->. congruence. }
  split.
  - split_and!; [by eapply new_task_sched|split|split|].
    + rewrite (nt_sleep _ _ _ _ N). eapply sorted_by_ext; [|apply Hsl]. intros u Hin.
      unfold wake_key. by rewrite Hn, (nt_time _ _ _ _ N), Ht, decide_False by congruence.
    + intros u. rewrite (nt_sleep _ _ _ _ N), Hn, (nt_time _ _ _ _ N), Ht. intros Hin.
      rewrite decide_False by congruence. by apply Hsl.
    + intros u. rewrite Hn. intros Hin. by apply Hst, Hsl.
    + intros u o. rewrite Hob, Hhead. apply Hw.
    + intros o. rewrite Hhead. apply Hw.
    + intros u o. rewrite Hob. intros Hin. apply Hst. by eapply Ha.
  - intros j. unfold sem_ok, sem_of. rewrite (nt_sems _ _ _ _ N). apply H2.
  - intros j. unfold mutex_ok, mutex_of. rewrite (nt_mutexes _ _ _ _ N). apply H3.
  - destruct H4 as [Ha1 Hb1]. unfold eventq_of in *. split; unfold eventq_of;
      rewrite (qe_eventqs _ _ Q); [|done]. intros q u Hq. rewrite Hob, Hn.
    destruct (Ha1 q u Hq) as (? & ? & ?). split_and!; [by apply Hst|done|done].
  - by eapply ev_ok_eq.
  - by eapply callout_ok_eq.
Qed.

(** The task struct [os_task_init] leaves behind. *)
Definition init_task (prio id : Z) (stk : list Z) (size : Z) : os_task :=
  mk_task prio OS_TASK_READY 0 None 0 0 0 id size stk.

Definition tail_st (t : tid) (stk : list Z) (size : Z) (s : kstate) : kstate :=
  let s := upd_task t (set_t_stack stk) s in
  let s := upd_task t (set_t_stacksize size) s in
  let s := set_g_os_task_list (g_os_task_list s ++ [t]) s in
  insert_st t s.

Lemma os_task_init_tail_run t regs func arg stack size stk s :
  os_arch_task_stack_init regs func arg (_clear_stack stack (Z.to_nat size)) (Z.to_nat size) = Some stk →
  task_state s t = OS_TASK_READY →
  os_task_init_tail t regs func arg stack size s = Ret (OS_OK, tail_st t stk size s).
Proof.
  intros Hi Hr. unfold os_task_init_tail. rewrite Hi.
  unfold mbind, M_bind, modify. cbn [from_option_fault mret M_ret]. unfold mret, M_ret.
  rewrite os_sched_insert_run; [done|]. unfold task_state in *.
  change (task_of (set_g_os_task_list ?l ?x) t) with (task_of x t). by rewrite !task_of_upd_eq.
Qed.

Lemma tail_st_sanity t stk size s sc : sanity_of (tail_st t stk size s) sc = sanity_of s sc.
Proof. done. Qed.
Lemma sanity_of_check_list l s sc : sanity_of (set_g_os_sanity_check_list l s) sc = sanity_of s sc.
Proof. done. Qed.

(** The struct before the stack is set up. *)
Definition head_st (t : tid) (prio : Z) (s : kstate) : kstate :=
  let s := upd_task t (λ _, mk_task 0 OS_TASK_UNINIT 0 None 0 0 0 0 0 []) s in
  let id := g_task_id s in
  let s := set_g_task_id (u8 (g_task_id s + 1)) s in
  let s := upd_task t (set_t_taskid id) s in
  let s := upd_task t (set_t_prio prio) s in
  let s := upd_task t (set_t_state OS_TASK_READY) s in
  let s := upd_task t (set_t_next_wakeup 0) s in
  upd_sanity (ScTask t) (λ _, mk_sanity_check 0 0 None) s.

Lemma head_st_task t prio s u :
  task_of (head_st t prio s) u =
    if decide (t = u) then mk_task prio OS_TASK_READY 0 None 0 0 0 (g_task_id s) 0 []
    else task_of s u.
Proof.
  unfold head_st. change (task_of (upd_sanity ?a ?b ?x) u) with (task_of x u).
  rewrite !task_of_upd. change (task_of (set_g_task_id ?a ?x) ?v) with (task_of x v).
  rewrite !task_of_upd. case_decide; subst; by rewrite ?decide_True.
Qed.

Lemma tail_st_new t prio stk size s s1 :
  (∀ u, task_of s1 u =
    if decide (t = u) then mk_task prio OS_TASK_READY 0 None 0 0 0 (g_task_id s) 0 []
    else task_of s u) →
  task_state s t = OS_TASK_UNINIT → sched_ok s →
  g_os_run_list s1 = g_os_run_list s → g_os_sleep_list s1 = g_os_sleep_list s →
  g_os_time s1 = g_os_time s → sems s1 = sems s → mutexes s1 = mutexes s → queue_eq s s1 →
  g_current_task s1 = g_current_task s → g_os_started s1 = g_os_started s → pendsv s1 = pendsv s →
  new_task s t (init_task prio (g_task_id s) stk size) (tail_st t stk size s1).
Proof.
  intros Ht Hu Hs Er Es Eti Esem Emu [Q1 Q2 Q3 Q4 Q5] Ec Est Ep.
  assert (Ht' : ∀ u, task_of (tail_st t stk size s1) u =
    if decide (t = u) then init_task prio (g_task_id s) stk size else task_of s u).
  { intros u. unfold tail_st, insert_st.
    change (task_of (set_g_os_run_list ?a ?x) u) with (task_of x u).
    change (task_of (set_g_os_task_list ?a ?x) u) with (task_of x u).
    rewrite !task_of_upd, !Ht. case_decide; subst; by rewrite ?decide_True. }
  split; try done.
  assert (Hp : ∀ u, task_prio (tail_st t stk size s1) u = if decide (t = u) then prio else task_prio s u).
  { intros u. unfold task_prio. rewrite Ht'. by case_decide. }
  rewrite <- Er. unfold tail_st, insert_st. cbn [g_os_run_list set_g_os_run_list].
  change (g_os_run_list (set_g_os_task_list _ _)) with (g_os_run_list s1).
  apply insert_before_ext. intros e He.
  change (task_prio (set_g_os_task_list ?a ?x) ?u) with (task_prio (tail_st t stk size s1) u).
  rewrite !Hp, decide_True, decide_False; [done| |done].
  intros <-. rewrite Er in He. apply (so_ready _ Hs) in He. congruence.
Qed.

(** The call does not block: no sanity check is asked for, or the OS is not
    running yet. *)
Lemma os_task_init_spec t regs func arg prio itvl stack size s :
  kboot s → task_state s t = OS_TASK_UNINIT → length regs = 8%nat →
  16 <= size < 65536 → length stack = Z.to_nat size →
  itvl = OS_WAIT_FOREVER ∨ g_os_started s = false →
  wp (os_task_init t regs func arg prio itvl stack size) (λ r s',
    r = Some OS_OK ∧ kboot s' ∧
    new_task s t (init_task prio (g_task_id s)
      (replicate (Z.to_nat size - STACK_FRAME_WORDS) OS_STACK_PATTERN ++
       initial_frame regs func arg) size) s' ∧
    g_os_task_list s' = g_os_task_list s ++ [t] ∧
    g_task_id s' = u8 (g_task_id s + 1) ∧
    (itvl ≠ OS_WAIT_FOREVER →
       g_os_sanity_check_list s' = ScTask t :: g_os_sanity_check_list s ∧
       sc_checkin_itvl (sanity_of s' (ScTask t)) = itvl)) s.
Proof.
  intros Hk Hu Hr Hs Hl Hor. set (stk := _ ++ initial_frame regs func arg).
  assert (Hinit : os_arch_task_stack_init regs func arg (_clear_stack stack (Z.to_nat size))
    (Z.to_nat size) = Some stk).
  { rewrite clear_stack_spec by done. apply stack_init_spec; [done|].
    unfold STACK_FRAME_WORDS. lia. }
  pose proof (kb_sched _ Hk) as (Hso & _).
  unfold os_task_init, os_task_next_id, os_sanity_check_init. k_simp.
  rewrite bool_decide_false by naive_solver. k_simp. fold (head_st t prio s).
  assert (Hready : task_state (head_st t prio s) t = OS_TASK_READY).
  { unfold task_state. by rewrite head_st_task, decide_True. }
  assert (Hnew : ∀ s1, new_task s t (init_task prio (g_task_id s) stk size) (tail_st t stk size s1) →
    kboot (tail_st t stk size s1)).
  { intros s1 N. by eapply kboot_new_task. }
  destruct (Z.eqb_spec itvl OS_WAIT_FOREVER) as [->|Hne]; cbn [negb]; k_simp.
  - rewrite bool_decide_false by naive_solver. k_simp.
    eapply wp_eq; [by apply os_task_init_tail_run|]. k_simp.
    assert (N : new_task s t (init_task prio (g_task_id s) stk size)
      (tail_st t stk size (head_st t prio s))).
    { apply tail_st_new; try done. apply head_st_task. }
    split_and!; try done. by apply Hnew.
  - destruct Hor as [|Hst]; [done|].
    eapply wp_eq; [by apply os_sanity_check_register_boot|]. k_simp.
    cbn iota. rewrite bool_decide_false by naive_solver. k_simp.
    eapply wp_eq; [by apply os_task_init_tail_run|]. k_simp.
    match goal with |- context [tail_st t stk size ?x] => set (s1 := x) end.
    assert (N : new_task s t (init_task prio (g_task_id s) stk size) (tail_st t stk size s1)).
    { apply tail_st_new; try done. apply head_st_task. }
    split_and!; try done; [by apply Hnew|]. intros _. split; [done|].
    rewrite tail_st_sanity. unfold s1. rewrite sanity_of_check_list.
    by rewrite sanity_of_upd, decide_True.
Qed.

(** The walk over all tasks with [os_task_info_get_next]. *)
Lemma os_task_info_walk s i t :
  NoDup (g_os_task_list s) → g_os_task_list s !! i = Some t →
  ∃ r, os_task_info_get_next (if i is S j then g_os_task_list s !! j else None) s = Ret (Some r, s) ∧
       r.1 = t ∧ oti_prio r.2 = task_prio s t ∧ oti_state r.2 = task_state s t.
Proof.
  intros Hnd Hi.
  assert (Hnext : match (if i is S j then g_os_task_list s !! j else None) with
    | Some p => next_of p (g_os_task_list s) | None => head (g_os_task_list s) end = Some t).
  { destruct i as [|j]; [by rewrite head_lookup|].
    destruct (lookup_lt_is_Some_2 (g_os_task_list s) j) as [p Hp].
    { apply lookup_lt_Some in Hi. lia. }
    rewrite Hp. pose proof (take_drop_middle _ _ _ Hp) as Hmid. rewrite <- Hmid.
    rewrite next_of_app; [by rewrite head_lookup, lookup_drop, Nat.add_0_r|].
    intros Hin. rewrite <- Hmid in Hnd. apply NoDup_app in Hnd as (_ & Hd & _).
    apply (Hd p Hin). by left. }
  unfold os_task_info_get_next, mbind, M_bind, get. rewrite Hnext. eexists. by split_and!.
Qed.

(** The start of the OS. *)
Lemma os_arch_start_spec s :
  kboot s → task_state s g_idle_task = OS_TASK_READY →
  wp os_arch_start (λ _ s',
    kinv 1 1 s' ∧ pendsv s' = true ∧ g_os_run_list s' = g_os_run_list s ∧
    g_current_task s' = head (g_os_run_list s)) s.
Proof.
  intros Hk Hi. pose proof (kb_sched _ Hk) as (Hso & _).
  destruct (g_os_run_list s) as [|h l] eqn:El.
  { apply (so_ready _ Hso) in Hi. rewrite El in Hi. by apply not_elem_of_nil in Hi. }
  assert (Hh : task_state s h = OS_TASK_READY) by (apply (so_ready _ Hso); rewrite El; by left).
  unfold os_arch_start, os_sched_set_current_task. k_simp. rewrite El. cbn [head]. k_simp.
  unfold os_arch_ctx_sw, os_sched_ctx_sw_hook. k_simp. cbn [g_current_task set_g_current_task set_g_os_started].
  rewrite bool_decide_true by done. k_simp.
  split_and!; try done. split; [|by exists h]. apply kbase_kboot. split_and!; try done.
  destruct Hk as [(H1 & H2 & H3 & H4) H5 H6 H7 H8 H9].
  split; try done; [|by destruct H7; split|by destruct H8; split|by destruct H9; split].
  split_and!; [by destruct H1; split|by destruct H2; split|by destruct H3; split|done].
Qed.
