(* ===== verification/OsKernel.v ===== *)
(** The running kernel as a transition system.

    A state is the kernel state together with what each blocked task still has
    to do in the call it is blocked in.  A step is a complete system call of the
    running task, the continuation of a call in which it was blocked, or the
    timer interrupt ([timer_handler] of os_arch_arm.c); each is followed by the
    PendSV exception, which is where the context switch happens.  Interrupts are
    taken between system calls. *)
From Stdlib Require Import ZArith Lia.
From Stdlib Require Import Sorting.Sorted.
From stdpp Require Import base decidable list numbers gmap.
From S2P Require Import Prelude.
From S2P Require Import OsState.
From S2P Require Import OsSched.
From S2P Require Import OsInv.
From S2P Require Import OsSem.
From S2P Require Import OsMutex.
From S2P Require Import OsEventq.
From S2P Require Import OsCallout.
From S2P Require Import OsSanity.
From S2P Require Import OsTask.

#[local] Open Scope Z_scope.

(** ** The timer interrupt *)

Definition timer_handler : K unit :=
  os_time_tick ;;
  os_callout_tick ;;
  os_sched_os_timer_exp ;;
  os_sched None true.

(** ** System calls *)

Inductive api_call :=
| CSemInit (sem : option nat) (tokens : Z)
| CSemRelease (sem : option nat)
| CSemPend (sem : option nat) (timeout : Z)
| CSemDelete (sem : option nat)
| CMutexInit (mu : option nat)
| CMutexRelease (mu : option nat)
| CMutexPend (mu : option nat) (timeout : Z)
| CMutexDelete (mu : option nat)
| CEventqInit (q : nat)
| CEventqPut (q : nat) (e : evid)
| CEventqGet (q : nat)
| CEventqRemove (q : nat) (e : evid)
| CCalloutInit (c : nat) (evq : option nat) (arg : Z)
| CCalloutStop (c : nat)
| CCalloutReset (c : nat) (ticks : Z)
| CTimeDelay (osticks : Z)
| CTaskInit (t : tid) (regs : list Z) (func arg prio : Z) (stack : list Z) (size : Z).

(** What is left of a call that blocked. *)
Inductive cont :=
| KSemPend
| KMutexPend (mu : nat)
| KEventqGet (q : nat)
| KDelay.

(** [Some k]: the caller is blocked and will go on with [k]. *)
Definition exec (a : api_call) : K (option cont) :=
  match a with
  | CSemInit sem n => os_sem_init sem n ;; mret None
  | CSemRelease sem => os_sem_release sem ;; mret None
  | CSemPend sem n =>
      r ← os_sem_pend sem n; mret (if r is None then Some KSemPend else None)
  | CSemDelete sem => os_sem_delete sem ;; mret None
  | CMutexInit mu => os_mutex_init mu ;; mret None
  | CMutexRelease mu => os_mutex_release mu ;; mret None
  | CMutexPend mu n =>
      r ← os_mutex_pend mu n;
      mret (match r, mu with None, Some k => Some (KMutexPend k) | _, _ => None end)
  | CMutexDelete mu => os_mutex_delete mu ;; mret None
  | CEventqInit q => os_eventq_init q ;; mret None
  | CEventqPut q e => os_eventq_put q e ;; mret None
  | CEventqGet q =>
      r ← os_eventq_get q; mret (if r is None then Some (KEventqGet q) else None)
  | CEventqRemove q e => os_eventq_remove q e ;; mret None
  | CCalloutInit c evq arg => os_callout_init c evq arg ;; mret None
  | CCalloutStop c => os_callout_stop c ;; mret None
  | CCalloutReset c n => os_callout_reset c n ;; mret None
  | CTimeDelay n => b ← os_time_delay n; mret (if b : bool then Some KDelay else None)
  | CTaskInit t regs func arg prio stack size =>
      os_task_init t regs func arg prio OS_WAIT_FOREVER stack size ;; mret None
  end.

Definition resume (k : cont) (t : tid) : K (option cont) :=
  match k with
  | KSemPend => os_sem_pend_resume t ;; mret None
  | KMutexPend mu => os_mutex_pend_resume mu t ;; mret None
  | KEventqGet q =>
      r ← os_eventq_get_resume q; mret (if r is None then Some (KEventqGet q) else None)
  | KDelay => mret None
  end.

(** What a caller has to respect: an object is (re)initialised only while nothing
    is linked to it, a timeout is within half the range of the clock (or zero, or
    forever), a mutex is not nested 65535 deep, an event is removed from the
    queue it is on, the event of a callout is put on the callout's queue only, a
    callout is armed only if it has a queue, and a new task is new. *)
Definition api_ok (s : kstate) (c : tid) (a : api_call) : Prop :=
  match a with
  | CSemInit (Some k) _ => sem_head (sem_of s k) = []
  | CSemPend _ n => n = 0 ∨ timeout_ok n
  | CMutexInit (Some k) => mu_head (mutex_of s k) = []
  | CMutexPend (Some k) n =>
      (n = 0 ∨ timeout_ok n) ∧
      (mu_owner (mutex_of s k) = Some c → mu_level (mutex_of s k) < 65535)
  | CEventqInit q => evq_list (eventq_of s q) = []
  | CEventqPut q e => ev_target s q e
  | CEventqRemove q e => ev_queued (event_of s e) = true → e ∈ evq_list (eventq_of s q)
  | CCalloutInit k _ _ =>
      k ∉ g_callout_list s ∧ ev_queued (event_of s (EvCallout k)) = false
  | CCalloutReset k n => n < 2147483648 ∧ is_Some (c_evq (callout_of s k))
  | CTimeDelay n => n < 2147483648
  | CTaskInit t regs _ _ _ stack size =>
      task_state s t = OS_TASK_UNINIT ∧ length regs = 8%nat ∧ 16 <= size < 65536 ∧
      length stack = Z.to_nat size
  | _ => True
  end.

(** ** The machine *)

Record mstate := mk_mstate { ks : kstate; conts : gmap tid cont }.

Inductive label := LCall (a : api_call) | LResume | LTick.

(** The idle task makes no calls. *)
Definition enabled (m : mstate) (l : label) : Prop :=
  match l with
  | LTick => True
  | LCall a => ∃ c, g_current_task (ks m) = Some c ∧ c ≠ g_idle_task ∧
                    conts m !! c = None ∧ api_ok (ks m) c a
  | LResume => ∃ c, g_current_task (ks m) = Some c ∧ is_Some (conts m !! c)
  end.

(** Runs [p], which leaves the current task with the continuation it returns,
    and then the pending context switch. *)
Definition run_task (p : K (option cont)) (m : mstate) : res mstate :=
  match (r ← p; PendSV_Handler ;; mret r) (ks m), g_current_task (ks m) with
  | Ret (k, s'), Some c => Ret (mk_mstate s' (partial_alter (λ _, k) c (conts m)))
  | Ret _, None => Fault FNull
  | Fault f, _ => Fault f
  end.

Definition run_label (l : label) (m : mstate) : res mstate :=
  match l with
  | LCall a => run_task (exec a) m
  | LResume =>
      match g_current_task (ks m) with
      | Some c => match conts m !! c with
                  | Some k => run_task (resume k c) m
                  | None => Fault FNull
                  end
      | None => Fault FNull
      end
  | LTick =>
      match (timer_handler ;; PendSV_Handler) (ks m) with
      | Ret (_, s') => Ret (mk_mstate s' (conts m))
      | Fault f => Fault f
      end
  end.

Definition step (m : mstate) (l : label) (m' : mstate) : Prop :=
  enabled m l ∧ run_label l m = Ret m'.

(** Booting: the idle task and the tasks of the application are created, then the
    OS is started. *)
Record task_desc := mk_desc {
  td_tid : tid; td_regs : list Z; td_func : Z; td_arg : Z; td_prio : Z; td_itvl : Z;
  td_stack : list Z; td_size : Z;
}.

Definition desc_ok (d : task_desc) : Prop :=
  length (td_regs d) = 8%nat ∧ 16 <= td_size d < 65536 ∧ length (td_stack d) = Z.to_nat (td_size d).

Fixpoint boot_tasks (ds : list task_desc) : K unit :=
  match ds with
  | [] => mret tt
  | d :: ds =>
      os_task_init (td_tid d) (td_regs d) (td_func d) (td_arg d) (td_prio d) (td_itvl d)
        (td_stack d) (td_size d) ;;
      boot_tasks ds
  end.

(** Zero-initialised memory. *)
Definition zero_state : kstate :=
  mk_kstate ∅ [] [] None 0 0 false false ∅ ∅ ∅ ∅ ∅ [] 0 [] ∅ [].

Definition boot (idle : task_desc) (ds : list task_desc) : K unit :=
  os_init_idle_task (td_regs idle) (td_func idle) (td_stack idle) ;;
  boot_tasks ds ;;
  os_arch_start ;;
  PendSV_Handler.

Inductive reachable (m0 : mstate) : mstate → Prop :=
| reach_refl : reachable m0 m0
| reach_step m l m' : reachable m0 m → step m l m' → reachable m0 m'.

(** ** What a call guarantees *)

(** Calls after which the highest ready task runs: all but the creation of a task
    (which never reschedules) and the deletion of a semaphore (which reschedules
    on the priority of its first waiter only). *)
Definition preempting (a : api_call) : Prop :=
  match a with CTaskInit _ _ _ _ _ _ _ | CSemDelete _ => False | _ => True end.

Definition call_post (s : kstate) (c : tid) (pre : Prop) (s' : kstate) : Prop :=
  kbase 1 1 s' ∧ g_current_task s' = Some c ∧ (pendsv s' = true ∨ cur_ready s') ∧
  (pre → head (g_os_run_list s) = Some c → pendsv s' = true ∨ head (g_os_run_list s') = Some c).

Lemma call_post_same s c pre s' :
  kinv 1 1 s' → g_current_task s' = Some c → g_os_run_list s' = g_os_run_list s →
  call_post s c pre s'.
Proof. intros [? ?] ? Er. split_and!; [done|done|by right|]. rewrite Er. auto. Qed.

Lemma call_post_switch s c pre s' :
  kbase 1 1 s' → g_current_task s' = Some c → pendsv s' = true → call_post s c pre s'.
Proof. intros. split_and!; auto. Qed.

Lemma call_post_test s c pre s' :
  kinv 1 1 s' → g_current_task s' = Some c →
  pendsv s' = bool_decide (head (g_os_run_list s') ≠ Some c) → call_post s c pre s'.
Proof.
  intros [? ?] ? Hp. split_and!; [done|done|by right|]. intros _ _.
  destruct (decide (head (g_os_run_list s') = Some c)); [by right|left].
  by rewrite Hp, bool_decide_true.
Qed.

Lemma call_post_queue s c pre s' :
  kinv 1 1 s' → queue_step s s' → g_current_task s = Some c → call_post s c pre s'.
Proof.
  intros Hk Q Hc. apply call_post_same; [done|by rewrite (qs_current _ _ Q)|apply Q].
Qed.

Section calls.
Context (s : kstate) (c : tid).
Hypothesis Hk : kinv 1 1 s.
Hypothesis Hp : pendsv s = false.
Hypothesis Hc : g_current_task s = Some c.
Hypothesis Hid : c ≠ g_idle_task.

Let started : g_os_started s = true.
Proof. apply Hk. Qed.

Lemma post_refl pre : call_post s c pre s.
Proof. by apply call_post_same. Qed.

Lemma sem_init_call sem n pre :
  api_ok s c (CSemInit sem n) → wp (os_sem_init sem n) (λ _, call_post s c pre) s.
Proof.
  destruct sem as [k|]; simpl; intros Hh; [|apply wp_ret, post_refl].
  unfold os_sem_init. k_simp. apply call_post_same; [|done|done]. destruct Hk as [Hb ?].
  split; [|done].
  assert (E : upd_sem k (set_sem_head []) (upd_sem k (set_sem_tokens (u16 n)) s) =
    upd_sem k (set_sem_tokens (u16 n)) s).
  { unfold upd_sem at 1. rewrite sem_of_upd, decide_True by done. unfold upd_sem, set_sems. simpl.
    f_equal. rewrite insert_insert_eq. unfold set_sem_head, set_sem_tokens. simpl. by rewrite Hh. }
  rewrite E. apply kbase_upd_sem; [done|done|apply u16_bound|done].
Qed.

Lemma sem_release_call sem : wp (os_sem_release sem) (λ _, call_post s c True) s.
Proof.
  destruct sem as [k|]; [|unfold os_sem_release; k_simp; rewrite started; apply wp_ret, post_refl].
  destruct (sem_head (sem_of s k)) as [|r l] eqn:Hh.
  - destruct (os_sem_release_bank s k Hk Hh) as [Hrun Hk']. eapply wp_eq; [exact Hrun|].
    by apply call_post_same.
  - eapply wp_mono; [by eapply os_sem_release_wake|].
    intros ? s' (_ & Hk' & Hc' & E & Hp'). destruct Hk' as [? ?]. split_and!; [done|done|by right|].
    intros _ Htop. destruct E as [E _]. rewrite <- (ce_run _ _ E), Hp', grant_st_run.
    rewrite head_insert_before. destruct (g_os_run_list s) as [|h l']; simplify_eq/=.
    destruct (task_prio s r <? task_prio s c); auto.
Qed.

Lemma sem_pend_call sem n :
  api_ok s c (CSemPend sem n) → wp (os_sem_pend sem n) (λ _, call_post s c True) s.
Proof.
  intros Hn. destruct sem as [k|]; [|unfold os_sem_pend; k_simp; rewrite started; apply wp_ret, post_refl].
  destruct (Z.eq_dec (sem_tokens (sem_of s k)) 0) as [Ht|Ht].
  - destruct (Z.eq_dec n 0) as [->|Hnz].
    + eapply wp_eq; [by apply os_sem_pend_poll|]. apply post_refl.
    + destruct Hn as [|Hn]; [done|]. eapply wp_mono; [by apply os_sem_pend_block|].
      intros ? s' (_ & ? & ? & ? & _). by apply call_post_switch.
  - destruct (os_sem_pend_take s k n Hk Ht) as (Hrun & Hk' & _). eapply wp_eq; [exact Hrun|].
    by apply call_post_same.
Qed.

Lemma sem_delete_call sem : wp (os_sem_delete sem) (λ _, call_post s c False) s.
Proof.
  destruct sem as [k|]; [|unfold os_sem_delete; k_simp; rewrite started; apply wp_ret, post_refl].
  eapply wp_mono; [by apply os_sem_delete_spec|]. intros ? s' (_ & [? ?] & ? & _).
  split_and!; [done|done|by right|done].
Qed.

Lemma mutex_init_call mu pre :
  api_ok s c (CMutexInit mu) → wp (os_mutex_init mu) (λ _, call_post s c pre) s.
Proof.
  destruct mu as [k|]; simpl; intros Hh; [|apply wp_ret, post_refl].
  unfold os_mutex_init. k_simp. apply call_post_same; [|done|done]. destruct Hk as [Hb ?].
  split; [|done]. set (s1 := upd_mutex k (set_mu_owner None) _).
  assert (Hmu : mutex_of s1 k = mk_mutex [] 0 0 None).
  { unfold s1. rewrite !mutex_of_upd, !decide_True by done.
    unfold set_mu_owner, set_mu_level, set_mu_prio. simpl. by rewrite Hh. }
  assert (E : upd_mutex k (set_mu_head []) s1 = upd_mutex k (set_mu_owner None) s1).
  { unfold upd_mutex. by rewrite Hmu. }
  rewrite E. apply kbase_kcore in Hb as [Hb Hm]. apply kbase_kcore. split.
  - unfold s1. do 4 (apply kcore_upd_mutex; [|done]). done.
  - intros j. unfold mutex_ok. destruct (decide (k = j)) as [<-|Hne].
    + rewrite mutex_of_upd, decide_True, Hmu by done. simpl. split_and!; [lia|lia|done|done].
    + unfold s1. rewrite !mutex_of_upd, !decide_False by done. apply Hm.
Qed.

Lemma mutex_release_call mu : wp (os_mutex_release mu) (λ _, call_post s c True) s.
Proof.
  destruct mu as [k|];
    [|unfold os_mutex_release, os_mutex_release_enter; k_simp; rewrite started; apply wp_ret, wp_ret, post_refl].
  destruct (Z.eq_dec (mu_level (mutex_of s k)) 0) as [Hl|Hl].
  { eapply wp_eq; [by apply os_mutex_release_bad; auto|]. apply post_refl. }
  destruct (decide (mu_owner (mutex_of s k) = Some c)) as [Ho|Ho].
  2:{ eapply wp_eq; [apply os_mutex_release_bad; [done|]; right; congruence|]. apply post_refl. }
  destruct (ki_mutex _ _ _ (proj1 Hk) k) as (Hr & _).
  destruct (Z.eq_dec (mu_level (mutex_of s k)) 1) as [Hl1|Hl1].
  - eapply wp_mono; [by apply (os_mutex_release_last s k c)|].
    intros ? s' (_ & (? & ? & _) & ?). by apply call_post_test.
  - destruct (os_mutex_release_nested s k c) as [Hrun Hk']; [done|done|done|lia|].
    eapply wp_eq; [exact Hrun|]. by apply call_post_same.
Qed.

Lemma mutex_pend_call mu n :
  api_ok s c (CMutexPend mu n) → wp (os_mutex_pend mu n) (λ _, call_post s c True) s.
Proof.
  intros Ha.
  destruct mu as [k|]; [|unfold os_mutex_pend; k_simp; rewrite started; apply wp_ret, post_refl].
  destruct Ha as [Hn Hlev]. destruct (ki_mutex _ _ _ (proj1 Hk) k) as (Hr & _ & Hown).
  destruct (Z.eq_dec (mu_level (mutex_of s k)) 0) as [Hl|Hl].
  { eapply wp_mono; [by apply (os_mutex_pend_free s k c)|].
    intros ? s' (_ & ? & _ & ? & ? & _). by apply call_post_same. }
  destruct (Hown Hl) as (o & Ho & _). destruct (decide (o = c)) as [->|Hne].
  { destruct (os_mutex_pend_nested s k c n) as (Hrun & Hk' & _); [done|done|done|naive_solver lia|].
    eapply wp_eq; [exact Hrun|]. by apply call_post_same. }
  destruct (Z.eq_dec n 0) as [->|Hnz].
  { eapply wp_eq; [apply os_mutex_pend_poll; congruence|]. apply post_refl. }
  destruct Hn as [|Hn]; [done|].
  eapply wp_mono; [by apply (os_mutex_pend_block s k c o n)|].
  intros ? s' (_ & ? & ? & ? & _). by apply call_post_switch.
Qed.

Lemma mutex_delete_call mu : wp (os_mutex_delete mu) (λ _, call_post s c True) s.
Proof.
  destruct mu as [k|]; [|unfold os_mutex_delete; k_simp; rewrite started; apply wp_ret, post_refl].
  eapply wp_mono; [by apply (os_mutex_delete_spec s k c)|].
  intros ? s' (_ & ? & ? & _ & _ & _ & _ & _ & ?). by apply call_post_test.
Qed.

Lemma eventq_put_call q e :
  ev_target s q e → wp (os_eventq_put q e) (λ _, call_post s c True) s.
Proof.
  intros Ht. eapply wp_mono; [by apply (os_eventq_put2_spec 1 1)|].
  intros ? s' (Hk' & Hput). unfold put_post in Hput.
  destruct (ev_queued (event_of s e)); [subst s'; apply post_refl|].
  destruct Hput as (F & _ & _ & Hw).
  assert (Hc' : g_current_task s' = Some c) by by rewrite (pf_current _ _ _ F).
  destruct (evq_task (eventq_of s q)).
  - destruct Hw as [_ Hp']. apply call_post_test; [done|done|]. by rewrite Hp', Hp, Hc.
  - destruct Hw. by apply call_post_same.
Qed.

Lemma eventq_get_call q : wp (os_eventq_get q) (λ _, call_post s c True) s.
Proof.
  destruct (evq_list (eventq_of s q)) as [|e l] eqn:Hl.
  - eapply wp_mono; [by apply (os_eventq_get_block q c)|].
    intros ? s' (_ & ? & ? & ? & _). by apply call_post_switch.
  - destruct (os_eventq_get_some _ _ _ _ _ _ Hk Hl) as [Hrun Hk']. eapply wp_eq; [exact Hrun|].
    by apply call_post_same.
Qed.

Lemma time_delay_call n :
  n < 2147483648 → wp (os_time_delay n) (λ _, call_post s c True) s.
Proof.
  intros Hn. unfold os_time_delay. destruct (Z.ltb_spec 0 n); [|apply wp_ret, post_refl].
  k_simp. rewrite Hc. k_simp. destruct Hk as [Hb Hcr].
  assert (Hst : task_state s c = OS_TASK_READY) by (destruct Hcr as (? & ? & ?); congruence).
  destruct (ki_sched _ _ _ Hb) as (Hs & Hsl & _).
  assert (Hto : timeout_ok n) by (right; lia).
  eapply wp_eq; [apply os_sched_sleep_run; by apply Hs|]. k_simp.
  eapply wp_mono; [apply (os_sched_kbase 1 1 None false); by apply kbase_sleep|].
  intros ? s' (E & Hk' & Hc' & Hp'). k_simp.
  assert (Hc2 : g_current_task (sleep_st c n s) = Some c).
  { unfold sleep_st. by destruct (n =? OS_TIMEOUT_NEVER). }
  rewrite Hc2 in Hc', Hp'. apply call_post_switch; [done|done|]. rewrite Hp'.
  apply orb_true_intro. right. apply bool_decide_true. by apply (sleep_st_head_ne 1).
Qed.

Lemma task_init_call t regs func arg prio stack size :
  api_ok s c (CTaskInit t regs func arg prio stack size) →
  wp (os_task_init t regs func arg prio OS_WAIT_FOREVER stack size) (λ _, call_post s c False) s.
Proof.
  intros (Hu & Hr & Hs & Hl). destruct Hk as [Hb Hcr].
  pose proof (proj1 (kbase_kboot s) Hb) as (Hkb & _ & Hidle & _).
  eapply wp_mono; [apply os_task_init_spec; auto|].
  intros ? s' (_ & Hkb' & N & _).
  assert (Hst : ∀ u, task_state s u = OS_TASK_READY → task_state s' u = OS_TASK_READY).
  { intros u Hur. unfold task_state. rewrite (nt_task _ _ _ _ N).
    destruct (decide (t = u)); [done|exact Hur]. }
  assert (Hc' : g_current_task s' = Some c) by by rewrite (nt_current _ _ _ _ N).
  split_and!; [|done| |done].
  - apply kbase_kboot. split_and!; [done|by rewrite Hc'|by apply Hst|].
    by rewrite (nt_started _ _ _ _ N).
  - right. destruct Hcr as (c' & ? & ?). exists c'. rewrite (nt_current _ _ _ _ N). auto.
Qed.

(** Every permitted call runs without a fault and preserves the invariant. *)
Lemma exec_spec a : api_ok s c a → wp (exec a) (λ _, call_post s c (preempting a)) s.
Proof.
  intros Ha.
  assert (Hret : ∀ {A} (m : K A) (f : A → option cont) pre,
    wp m (λ _, call_post s c pre) s → wp (r ← m; mret (f r)) (λ _, call_post s c pre) s).
  { intros A m f pre Hm. apply wp_bind. eapply wp_mono; [exact Hm|]. intros. by apply wp_ret. }
  destruct a; cbn [exec preempting]; apply Hret;
    [by apply sem_init_call|apply sem_release_call|by apply sem_pend_call|apply sem_delete_call
    |by apply mutex_init_call|apply mutex_release_call|by apply mutex_pend_call|apply mutex_delete_call
    |..|by apply task_init_call].
  - eapply wp_mono; [by apply (os_eventq_init_spec 1 1)|]. intros ? s' (? & ? & _).
    by apply call_post_queue.
  - by apply eventq_put_call.
  - apply eventq_get_call.
  - eapply wp_mono; [by apply (os_eventq_remove_spec 1 1)|]. intros ? s' (? & ? & _).
    by apply call_post_queue.
  - destruct Ha. eapply wp_mono; [by apply (os_callout_init_spec 1 1)|]. intros ? s' (? & ? & _).
    by apply call_post_queue.
  - eapply wp_mono; [by apply (os_callout_stop_spec 1 1)|]. intros ? s' (? & ? & _).
    by apply call_post_queue.
  - destruct Ha as [Hn Hq]. destruct (Z.lt_ge_cases ticks 0) as [Hneg|Hpos].
    { eapply wp_eq; [by apply os_callout_reset_neg|]. apply post_refl. }
    eapply wp_mono; [by apply (os_callout_reset_spec 1 1)|]. intros ? s' (_ & ? & ? & _).
    by apply call_post_queue.
  - by apply time_delay_call.
Qed.

End calls.

(** So does the rest of a call that had blocked. *)
Lemma resume_spec s c k :
  kinv 1 1 s → pendsv s = false → g_current_task s = Some c → c ≠ g_idle_task →
  wp (resume k c) (λ _, call_post s c True) s.
Proof.
  intros Hk Hp Hc Hid. destruct k as [|mu|q|]; cbn [resume].
  - apply wp_bind. eapply wp_mono; [by apply (os_sem_pend_resume_run 1 1)|].
    intros ? s' (_ & ? & ? & ? & _). apply wp_ret. apply call_post_same; congruence.
  - apply wp_bind. eapply wp_mono; [by apply (os_mutex_pend_resume_run 1 1)|].
    intros ? s' (_ & ? & ? & ? & _). apply wp_ret. apply call_post_same; congruence.
  - apply wp_bind. unfold os_eventq_get_resume. k_simp. eapply wp_mono.
    { apply (eventq_get_call _ c); [by apply kinv_unregister|done..]. }
    intros ? s' Hpost. by apply wp_ret.
  - apply wp_ret. by apply post_refl.
Qed.

(** ** The timer interrupt *)

Lemma kinv_tick s : kinv 1 1 s → kinv 0 0 (set_g_os_time (u32 (g_os_time s + 1)) s).
Proof.
  intros [[H1 H2 H3 [H4a H4b] H5 [C1 C2 C3 C4 C5 C6] H7 H8 H9] Hcr]. split; [|done].
  assert (Hkey : ∀ c, c ∈ g_callout_list s →
    callout_key (set_g_os_time (u32 (g_os_time s + 1)) s) c = callout_key s c - 1).
  { intros c Hc. unfold callout_key. apply ticks_until_succ. by apply C4. }
  split; try done.
  - by apply sched_inv_tick.
  - destruct H5. by split.
  - split; try done.
    + revert C3 Hkey. simpl. generalize (g_callout_list s) as l.
      induction l as [|c l IH]; intros Hs Hkey; [constructor|].
      apply sorted_by_cons in Hs as [Hs Hle]. apply sorted_by_cons. split.
      { apply IH; [done|]. intros; apply Hkey; by right. }
      intros b Hb. rewrite !Hkey by set_solver. specialize (Hle b Hb). lia.
    + intros c Hc. rewrite Hkey by done. specialize (C4 c Hc). lia.
Qed.

(** Timed-out tasks are not registered with an event queue. *)
Lemma timer_post_kinv s s' :
  kinv 0 1 s → timer_post s (g_os_sleep_list s) s' → kinv 1 1 s'.
Proof.
  intros [[H1 H2 H3 [H4a H4b] H5 H6 H7 H8 H9] Hcr] (Hinv & F & Hsl & Ht).
  pose proof (wake_frame_queue _ _ F) as Q. split; [split|by eapply cur_ready_wake].
  - done.
  - intros k. by eapply sem_ok_wake.
  - intros k. by eapply mutex_ok_wake.
  - unfold eventq_of in *. split; unfold eventq_of; rewrite (qe_eventqs _ _ Q); [|done].
    intros q t Hq. destruct (H4a q t Hq) as (? & ? & Hn). unfold task_state, no_timeout.
    rewrite Ht. unfold expired. rewrite Hn, andb_false_r. done.
  - by eapply ev_ok_eq.
  - by eapply callout_ok_eq.
  - by rewrite (wf_current _ _ F).
  - by apply F.
  - by rewrite (wf_started _ _ F).
Qed.

(** Ticks a timed sleeper still has to go. *)
Definition ticks_left (s : kstate) (t : tid) : Z :=
  ticks_until (g_os_time s) (t_next_wakeup (task_of s t)).

Definition timed_sleeper (s : kstate) (t : tid) : Prop :=
  task_state s t = OS_TASK_SLEEP ∧ no_timeout s t = false.

(** What a tick does: the clock advances, due callouts post their events, and a
    timed sleeper wakes up exactly when its time has come. *)
Record tick_effect (s s' : kstate) : Prop := {
  te_time : g_os_time s' = u32 (g_os_time s + 1);
  te_ready : ∀ t, task_state s t = OS_TASK_READY → task_state s' t = OS_TASK_READY;
  te_prio : ∀ t, task_prio s' t = task_prio s t;
  te_wake : ∀ t, timed_sleeper s t →
    if decide (ticks_left s t = 1) then task_state s' t = OS_TASK_READY
    else timed_sleeper s' t ∧ ticks_left s' t = ticks_left s t - 1;
  te_callouts : g_callout_list s' = filter (λ c, (callout_key s c =? 1) = false) (g_callout_list s);
  te_queue : ∀ q, evq_list (eventq_of s' q) = evq_list (eventq_of s q) ++
    (EvCallout <$> filter (λ c, ((callout_key s c =? 1) &&
       bool_decide (c_evq (callout_of s c) = Some q) &&
       negb (ev_queued (event_of s (EvCallout c)))) = true) (g_callout_list s));
  te_callout : ∀ c, c_evq (callout_of s' c) = c_evq (callout_of s c) ∧
    c_ticks (callout_of s' c) = c_ticks (callout_of s c);
}.

Lemma timed_sleeper_core s s' t :
  task_core (task_of s' t) = task_core (task_of s t) → timed_sleeper s t → timed_sleeper s' t.
Proof.
  unfold timed_sleeper, task_state, no_timeout, task_core. intros Hc [? ?]. split; congruence.
Qed.

(** The expiry loop, seen from before the tick. *)
Lemma tick_wake s s2 s3 t :
  sched_inv 1 s → sched_inv 0 s2 → g_os_time s2 = u32 (g_os_time s + 1) →
  timer_post s2 (g_os_sleep_list s2) s3 →
  task_core (task_of s2 t) = task_core (task_of s t) → timed_sleeper s t →
  if decide (ticks_left s t = 1) then task_state s3 t = OS_TASK_READY
  else timed_sleeper s3 t ∧ ticks_left s3 t = ticks_left s t - 1.
Proof.
  intros (Hs & [_ Hr _] & _) (Hs2 & _) Htime (_ & F & _ & Ht3) Hcore Hts. pose proof Hts as [Hst Hn].
  assert (Hrange := Hr t ltac:(by apply Hs) Hn). fold (ticks_left s t) in Hrange.
  destruct (timed_sleeper_core s s2 t Hcore Hts) as [Hst2 Hn2].
  assert (Hin2 : t ∈ g_os_sleep_list s2) by by apply Hs2.
  assert (Hw2 : t_next_wakeup (task_of s2 t) = t_next_wakeup (task_of s t))
    by (unfold task_core in Hcore; congruence).
  assert (Hleft : ticks_left s2 t = ticks_left s t - 1).
  { unfold ticks_left. rewrite Htime, Hw2. apply ticks_until_succ, Hrange. }
  assert (Hexp : expired s2 t = (ticks_left s t =? 1)).
  { unfold expired. rewrite Hn2. fold (ticks_left s2 t). simpl. lia. }
  specialize (Ht3 t). rewrite bool_decide_true in Ht3 by done. rewrite Hexp in Ht3. simpl in Ht3.
  destruct (decide (ticks_left s t = 1)) as [E|E].
  - rewrite (proj2 (Z.eqb_eq _ _)) in Ht3 by done. unfold task_state. by rewrite Ht3.
  - rewrite (proj2 (Z.eqb_neq _ _)) in Ht3 by done.
    unfold timed_sleeper, task_state, no_timeout, ticks_left. rewrite Ht3, (wf_time _ _ F). done.
Qed.

Lemma timer_handler_spec s :
  kinv 1 1 s →
  wp timer_handler (λ _ s',
    kinv 1 1 s' ∧ tick_effect s s' ∧
    (head (g_os_run_list s') ≠ g_current_task s' → pendsv s' = true)) s.
Proof.
  intros Hk. pose proof (ki_callout _ _ _ (proj1 Hk)) as Hco. pose proof Hk as Hk0. apply kinv_tick in Hk0.
  unfold timer_handler, os_time_tick. k_simp. set (s1 := set_g_os_time _ s) in *.
  eapply wp_mono; [by apply (os_callout_tick_spec 0)|]. intros ? s2 [Hk2 T]. k_simp.
  eapply wp_mono; [apply os_sched_os_timer_exp_spec, Hk2|]. intros ? s3 Hpost. k_simp.
  pose proof (timer_post_kinv _ _ Hk2 Hpost) as [Hk3 Hcr3]. destruct (Hpost) as (_ & F & _).
  eapply wp_mono; [by apply (os_sched_kbase 1 1 None true)|].
  intros ? s' (E & Hk' & Hc' & Hp'). pose proof (sw_eq_queue _ _ E) as Q. destruct (E) as [Ec _].
  assert (Hdue : ∀ c, c ∈ g_callout_list s → due s1 c = (callout_key s c =? 1)).
  { intros c Hc. unfold due, callout_key, s1. cbn [g_os_time set_g_os_time].
    change (callout_of (set_g_os_time ?a ?x) c) with (callout_of x c).
    pose proof (co_range _ _ Hco c Hc) as Hr. unfold callout_key in Hr.
    rewrite ticks_until_succ by lia. lia. }
  assert (Hrd : ∀ t, task_state s2 t = OS_TASK_READY → task_state s' t = OS_TASK_READY).
  { intros t Ht. rewrite <- (core_eq_state s3 s') by done. by apply F. }
  split_and!; [split; [done|]| |].
  - destruct Hcr3 as (c & ? & ?). exists c. rewrite Hc'. split; [done|].
    by rewrite <- (core_eq_state s3 s').
  - split.
    + rewrite (qe_time _ _ Q), (wf_time _ _ F), (tp_time _ _ _ T). done.
    + intros t Ht. apply Hrd, (tp_ready _ _ _ T), Ht.
    + intros t. rewrite <- (core_eq_prio s3 s'), (wf_prio _ _ F), (tp_prio _ _ _ T) by done. done.
    + intros t Hts. pose proof Hts as [_ Hn].
      assert (Hwake := tick_wake s s2 s3 t (ki_sched _ _ _ (proj1 Hk)) (ki_sched _ _ _ (proj1 Hk2))
        (tp_time _ _ _ T) Hpost (tp_timed _ _ _ T t Hn) Hts).
      revert Hwake. destruct (decide (ticks_left s t = 1)); [by rewrite <- (core_eq_state s3 s')|].
      intros [? Hl]. split; [by eapply timed_sleeper_core; [symmetry; apply Ec|]|].
      rewrite <- Hl. unfold ticks_left. by rewrite <- (ce_time _ _ Ec), <- (core_eq_wakeup s3 s').
    + rewrite (qe_callout_list _ _ Q), (wf_callout_list _ _ F), (tp_list _ _ _ T).
      change (g_callout_list s1) with (g_callout_list s).
      apply list_filter_ext_neg. intros c Hc. by apply Hdue.
    + intros q. rewrite (queue_eq_eventq _ _ Q), (queue_eq_eventq _ _ (wake_frame_queue _ _ F)).
      rewrite (tp_queue _ _ _ T). change (eventq_of s1 q) with (eventq_of s q). f_equal. f_equal.
      change (g_callout_list s1) with (g_callout_list s). apply list_filter_ext_in.
      intros c Hc. unfold posts. by rewrite Hdue.
    + intros c. unfold callout_of at 1 3.
      rewrite (qe_callouts _ _ Q), (wf_callouts _ _ F). apply (tp_callouts _ _ _ T).
  - rewrite <- (ce_run _ _ Ec), Hc', Hp'. intros Hne.
    by rewrite bool_decide_true, orb_true_r by done.
Qed.

(** ** The invariant of the machine *)

Definition minv (m : mstate) : Prop :=
  kinv 1 1 (ks m) ∧ pendsv (ks m) = false ∧ conts m !! g_idle_task = None.

(** The head of the run list is running. *)
Definition cur_top (m : mstate) : Prop :=
  g_current_task (ks m) = head (g_os_run_list (ks m)).

Lemma switch_spec s c pre s1 :
  call_post s c pre s1 →
  wp PendSV_Handler (λ _ s', kinv 1 1 s' ∧ pendsv s' = false ∧
    (pre → head (g_os_run_list s) = Some c → g_current_task s' = head (g_os_run_list s'))) s1.
Proof.
  intros (Hk & Hc & Hor & Htop). eapply wp_mono; [by apply (PendSV_kbase 1 1)|].
  intros ? s' ([E _] & Hk' & Hp' & Hc'). split_and!; [done|done|]. intros Hpre Hh.
  rewrite <- (ce_run _ _ E), Hc'. destruct (Htop Hpre Hh) as [->|Ht]; [done|].
  destruct (pendsv s1); [done|]. by rewrite Ht, Hc.
Qed.

Lemma run_task_ok p m c (pre : Prop) :
  minv m → g_current_task (ks m) = Some c → c ≠ g_idle_task →
  wp p (λ _, call_post (ks m) c pre) (ks m) →
  ∃ m', run_task p m = Ret m' ∧ minv m' ∧ (pre → cur_top m → cur_top m').
Proof.
  intros (Hk & Hp & Hi) Hc Hid Hwp. unfold run_task. rewrite Hc.
  assert (Hw : wp (r ← p; PendSV_Handler ;; mret r) (λ _ s', kinv 1 1 s' ∧ pendsv s' = false ∧
    (pre → head (g_os_run_list (ks m)) = Some c → g_current_task s' = head (g_os_run_list s'))) (ks m)).
  { apply wp_bind. eapply wp_mono; [exact Hwp|]. intros r s1 Hpost. apply wp_bind.
    eapply wp_mono; [eapply switch_spec, Hpost|]. intros ? s' H'. by apply wp_ret. }
  apply wp_run in Hw as (k & s' & Hrun & Hk' & Hp' & Htop). rewrite Hrun. eexists. split; [done|].
  split.
  - split_and!; [done|done|]. simpl. by rewrite lookup_partial_alter_ne.
  - intros Hpre Hct. unfold cur_top in *. simpl. apply Htop; [done|]. congruence.
Qed.

Definition preempting_label (l : label) : Prop :=
  match l with LCall a => preempting a | _ => True end.

Lemma run_label_ok m l :
  minv m → enabled m l →
  ∃ m', run_label l m = Ret m' ∧ minv m' ∧
        (preempting_label l → cur_top m → cur_top m') ∧ (l = LTick → cur_top m').
Proof.
  intros Hm He. pose proof Hm as (Hk & Hp & Hi). destruct l as [a| |]; simpl in *.
  - destruct He as (c & Hc & Hid & _ & Ha).
    destruct (run_task_ok (exec a) m c (preempting a)) as (m' & ? & ? & ?); try done.
    { by apply exec_spec. }
    exists m'. by split_and!.
  - destruct He as (c & Hc & [k Hcont]). rewrite Hc, Hcont.
    assert (Hid : c ≠ g_idle_task) by congruence.
    destruct (run_task_ok (resume k c) m c True) as (m' & ? & ? & ?); try done.
    { by apply resume_spec. }
    exists m'. by split_and!.
  - assert (Hw : wp (timer_handler ;; PendSV_Handler) (λ _ s', kinv 1 1 s' ∧ pendsv s' = false ∧
      g_current_task s' = head (g_os_run_list s')) (ks m)).
    { apply wp_bind. eapply wp_mono; [by apply timer_handler_spec|]. intros ? s1 ([Hk1 Hcr1] & _ & Hp1).
      eapply wp_mono; [apply (PendSV_kbase 1 1); [done|by right]|].
      intros ? s' ([E _] & ? & ? & Hc'). split_and!; [done|done|].
      rewrite <- (ce_run _ _ E), Hc'. destruct (pendsv s1) eqn:Hps; [done|].
      destruct (decide (head (g_os_run_list s1) = g_current_task s1)) as [->|Hne]; [done|].
      specialize (Hp1 Hne). congruence. }
    apply wp_run in Hw as ([] & s' & Hrun & ? & ? & ?). rewrite Hrun. eexists. split; [done|].
    by split_and!.
Qed.

(** ** Booting *)

Lemma kboot_zero : kboot zero_state.
Proof.
  assert (Ht : ∀ t, task_of zero_state t = mk_task 0 OS_TASK_UNINIT 0 None 0 0 0 0 0 []).
  { intros t. unfold task_of. simpl. by rewrite lookup_total_empty. }
  assert (Hq : ∀ q, eventq_of zero_state q = mk_eventq None []).
  { intros q. unfold eventq_of. simpl. by rewrite lookup_total_empty. }
  assert (Hs : ∀ k, sem_of zero_state k = mk_sem [] 0).
  { intros k. unfold sem_of. simpl. by rewrite lookup_total_empty. }
  assert (Hm : ∀ k, mutex_of zero_state k = mk_mutex [] 0 0 None).
  { intros k. unfold mutex_of. simpl. by rewrite lookup_total_empty. }
  assert (Hh : ∀ o, obj_head zero_state o = []).
  { intros [k|k]; simpl; by rewrite ?Hs, ?Hm. }
  assert (Hst : ∀ t, task_state zero_state t = OS_TASK_UNINIT).
  { intros t. unfold task_state. by rewrite Ht. }
  assert (Hn : ∀ t, no_timeout zero_state t = false).
  { intros t. unfold no_timeout. by rewrite Ht. }
  split.
  - split_and!; [split|split|split|].
    + apply NoDup_nil_2.
    + apply NoDup_nil_2.
    + intros t. rewrite Hst. simpl. set_solver.
    + intros t. rewrite Hst. simpl. set_solver.
    + apply SSorted_nil.
    + apply SSorted_nil.
    + intros t Hin. simpl in Hin. set_solver.
    + intros t. by rewrite Hn.
    + intros t o. rewrite Hh, Ht. simpl. set_solver.
    + intros o. rewrite Hh. apply NoDup_nil_2.
    + intros t o. by rewrite Ht.
  - intros k. unfold sem_ok. rewrite Hs. simpl. split; [lia|done].
  - intros k. unfold mutex_ok. rewrite Hm. simpl. split_and!; [lia|lia|done|done].
  - split; intros q; intros; by rewrite Hq in *.
  - split.
    + intros e. unfold event_of. simpl. rewrite lookup_total_empty. setoid_rewrite Hq. simpl. set_solver.
    + intros e q q'. rewrite Hq. simpl. set_solver.
    + intros q. rewrite Hq. apply NoDup_nil_2.
  - split.
    + apply NoDup_nil_2.
    + intros c. unfold callout_of. simpl. rewrite lookup_total_empty. set_solver.
    + apply SSorted_nil.
    + intros c Hin. simpl in Hin. set_solver.
    + intros c Hin. simpl in Hin. set_solver.
    + intros c q. rewrite Hq. simpl. set_solver.
Qed.

Lemma boot_tasks_spec ds : ∀ s,
  kboot s → g_os_started s = false → task_state s g_idle_task = OS_TASK_READY →
  NoDup (td_tid <$> ds) → (∀ d, d ∈ ds → task_state s (td_tid d) = OS_TASK_UNINIT ∧ desc_ok d) →
  wp (boot_tasks ds) (λ _ s', kboot s' ∧ task_state s' g_idle_task = OS_TASK_READY) s.
Proof.
  induction ds as [|d ds IH]; intros s Hk Hst Hi Hnd Hd; [by apply wp_ret|].
  apply NoDup_cons in Hnd as [Hnot Hnd].
  destruct (Hd d) as (Hu & Hr & Hs & Hl); [by left|]. simpl. apply wp_bind.
  eapply wp_mono; [apply os_task_init_spec; auto|]. intros ? s1 (_ & Hk1 & N & _).
  apply IH; [done|by rewrite (nt_started _ _ _ _ N)| |done|].
  - unfold task_state. rewrite (nt_task _ _ _ _ N). destruct (decide _); [done|exact Hi].
  - intros d' Hin. destruct (Hd d') as [Hu' Hok]; [by right|]. split; [|done].
    unfold task_state. rewrite (nt_task _ _ _ _ N), decide_False; [exact Hu'|].
    intros E. apply Hnot. rewrite E. by apply list_elem_of_fmap_2.
Qed.

Lemma boot_spec idle ds :
  length (td_regs idle) = 8%nat → length (td_stack idle) = Z.to_nat OS_IDLE_STACK_SIZE →
  NoDup (g_idle_task :: (td_tid <$> ds)) → Forall desc_ok ds →
  wp (boot idle ds) (λ _ s', minv (mk_mstate s' ∅) ∧ cur_top (mk_mstate s' ∅)) zero_state.
Proof.
  intros Hr Hl [Hnot Hnd]%NoDup_cons Hds. unfold boot, os_init_idle_task. apply wp_bind.
  assert (Hu : ∀ t, task_state zero_state t = OS_TASK_UNINIT).
  { intros t. unfold task_state, task_of. simpl. by rewrite lookup_total_empty. }
  eapply wp_mono.
  { apply os_task_init_spec; [apply kboot_zero|done|done|unfold OS_IDLE_STACK_SIZE; lia|done|by left]. }
  intros ? s1 (_ & Hk1 & N & _). apply wp_bind. eapply wp_mono.
  { apply boot_tasks_spec; [done|by rewrite (nt_started _ _ _ _ N)| |done|].
    - unfold task_state. by rewrite (nt_task _ _ _ _ N), decide_True.
    - intros d Hd. split; [|by eapply Forall_forall].
      unfold task_state. rewrite (nt_task _ _ _ _ N), decide_False; [exact (Hu (td_tid d))|].
      intros E. apply Hnot. rewrite E. by apply list_elem_of_fmap_2. }
  intros ? s2 [Hk2 Hi2]. apply wp_bind. eapply wp_mono; [by apply os_arch_start_spec|].
  intros ? s3 ([Hk3 Hcr3] & Hp3 & Hr3 & Hc3).
  eapply wp_mono; [apply (PendSV_kbase 1 1); [done|by left]|].
  intros ? s' ([E _] & Hk' & Hp' & Hc'). rewrite Hp3 in Hc'. split; [by split_and!|].
  unfold cur_top. simpl. by rewrite <- (ce_run _ _ E).
Qed.

Lemma reachable_minv m0 m : minv m0 → reachable m0 m → minv m.
Proof.
  intros H0 Hr. induction Hr as [|m l m' _ IH [He Hrun]]; [done|].
  destruct (run_label_ok m l IH He) as (m'' & Hrun' & ? & _). rewrite Hrun in Hrun'. by simplify_eq.
Qed.

(** ** Several ticks in a row *)

Fixpoint run_labels (ls : list label) (m : mstate) : res mstate :=
  match ls with
  | [] => Ret m
  | l :: ls => match run_label l m with Ret m' => run_labels ls m' | Fault f => Fault f end
  end.

Lemma tick_effect_sw s s1 s' : tick_effect s s1 → sw_eq s1 s' → tick_effect s s'.
Proof.
  intros [T1 T2 T3 T4 T5 T6 T7] E. pose proof (sw_eq_queue _ _ E) as Q. destruct (E) as [Ec _]. split.
  - by rewrite (qe_time _ _ Q).
  - intros t Ht. rewrite <- (core_eq_state s1 s') by done. auto.
  - intros t. by rewrite <- (core_eq_prio s1 s').
  - intros t Ht. specialize (T4 t Ht). revert T4.
    destruct (decide (ticks_left s t = 1)); [by rewrite <- (core_eq_state s1 s')|].
    intros [? Hl]. split; [by eapply timed_sleeper_core; [symmetry; apply Ec|]|].
    rewrite <- Hl. unfold ticks_left. by rewrite <- (ce_time _ _ Ec), <- (core_eq_wakeup s1 s').
  - by rewrite (qe_callout_list _ _ Q).
  - intros q. by rewrite (queue_eq_eventq _ _ Q).
  - intros c. unfold callout_of at 1 3. rewrite (qe_callouts _ _ Q). apply T7.
Qed.

(** One tick, context switch included. *)
Lemma tick_step m :
  minv m → ∃ m', run_label LTick m = Ret m' ∧ minv m' ∧ tick_effect (ks m) (ks m') ∧
                 conts m' = conts m.
Proof.
  intros Hm. pose proof Hm as (Hk & Hp & Hi).
  assert (Hw : wp (timer_handler ;; PendSV_Handler) (λ _ s', tick_effect (ks m) s') (ks m)).
  { apply wp_bind. eapply wp_mono; [by apply timer_handler_spec|]. intros ? s1 ([Hk1 Hcr1] & T & _).
    eapply wp_mono; [apply (PendSV_kbase 1 1); [done|by right]|].
    intros ? s' (E & _). by eapply tick_effect_sw. }
  destruct (run_label_ok m LTick Hm I) as (m' & Hrun & Hm' & _). exists m'.
  apply wp_run in Hw as ([] & s' & Hs' & T). simpl in Hrun. rewrite Hs' in Hrun. simplify_eq/=.
  split_and!; try done. simpl. by rewrite Hs'.
Qed.

Lemma run_ticks_S n m m1 m' :
  run_labels (replicate n LTick) m = Ret m1 → run_label LTick m1 = Ret m' →
  run_labels (replicate (S n) LTick) m = Ret m'.
Proof.
  revert m. induction n as [|n IH]; intros m; cbn [replicate run_labels].
  - intros [= ->] ->. done.
  - destruct (run_label LTick m) as [m2|] eqn:E; [|done]. intros H1 H2.
    specialize (IH m2 H1 H2). by cbn [replicate run_labels] in IH.
Qed.

(** A timed sleeper with [n] ticks to go sleeps through [n - 1] ticks and is woken
    by the [n]th. *)
Lemma sleeper_ticks m t :
  minv m → timed_sleeper (ks m) t → ∀ n, Z.of_nat n <= ticks_left (ks m) t →
  ∃ m', run_labels (replicate n LTick) m = Ret m' ∧ minv m' ∧
    if decide (Z.of_nat n = ticks_left (ks m) t) then task_state (ks m') t = OS_TASK_READY
    else timed_sleeper (ks m') t ∧ ticks_left (ks m') t = ticks_left (ks m) t - Z.of_nat n.
Proof.
  intros Hm Ht. pose proof Hm as ([Hk _] & _).
  assert (Hpos : 1 <= ticks_left (ks m) t).
  { destruct Ht as [Hst Hn]. destruct (ki_sched _ _ _ Hk) as (Hs & Hsl & _).
    apply (sl_range _ _ Hsl t); [by apply Hs|done]. }
  induction n as [|n IH]; intros Hle.
  - exists m. rewrite decide_False by lia. split; [done|]. split; [done|]. split; [done|lia].
  - destruct IH as (m1 & Hr1 & Hm1 & Hs1); [lia|]. rewrite decide_False in Hs1 by lia.
    destruct Hs1 as [Hts1 Hl1]. destruct (tick_step m1 Hm1) as (m' & Hr' & Hm' & T & _).
    exists m'. split; [by eapply run_ticks_S|]. split; [done|].
    pose proof (te_wake _ _ T t Hts1) as Hw. rewrite Hl1 in Hw. revert Hw.
    destruct (decide (ticks_left (ks m) t - Z.of_nat n = 1)).
    + by rewrite decide_True by lia.
    + rewrite decide_False by lia. intros [? ?]. split; [done|lia].
Qed.

(** An armed callout with [n] ticks to go stays armed for [n - 1] ticks, and the
    [n]th puts its event on its queue. *)
Lemma callout_ticks m c q :
  minv m → c ∈ g_callout_list (ks m) → c_evq (callout_of (ks m) c) = Some q →
  ∀ n, Z.of_nat n <= callout_key (ks m) c →
  ∃ m', run_labels (replicate n LTick) m = Ret m' ∧ minv m' ∧
    c_evq (callout_of (ks m') c) = Some q ∧
    if decide (Z.of_nat n = callout_key (ks m) c)
    then EvCallout c ∈ evq_list (eventq_of (ks m') q) ∧ c ∉ g_callout_list (ks m')
    else c ∈ g_callout_list (ks m') ∧ callout_key (ks m') c = callout_key (ks m) c - Z.of_nat n.
Proof.
  intros Hm Hc Hq. pose proof Hm as ([Hk _] & _).
  pose proof (co_range _ _ (ki_callout _ _ _ Hk) c Hc) as Hpos.
  induction n as [|n IH]; intros Hle.
  - exists m. rewrite decide_False by lia. split; [done|]. split; [done|]. split_and!; [done|done|lia].
  - destruct IH as (m1 & Hr1 & Hm1 & Hq1 & Hs1); [lia|]. rewrite decide_False in Hs1 by lia.
    destruct Hs1 as [Hin1 Hl1]. destruct (tick_step m1 Hm1) as (m' & Hr' & Hm' & T & _).
    exists m'. split; [by eapply run_ticks_S|]. split; [done|].
    destruct (te_callout _ _ T c) as [Hevq Htk]. rewrite Hevq. split; [done|].
    rewrite (te_callouts _ _ T).
    destruct (decide (Z.of_nat (S n) = callout_key (ks m) c)) as [E|E];
      rewrite list_elem_of_filter, Hl1.
    + split; [|rewrite (proj2 (Z.eqb_eq _ _)) by lia; naive_solver].
      rewrite (te_queue _ _ T), elem_of_app.
      destruct (ev_queued (event_of (ks m1) (EvCallout c))) eqn:Hev.
      * left. pose proof Hm1 as ([Hk1 _] & _). apply (ev_iff _ (ki_ev _ _ _ Hk1)) in Hev as (j & Hj).
        pose proof (co_event _ _ (ki_callout _ _ _ Hk1) c j Hj). by simplify_eq.
      * right. apply list_elem_of_fmap_2. apply list_elem_of_filter. split; [|done].
        rewrite Hl1, (proj2 (Z.eqb_eq _ _)), bool_decide_true, Hev by (done || lia). done.
    + split; [by rewrite (proj2 (Z.eqb_neq _ _)) by lia|]. unfold callout_key in *.
      rewrite Htk, (te_time _ _ T), ticks_until_succ; lia.
Qed.
