(* ===== verification/OsProps.v ===== *)
(** Properties of the kernel.

    The theorems about the OS kernel as a whole and about its components, each
    with an instance on a concrete system ([demo]: the idle task and two tasks of
    priorities 10 and 20). *)
From Stdlib Require Import ZArith Lia.
From stdpp Require Import base decidable list numbers gmap.
From S2P Require Import Prelude.
From S2P Require Import OsState.
From S2P Require Import OsSched.
From S2P Require Import OsInv.
From S2P Require Import OsSem.
From S2P Require Import OsMutex.
From S2P Require Import OsEventq.
From S2P Require Import OsCallout.
From S2P Require Import OsSanity.
From S2P Require Import OsTask.
From S2P Require Import OsKernel.

#[local] Open Scope Z_scope.

(** ** A small system *)

Definition demo_regs : list Z := replicate 8 0.
Definition demo_idle : task_desc :=
  mk_desc g_idle_task demo_regs 1000 0 OS_IDLE_PRIO OS_WAIT_FOREVER (replicate 32 0) 32.
Definition demo_tasks : list task_desc :=
  [mk_desc 1 demo_regs 2000 0 10 OS_WAIT_FOREVER (replicate 16 0) 16;
   mk_desc 2 demo_regs 3000 0 20 OS_WAIT_FOREVER (replicate 16 0) 16].

Definition run_from_boot {A} (p : K A) : res (A * kstate) :=
  (boot demo_idle demo_tasks ;; p) zero_state.

Definition state_after {A} (p : K A) : kstate :=
  match run_from_boot p with Ret (_, s) => s | Fault _ => zero_state end.

Definition demo : mstate := mk_mstate (state_after (mret tt)) ∅.

Definition mstate_after (ls : list label) : mstate :=
  match run_labels ls demo with Ret m => m | Fault _ => demo end.

(** The descriptors a system may be booted with. *)
Definition boot_ok (idle : task_desc) (ds : list task_desc) : Prop :=
  length (td_regs idle) = 8%nat ∧ length (td_stack idle) = Z.to_nat OS_IDLE_STACK_SIZE ∧
  NoDup (g_idle_task :: (td_tid <$> ds)) ∧ Forall desc_ok ds.

Lemma demo_boot_ok : boot_ok demo_idle demo_tasks.
Proof.
  split_and!; [done|done| |].
  - unfold g_idle_task. simpl. repeat (apply NoDup_cons; split; [set_solver|]). apply NoDup_nil_2.
  - repeat constructor; simpl; lia.
Qed.

Lemma boot_run idle ds :
  boot_ok idle ds → ∃ s0, boot idle ds zero_state = Ret (tt, s0) ∧
    minv (mk_mstate s0 ∅) ∧ cur_top (mk_mstate s0 ∅).
Proof.
  intros (? & ? & ? & ?). pose proof (boot_spec idle ds) as Hb.
  destruct (proj1 (wp_run _ _ _) (Hb ltac:(done) ltac:(done) ltac:(done) ltac:(done)))
    as ([] & s0 & ? & ? & ?). eauto.
Qed.

Lemma demo_minv : minv demo.
Proof.
  destruct (boot_run _ _ demo_boot_ok) as (s0 & Hb & Hm & _).
  assert (demo = mk_mstate s0 ∅) as ->; [|done].
  unfold demo, state_after, run_from_boot, mbind, M_bind. by rewrite Hb.
Qed.

(** ** The whole kernel *)

(** C1. The kernel boots, and from then on no permitted system call, continuation
    of a blocked call or timer tick faults (no failed assertion, no NULL
    dereference, no removal of an unlinked list element, no endless loop), and
    each leaves the kernel invariant intact. *)
Theorem kernel_safe idle ds :
  boot_ok idle ds →
  ∃ s0, boot idle ds zero_state = Ret (tt, s0) ∧
    ∀ m l, reachable (mk_mstate s0 ∅) m → enabled m l →
      minv m ∧ ∃ m', run_label l m = Ret m' ∧ minv m'.
Proof.
  intros Hok. destruct (boot_run idle ds Hok) as (s0 & Hb & Hm & _). exists s0. split; [done|].
  intros m l Hr He. pose proof (reachable_minv _ _ Hm Hr) as Hm'. split; [done|].
  destruct (run_label_ok m l Hm' He) as (m' & ? & ? & _). eauto.
Qed.

Lemma kernel_safe_witness :
  ∃ s0, boot demo_idle demo_tasks zero_state = Ret (tt, s0) ∧
    ∀ m l, reachable (mk_mstate s0 ∅) m → enabled m l →
      minv m ∧ ∃ m', run_label l m = Ret m' ∧ minv m'.
Proof. exact (kernel_safe demo_idle demo_tasks demo_boot_ok). Defined.

(** A run of system calls that are all preempting. *)
Inductive preempting_run (m0 : mstate) : mstate → Prop :=
| prun_refl : preempting_run m0 m0
| prun_step m l m' :
    preempting_run m0 m → preempting_label l → step m l m' → preempting_run m0 m'.

Lemma preempting_run_inv m0 m :
  minv m0 → cur_top m0 → preempting_run m0 m → minv m ∧ cur_top m.
Proof.
  intros H0 Ht Hr. induction Hr as [|m l m' _ [IHm IHt] Hl [He Hrun]]; [done|].
  destruct (run_label_ok m l IHm He) as (m'' & Hrun' & ? & Htop & _).
  rewrite Hrun in Hrun'. simplify_eq. auto.
Qed.

Lemma cur_top_highest m :
  minv m → cur_top m → ∃ c, g_current_task (ks m) = Some c ∧ highest_ready (ks m) c.
Proof.
  intros ([Hk (c & Hc & _)] & _) Ht. exists c. split; [done|].
  apply head_highest_ready; [apply Hk|]. by rewrite <- Ht.
Qed.

(** C2. Preemption: along every run whose calls are neither [os_task_init] nor
    [os_sem_delete], the task that runs is ready and no ready task has a higher
    priority. *)
Theorem kernel_runs_highest idle ds s0 m :
  boot_ok idle ds → boot idle ds zero_state = Ret (tt, s0) →
  preempting_run (mk_mstate s0 ∅) m →
  ∃ c, g_current_task (ks m) = Some c ∧ highest_ready (ks m) c.
Proof.
  intros Hok Hb Hr. destruct (boot_run idle ds Hok) as (s0' & Hb' & Hm & Ht).
  rewrite Hb in Hb'. simplify_eq. destruct (preempting_run_inv _ _ Hm Ht Hr). by apply cur_top_highest.
Qed.

Lemma kernel_runs_highest_witness :
  ∃ c, g_current_task (ks demo) = Some c ∧ highest_ready (ks demo) c.
Proof.
  apply (kernel_runs_highest demo_idle demo_tasks (ks demo)).
  - exact demo_boot_ok.
  - by vm_compute.
  - apply prun_refl.
Defined.

(** The timer tick always ends with a highest-priority ready task running,
    whatever calls were made before. *)
Theorem tick_runs_highest m :
  minv m →
  ∃ m' c, run_label LTick m = Ret m' ∧ g_current_task (ks m') = Some c ∧ highest_ready (ks m') c.
Proof.
  intros Hm. destruct (run_label_ok m LTick Hm I) as (m' & Hrun & Hm' & _ & Ht).
  destruct (cur_top_highest m' Hm') as (c & ? & ?); [by apply Ht|]. eauto 6.
Qed.

Lemma tick_runs_highest_witness :
  ∃ m' c, run_label LTick demo = Ret m' ∧ g_current_task (ks m') = Some c ∧ highest_ready (ks m') c.
Proof. exact (tick_runs_highest demo demo_minv). Defined.

(** ** Time *)

Lemma minv_step m l m' : minv m → enabled m l → run_label l m = Ret m' → minv m'.
Proof.
  intros Hm He Hr. destruct (run_label_ok m l Hm He) as (m'' & Hr' & ? & _).
  rewrite Hr in Hr'. by simplify_eq.
Qed.

(** Task 1 sleeps for five ticks. *)
Definition demo_delay : mstate := mstate_after [LCall (CTimeDelay 5)].

Lemma demo_delay_minv : minv demo_delay.
Proof.
  apply (minv_step demo (LCall (CTimeDelay 5))); [exact demo_minv| |by vm_compute].
  exists 1%nat. split_and!; [by vm_compute|done|by vm_compute|done].
Qed.

(** C7. A task that sleeps with a timeout of [n] ticks left sleeps through the
    next [n - 1] ticks and is ready after the [n]th. *)
Theorem sleeper_wakes_on_time m t :
  minv m → timed_sleeper (ks m) t → ∀ n, Z.of_nat n <= ticks_left (ks m) t →
  ∃ m', run_labels (replicate n LTick) m = Ret m' ∧ minv m' ∧
    if decide (Z.of_nat n = ticks_left (ks m) t) then task_state (ks m') t = OS_TASK_READY
    else timed_sleeper (ks m') t ∧ ticks_left (ks m') t = ticks_left (ks m) t - Z.of_nat n.
Proof. apply sleeper_ticks. Qed.

Lemma sleeper_wakes_on_time_witness :
  ∃ m', run_labels (replicate 5 LTick) demo_delay = Ret m' ∧ minv m' ∧
    if decide (Z.of_nat 5 = ticks_left (ks demo_delay) 1%nat)
    then task_state (ks m') 1%nat = OS_TASK_READY
    else timed_sleeper (ks m') 1%nat ∧
         ticks_left (ks m') 1%nat = ticks_left (ks demo_delay) 1%nat - Z.of_nat 5.
Proof.
  apply (sleeper_wakes_on_time demo_delay 1%nat); [exact demo_delay_minv|split; by vm_compute|].
  by vm_compute.
Defined.

(** Callout 0 of queue 3, armed for two ticks. *)
Definition demo_callout : mstate :=
  mstate_after [LCall (CCalloutInit 0 (Some 3%nat) 7); LCall (CCalloutReset 0 2)].

Lemma demo_callout_minv : minv demo_callout.
Proof.
  apply (minv_step (mstate_after [LCall (CCalloutInit 0 (Some 3%nat) 7)])
           (LCall (CCalloutReset 0 2))); [| |by vm_compute].
  - apply (minv_step demo (LCall (CCalloutInit 0 (Some 3%nat) 7))); [exact demo_minv| |by vm_compute].
    exists 1%nat. split_and!; [by vm_compute|done|by vm_compute|].
    split; [vm_compute; apply not_elem_of_nil|by vm_compute].
  - exists 1%nat. split_and!; [by vm_compute|done|by vm_compute|].
    split; [lia|]. exists 3%nat. by vm_compute.
Qed.

(** C19. A callout armed with [n] ticks to go stays armed for [n - 1] ticks; the
    [n]th takes it off the list and its event is on its queue. *)
Theorem callout_fires_on_time m c q :
  minv m → c ∈ g_callout_list (ks m) → c_evq (callout_of (ks m) c) = Some q →
  ∀ n, Z.of_nat n <= callout_key (ks m) c →
  ∃ m', run_labels (replicate n LTick) m = Ret m' ∧
    if decide (Z.of_nat n = callout_key (ks m) c)
    then EvCallout c ∈ evq_list (eventq_of (ks m') q) ∧ c ∉ g_callout_list (ks m')
    else c ∈ g_callout_list (ks m') ∧ callout_key (ks m') c = callout_key (ks m) c - Z.of_nat n.
Proof.
  intros Hm Hc Hq n Hn. destruct (callout_ticks m c q Hm Hc Hq n Hn) as (m' & ? & _ & _ & ?). eauto.
Qed.

Lemma callout_fires_on_time_witness :
  ∃ m', run_labels (replicate 2 LTick) demo_callout = Ret m' ∧
    if decide (Z.of_nat 2 = callout_key (ks demo_callout) 0%nat)
    then EvCallout 0 ∈ evq_list (eventq_of (ks m') 3%nat) ∧ 0%nat ∉ g_callout_list (ks m')
    else 0%nat ∈ g_callout_list (ks m') ∧
         callout_key (ks m') 0%nat = callout_key (ks demo_callout) 0%nat - Z.of_nat 2.
Proof.
  apply (callout_fires_on_time demo_callout 0%nat 3%nat);
    [exact demo_callout_minv| |by vm_compute|by vm_compute].
  vm_compute. constructor.
Defined.

(** One timer interrupt: the clock advances by one (modulo 2^32), exactly the
    timed sleepers whose time has come are woken, exactly the due callouts are
    taken off the list and their events are appended to their queues in due
    order, and priorities do not change. *)
Theorem timer_tick_effect s :
  kinv 1 1 s → wp timer_handler (λ _ s', kinv 1 1 s' ∧ tick_effect s s') s.
Proof.
  intros Hk. eapply wp_mono; [by apply timer_handler_spec|]. by intros ? s' (? & ? & _).
Qed.

Lemma timer_tick_effect_witness :
  wp timer_handler (λ _ s', kinv 1 1 s' ∧ tick_effect (ks demo_callout) s') (ks demo_callout).
Proof. exact (timer_tick_effect (ks demo_callout) (proj1 demo_callout_minv)). Defined.

(** ** Semaphores *)

(** Task 1 waits for semaphore 0, task 2 runs. *)
Definition demo_sem : mstate := mstate_after [LCall (CSemPend (Some 0%nat) OS_TIMEOUT_NEVER)].

Lemma demo_sem_minv : minv demo_sem.
Proof.
  apply (minv_step demo (LCall (CSemPend (Some 0%nat) OS_TIMEOUT_NEVER))); [exact demo_minv| |by vm_compute].
  exists 1%nat. split_and!; [by vm_compute|done|by vm_compute|]. right. by left.
Qed.

(** C11. Releasing a semaphore with waiters gives the token to the first waiter:
    it leaves the waiter list, becomes ready, its own call returns OS_OK when it
    runs, no token is banked, and a context switch is requested exactly if the
    waiter has a higher priority than the caller. *)
Theorem sem_release_grants s k r l c :
  kinv 1 1 s → pendsv s = false → g_current_task s = Some c → sem_head (sem_of s k) = r :: l →
  wp (os_sem_release (Some k)) (λ rc s',
    rc = OS_OK ∧ kinv 1 1 s' ∧ task_state s' r = OS_TASK_READY ∧
    sem_head (sem_of s' k) = l ∧ sem_tokens (sem_of s' k) = sem_tokens (sem_of s k) ∧
    pendsv s' = (task_prio s r <? task_prio s c) ∧
    os_sem_pend_resume r s' = Ret (OS_OK, s')) s.
Proof.
  intros Hk Hp Hc Hh. destruct (grant_st_ok _ _ _ _ _ _ Hk Hh) as (_ & _ & F & Hl & Hst).
  eapply wp_mono; [by eapply os_sem_release_wake|].
  intros rc s' (-> & Hk' & _ & [E _] & Hp').
  assert (Hsem : sem_of s' k = sem_of (grant_st r s) k) by (unfold sem_of; by rewrite (ce_sems _ _ E)).
  split_and!; [done|done| | | |done|].
  - by rewrite <- (core_eq_state (grant_st r s) s').
  - by rewrite Hsem.
  - rewrite Hsem, (wf_tokens _ _ F). done.
  - unfold os_sem_pend_resume, mbind, M_bind, get.
    rewrite <- (core_eq_flags (grant_st r s) s') by done. by rewrite grant_st_flag.
Qed.

Lemma sem_release_grants_witness :
  wp (os_sem_release (Some 0%nat)) (λ rc s',
    rc = OS_OK ∧ kinv 1 1 s' ∧ task_state s' 1%nat = OS_TASK_READY ∧
    sem_head (sem_of s' 0%nat) = [] ∧
    sem_tokens (sem_of s' 0%nat) = sem_tokens (sem_of (ks demo_sem) 0%nat) ∧
    pendsv s' = (task_prio (ks demo_sem) 1%nat <? task_prio (ks demo_sem) 2%nat) ∧
    os_sem_pend_resume 1%nat s' = Ret (OS_OK, s')) (ks demo_sem).
Proof.
  apply (sem_release_grants (ks demo_sem) 0%nat 1%nat [] 2%nat);
    [exact (proj1 demo_sem_minv)|by vm_compute..].
Defined.

(** Pending on a semaphore without tokens blocks: the caller goes behind the
    waiters of at least its priority, sleeps, and the processor is given up;
    with a token the call takes it at once; with neither token nor timeout it
    fails and changes nothing. *)
Theorem sem_pend_cases s k c timeout :
  kinv 1 1 s → g_current_task s = Some c → c ≠ g_idle_task → timeout = 0 ∨ timeout_ok timeout →
  wp (os_sem_pend (Some k) timeout) (λ r s',
    if decide (sem_tokens (sem_of s k) = 0) then
      if decide (timeout = 0) then r = Some OS_TIMEOUT ∧ s' = s
      else r = None ∧ kbase 1 1 s' ∧ pendsv s' = true ∧ task_state s' c = OS_TASK_SLEEP ∧
           sem_head (sem_of s' k) =
             insert_before (λ e, task_prio s c <? task_prio s e) c (sem_head (sem_of s k))
    else r = Some OS_OK ∧ kinv 1 1 s' ∧
         sem_tokens (sem_of s' k) = sem_tokens (sem_of s k) - 1) s.
Proof.
  intros Hk Hc Hid Hn. destruct (decide (sem_tokens (sem_of s k) = 0)) as [Ht|Ht].
  - destruct (decide (timeout = 0)) as [->|Hnz].
    + eapply wp_eq; [apply os_sem_pend_poll; [apply Hk|done]|]. done.
    + destruct Hn as [|Hn]; [done|]. eapply wp_mono; [by apply os_sem_pend_block|].
      intros r s' (-> & Hk' & Hp' & _ & [E _]). split_and!; [done|done|done| |].
      * rewrite <- (core_eq_state _ s') by done. by rewrite sleep_st_state, decide_True.
      * rewrite <- sem_link_st_head.
        -- change (obj_head s' (ObjSem k) = obj_head (sem_link_st c k s) (ObjSem k)).
           by rewrite <- (core_eq_obj_head _ s' _ E), sleep_st_obj_head.
        -- apply (wo_nodup _ (proj1 (proj2 (proj2 (ki_sched _ _ _ (proj1 Hk))))) (ObjSem k)).
  - destruct (os_sem_pend_take s k timeout Hk Ht) as (Hrun & ? & ?). eapply wp_eq; [exact Hrun|]. done.
Qed.

Lemma sem_pend_cases_witness :
  wp (os_sem_pend (Some 0%nat) 100) (λ r s',
    if decide (sem_tokens (sem_of (ks demo_sem) 0%nat) = 0) then
      if decide (100 = 0) then r = Some OS_TIMEOUT ∧ s' = ks demo_sem
      else r = None ∧ kbase 1 1 s' ∧ pendsv s' = true ∧ task_state s' 2%nat = OS_TASK_SLEEP ∧
           sem_head (sem_of s' 0%nat) =
             insert_before (λ e, task_prio (ks demo_sem) 2%nat <? task_prio (ks demo_sem) e) 2%nat
               (sem_head (sem_of (ks demo_sem) 0%nat))
    else r = Some OS_OK ∧ kinv 1 1 s' ∧
         sem_tokens (sem_of s' 0%nat) = sem_tokens (sem_of (ks demo_sem) 0%nat) - 1) (ks demo_sem).
Proof.
  apply (sem_pend_cases (ks demo_sem) 0%nat 2%nat 100);
    [exact (proj1 demo_sem_minv)|by vm_compute|done|]. right. right. lia.
Defined.

(** Deleting a semaphore makes every waiter ready and takes all tokens; the
    waiters' calls will return OS_TIMEOUT (their wait flag is kept). *)
Theorem sem_delete_wakes_all s k c :
  kinv 1 1 s → pendsv s = false → g_current_task s = Some c →
  wp (os_sem_delete (Some k)) (λ rc s',
    rc = OS_OK ∧ kinv 1 1 s' ∧ sem_tokens (sem_of s' k) = 0 ∧ sem_head (sem_of s' k) = [] ∧
    ∀ t, t ∈ sem_head (sem_of s k) → task_state s' t = OS_TASK_READY ∧
      has_flag (t_flags (task_of s' t)) OS_TASK_FLAG_SEM_WAIT =
        has_flag (t_flags (task_of s t)) OS_TASK_FLAG_SEM_WAIT) s.
Proof.
  intros Hk Hp Hc. eapply wp_mono; [by apply os_sem_delete_spec|].
  intros rc s' (? & ? & _ & ? & ? & ? & _). by split_and!.
Qed.

Lemma sem_delete_wakes_all_witness :
  wp (os_sem_delete (Some 0%nat)) (λ rc s',
    rc = OS_OK ∧ kinv 1 1 s' ∧ sem_tokens (sem_of s' 0%nat) = 0 ∧ sem_head (sem_of s' 0%nat) = [] ∧
    ∀ t, t ∈ sem_head (sem_of (ks demo_sem) 0%nat) → task_state s' t = OS_TASK_READY ∧
      has_flag (t_flags (task_of s' t)) OS_TASK_FLAG_SEM_WAIT =
        has_flag (t_flags (task_of (ks demo_sem) t)) OS_TASK_FLAG_SEM_WAIT) (ks demo_sem).
Proof.
  apply (sem_delete_wakes_all (ks demo_sem) 0%nat 2%nat); [exact (proj1 demo_sem_minv)|by vm_compute..].
Defined.

(** ** Mutexes *)

(** Task 2 takes mutex 1 while task 1 sleeps; a tick later task 1 runs. *)
Definition demo_mutex : mstate :=
  mstate_after [LCall (CTimeDelay 1); LCall (CMutexPend (Some 1%nat) 0); LTick; LResume].
(** Then task 1 waits for the mutex, and task 2 runs with priority 10. *)
Definition demo_mutex_wait : mstate :=
  mstate_after [LCall (CTimeDelay 1); LCall (CMutexPend (Some 1%nat) 0); LTick; LResume;
                LCall (CMutexPend (Some 1%nat) OS_TIMEOUT_NEVER)].

Lemma demo_mutex_minv : minv demo_mutex.
Proof.
  apply (minv_step (mstate_after [LCall (CTimeDelay 1); LCall (CMutexPend (Some 1%nat) 0); LTick]) LResume);
    [| |by vm_compute].
  2:{ exists 1%nat. split; [by vm_compute|]. exists KDelay. by vm_compute. }
  apply (minv_step (mstate_after [LCall (CTimeDelay 1); LCall (CMutexPend (Some 1%nat) 0)]) LTick);
    [|done|by vm_compute].
  apply (minv_step (mstate_after [LCall (CTimeDelay 1)]) (LCall (CMutexPend (Some 1%nat) 0)));
    [| |by vm_compute].
  2:{ exists 2%nat. split_and!; [by vm_compute|done|by vm_compute|]. split; [by left|by vm_compute]. }
  apply (minv_step demo (LCall (CTimeDelay 1))); [exact demo_minv| |by vm_compute].
  exists 1%nat. split_and!; [by vm_compute|done|by vm_compute|done].
Qed.

Lemma demo_mutex_wait_minv : minv demo_mutex_wait.
Proof.
  apply (minv_step demo_mutex (LCall (CMutexPend (Some 1%nat) OS_TIMEOUT_NEVER)));
    [exact demo_mutex_minv| |by vm_compute].
  exists 1%nat. split_and!; [by vm_compute|done|by vm_compute|].
  split; [right; by left|by vm_compute].
Qed.

(** C10. Priority inheritance: a task that has to wait for a mutex sleeps on its
    waiter list, the owner keeps the mutex and runs with the higher of the two
    priorities, and nobody else's priority changes. *)
Theorem mutex_pend_inherits s k c o timeout :
  kinv 1 1 s → g_current_task s = Some c → c ≠ g_idle_task →
  mu_level (mutex_of s k) ≠ 0 → mu_owner (mutex_of s k) = Some o → o ≠ c →
  timeout ≠ 0 → timeout_ok timeout →
  wp (os_mutex_pend (Some k) timeout) (λ r s',
    r = None ∧ kbase 1 1 s' ∧ pendsv s' = true ∧
    task_state s' c = OS_TASK_SLEEP ∧ c ∈ mu_head (mutex_of s' k) ∧
    mu_owner (mutex_of s' k) = Some o ∧
    (∀ u, task_prio s' u = if decide (o = u) then Z.min (task_prio s o) (task_prio s c)
                           else task_prio s u)) s.
Proof.
  intros. eapply wp_mono; [by apply (os_mutex_pend_block s k c o)|].
  intros r s' (? & ? & ? & _ & ? & ? & ? & ?). by split_and!.
Qed.

Lemma mutex_pend_inherits_witness :
  wp (os_mutex_pend (Some 1%nat) 50) (λ r s',
    r = None ∧ kbase 1 1 s' ∧ pendsv s' = true ∧
    task_state s' 1%nat = OS_TASK_SLEEP ∧ 1%nat ∈ mu_head (mutex_of s' 1%nat) ∧
    mu_owner (mutex_of s' 1%nat) = Some 2%nat ∧
    (∀ u, task_prio s' u = if decide (2%nat = u)
       then Z.min (task_prio (ks demo_mutex) 2%nat) (task_prio (ks demo_mutex) 1%nat)
       else task_prio (ks demo_mutex) u)) (ks demo_mutex).
Proof.
  apply (mutex_pend_inherits (ks demo_mutex) 1%nat 1%nat 2%nat 50);
    [exact (proj1 demo_mutex_minv)|by vm_compute..|]. right. lia.
Defined.

(** C9. The owner's last release restores the priority the owner had when it took
    the mutex and hands the mutex to its first waiter, which becomes ready; with
    no waiter the mutex becomes free.  A context switch is requested exactly if
    another task is now at the head of the run list. *)
Theorem mutex_release_hands_over s k c :
  kinv 1 1 s → pendsv s = false → g_current_task s = Some c →
  mu_owner (mutex_of s k) = Some c → mu_level (mutex_of s k) = 1 →
  wp (os_mutex_release (Some k)) (λ rc s',
    rc = OS_OK ∧ kinv 1 1 s' ∧ handed_over s k s' ∧
    (∀ u, task_prio s' u = if decide (c = u) then mu_prio (mutex_of s k) else task_prio s u) ∧
    pendsv s' = bool_decide (head (g_os_run_list s') ≠ Some c)) s.
Proof.
  intros. eapply wp_mono; [by apply (os_mutex_release_last s k c)|].
  intros rc s' (? & (? & _ & ? & ?) & ?). by split_and!.
Qed.

Lemma mutex_release_hands_over_witness :
  let s := ks demo_mutex_wait in
  wp (os_mutex_release (Some 1%nat)) (λ rc s',
    rc = OS_OK ∧ kinv 1 1 s' ∧ handed_over s 1%nat s' ∧
    (∀ u, task_prio s' u = if decide (2%nat = u) then mu_prio (mutex_of s 1%nat) else task_prio s u) ∧
    pendsv s' = bool_decide (head (g_os_run_list s') ≠ Some 2%nat)) s.
Proof.
  apply (mutex_release_hands_over (ks demo_mutex_wait) 1%nat 2%nat);
    [exact (proj1 demo_mutex_wait_minv)|by vm_compute..].
Defined.

(** C8. Mutual exclusion: a release by a task that does not own the mutex is
    refused and changes nothing; an owned mutex is given to nobody else: a pend
    by another task never returns OS_OK at once and leaves the owner in place. *)
Theorem mutex_exclusive s k c timeout :
  kinv 1 1 s → g_current_task s = Some c → c ≠ g_idle_task →
  mu_level (mutex_of s k) ≠ 0 → mu_owner (mutex_of s k) ≠ Some c →
  timeout = 0 ∨ timeout_ok timeout →
  os_mutex_release (Some k) s = Ret (OS_BAD_MUTEX, s) ∧
  wp (os_mutex_pend (Some k) timeout) (λ r s',
    r ≠ Some OS_OK ∧ mu_owner (mutex_of s' k) = mu_owner (mutex_of s k)) s.
Proof.
  intros Hk Hc Hid Hl Ho Hn. split.
  { apply os_mutex_release_bad; [apply Hk|right; congruence]. }
  destruct (ki_mutex _ _ _ (proj1 Hk) k) as (_ & _ & Hown). destruct (Hown Hl) as (o & Hoo & _).
  destruct (decide (timeout = 0)) as [->|Hnz].
  - eapply wp_eq; [apply os_mutex_pend_poll; [apply Hk|done|congruence]|]. done.
  - destruct Hn as [|Hn]; [done|].
    eapply wp_mono; [apply (os_mutex_pend_block s k c o); try done; congruence|].
    intros r s' (-> & _ & _ & _ & _ & _ & -> & _). by rewrite Hoo.
Qed.

Lemma mutex_exclusive_witness :
  let s := ks demo_mutex in
  os_mutex_release (Some 1%nat) s = Ret (OS_BAD_MUTEX, s) ∧
  wp (os_mutex_pend (Some 1%nat) 50) (λ r s',
    r ≠ Some OS_OK ∧ mu_owner (mutex_of s' 1%nat) = mu_owner (mutex_of s 1%nat)) s.
Proof.
  apply (mutex_exclusive (ks demo_mutex) 1%nat 1%nat 50);
    [exact (proj1 demo_mutex_minv)|by vm_compute..|]. right. right. lia.
Defined.

(** C35. [os_mutex_release] decrements the level outside its critical section.
    When a task [c] that releases a mutex without waiters for the last time is
    preempted there ([s1]), any task [d] that runs before it takes the mutex at
    once ([s2] to [s3]); when [c] goes on ([s4]) its call reports success too but
    leaves the mutex at level 1 without an owner and [c] with the priority of [d]
    ([s5]).  From then on, whatever task runs ([s6]), a release is refused and a
    pend with a timeout dereferences the NULL owner. *)
Theorem mutex_release_race s k c :
  kinv 1 1 s → g_current_task s = Some c →
  mu_level (mutex_of s k) = 1 → mu_owner (mutex_of s k) = Some c → mu_head (mutex_of s k) = [] →
  ∃ s1, os_mutex_release_enter (Some k) s = Ret (inr (k, c), s1) ∧
  ∀ s2 d timeout,
    g_os_started s2 = true → g_current_task s2 = Some d → mutex_of s2 k = mutex_of s1 k →
    ∃ s3, os_mutex_pend (Some k) timeout s2 = Ret (Some OS_OK, s3) ∧
      mutex_of s3 k = mk_mutex [] (task_prio s2 d) 1 (Some d) ∧
  ∀ s4,
    kinv 1 1 s4 → g_current_task s4 = Some c → mutex_of s4 k = mutex_of s3 k →
    ∃ s5, os_mutex_release_crit k c s4 = Ret (OS_OK, s5) ∧
      mu_level (mutex_of s5 k) = 1 ∧ mu_owner (mutex_of s5 k) = None ∧
      task_prio s5 c = task_prio s2 d ∧
  ∀ s6 e,
    g_os_started s6 = true → g_current_task s6 = Some e → mutex_of s6 k = mutex_of s5 k →
    os_mutex_release (Some k) s6 = Ret (OS_BAD_MUTEX, s6) ∧
    ∀ t, t ≠ 0 → os_mutex_pend (Some k) t s6 = Fault FNull.
Proof.
  intros [Hk _] Hc Hl Ho Hh. pose proof (ki_mutex _ _ _ Hk k) as Hm. eexists. split.
  { rewrite (os_mutex_release_enter_run s k c), decide_True; try done; [apply Hk|lia]. }
  intros s2 d timeout Hst2 Hc2 Hm2. rewrite mutex_of_upd, decide_True in Hm2 by done.
  eexists. split; [apply (os_mutex_pend_take s2 k d timeout); try done; rewrite Hm2; simpl; lia|].
  assert (Hm3 : mutex_of (take_st k d s2) k = mk_mutex [] (task_prio s2 d) 1 (Some d))
    by by rewrite take_st_mutex, Hm2; simpl; rewrite Hh.
  split; [done|]. intros s4 Hk4 Hc4 Hm4. rewrite Hm3 in Hm4.
  destruct (proj1 (wp_run _ _ _) (os_mutex_release_crit_stale s4 k c Hk4 Hc4 ltac:(by rewrite Hm4)))
    as (rc & s5 & E5 & -> & Hm5 & Hp5). rewrite Hm4 in Hm5, Hp5.
  exists s5. split; [done|]. rewrite Hm5. split_and!; [done..|].
  intros s6 e Hst6 Hc6 Hm6. split.
  - apply os_mutex_release_bad; [done|]. right. by rewrite Hm6, Hc6.
  - intros t Ht. by apply (os_mutex_pend_orphan s6 k e); rewrite ?Hm6.
Qed.

(** A schedule with the race: task 1 sleeps for a tick while task 2 owns mutex 1
    and runs its release up to the critical section; the tick wakes task 1, which
    takes the mutex and sleeps for five ticks; task 2 goes on, with the priority
    of task 1, until it sleeps; then task 1 runs again. *)
Definition race_start : mstate := mstate_after [LCall (CTimeDelay 1); LCall (CMutexPend (Some 1%nat) 0)].

Definition after {A} (r : res (A * kstate)) (m : mstate) : mstate :=
  match r with Ret (_, s) => mk_mstate s (conts m) | Fault _ => m end.
Definition then_run (ls : list label) (m : mstate) : mstate :=
  match run_labels ls m with Ret m' => m' | Fault _ => m end.

Definition race_1 : mstate := after (os_mutex_release_enter (Some 1%nat) (ks race_start)) race_start.
Definition race_2 : mstate := then_run [LTick; LResume] race_1.
Definition race_3 : mstate := after (os_mutex_pend (Some 1%nat) 0 (ks race_2)) race_2.
Definition race_4 : mstate := then_run [LCall (CTimeDelay 5)] race_3.
Definition race_5 : mstate := after (os_mutex_release_crit 1 2 (ks race_4)) race_4.
Definition race_6 : mstate := 
  then_run (replicate 5 LTick ++ [LCall (CTimeDelay 9); LResume]) race_5.

Lemma race_start_minv : minv race_start.
Proof.
  apply (minv_step (mstate_after [LCall (CTimeDelay 1)]) (LCall (CMutexPend (Some 1%nat) 0)));
    [| |by vm_compute].
  2:{ exists 2%nat. split_and!; [by vm_compute|done|by vm_compute|]. split; [by left|by vm_compute]. }
  apply (minv_step demo (LCall (CTimeDelay 1))); [exact demo_minv| |by vm_compute].
  exists 1%nat. split_and!; [by vm_compute|done|by vm_compute|done].
Qed.

(** The state in which task 2 goes on is the one it would have reached with the
    release complete before the tick, hence a state of the kernel. *)
Lemma race_4_minv : minv race_4.
Proof.
  apply (minv_step (then_run [LCall (CMutexRelease (Some 1%nat)); LTick; LResume;
    LCall (CMutexPend (Some 1%nat) 0)] race_start) (LCall (CTimeDelay 5))); [| |by vm_compute].
  2:{ exists 1%nat. split_and!; [by vm_compute|done|by vm_compute|done]. }
  apply (minv_step (then_run [LCall (CMutexRelease (Some 1%nat)); LTick; LResume] race_start)
    (LCall (CMutexPend (Some 1%nat) 0))); [| |by vm_compute].
  2:{ exists 1%nat. split_and!; [by vm_compute|done|by vm_compute|]. split; [by left|by vm_compute]. }
  apply (minv_step (then_run [LCall (CMutexRelease (Some 1%nat)); LTick] race_start) LResume);
    [| |by vm_compute].
  2:{ exists 1%nat. split; [by vm_compute|]. exists KDelay. by vm_compute. }
  apply (minv_step (then_run [LCall (CMutexRelease (Some 1%nat))] race_start) LTick);
    [|done|by vm_compute].
  apply (minv_step race_start (LCall (CMutexRelease (Some 1%nat)))); [exact race_start_minv| |by vm_compute].
  exists 2%nat. split_and!; [by vm_compute|done|by vm_compute|]. try done. all: try by vm_compute.
Qed.

Lemma mutex_release_race_witness :
  os_mutex_release_enter (Some 1%nat) (ks race_start) = Ret (inr (1%nat, 2%nat), ks race_1) ∧
  os_mutex_pend (Some 1%nat) 0 (ks race_2) = Ret (Some OS_OK, ks race_3) ∧
  os_mutex_release_crit 1 2 (ks race_4) = Ret (OS_OK, ks race_5) ∧
  os_mutex_release (Some 1%nat) (ks race_6) = Ret (OS_BAD_MUTEX, ks race_6) ∧
  os_mutex_pend (Some 1%nat) 9 (ks race_6) = Fault FNull.
Proof.
  destruct (mutex_release_race (ks race_start) 1 2) as (s1 & E1 & H1);
    [exact (proj1 race_start_minv)|by vm_compute..|].
  assert (s1 = ks race_1) as -> by (unfold race_1; rewrite E1; reflexivity).
  destruct (H1 (ks race_2) 1%nat 0) as (s3 & E3 & _ & H3); [by vm_compute..|].
  assert (s3 = ks race_3) as -> by (unfold race_3; rewrite E3; reflexivity).
  destruct (H3 (ks race_4)) as (s5 & E5 & _ & _ & _ & H5);
    [exact (proj1 race_4_minv)|by vm_compute..|].
  assert (s5 = ks race_5) as -> by (unfold race_5; rewrite E5; reflexivity).
  destruct (H5 (ks race_6) 1%nat) as [E6 E7]; [by vm_compute..|].
  refine (conj E1 (conj E3 (conj E5 (conj E6 (E7 9 _))))). lia.
Defined.

(** The priority saved in a mutex can be an inherited one: task 2 (priority
    20) takes mutex 1, inherits priority 10 from task 1, takes mutex 2, releases
    mutex 1 and then mutex 2, and ends up with priority 10 while it owns
    nothing. *)
Theorem mutex_priority_leak :
  let m := mstate_after
    [LCall (CTimeDelay 1); LCall (CMutexPend (Some 1%nat) 0); LTick; LResume;
     LCall (CMutexPend (Some 1%nat) OS_TIMEOUT_NEVER); LCall (CMutexPend (Some 2%nat) 0);
     LCall (CMutexRelease (Some 1%nat)); LResume; LCall (CTimeDelay 100);
     LCall (CMutexRelease (Some 2%nat))] in
  task_prio (ks demo) 2%nat = 20 ∧ task_prio (ks m) 2%nat = 10 ∧
  mu_owner (mutex_of (ks m) 1%nat) = Some 1%nat ∧ mu_owner (mutex_of (ks m) 2%nat) = None.
Proof. split_and!; by vm_compute. Qed.

(** A timeout above half the range of the clock: for the values between 2147483650 and
    4294967294, which the interface allows, the comparison of the next tick already finds
    the time to have come; a task that waits for 3000000000 ticks is woken by the first. *)
Theorem long_timeout_expires s n :
  2147483650 <= n < 4294967295 →
  OS_TIME_TICK_GEQ (u32 (g_os_time s + 1)) (u32 (g_os_time s + n)) = true ∧
  (task_state (ks (mstate_after [LCall (CSemPend (Some 0%nat) 3000000000)])) 1%nat = OS_TASK_SLEEP ∧
   task_state (ks (mstate_after [LCall (CSemPend (Some 0%nat) 3000000000); LTick])) 1%nat = OS_TASK_READY).
Proof.
  intros Hn. split; [|split; by vm_compute]. unfold OS_TIME_TICK_GEQ. wrap_lia.
Qed.

Lemma long_timeout_expires_witness :
  OS_TIME_TICK_GEQ (u32 (g_os_time zero_state + 1)) (u32 (g_os_time zero_state + 3000000000)) = true ∧
  (task_state (ks (mstate_after [LCall (CSemPend (Some 0%nat) 3000000000)])) 1%nat = OS_TASK_SLEEP ∧
   task_state (ks (mstate_after [LCall (CSemPend (Some 0%nat) 3000000000); LTick])) 1%nat = OS_TASK_READY).
Proof. apply (long_timeout_expires zero_state 3000000000). lia. Defined.

(** ** Event queues *)

Fixpoint put_all (q : nat) (es : list evid) : K unit :=
  match es with [] => mret tt | e :: es => os_eventq_put q e ;; put_all q es end.

Fixpoint get_n (q n : nat) : K (list (option evid)) :=
  match n with
  | O => mret []
  | S n => e ← os_eventq_get q; r ← get_n q n; mret (e :: r)
  end.

Lemma put_all_spec q es : ∀ s,
  kinv 1 1 s → evq_task (eventq_of s q) = None → NoDup es →
  (∀ e, e ∈ es → ev_queued (event_of s e) = false ∧ ev_target s q e) →
  wp (put_all q es) (λ _ s', kinv 1 1 s' ∧
    evq_list (eventq_of s' q) = evq_list (eventq_of s q) ++ es) s.
Proof.
  induction es as [|e es IH]; intros s Hk Ht Hnd He; simpl.
  { apply wp_ret. by rewrite app_nil_r. }
  apply NoDup_cons in Hnd as [Hnot Hnd]. destruct (He e) as [Hq Htg]; [by left|].
  apply wp_bind. eapply wp_mono; [by apply (os_eventq_put2_spec 1 1)|].
  intros ? s1 (Hk1 & Hput). unfold put_post in Hput. rewrite Hq in Hput.
  destruct Hput as (F & Hq1 & He1 & _). eapply wp_mono; [apply IH|].
  - done.
  - by rewrite Hq1.
  - done.
  - intros e' Hin. destruct (He e') as [Hq' Htg']; [by right|]. split.
    + rewrite He1, Hq', bool_decide_false; [done|congruence].
    + intros c ->. unfold callout_of. rewrite (pf_callouts _ _ _ F). by apply Htg'.
  - intros ? s' [Hk' Hl]. split; [done|]. rewrite Hl, Hq1. simpl. by rewrite <- (assoc_L (++)).
Qed.

Lemma get_n_spec q l : ∀ n s,
  kinv 1 1 s → evq_list (eventq_of s q) = l → (n <= length l)%nat →
  wp (get_n q n) (λ r s', r = Some <$> take n l ∧ kinv 1 1 s' ∧
    evq_list (eventq_of s' q) = drop n l) s.
Proof.
  induction l as [|e l IH]; intros n s Hk Hl Hn; [destruct n; [by apply wp_ret|simpl in Hn; lia]|].
  destruct n as [|n]; [by apply wp_ret|]. cbn [get_n].
  destruct (os_eventq_get_some _ _ _ _ _ _ Hk Hl) as [Hrun Hk'].
  apply wp_bind. eapply wp_eq; [exact Hrun|]. apply wp_bind. eapply wp_mono.
  { apply (IH n); [done| |simpl in Hn; lia]. by rewrite dequeue_st_eventq, decide_True. }
  intros r s' (-> & ? & ?). by apply wp_ret.
Qed.

(** An event queue is first in, first out: events put on a queue one after
    the other are returned by [os_eventq_get] in that order, after those that
    were on the queue before. *)
Theorem eventq_fifo q es s :
  kinv 1 1 s → evq_task (eventq_of s q) = None → NoDup es →
  (∀ e, e ∈ es → ev_queued (event_of s e) = false ∧ ev_target s q e) →
  wp (put_all q es ;; get_n q (length (evq_list (eventq_of s q)) + length es))
    (λ r s', r = Some <$> (evq_list (eventq_of s q) ++ es) ∧ kinv 1 1 s' ∧
             evq_list (eventq_of s' q) = []) s.
Proof.
  intros Hk Ht Hnd He. apply wp_bind. eapply wp_mono; [by apply put_all_spec|].
  intros ? s1 [Hk1 Hl1]. eapply wp_mono; [apply (get_n_spec q _ _ _ Hk1 Hl1); by rewrite length_app|].
  intros r s' (-> & ? & ->). rewrite take_ge, drop_ge by (rewrite length_app; lia). done.
Qed.

Lemma eventq_fifo_witness :
  wp (put_all 5 [EvUser 1; EvUser 2; EvUser 3] ;;
      get_n 5 (length (evq_list (eventq_of (ks demo) 5%nat)) + length [EvUser 1; EvUser 2; EvUser 3]))
    (λ r s', r = Some <$> (evq_list (eventq_of (ks demo) 5%nat) ++ [EvUser 1; EvUser 2; EvUser 3]) ∧
             kinv 1 1 s' ∧ evq_list (eventq_of s' 5%nat) = []) (ks demo).
Proof.
  apply (eventq_fifo 5%nat [EvUser 1; EvUser 2; EvUser 3] (ks demo));
    [exact (proj1 demo_minv)|by vm_compute| |].
  - repeat (apply NoDup_cons; split; [set_solver|]). apply NoDup_nil_2.
  - intros e He. repeat (apply elem_of_cons in He as [->|He]; [by split; [vm_compute|]|]).
    by apply not_elem_of_nil in He.
Defined.

(** Putting an event: an event that is already queued is left where it is;
    otherwise it goes to the end of the queue, a task that waits for the queue is
    made ready and unregistered, and a context switch is requested exactly if
    another task is then at the head of the run list. *)
Theorem eventq_put_effect q e isr s :
  kinv 1 1 s → ev_target s q e →
  wp (os_eventq_put2 q e isr) (λ _ s', kinv 1 1 s' ∧ put_post q e s s') s.
Proof. apply os_eventq_put2_spec. Qed.

(** Task 1 waits for events on queue 5. *)
Definition demo_get : mstate := mstate_after [LCall (CEventqGet 5)].

Lemma demo_get_minv : minv demo_get.
Proof.
  apply (minv_step demo (LCall (CEventqGet 5))); [exact demo_minv| |by vm_compute].
  exists 1%nat. split_and!; [by vm_compute|done|by vm_compute|done].
Qed.

Lemma eventq_put_effect_witness :
  wp (os_eventq_put2 5 (EvUser 1) false)
    (λ _ s', kinv 1 1 s' ∧ put_post 5 (EvUser 1) (ks demo_get) s') (ks demo_get).
Proof.
  apply (eventq_put_effect 5%nat (EvUser 1) false (ks demo_get)); [exact (proj1 demo_get_minv)|done].
Defined.

(** ** Callouts *)

(** [os_callout_reset] arms the callout [ticks] ticks (at least one) from now
    in due order, whether it was armed before or not, and withdraws an event that
    is still queued; other callouts are not affected.  A negative number of
    ticks is refused. *)
Theorem callout_reset_arms c ticks s :
  kinv 1 1 s → -2147483648 <= ticks < 2147483648 → is_Some (c_evq (callout_of s c)) →
  wp (os_callout_reset c ticks) (λ rc s',
    if decide (ticks < 0) then rc = OS_EINVAL ∧ s' = s
    else rc = OS_OK ∧ kinv 1 1 s' ∧ c ∈ g_callout_list s' ∧ callout_key s' c = Z.max 1 ticks ∧
         (∀ j, j ≠ c → callout_of s' j = callout_of s j) ∧
         (∀ q, EvCallout c ∉ evq_list (eventq_of s' q))) s.
Proof.
  intros Hk Ht Hq. case_decide; [by eapply wp_eq; [apply os_callout_reset_neg|]|].
  eapply wp_mono; [apply (os_callout_reset_spec 1 1); done || lia|].
  intros rc s' (? & ? & _ & ? & ? & ? & ?). by split_and!.
Qed.

Lemma callout_reset_arms_witness :
  wp (os_callout_reset 0 9) (λ rc s',
    if decide (9 < 0) then rc = OS_EINVAL ∧ s' = ks demo_callout
    else rc = OS_OK ∧ kinv 1 1 s' ∧ 0%nat ∈ g_callout_list s' ∧ callout_key s' 0%nat = Z.max 1 9 ∧
         (∀ j, j ≠ 0%nat → callout_of s' j = callout_of (ks demo_callout) j) ∧
         (∀ q, EvCallout 0 ∉ evq_list (eventq_of s' q))) (ks demo_callout).
Proof.
  apply (callout_reset_arms 0%nat 9 (ks demo_callout)); [exact (proj1 demo_callout_minv)|lia|].
  exists 3%nat. by vm_compute.
Defined.

(** ** Tasks and sanity checks *)

(** A new task is on the run list in priority order, its stack holds the
    pattern below the frame from which the first context switch starts it at its
    function with its argument, and the stack usage [os_task_info_get_next]
    reports is what lies above the lowest word that is not the pattern. *)
Theorem task_init_ready t regs func arg prio itvl stack size s :
  kboot s → task_state s t = OS_TASK_UNINIT → length regs = 8%nat →
  16 <= size < 65536 → length stack = Z.to_nat size →
  itvl = OS_WAIT_FOREVER ∨ g_os_started s = false →
  wp (os_task_init t regs func arg prio itvl stack size) (λ r s',
    r = Some OS_OK ∧ kboot s' ∧ task_state s' t = OS_TASK_READY ∧ task_prio s' t = prio ∧
    g_os_run_list s' = insert_before (λ e, prio <? task_prio s e) t (g_os_run_list s) ∧
    t_stack (task_of s' t) =
      replicate (Z.to_nat size - 16) OS_STACK_PATTERN ++ initial_frame regs func arg ∧
    (head regs ≠ Some OS_STACK_PATTERN → stack_unused (t_stack (task_of s' t)) = (Z.to_nat size - 16)%nat)) s.
Proof.
  intros Hk Hu Hr Hs Hl Hor. eapply wp_mono; [by apply os_task_init_spec|].
  intros r s' (-> & Hk' & N & _). unfold task_state, task_prio.
  rewrite (nt_task _ _ _ _ N), decide_True by done. split_and!; try done; [apply N|].
  intros Hh. apply stack_unused_frame; [done|]. by destruct regs.
Qed.

Lemma task_init_ready_witness :
  wp (os_task_init 7 demo_regs 4000 1 30 100 (replicate 20 0) 20) (λ r s',
    r = Some OS_OK ∧ kboot s' ∧ task_state s' 7%nat = OS_TASK_READY ∧ task_prio s' 7%nat = 30 ∧
    g_os_run_list s' = insert_before (λ e, 30 <? task_prio zero_state e) 7%nat (g_os_run_list zero_state) ∧
    t_stack (task_of s' 7%nat) =
      replicate (Z.to_nat 20 - 16) OS_STACK_PATTERN ++ initial_frame demo_regs 4000 1 ∧
    (head demo_regs ≠ Some OS_STACK_PATTERN →
       stack_unused (t_stack (task_of s' 7%nat)) = (Z.to_nat 20 - 16)%nat)) zero_state.
Proof.
  apply (task_init_ready 7%nat demo_regs 4000 1 30 100 (replicate 20 0) 20 zero_state);
    [exact kboot_zero|by vm_compute|done|lia|done|by right].
Defined.

(** The watchdog: a pass of the sanity task over checks without a check
    function trips exactly if some check was not checked in for more than its
    interval, also across the wrap-around of the clock, and otherwise changes
    nothing. *)
Theorem sanity_pass_trips sc_call l s (elapsed : scid → Z) :
  (∀ sc, sc ∈ l → sc_func (sanity_of s sc) = None ∧
     g_os_time s = u32 (sc_checkin_last (sanity_of s sc) + elapsed sc) ∧
     0 <= elapsed sc < 2147483648 ∧ 0 <= sc_checkin_itvl (sanity_of s sc) < 2147483648) →
  sanity_pass sc_call l s =
    if existsb (λ sc, sc_checkin_itvl (sanity_of s sc) <? elapsed sc) l
    then Fault FAssert else Ret (tt, s).
Proof.
  intros Hl. rewrite sanity_pass_run by (intros; by apply Hl).
  assert (existsb (overdue s) l = existsb (λ sc, sc_checkin_itvl (sanity_of s sc) <? elapsed sc) l)
    as ->; [|done].
  induction l as [|sc l IH]; [done|]. simpl. rewrite IH by (intros; apply Hl; by right). f_equal.
  destruct (Hl sc) as (_ & ? & ? & ?); [by left|]. by apply overdue_elapsed.
Qed.

(** Task 1's check is registered with an interval of 10 ticks; 11 ticks passed. *)
Definition demo_sanity : kstate :=
  set_g_os_time 11 (upd_sanity (ScTask 1) (set_sc_checkin_itvl 10) (ks demo)).

Lemma sanity_pass_trips_witness :
  sanity_pass (λ _ _, mret OS_OK) [ScTask 1] demo_sanity =
    if existsb (λ sc, sc_checkin_itvl (sanity_of demo_sanity sc) <? 11) [ScTask 1]
    then Fault FAssert else Ret (tt, demo_sanity).
Proof.
  apply (sanity_pass_trips (λ _ _, mret OS_OK) [ScTask 1] demo_sanity (λ _, 11)).
  intros sc ->%list_elem_of_singleton. split_and!; by vm_compute.
Defined.
