(* ===== verification/OsMempool.v ===== *)
(** Fixed-size memory pools: libs/os/src/os_mempool.c.

    Addresses are 32-bit integers, [0] is NULL.  [mem] holds the words of the
    pools' memory: the first word of a free block is its link in the free list,
    the words of a block that was handed out belong to the client.  The abstract
    view of a pool is the list of its free blocks, in the order in which they
    will be handed out; [Allocator] is the interface clients are proved against. *)
From Stdlib Require Import ZArith Lia.
From stdpp Require Import base decidable list numbers gmap.
From S2P Require Import Prelude.
From S2P Require Import OsState.

#[local] Open Scope Z_scope.

(** ** Operations *)

Definition OS_ALIGNMENT : Z := 4.

Definition OS_ALIGN (n a : Z) : Z :=
  if Z.land n (a - 1) =? 0 then n else n + (a - Z.land n (a - 1)).

Definition OS_MEMPOOL_TRUE_BLOCK_SIZE (bsize : Z) : Z := OS_ALIGN bsize OS_ALIGNMENT.

Record os_mempool := mk_mempool {
  mp_block_size : Z;
  mp_num_blocks : Z;
  mp_num_free : Z;
  mp_membuf_addr : Z;
  mp_first : Z;          (* SLIST_FIRST(mp) *)
}.
#[export] Instance os_mempool_inhabited : Inhabited os_mempool := populate (mk_mempool 0 0 0 0 0).

Definition set_mp_num_free (v : Z) (p : os_mempool) : os_mempool :=
  mk_mempool (mp_block_size p) (mp_num_blocks p) v (mp_membuf_addr p) (mp_first p).
Definition set_mp_first (v : Z) (p : os_mempool) : os_mempool :=
  mk_mempool (mp_block_size p) (mp_num_blocks p) (mp_num_free p) (mp_membuf_addr p) v.

Record pstate := mk_pstate {
  pools : gmap nat os_mempool;
  mem : gmap Z Z;
  g_os_mempool_list : list nat;
}.

Definition pool_of (s : pstate) (p : nat) : os_mempool := pools s !!! p.
Definition set_pool (p : nat) (v : os_mempool) (s : pstate) : pstate :=
  mk_pstate (<[p := v]> (pools s)) (mem s) (g_os_mempool_list s).
Definition upd_pool (p : nat) (f : os_mempool → os_mempool) (s : pstate) : pstate :=
  set_pool p (f (pool_of s p)) s.
Definition write_mem (a v : Z) (s : pstate) : pstate :=
  mk_pstate (pools s) (<[a := v]> (mem s)) (g_os_mempool_list s).
Definition word (s : pstate) (a : Z) : Z := mem s !!! a.

(** The loop that chains the blocks to the free list; [blocks] counts down to 1.
    It returns the address of the last block. *)
Fixpoint chain_loop (blocks : nat) (block_addr true_block_size : Z) (s : pstate) : Z * pstate :=
  match blocks with
  | S (S _ as blocks') =>
      let next := u32 (block_addr + true_block_size) in
      chain_loop blocks' next true_block_size (write_mem block_addr next s)
  | _ => (block_addr, s)
  end.

Definition os_mempool_init (mp : option nat) (blocks block_size membuf : Z) : M pstate os_error :=
  match mp with
  | None => mret OS_INVALID_PARM
  | Some p =>
      if (membuf =? 0) || (blocks <=? 0) || (block_size <=? 0) then mret OS_INVALID_PARM
      else if negb (Z.land membuf (OS_ALIGNMENT - 1) =? 0) then mret OS_MEM_NOT_ALIGNED
      else
        let true_block_size := OS_MEMPOOL_TRUE_BLOCK_SIZE block_size in
        modify (set_pool p (mk_mempool block_size blocks blocks membuf membuf)) ;;
        s ← get;
        let '(last, s) := chain_loop (Z.to_nat blocks) membuf true_block_size s in
        modify (λ _, write_mem last 0 s) ;;
        modify (λ s, mk_pstate (pools s) (mem s) (g_os_mempool_list s ++ [p])) ;;
        mret OS_OK
  end.

(** [0] is NULL. *)
Definition os_memblock_get (mp : option nat) : M pstate Z :=
  match mp with
  | None => mret 0
  | Some p =>
      s ← get;
      if negb (mp_num_free (pool_of s p) =? 0) then
        let block := mp_first (pool_of s p) in
        (if block =? 0 then fault_with FNull else mret tt) ;;
        modify (upd_pool p (set_mp_first (word s block))) ;;
        modify (upd_pool p (λ v, set_mp_num_free (mp_num_free v - 1) v)) ;;
        mret block
      else mret 0
  end.

Definition os_memblock_put (mp : option nat) (block_addr : Z) : M pstate os_error :=
  match mp with
  | None => mret OS_INVALID_PARM
  | Some p =>
      if block_addr =? 0 then mret OS_INVALID_PARM
      else
        s ← get;
        let v := pool_of s p in
        let true_block_size := u32 (OS_MEMPOOL_TRUE_BLOCK_SIZE (mp_block_size v)) in
        let end_ := u32 (mp_membuf_addr v + u32 (mp_num_blocks v * true_block_size)) in
        if (block_addr <? mp_membuf_addr v) || (end_ <=? block_addr) then mret OS_INVALID_PARM
        else if negb (u32 (block_addr - mp_membuf_addr v) mod true_block_size =? 0) then
          mret OS_INVALID_PARM
        else
          modify (λ s, write_mem block_addr (mp_first (pool_of s p)) s) ;;
          modify (upd_pool p (set_mp_first block_addr)) ;;
          modify (upd_pool p (λ v, set_mp_num_free (mp_num_free v + 1) v)) ;;
          mret OS_OK
  end.

Record os_mempool_info := mk_mempool_info {
  omi_block_size : Z; omi_num_blocks : Z; omi_num_free : Z;
}.

Definition os_mempool_info_get_next (mp : option nat) : M pstate (option (nat * os_mempool_info)) :=
  s ← get;
  let cur := match mp with
             | None => head (g_os_mempool_list s)
             | Some p => next_of p (g_os_mempool_list s)
             end in
  match cur with
  | None => mret None
  | Some c =>
      let v := pool_of s c in
      mret (Some (c, mk_mempool_info (mp_block_size v) (mp_num_blocks v) (mp_num_free v)))
  end.

(** ** Block addresses *)

Lemma os_align_4 n : 0 <= n → OS_ALIGN n 4 = (n + 3) / 4 * 4.
Proof.
  intros Hn. unfold OS_ALIGN. change (4 - 1) with (Z.ones 2). rewrite Z.land_ones by lia.
  change (2 ^ 2) with 4. destruct (Z.eqb_spec (n mod 4) 0) as [H|H];
    Z.to_euclidean_division_equations; lia.
Qed.

(** The true block size is the least multiple of the alignment that holds a
    block. *)
Lemma true_block_size_spec n :
  0 < n → let t := OS_MEMPOOL_TRUE_BLOCK_SIZE n in n <= t < n + 4 ∧ t mod 4 = 0.
Proof.
  intros Hn. unfold OS_MEMPOOL_TRUE_BLOCK_SIZE, OS_ALIGNMENT. rewrite os_align_4 by lia. simpl.
  Z.to_euclidean_division_equations; lia.
Qed.

Definition block_addrs (base size : Z) (n : nat) : list Z :=
  (λ i, base + Z.of_nat i * size) <$> seq 0 n.

Lemma elem_of_block_addrs base size n a :
  a ∈ block_addrs base size n ↔ ∃ i, 0 <= i < Z.of_nat n ∧ a = base + i * size.
Proof.
  unfold block_addrs. rewrite list_elem_of_fmap. split.
  - intros (i & -> & Hi%elem_of_seq). exists (Z.of_nat i). lia.
  - intros (i & Hi & ->). exists (Z.to_nat i). rewrite elem_of_seq. split; [by rewrite Z2Nat.id by lia|lia].
Qed.

Lemma block_addrs_nodup base size n : 0 < size → NoDup (block_addrs base size n).
Proof.
  intros Hs. apply NoDup_fmap_2_strong; [|apply NoDup_seq]. intros i j _ _ E. nia.
Qed.

(** Different blocks do not overlap. *)
Lemma block_addrs_disjoint base size n a b d :
  a ∈ block_addrs base size n → b ∈ block_addrs base size n → 0 <= d < size →
  a + d = b → a = b.
Proof.
  rewrite !elem_of_block_addrs. intros (i & Hi & ->) (j & Hj & ->) Hd E.
  assert (i = j) by nia. by subst.
Qed.

(** ** The abstract view *)

(** [chain s a l]: the free list that starts at [a] has the blocks [l]. *)
Fixpoint chain (s : pstate) (a : Z) (l : list Z) : Prop :=
  match l with
  | [] => a = 0
  | b :: l => a = b ∧ b ≠ 0 ∧ chain s (word s b) l
  end.

Definition blocks_of (v : os_mempool) : list Z :=
  block_addrs (mp_membuf_addr v) (OS_MEMPOOL_TRUE_BLOCK_SIZE (mp_block_size v))
    (Z.to_nat (mp_num_blocks v)).

(** The pool [p] is well formed and its free blocks are [free]. *)
Record pool_ok (s : pstate) (p : nat) (free : list Z) : Prop := {
  po_chain : chain s (mp_first (pool_of s p)) free;
  po_nodup : NoDup free;
  po_sub : free ⊆ blocks_of (pool_of s p);
  po_count : mp_num_free (pool_of s p) = Z.of_nat (length free);
  po_size : 0 < mp_block_size (pool_of s p);
  po_base : 0 < mp_membuf_addr (pool_of s p);
  po_blocks : 0 < mp_num_blocks (pool_of s p);
  po_fits : mp_membuf_addr (pool_of s p) +
    mp_num_blocks (pool_of s p) * OS_MEMPOOL_TRUE_BLOCK_SIZE (mp_block_size (pool_of s p)) < 4294967296;
}.

Lemma word_write s a v b : word (write_mem a v s) b = if decide (a = b) then v else word s b.
Proof.
  unfold word, write_mem. simpl. case_decide; subst;
    [by rewrite lookup_total_insert_eq|by rewrite lookup_total_insert_ne].
Qed.

Lemma pool_of_set p v s q : pool_of (set_pool p v s) q = if decide (p = q) then v else pool_of s q.
Proof.
  unfold pool_of, set_pool. simpl. case_decide; subst;
    [by rewrite lookup_total_insert_eq|by rewrite lookup_total_insert_ne].
Qed.

(** A free list depends on the first words of its blocks only. *)
Lemma chain_ext s s' l : ∀ a, (∀ b, b ∈ l → word s' b = word s b) → chain s a l → chain s' a l.
Proof.
  induction l as [|b l IH]; intros a Hw; simpl; [done|].
  intros (-> & Hb & Hc). split_and!; [done|done|]. rewrite Hw by left.
  apply IH; [|done]. intros; apply Hw; by right.
Qed.

(** *** Initialisation *)

Lemma block_addrs_S base size n :
  block_addrs base size (S n) = base :: block_addrs (base + size) size n.
Proof.
  unfold block_addrs. simpl. f_equal; [lia|]. rewrite <- fmap_S_seq, <- list_fmap_compose.
  apply list_fmap_ext. intros i x Hx. simpl. lia.
Qed.

(** The blocks are chained in address order. *)
Lemma chain_loop_spec n : ∀ a size s,
  0 < a → 0 < size → a + Z.of_nat (S n) * size < 4294967296 →
  let '(last, s') := chain_loop (S n) a size s in
  last = a + Z.of_nat n * size ∧
  chain (write_mem last 0 s') a (block_addrs a size (S n)) ∧
  pools s' = pools s ∧ g_os_mempool_list s' = g_os_mempool_list s ∧
  (∀ b, b < a → word s' b = word s b).
Proof.
  induction n as [|n IH]; intros a size s Ha Hs Hfit.
  - cbn [chain_loop]. split_and!; try done; [lia|]. simpl.
    rewrite Z.add_0_r. rewrite word_write, decide_True by done. split_and!; [done|lia|done].
  - change (chain_loop (S (S n)) a size s) with
      (chain_loop (S n) (u32 (a + size)) size (write_mem a (u32 (a + size)) s)).
    rewrite u32_small by lia. specialize (IH (a + size) size (write_mem a (a + size) s)).
    destruct (chain_loop (S n) (a + size) size (write_mem a (a + size) s)) as [last s'] eqn:E.
    destruct IH as (-> & Hc & Hp & Hg & Hw); [lia|lia|lia|].
    split_and!; [lia| |done|done|].
    + rewrite block_addrs_S. cbn [chain]. split_and!; [done|lia|].
      rewrite word_write, decide_False by lia.
      rewrite Hw, word_write, decide_True by (done || lia). exact Hc.
    + intros b Hb. rewrite Hw, word_write, decide_False by lia. done.
Qed.

(** A pool that fits into the address space is well formed after its
    initialisation, and all of its blocks are free. *)
Lemma os_mempool_init_ok p blocks bsize membuf s :
  0 < blocks → 0 < bsize → 0 < membuf → membuf mod 4 = 0 →
  membuf + blocks * OS_MEMPOOL_TRUE_BLOCK_SIZE bsize < 4294967296 →
  wp (os_mempool_init (Some p) blocks bsize membuf) (λ rc s',
    rc = OS_OK ∧ pool_ok s' p (block_addrs membuf (OS_MEMPOOL_TRUE_BLOCK_SIZE bsize) (Z.to_nat blocks)) ∧
    pool_of s' p = mk_mempool bsize blocks blocks membuf membuf ∧
    g_os_mempool_list s' = g_os_mempool_list s ++ [p] ∧
    (∀ q, q ≠ p → pool_of s' q = pool_of s q)) s.
Proof.
  intros Hb Hs Hm Hal Hfit. destruct (true_block_size_spec bsize Hs) as [Ht _].
  set (t := OS_MEMPOOL_TRUE_BLOCK_SIZE bsize) in *. unfold os_mempool_init.
  rewrite (proj2 (Z.eqb_neq _ _)), !(proj2 (Z.leb_gt _ _)) by lia. cbn [orb].
  unfold OS_ALIGNMENT. change (4 - 1) with (Z.ones 2). rewrite Z.land_ones by lia.
  change (2 ^ 2) with 4. rewrite Hal. cbn [Z.eqb negb]. wp_simp. fold t.
  set (s1 := set_pool p _ s). destruct (Z.to_nat blocks) as [|n] eqn:En; [lia|].
  pose proof (chain_loop_spec n membuf t s1) as Hc.
  destruct (chain_loop (S n) membuf t s1) as [last s2].
  destruct Hc as (-> & Hc & Hp & Hg & _); [lia|lia|lia|]. wp_simp.
  assert (Hpool : ∀ q, pool_of (mk_pstate (pools s2) (mem (write_mem (membuf + Z.of_nat n * t) 0 s2))
    (g_os_mempool_list s2 ++ [p])) q = pool_of s1 q).
  { intros q. unfold pool_of. simpl. by rewrite Hp. }
  assert (Hv : pool_of s1 p = mk_mempool bsize blocks blocks membuf membuf)
    by (unfold s1; by rewrite pool_of_set, decide_True).
  split_and!; [done| |by rewrite Hpool| |].
  - split; rewrite ?Hpool, ?Hv;
      cbn [mp_first mp_num_free mp_block_size mp_num_blocks mp_membuf_addr].
    + eapply chain_ext; [|exact Hc]. done.
    + apply block_addrs_nodup. lia.
    + unfold blocks_of. simpl. by rewrite En.
    + unfold block_addrs. rewrite length_fmap, length_seq. lia.
    + lia.
    + lia.
    + lia.
    + fold t. lia.
  - simpl. by rewrite Hg.
  - intros q Hq. rewrite Hpool. unfold s1. by rewrite pool_of_set, decide_False.
Qed.

(** *** Allocation *)

(** Same memory, cut into the same blocks. *)
Definition same_pool (v v' : os_mempool) : Prop :=
  mp_block_size v' = mp_block_size v ∧ mp_num_blocks v' = mp_num_blocks v ∧
  mp_membuf_addr v' = mp_membuf_addr v.

Lemma same_pool_blocks v v' : same_pool v v' → blocks_of v' = blocks_of v.
Proof. unfold blocks_of. by intros (-> & -> & ->). Qed.

Lemma pool_ok_frame s s' p free :
  pool_of s' p = pool_of s p → (∀ b, b ∈ free → word s' b = word s b) →
  pool_ok s p free → pool_ok s' p free.
Proof.
  intros Hp Hw [H1 H2 H3 H4 H5 H6 H7 H8]. split; rewrite ?Hp; try done.
  by eapply chain_ext.
Qed.

Lemma os_memblock_get_some s p a free :
  pool_ok s p (a :: free) →
  wp (os_memblock_get (Some p)) (λ r s',
    r = a ∧ a ≠ 0 ∧ pool_ok s' p free ∧ mem s' = mem s ∧
    same_pool (pool_of s p) (pool_of s' p) ∧
    (∀ q, q ≠ p → pool_of s' q = pool_of s q)) s.
Proof.
  intros [H1 H2 H3 H4 H5 H6 H7 H8]. simpl in H1. destruct H1 as (Hf & Hnz & Hc).
  unfold os_memblock_get. wp_simp.
  rewrite H4, (proj2 (Z.eqb_neq _ _)) by (simpl; lia). cbn [negb].
  rewrite Hf, (proj2 (Z.eqb_neq _ _)) by done. wp_simp.
  assert (Hv : ∀ q, pool_of (upd_pool p (λ v, set_mp_num_free (mp_num_free v - 1) v)
    (upd_pool p (set_mp_first (word s a)) s)) q =
    if decide (p = q) then set_mp_num_free (mp_num_free (pool_of s p) - 1)
      (set_mp_first (word s a) (pool_of s p)) else pool_of s q).
  { intros q. unfold upd_pool. rewrite !pool_of_set. case_decide; [|done].
    by rewrite decide_True. }
  pose proof (Hv p) as Hvp. rewrite decide_True in Hvp by done.
  split_and!; [done|done| |done|by rewrite Hvp|].
  - split; rewrite ?Hvp; cbn [mp_first mp_num_free mp_block_size mp_num_blocks mp_membuf_addr
      set_mp_num_free set_mp_first]; try done.
    + by apply (chain_ext s).
    + by apply NoDup_cons in H2 as [_ ?].
    + set_solver.
    + rewrite H4. simpl. lia.
  - intros q Hq. by rewrite Hv, decide_False by congruence.
Qed.

Lemma os_memblock_get_none s p :
  pool_ok s p [] → os_memblock_get (Some p) s = Ret (0, s).
Proof.
  intros [_ _ _ H4 _ _ _ _]. unfold os_memblock_get, mbind, M_bind, get. by rewrite H4.
Qed.

(** *** Freeing *)

(** The range and boundary checks accept exactly the blocks of the pool. *)
Lemma put_checks s p free a :
  pool_ok s p free → 0 < a < 4294967296 →
  let v := pool_of s p in
  let t := u32 (OS_MEMPOOL_TRUE_BLOCK_SIZE (mp_block_size v)) in
  let end_ := u32 (mp_membuf_addr v + u32 (mp_num_blocks v * t)) in
  ((a <? mp_membuf_addr v) || (end_ <=? a)) || negb (u32 (a - mp_membuf_addr v) mod t =? 0) =
  negb (bool_decide (a ∈ blocks_of v)).
Proof.
  intros [_ _ _ _ Hs Hb Hn Hfit] Ha. simpl.
  destruct (true_block_size_spec _ Hs) as [Ht _]. unfold blocks_of.
  set (t := OS_MEMPOOL_TRUE_BLOCK_SIZE (mp_block_size (pool_of s p))) in *.
  set (b := mp_membuf_addr (pool_of s p)) in *. set (n := mp_num_blocks (pool_of s p)) in *.
  assert (0 < n * t) by nia. assert (t <= n * t) by nia.
  rewrite (u32_small t), (u32_small (n * t)), (u32_small (b + n * t)) by lia.
  destruct (Z.ltb_spec a b) as [Hlt|Hge]; simpl.
  { rewrite bool_decide_false; [done|]. rewrite elem_of_block_addrs. intros (i & ? & ->). nia. }
  destruct (Z.leb_spec (b + n * t) a) as [Hle|Hgt]; simpl.
  { rewrite bool_decide_false; [done|]. rewrite elem_of_block_addrs. intros (i & Hi & ->).
    rewrite Z2Nat.id in Hi by lia. nia. }
  rewrite u32_small by lia. destruct (Z.eqb_spec ((a - b) mod t) 0) as [Hm|Hm]; simpl.
  - rewrite bool_decide_true; [done|]. apply elem_of_block_addrs.
    exists ((a - b) / t). pose proof (Z.div_mod (a - b) t ltac:(lia)). rewrite Z2Nat.id by lia. nia.
  - rewrite bool_decide_false; [done|]. rewrite elem_of_block_addrs. intros (i & ? & ->).
    apply Hm. replace (b + i * t - b) with (i * t) by lia. apply Z.mod_mul. lia.
Qed.

Lemma os_memblock_put_ok s p free a :
  pool_ok s p free → a ∈ blocks_of (pool_of s p) → a ∉ free →
  wp (os_memblock_put (Some p) a) (λ rc s',
    rc = OS_OK ∧ pool_ok s' p (a :: free) ∧
    same_pool (pool_of s p) (pool_of s' p) ∧
    (∀ b, b ≠ a → word s' b = word s b) ∧
    (∀ q, q ≠ p → pool_of s' q = pool_of s q)) s.
Proof.
  intros Hok Hin Hnot. pose proof Hok as [H1 H2 H3 H4 H5 H6 H7 H8].
  assert (Ha : 0 < a < 4294967296).
  { apply elem_of_block_addrs in Hin as (i & Hi & ->). destruct (true_block_size_spec _ H5) as [Ht _].
    rewrite Z2Nat.id in Hi by lia. nia. }
  pose proof (put_checks s p free a Hok Ha) as Hchk. cbv zeta in Hchk.
  rewrite bool_decide_true in Hchk by done.
  apply orb_false_iff in Hchk as [Hr Hm]. unfold os_memblock_put.
  rewrite (proj2 (Z.eqb_neq _ _)) by lia. wp_simp. rewrite Hr, Hm. wp_simp.
  match goal with |- _ ∧ pool_ok ?x _ _ ∧ _ => set (s' := x) end.
  assert (Hv : ∀ q, pool_of s' q = if decide (p = q) then
    set_mp_num_free (mp_num_free (pool_of s p) + 1) (set_mp_first a (pool_of s p)) else pool_of s q).
  { intros q. unfold s', upd_pool. rewrite !pool_of_set. case_decide; [|done]. by rewrite decide_True. }
  assert (Hw : ∀ b, word s' b = if decide (a = b) then mp_first (pool_of s p) else word s b)
    by (intros b; exact (word_write s a (mp_first (pool_of s p)) b)).
  pose proof (Hv p) as Hvp. rewrite decide_True in Hvp by done. split_and!; [done| |by rewrite Hvp| |].
  - split; rewrite ?Hvp; cbn [mp_first mp_num_free mp_block_size mp_num_blocks mp_membuf_addr
      set_mp_num_free set_mp_first]; try done.
    + cbn [chain]. split_and!; [done|lia|]. rewrite Hw, decide_True by done.
      eapply chain_ext; [|done]. intros b Hb. rewrite Hw, decide_False; [done|congruence].
    + by apply NoDup_cons.
    + set_solver.
    + rewrite H4. simpl. lia.
  - intros b Hb. by rewrite Hw, decide_False by congruence.
  - intros q Hq. by rewrite Hv, decide_False by congruence.
Qed.

(** Anything that is not the start of a block of the pool is refused. *)
Lemma os_memblock_put_bad s p free a :
  pool_ok s p free → 0 <= a < 4294967296 → a ∉ blocks_of (pool_of s p) →
  os_memblock_put (Some p) a s = Ret (OS_INVALID_PARM, s).
Proof.
  intros Hok Ha Hnot. unfold os_memblock_put. destruct (Z.eqb_spec a 0); [done|].
  pose proof (put_checks s p free a Hok ltac:(lia)) as Hchk.
  cbv zeta in Hchk. rewrite bool_decide_false in Hchk by done. unfold mbind, M_bind, get.
  destruct ((a <? _) || _); [done|]. cbn [orb negb] in Hchk. by rewrite Hchk.
Qed.

(** A client may write into a block it holds. *)
Lemma client_write_ok s p free a d v :
  pool_ok s p free → a ∈ blocks_of (pool_of s p) → a ∉ free →
  0 <= d < OS_MEMPOOL_TRUE_BLOCK_SIZE (mp_block_size (pool_of s p)) →
  pool_ok (write_mem (a + d) v s) p free.
Proof.
  intros Hok Hin Hnot Hd. eapply (pool_ok_frame s); [done| |done]. intros b Hb.
  rewrite word_write, decide_False; [done|]. intros E.
  assert (a = b) as <-; [|done]. eapply block_addrs_disjoint; [done| |done|done]. by apply Hok.
Qed.

(** ** The interface

    What a pool promises its clients: blocks are handed out from a list of free
    blocks, which a freed block joins at the front; a client may write to a block
    it holds. *)
Class Allocator (S : Type) := {
  al_get : M S Z;
  al_put : Z → M S os_error;
  al_write : Z → Z → Z → S → S;
  al_blocks : S → list Z;
  al_size : S → Z;
  al_ok : S → list Z → Prop;
  al_sub : ∀ s free, al_ok s free → NoDup free ∧ free ⊆ al_blocks s;
  al_get_some : ∀ s a free, al_ok s (a :: free) →
    wp al_get (λ r s', r = a ∧ a ≠ 0 ∧ al_ok s' free ∧ al_blocks s' = al_blocks s ∧
                       al_size s' = al_size s) s;
  al_get_none : ∀ s, al_ok s [] → al_get s = Ret (0, s);
  al_put_ok : ∀ s a free, al_ok s free → a ∈ al_blocks s → a ∉ free →
    wp (al_put a) (λ rc s', rc = OS_OK ∧ al_ok s' (a :: free) ∧ al_blocks s' = al_blocks s ∧
                            al_size s' = al_size s) s;
  al_write_ok : ∀ s a d v free, al_ok s free → a ∈ al_blocks s → a ∉ free → 0 <= d < al_size s →
    al_ok (al_write a d v s) free ∧ al_blocks (al_write a d v s) = al_blocks s ∧
    al_size (al_write a d v s) = al_size s;
}.

#[export] Instance mempool_allocator (p : nat) : Allocator pstate.
Proof.
  refine {|
    al_get := os_memblock_get (Some p);
    al_put := os_memblock_put (Some p);
    al_write a d v := write_mem (a + d) v;
    al_blocks s := blocks_of (pool_of s p);
    al_size s := OS_MEMPOOL_TRUE_BLOCK_SIZE (mp_block_size (pool_of s p));
    al_ok s free := pool_ok s p free;
  |}.
  - intros s free Hok. split; apply Hok.
  - intros s a free Hok. eapply wp_mono; [by apply os_memblock_get_some|].
    intros r s' (-> & ? & ? & _ & Hs & _). rewrite (same_pool_blocks _ _ Hs).
    destruct Hs as (-> & _). by split_and!.
  - intros s Hok. by apply os_memblock_get_none.
  - intros s a free Hok Hin Hnot. eapply wp_mono; [by apply os_memblock_put_ok|].
    intros r s' (-> & ? & Hs & _). rewrite (same_pool_blocks _ _ Hs).
    destruct Hs as (-> & _). by split_and!.
  - intros s a d v free Hok Hin Hnot Hd. split_and!; [by apply client_write_ok|done|done].
Defined.

(** ** Clients

    A client allocates, frees the [i]th block it holds, and writes into the blocks
    it holds, in any order. *)
Inductive client_op :=
| OpAlloc
| OpFree (i : nat)
| OpWrite (i : nat) (d v : Z).

Fixpoint client {S} `{AL : Allocator S} (ops : list client_op) (held : list Z) : M S (list Z) :=
  match ops with
  | [] => mret held
  | OpAlloc :: ops =>
      a ← al_get;
      client ops (if a =? 0 then held else a :: held)
  | OpFree i :: ops =>
      match held !! i with
      | Some a => al_put a ;; client ops (delete i held)
      | None => client ops held
      end
  | OpWrite i d v :: ops =>
      match held !! i with
      | Some a =>
          s ← get;
          (if (0 <=? d) && (d <? al_size s) then modify (al_write a d v) else mret tt) ;;
          client ops held
      | None => client ops held
      end
  end.

(** Whatever the client does, the free blocks and the blocks it holds are all
    blocks of the pool, each exactly once. *)
Lemma client_spec {S} `{Allocator S} ops : ∀ held free s,
  al_ok s free → NoDup (al_blocks s) → free ++ held ≡ₚ al_blocks s →
  wp (client ops held) (λ held' s', ∃ free',
    al_ok s' free' ∧ al_blocks s' = al_blocks s ∧ free' ++ held' ≡ₚ al_blocks s) s.
Proof.
  induction ops as [|op ops IH]; intros held free s Hok Hnd Hp; simpl.
  { apply wp_ret. eauto. }
  assert (Hheld : ∀ i a, held !! i = Some a → a ∈ al_blocks s ∧ a ∉ free).
  { intros i a Hi. apply list_elem_of_lookup_2 in Hi. rewrite <- Hp in Hnd.
    apply NoDup_app in Hnd as (_ & Hd & _). split; [|intros ?; by eapply Hd].
    rewrite <- Hp. set_solver. }
  destruct op as [|i|i d v].
  - apply wp_bind. destruct free as [|a free].
    + eapply wp_eq; [by apply al_get_none|]. by eapply IH.
    + eapply wp_mono; [by apply al_get_some|]. intros r s' (-> & Hnz & Hok' & Hb & _).
      rewrite (proj2 (Z.eqb_neq _ _)) by done. rewrite <- Hb in *.
      apply (IH (a :: held) free); [done|done|]. by rewrite <- Hp, <- Permutation_middle.
  - destruct (held !! i) as [a|] eqn:Hi; [|by eapply IH]. destruct (Hheld i a Hi) as [Hin Hnot].
    apply wp_bind. eapply wp_mono; [by apply al_put_ok|]. intros r s' (_ & Hok' & Hb & _).
    rewrite <- Hb in *. apply (IH (delete i held) (a :: free)); [done|done|].
    rewrite <- Hp. simpl. rewrite Permutation_middle. f_equiv. symmetry. by apply delete_Permutation.
  - destruct (held !! i) as [a|] eqn:Hi; [|by eapply IH]. destruct (Hheld i a Hi) as [Hin Hnot].
    wp_simp. destruct (Z.leb_spec 0 d), (Z.ltb_spec d (al_size s)); simpl; wp_simp;
      try by eapply IH.
    destruct (al_write_ok s a d v free) as (Hok' & Hb & _); [done..|]. rewrite <- Hb in *.
    by eapply IH.
Qed.

(** ** Properties *)

(** C12. Whatever sequence of allocations, frees and writes into held blocks a
    client performs on a freshly initialised pool, no call faults, the blocks it
    holds are distinct blocks of the pool and are not on the free list, every
    block is held or free, and the pool counts its free blocks correctly. *)
Theorem mempool_no_double_alloc p blocks bsize membuf s ops :
  0 < blocks → 0 < bsize → 0 < membuf → membuf mod 4 = 0 →
  membuf + blocks * OS_MEMPOOL_TRUE_BLOCK_SIZE bsize < 4294967296 →
  wp (os_mempool_init (Some p) blocks bsize membuf ;;
      client (AL := mempool_allocator p) ops []) (λ held s', ∃ free,
    pool_ok s' p free ∧
    free ++ held ≡ₚ block_addrs membuf (OS_MEMPOOL_TRUE_BLOCK_SIZE bsize) (Z.to_nat blocks) ∧
    NoDup (free ++ held) ∧
    mp_num_free (pool_of s' p) = blocks - Z.of_nat (length held)) s.
Proof.
  intros Hb Hs Hm Hal Hfit. destruct (true_block_size_spec bsize Hs) as [Ht _].
  apply wp_bind. eapply wp_mono; [by apply os_mempool_init_ok|]. intros rc s1 (_ & Hok & Hv & _).
  set (all := block_addrs membuf _ _) in *.
  assert (Hnd : NoDup all) by (apply block_addrs_nodup; lia).
  assert (Hblocks : blocks_of (pool_of s1 p) = all) by by rewrite Hv.
  eapply wp_mono.
  { apply (client_spec (H := mempool_allocator p) ops [] all); [exact Hok| |]; simpl;
      rewrite Hblocks; [done|by rewrite app_nil_r]. }
  intros held s' (free & Hok' & Hb' & Hp). simpl in Hok', Hb', Hp. rewrite Hblocks in Hp.
  exists free. split_and!; [done|done|by rewrite Hp|].
  rewrite (po_count _ _ _ Hok'). apply Permutation_length in Hp. rewrite length_app in Hp.
  unfold all, block_addrs in Hp. rewrite length_fmap, length_seq in Hp. lia.
Qed.

(** Three blocks of 10 bytes (12 with padding) at address 4096. *)
Definition demo_pool_ops : list client_op := [OpAlloc; OpAlloc; OpWrite 0 4 99; OpFree 1; OpAlloc].

Lemma mempool_no_double_alloc_witness :
  wp (os_mempool_init (Some 0%nat) 3 10 4096 ;;
      client (AL := mempool_allocator 0) demo_pool_ops []) (λ held s', ∃ free,
    pool_ok s' 0 free ∧
    free ++ held ≡ₚ block_addrs 4096 (OS_MEMPOOL_TRUE_BLOCK_SIZE 10) (Z.to_nat 3) ∧
    NoDup (free ++ held) ∧
    mp_num_free (pool_of s' 0%nat) = 3 - Z.of_nat (length held)) (mk_pstate ∅ ∅ []).
Proof. apply (mempool_no_double_alloc 0%nat 3 10 4096 (mk_pstate ∅ ∅ []) demo_pool_ops); done. Defined.

(** A block is accepted back exactly if it is the start of a block of the
    pool: any other address is refused and changes nothing. *)
Theorem mempool_put_checks s p free a :
  pool_ok s p free → 0 <= a < 4294967296 → a ∉ free →
  wp (os_memblock_put (Some p) a) (λ rc s',
    if decide (a ∈ blocks_of (pool_of s p))
    then rc = OS_OK ∧ pool_ok s' p (a :: free) else rc = OS_INVALID_PARM ∧ s' = s) s.
Proof.
  intros Hok Ha Hnot. case_decide as Hin.
  - eapply wp_mono; [by apply os_memblock_put_ok|]. intros rc s' (? & ? & _). done.
  - eapply wp_eq; [by eapply os_memblock_put_bad|]. done.
Qed.

Definition demo_pool : pstate :=
  match os_mempool_init (Some 0%nat) 3 10 4096 (mk_pstate ∅ ∅ []) with
  | Ret (_, s) => s
  | Fault _ => mk_pstate ∅ ∅ []
  end.

Lemma demo_pool_ok : pool_ok demo_pool 0 [4096; 4108; 4120].
Proof.
  pose proof (os_mempool_init_ok 0%nat 3 10 4096 (mk_pstate ∅ ∅ [])
    ltac:(lia) ltac:(lia) ltac:(lia) ltac:(done) ltac:(done)) as H.
  apply wp_run in H as (rc & s' & Hrun & _ & Hok & _). unfold demo_pool. rewrite Hrun. exact Hok.
Qed.

Lemma mempool_put_checks_witness :
  wp (os_memblock_put (Some 0%nat) 4100) (λ rc s',
    if decide (4100 ∈ blocks_of (pool_of demo_pool 0%nat))
    then rc = OS_OK ∧ pool_ok s' 0 (4100 :: [4096; 4108; 4120])
    else rc = OS_INVALID_PARM ∧ s' = demo_pool) demo_pool.
Proof.
  apply (mempool_put_checks demo_pool 0%nat [4096; 4108; 4120] 4100);
    [exact demo_pool_ok|lia|set_solver].
Defined.
