(* ===== verification/OsMbuf.v ===== *)
(** Chained memory buffers: libs/os/src/os_mbuf.c and os_mbuf.h.

    An mbuf lives in a block of a memory pool and is named by the block's
    address; [0] is NULL.  [mbufs] has the mbufs that are allocated: an access to
    any other address is a fault, so is a copy that leaves the data buffer of an
    mbuf.  The bytes a freed block held stay in [stale] and are what the next
    owner of the block finds in its data buffer.  The packet header occupies the
    first eight bytes of the data buffer of the first mbuf of a packet, as in the
    C code.  The memory pools are used through the interface of [OsMempool]. *)
From Stdlib Require Import ZArith Lia.
From stdpp Require Import base decidable list numbers gmap.
From S2P Require Import Prelude.
From S2P Require Import OsState.
From S2P Require Import OsMempool.

#[local] Open Scope Z_scope.

(** ** Data *)

Definition sizeof_os_mbuf : Z := 16.
Definition sizeof_os_mbuf_pkthdr : Z := 8.

(** [om_off] is [om_data - &om_databuf[0]]. *)
Record os_mbuf := mk_mbuf {
  om_off : Z;
  om_flags : Z;
  om_pkthdr_len : Z;
  om_len : Z;
  om_omp : nat;
  om_next : Z;
  om_databuf : list Z;
}.

Definition set_om_off (v : Z) (m : os_mbuf) : os_mbuf :=
  mk_mbuf v (om_flags m) (om_pkthdr_len m) (om_len m) (om_omp m) (om_next m) (om_databuf m).
Definition set_om_flags (v : Z) (m : os_mbuf) : os_mbuf :=
  mk_mbuf (om_off m) v (om_pkthdr_len m) (om_len m) (om_omp m) (om_next m) (om_databuf m).
Definition set_om_pkthdr_len (v : Z) (m : os_mbuf) : os_mbuf :=
  mk_mbuf (om_off m) (om_flags m) v (om_len m) (om_omp m) (om_next m) (om_databuf m).
Definition set_om_len (v : Z) (m : os_mbuf) : os_mbuf :=
  mk_mbuf (om_off m) (om_flags m) (om_pkthdr_len m) v (om_omp m) (om_next m) (om_databuf m).
Definition set_om_next (v : Z) (m : os_mbuf) : os_mbuf :=
  mk_mbuf (om_off m) (om_flags m) (om_pkthdr_len m) (om_len m) (om_omp m) v (om_databuf m).
Definition set_om_databuf (v : list Z) (m : os_mbuf) : os_mbuf :=
  mk_mbuf (om_off m) (om_flags m) (om_pkthdr_len m) (om_len m) (om_omp m) (om_next m) v.

Record os_mbuf_pool := mk_mbuf_pool {
  omp_databuf_len : Z;
  omp_mbuf_count : Z;
  omp_pool : nat;
}.
#[export] Instance os_mbuf_pool_inhabited : Inhabited os_mbuf_pool := populate (mk_mbuf_pool 0 0 0).

(** Overwriting [bytes] at offset [o] of a buffer. *)
Definition splice (o : nat) (bytes buf : list Z) : list Z :=
  take o buf ++ bytes ++ drop (o + length bytes) buf.

Definition OS_MBUF_IS_PKTHDR (m : os_mbuf) : bool := sizeof_os_mbuf_pkthdr <=? om_pkthdr_len m.

(** [omp_len] of the packet header, little endian at the start of the buffer. *)
Definition OS_MBUF_PKTLEN (m : os_mbuf) : Z :=
  nth 0 (om_databuf m) 0 + 256 * nth 1 (om_databuf m) 0.
Definition set_pktlen (v : Z) (m : os_mbuf) : os_mbuf :=
  let v := u16 v in
  set_om_databuf (splice 0 [v mod 256; v / 256] (om_databuf m)) m.

Definition OS_MBUF_LEADINGSPACE (m : os_mbuf) : Z :=
  u16 (om_off m - (if OS_MBUF_IS_PKTHDR m then om_pkthdr_len m else 0)).

Section mbuf.
Context {S : Type} {AL : Allocator S} {inh : Inhabited S}.

Record bstate := mk_bstate {
  mbufs : gmap Z os_mbuf;
  stale : gmap Z (list Z);
  mpools : gmap nat S;
  omps : gmap nat os_mbuf_pool;
  g_msys_pool_list : list nat;
}.

Abbreviation B := (M bstate) (only parsing).

Definition set_mbufs (v : gmap Z os_mbuf) (s : bstate) : bstate :=
  mk_bstate v (stale s) (mpools s) (omps s) (g_msys_pool_list s).
Definition set_stale (v : gmap Z (list Z)) (s : bstate) : bstate :=
  mk_bstate (mbufs s) v (mpools s) (omps s) (g_msys_pool_list s).
Definition set_mpools (v : gmap nat S) (s : bstate) : bstate :=
  mk_bstate (mbufs s) (stale s) v (omps s) (g_msys_pool_list s).
Definition set_omps (v : gmap nat os_mbuf_pool) (s : bstate) : bstate :=
  mk_bstate (mbufs s) (stale s) (mpools s) v (g_msys_pool_list s).
Definition set_g_msys_pool_list (v : list nat) (s : bstate) : bstate :=
  mk_bstate (mbufs s) (stale s) (mpools s) (omps s) v.

Definition omp_of (s : bstate) (o : nat) : os_mbuf_pool := omps s !!! o.

(** Runs an operation of the memory pool [p]. *)
Definition on_pool {A} (p : nat) (m : M S A) : B A := λ s,
  match m (mpools s !!! p) with
  | Ret (a, v) => Ret (a, set_mpools (<[p := v]> (mpools s)) s)
  | Fault f => Fault f
  end.

(** *** Access to mbufs *)
Definition mbuf_at (a : Z) : B os_mbuf := s ← get; from_option_fault FNull (mbufs s !! a).
Definition put_mbuf (a : Z) (m : os_mbuf) : B unit := modify (λ s, set_mbufs (<[a := m]> (mbufs s)) s).
Definition upd_mbuf (a : Z) (f : os_mbuf → os_mbuf) : B unit :=
  m ← mbuf_at a; put_mbuf a (f m).

(** memcpy of [len] bytes from offset [o] of the data buffer. *)
Definition read_buf (a o len : Z) : B (list Z) :=
  m ← mbuf_at a;
  if (0 <=? o) && (0 <=? len) && (o + len <=? Z.of_nat (length (om_databuf m))) then
    mret (take (Z.to_nat len) (drop (Z.to_nat o) (om_databuf m)))
  else fault_with FNull.

(** memcpy of [bytes] to offset [o] of the data buffer. *)
Definition write_buf (a o : Z) (bytes : list Z) : B unit :=
  m ← mbuf_at a;
  if (0 <=? o) && (o + Z.of_nat (length bytes) <=? Z.of_nat (length (om_databuf m))) then
    put_mbuf a (set_om_databuf (splice (Z.to_nat o) bytes (om_databuf m)) m)
  else fault_with FNull.

Definition OS_MBUF_TRAILINGSPACE (m : os_mbuf) (omp : os_mbuf_pool) : Z :=
  u16 (omp_databuf_len omp - (om_off m + om_len m)).

(** Bound of the loops over a chain: a chain visits an mbuf once. *)
Definition chain_fuel : B nat := gets (λ s, Datatypes.S (size (mbufs s))).

(** ** Pools of mbufs *)

Definition os_mbuf_pool_init (o mp : nat) (buf_len nbufs : Z) : B Z :=
  modify (λ s, set_omps (<[o := mk_mbuf_pool (u16 (buf_len - sizeof_os_mbuf)) nbufs mp]> (omps s)) s) ;;
  mret 0.

Definition os_mbuf_get (o : nat) (leadingspace : Z) : B Z :=
  s ← get;
  let omp := omp_of s o in
  om ← on_pool (omp_pool omp) al_get;
  if om =? 0 then mret 0
  else
    put_mbuf om (mk_mbuf leadingspace 0 0 0 o 0
      (resize (Z.to_nat (omp_databuf_len omp)) 0 (stale s !!! om))) ;;
    mret om.

Definition os_mbuf_get_pkthdr (o : nat) (user_pkthdr_len : Z) : B Z :=
  om ← os_mbuf_get o 0;
  if om =? 0 then mret 0
  else
    let hdr := user_pkthdr_len + sizeof_os_mbuf_pkthdr in
    upd_mbuf om (set_om_pkthdr_len (u8 hdr)) ;;
    upd_mbuf om (λ m, set_om_off (om_off m + hdr) m) ;;
    write_buf om 0 [0; 0] ;;
    write_buf om 2 [0; 0] ;;
    write_buf om 4 [0; 0; 0; 0] ;;
    mret om.

(** The block goes back to its pool, its bytes stay where they are. *)
Definition os_mbuf_free (om : Z) : B os_error :=
  m ← mbuf_at om;
  s ← get;
  rc ← on_pool (omp_pool (omp_of s (om_omp m))) (al_put om);
  if bool_decide (rc ≠ OS_OK) then mret rc
  else
    modify (λ s, set_stale (<[om := om_databuf m]> (stale s)) (set_mbufs (delete om (mbufs s)) s)) ;;
    mret OS_OK.

Fixpoint free_chain_loop (fuel : nat) (om : Z) : B os_error :=
  if om =? 0 then mret OS_OK
  else match fuel with
  | O => fault_with FFuel
  | Datatypes.S fuel =>
      m ← mbuf_at om;
      let next := om_next m in
      rc ← os_mbuf_free om;
      if bool_decide (rc ≠ OS_OK) then mret rc else free_chain_loop fuel next
  end.
Definition os_mbuf_free_chain (om : Z) : B os_error := fuel ← chain_fuel; free_chain_loop fuel om.

Definition _os_mbuf_copypkthdr (new_buf old_buf : Z) : B unit :=
  m ← mbuf_at old_buf;
  bytes ← read_buf old_buf 0 (om_pkthdr_len m);
  write_buf new_buf 0 bytes.

(** ** Appending and copying out *)

(** The loop that scrolls to the last mbuf of a chain. *)
Fixpoint last_loop (fuel : nat) (om : Z) : B Z :=
  m ← mbuf_at om;
  if om_next m =? 0 then mret om
  else match fuel with
  | O => fault_with FFuel
  | Datatypes.S fuel => last_loop fuel (om_next m)
  end.
Definition last_mbuf (om : Z) : B Z := fuel ← chain_fuel; last_loop fuel om.

(** The loop that allocates mbufs for the rest of the data; it returns what could
    not be stored.  A new mbuf takes at least one byte. *)
Fixpoint append_loop (fuel : nat) (o : nat) (last : Z) (data : list Z) : B (list Z) :=
  match data with
  | [] => mret []
  | _ =>
      match fuel with
      | O => fault_with FFuel
      | Datatypes.S fuel =>
          new ← os_mbuf_get o 0;
          if new =? 0 then mret data
          else
            s ← get;
            let n := Z.min (omp_databuf_len (omp_of s o)) (Z.of_nat (length data)) in
            upd_mbuf new (set_om_len n) ;;
            m ← mbuf_at new;
            write_buf new (om_off m) (take (Z.to_nat n) data) ;;
            upd_mbuf last (set_om_next new) ;;
            append_loop fuel o new (drop (Z.to_nat n) data)
      end
  end.

(** [data] has the [len] bytes of the C call. *)
Definition os_mbuf_append (om : Z) (data : list Z) : B os_error :=
  if om =? 0 then mret OS_EINVAL
  else
    m ← mbuf_at om;
    let o := om_omp m in
    last ← last_mbuf om;
    s ← get;
    ml ← mbuf_at last;
    let space := OS_MBUF_TRAILINGSPACE ml (omp_of s (om_omp ml)) in
    rest ← (if 0 <? space then
              let n := Z.to_nat (Z.min space (Z.of_nat (length data))) in
              write_buf last (om_off ml + om_len ml) (take n data) ;;
              upd_mbuf last (λ m, set_om_len (u16 (om_len m + Z.of_nat n)) m) ;;
              mret (drop n data)
            else mret data);
    left ← append_loop (length rest) o last rest;
    m ← mbuf_at om;
    (if OS_MBUF_IS_PKTHDR m then
       upd_mbuf om (set_pktlen (OS_MBUF_PKTLEN m + (Z.of_nat (length data) - Z.of_nat (length left))))
     else mret tt) ;;
    mret (match left with [] => OS_OK | _ => OS_ENOMEM end).

(** The mbuf that holds offset [off], and the offset within it. *)
Fixpoint off_loop (fuel : nat) (om : Z) (off : Z) : B (option (Z * Z)) :=
  if om =? 0 then mret None
  else
    m ← mbuf_at om;
    if (off <? om_len m) || ((om_len m =? off) && (om_next m =? 0)) then mret (Some (om, off))
    else match fuel with
    | O => fault_with FFuel
    | Datatypes.S fuel => off_loop fuel (om_next m) (off - om_len m)
    end.
Definition os_mbuf_off (om off : Z) : B (option (Z * Z)) := fuel ← chain_fuel; off_loop fuel om off.

(** The first loop of [os_mbuf_copydata]: [None] when the chain ends before
    [off]. *)
Fixpoint copydata_skip (fuel : nat) (m : Z) (off : Z) : B (option (Z * Z)) :=
  if 0 <? off then
    if m =? 0 then mret None
    else
      mb ← mbuf_at m;
      if off <? om_len mb then mret (Some (m, off))
      else match fuel with
      | O => fault_with FFuel
      | Datatypes.S fuel => copydata_skip fuel (om_next mb) (off - om_len mb)
      end
  else mret (Some (m, off)).

(** The second loop: the bytes copied and the number that is missing. *)
Fixpoint copydata_loop (fuel : nat) (m : Z) (off len : Z) : B (list Z * Z) :=
  if (0 <? len) && negb (m =? 0) then
    match fuel with
    | O => fault_with FFuel
    | Datatypes.S fuel =>
        mb ← mbuf_at m;
        let count := Z.min (om_len mb - off) len in
        bytes ← read_buf m (om_off mb + off) count;
        '(rest, missing) ← copydata_loop fuel (om_next mb) 0 (len - count);
        mret (bytes ++ rest, missing)
    end
  else mret ([], len).

(** The result code and the bytes written to [dst]. *)
Definition os_mbuf_copydata (m off len : Z) : B (Z * list Z) :=
  fuel ← chain_fuel;
  r ← copydata_skip fuel m off;
  match r with
  | None => mret (-1, [])
  | Some (m, off) =>
      '(bytes, missing) ← copydata_loop fuel m off len;
      mret (if 0 <? missing then -1 else 0, bytes)
  end.

(** ** Duplicating *)

(** The new mbuf of one round, linked to the copy so far; [head] and [copy] are
    [0] in the first round.  [None]: out of memory. *)
Definition dup_alloc (o : nat) (om head copy : Z) : B (option (Z * Z)) :=
  m ← mbuf_at om;
  new ← os_mbuf_get o (OS_MBUF_LEADINGSPACE m);
  if negb (head =? 0) then
    upd_mbuf copy (set_om_next new) ;;
    if new =? 0 then os_mbuf_free_chain head ;; mret None else mret (Some (head, new))
  else if new =? 0 then mret None
  else
    (if OS_MBUF_IS_PKTHDR m then _os_mbuf_copypkthdr new om else mret tt) ;;
    mret (Some (new, new)).

Fixpoint dup_loop (fuel : nat) (o : nat) (om head copy : Z) : B Z :=
  if om =? 0 then mret head
  else match fuel with
  | O => fault_with FFuel
  | Datatypes.S fuel =>
      r ← dup_alloc o om head copy;
      match r with
      | None => mret 0
      | Some (head, copy) =>
          m ← mbuf_at om;
          upd_mbuf copy (set_om_flags (om_flags m)) ;;
          upd_mbuf copy (set_om_len (om_len m)) ;;
          bytes ← read_buf om (om_off m) (om_len m);
          c ← mbuf_at copy;
          write_buf copy (om_off c) bytes ;;
          dup_loop fuel o (om_next m) head copy
      end
  end.

Definition os_mbuf_dup (om : Z) : B Z :=
  m ← mbuf_at om;
  fuel ← chain_fuel;
  dup_loop fuel (om_omp m) om 0 0.

(** ** Trimming *)

(** The loop that trims [len] bytes from the front; it returns what is left to
    trim. *)
Fixpoint adj_head_loop (fuel : nat) (m len : Z) : B Z :=
  if negb (m =? 0) && (0 <? len) then
    match fuel with
    | O => fault_with FFuel
    | Datatypes.S fuel =>
        mb ← mbuf_at m;
        if om_len mb <=? len then
          upd_mbuf m (set_om_len 0) ;;
          adj_head_loop fuel (om_next mb) (len - om_len mb)
        else
          upd_mbuf m (λ b, set_om_len (u16 (om_len b - len)) b) ;;
          upd_mbuf m (λ b, set_om_off (om_off b + len) b) ;;
          adj_head_loop fuel m 0
    end
  else mret len.

(** The scan for the last mbuf and the total length. *)
Fixpoint adj_scan_loop (fuel : nat) (m count : Z) : B (Z * Z) :=
  mb ← mbuf_at m;
  let count := count + om_len mb in
  if om_next mb =? 0 then mret (m, count)
  else match fuel with
  | O => fault_with FFuel
  | Datatypes.S fuel => adj_scan_loop fuel (om_next mb) count
  end.

(** The loop that cuts the chain after [count] bytes. *)
Fixpoint adj_cut_loop (fuel : nat) (m count : Z) : B unit :=
  if m =? 0 then mret tt
  else
    mb ← mbuf_at m;
    if count <=? om_len mb then
      upd_mbuf m (set_om_len (u16 count)) ;;
      if negb (om_next mb =? 0) then
        os_mbuf_free_chain (om_next mb) ;;
        upd_mbuf m (set_om_next 0)
      else mret tt
    else match fuel with
    | O => fault_with FFuel
    | Datatypes.S fuel => adj_cut_loop fuel (om_next mb) (count - om_len mb)
    end.

Definition sub_pktlen (mp n : Z) : B unit :=
  m ← mbuf_at mp;
  if OS_MBUF_IS_PKTHDR m then upd_mbuf mp (set_pktlen (OS_MBUF_PKTLEN m - n)) else mret tt.

Definition os_mbuf_adj (mp req_len : Z) : B unit :=
  if mp =? 0 then mret tt
  else
    fuel ← chain_fuel;
    if 0 <=? req_len then
      len ← adj_head_loop fuel mp req_len;
      sub_pktlen mp (req_len - len)
    else
      let len := - req_len in
      '(m, count) ← adj_scan_loop fuel mp 0;
      mb ← mbuf_at m;
      if len <=? om_len mb then
        upd_mbuf m (λ b, set_om_len (u16 (om_len b - len)) b) ;;
        sub_pktlen mp len
      else
        let count := Z.max 0 (count - len) in
        h ← mbuf_at mp;
        (if OS_MBUF_IS_PKTHDR h then upd_mbuf mp (set_pktlen count) else mret tt) ;;
        adj_cut_loop fuel mp count.

(** ** Comparing *)

(** memcmp of baselibc: the difference at the first byte that differs. *)
Fixpoint memcmp (s1 s2 : list Z) : Z :=
  match s1, s2 with
  | c1 :: s1, c2 :: s2 => if c1 - c2 =? 0 then memcmp s1 s2 else c1 - c2
  | _, _ => 0
  end.

Fixpoint memcmp_loop (fuel : nat) (om om_off_ : Z) (data : list Z) : B Z :=
  if om =? 0 then mret (-1)
  else
    m ← mbuf_at om;
    let chunk_sz := Z.min (om_len m - om_off_) (Z.of_nat (length data)) in
    rc ← (if 0 <? chunk_sz then
            bytes ← read_buf om (om_off m + om_off_) chunk_sz;
            mret (memcmp bytes (take (Z.to_nat chunk_sz) data))
          else mret 0);
    if negb (rc =? 0) then mret rc
    else
      let rest := drop (Z.to_nat chunk_sz) data in
      match rest with
      | [] => mret 0
      | _ =>
          if om_next m =? 0 then mret (-1)
          else match fuel with
          | O => fault_with FFuel
          | Datatypes.S fuel => memcmp_loop fuel (om_next m) 0 rest
          end
      end.

Definition os_mbuf_memcmp (om off : Z) (data : list Z) : B Z :=
  match data with
  | [] => mret 0
  | _ =>
      r ← os_mbuf_off om off;
      fuel ← chain_fuel;
      match r with
      | None => mret (-1)
      | Some (om, om_off_) => memcmp_loop fuel om om_off_ data
      end
  end.

(** ** Prepending *)

Fixpoint prepend_loop (fuel : nat) (om len : Z) : B Z :=
  m ← mbuf_at om;
  let leading := Z.min len (OS_MBUF_LEADINGSPACE m) in
  upd_mbuf om (λ m, set_om_off (om_off m - leading) m) ;;
  upd_mbuf om (λ m, set_om_len (u16 (om_len m + leading)) m) ;;
  (if OS_MBUF_IS_PKTHDR m then upd_mbuf om (set_pktlen (OS_MBUF_PKTLEN m + leading)) else mret tt) ;;
  let len := len - leading in
  if len =? 0 then mret om
  else match fuel with
  | O => fault_with FFuel
  | Datatypes.S fuel =>
      p ← (if OS_MBUF_IS_PKTHDR m then
             os_mbuf_get_pkthdr (om_omp m) (u8 (om_pkthdr_len m - sizeof_os_mbuf_pkthdr))
           else os_mbuf_get (om_omp m) 0);
      if p =? 0 then os_mbuf_free_chain om ;; mret 0
      else
        (if OS_MBUF_IS_PKTHDR m then
           _os_mbuf_copypkthdr p om ;; upd_mbuf om (set_om_pkthdr_len 0)
         else mret tt) ;;
        s ← get;
        upd_mbuf p (λ q, set_om_off (om_off q + OS_MBUF_TRAILINGSPACE q (omp_of s (om_omp q))) q) ;;
        upd_mbuf p (set_om_next om) ;;
        prepend_loop fuel p len
  end.

(** Every new head takes at least one byte (when its buffer has room at all). *)
Definition os_mbuf_prepend (om len : Z) : B Z := prepend_loop (Z.to_nat len) om len.

(** ** Overwriting *)

(** [inl tt]: everything was copied; [inr (cur, rest)]: the chain ended at [cur]
    with [rest] left.  The offset [cur_off] is the same in every round. *)
Fixpoint copyinto_loop (fuel : nat) (cur cur_off : Z) (src : list Z) : B (unit + Z * list Z) :=
  m ← mbuf_at cur;
  let copylen := Z.min (om_len m - cur_off) (Z.of_nat (length src)) in
  rest ← (if 0 <? copylen then
            write_buf cur (om_off m + cur_off) (take (Z.to_nat copylen) src) ;;
            mret (drop (Z.to_nat copylen) src)
          else mret src);
  match rest with
  | [] => mret (inl tt)
  | _ =>
      if om_next m =? 0 then mret (inr (cur, rest))
      else match fuel with
      | O => fault_with FFuel
      | Datatypes.S fuel => copyinto_loop fuel (om_next m) cur_off rest
      end
  end.

Definition os_mbuf_copyinto (om off : Z) (src : list Z) : B Z :=
  r ← os_mbuf_off om off;
  match r with
  | None => mret (-1)
  | Some (cur, cur_off) =>
      fuel ← chain_fuel;
      r ← copyinto_loop fuel cur cur_off src;
      match r with
      | inl _ => mret 0
      | inr (cur, rest) =>
          rc ← os_mbuf_append cur rest;
          match rc with
          | OS_OK =>
              m ← mbuf_at om;
              (if OS_MBUF_IS_PKTHDR m then
                 upd_mbuf om (set_pktlen (Z.max (OS_MBUF_PKTLEN m) (off + Z.of_nat (length rest))))
               else mret tt) ;;
              mret 0
          | OS_EINVAL => mret 2
          | _ => mret 1
          end
      end
  end.

(** ** Joining *)

(** The loop that adds up the lengths of the second chain. *)
Fixpoint sum_len_loop (fuel : nat) (first cur : Z) : B unit :=
  if cur =? 0 then mret tt
  else match fuel with
  | O => fault_with FFuel
  | Datatypes.S fuel =>
      c ← mbuf_at cur;
      upd_mbuf first (λ m, set_pktlen (OS_MBUF_PKTLEN m + om_len c) m) ;;
      sum_len_loop fuel first (om_next c)
  end.

Definition os_mbuf_concat (first second : Z) : B unit :=
  cur ← last_mbuf first;
  upd_mbuf cur (set_om_next second) ;;
  f ← mbuf_at first;
  (if OS_MBUF_IS_PKTHDR f then
     sec ← mbuf_at second;
     if OS_MBUF_IS_PKTHDR sec then
       upd_mbuf first (set_pktlen (OS_MBUF_PKTLEN f + OS_MBUF_PKTLEN sec))
     else
       fuel ← chain_fuel;
       sum_len_loop fuel first second
   else mret tt) ;;
  upd_mbuf second (set_om_pkthdr_len 0).

(** The result is the mbuf and the offset in its buffer of the space reserved. *)
Definition os_mbuf_extend (om len : Z) : B (option (Z * Z)) :=
  m ← mbuf_at om;
  s ← get;
  if omp_databuf_len (omp_of s (om_omp m)) <? len then mret None
  else
    last ← last_mbuf om;
    ml ← mbuf_at last;
    last ← (if OS_MBUF_TRAILINGSPACE ml (omp_of s (om_omp ml)) <? len then
              newm ← os_mbuf_get (om_omp m) 0;
              if newm =? 0 then mret 0
              else upd_mbuf last (set_om_next newm) ;; mret newm
            else mret last);
    if last =? 0 then mret None
    else
      ml ← mbuf_at last;
      let data := om_off ml + om_len ml in
      upd_mbuf last (λ b, set_om_len (u16 (om_len b + len)) b) ;;
      m ← mbuf_at om;
      (if OS_MBUF_IS_PKTHDR m then upd_mbuf om (set_pktlen (OS_MBUF_PKTLEN m + len)) else mret tt) ;;
      mret (Some (last, data)).

(** The [do ... while] loop of [os_mbuf_pullup]: what is left of [len], and the
    mbuf it got to. *)
Fixpoint pullup_loop (fuel : nat) (om2 om len space : Z) : B (Z * Z) :=
  match fuel with
  | O => fault_with FFuel
  | Datatypes.S fuel =>
      m ← mbuf_at om;
      m2 ← mbuf_at om2;
      let count := Z.min (Z.min len space) (om_len m) in
      bytes ← read_buf om (om_off m) count;
      write_buf om2 (om_off m2 + om_len m2) bytes ;;
      upd_mbuf om2 (λ b, set_om_len (u16 (om_len b + count)) b) ;;
      upd_mbuf om (λ b, set_om_len (u16 (om_len b - count)) b) ;;
      m ← mbuf_at om;
      om ← (if negb (om_len m =? 0) then
              upd_mbuf om (λ b, set_om_off (om_off b + count) b) ;; mret om
            else os_mbuf_free om ;; mret (om_next m));
      let len := len - count in
      if (0 <? len) && negb (om =? 0) then pullup_loop fuel om2 om len (space - count)
      else mret (len, om)
  end.

Definition os_mbuf_pullup (om len : Z) : B Z :=
  m ← mbuf_at om;
  s ← get;
  fuel ← chain_fuel;
  let omp := omp_of s (om_omp m) in
  if len <=? om_len m then mret om
  else
    r ← (if (len <=? om_len m + OS_MBUF_TRAILINGSPACE m omp) && negb (om_next m =? 0) then
           mret (Some (om, om_next m, len - om_len m))
         else if omp_databuf_len omp - om_pkthdr_len m <? len then mret None
         else
           om2 ← os_mbuf_get (om_omp m) 0;
           if om2 =? 0 then mret None
           else
             (if OS_MBUF_IS_PKTHDR m then _os_mbuf_copypkthdr om2 om else mret tt) ;;
             mret (Some (om2, om, len)));
    match r with
    | None => os_mbuf_free_chain om ;; mret 0
    | Some (om2, om, len) =>
        m2 ← mbuf_at om2;
        '(len, om) ← pullup_loop fuel om2 om len (OS_MBUF_TRAILINGSPACE m2 omp);
        if 0 <? len then
          os_mbuf_free om2 ;;
          os_mbuf_free_chain om ;;
          mret 0
        else
          upd_mbuf om2 (set_om_next om) ;;
          mret om2
    end.

(** ** System pools *)

Definition os_msys_register (new_pool : nat) : B Z :=
  s ← get;
  let smaller p := omp_databuf_len (omp_of s p) <? omp_databuf_len (omp_of s new_pool) in
  modify (set_g_msys_pool_list
    match head (filter (λ p, smaller p = true) (g_msys_pool_list s)) with
    | Some pool => insert_after pool new_pool (g_msys_pool_list s)
    | None => g_msys_pool_list s ++ [new_pool]
    end) ;;
  mret 0.

Definition os_msys_reset : B unit := modify (set_g_msys_pool_list []).

Definition _os_msys_find_pool (dsize : Z) : B (option nat) :=
  s ← get;
  match head (filter (λ p, (dsize <=? omp_databuf_len (omp_of s p)) = true) (g_msys_pool_list s)) with
  | Some pool => mret (Some pool)
  | None => mret (last (g_msys_pool_list s))
  end.

Definition os_msys_get (dsize leadingspace : Z) : B Z :=
  pool ← _os_msys_find_pool dsize;
  match pool with Some o => os_mbuf_get o leadingspace | None => mret 0 end.

Definition os_msys_get_pkthdr (dsize user_hdr_len : Z) : B Z :=
  let total_pkthdr_len := u16 (user_hdr_len + sizeof_os_mbuf_pkthdr) in
  pool ← _os_msys_find_pool (u16 (dsize + total_pkthdr_len));
  match pool with Some o => os_mbuf_get_pkthdr o (u8 user_hdr_len) | None => mret 0 end.
End mbuf.
