(* ===== verification/OsMbufSpec.v ===== *)
(** Mbuf chains as byte sequences: what the operations of [OsMbuf] do to the data
    a chain holds. *)
From Stdlib Require Import ZArith Lia.
From stdpp Require Import base decidable list numbers gmap.
From S2P Require Import Prelude.
From S2P Require Import OsState.
From S2P Require Import OsMempool.
From S2P Require Import OsMbuf.

#[local] Open Scope Z_scope.
#[local] Arguments splice : simpl never.

(** ** Buffers *)

(** The bytes an mbuf holds. *)
Definition om_bytes (m : os_mbuf) : list Z :=
  take (Z.to_nat (om_len m)) (drop (Z.to_nat (om_off m)) (om_databuf m)).

Lemma length_splice o bytes buf :
  (o + length bytes <= length buf)%nat → length (splice o bytes buf) = length buf.
Proof. intros H. unfold splice. rewrite !length_app, length_take, length_drop. lia. Qed.

(** A list of at least [n] elements starts with a list of [n] elements. *)
Lemma list_split_at {A} n (l : list A) :
  (n <= length l)%nat → ∃ l1 l2, l = l1 ++ l2 ∧ length l1 = n.
Proof.
  intros H. exists (take n l), (drop n l). by rewrite take_drop, length_take_le.
Qed.

Lemma splice_app l1 l2 l3 bytes :
  length l2 = length bytes → splice (length l1) bytes (l1 ++ l2 ++ l3) = l1 ++ bytes ++ l3.
Proof.
  intros H. unfold splice. rewrite take_app_length. f_equal. f_equal.
  rewrite <- H, drop_app_add. by rewrite drop_app_length.
Qed.

(** Writing right behind the first [n] bytes of a window extends it. *)
Lemma take_drop_splice_after off n bytes buf :
  (off + n + length bytes <= length buf)%nat →
  take (n + length bytes) (drop off (splice (off + n) bytes buf)) =
    take n (drop off buf) ++ bytes.
Proof.
  intros H. destruct (list_split_at off buf) as (l1 & r1 & -> & H1); [lia|].
  rewrite length_app in H. destruct (list_split_at n r1) as (l2 & r2 & -> & H2); [lia|].
  rewrite length_app in H. destruct (list_split_at (length bytes) r2) as (l3 & l4 & -> & H3); [lia|].
  subst off n. rewrite <- (length_app l1 l2). rewrite (app_assoc l1 l2 (l3 ++ l4)), splice_app by done.
  rewrite <- !app_assoc, !drop_app_length, take_app_add, !take_app_length. done.
Qed.

(** Writing in front of a window leaves it alone. *)
Lemma drop_splice_before o bytes buf off :
  (o + length bytes <= off)%nat → (o + length bytes <= length buf)%nat →
  drop off (splice o bytes buf) = drop off buf.
Proof.
  intros H1 H2. destruct (list_split_at o buf) as (l1 & r1 & -> & E1); [lia|].
  rewrite length_app in H2. destruct (list_split_at (length bytes) r1) as (l2 & l3 & -> & E2); [lia|].
  rewrite <- E1, splice_app by done. rewrite !drop_app_ge by lia. f_equal. lia.
Qed.

Section spec.
Context {S : Type} {AL : Allocator S} {inh : Inhabited S}.
Abbreviation bst := (bstate (S := S)) (only parsing).
Implicit Types (s : bst).

(** ** Chains *)

Record mbuf_ok (s : bst) (m : os_mbuf) : Prop := {
  mb_off : 0 <= om_off m;
  mb_len : 0 <= om_len m;
  mb_fits : om_off m + om_len m <= omp_databuf_len (omp_of s (om_omp m));
  mb_buf : Z.of_nat (length (om_databuf m)) = omp_databuf_len (omp_of s (om_omp m));
  mb_max : omp_databuf_len (omp_of s (om_omp m)) < 65536;
  mb_hdr : 0 <= om_pkthdr_len m ∧ (OS_MBUF_IS_PKTHDR m = true → om_pkthdr_len m <= om_off m);
}.

(** [linked s a l]: the chain that starts at [a] consists of the mbufs [l]. *)
Fixpoint linked (s : bst) (a : Z) (l : list Z) : Prop :=
  match l with
  | [] => a = 0
  | b :: l => a = b ∧ b ≠ 0 ∧ ∃ m, mbufs s !! b = Some m ∧ mbuf_ok s m ∧ linked s (om_next m) l
  end.

Definition bytes_at (s : bst) (b : Z) : list Z :=
  match mbufs s !! b with Some m => om_bytes m | None => [] end.
Definition chain_data (s : bst) (l : list Z) : list Z := l ≫= bytes_at s.

Lemma chain_data_cons s b l : chain_data s (b :: l) = bytes_at s b ++ chain_data s l.
Proof. done. Qed.
Lemma chain_data_app s l1 l2 : chain_data s (l1 ++ l2) = chain_data s l1 ++ chain_data s l2.
Proof. apply bind_app. Qed.

Lemma length_om_bytes s m : mbuf_ok s m → Z.of_nat (length (om_bytes m)) = om_len m.
Proof.
  intros [H1 H2 H3 H4 _ _]. unfold om_bytes. rewrite length_take, length_drop. lia.
Qed.

(** Every mbuf of a chain is allocated, so the number of mbufs bounds the length of
    a chain without repetitions. *)
Lemma linked_lookup s l : ∀ a b, linked s a l → b ∈ l → is_Some (mbufs s !! b).
Proof.
  induction l as [|c l IH]; intros a b; simpl; [intros; set_solver|].
  intros (-> & _ & m & Hm & _ & Hl) [->|Hb]%elem_of_cons; [eauto|by eapply IH].
Qed.

Lemma linked_fuel s a l : linked s a l → NoDup l → (length l <= size (mbufs s))%nat.
Proof.
  intros Hl Hnd. rewrite <- size_dom, <- (size_list_to_set (C := gset Z) l) by done.
  apply subseteq_size. intros b Hb%elem_of_list_to_set. apply elem_of_dom. by eapply linked_lookup.
Qed.

(** A chain depends on its own mbufs and on the sizes of the pools only. *)
Lemma linked_ext s s' l : ∀ a,
  omps s' = omps s → (∀ b, b ∈ l → mbufs s' !! b = mbufs s !! b) → linked s a l → linked s' a l.
Proof.
  induction l as [|b l IH]; intros a Ho Hm; simpl; [done|].
  intros (-> & Hb & m & Hbm & Hok & Hl). split_and!; [done|done|]. exists m.
  rewrite Hm by left. split_and!; [done| |apply IH; [done| |done]; intros; apply Hm; by right].
  destruct Hok as [H1 H2 H3 H4 H5 H6]. unfold omp_of in *. by split; unfold omp_of; rewrite ?Ho.
Qed.

Lemma bytes_at_ext s s' b : mbufs s' !! b = mbufs s !! b → bytes_at s' b = bytes_at s b.
Proof. unfold bytes_at. by intros ->. Qed.

Lemma chain_data_ext s s' l :
  (∀ b, b ∈ l → mbufs s' !! b = mbufs s !! b) → chain_data s' l = chain_data s l.
Proof.
  induction l as [|b l IH]; intros H; [done|]. rewrite !chain_data_cons.
  rewrite (bytes_at_ext s s' b), IH; [done|intros; apply H; by right|apply H; by left].
Qed.

(** ** Reading *)

Lemma mbuf_at_run s a m : mbufs s !! a = Some m → mbuf_at a s = Ret (m, s).
Proof. intros H. unfold mbuf_at, mbind, M_bind, get. by rewrite H. Qed.

Lemma read_buf_run s a m off len :
  mbufs s !! a = Some m → mbuf_ok s m → 0 <= off → 0 <= len → off + len <= om_len m →
  read_buf a (om_off m + off) len s =
    Ret (take (Z.to_nat len) (drop (Z.to_nat off) (om_bytes m)), s).
Proof.
  intros Hm [H1 H2 H3 H4 _ _] Ho Hl Hle. unfold read_buf, mbind, M_bind.
  rewrite (mbuf_at_run _ _ _ Hm). rewrite !(proj2 (Z.leb_le _ _)) by lia. cbn [andb].
  unfold mret, M_ret. f_equal. f_equal. unfold om_bytes.
  rewrite skipn_firstn_comm, take_take, drop_drop. f_equal; [lia|]. f_equal. lia.
Qed.

(** The result of [os_mbuf_copydata], in terms of the bytes of the chain. *)
Definition copy_result (data : list Z) (off len : Z) : Z * list Z :=
  (if (off <=? Z.of_nat (length data)) && (len <=? Z.of_nat (length data) - off) then 0 else -1,
   take (Z.to_nat len) (drop (Z.to_nat off) data)).

(** Cutting a window out of a concatenation. *)
Lemma window_app (l1 l2 : list Z) off len :
  0 <= off <= Z.of_nat (length l1) → 0 <= len →
  let count := Z.min (Z.of_nat (length l1) - off) len in
  take (Z.to_nat len) (drop (Z.to_nat off) (l1 ++ l2)) =
    take (Z.to_nat count) (drop (Z.to_nat off) l1) ++ take (Z.to_nat (len - count)) l2.
Proof.
  intros Ho Hl. simpl. rewrite drop_app_le by lia. rewrite take_app, length_drop. f_equal.
  - destruct (Z.min_spec (Z.of_nat (length l1) - off) len) as [[? ->]|[? ->]]; [|done].
    rewrite !take_ge; [done|rewrite length_drop; lia..].
  - f_equal. lia.
Qed.

(** [off] lies within the first mbuf of the chain [l], or is 0. *)
Definition in_first s (l : list Z) (off : Z) : Prop :=
  off = 0 ∨ ∃ b l', l = b :: l' ∧ off < Z.of_nat (length (bytes_at s b)).

Lemma copydata_loop_spec s l : ∀ fuel a off len,
  linked s a l → (length l <= fuel)%nat → 0 <= off → 0 <= len → in_first s l off →
  copydata_loop fuel a off len s =
    Ret (take (Z.to_nat len) (drop (Z.to_nat off) (chain_data s l)),
         Z.max 0 (len - (Z.of_nat (length (chain_data s l)) - off)), s).
Proof.
  induction l as [|b l IH]; intros fuel a off len Hl Hfuel Ho Hlen Hor.
  - simpl in Hl. subst a. destruct Hor as [->|(? & ? & ? & _)]; [|done].
    destruct fuel; simpl; rewrite andb_false_r; unfold mret, M_ret; rewrite take_nil;
      do 3 f_equal; lia.
  - destruct Hl as (-> & Hnz & m & Hm & Hok & Hl). destruct fuel as [|fuel]; [simpl in Hfuel; lia|].
    assert (Hb : bytes_at s b = om_bytes m) by (unfold bytes_at; by rewrite Hm).
    pose proof (length_om_bytes s m Hok) as Hlb.
    assert (Hoff : off <= om_len m).
    { destruct Hor as [->|(? & ? & [= <- <-] & Hlt)]; [apply Hok|]. rewrite Hb in Hlt. lia. }
    rewrite chain_data_cons, Hb, length_app. cbn [copydata_loop].
    rewrite (proj2 (Z.eqb_neq _ _)) by done. cbn [negb]. rewrite andb_true_r.
    destruct (Z.ltb_spec 0 len) as [Hpos|Hz].
    + unfold mbind, M_bind. rewrite (mbuf_at_run _ _ _ Hm).
      rewrite (read_buf_run s b m) by (done || lia).
      rewrite (IH fuel (om_next m) 0) by (done || (simpl in Hfuel; lia) || by left).
      unfold mret, M_ret. rewrite drop_0, <- Hlb, <- window_app by lia.
      do 3 f_equal. lia.
    + replace len with 0 by lia. unfold mret, M_ret. do 3 f_equal. lia.
Qed.

Lemma copydata_skip_spec s l : ∀ fuel a off,
  linked s a l → (length l <= fuel)%nat → 0 <= off →
  (Z.of_nat (length (chain_data s l)) < off ∧ copydata_skip fuel a off s = Ret (None, s)) ∨
  (off <= Z.of_nat (length (chain_data s l)) ∧ ∃ a' l' off',
    copydata_skip fuel a off s = Ret (Some (a', off'), s) ∧
    linked s a' l' ∧ (length l' <= length l)%nat ∧ 0 <= off' ∧ in_first s l' off' ∧
    Z.of_nat (length (chain_data s l)) - off = Z.of_nat (length (chain_data s l')) - off' ∧
    drop (Z.to_nat off) (chain_data s l) = drop (Z.to_nat off') (chain_data s l')).
Proof.
  induction l as [|b l IH]; intros fuel a off Hl Hfuel Ho.
  - simpl in Hl. subst a. destruct (Z.ltb_spec 0 off) as [Hpos|Hz].
    + left. split; [simpl; lia|]. destruct fuel; simpl; rewrite (proj2 (Z.ltb_lt _ _)) by lia; done.
    + right. split; [simpl; lia|]. exists 0, [], off. replace off with 0 by lia.
      split_and!; (done || lia || (by left) || by destruct fuel).
  - pose proof Hl as (-> & Hnz & m & Hm & Hok & Hl'). pose proof (length_om_bytes s m Hok) as Hlb.
    assert (Hb : bytes_at s b = om_bytes m) by (unfold bytes_at; by rewrite Hm).
    destruct (Z.ltb_spec 0 off) as [Hpos|Hz].
    2:{ right. split; [lia|]. exists b, (b :: l), off. split_and!; try done; [|by left; lia].
        destruct fuel; cbn [copydata_skip]; by rewrite (proj2 (Z.ltb_ge _ _)) by lia. }
    destruct fuel as [|fuel]; [simpl in Hfuel; lia|]. cbn [copydata_skip].
    rewrite (proj2 (Z.ltb_lt _ _)), (proj2 (Z.eqb_neq _ _)) by lia.
    unfold mbind, M_bind. rewrite (mbuf_at_run _ _ _ Hm).
    rewrite chain_data_cons, Hb, length_app. destruct (Z.ltb_spec off (om_len m)) as [Hin|Hout].
    + right. split; [lia|]. exists b, (b :: l), off. rewrite chain_data_cons, Hb, length_app.
      split_and!; try done. right. exists b, l. rewrite Hb. split; [done|lia].
    + specialize (IH fuel (om_next m) (off - om_len m) Hl' ltac:(simpl in Hfuel; lia) ltac:(lia)).
      destruct IH as [[Hlt Hrun]|(Hle & a' & l' & off' & Hrun & ? & ? & ? & ? & Hlen & Hdrop)].
      * left. split; [lia|done].
      * right. split; [lia|]. exists a', l', off'. split_and!; try done; [simpl; lia|lia|].
        rewrite drop_app_ge by lia. rewrite <- Hdrop. f_equal. lia.
Qed.

(** [os_mbuf_copydata] copies the requested window of the chain's bytes, or what
    there is of it, and reports whether it was complete. *)
Lemma os_mbuf_copydata_run s a l off len :
  linked s a l → NoDup l → 0 <= off → 0 <= len →
  os_mbuf_copydata a off len s = Ret (copy_result (chain_data s l) off len, s).
Proof.
  intros Hl Hnd Ho Hlen. pose proof (linked_fuel s a l Hl Hnd) as Hf.
  unfold os_mbuf_copydata, mbind, M_bind, chain_fuel, gets, copy_result.
  destruct (copydata_skip_spec s l (Datatypes.S (size (mbufs s))) a off) as
    [[Hlt ->]|(Hle & a' & l' & off' & -> & Hl' & Hlen' & Ho' & Hin & Htot & Hdrop)]; [done|lia|done|..].
  - rewrite (proj2 (Z.leb_gt _ _)) by lia. cbn [andb]. unfold mret, M_ret.
    by rewrite drop_ge, take_nil by lia.
  - rewrite (copydata_loop_spec s l') by (done || lia). unfold mret, M_ret.
    rewrite (proj2 (Z.leb_le _ _)) by lia. cbn [andb]. rewrite <- Hdrop. do 3 f_equal.
    destruct (Z.leb_spec len (Z.of_nat (length (chain_data s l)) - off));
      destruct (Z.ltb_spec 0 (Z.max 0 (len - (Z.of_nat (length (chain_data s l')) - off')))); lia || done.
Qed.

(** *** Positions *)

Lemma off_loop_spec s l : ∀ fuel a off,
  linked s a l → (length l <= fuel)%nat → 0 <= off →
  off_loop fuel a off s = Ret (None, s) ∧ (l = [] ∨ Z.of_nat (length (chain_data s l)) < off) ∨
  ∃ b o l1 l2, off_loop fuel a off s = Ret (Some (b, o), s) ∧ l = l1 ++ b :: l2 ∧
    Z.of_nat (length (chain_data s l1)) + o = off ∧ 0 <= o <= Z.of_nat (length (bytes_at s b)) ∧
    (o = Z.of_nat (length (bytes_at s b)) → l2 = []).
Proof.
  induction l as [|b l IH]; intros fuel a off Hl Hfuel Ho.
  - simpl in Hl. subst a. left. split; [by destruct fuel|by left].
  - pose proof Hl as (-> & Hnz & m & Hm & Hok & Hl'). pose proof (length_om_bytes s m Hok) as Hlb.
    assert (Hb : bytes_at s b = om_bytes m) by (unfold bytes_at; by rewrite Hm).
    destruct fuel as [|fuel]; [simpl in Hfuel; lia|]. cbn [off_loop].
    rewrite (proj2 (Z.eqb_neq _ _)) by done. unfold mbind, M_bind. rewrite (mbuf_at_run _ _ _ Hm).
    assert (Hnext : om_next m = 0 ↔ l = []).
    { destruct l; simpl in Hl'; [naive_solver|]. destruct Hl' as (-> & ? & _). naive_solver. }
    destruct ((off <? om_len m) || ((om_len m =? off) && (om_next m =? 0))) eqn:Htest.
    + right. exists b, off, [], l. rewrite Hb. split_and!; try done.
      * apply orb_true_iff in Htest as [?|?%andb_true_iff]; lia.
      * intros ->. apply orb_true_iff in Htest as [?|[_ ?]%andb_true_iff]; [lia|]. apply Hnext. lia.
    + apply orb_false_iff in Htest as [Hge Hlast].
      destruct (IH fuel (om_next m) (off - om_len m) Hl') as
        [[-> Hor]|(c & o & l1 & l2 & -> & -> & Hpos & Hr & He)]; [simpl in Hfuel; lia|lia|..].
      * left. split; [done|]. right. rewrite chain_data_cons, length_app, Hb.
        destruct Hor as [->|?]; [|lia]. apply andb_false_iff in Hlast. simpl.
        destruct Hlast as [?|?]; [lia|]. pose proof (proj2 Hnext eq_refl). lia.
      * right. exists c, o, (b :: l1), l2. rewrite chain_data_cons, length_app, Hb.
        split_and!; try done; lia.
Qed.

Lemma os_mbuf_off_run s a l off :
  linked s a l → NoDup l → 0 <= off →
  os_mbuf_off a off s = Ret (None, s) ∧ (l = [] ∨ Z.of_nat (length (chain_data s l)) < off) ∨
  ∃ b o l1 l2, os_mbuf_off a off s = Ret (Some (b, o), s) ∧ l = l1 ++ b :: l2 ∧
    Z.of_nat (length (chain_data s l1)) + o = off ∧ 0 <= o <= Z.of_nat (length (bytes_at s b)) ∧
    (o = Z.of_nat (length (bytes_at s b)) → l2 = []).
Proof.
  intros Hl Hnd Ho. pose proof (linked_fuel s a l Hl Hnd) as Hf.
  unfold os_mbuf_off, mbind, M_bind, chain_fuel, gets. apply off_loop_spec; [done|lia|done].
Qed.

Lemma linked_suffix s l1 : ∀ a b l2, linked s a (l1 ++ b :: l2) → linked s b (b :: l2).
Proof.
  induction l1 as [|c l1 IH]; intros a b l2; simpl.
  - intros (-> & ?). done.
  - intros (_ & _ & m & _ & _ & Hl). by eapply IH.
Qed.

(** *** Comparing *)

Lemma memcmp_app x y d :
  (length x <= length d)%nat →
  memcmp (x ++ y) d = if memcmp x (take (length x) d) =? 0 then memcmp y (drop (length x) d)
                      else memcmp x (take (length x) d).
Proof.
  revert d. induction x as [|c x IH]; intros d Hd; [done|].
  destruct d as [|e d]; [simpl in Hd; lia|]. cbn [app memcmp length take drop].
  destruct (Z.eqb_spec (c - e) 0) as [Hz|Hz]; [apply IH; simpl in Hd; lia|].
  by rewrite (proj2 (Z.eqb_neq _ _)).
Qed.

(** The result of [os_mbuf_memcmp]: the first difference on the bytes there are,
    [-1] if there are too few. *)
Definition cmp_result (avail data : list Z) : Z :=
  if memcmp avail data =? 0 then if (length avail <? length data)%nat then -1 else 0
  else memcmp avail data.

Lemma cmp_result_app x y d :
  (length x <= length d)%nat →
  cmp_result (x ++ y) d = if memcmp x (take (length x) d) =? 0 then cmp_result y (drop (length x) d)
                          else memcmp x (take (length x) d).
Proof.
  intros H. unfold cmp_result. rewrite memcmp_app, length_app, length_drop by done.
  destruct (Z.eqb_spec (memcmp x (take (length x) d)) 0) as [E|E]; [|by rewrite (proj2 (Z.eqb_neq _ _) E)].
  replace (length y <? length d - length x)%nat with (length x + length y <? length d)%nat; [done|].
  destruct (Nat.ltb_spec (length x + length y) (length d)), (Nat.ltb_spec (length y) (length d - length x)); lia.
Qed.

Lemma cmp_result_refl d : cmp_result d d = 0.
Proof.
  unfold cmp_result. rewrite Nat.ltb_irrefl. replace (memcmp d d) with 0; [done|].
  induction d as [|c d IH]; [done|]. simpl. by rewrite Z.sub_diag, <- IH.
Qed.

(** One round of the comparison, in terms of the bytes [x] left in this mbuf and
    the bytes [y] of the mbufs that follow it. *)
Lemma cmp_result_round x y d :
  let n := Nat.min (length x) (length d) in
  cmp_result (take (length d) (x ++ y)) d =
    if memcmp (take n x) (take n d) =? 0 then
      match drop n d with [] => 0 | d' => cmp_result (take (length d') y) d' end
    else memcmp (take n x) (take n d).
Proof.
  intros n. destruct (decide (length d <= length x)%nat) as [Hle|Hlt].
  - replace n with (length d) by lia. rewrite take_app_le, drop_ge, (take_ge d) by lia.
    unfold cmp_result. rewrite length_take_le, Nat.ltb_irrefl by done. done.
  - replace n with (length x) by lia. rewrite take_app_ge, cmp_result_app, (take_ge x) by lia.
    destruct (memcmp x (take (length x) d) =? 0); [|done]. rewrite <- length_drop.
    destruct (drop (length x) d) as [|c d'] eqn:E; [|done].
    apply (f_equal length) in E. rewrite length_drop in E. simpl in E. lia.
Qed.

Lemma memcmp_loop_spec s l : ∀ fuel b o data,
  linked s b (b :: l) → (length l <= fuel)%nat → 0 <= o <= Z.of_nat (length (bytes_at s b)) →
  memcmp_loop fuel b o data s =
    Ret (cmp_result (take (length data) (drop (Z.to_nat o) (chain_data s (b :: l)))) data, s).
Proof.
  induction l as [|c l IH]; intros fuel b o data Hl Hfuel Ho;
    destruct Hl as (_ & Hnz & m & Hm & Hok & Hl); pose proof (length_om_bytes s m Hok) as Hlb;
    assert (Hb : bytes_at s b = om_bytes m) by (unfold bytes_at; by rewrite Hm);
    rewrite Hb in Ho; rewrite chain_data_cons, Hb, drop_app_le, cmp_result_round, length_drop by lia.
  all: set (x := drop (Z.to_nat o) (om_bytes m)).
  all: replace (Nat.min _ _) with (Z.to_nat (Z.min (om_len m - o) (Z.of_nat (length data)))) by lia.
  all: assert (Hread : (if 0 <? Z.min (om_len m - o) (Z.of_nat (length data)) then
      bytes ← read_buf b (om_off m + o) (Z.min (om_len m - o) (Z.of_nat (length data)));
      mret (memcmp bytes (take (Z.to_nat (Z.min (om_len m - o) (Z.of_nat (length data)))) data))
    else mret 0) s = Ret (memcmp (take (Z.to_nat (Z.min (om_len m - o) (Z.of_nat (length data)))) x)
      (take (Z.to_nat (Z.min (om_len m - o) (Z.of_nat (length data)))) data), s)).
  1, 3: destruct (Z.ltb_spec 0 (Z.min (om_len m - o) (Z.of_nat (length data)))) as [H|H];
    [unfold mbind, M_bind; by rewrite (read_buf_run s b m) by (done || lia)|];
    replace (Z.min _ _) with 0 by lia; done.
  - simpl in Hl. destruct fuel as [|fuel]; unfold memcmp_loop, mbind, M_bind in *;
    rewrite (proj2 (Z.eqb_neq b 0)), (mbuf_at_run _ _ _ Hm), Hread, Hl by done;
    destruct (memcmp _ _ =? 0); try done; by destruct (drop _ data).
  - destruct fuel as [|fuel]; [simpl in Hfuel; lia|]. pose proof Hl as (Hn & Hc & _).
    cbn [memcmp_loop]. unfold mbind, M_bind in *.
    rewrite (proj2 (Z.eqb_neq b 0)), (mbuf_at_run _ _ _ Hm), Hread, Hn by done.
    destruct (memcmp _ _ =? 0); [cbn [negb]|done].
    destruct (drop _ data) as [|d ds] eqn:E; [done|]. rewrite (proj2 (Z.eqb_neq c 0)) by done.
    rewrite IH; [by rewrite drop_0| |simpl in Hfuel; lia|lia]. by rewrite <- Hn at 1.
Qed.

(** [os_mbuf_memcmp] compares the data with the bytes of the chain at [off]. *)
Lemma os_mbuf_memcmp_run s a l off data :
  linked s a l → NoDup l → 0 <= off →
  os_mbuf_memcmp a off data s =
    Ret (match data with
         | [] => 0
         | _ => if off <=? Z.of_nat (length (chain_data s l))
                then cmp_result (take (length data) (drop (Z.to_nat off) (chain_data s l))) data
                else -1
         end, s).
Proof.
  intros Hl Hnd Ho. pose proof (linked_fuel s a l Hl Hnd) as Hf.
  destruct data as [|d data]; [done|]. unfold os_mbuf_memcmp, mbind, M_bind, chain_fuel, gets.
  destruct (os_mbuf_off_run s a l off) as [[-> Hor]|(b & o & l1 & l2 & -> & -> & Hpos & Hr & He)]; try done.
  - destruct Hor as [->|Hlt]; [|by rewrite (proj2 (Z.leb_gt _ _))]. simpl.
    destruct (off <=? Z.of_nat 0); [|done]. by rewrite drop_nil.
  - pose proof (linked_suffix _ _ _ _ _ Hl) as Hl'. rewrite length_app in Hf. simpl in Hf.
    rewrite (memcmp_loop_spec s l2) by (done || lia).
    rewrite chain_data_app, length_app, chain_data_cons, length_app, (proj2 (Z.leb_le _ _)) by lia.
    rewrite (drop_app_ge (chain_data s l1)) by lia. do 5 f_equal. lia.
Qed.

(** ** Writing

    The state changes of the operations are tracked through the mbufs; the pools
    stay as they are unless an mbuf is allocated or freed. *)
Record same_env (s s' : bst) : Prop := {
  se_omps : omps s' = omps s;
  se_mpools : mpools s' = mpools s;
}.

Lemma wp_mbuf_at s a m (Q : os_mbuf → bst → Prop) :
  mbufs s !! a = Some m → Q m s → wp (mbuf_at a) Q s.
Proof. intros H ?. eapply wp_eq; [by apply mbuf_at_run|done]. Qed.

Lemma wp_upd_mbuf s a m f (Q : unit → bst → Prop) :
  mbufs s !! a = Some m →
  (∀ s', mbufs s' = <[a := f m]> (mbufs s) → same_env s s' → Q tt s') → wp (upd_mbuf a f) Q s.
Proof.
  intros Hm HQ. unfold upd_mbuf. apply wp_bind, (wp_mbuf_at _ _ m); [done|]. unfold put_mbuf. wp_simp.
  by apply HQ.
Qed.

Lemma wp_write_buf s a m o bytes (Q : unit → bst → Prop) :
  mbufs s !! a = Some m → 0 <= o → o + Z.of_nat (length bytes) <= Z.of_nat (length (om_databuf m)) →
  (∀ s', mbufs s' = <[a := set_om_databuf (splice (Z.to_nat o) bytes (om_databuf m)) m]> (mbufs s) →
    same_env s s' → Q tt s') →
  wp (write_buf a o bytes) Q s.
Proof.
  intros Hm Ho Hlen HQ. unfold write_buf. apply wp_bind, (wp_mbuf_at _ _ m); [done|].
  rewrite !(proj2 (Z.leb_le _ _)) by lia. unfold put_mbuf. wp_simp. by apply HQ.
Qed.

(** Well-formedness of an mbuf depends on the sizes of the pools only. *)
Lemma mbuf_ok_ext s s' m : omps s' = omps s → mbuf_ok s m → mbuf_ok s' m.
Proof.
  intros Ho [H1 H2 H3 H4 H5 H6]. unfold omp_of in *. by split; unfold omp_of; rewrite ?Ho.
Qed.

(** Replacing what follows [b] in a chain. *)
Lemma linked_tail s s' l1 : ∀ a b l2 l2',
  omps s' = omps s → (∀ c, c ∈ l1 → mbufs s' !! c = mbufs s !! c) →
  linked s a (l1 ++ b :: l2) → linked s' b (b :: l2') → linked s' a (l1 ++ b :: l2').
Proof.
  induction l1 as [|c l1 IH]; intros a b l2 l2' Ho Hm.
  - cbn [app]. intros (-> & _) ?. done.
  - cbn [app]. intros (-> & Hc & m & Hcm & Hok & Hl) Hl2. split_and!; [done|done|]. exists m.
    rewrite Hm by left. split_and!; [done|by eapply mbuf_ok_ext|].
    apply (IH _ _ l2); try done. intros; apply Hm; by right.
Qed.

(** Changing an mbuf in place. *)
Lemma linked_update s s' b m m' l : ∀ a,
  omps s' = omps s → mbufs s' = <[b := m']> (mbufs s) → mbufs s !! b = Some m →
  mbuf_ok s m' → om_next m' = om_next m → linked s a l → linked s' a l.
Proof.
  induction l as [|c l IH]; intros a Ho Hs' Hm Hok Hn; [done|].
  intros (-> & Hc & mc & Hcm & Hokc & Hl). split_and!; [done|done|].
  destruct (decide (b = c)) as [->|Hbc].
  - exists m'. rewrite Hs', lookup_insert_eq. split_and!; [done|by eapply mbuf_ok_ext|].
    rewrite Hn. assert (m = mc) as -> by congruence. by apply IH.
  - exists mc. rewrite Hs', lookup_insert_ne by done.
    split_and!; [done|by eapply mbuf_ok_ext|]. by apply IH.
Qed.

Lemma bytes_at_insert s s' b m' c :
  mbufs s' = <[b := m']> (mbufs s) → bytes_at s' c = if decide (b = c) then om_bytes m' else bytes_at s c.
Proof.
  unfold bytes_at. intros ->. destruct (decide (b = c)) as [->|H];
    [by rewrite lookup_insert_eq|by rewrite lookup_insert_ne].
Qed.

Lemma chain_data_update s s' b m m' l :
  mbufs s' = <[b := m']> (mbufs s) → mbufs s !! b = Some m → om_bytes m' = om_bytes m →
  chain_data s' l = chain_data s l.
Proof.
  intros Hs' Hm Hb. induction l as [|c l IH]; [done|]. rewrite !chain_data_cons, IH. f_equal.
  rewrite (bytes_at_insert _ _ _ _ _ Hs'). destruct (decide (b = c)) as [->|]; [|done].
  rewrite Hb. unfold bytes_at. by rewrite Hm.
Qed.

(** *** The packet header *)

Lemma set_pktlen_ok s v m : OS_MBUF_IS_PKTHDR m = true → mbuf_ok s m → mbuf_ok s (set_pktlen v m).
Proof.
  intros Hh [H1 H2 H3 H4 H5 H6]. specialize (proj2 H6 Hh) as Hle.
  unfold OS_MBUF_IS_PKTHDR, sizeof_os_mbuf_pkthdr in Hh.
  unfold set_pktlen; split; cbn [set_om_databuf om_off om_len om_omp om_databuf om_pkthdr_len]; try done. rewrite length_splice; [done|simpl; lia].
Qed.

Lemma set_pktlen_bytes s v m :
  OS_MBUF_IS_PKTHDR m = true → mbuf_ok s m → om_bytes (set_pktlen v m) = om_bytes m.
Proof.
  intros Hh [H1 H2 H3 H4 H5 H6]. specialize (proj2 H6 Hh) as Hle.
  unfold OS_MBUF_IS_PKTHDR, sizeof_os_mbuf_pkthdr in Hh.
  unfold om_bytes. simpl. rewrite drop_splice_before; [done|simpl; lia..].
Qed.

Lemma pktlen_set s v m :
  OS_MBUF_IS_PKTHDR m = true → mbuf_ok s m → OS_MBUF_PKTLEN (set_pktlen v m) = u16 v.
Proof.
  intros Hh [H1 H2 H3 H4 H5 H6]. specialize (proj2 H6 Hh) as Hle.
  unfold OS_MBUF_IS_PKTHDR, sizeof_os_mbuf_pkthdr in Hh.
  unfold OS_MBUF_PKTLEN, set_pktlen, splice. simpl.
  rewrite Z.add_comm. symmetry. apply Z_div_mod_eq_full.
Qed.

(** The packet length in the header of [a], if there is one. *)
Definition pktlen_at (s : bst) (a : Z) : option Z :=
  m ← mbufs s !! a; if OS_MBUF_IS_PKTHDR m then Some (OS_MBUF_PKTLEN m) else None.

(** ** Allocation *)

(** The free blocks of the pool of [o] are [free], and no mbuf lives in them. *)
Record alloc_ok (s : bst) (o : nat) (free : list Z) : Prop := {
  ao_ok : al_ok (mpools s !!! omp_pool (omp_of s o)) free;
  ao_fresh : ∀ b, b ∈ free → mbufs s !! b = None;
  ao_len : 0 < omp_databuf_len (omp_of s o) < 65536;
}.

Lemma alloc_ok_env s s' o free :
  same_env s s' → (∀ b, b ∈ free → mbufs s' !! b = None) → alloc_ok s o free → alloc_ok s' o free.
Proof.
  intros [Ho Hp] Hf [H1 H2 H3]. unfold omp_of in *.
  split; unfold omp_of; rewrite ?Ho, ?Hp; done.
Qed.

Lemma wp_os_mbuf_get s o a free ls :
  alloc_ok s o (a :: free) →
  wp (os_mbuf_get o ls) (λ r s', r = a ∧ a ≠ 0 ∧ a ∉ free ∧ alloc_ok s' o free ∧ omps s' = omps s ∧
    ∃ buf, Z.of_nat (length buf) = omp_databuf_len (omp_of s o) ∧
      mbufs s' = <[a := mk_mbuf ls 0 0 0 o 0 buf]> (mbufs s)) s.
Proof.
  intros [H1 H2 H3]. unfold os_mbuf_get. wp_simp. unfold wp, on_pool.
  pose proof (al_sub _ _ H1) as [Hnd _]. apply NoDup_cons in Hnd as [Hnot _].
  pose proof (al_get_some _ _ _ H1) as Hget. unfold wp in Hget.
  destruct (al_get (mpools s !!! omp_pool (omp_of s o))) as [[r v]|]; [|done].
  destruct Hget as (-> & Hnz & Hok & _). rewrite (proj2 (Z.eqb_neq _ _)) by done.
  unfold put_mbuf, mbind, M_bind, modify, mret, M_ret. split_and!; try done.
  - split; try done; [by unfold omp_of in *; simpl; rewrite lookup_total_insert_eq|].
    intros b Hb. simpl. rewrite lookup_insert_ne by set_solver. apply H2. by right.
  - eexists. split; [|done]. rewrite length_resize. lia.
Qed.

Lemma os_mbuf_get_none s o ls :
  alloc_ok s o [] → wp (os_mbuf_get o ls) (λ r s', r = 0 ∧ mbufs s' = mbufs s ∧ alloc_ok s' o [] ∧
    omps s' = omps s) s.
Proof.
  intros [H1 H2 H3]. unfold os_mbuf_get. wp_simp. unfold wp, on_pool. rewrite (al_get_none _ H1).
  simpl. split_and!; try done. split; try done. simpl. unfold omp_of in *. simpl.
  by rewrite lookup_total_insert_eq.
Qed.

(** ** Appending *)

(** The first write of an mbuf of its own pool. *)
Lemma fresh_filled s o a n bytes buf :
  0 < omp_databuf_len (omp_of s o) < 65536 → Z.of_nat (length bytes) = n →
  n <= omp_databuf_len (omp_of s o) → Z.of_nat (length buf) = omp_databuf_len (omp_of s o) →
  let m := set_om_databuf (splice 0 bytes buf) (set_om_len n (mk_mbuf 0 0 0 0 o a buf)) in
  mbuf_ok s m ∧ om_bytes m = bytes.
Proof.
  intros Hlen Hn Hle Hbuf. split.
  - split; cbn [set_om_databuf set_om_len om_off om_len om_omp om_databuf om_pkthdr_len]; try lia.
    by rewrite length_splice by lia.
  - unfold om_bytes, splice. cbn [set_om_databuf set_om_len om_off om_len om_databuf].
    rewrite drop_0, take_0. cbn [app]. rewrite <- Hn, Nat2Z.id. by rewrite take_app_length.
Qed.

(** What an appending operation did: it linked the mbufs [new] after [last] and
    left the mbufs before it alone. *)
Record grown (s s' : bst) (o : nat) (last : Z) (new free free' : list Z) : Prop := {
  gr_linked : linked s' last (last :: new);
  gr_free : free = new ++ free';
  gr_alloc : alloc_ok s' o free';
  gr_omps : omps s' = omps s;
  gr_frame : ∀ b, b ≠ last → b ∉ new → mbufs s' !! b = mbufs s !! b;
}.

(** One round: a new mbuf with as much of the data as it takes. *)
Definition append_round (o : nat) (new last : Z) (data : list Z) : M bst unit :=
  s ← get;
  let n := Z.min (omp_databuf_len (omp_of s o)) (Z.of_nat (length data)) in
  upd_mbuf new (set_om_len n) ;;
  m ← mbuf_at new;
  write_buf new (om_off m) (take (Z.to_nat n) data) ;;
  upd_mbuf last (set_om_next new).

Lemma append_loop_S fuel o last data s :
  data ≠ [] →
  append_loop (Datatypes.S fuel) o last data s =
    (new ← os_mbuf_get o 0;
     if new =? 0 then mret data
     else s ← get; append_round o new last data ;;
       append_loop fuel o new
         (drop (Z.to_nat (Z.min (omp_databuf_len (omp_of s o)) (Z.of_nat (length data)))) data)) s.
Proof.
  intros Hd. destruct data as [|c data]; [done|]. cbn [append_loop]. unfold append_round, mbind, M_bind, get.
  destruct (os_mbuf_get o 0 s) as [[new s1]|]; [|done]. destruct (new =? 0); [done|].
  destruct (upd_mbuf new _ s1) as [[u s2]|]; [|done]. destruct (mbuf_at new s2) as [[m s3]|]; [|done].
  destruct (write_buf _ _ _ s3) as [[u' s4]|]; [|done]. by destruct (upd_mbuf last _ s4) as [[]|].
Qed.

Lemma append_round_spec s s1 o a free last ml data buf :
  alloc_ok s o (a :: free) → mbufs s !! last = Some ml → last ≠ a → a ∉ free →
  alloc_ok s1 o free → omps s1 = omps s → Z.of_nat (length buf) = omp_databuf_len (omp_of s o) →
  mbufs s1 = <[a := mk_mbuf 0 0 0 0 o 0 buf]> (mbufs s) →
  let n := Z.min (omp_databuf_len (omp_of s o)) (Z.of_nat (length data)) in
  wp (append_round o a last data) (λ _ s', ∃ m,
    mbufs s' !! a = Some m ∧ mbuf_ok s m ∧ om_next m = 0 ∧ om_bytes m = take (Z.to_nat n) data ∧
    mbufs s' !! last = Some (set_om_next a ml) ∧
    (∀ b, b ≠ last → b ≠ a → mbufs s' !! b = mbufs s !! b) ∧ omps s' = omps s ∧ alloc_ok s' o free) s1.
Proof.
  intros Ha Hml Hla Hnf Ha1 Ho1 Hbuf Hs1 n. pose proof (ao_len _ _ _ Ha) as Hlen.
  assert (Homp : omp_of s1 o = omp_of s o) by (unfold omp_of; by rewrite Ho1).
  unfold append_round. wp_simp. rewrite Homp. fold n.
  eapply wp_upd_mbuf; [by rewrite Hs1, lookup_insert_eq|]. intros s2 Hs2 He2.
  rewrite Hs1, insert_insert_eq in Hs2.
  wp_step. eapply wp_mbuf_at; [by rewrite Hs2, lookup_insert_eq|]. wp_step.
  assert (Htake : Z.of_nat (length (take (Z.to_nat n) data)) = n) by (rewrite length_take; lia).
  eapply wp_write_buf; [by rewrite Hs2, lookup_insert_eq|done|simpl; lia|].
  intros s3 Hs3 He3. rewrite Hs2, insert_insert_eq in Hs3.
  destruct (fresh_filled s o 0 n (take (Z.to_nat n) data) buf) as [Hok Hbytes]; [done|done|lia|done|].
  set (m := set_om_databuf _ _) in Hok, Hbytes.
  change (mbufs s3 = <[a := m]> (mbufs s)) in Hs3. assert (Hmn : om_next m = 0) by done. clearbody m.
  eapply wp_upd_mbuf; [by rewrite Hs3, lookup_insert_ne by done|]. intros s4 Hs4 He4.
  assert (Ho4 : omps s4 = omps s) by (by rewrite (se_omps _ _ He4), (se_omps _ _ He3), (se_omps _ _ He2)).
  assert (H4 : ∀ b, b ≠ last → b ≠ a → mbufs s4 !! b = mbufs s !! b).
  { intros b ? ?. by rewrite Hs4, lookup_insert_ne, Hs3, lookup_insert_ne. }
  exists m. split_and!; try done; [by rewrite Hs4, lookup_insert_ne, Hs3, lookup_insert_eq|
    by rewrite Hs4, lookup_insert_eq|].
  apply (alloc_ok_env s1); [|intros b Hb|done].
  - split; [by rewrite Ho4, Ho1|]. by rewrite (se_mpools _ _ He4), (se_mpools _ _ He3), (se_mpools _ _ He2).
  - rewrite H4; [apply (ao_fresh _ _ _ Ha); by right| |congruence].
    intros ->. pose proof (ao_fresh _ _ _ Ha last). set_solver.
Qed.

Lemma grown_nil s s' o last free :
  linked s last [last] → mbufs s' = mbufs s → omps s' = omps s → alloc_ok s' o free →
  grown s s' o last [] free free ∧ bytes_at s' last = bytes_at s last ∧
  pktlen_at s' last = pktlen_at s last.
Proof.
  intros Hl Hm Ho Ha. split_and!; [|by apply bytes_at_ext; rewrite Hm|unfold pktlen_at; by rewrite Hm].
  split; try done; [|intros; by rewrite Hm]. apply (linked_ext s); [done| |done]. intros; by rewrite Hm.
Qed.

Lemma append_loop_spec fuel : ∀ s o last data free,
  (length data <= fuel)%nat → alloc_ok s o free → linked s last [last] →
  wp (append_loop fuel o last data) (λ left s', ∃ new free',
    (grown s s' o last new free free' ∧
     bytes_at s' last = bytes_at s last ∧ pktlen_at s' last = pktlen_at s last) ∧
    chain_data s' new ++ left = data ∧ (left ≠ [] → free' = [])) s.
Proof.
  induction fuel as [|fuel IH]; intros s o last data free Hfuel Ha Hl.
  { destruct data; [|simpl in Hfuel; lia]. apply wp_ret. exists [], free.
    split; [by apply grown_nil|done]. }
  destruct (decide (data = [])) as [->|Hd].
  { apply wp_ret. exists [], free. split; [by apply grown_nil|done]. }
  assert (Hlenpos : (0 < length data)%nat) by (destruct data; [done|simpl; lia]).
  eapply wp_ext; [by apply append_loop_S|].
  apply wp_bind. destruct free as [|a free].
  { eapply wp_mono; [by apply os_mbuf_get_none|].
    intros r s' (-> & Hm & Ha' & Ho). apply wp_ret. exists [], []. split; [by apply grown_nil|done]. }
  pose proof Hl as (_ & Hlnz & ml & Hml & Hokl & Hnext).
  pose proof (ao_fresh _ _ _ Ha) as Hfr.
  assert (Hla : last ≠ a) by (intros ->; specialize (Hfr a); set_solver).
  eapply wp_mono; [by apply wp_os_mbuf_get|].
  intros r s1 (-> & Hnz & Hnf & Ha1 & Ho1 & buf & Hbuf & Hs1).
  rewrite (proj2 (Z.eqb_neq _ _)) by done. wp_step. wp_step. wp_step.
  pose proof (ao_len _ _ _ Ha) as Hlen.
  eapply wp_mono; [by eapply (append_round_spec s)|].
  intros _ s4 (m & H4a & Hok & Hmn & Hbytes & H4l & H4 & Ho4 & Ha4).
  assert (Hl4 : linked s4 a [a]).
  { split_and!; [done|done|]. exists m. split_and!; [done|by eapply mbuf_ok_ext|done]. }
  assert (Homp : omp_of s1 o = omp_of s o) by (unfold omp_of; by rewrite Ho1). rewrite Homp.
  set (n := Z.min _ _) in *.
  eapply wp_mono; [apply (IH s4 o a _ free); [rewrite length_drop; lia|done|done]|].
  intros left s' (new & free' & ([G1 G2 G3 G4 G5] & Hb & _) & Hdata & Hleft).
  assert (Hlnew : last ∉ new) by (intros Hin; specialize (Hfr last); set_solver).
  exists (a :: new), free'. rewrite chain_data_cons, Hb.
  unfold bytes_at at 3. rewrite H4a, Hbytes, <- (assoc_L (++)), Hdata.
  split_and!; [|..|by apply take_drop|done].
  - split; [|by rewrite G2|done|by rewrite G4|].
    + split_and!; [done|done|]. exists (set_om_next a ml). rewrite G5 by done.
      split_and!; [done| |done]. apply (mbuf_ok_ext s); [by rewrite G4, Ho4|]. by destruct Hokl.
    + intros b Hbl [Hba Hbn]%not_elem_of_cons. rewrite G5 by done. by apply H4.
  - unfold bytes_at. by rewrite G5, H4l, Hml by done.
  - unfold pktlen_at. by rewrite G5, H4l, Hml by done.
Qed.

Lemma last_loop_run s l b : ∀ fuel a,
  linked s a (l ++ [b]) → (length l <= fuel)%nat → last_loop fuel a s = Ret (b, s).
Proof.
  induction l as [|c l IH]; intros fuel a Hl Hfuel.
  - destruct Hl as (-> & Hnz & m & Hm & _ & Hn). simpl in Hn.
    destruct fuel; cbn [last_loop]; unfold mbind, M_bind;
      by rewrite (mbuf_at_run _ _ _ Hm), Hn.
  - destruct Hl as (-> & Hnz & m & Hm & _ & Hl). destruct fuel as [|fuel]; [simpl in Hfuel; lia|].
    cbn [last_loop]. unfold mbind, M_bind. rewrite (mbuf_at_run _ _ _ Hm).
    rewrite (proj2 (Z.eqb_neq (om_next m) 0)); [apply IH; [done|simpl in Hfuel; lia]|].
    destruct l; simpl in Hl; naive_solver.
Qed.

Lemma last_mbuf_run s a l b : linked s a (l ++ [b]) → NoDup (l ++ [b]) → last_mbuf a s = Ret (b, s).
Proof.
  intros Hl Hnd. pose proof (linked_fuel s a _ Hl Hnd) as Hf. rewrite length_app in Hf. simpl in Hf.
  unfold last_mbuf, mbind, M_bind, chain_fuel, gets. apply (last_loop_run s l); [done|lia].
Qed.

(** Bytes written right behind the data of an mbuf. *)
Lemma fill_ok s m bytes :
  mbuf_ok s m → om_off m + om_len m + Z.of_nat (length bytes) <= omp_databuf_len (omp_of s (om_omp m)) →
  let m' := set_om_len (u16 (om_len m + Z.of_nat (length bytes)))
    (set_om_databuf (splice (Z.to_nat (om_off m + om_len m)) bytes (om_databuf m)) m) in
  mbuf_ok s m' ∧ om_next m' = om_next m ∧ om_bytes m' = om_bytes m ++ bytes ∧
  OS_MBUF_IS_PKTHDR m' = OS_MBUF_IS_PKTHDR m ∧
  (OS_MBUF_IS_PKTHDR m = true → OS_MBUF_PKTLEN m' = OS_MBUF_PKTLEN m).
Proof.
  intros [H1 H2 H3 H4 H5 H6] Hfit m'. assert (Hlen : om_len m' = om_len m + Z.of_nat (length bytes)).
  { unfold m'. cbn [set_om_len om_len]. rewrite u16_small; lia. }
  split_and!; try done.
  - split; rewrite ?Hlen; unfold m'; cbn [set_om_len set_om_databuf om_off om_omp om_databuf om_pkthdr_len];
      try (done || lia). rewrite length_splice; lia.
  - unfold om_bytes. rewrite Hlen. unfold m'. cbn [set_om_len set_om_databuf om_off om_databuf].
    rewrite !Z2Nat.inj_add, Nat2Z.id by lia. apply take_drop_splice_after. lia.
  - intros Hh. specialize (proj2 H6 Hh) as Hle. unfold OS_MBUF_IS_PKTHDR, sizeof_os_mbuf_pkthdr in Hh.
    unfold OS_MBUF_PKTLEN, m', splice. cbn [set_om_len set_om_databuf om_databuf].
    rewrite !app_nth1 by (rewrite length_take; lia). rewrite !nth_firstn, !(proj2 (Nat.ltb_lt _ _)) by lia. done.
Qed.

Lemma pktlen_at_lookup s s' a m m' :
  mbufs s !! a = Some m → mbufs s' !! a = Some m' → OS_MBUF_IS_PKTHDR m' = OS_MBUF_IS_PKTHDR m →
  (OS_MBUF_IS_PKTHDR m = true → OS_MBUF_PKTLEN m' = OS_MBUF_PKTLEN m) → pktlen_at s' a = pktlen_at s a.
Proof.
  intros Hm Hm' Hh Hp. unfold pktlen_at. rewrite Hm, Hm'. simpl. rewrite Hh.
  destruct (OS_MBUF_IS_PKTHDR m); [|done]. by rewrite Hp.
Qed.

(** The last mbuf takes what its free space holds. *)
Lemma append_fill_spec s b ml data :
  mbufs s !! b = Some ml → mbuf_ok s ml →
  let space := OS_MBUF_TRAILINGSPACE ml (omp_of s (om_omp ml)) in
  wp (if 0 <? space then
        let n := Z.to_nat (Z.min space (Z.of_nat (length data))) in
        write_buf b (om_off ml + om_len ml) (take n data) ;;
        upd_mbuf b (λ m, set_om_len (u16 (om_len m + Z.of_nat n)) m) ;;
        mret (drop n data)
      else mret data) (λ rest s', ∃ bytes m',
    data = bytes ++ rest ∧ same_env s s' ∧ mbufs s' = <[b := m']> (mbufs s) ∧
    mbuf_ok s m' ∧ om_next m' = om_next ml ∧ om_bytes m' = om_bytes ml ++ bytes ∧
    OS_MBUF_IS_PKTHDR m' = OS_MBUF_IS_PKTHDR ml ∧
    (OS_MBUF_IS_PKTHDR ml = true → OS_MBUF_PKTLEN m' = OS_MBUF_PKTLEN ml)) s.
Proof.
  intros Hm Hok space. assert (Hspace : space = omp_databuf_len (omp_of s (om_omp ml)) - (om_off ml + om_len ml)).
  { destruct Hok. unfold space, OS_MBUF_TRAILINGSPACE. apply u16_small. lia. }
  destruct (Z.ltb_spec 0 space) as [Hpos|Hz].
  - cbn zeta. set (n := Z.to_nat _).
    assert (Hn : length (take n data) = n) by (rewrite length_take; lia).
    pose proof (mb_buf _ _ Hok). pose proof (mb_off _ _ Hok). pose proof (mb_len _ _ Hok).
    wp_step. eapply wp_write_buf; [done|lia|rewrite Hn; lia|]. intros s1 Hs1 He1.
    wp_step. eapply wp_upd_mbuf; [by rewrite Hs1, lookup_insert_eq|]. intros s2 Hs2 He2.
    rewrite Hs1, insert_insert_eq in Hs2. wp_step. exists (take n data). eexists.
    split; [by rewrite take_drop|]. split; [destruct He1, He2; split; congruence|]. split; [exact Hs2|].
    pose proof (fill_ok s ml (take n data) Hok) as Hf. rewrite Hn in Hf. apply Hf. lia.
  - apply wp_ret. exists [], ml. rewrite insert_id by done. rewrite app_nil_r. by split_and!.
Qed.

(** The header update at the end keeps the chain and its data. *)
Lemma append_header_spec s a m l v :
  mbufs s !! a = Some m → mbuf_ok s m → linked s a l →
  wp (if OS_MBUF_IS_PKTHDR m then upd_mbuf a (set_pktlen (OS_MBUF_PKTLEN m + v)) else mret tt) (λ _ s',
    linked s' a l ∧ chain_data s' l = chain_data s l ∧ same_env s s' ∧
    (∀ b, b ≠ a → mbufs s' !! b = mbufs s !! b) ∧
    pktlen_at s' a = (λ p, u16 (p + v)) <$> pktlen_at s a) s.
Proof.
  intros Hm Hok Hl. unfold pktlen_at. rewrite Hm. simpl.
  destruct (OS_MBUF_IS_PKTHDR m) eqn:Hh.
  2:{ apply wp_ret. rewrite Hm. simpl. by rewrite Hh. }
  eapply wp_upd_mbuf; [done|]. intros s' Hs' He.
  rewrite Hs', lookup_insert_eq. simpl. change (OS_MBUF_IS_PKTHDR (set_pktlen _ m)) with (OS_MBUF_IS_PKTHDR m).
  rewrite Hh, (pktlen_set s) by done. split_and!; try done.
  - eapply linked_update; [apply He|done|done|by apply set_pktlen_ok|done|done].
  - eapply chain_data_update; [done|done|by eapply set_pktlen_bytes].
  - intros b Hb. by rewrite lookup_insert_ne.
Qed.

(** What [os_mbuf_append] does to a chain [l] that starts at [a]. *)
Record appended (s s' : bst) (o : nat) (a : Z) (l free : list Z) (data left : list Z) : Prop := {
  ap_chain : ∃ new free', linked s' a (l ++ new) ∧ NoDup (l ++ new) ∧ free = new ++ free' ∧
    alloc_ok s' o free' ∧ chain_data s' (l ++ new) ++ left = chain_data s l ++ data ∧
    (left ≠ [] → free' = []) ∧ (∀ b, b ∉ l ++ new → mbufs s' !! b = mbufs s !! b);
  ap_omps : omps s' = omps s;
  ap_pktlen : pktlen_at s' a =
    (λ p, u16 (p + (Z.of_nat (length data) - Z.of_nat (length left)))) <$> pktlen_at s a;
}.

(** The mbufs of a chain that ends at [b] are not free, and those before [b] differ
    from it. *)
Lemma chain_not_free s o a l free c :
  linked s a l → alloc_ok s o free → c ∈ l → c ∉ free.
Proof.
  intros Hl Ha Hc Hin. pose proof (ao_fresh _ _ _ Ha c Hin). destruct (linked_lookup s _ a c Hl Hc). congruence.
Qed.

Lemma snoc_ne (l : list Z) b c : NoDup (l ++ [b]) → c ∈ l → c ≠ b.
Proof.
  intros (_ & Hd & _)%NoDup_app Hc ->. by apply (Hd b Hc), list_elem_of_singleton.
Qed.

(** Storing the data, without the header update. *)
Definition append_store (a : Z) (o : nat) (data : list Z) : M bst (list Z) :=
  last ← last_mbuf a;
  s ← get;
  ml ← mbuf_at last;
  let space := OS_MBUF_TRAILINGSPACE ml (omp_of s (om_omp ml)) in
  rest ← (if 0 <? space then
            let n := Z.to_nat (Z.min space (Z.of_nat (length data))) in
            write_buf last (om_off ml + om_len ml) (take n data) ;;
            upd_mbuf last (λ m, set_om_len (u16 (om_len m + Z.of_nat n)) m) ;;
            mret (drop n data)
          else mret data);
  append_loop (length rest) o last rest.

Lemma os_mbuf_append_split s a data :
  a ≠ 0 →
  os_mbuf_append a data s =
    (m ← mbuf_at a;
     left ← append_store a (om_omp m) data;
     m ← mbuf_at a;
     (if OS_MBUF_IS_PKTHDR m then
        upd_mbuf a (set_pktlen (OS_MBUF_PKTLEN m + (Z.of_nat (length data) - Z.of_nat (length left))))
      else mret tt) ;;
     mret (match left with [] => OS_OK | _ => OS_ENOMEM end)) s.
Proof.
  intros Ha. unfold os_mbuf_append, append_store. rewrite (proj2 (Z.eqb_neq _ _)) by done.
  unfold mbind, M_bind. destruct (mbuf_at a s) as [[m s1]|]; [|done].
  destruct (last_mbuf a s1) as [[last s2]|]; [|done]. unfold get.
  destruct (mbuf_at last s2) as [[ml s3]|]; [|done].
  match goal with |- match ?x with _ => _ end = _ => destruct x as [[rest s4]|]; [|done] end.
  by destruct (append_loop (length rest) (om_omp m) last rest s4) as [[left s5]|].
Qed.

Lemma append_store_spec s a l b o free data :
  linked s a (l ++ [b]) → NoDup (l ++ [b]) → alloc_ok s o free →
  wp (append_store a o data) (λ left s', ∃ new free',
    linked s' a (l ++ b :: new) ∧ free = new ++ free' ∧ alloc_ok s' o free' ∧
    chain_data s' (l ++ b :: new) ++ left = chain_data s (l ++ [b]) ++ data ∧
    (left ≠ [] → free' = []) ∧ omps s' = omps s ∧ pktlen_at s' a = pktlen_at s a ∧
    (∀ c, c ≠ b → c ∉ new → mbufs s' !! c = mbufs s !! c)) s.
Proof.
  intros Hl Hnd Ha. pose proof (λ c, chain_not_free s o a _ free c Hl Ha) as Hafree.
  unfold append_store. wp_step. eapply wp_eq; [by eapply last_mbuf_run|]. wp_step. wp_step.
  pose proof (linked_suffix _ _ _ _ _ Hl) as (_ & Hbnz & ml & Hml & Hokl & Hn). simpl in Hn.
  wp_step. eapply wp_mbuf_at; [done|]. cbv zeta. wp_step. eapply wp_mono; [by apply append_fill_spec|].
  intros rest s1 (bytes & m1 & -> & He1 & Hs1 & Hok1 & Hn1 & Hb1 & Hh1 & Hp1).
  assert (Hl1 : linked s1 b [b]).
  { split_and!; [done|done|]. exists m1. rewrite Hs1, lookup_insert_eq.
    split_and!; [done|eapply mbuf_ok_ext; [apply He1|done]|congruence]. }
  assert (Ha1 : alloc_ok s1 o free).
  { apply (alloc_ok_env s); [done| |done]. intros c Hc. rewrite Hs1, lookup_insert_ne.
    - by apply (ao_fresh _ _ _ Ha).
    - intros ->. eapply Hafree; [|done]. apply elem_of_app. right. by left. }
  eapply wp_mono; [by apply append_loop_spec|].
  intros left s2 (new & free' & ([G1 G2 G3 G4 G5] & Hb2 & Hp2) & Hdata & Hleft).
  assert (Hframe : ∀ c, c ≠ b → c ∉ new → mbufs s2 !! c = mbufs s !! c).
  { intros c ? ?. by rewrite G5, Hs1, lookup_insert_ne. }
  assert (Hfront : ∀ c, c ∈ l → mbufs s2 !! c = mbufs s !! c).
  { intros c Hc. apply Hframe; [by eapply snoc_ne|]. intros Hin.
    apply (Hafree c); [|rewrite G2]; apply elem_of_app; by left. }
  exists new, free'. split_and!; try done.
  - eapply (linked_tail s); [rewrite G4; apply He1|done|done|done].
  - rewrite !chain_data_app, !chain_data_cons, Hb2, <- Hdata.
    rewrite (bytes_at_insert _ _ _ _ _ Hs1), decide_True, Hb1 by done. unfold bytes_at at 1. rewrite Hml.
    unfold chain_data at 4. simpl. rewrite app_nil_r, (chain_data_ext s s2 l) by done.
    by rewrite <- !(assoc_L (++)).
  - rewrite G4. apply He1.
  - destruct (decide (a = b)) as [->|Hab].
    + rewrite Hp2. eapply pktlen_at_lookup; [done|by rewrite Hs1, lookup_insert_eq|done|done].
    + unfold pktlen_at. rewrite Hfront; [done|]. destruct l as [|c l]; simpl in Hl; [naive_solver|].
      destruct Hl as (-> & _). by left.
Qed.

Lemma linked_head s a b l1 l2 :
  linked s a (l1 ++ b :: l2) → a ∈ l1 ++ [b] ∧ ∃ m, mbufs s !! a = Some m ∧ mbuf_ok s m.
Proof.
  intros Hl. destruct l1 as [|c l1]; simpl in Hl; destruct Hl as (-> & _ & m & ? & ? & _);
    (split; [by left|eauto]).
Qed.

Lemma os_mbuf_append_ok s a l b m free data :
  linked s a (l ++ [b]) → NoDup (l ++ [b]) → mbufs s !! a = Some m → alloc_ok s (om_omp m) free →
  wp (os_mbuf_append a data) (λ rc s', ∃ left,
    rc = match left with [] => OS_OK | _ => OS_ENOMEM end ∧
    appended s s' (om_omp m) a (l ++ [b]) free data left) s.
Proof.
  intros Hl Hnd Hm Ha. assert (Hanz : a ≠ 0) by (destruct l; simpl in Hl; naive_solver).
  eapply wp_ext; [by apply os_mbuf_append_split|].
  wp_step. eapply wp_mbuf_at; [done|]. wp_step. eapply wp_mono; [by apply (append_store_spec s a l b _ free)|].
  intros left s2 (new & free' & Hl2 & G2 & G3 & Hcd & Hleft & Ho2 & Hp2 & Hf2).
  destruct (linked_head _ _ _ _ _ Hl2) as (Hain & m2 & Hm2 & Hok2).
  wp_step. eapply wp_mbuf_at; [done|]. wp_step.
  eapply wp_mono; [by apply (append_header_spec s2 a m2 (l ++ b :: new))|].
  intros _ s3 (Hl3 & Hcd3 & He3 & Hf3 & Hp3). wp_step. exists left. split; [done|].
  assert (Ho3 : omps s3 = omps s) by (by rewrite (se_omps _ _ He3)).
  split; [|done|by rewrite Hp3, Hp2]. exists new, free'. rewrite <- (assoc_L (++)). cbn [app].
  pose proof (λ c, chain_not_free s _ a _ free c Hl Ha) as Hafree.
  split_and!; [done| |done| |by rewrite Hcd3|done|].
  - replace (l ++ b :: new) with ((l ++ [b]) ++ new) by (by rewrite <- (assoc_L (++))).
    pose proof (al_sub _ _ (ao_ok _ _ _ Ha)) as [Hndf _]. rewrite G2 in Hndf.
    apply NoDup_app in Hndf as (? & _). apply NoDup_app. split_and!; [done| |done].
    intros c Hc Hin. apply (Hafree c Hc). rewrite G2. apply elem_of_app. by left.
  - apply (alloc_ok_env s2); [done| |done]. intros c Hc. rewrite Hf3; [by apply (ao_fresh _ _ _ G3)|].
    intros ->. apply (Hafree a Hain). rewrite G2. apply elem_of_app. by right.
  - intros c Hc. assert (c ∉ l ∧ c ≠ b ∧ c ∉ new) as (? & ? & ?) by (clear -Hc; set_solver).
    rewrite Hf3; [by apply Hf2|]. intros ->. clear -Hain H H0. set_solver.
Qed.

(** ** Freeing *)

(** The mbufs [l] live in blocks of the pool of [o]. *)
Definition owned (s : bst) (o : nat) (l : list Z) : Prop :=
  ∀ b, b ∈ l → b ∈ al_blocks (mpools s !!! omp_pool (omp_of s o)) ∧
    ∃ m, mbufs s !! b = Some m ∧ om_omp m = o.

Lemma wp_os_mbuf_free s a m free :
  mbufs s !! a = Some m → alloc_ok s (om_omp m) free → owned s (om_omp m) [a] →
  wp (os_mbuf_free a) (λ rc s', rc = OS_OK ∧ mbufs s' = delete a (mbufs s) ∧ omps s' = omps s ∧
    alloc_ok s' (om_omp m) (a :: free) ∧
    al_blocks (mpools s' !!! omp_pool (omp_of s (om_omp m))) =
      al_blocks (mpools s !!! omp_pool (omp_of s (om_omp m)))) s.
Proof.
  intros Hm [H1 H2 H3] Hown. destruct (Hown a) as [Hin _]; [by left|].
  unfold os_mbuf_free. wp_step. eapply wp_mbuf_at; [done|]. wp_simp.
  assert (Hnot : a ∉ free) by (intros Hf; specialize (H2 a Hf); congruence).
  pose proof (al_put_ok _ _ _ H1 Hin Hnot) as Hput.
  unfold wp, on_pool in *.
  destruct (al_put a (mpools s !!! omp_pool (omp_of s (om_omp m)))) as [[rc v]|]; [|done].
  destruct Hput as (-> & Hok & Hbl & _).
  rewrite bool_decide_false by (intros HH; by apply HH).
  unfold mbind, M_bind, modify, mret, M_ret. split_and!; try done.
  - split; try done; [unfold omp_of in *; simpl; by rewrite lookup_total_insert_eq|].
    intros b Hb. simpl. destruct (decide (b = a)) as [->|Hne]; [by rewrite lookup_delete_eq|].
    rewrite lookup_delete_ne by done. apply H2. set_solver.
  - simpl. by rewrite lookup_total_insert_eq.
Qed.

Lemma free_chain_loop_spec o l : ∀ fuel s a free,
  linked s a l → NoDup l → (length l <= fuel)%nat → alloc_ok s o free → owned s o l →
  wp (free_chain_loop fuel a) (λ rc s', rc = OS_OK ∧ alloc_ok s' o (reverse l ++ free) ∧ omps s' = omps s ∧
    al_blocks (mpools s' !!! omp_pool (omp_of s o)) = al_blocks (mpools s !!! omp_pool (omp_of s o)) ∧
    (∀ b, mbufs s' !! b = if decide (b ∈ l) then None else mbufs s !! b)) s.
Proof.
  induction l as [|b l IH]; intros fuel s a free Hl Hnd Hfuel Ha Hown.
  - simpl in Hl. subst a. destruct fuel; apply wp_ret; (split_and!; try done).
  - destruct Hl as (-> & Hnz & m & Hm & Hok & Hl). apply NoDup_cons in Hnd as [Hbl Hnd].
    destruct (Hown b) as [Hin (m' & Hm' & Ho)]; [by left|]. simplify_eq.
    destruct fuel as [|fuel]; [simpl in Hfuel; lia|]. cbn [free_chain_loop].
    rewrite (proj2 (Z.eqb_neq _ _)) by done. wp_step. eapply wp_mbuf_at; [done|]. wp_step.
    eapply wp_mono; [eapply wp_os_mbuf_free; [done|done|]|].
    { intros c ->%list_elem_of_singleton. by apply Hown; left. }
    intros rc s1 (-> & Hs1 & Ho1 & Ha1 & Hbl1). rewrite bool_decide_false by (intros HH; by apply HH).
    assert (Homp : omp_of s1 (om_omp m) = omp_of s (om_omp m)) by (unfold omp_of; by rewrite Ho1).
    assert (Hsame : ∀ c, c ∈ l → mbufs s1 !! c = mbufs s !! c).
    { intros c Hc. rewrite Hs1, lookup_delete_ne; [done|]. by intros ->. }
    eapply wp_mono; [eapply (IH fuel s1); [|done|simpl in Hfuel; lia|done|]|].
    + by apply (linked_ext s).
    + intros c Hc. rewrite Homp, Hbl1, Hsame by done. apply Hown. by right.
    + intros rc s' (-> & Ha' & Ho' & Hb' & Hf).
      split_and!; [done| |by rewrite Ho'|by rewrite Homp, Hbl1 in Hb'|].
      * by rewrite reverse_cons, <- (assoc_L (++)).
      * intros c. rewrite Hf, Hs1. destruct (decide (c ∈ l)); [by rewrite decide_True by (by right)|].
        destruct (decide (c = b)) as [->|Hne]; [by rewrite lookup_delete_eq, decide_True by left|].
        rewrite lookup_delete_ne, decide_False by set_solver. done.
Qed.

(** [os_mbuf_free_chain] gives every mbuf of the chain back to its pool. *)
Lemma os_mbuf_free_chain_ok s o a l free :
  linked s a l → NoDup l → alloc_ok s o free → owned s o l →
  wp (os_mbuf_free_chain a) (λ rc s', rc = OS_OK ∧ alloc_ok s' o (reverse l ++ free) ∧ omps s' = omps s ∧
    al_blocks (mpools s' !!! omp_pool (omp_of s o)) = al_blocks (mpools s !!! omp_pool (omp_of s o)) ∧
    (∀ b, mbufs s' !! b = if decide (b ∈ l) then None else mbufs s !! b)) s.
Proof.
  intros Hl Hnd Ha Hown. pose proof (linked_fuel s a l Hl Hnd) as Hf.
  unfold os_mbuf_free_chain, chain_fuel. wp_simp. apply free_chain_loop_spec; try done. lia.
Qed.

(** ** Trimming *)

Lemma trim_head_ok s m n :
  mbuf_ok s m → 0 <= n <= om_len m →
  let m' := set_om_off (om_off m + n) (set_om_len (u16 (om_len m - n)) m) in
  mbuf_ok s m' ∧ om_bytes m' = drop (Z.to_nat n) (om_bytes m).
Proof.
  intros [H1 H2 H3 H4 H5 H6] Hn m'. assert (Hlen : om_len m' = om_len m - n).
  { unfold m'. simpl. apply u16_small. lia. }
  split.
  - split; rewrite ?Hlen; unfold m'; simpl; try (done || lia). split; [lia|].
    intros Hh. specialize (proj2 H6 Hh). lia.
  - unfold om_bytes. rewrite Hlen. unfold m'. simpl. rewrite skipn_firstn_comm, drop_drop.
    f_equal; [lia|]. f_equal. lia.
Qed.

Lemma clear_ok s m : mbuf_ok s m → mbuf_ok s (set_om_len 0 m) ∧ om_bytes (set_om_len 0 m) = [].
Proof.
  intros [H1 H2 H3 H4 H5 H6]. split; [|done]. split; simpl; try (done || lia).
Qed.

(** A change of the data window of the mbufs of [l], which keeps their links and
    their headers. *)
Record trimmed (s s' : bst) (a : Z) (l : list Z) : Prop := {
  tr_linked : linked s' a l;
  tr_env : same_env s s';
  tr_frame : ∀ b, b ∉ l → mbufs s' !! b = mbufs s !! b;
  tr_hdr : ∀ b, pktlen_at s' b = pktlen_at s b;
}.

Lemma trimmed_refl s a l : linked s a l → trimmed s s a l.
Proof. by intros H. Qed.

Lemma trimmed_cons s s1 s2 b l m m' :
  mbufs s !! b = Some m → b ≠ 0 → b ∉ l → mbufs s1 = <[b := m']> (mbufs s) → same_env s s1 →
  mbuf_ok s m' → om_next m' = om_next m → OS_MBUF_IS_PKTHDR m' = OS_MBUF_IS_PKTHDR m →
  OS_MBUF_PKTLEN m' = OS_MBUF_PKTLEN m →
  trimmed s1 s2 (om_next m) l → trimmed s s2 b (b :: l) ∧ bytes_at s2 b = om_bytes m'.
Proof.
  intros Hm Hnz Hbl Hs1 He1 Hok Hn Hh Hp [T1 T2 T3 T4].
  assert (Hb2 : mbufs s2 !! b = Some m') by (by rewrite T3, Hs1, lookup_insert_eq).
  split; [|unfold bytes_at; by rewrite Hb2]. split.
  - split_and!; [done|done|]. exists m'. rewrite Hn. split_and!; [done| |done].
    apply (mbuf_ok_ext s); [|done]. by rewrite (se_omps _ _ T2), (se_omps _ _ He1).
  - destruct He1, T2. split; congruence.
  - intros c [Hcb Hcl]%not_elem_of_cons. by rewrite T3, Hs1, lookup_insert_ne.
  - intros c. rewrite T4. destruct (decide (c = b)) as [->|Hcb].
    + eapply pktlen_at_lookup; [done|by rewrite Hs1, lookup_insert_eq|done|done].
    + unfold pktlen_at. by rewrite Hs1, lookup_insert_ne.
Qed.

Lemma linked_upd_tail s s1 b m' l a :
  mbufs s1 = <[b := m']> (mbufs s) → same_env s s1 → b ∉ l → linked s a l →
  linked s1 a l ∧ chain_data s1 l = chain_data s l.
Proof.
  intros Hs1 He Hbl Hl. assert (∀ c, c ∈ l → mbufs s1 !! c = mbufs s !! c) as Hsame.
  { intros c Hc. rewrite Hs1, lookup_insert_ne; [done|]. by intros ->. }
  split; [apply (linked_ext s); [apply He|done|done]|by apply chain_data_ext].
Qed.

Lemma adj_head_loop_spec l : ∀ fuel s a len,
  linked s a l → NoDup l → (length l <= fuel)%nat → 0 <= len →
  wp (adj_head_loop fuel a len) (λ rest s',
    rest = Z.max 0 (len - Z.of_nat (length (chain_data s l))) ∧
    trimmed s s' a l ∧ chain_data s' l = drop (Z.to_nat len) (chain_data s l)) s.
Proof.
  induction l as [|b l IH]; intros fuel s a len Hl Hnd Hfuel Hlen.
  { simpl in Hl. subst a. destruct fuel; apply wp_ret; (split_and!; [simpl; lia|by apply trimmed_refl|unfold chain_data; simpl; by rewrite drop_nil]). }
  destruct (Z.ltb_spec 0 len) as [Hpos|Hz].
  2:{ replace len with 0 by lia. destruct fuel; cbn [adj_head_loop]; rewrite andb_false_r; apply wp_ret;
        (split_and!; [lia|by apply trimmed_refl|by rewrite drop_0]). }
  destruct Hl as (-> & Hnz & m & Hm & Hok & Hl). apply NoDup_cons in Hnd as [Hbl Hnd].
  assert (Hb : bytes_at s b = om_bytes m) by (unfold bytes_at; by rewrite Hm).
  pose proof (length_om_bytes s m Hok) as Hlb. rewrite chain_data_cons, Hb, length_app.
  destruct fuel as [|fuel]; [simpl in Hfuel; lia|]. cbn [adj_head_loop].
  rewrite (proj2 (Z.eqb_neq _ _)), (proj2 (Z.ltb_lt _ _)) by done. cbn [negb andb].
  wp_step. eapply wp_mbuf_at; [done|]. destruct (Z.leb_spec (om_len m) len) as [Hall|Hpart].
  - wp_step. eapply wp_upd_mbuf; [done|]. intros s1 Hs1 He1. destruct (clear_ok s m Hok) as [Hok' Hempty].
    destruct (linked_upd_tail s s1 b _ l (om_next m) Hs1 He1 Hbl Hl) as [Hl1 Hcd1].
    eapply wp_mono; [apply (IH fuel s1); [done|done|simpl in Hfuel; lia|lia]|].
    intros rest s' (-> & Ht & Hcd). rewrite Hcd1 in Hcd |- *.
    destruct (trimmed_cons s s1 s' b l m (set_om_len 0 m)) as [Ht' Hb']; try done.
    split_and!; [lia|done|]. rewrite chain_data_cons, Hb', Hempty, drop_app_ge by lia. simpl.
    rewrite Hcd. f_equal. lia.
  - wp_step. eapply wp_upd_mbuf; [done|]. intros s1 Hs1 He1.
    wp_step. eapply wp_upd_mbuf; [by rewrite Hs1, lookup_insert_eq|]. intros s2 Hs2 He2.
    rewrite Hs1, insert_insert_eq in Hs2. assert (He : same_env s s2) by (destruct He1, He2; split; congruence).
    destruct (trim_head_ok s m len Hok) as [Hok' Hbytes]; [lia|].
    change (set_om_off (om_off (set_om_len (u16 (om_len m - len)) m) + len)) with
      (set_om_off (om_off m + len)) in Hs2.
    set (m' := set_om_off _ _) in *.
    destruct (linked_upd_tail s s2 b _ l (om_next m) Hs2 He Hbl Hl) as [Hl2 Hcd2].
    destruct (trimmed_cons s s2 s2 b l m m') as [Ht Hb2]; try done.
    destruct fuel; cbn [adj_head_loop]; rewrite andb_false_r; apply wp_ret;
    (split_and!; [lia|done|]; rewrite chain_data_cons, Hb2, Hbytes, Hcd2; by rewrite drop_app_le by lia).
Qed.

(** The part of [os_mbuf_adj] that keeps the packet length up to date. *)
Lemma sub_pktlen_spec s a b l n :
  linked s a (b :: l) →
  wp (sub_pktlen a n) (λ _ s', linked s' a (b :: l) ∧ chain_data s' (b :: l) = chain_data s (b :: l) ∧ same_env s s' ∧
    (∀ b, b ≠ a → mbufs s' !! b = mbufs s !! b) ∧
    pktlen_at s' a = (λ p, u16 (p - n)) <$> pktlen_at s a) s.
Proof.
  intros Hl. pose proof Hl as (-> & _ & m & Hm & Hok & _). unfold sub_pktlen. wp_step. eapply wp_mbuf_at; [done|].
  replace (OS_MBUF_PKTLEN m - n) with (OS_MBUF_PKTLEN m + - n) by lia.
  eapply wp_mono; [by apply (append_header_spec s b m (b :: l))|]. intros _ s' (? & ? & ? & ? & Hp).
  split_and!; try done.
Qed.

(** A positive count trims the front of the data. *)
Lemma os_mbuf_adj_head s a b l n :
  linked s a (b :: l) → NoDup (b :: l) → 0 <= n →
  wp (os_mbuf_adj a n) (λ _ s',
    linked s' a (b :: l) ∧ chain_data s' (b :: l) = drop (Z.to_nat n) (chain_data s (b :: l)) ∧
    same_env s s' ∧ (∀ c, c ∉ b :: l → mbufs s' !! c = mbufs s !! c) ∧
    pktlen_at s' a =
      (λ p, u16 (p - Z.min n (Z.of_nat (length (chain_data s (b :: l)))))) <$> pktlen_at s a) s.
Proof.
  intros Hl Hnd Hn. pose proof (linked_fuel s a _ Hl Hnd) as Hf.
  assert (Hab : a = b ∧ a ≠ 0) by (destruct Hl as (-> & ? & _); done). destruct Hab as [-> Hnz].
  unfold os_mbuf_adj. rewrite (proj2 (Z.eqb_neq _ _)) by done. unfold chain_fuel. wp_simp.
  rewrite (proj2 (Z.leb_le _ _)) by done. wp_step.
  eapply wp_mono; [apply (adj_head_loop_spec (b :: l)); [done|done|simpl in *; lia|done]|].
  intros rest s1 (-> & [T1 T2 T3 T4] & Hcd).
  eapply wp_mono; [by apply (sub_pktlen_spec s1 b b l)|]. intros _ s2 (L & C & E & F & P).
  split_and!; [done|by rewrite C|destruct T2, E; split; congruence| |].
  - intros c Hc. rewrite F, T3; [done..|]. intros ->. apply Hc. by left.
  - rewrite P, T4. destruct (pktlen_at s b); simpl; [do 2 f_equal; lia|done].
Qed.

(** *** From the end *)

Lemma owned_env s s' o l :
  same_env s s' → (∀ b, b ∈ l → mbufs s' !! b = mbufs s !! b) → owned s o l → owned s' o l.
Proof.
  intros [Ho Hp] Hm Hown b Hb. unfold omp_of. rewrite Ho, Hp, Hm by done. by apply Hown.
Qed.

Lemma trim_tail_ok s m n next :
  mbuf_ok s m → 0 <= n <= om_len m →
  let m' := set_om_next next (set_om_len (u16 n) m) in
  mbuf_ok s m' ∧ om_bytes m' = take (Z.to_nat n) (om_bytes m).
Proof.
  intros [H1 H2 H3 H4 H5 H6] Hn m'. assert (Hlen : om_len m' = n) by (apply u16_small; lia).
  split.
  - split; rewrite ?Hlen; unfold m'; simpl; try (done || lia).
  - unfold om_bytes. rewrite Hlen. unfold m'. simpl. rewrite take_take. f_equal. lia.
Qed.

(** The chain [l] was cut: the mbufs [l1] remain, the others went back to the pool. *)
Record cut (s s' : bst) (o : nat) (a : Z) (l1 l2 free : list Z) : Prop := {
  cu_linked : linked s' a l1;
  cu_alloc : alloc_ok s' o (reverse l2 ++ free);
  cu_omps : omps s' = omps s;
  cu_gone : ∀ b, b ∈ l2 → mbufs s' !! b = None;
  cu_frame : ∀ b, b ∉ l1 → b ∉ l2 → mbufs s' !! b = mbufs s !! b;
  cu_hdr : ∀ b, b ∉ l2 → pktlen_at s' b = pktlen_at s b;
}.

(** The mbuf at which the chain is cut. *)
Lemma adj_cut_here s o b m l free count :
  mbufs s !! b = Some m → mbuf_ok s m → b ≠ 0 → linked s (om_next m) l → b ∉ l → NoDup l →
  alloc_ok s o free → owned s o l → 0 <= count <= om_len m →
  wp (upd_mbuf b (set_om_len (u16 count)) ;;
      if negb (om_next m =? 0) then os_mbuf_free_chain (om_next m) ;; upd_mbuf b (set_om_next 0)
      else mret tt) (λ _ s',
    cut s s' o b [b] l free ∧ bytes_at s' b = take (Z.to_nat count) (om_bytes m)) s.
Proof.
  intros Hm Hok Hnz Hl Hbl Hnd Ha Hown Hcount. destruct (trim_tail_ok s m count 0 Hok Hcount) as [Hok' Hbytes].
  assert (Hbfree : b ∉ free) by (intros Hin; pose proof (ao_fresh _ _ _ Ha b Hin); congruence).
  wp_step. eapply wp_upd_mbuf; [done|]. intros s1 Hs1 He1.
  destruct (linked_upd_tail s s1 b _ l (om_next m) Hs1 He1 Hbl Hl) as [Hl1 _].
  assert (Hne : ∀ c, c ≠ b → mbufs s1 !! c = mbufs s !! c).
  { intros c Hc. by rewrite Hs1, lookup_insert_ne. }
  assert (Ha1 : alloc_ok s1 o free).
  { apply (alloc_ok_env s); [done| |done]. intros c Hc. rewrite Hne; [by apply (ao_fresh _ _ _ Ha)|].
    by intros ->. }
  assert (Hfin : ∀ s2 m2, omps s2 = omps s → alloc_ok s2 o (reverse l ++ free) →
    (∀ c, c ≠ b → mbufs s2 !! c = if decide (c ∈ l) then None else mbufs s !! c) →
    mbufs s2 !! b = Some m2 → m2 = set_om_next 0 (set_om_len (u16 count) m) →
    cut s s2 o b [b] l free ∧ bytes_at s2 b = take (Z.to_nat count) (om_bytes m)).
  { intros s2 m2 Ho2 Ha2 Hf2 Hb2 ->. split; [|unfold bytes_at; by rewrite Hb2]. split; try done.
    - split_and!; [done|done|]. eexists. split_and!; [done|by apply (mbuf_ok_ext s)|done].
    - intros c Hc. rewrite Hf2, decide_True by (done || by intros ->). done.
    - intros c Hcb%not_elem_of_cons Hcl. by rewrite Hf2, decide_False by naive_solver.
    - intros c Hcl. destruct (decide (c = b)) as [->|Hcb].
      + by eapply pktlen_at_lookup.
      + unfold pktlen_at. by rewrite Hf2, decide_False. }
  destruct (Z.eqb_spec (om_next m) 0) as [Hn|Hn]; cbn [negb].
  - apply wp_ret. assert (l = []) as -> by (destruct l; simpl in Hl; naive_solver).
    eapply Hfin; [apply He1|done| |by rewrite Hs1, lookup_insert_eq|destruct m; simpl in *; by subst].
    intros c Hc. rewrite decide_False by set_solver. by apply Hne.
  - wp_step. eapply wp_mono; [apply (os_mbuf_free_chain_ok s1 o (om_next m) l free); try done|].
    { apply (owned_env s); [done| |done]. intros c Hc. apply Hne. by intros ->. }
    intros rc s2 (_ & Ha2 & Ho2 & _ & Hf2).
    assert (Hb2 : mbufs s2 !! b = Some (set_om_len (u16 count) m)).
    { by rewrite Hf2, decide_False, Hs1, lookup_insert_eq. }
    eapply wp_upd_mbuf; [done|]. intros s3 Hs3 He3.
    eapply Hfin; [rewrite (se_omps _ _ He3), Ho2; apply He1| | |by rewrite Hs3, lookup_insert_eq|done].
    + apply (alloc_ok_env s2); [done| |done]. intros c Hc. rewrite Hs3, lookup_insert_ne; [by apply (ao_fresh _ _ _ Ha2)|].
      intros ->. apply elem_of_app in Hc as [Hc|?]; [|done]. by apply Hbl, elem_of_reverse.
    + intros c Hc. rewrite Hs3, lookup_insert_ne, Hf2 by done. case_decide; [done|]. by apply Hne.
Qed.

Lemma adj_cut_loop_spec o l : ∀ fuel s b free count,
  linked s b (b :: l) → NoDup (b :: l) → (length l <= fuel)%nat → alloc_ok s o free → owned s o (b :: l) →
  0 <= count <= Z.of_nat (length (chain_data s (b :: l))) →
  wp (adj_cut_loop fuel b count) (λ _ s', ∃ l1 l2, l = l1 ++ l2 ∧ cut s s' o b (b :: l1) l2 free ∧
    chain_data s' (b :: l1) = take (Z.to_nat count) (chain_data s (b :: l))) s.
Proof.
  induction l as [|c l IH]; intros fuel s b free count Hlk Hnd Hfuel Ha Hown Hcount;
    pose proof Hlk as (_ & Hnz & m & Hm & Hok & Hl); apply NoDup_cons in Hnd as [Hbl Hnd];
    assert (Hb : bytes_at s b = om_bytes m) by (unfold bytes_at; by rewrite Hm);
    pose proof (length_om_bytes s m Hok) as Hlb; rewrite chain_data_cons, Hb, length_app in Hcount;
    rewrite chain_data_cons, Hb.
  - unfold chain_data at 1 in Hcount. simpl in Hcount.
    destruct fuel; unfold adj_cut_loop; rewrite (proj2 (Z.eqb_neq _ _)) by done;
    (wp_step; eapply wp_mbuf_at; [done|]; rewrite (proj2 (Z.leb_le _ _)) by lia;
     eapply wp_mono; [apply (adj_cut_here s o b m [] free); try done; [intros ?; set_solver|lia]|];
     intros _ s' [Hcut Hby]; exists [], []; split_and!; [done|done|];
     rewrite chain_data_cons, Hby; unfold chain_data; simpl; by rewrite !app_nil_r).
  - destruct fuel as [|fuel]; [simpl in Hfuel; lia|]. cbn [adj_cut_loop].
    rewrite (proj2 (Z.eqb_neq _ _)) by done. wp_step. eapply wp_mbuf_at; [done|].
    destruct (Z.leb_spec count (om_len m)) as [Hhere|Hmore].
    + eapply wp_mono; [apply (adj_cut_here s o b m (c :: l) free); try done; [|lia]|].
      { intros d Hd. apply Hown. by right. }
      intros _ s' [Hcut Hby]. exists [], (c :: l). split_and!; [done|done|].
      rewrite take_app_le by lia. rewrite chain_data_cons, Hby. unfold chain_data. simpl. by rewrite app_nil_r.
    + pose proof Hl as (Hn & Hcnz & _). rewrite Hn in Hl |- *.
      eapply wp_mono; [apply (IH fuel s c free (count - om_len m)); try done; [simpl in Hfuel; lia| |lia]|].
      { intros d Hd. apply Hown. by right. }
      intros _ s' (l1 & l2 & -> & [C1 C2 C3 C4 C5 C6] & Hcd). exists (c :: l1), l2.
      assert (b ∉ c :: l1 ∧ b ∉ l2) as [Hb1 Hb2] by (clear -Hbl; set_solver).
      split_and!; [done| |].
      * split; try done.
        -- split_and!; [done|done|]. exists m. rewrite C5, Hn by done. split_and!; [done|by apply (mbuf_ok_ext s)|done].
        -- intros d Hd1 Hd2. apply C5; [|done]. clear -Hd1. set_solver.
      * rewrite chain_data_cons, Hcd, take_app_ge by lia. f_equal; [|f_equal; lia].
        rewrite <- Hb. apply bytes_at_ext. by apply C5.
Qed.

Lemma adj_scan_loop_run s l b : ∀ fuel a count,
  linked s a (l ++ [b]) → (length l <= fuel)%nat →
  adj_scan_loop fuel a count s = Ret ((b, count + Z.of_nat (length (chain_data s (l ++ [b])))), s).
Proof.
  induction l as [|c l IH]; intros fuel a count Hl Hfuel; pose proof Hl as (-> & Hnz & m & Hm & Hok & Hn);
    pose proof (length_om_bytes s m Hok) as Hlb; cbn [app]; rewrite chain_data_cons, length_app;
    unfold bytes_at at 1; rewrite Hm.
  - simpl in Hn. unfold chain_data. simpl.
    destruct fuel; unfold adj_scan_loop, mbind, M_bind; rewrite (mbuf_at_run _ _ _ Hm), Hn;
      unfold mret, M_ret; simpl; do 3 f_equal; lia.
  - destruct fuel as [|fuel]; [simpl in Hfuel; lia|]. cbn [adj_scan_loop]. unfold mbind, M_bind.
    rewrite (mbuf_at_run _ _ _ Hm).
    rewrite (proj2 (Z.eqb_neq (om_next m) 0)) by (destruct l; simpl in Hn; naive_solver).
    rewrite IH; [do 3 f_equal; lia|done|simpl in Hfuel; lia].
Qed.

(** The header gets the new length. *)
Lemma set_header_spec s b m l v :
  mbufs s !! b = Some m → linked s b (b :: l) → 
  wp (if OS_MBUF_IS_PKTHDR m then upd_mbuf b (set_pktlen v) else mret tt) (λ _ s',
    linked s' b (b :: l) ∧ chain_data s' (b :: l) = chain_data s (b :: l) ∧ same_env s s' ∧
    (∀ c, c ≠ b → mbufs s' !! c = mbufs s !! c) ∧ (∃ m', mbufs s' !! b = Some m' ∧ om_omp m' = om_omp m) ∧
    pktlen_at s' b = (λ _, u16 v) <$> pktlen_at s b) s.
Proof.
  intros Hm Hl. pose proof Hl as (_ & _ & m' & Hm' & Hok & _). simplify_eq.
  unfold pktlen_at. rewrite Hm. cbn [mbind option_bind]. destruct (OS_MBUF_IS_PKTHDR m) eqn:Hh.
  2:{ apply wp_ret. do 4 (split; [done|]). split; [eauto|]. rewrite Hm. simpl. by rewrite Hh. }
  eapply wp_upd_mbuf; [done|]. intros s' Hs' He. rewrite Hs', lookup_insert_eq. cbn [mbind option_bind].
  change (OS_MBUF_IS_PKTHDR (set_pktlen _ m)) with (OS_MBUF_IS_PKTHDR m).
  rewrite Hh, (pktlen_set s) by done. split.
  { eapply linked_update; [apply He|done|done|by apply set_pktlen_ok|done|done]. }
  split_and!; try done.
  - eapply chain_data_update; [done|done|by eapply set_pktlen_bytes].
  - intros c Hc. by rewrite lookup_insert_ne.
  - eauto.
Qed.

Lemma snoc_of_cons (b : Z) l : ∃ l0 z, b :: l = l0 ++ [z].
Proof. destruct (exists_last (l := b :: l)) as (l0 & z & ->); [done|]. eauto. Qed.

(** The trim fits into the last mbuf. *)
Lemma adj_last_spec s a l0 z mz n :
  linked s a (l0 ++ [z]) → NoDup (l0 ++ [z]) → mbufs s !! z = Some mz → 0 <= n <= om_len mz →
  wp (upd_mbuf z (λ b, set_om_len (u16 (om_len b - n)) b)) (λ _ s',
    linked s' a (l0 ++ [z]) ∧ same_env s s' ∧ (∀ c, c ≠ z → mbufs s' !! c = mbufs s !! c) ∧
    pktlen_at s' a = pktlen_at s a ∧
    chain_data s' (l0 ++ [z]) =
      take (Z.to_nat (Z.of_nat (length (chain_data s (l0 ++ [z]))) - n)) (chain_data s (l0 ++ [z]))) s.
Proof.
  intros Hl Hnd Hm Hn. pose proof (linked_suffix _ _ _ _ _ Hl) as (_ & Hnz & m' & Hm' & Hok & Hnx).
  assert (m' = mz) as -> by congruence. simpl in Hnx. pose proof (length_om_bytes s mz Hok) as Hlb.
  destruct (trim_tail_ok s mz (om_len mz - n) (om_next mz) Hok) as [Hok' Hbytes]; [lia|].
  replace (set_om_next (om_next mz) (set_om_len (u16 (om_len mz - n)) mz)) with
    (set_om_len (u16 (om_len mz - n)) mz) in * by (by destruct mz).
  eapply wp_upd_mbuf; [done|]. intros s' Hs' He. split_and!; try done.
  - eapply linked_update; [apply He|done|done|done|done|done].
  - intros c Hc. by rewrite Hs', lookup_insert_ne.
  - unfold pktlen_at. rewrite Hs'. destruct (decide (a = z)) as [->|Ha];
      [by rewrite lookup_insert_eq, Hm|by rewrite lookup_insert_ne].
  - rewrite !chain_data_app, length_app, (chain_data_ext s s' l0).
    2:{ intros c Hc. rewrite Hs', lookup_insert_ne; [done|]. intros ->. by eapply snoc_ne. }
    unfold chain_data at 2 4 6. simpl. rewrite !app_nil_r, (bytes_at_insert _ _ _ _ _ Hs'), decide_True, Hbytes by done.
    unfold bytes_at. rewrite Hm. rewrite take_app_ge by lia. do 2 f_equal. lia.
Qed.

(** A negative count trims the end of the data and frees the mbufs that are left
    empty behind it. *)
Lemma os_mbuf_adj_tail s o b l free n :
  let data := chain_data s (b :: l) in
  let keep := Z.max 0 (Z.of_nat (length data) - n) in
  linked s b (b :: l) → NoDup (b :: l) → alloc_ok s o free → owned s o (b :: l) → 0 < n →
  (∀ p, pktlen_at s b = Some p → p = Z.of_nat (length data)) →
  wp (os_mbuf_adj b (- n)) (λ _ s', ∃ l1 l2, l = l1 ++ l2 ∧
    linked s' b (b :: l1) ∧ chain_data s' (b :: l1) = take (Z.to_nat keep) data ∧
    alloc_ok s' o (reverse l2 ++ free) ∧ omps s' = omps s ∧
    pktlen_at s' b = (λ _, u16 keep) <$> pktlen_at s b) s.
Proof.
  intros data keep Hl Hnd Ha Hown Hn Hpk. pose proof (linked_fuel s b _ Hl Hnd) as Hf.
  pose proof Hl as (_ & Hnz & m & Hm & Hok & _). destruct (snoc_of_cons b l) as (l0 & z & Hsn).
  unfold os_mbuf_adj. rewrite (proj2 (Z.eqb_neq _ _)) by done. unfold chain_fuel. wp_simp.
  rewrite (proj2 (Z.leb_gt _ _)) by lia. wp_step. pose proof Hl as Hl'. rewrite Hsn in Hl'.
  assert (Hlen0 : (length l0 <= size (mbufs s))%nat).
  { apply (f_equal length) in Hsn. rewrite length_app in Hsn. simpl in *. lia. }
  eapply wp_eq; [apply (adj_scan_loop_run s l0 z); [done|lia]|]. rewrite <- Hsn. fold data. cbn iota beta.
  pose proof (linked_suffix _ _ _ _ _ Hl') as (_ & _ & mz & Hmz & Hokz & _).
  wp_step. eapply wp_mbuf_at; [done|]. rewrite Z.opp_involutive, Z.add_0_l.
  destruct (Z.leb_spec n (om_len mz)) as [Hlast|Hmore].
  - wp_step. eapply wp_mono; [apply (adj_last_spec s b l0 z mz n); [done|by rewrite <- Hsn|done|lia]|].
    intros _ s1 (L1 & E1 & F1 & P1 & C1). rewrite <- Hsn in L1, C1. fold data in C1.
    assert (Hlen : n <= Z.of_nat (length data)).
    { unfold data. rewrite Hsn, chain_data_app, length_app, chain_data_cons, length_app.
      unfold bytes_at at 1. rewrite Hmz. pose proof (length_om_bytes s mz Hokz). lia. }
    eapply wp_mono; [by apply (sub_pktlen_spec s1 b b l)|]. intros _ s2 (L2 & C2 & E2 & F2 & P2).
    exists l, []. split; [by rewrite app_nil_r|]. split; [done|].
    split; [rewrite C2, C1; f_equal; lia|]. split_and!.
    + apply (alloc_ok_env s); [destruct E1, E2; split; congruence| |done].
      intros c Hc. pose proof (chain_not_free s o b _ free c Hl Ha) as Hnf. rewrite F2, F1; [by apply (ao_fresh _ _ _ Ha)|..];
        intros ->; apply Hnf; [rewrite Hsn; apply elem_of_app; right; by left|done|by left|done].
    + by rewrite (se_omps _ _ E2), (se_omps _ _ E1).
    + rewrite P2, P1. destruct (pktlen_at s b) as [p|] eqn:Hp; simpl; [|done].
      do 2 f_equal. rewrite (Hpk p eq_refl). lia.
  - wp_step. eapply wp_mbuf_at; [done|]. cbv zeta. fold keep. wp_step.
    eapply wp_mono; [by apply (set_header_spec s b m l)|].
    intros _ s1 (L1 & C1 & E1 & F1 & (m1 & Hm1 & Ho1) & P1).
    eapply wp_mono; [apply (adj_cut_loop_spec o l _ s1 b free keep); [done|done| | | |]|].
    + simpl in Hf. lia.
    + apply (alloc_ok_env s); [done| |done]. intros c Hc. rewrite F1; [by apply (ao_fresh _ _ _ Ha)|].
      intros ->. by apply (chain_not_free s o b _ free b Hl Ha); [left|].
    + intros c Hc. unfold omp_of. rewrite (se_omps _ _ E1), (se_mpools _ _ E1). destruct (Hown c Hc) as [Hbl (mc & Hmc & Hoc)].
      split; [done|]. destruct (decide (c = b)) as [->|Hcb]; [|rewrite F1 by done; eauto].
      exists m1. split; [done|]. congruence.
    + rewrite C1. fold data. lia.
    + intros _ s2 (l1 & l2 & -> & [D1 D2 D3 D4 D5 D6] & Hcd). exists l1, l2. split; [done|]. split; [done|].
      split; [by rewrite Hcd, C1|]. split_and!; [done|by rewrite D3, (se_omps _ _ E1)|].
      rewrite D6, P1; [done|]. apply NoDup_cons in Hnd as [Hb _]. intros Hin. apply Hb, elem_of_app. by right.
Qed.

(** ** Joining *)

(** Updating the packet length of [a] leaves everything else alone. *)
Record relabelled (s s' : bst) (a : Z) (v : Z) : Prop := {
  re_linked : ∀ c l, linked s c l → linked s' c l;
  re_data : ∀ l, chain_data s' l = chain_data s l;
  re_env : same_env s s';
  re_frame : ∀ c, c ≠ a → mbufs s' !! c = mbufs s !! c;
  re_head : ∃ m, mbufs s' !! a = Some m ∧ mbuf_ok s' m ∧ OS_MBUF_IS_PKTHDR m = true ∧ OS_MBUF_PKTLEN m = v;
}.

Lemma set_pktlen_relabels s a m f (Q : unit → bst → Prop) :
  mbufs s !! a = Some m → mbuf_ok s m → OS_MBUF_IS_PKTHDR m = true →
  (∀ s', relabelled s s' a (u16 (f m)) → Q tt s') →
  wp (upd_mbuf a (λ m, set_pktlen (f m) m)) Q s.
Proof.
  intros Hm Hok Hh HQ. eapply wp_upd_mbuf; [done|]. intros s' Hs' He. apply HQ. split; [| |done|..].
  - intros c l Hl. eapply linked_update; [apply He|done|done|by apply set_pktlen_ok|done|done].
  - intros l. eapply chain_data_update; [done|done|by eapply set_pktlen_bytes].
  - intros c Hc. by rewrite Hs', lookup_insert_ne.
  - exists (set_pktlen (f m) m). rewrite Hs', lookup_insert_eq. split_and!; [done| |done|by eapply pktlen_set].
    apply (mbuf_ok_ext s); [apply He|]. by apply set_pktlen_ok.
Qed.

Lemma sum_len_loop_spec l : ∀ fuel s a first m,
  linked s a l → first ∉ l → (length l <= fuel)%nat → mbufs s !! first = Some m → mbuf_ok s m →
  OS_MBUF_IS_PKTHDR m = true → 0 <= OS_MBUF_PKTLEN m < 65536 →
  wp (sum_len_loop fuel first a) (λ _ s',
    relabelled s s' first (u16 (OS_MBUF_PKTLEN m + Z.of_nat (length (chain_data s l))))) s.
Proof.
  induction l as [|b l IH]; intros fuel s a first m Hl Hnot Hfuel Hm Hok Hh Hp.
  - simpl in Hl. subst a. assert (Hr : relabelled s s first (u16 (OS_MBUF_PKTLEN m + Z.of_nat 0))).
    { rewrite u16_small by lia. split; try done. exists m. split_and!; try done. lia. }
    by destruct fuel; apply wp_ret.
  - pose proof Hl as (-> & Hnz & mb & Hmb & Hokb & Hl'). apply not_elem_of_cons in Hnot as [Hfb Hnot].
    pose proof (length_om_bytes s mb Hokb) as Hlb.
    destruct fuel as [|fuel]; [simpl in Hfuel; lia|]. cbn [sum_len_loop].
    rewrite (proj2 (Z.eqb_neq _ _)) by done. wp_step. eapply wp_mbuf_at; [done|]. wp_step.
    eapply set_pktlen_relabels; [done|done|done|]. intros s1 [R1 R2 R3 R4 (m1 & Hm1 & Hok1 & Hh1 & Hp1)].
    eapply wp_mono; [apply (IH fuel s1 (om_next mb) first m1); try done|].
    + by apply R1.
    + simpl in Hfuel. lia.
    + rewrite Hp1. apply u16_bound.
    + intros _ s2 [T1 T2 T3 T4 T5].
      split; [by auto|intros; by rewrite T2, R2|destruct R3, T3; split; congruence|intros; by rewrite T4, R4|].
      rewrite chain_data_cons, length_app. unfold bytes_at at 1. rewrite Hmb.
      rewrite Hp1, R2 in T5. unfold u16 in *. rewrite Zplus_mod_idemp_l in T5.
      replace (OS_MBUF_PKTLEN m + Z.of_nat (length (om_bytes mb) + length (chain_data s l))) with
        (OS_MBUF_PKTLEN m + om_len mb + Z.of_nat (length (chain_data s l))) by lia. done.
Qed.

Lemma relabelled_pktlen s s' a v : relabelled s s' a v → pktlen_at s' a = Some v.
Proof. intros [_ _ _ _ (m & Hm & _ & Hh & Hp)]. unfold pktlen_at. rewrite Hm. simpl. by rewrite Hh, Hp. Qed.

(** The header part of [os_mbuf_concat]. *)
Lemma concat_header_spec s first f second l :
  mbufs s !! first = Some f → mbuf_ok s f → linked s second (second :: l) → NoDup (second :: l) →
  first ∉ second :: l → (∀ p, pktlen_at s first = Some p → 0 <= p < 65536) →
  wp (if OS_MBUF_IS_PKTHDR f then
        sec ← mbuf_at second;
        if OS_MBUF_IS_PKTHDR sec then
          upd_mbuf first (set_pktlen (OS_MBUF_PKTLEN f + OS_MBUF_PKTLEN sec))
        else
          fuel ← chain_fuel;
          sum_len_loop fuel first second
      else mret tt) (λ _ s',
    (∀ c l, linked s c l → linked s' c l) ∧ (∀ l, chain_data s' l = chain_data s l) ∧ same_env s s' ∧
    (∀ c, c ≠ first → mbufs s' !! c = mbufs s !! c) ∧
    pktlen_at s' first =
      (λ p, u16 (p + default (Z.of_nat (length (chain_data s (second :: l)))) (pktlen_at s second)))
        <$> pktlen_at s first) s.
Proof.
  intros Hf Hokf Hl Hnd Hnot Hp. unfold pktlen_at at 2 3. unfold pktlen_at in Hp. rewrite Hf in Hp |- *.
  cbn [mbind option_bind] in *. destruct (OS_MBUF_IS_PKTHDR f) eqn:Hh.
  2:{ apply wp_ret. split_and!; try done. unfold pktlen_at. rewrite Hf. simpl. by rewrite Hh. }
  pose proof Hl as (_ & _ & sec & Hsec & _ & _). rewrite Hsec. cbn [mbind option_bind].
  wp_step. eapply wp_mbuf_at; [done|]. destruct (OS_MBUF_IS_PKTHDR sec) eqn:Hhs.
  - eapply (set_pktlen_relabels s first f (λ _, OS_MBUF_PKTLEN f + OS_MBUF_PKTLEN sec)); try done.
    intros s' R. pose proof (relabelled_pktlen _ _ _ _ R). by destruct R.
  - unfold chain_fuel. wp_simp. pose proof (linked_fuel s second _ Hl Hnd).
    eapply wp_mono; [apply (sum_len_loop_spec (second :: l) _ s second first f); try done; [lia|by apply Hp]|].
    intros [] s' R. pose proof (relabelled_pktlen _ _ _ _ R). by destruct R.
Qed.

(** [os_mbuf_concat] appends the second chain to the first; the packet length of
    the first chain grows by that of the second. *)
Lemma os_mbuf_concat_ok s first l z second l2 :
  linked s first (l ++ [z]) → linked s second (second :: l2) → NoDup (l ++ z :: second :: l2) →
  (∀ p, pktlen_at s first = Some p → 0 <= p < 65536) →
  wp (os_mbuf_concat first second) (λ _ s',
    linked s' first (l ++ z :: second :: l2) ∧
    chain_data s' (l ++ z :: second :: l2) = chain_data s (l ++ [z]) ++ chain_data s (second :: l2) ∧
    same_env s s' ∧ (∀ c, c ∉ l ++ z :: second :: l2 → mbufs s' !! c = mbufs s !! c) ∧ pktlen_at s' second = None ∧
    pktlen_at s' first =
      (λ p, u16 (p + default (Z.of_nat (length (chain_data s (second :: l2)))) (pktlen_at s second)))
        <$> pktlen_at s first) s.
Proof.
  intros Hl Hl2 Hnd Hp. assert (Hnd' : NoDup ((l ++ [z]) ++ second :: l2)) by (by rewrite <- (assoc_L (++))).
  pose proof Hnd' as (Hnd1 & Hdis & Hnd2)%NoDup_app.
  destruct (linked_head _ _ _ _ _ Hl) as (Hfin & f & Hf & Hokf).
  pose proof (linked_suffix _ _ _ _ _ Hl) as (_ & Hznz & mz & Hmz & Hokz & Hnz). simpl in Hnz.
  assert (Hz2 : z ∉ second :: l2) by (apply Hdis, elem_of_app; right; by left).
  unfold os_mbuf_concat. wp_step. eapply wp_eq; [by eapply last_mbuf_run|].
  wp_step. eapply wp_upd_mbuf; [done|]. intros s1 Hs1 He1.
  destruct (linked_upd_tail s s1 z _ (second :: l2) second Hs1 He1 Hz2 Hl2) as [Hl2' Hcd2].
  assert (Hz1 : mbufs s1 !! z = Some (set_om_next second mz)) by (by rewrite Hs1, lookup_insert_eq).
  assert (Hokz1 : mbuf_ok s1 (set_om_next second mz)) by (apply (mbuf_ok_ext s); [apply He1|]; by destruct Hokz).
  assert (Hl1 : linked s1 first (l ++ z :: second :: l2)).
  { eapply (linked_tail s); [apply He1| |done|].
    - intros c Hc. rewrite Hs1, lookup_insert_ne; [done|]. intros ->. by eapply snoc_ne.
    - split; [done|]. split; [done|]. eexists. split; [done|]. by split. }
  destruct (linked_head _ _ _ _ _ Hl1) as (_ & f1 & Hf1 & Hokf1).
  assert (Hb1 : ∀ c, pktlen_at s1 c = pktlen_at s c ∧ bytes_at s1 c = bytes_at s c).
  { intros c. unfold pktlen_at, bytes_at. rewrite Hs1. destruct (decide (z = c)) as [->|Hne];
      [by rewrite lookup_insert_eq, Hmz|by rewrite lookup_insert_ne]. }
  assert (Hcd1 : ∀ k, chain_data s1 k = chain_data s k).
  { intros k. induction k as [|c k IH]; [done|]. rewrite !chain_data_cons, IH. f_equal. apply Hb1. }
  wp_step. eapply wp_mbuf_at; [done|]. wp_step. eapply wp_mono; [apply (concat_header_spec s1 first f1 second l2); try done|].
  { by apply Hdis. } { intros p. rewrite (proj1 (Hb1 first)). apply Hp. }
  intros [] s2 (K1 & K2 & K3 & K4 & K5).
  pose proof (K1 _ _ Hl2') as (_ & _ & sec & Hsec & Hoksec & _).
  eapply wp_upd_mbuf; [done|]. intros s3 Hs3 He3.
  assert (Hfs : first ≠ second) by (intros ->; apply (Hdis second Hfin); by left).
  split_and!.
  - eapply linked_update; [apply He3|done|done| |done|by apply K1].
    destruct Hoksec as [? ? ? ? ? Hh]. by split.
  - rewrite (chain_data_update s2 s3 _ _ _ _ Hs3 Hsec) by done. rewrite K2, Hcd1.
    rewrite <- chain_data_app. by rewrite <- (assoc_L (++)).
  - destruct He1, K3, He3. split; congruence.
  - intros c Hc. rewrite Hs3, lookup_insert_ne, K4, Hs1, lookup_insert_ne; [done|..]; intros Heq; apply Hc; subst.
    + apply elem_of_app. right. by left.
    + apply elem_of_app in Hfin as [?| ->%list_elem_of_singleton]; apply elem_of_app; [by left|right; by left].
    + apply elem_of_app. right. right. by left.
  - unfold pktlen_at. by rewrite Hs3, lookup_insert_eq.
  - unfold pktlen_at at 1. rewrite Hs3, lookup_insert_ne by done. fold (pktlen_at s2 first).
    rewrite K5, Hcd1, !(proj1 (Hb1 _)). done.
Qed.
End spec.
