(* ===== verification/OsMbufProps.v ===== *)
(** Properties of the mbuf operations of [OsMbuf], proved from the lemmas of
    [OsMbufSpec] for any pool that implements [Allocator]; the witnesses run on the
    pools of [OsMempool]. *)
From Stdlib Require Import ZArith Lia.
From stdpp Require Import base decidable list numbers gmap.
From S2P Require Import Prelude.
From S2P Require Import OsState.
From S2P Require Import OsMempool.
From S2P Require Import OsMbuf.
From S2P Require Import OsMbufSpec.

#[local] Open Scope Z_scope.

#[export] Instance pstate_inhabited : Inhabited pstate := populate (mk_pstate ∅ ∅ []).

(** ** A system with one pool of mbufs

    Six blocks of 32 bytes: 16 bytes of data in each mbuf. *)
#[local] Instance demo_allocator : Allocator pstate := mempool_allocator 0.

Definition run_or {S A} (d : A * S) (m : M S A) (s : S) : A * S :=
  match m s with Ret r => r | Fault _ => d end.

Definition demo_mempool : pstate :=
  (run_or (OS_OK, mk_pstate ∅ ∅ []) (os_mempool_init (Some 0%nat) 6 32 4096) (mk_pstate ∅ ∅ [])).2.
Definition demo_bstate0 : bstate := mk_bstate ∅ ∅ {[ 0%nat := demo_mempool ]} ∅ [].
Definition demo_bstate : bstate :=
  (run_or (0, demo_bstate0) (os_mbuf_pool_init 0 0 32 6) demo_bstate0).2.

(** A packet with the data 1, ..., 12 in two mbufs. *)
Definition demo_packet : Z * bstate :=
  run_or (0, demo_bstate)
    (a ← os_mbuf_get_pkthdr 0 0; os_mbuf_append a [1; 2; 3; 4; 5; 6; 7; 8; 9; 10; 11; 12] ;; mret a)
    demo_bstate.
Definition demo_s : bstate := demo_packet.2.

Lemma demo_linked : linked demo_s 4096 [4096; 4128] ∧ NoDup [4096; 4128].
Proof.
  split; [|apply (bool_decide_unpack _); by vm_compute].
  split; [done|]. split; [done|]. eexists. split; [vm_compute; reflexivity|].
  split; [split; vm_compute; intuition congruence|].
  split; [done|]. split; [done|]. eexists. split; [vm_compute; reflexivity|].
  split; [split; vm_compute; intuition congruence|]. done.
Qed.

Lemma demo_alloc : alloc_ok demo_s 0 [4160; 4192; 4224; 4256].
Proof.
  split.
  - split; try (vm_compute; intuition congruence).
    + apply (bool_decide_unpack _). by vm_compute.
    + intros b Hb. repeat (apply elem_of_cons in Hb as [->|Hb]; [apply (bool_decide_unpack _); by vm_compute|]).
      by apply not_elem_of_nil in Hb.
  - intros b Hb. repeat (apply elem_of_cons in Hb as [->|Hb]; [by vm_compute|]). by apply not_elem_of_nil in Hb.
  - vm_compute. done.
Qed.

Lemma demo_owned : owned demo_s 0 [4096; 4128].
Proof.
  intros b Hb. repeat (apply elem_of_cons in Hb as [->|Hb];
    [split; [apply (bool_decide_unpack _); by vm_compute|eexists; split; vm_compute; reflexivity]|]).
  by apply not_elem_of_nil in Hb.
Qed.

Section properties.
Context {S : Type} {AL : Allocator S} {inh : Inhabited S}.
Implicit Types (s : bstate (S := S)).

(** C13. [os_mbuf_append] on a chain [l] appends the data to the bytes of the chain:
    it fills the free space of the last mbuf, links new mbufs [new] taken from the
    pool in order, and updates the packet length in the header by the number of bytes
    stored.  It returns [OS_OK] exactly if everything was stored; otherwise it stored
    a prefix and the pool is empty.  No other mbuf is touched. *)
Theorem mbuf_append_correct s a l b m free data :
  linked s a (l ++ [b]) → NoDup (l ++ [b]) → mbufs s !! a = Some m → alloc_ok s (om_omp m) free →
  wp (os_mbuf_append a data) (λ rc s', ∃ new free' left,
    linked s' a ((l ++ [b]) ++ new) ∧ NoDup ((l ++ [b]) ++ new) ∧ free = new ++ free' ∧
    alloc_ok s' (om_omp m) free' ∧
    chain_data s' ((l ++ [b]) ++ new) ++ left = chain_data s (l ++ [b]) ++ data ∧
    rc = match left with [] => OS_OK | _ => OS_ENOMEM end ∧ (left ≠ [] → free' = []) ∧
    pktlen_at s' a =
      (λ p, u16 (p + (Z.of_nat (length data) - Z.of_nat (length left)))) <$> pktlen_at s a ∧
    (∀ c, c ∉ (l ++ [b]) ++ new → mbufs s' !! c = mbufs s !! c)) s.
Proof.
  intros Hl Hnd Hm Ha. eapply wp_mono; [by apply os_mbuf_append_ok|].
  intros rc s' (left & -> & [(new & free' & ? & ? & ? & ? & ? & ? & ?) _ ?]).
  exists new, free', left. by split_and!.
Qed.

(** What was appended is read back: when [os_mbuf_append] returns [OS_OK],
    [os_mbuf_copydata] at the old length returns exactly the data, at offset 0 the
    old contents, and [os_mbuf_memcmp] with the data reports equality. *)
Theorem mbuf_append_copydata s a l b m free data :
  linked s a (l ++ [b]) → NoDup (l ++ [b]) → mbufs s !! a = Some m → alloc_ok s (om_omp m) free →
  let old := chain_data s (l ++ [b]) in
  let n := Z.of_nat (length old) in
  wp (rc ← os_mbuf_append a data;
      new ← os_mbuf_copydata a n (Z.of_nat (length data));
      before ← os_mbuf_copydata a 0 n;
      cmp ← os_mbuf_memcmp a n data;
      mret (rc, new, before, cmp)) (λ '(rc, new, before, cmp) _,
    rc = OS_OK → new = (0, data) ∧ before = (0, old) ∧ cmp = 0) s.
Proof.
  intros Hl Hnd Hm Ha old n. wp_step. eapply wp_mono; [by apply os_mbuf_append_ok|].
  intros rc s' (left & -> & [(new & free' & Hl' & Hnd' & _ & _ & Hcd & _) _ _]). fold old in Hcd.
  wp_step. eapply wp_eq; [eapply os_mbuf_copydata_run; [done|done|lia|lia]|].
  wp_step. eapply wp_eq; [eapply os_mbuf_copydata_run; [done|done|lia|lia]|].
  wp_step. eapply wp_eq; [eapply os_mbuf_memcmp_run; [done|done|lia]|]. wp_step.
  intros Hrc. destruct left; [|done]. rewrite app_nil_r in Hcd. rewrite Hcd. unfold copy_result, n.
  rewrite length_app, !(proj2 (Z.leb_le _ _)) by lia. cbn [andb].
  rewrite !Nat2Z.id, drop_0, drop_app_length, take_app_length, firstn_all. split_and!; [done|done|].
  destruct data as [|d data]; [done|]. apply cmp_result_refl.
Qed.

(** [os_mbuf_free_chain] gives every mbuf of the chain back to the pool, last
    mbuf on top, returns [OS_OK], and leaves every other mbuf alone. *)
Theorem mbuf_free_chain_returns_all s o a l free :
  linked s a l → NoDup l → alloc_ok s o free → owned s o l →
  wp (os_mbuf_free_chain a) (λ rc s', rc = OS_OK ∧ alloc_ok s' o (reverse l ++ free) ∧
    (∀ b, mbufs s' !! b = if decide (b ∈ l) then None else mbufs s !! b)) s.
Proof.
  intros Hl Hnd Ha Hown. eapply wp_mono; [by apply os_mbuf_free_chain_ok|].
  intros rc s' (? & ? & _ & _ & ?). done.
Qed.

(** [os_mbuf_adj] trims [n] bytes from the front ([n >= 0]) or [-n] bytes from
    the end ([n < 0]) of the chain's data, all of them when there are fewer; the
    packet length follows, and the mbufs cut off at the end go back to the pool. *)
Theorem mbuf_adj_trims s o b l free n :
  let data := chain_data s (b :: l) in
  let rest := if decide (0 <= n) then drop (Z.to_nat n) data
              else take (Z.to_nat (Z.of_nat (length data) + n)) data in
  linked s b (b :: l) → NoDup (b :: l) → alloc_ok s o free → owned s o (b :: l) →
  (∀ p, pktlen_at s b = Some p → p = Z.of_nat (length data)) →
  wp (os_mbuf_adj b n) (λ _ s', ∃ l1 l2, l = l1 ++ l2 ∧
    linked s' b (b :: l1) ∧ chain_data s' (b :: l1) = rest ∧ alloc_ok s' o (reverse l2 ++ free) ∧
    pktlen_at s' b = (λ _, u16 (Z.of_nat (length rest))) <$> pktlen_at s b) s.
Proof.
  intros data rest Hl Hnd Ha Hown Hp. unfold rest. destruct (decide (0 <= n)) as [Hn|Hn].
  - eapply wp_mono; [by apply (os_mbuf_adj_head s b b l n)|]. intros _ s' (L & C & E & F & P).
    exists l, []. split; [by rewrite app_nil_r|]. split; [done|]. split; [done|]. split.
    + apply (alloc_ok_env s); [done| |done]. intros c Hc. rewrite F; [by apply (ao_fresh _ _ _ Ha)|].
      intros Hin. by apply (chain_not_free s o b _ free c Hl Ha).
    + rewrite P. destruct (pktlen_at s b) as [p|]; [|done]. rewrite (Hp p eq_refl). fold data. simpl.
      rewrite length_drop. do 2 f_equal. lia.
  - replace n with (- (- n)) by lia.
    eapply wp_mono; [apply (os_mbuf_adj_tail s o b l free (- n)); (done || lia)|].
    intros _ s' (l1 & l2 & ? & L & C & A & _ & P). fold data in C, P.
    exists l1, l2. split; [done|]. split; [done|]. split; [rewrite C; f_equal; lia|]. split; [done|].
    rewrite P, length_take. destruct (pktlen_at s b); [|done]. simpl. do 2 f_equal. lia.
Qed.

(** [os_mbuf_concat] joins two chains: the data of the result is the data of the
    first followed by that of the second, the packet length of the first chain grows
    by the packet length of the second (by its data length when it has no header), and
    the header of the second is dropped. *)
Theorem mbuf_concat_joins s first l z second l2 :
  linked s first (l ++ [z]) → linked s second (second :: l2) → NoDup (l ++ z :: second :: l2) →
  (∀ p, pktlen_at s first = Some p → 0 <= p < 65536) →
  wp (os_mbuf_concat first second) (λ _ s',
    linked s' first (l ++ z :: second :: l2) ∧
    chain_data s' (l ++ z :: second :: l2) = chain_data s (l ++ [z]) ++ chain_data s (second :: l2) ∧
    pktlen_at s' second = None ∧
    pktlen_at s' first =
      (λ p, u16 (p + default (Z.of_nat (length (chain_data s (second :: l2)))) (pktlen_at s second)))
        <$> pktlen_at s first) s.
Proof.
  intros H1 H2 H3 H4. eapply wp_mono; [by apply os_mbuf_concat_ok|]. intros _ s' (? & ? & _ & _ & ? & ?).
  by split_and!.
Qed.
End properties.

(** ** Witnesses *)

Lemma demo_head : mbufs demo_s !! 4096 = Some (default (mk_mbuf 0 0 0 0 0 0 []) (mbufs demo_s !! 4096)).
Proof. by vm_compute. Qed.

Definition demo_m : os_mbuf := default (mk_mbuf 0 0 0 0 0 0 []) (mbufs demo_s !! 4096).

Lemma mbuf_append_correct_witness :
  wp (os_mbuf_append 4096 [13; 14]) (λ rc s', ∃ new free' left,
    linked s' 4096 (([4096] ++ [4128]) ++ new) ∧ NoDup (([4096] ++ [4128]) ++ new) ∧
    [4160; 4192; 4224; 4256] = new ++ free' ∧
    alloc_ok s' (om_omp demo_m) free' ∧
    chain_data s' (([4096] ++ [4128]) ++ new) ++ left = chain_data demo_s ([4096] ++ [4128]) ++ [13; 14] ∧
    rc = match left with [] => OS_OK | _ => OS_ENOMEM end ∧ (left ≠ [] → free' = []) ∧
    pktlen_at s' 4096 =
      (λ p, u16 (p + (Z.of_nat (length [13; 14]) - Z.of_nat (length left)))) <$> pktlen_at demo_s 4096 ∧
    (∀ c, c ∉ ([4096] ++ [4128]) ++ new → mbufs s' !! c = mbufs demo_s !! c)) demo_s.
Proof.
  apply (mbuf_append_correct demo_s 4096 [4096] 4128 demo_m [4160; 4192; 4224; 4256] [13; 14]);
    [exact (proj1 demo_linked)|exact (proj2 demo_linked)|exact demo_head|exact demo_alloc].
Defined.

Lemma mbuf_append_copydata_witness :
  wp (rc ← os_mbuf_append 4096 [13; 14];
      new ← os_mbuf_copydata 4096 (Z.of_nat (length (chain_data demo_s ([4096] ++ [4128])))) (Z.of_nat (length [13; 14]));
      before ← os_mbuf_copydata 4096 0 (Z.of_nat (length (chain_data demo_s ([4096] ++ [4128]))));
      cmp ← os_mbuf_memcmp 4096 (Z.of_nat (length (chain_data demo_s ([4096] ++ [4128])))) [13; 14];
      mret (rc, new, before, cmp)) (λ '(rc, new, before, cmp) _,
    rc = OS_OK → new = (0, [13; 14]) ∧ before = (0, chain_data demo_s ([4096] ++ [4128])) ∧ cmp = 0) demo_s.
Proof.
  apply (mbuf_append_copydata demo_s 4096 [4096] 4128 demo_m [4160; 4192; 4224; 4256] [13; 14]);
    [exact (proj1 demo_linked)|exact (proj2 demo_linked)|exact demo_head|exact demo_alloc].
Defined.

Lemma mbuf_free_chain_returns_all_witness :
  wp (os_mbuf_free_chain 4096) (λ rc s', rc = OS_OK ∧
    alloc_ok s' 0 (reverse [4096; 4128] ++ [4160; 4192; 4224; 4256]) ∧
    (∀ b, mbufs s' !! b = if decide (b ∈ [4096; 4128]) then None else mbufs demo_s !! b)) demo_s.
Proof.
  apply (mbuf_free_chain_returns_all demo_s 0 4096 [4096; 4128] [4160; 4192; 4224; 4256]);
    [exact (proj1 demo_linked)|exact (proj2 demo_linked)|exact demo_alloc|exact demo_owned].
Defined.

Lemma demo_pktlen p : pktlen_at demo_s 4096 = Some p → p = Z.of_nat (length (chain_data demo_s [4096; 4128])).
Proof. vm_compute. intros [= <-]. done. Qed.

Lemma mbuf_adj_trims_witness :
  wp (os_mbuf_adj 4096 (-7)) (λ _ s', ∃ l1 l2, [4128] = l1 ++ l2 ∧
    linked s' 4096 (4096 :: l1) ∧
    chain_data s' (4096 :: l1) =
      (if decide (0 <= -7) then drop (Z.to_nat (-7)) (chain_data demo_s (4096 :: [4128]))
       else take (Z.to_nat (Z.of_nat (length (chain_data demo_s (4096 :: [4128]))) + -7))
              (chain_data demo_s (4096 :: [4128]))) ∧
    alloc_ok s' 0 (reverse l2 ++ [4160; 4192; 4224; 4256]) ∧
    pktlen_at s' 4096 = (λ _, u16 (Z.of_nat (length
      (if decide (0 <= -7) then drop (Z.to_nat (-7)) (chain_data demo_s (4096 :: [4128]))
       else take (Z.to_nat (Z.of_nat (length (chain_data demo_s (4096 :: [4128]))) + -7))
              (chain_data demo_s (4096 :: [4128])))))) <$> pktlen_at demo_s 4096) demo_s.
Proof.
  apply (mbuf_adj_trims demo_s 0 4096 [4128] [4160; 4192; 4224; 4256] (-7));
    [exact (proj1 demo_linked)|exact (proj2 demo_linked)|exact demo_alloc|exact demo_owned|exact demo_pktlen].
Defined.

(** Two packets. *)
Definition demo_two : bstate :=
  (run_or (0, demo_s) (a ← os_mbuf_get_pkthdr 0 0; os_mbuf_append a [20; 21; 22] ;; mret a) demo_s).2.

Lemma demo_two_first : linked demo_two 4096 ([4096] ++ [4128]).
Proof.
  split; [done|]. split; [done|]. eexists. split; [vm_compute; reflexivity|].
  split; [split; vm_compute; intuition congruence|].
  split; [done|]. split; [done|]. eexists. split; [vm_compute; reflexivity|].
  split; [split; vm_compute; intuition congruence|]. done.
Qed.
Lemma demo_two_second : linked demo_two 4160 [4160].
Proof.
  split; [done|]. split; [done|]. eexists. split; [vm_compute; reflexivity|].
  split; [split; vm_compute; intuition congruence|]. done.
Qed.

Lemma mbuf_concat_joins_witness :
  wp (os_mbuf_concat 4096 4160) (λ _ s',
    linked s' 4096 ([4096] ++ 4128 :: 4160 :: []) ∧
    chain_data s' ([4096] ++ 4128 :: 4160 :: []) =
      chain_data demo_two ([4096] ++ [4128]) ++ chain_data demo_two (4160 :: []) ∧
    pktlen_at s' 4160 = None ∧
    pktlen_at s' 4096 =
      (λ p, u16 (p + default (Z.of_nat (length (chain_data demo_two (4160 :: [])))) (pktlen_at demo_two 4160)))
        <$> pktlen_at demo_two 4096) demo_two.
Proof.
  apply (mbuf_concat_joins demo_two 4096 [4096] 4128 4160 []);
    [exact demo_two_first|exact demo_two_second|apply (bool_decide_unpack _); by vm_compute|].
  intros p. vm_compute. intros [= <-]. done.
Defined.

(** ** Where the code departs from its documentation *)

(** [os_mbuf_dup] does not keep the packet header: the copy of a packet of 12
    bytes has the same data but is not a packet any more (its [om_pkthdr_len] is 0, and
    the data of the copy starts where the header was copied to). *)
Theorem mbuf_dup_loses_header :
  pktlen_at demo_s 4096 = Some 12 ∧
  wp (os_mbuf_dup 4096) (λ c s', c = 4160 ∧
    chain_data s' [4160; 4192] = chain_data demo_s [4096; 4128] ∧ pktlen_at s' c = None) demo_s.
Proof. split; [by vm_compute|]. by vm_compute. Qed.

(** [os_mbuf_copyinto] keeps the offset within the first mbuf for the mbufs that
    follow: overwriting bytes 6 to 9 of the packet, which crosses from the first mbuf
    to the second, reports success but the bytes read back are not the bytes
    written. *)
Theorem mbuf_copyinto_misplaces :
  wp (rc ← os_mbuf_copyinto 4096 6 [31; 32; 33; 34];
      r ← os_mbuf_copydata 4096 6 4;
      mret (rc, r)) (λ '(rc, r) _, rc = 0 ∧ r = (0, [31; 32; 9; 10])) demo_s.
Proof. by vm_compute. Qed.

Definition demo_msys : bstate (S := pstate) :=
  (run_or (0, demo_bstate0)
    (os_mbuf_pool_init 0 0 32 6 ;; os_mbuf_pool_init 1 1 64 6 ;; os_mbuf_pool_init 2 2 128 6 ;;
     os_msys_register 2 ;; os_msys_register 0 ;; os_msys_register 1) demo_bstate0).2.

(** [os_msys_register] inserts a larger pool behind the first smaller one, so the
    list of pools is not sorted by size: with pools for 112, 16 and 48 bytes registered
    in this order, a request for 10 bytes is served from the pool for 112. *)
Theorem msys_not_best_fit :
  g_msys_pool_list demo_msys = [2; 0; 1]%nat ∧
  (λ o, omp_databuf_len (omp_of demo_msys o)) <$> g_msys_pool_list demo_msys = [112; 16; 48] ∧
  wp (_os_msys_find_pool 10) (λ r _, r = Some 2%nat) demo_msys.
Proof. by vm_compute. Qed.
