(* ===== verification/OsMbufWrite.v ===== *)
(** Building a packet piece by piece: a fresh packet from a system pool
    ([os_msys_get_pkthdr]) and writes at its end ([os_mbuf_copyinto] at the packet
    length), the way the receivers of framed packets use them. *)
From Stdlib Require Import ZArith Lia.
From stdpp Require Import base decidable list numbers gmap.
From S2P Require Import Prelude.
From S2P Require Import OsState.
From S2P Require Import OsMempool.
From S2P Require Import OsMbuf.
From S2P Require Import OsMbufSpec.

#[local] Open Scope Z_scope.
#[local] Arguments splice : simpl never.

Section write.
Context {S : Type} {AL : Allocator S} {inh : Inhabited S}.
Abbreviation bst := (bstate (S := S)) (only parsing).
Implicit Types (s : bst).

(** ** Chains stay in their pool

    [pools_kept o s s']: the mbufs of pool [o] are still allocated and of pool [o], and
    new mbufs are of pool [o]. *)
Definition pools_kept (o : nat) (s s' : bst) : Prop :=
  (∀ b m, mbufs s !! b = Some m → om_omp m = o → ∃ m', mbufs s' !! b = Some m' ∧ om_omp m' = o) ∧
  (∀ b m', mbufs s !! b = None → mbufs s' !! b = Some m' → om_omp m' = o).

#[export] Instance pools_kept_preorder o : PreOrder (pools_kept o).
Proof.
  split.
  - intros s. split; [by eauto|]. intros; congruence.
  - intros s1 s2 s3 [H1 H2] [H3 H4]. split.
    + intros b m Hb Ho. destruct (H1 b m Hb Ho) as (m' & Hm' & Ho'). by eapply H3.
    + intros b m' Hb Hm'. destruct (mbufs s2 !! b) as [m2|] eqn:E; [|by eapply H4].
      destruct (H3 b m2 E) as (m3 & Hm3 & Ho); [by eapply H2|]. rewrite Hm3 in Hm'. by simplify_eq.
Qed.

(** [m] keeps the pools whenever it returns. *)
Definition keeps (o : nat) {A} (m : M bst A) : Prop := ∀ s a s', m s = Ret (a, s') → pools_kept o s s'.

Lemma keeps_bind o {A B} (m : M bst A) (f : A → M bst B) :
  keeps o m → (∀ a, keeps o (f a)) → keeps o (m ≫= f).
Proof.
  intros Hm Hf s b s'. unfold mbind, M_bind. destruct (m s) as [[a s1]|] eqn:E; [|done].
  intros Hr. etrans; [by eapply Hm|by eapply Hf].
Qed.
Lemma keeps_ret o {A} (a : A) : keeps o (mret a).
Proof. intros s a' s' [= _ <-]. done. Qed.
Lemma keeps_get o : keeps o get.
Proof. intros s a' s' [= _ <-]. done. Qed.
Lemma keeps_fault o {A} f : keeps o (fault_with f : M bst A).
Proof. by intros s a s'. Qed.
Lemma keeps_option o {A} f (x : option A) : keeps o (from_option_fault f x : M bst A).
Proof. destruct x; [apply keeps_ret|apply keeps_fault]. Qed.
Lemma keeps_chain_fuel o : keeps o chain_fuel.
Proof. intros s a' s' [= _ <-]. done. Qed.

#[local] Hint Resolve keeps_ret keeps_get keeps_fault keeps_option keeps_chain_fuel : keeps.

Lemma keeps_mbuf_at o a : keeps o (mbuf_at a).
Proof. apply keeps_bind; auto with keeps. Qed.

(** Replacing an allocated mbuf by one of the same pool. *)
Lemma pools_kept_insert o s a m m' :
  mbufs s !! a = Some m → om_omp m' = om_omp m ∨ om_omp m' = o → pools_kept o s (set_mbufs (<[a := m']> (mbufs s)) s).
Proof.
  intros Hm Ho. split; simpl.
  - intros b v Hb Hv. destruct (decide (a = b)) as [->|]; [|rewrite lookup_insert_ne by done; by eauto].
    exists m'. rewrite lookup_insert_eq. split; [done|]. destruct Ho; congruence.
  - intros b v Hb. rewrite lookup_insert_ne; congruence.
Qed.

Lemma keeps_upd_mbuf o a f : (∀ m, om_omp (f m) = om_omp m) → keeps o (upd_mbuf a f).
Proof.
  intros Hf s r s'. unfold upd_mbuf, mbuf_at, mbind, M_bind, get. simpl.
  destruct (mbufs s !! a) as [m|] eqn:E; simpl; [|done]. intros [= _ <-]. eapply pools_kept_insert; [done|by auto].
Qed.
Lemma keeps_write_buf o a off bytes : keeps o (write_buf a off bytes).
Proof.
  intros s r s'. unfold write_buf, mbuf_at, mbind, M_bind, get. simpl.
  destruct (mbufs s !! a) as [m|] eqn:E; simpl; [|done]. destruct (_ && _); [|done].
  intros [= _ <-]. eapply pools_kept_insert; [done|by auto].
Qed.
#[local] Hint Resolve keeps_mbuf_at keeps_upd_mbuf keeps_write_buf : keeps.

Lemma keeps_mbuf_get o ls : keeps o (os_mbuf_get o ls).
Proof.
  intros s r s'. unfold os_mbuf_get, mbind, M_bind, get, on_pool. simpl.
  destruct (al_get _) as [[om v]|]; [|done]. destruct (om =? 0).
  - intros [= _ <-]. split; simpl; [by eauto|]. intros; congruence.
  - intros [= _ <-]. split; simpl.
    + intros b m Hb Ho. destruct (decide (om = b)) as [->|]; [|rewrite lookup_insert_ne by done; by eauto].
      rewrite lookup_insert_eq. by eexists.
    + intros b m' Hb. destruct (decide (om = b)) as [->|]; [|rewrite lookup_insert_ne by done; congruence].
      rewrite lookup_insert_eq. by intros [= <-].
Qed.
#[local] Hint Resolve keeps_mbuf_get : keeps.

Ltac keeps :=
  repeat first
    [ progress auto with keeps
    | apply keeps_bind; [|intros ?]
    | match goal with
      | |- keeps _ (if ?b then _ else _) => destruct b
      | |- keeps _ (match ?x with _ => _ end) => destruct x
      end ].

Lemma keeps_append_loop o fuel : ∀ last data, keeps o (append_loop fuel o last data).
Proof.
  induction fuel as [|fuel IH]; intros last [|c data]; cbn [append_loop]; keeps.
Qed.
Lemma keeps_last_mbuf o a : keeps o (last_mbuf a).
Proof.
  apply keeps_bind; [keeps|]. intros fuel. revert a. induction fuel as [|fuel IH]; intros a; cbn [last_loop]; keeps.
Qed.
#[local] Hint Resolve keeps_append_loop keeps_last_mbuf : keeps.

Lemma keeps_concat o a b : keeps o (os_mbuf_concat a b).
Proof.
  unfold os_mbuf_concat. keeps. match goal with |- keeps _ (sum_len_loop ?n _ _) => generalize n end.
  intros n. revert b. induction n as [|n IH]; intros b; cbn [sum_len_loop]; keeps.
Qed.
Lemma keeps_adj_head o a n : 0 <= n → keeps o (os_mbuf_adj a n).
Proof.
  intros Hn. unfold os_mbuf_adj. rewrite (proj2 (Z.leb_le _ _)) by done. keeps.
  match goal with |- keeps _ (adj_head_loop ?n _ _) => generalize n end. intros k. clear Hn. revert a n.
    induction k as [|k IH]; intros a n; cbn [adj_head_loop]; keeps.
Qed.

Lemma append_keeps_pools s a m data rc s' :
  mbufs s !! a = Some m → os_mbuf_append a data s = Ret (rc, s') → pools_kept (om_omp m) s s'.
Proof.
  intros Hm. unfold os_mbuf_append. destruct (a =? 0); [by intros [= _ <-]|].
  rewrite (bind_ret_run _ _ _ _ _ (mbuf_at_run s a m Hm)). cbv zeta. revert s rc s' Hm.
  match goal with |- ∀ s rc s', _ → ?f s = _ → _ => enough (keeps (om_omp m) f) by eauto end. keeps.
Qed.

(** The mbufs [l] are allocated and of pool [o]. *)
Definition of_pool (s : bst) (o : nat) (l : list Z) : Prop :=
  ∀ b, b ∈ l → ∃ m, mbufs s !! b = Some m ∧ om_omp m = o.

Lemma of_pool_kept s s' o l a (new free : list Z) :
  pools_kept o s s' → of_pool s o l → linked s' a (l ++ new) → (∀ b, b ∈ free → mbufs s !! b = None) →
  (∀ b, b ∈ new → b ∈ free) → of_pool s' o (l ++ new).
Proof.
  intros [K1 K2] Hl Hlk Hfr Hnew b [Hb|Hb]%elem_of_app.
  - destruct (Hl b Hb) as (m & Hm & Ho). by eapply K1.
  - destruct (linked_lookup s' _ a b Hlk) as [m' Hm']; [apply elem_of_app; by right|].
    exists m'. split; [done|]. by eapply K2; [apply Hfr, Hnew|].
Qed.

(** ** A packet under construction *)

(** The chain [l] at [a] is a packet of pool [o] that holds [data]. *)
Record packet (s : bst) (o : nat) (a : Z) (l : list Z) (data : list Z) : Prop := {
  pk_nonnull : a ≠ 0;
  pk_linked : linked s a l;
  pk_nodup : NoDup l;
  pk_pool : of_pool s o l;
  pk_data : chain_data s l = data;
  pk_len : pktlen_at s a = Some (Z.of_nat (length data));
}.

Lemma packet_last s o a l data : packet s o a l data → ∃ l1 b, l = l1 ++ [b].
Proof.
  intros [Hnz Hl _ _ _ _]. destruct l as [|b l]; [done|]. destruct (snoc_of_cons b l) as (l0 & z & ->). eauto.
Qed.

(** The offset at the end of a chain is the end of its last mbuf. *)
Lemma os_mbuf_off_end s a l b :
  linked s a (l ++ [b]) → NoDup (l ++ [b]) →
  os_mbuf_off a (Z.of_nat (length (chain_data s (l ++ [b])))) s = Ret (Some (b, Z.of_nat (length (bytes_at s b))), s).
Proof.
  intros Hl Hnd. destruct (os_mbuf_off_run s a (l ++ [b]) (Z.of_nat (length (chain_data s (l ++ [b])))) Hl Hnd)
    as [[_ [Hn|Hn]]|(c & o & l1 & l2 & -> & E & Ho & Hr & He)]; [lia|by destruct l|lia|].
  rewrite E, chain_data_app, chain_data_cons, !length_app in Ho.
  assert (l2 = []) as -> by (apply He; lia). apply app_inj_tail in E as [-> ->].
  simpl in Ho. do 4 f_equal. lia.
Qed.

Lemma copyinto_loop_end s b m fuel data :
  mbufs s !! b = Some m → mbuf_ok s m → om_next m = 0 →
  copyinto_loop fuel b (Z.of_nat (length (bytes_at s b))) data s =
    Ret (match data with [] => inl tt | _ => inr (b, data) end, s).
Proof.
  intros Hm Hok Hn. assert (Hb : bytes_at s b = om_bytes m) by (unfold bytes_at; by rewrite Hm).
  rewrite Hb, (length_om_bytes s) by done.
  destruct fuel; cbn [copyinto_loop]; rewrite (bind_ret_run _ _ _ _ _ (mbuf_at_run s b m Hm)); cbv zeta;
    rewrite Z.sub_diag, (proj2 (Z.ltb_ge _ _)) by lia; rewrite Hn; by destruct data.
Qed.

(** The update of the header after a write at the end. *)
Lemma copyinto_header s a l m len n :
  linked s a l → mbufs s !! a = Some m → mbuf_ok s m → OS_MBUF_IS_PKTHDR m = true →
  OS_MBUF_PKTLEN m <= n + len → 0 <= n + len < 65536 →
  wp (m ← mbuf_at a;
      (if OS_MBUF_IS_PKTHDR m then upd_mbuf a (set_pktlen (Z.max (OS_MBUF_PKTLEN m) (n + len))) else mret tt) ;;
      mret 0) (λ rc s', rc = 0 ∧ linked s' a l ∧ chain_data s' l = chain_data s l ∧ same_env s s' ∧
    pools_kept (om_omp m) s s' ∧
    (∀ b, b ≠ a → mbufs s' !! b = mbufs s !! b) ∧ pktlen_at s' a = Some (n + len)) s.
Proof.
  intros Hl Hm Hok Hh Hle Hr. wp_step. eapply wp_mbuf_at; [done|].
  replace (Z.max (OS_MBUF_PKTLEN m) (n + len)) with (OS_MBUF_PKTLEN m + (n + len - OS_MBUF_PKTLEN m)) by lia.
  wp_step. pose proof (append_header_spec s a m l (n + len - OS_MBUF_PKTLEN m) Hm Hok Hl) as Hw.
  apply wp_run in Hw as ([] & s' & E & H1 & H2 & H3 & H4 & H5). eapply wp_eq; [exact E|]. wp_step.
  split_and!; try done.
  - revert E. rewrite Hh. unfold upd_mbuf. rewrite (bind_ret_run _ _ _ _ _ (mbuf_at_run s a m Hm)).
    intros [= <-]. eapply pools_kept_insert; [done|by right].
  - rewrite H5. unfold pktlen_at. rewrite Hm. simpl. rewrite Hh. simpl. f_equal.
    replace (OS_MBUF_PKTLEN m + (n + len - OS_MBUF_PKTLEN m)) with (n + len) by lia. by apply u16_small.
Qed.

(** [os_mbuf_copyinto] at the end of a packet appends to it.  It fails only if the pool
    is exhausted. *)
Lemma copyinto_end s o a l old data free :
  packet s o a l old → alloc_ok s o free → Z.of_nat (length old) + Z.of_nat (length data) < 65536 →
  wp (os_mbuf_copyinto a (Z.of_nat (length old)) data) (λ rc s', ∃ new free',
    free = new ++ free' ∧ alloc_ok s' o free' ∧ omps s' = omps s ∧
    (∀ c, c ∉ l ++ new → mbufs s' !! c = mbufs s !! c) ∧
    (rc = 0 ∧ packet s' o a (l ++ new) (old ++ data) ∨ rc ≠ 0 ∧ free' = [])) s.
Proof.
  intros Hpk Ha Hlen. destruct (packet_last _ _ _ _ _ Hpk) as (l1 & b & ->).
  destruct (Hpk) as [Hnz Hl Hnd Hpool Hdata Hplen].
  pose proof (linked_suffix _ _ _ _ _ Hl) as Hlb. pose proof Hlb as (_ & Hbnz & mb & Hmb & Hokb & Hn). simpl in Hn.
  unfold os_mbuf_copyinto. rewrite <- Hdata at 1. wp_step.
  eapply wp_eq; [by apply os_mbuf_off_end|]. cbv beta iota. unfold chain_fuel. wp_simp.
  eapply wp_eq; [by eapply copyinto_loop_end|]. destruct data as [|d data'].
  { wp_step. exists [], free. rewrite !app_nil_r. split_and!; try done. by left. }
  set (data := d :: data') in *. clearbody data. clear d data'. destruct (Hpool b) as (mb' & Hmb' & Hob); [apply elem_of_app; right; by left|].
  assert (mb' = mb) as -> by congruence. subst o.
  wp_step.
  assert (Happ := os_mbuf_append_ok s b [] b mb free data Hlb).
  apply wp_run in Happ as (rc & s1 & E & left & -> & [(new & free' & L1 & L2 & L3 & L4 & L5 & L6 & L7) Lo Lp]);
    [|by apply NoDup_singleton|done|done].
  eapply wp_eq; [exact E|]. cbn [app] in *.
  assert (Hafree : ∀ c, c ∈ l1 ++ [b] → c ∉ free) by (intros c; by eapply chain_not_free).
  assert (Hfront : ∀ c, c ∈ l1 → mbufs s1 !! c = mbufs s !! c).
  { intros c Hc. apply L7. apply not_elem_of_cons. split; [by eapply snoc_ne|].
    intros Hin. apply (Hafree c); [|rewrite L3]; apply elem_of_app; by left. }
  assert (Hl1 : linked s1 a (l1 ++ b :: new)) by by eapply (linked_tail s).
  assert (Hframe : ∀ c, c ∉ (l1 ++ [b]) ++ new → mbufs s1 !! c = mbufs s !! c).
  { intros c Hc. apply L7. set_solver. }
  assert (Hkept : pools_kept (om_omp mb) s s1) by by eapply append_keeps_pools.
  assert (Ha1 : (∃ m, mbufs s1 !! a = Some m ∧ mbuf_ok s1 m ∧ OS_MBUF_IS_PKTHDR m = true ∧
    (left = [] → OS_MBUF_PKTLEN m <= Z.of_nat (length old) + Z.of_nat (length data))) ∧ a ∈ l1 ++ [b]).
  { destruct (linked_head _ _ _ _ _ Hl1) as (Hin & m & Hm & Hok). split; [|done]. exists m.
    assert (Hpa : is_Some (pktlen_at s1 a) ∧ ∀ p, pktlen_at s1 a = Some p →
      left = [] → p <= Z.of_nat (length old) + Z.of_nat (length data)).
    { destruct (decide (a = b)) as [->|Hab].
      - rewrite Lp, Hplen. simpl. split; [by eexists|]. intros p [= <-] ->.
        cbn [length Z.of_nat]. rewrite u16_small; lia.
      - assert (Hfa : pktlen_at s1 a = pktlen_at s a).
        { unfold pktlen_at. rewrite Hfront; [done|]. clear -Hin Hab. set_solver. }
        rewrite Hfa, Hplen. split; [by eexists|]. intros p [= <-] _. lia. }
    unfold pktlen_at in Hpa. rewrite Hm in Hpa. simpl in Hpa.
    destruct (OS_MBUF_IS_PKTHDR m); [|destruct Hpa as [[? ?] _]; done]. split_and!; try done. by apply Hpa. }
  destruct Ha1 as [(m & Hm & Hok & Hh & Hple) Hain].
  destruct left as [|x left]; cycle 1.
  { wp_step. exists new, free'. split_and!; try done. right. split; [lia|]. by apply L6. }
  cbv beta iota. eapply wp_mono; [apply (copyinto_header s1 a (l1 ++ b :: new) m); [done..|by apply Hple|lia]|].
  intros rc s2 (-> & M1 & M2 & M3 & M4 & M5 & M6). exists new, free'.
  pose proof (al_sub _ _ (ao_ok _ _ _ Ha)) as [Hndf _].
  assert (Hom : om_omp m = om_omp mb).
  { destruct (Hpool a Hain) as (m0 & Hm0 & Ho0). destruct (proj1 Hkept a m0 Hm0 Ho0) as (m' & Hm' & ?). congruence. }
  assert (Hnf : ∀ b', b' ∈ free' → b' ≠ a).
  { intros b' Hb' ->. apply (Hafree a Hain). rewrite L3. apply elem_of_app. by right. }
  assert (Happ : (l1 ++ [b]) ++ new = l1 ++ b :: new) by by rewrite <- (assoc_L (++)).
  split_and!; [done| | | |].
  - apply (alloc_ok_env s1); [done| |done]. intros b' Hb'. rewrite M5 by auto. by apply (ao_fresh _ _ _ L4).
  - by rewrite (se_omps _ _ M3).
  - intros c Hc. rewrite M5; [by apply Hframe|]. intros ->. apply Hc, elem_of_app. by left.
  - left. split; [done|]. split; rewrite ?Happ; try done.
    + rewrite <- Happ. rewrite L3 in Hndf. apply NoDup_app in Hndf as (? & _). apply NoDup_app. split_and!; [done| |done].
      intros c Hc Hin. apply (Hafree c Hc). rewrite L3. apply elem_of_app. by left.
    + rewrite <- Happ. eapply (of_pool_kept s s2 (om_omp mb) _ a new free); [|done|by rewrite Happ|apply Ha|].
      * etrans; [exact Hkept|]. by rewrite <- Hom.
      * intros c Hc. rewrite L3. apply elem_of_app. by left.
    + rewrite M2, chain_data_app, (chain_data_ext s s1 l1) by done. rewrite app_nil_r in L5. rewrite L5.
      rewrite app_assoc, <- chain_data_app, Hdata. done.
    + rewrite M6, length_app. f_equal. lia.
Qed.

(** A fresh packet is empty. *)
Lemma os_mbuf_get_pkthdr_ok s o a free :
  alloc_ok s o (a :: free) → sizeof_os_mbuf_pkthdr <= omp_databuf_len (omp_of s o) →
  wp (os_mbuf_get_pkthdr o 0) (λ r s', r = a ∧ packet s' o a [a] [] ∧ alloc_ok s' o free ∧ omps s' = omps s ∧
    (∀ c, c ≠ a → mbufs s' !! c = mbufs s !! c)) s.
Proof.
  intros Ha Hsz. unfold os_mbuf_get_pkthdr. wp_step. eapply wp_mono; [by apply wp_os_mbuf_get|].
  intros r s1 (-> & Hnz & Hnf & Ha1 & Ho1 & buf & Hbuf & Hs1). rewrite (proj2 (Z.eqb_neq _ _)) by done.
  unfold sizeof_os_mbuf_pkthdr in *. cbn [Z.add]. cbv zeta.
  assert (∃ x0 x1 x2 x3 x4 x5 x6 x7 tl, buf = x0 :: x1 :: x2 :: x3 :: x4 :: x5 :: x6 :: x7 :: tl)
    as (x0 & x1 & x2 & x3 & x4 & x5 & x6 & x7 & tl & ->).
  { do 8 (destruct buf as [|? buf]; [simpl in Hbuf; lia|]). by repeat eexists. }
  wp_step. eapply wp_upd_mbuf; [by rewrite Hs1, lookup_insert_eq|]. intros s2 Hs2 He2. rewrite Hs1, insert_insert_eq in Hs2.
  wp_step. eapply wp_upd_mbuf; [by rewrite Hs2, lookup_insert_eq|]. intros s3 Hs3 He3. rewrite Hs2, insert_insert_eq in Hs3.
  wp_step. eapply wp_write_buf; [by rewrite Hs3, lookup_insert_eq|done|simpl; lia|]. intros s4 Hs4 He4.
  rewrite Hs3, insert_insert_eq in Hs4.
  wp_step. eapply wp_write_buf; [by rewrite Hs4, lookup_insert_eq|done|simpl; lia|].
  intros s5 Hs5 He5. rewrite Hs4, insert_insert_eq in Hs5.
  wp_step. eapply wp_write_buf; [by rewrite Hs5, lookup_insert_eq|done|simpl; lia|].
  intros s6 Hs6 He6. rewrite Hs5, insert_insert_eq in Hs6. wp_step.
  set (m := set_om_databuf _ _) in Hs6.
  assert (Hbuf6 : om_databuf m = 0 :: 0 :: 0 :: 0 :: 0 :: 0 :: 0 :: 0 :: tl ∧ om_off m = 8 ∧ om_len m = 0 ∧ om_omp m = o ∧
    om_pkthdr_len m = 8 ∧ om_next m = 0).
  { by split_and!. }
  destruct Hbuf6 as (Mb & Mo & Ml & Mp & Mh & Mn). clearbody m.
  assert (Ho6 : omps s6 = omps s).
  { by rewrite (se_omps _ _ He6), (se_omps _ _ He5), (se_omps _ _ He4), (se_omps _ _ He3), (se_omps _ _ He2). }
  assert (Hok : mbuf_ok s6 m).
  { pose proof (ao_len _ _ _ Ha). assert (omp_of s6 o = omp_of s o) as Homp by (unfold omp_of; by rewrite Ho6).
    split; rewrite ?Mo, ?Ml, ?Mp, ?Mh, ?Mb, ?Homp; lia || done. }
  split_and!; try done.
  - assert (Hh : OS_MBUF_IS_PKTHDR m = true) by (unfold OS_MBUF_IS_PKTHDR; by rewrite Mh).
    assert (Hm6 : mbufs s6 !! a = Some m) by by rewrite Hs6, lookup_insert_eq.
    split; [done| |by apply NoDup_singleton| | |].
    + split_and!; [done|done|]. by exists m.
    + intros c ->%list_elem_of_singleton. by exists m.
    + unfold chain_data, bytes_at. simpl. rewrite Hm6. unfold om_bytes. by rewrite Ml.
    + unfold pktlen_at. rewrite Hm6. simpl. rewrite Hh. unfold OS_MBUF_PKTLEN. by rewrite Mb.
  - apply (alloc_ok_env s1); [|intros b Hb|done].
    + destruct He2, He3, He4, He5, He6. split; congruence.
    + rewrite Hs6, lookup_insert_ne by congruence. apply (ao_fresh _ _ _ Ha). by right.
  - intros c Hc. by rewrite Hs6, lookup_insert_ne.
Qed.

(** [os_msys_get_pkthdr] takes the packet from the pool that fits, or returns NULL if it
    is exhausted. *)
Lemma os_msys_get_pkthdr_ok s d o free :
  _os_msys_find_pool (u16 (d + sizeof_os_mbuf_pkthdr)) s = Ret (Some o, s) → alloc_ok s o free →
  sizeof_os_mbuf_pkthdr <= omp_databuf_len (omp_of s o) →
  wp (os_msys_get_pkthdr d 0) (λ r s',
    match free with
    | a :: free => r = a ∧ packet s' o a [a] [] ∧ alloc_ok s' o free ∧ omps s' = omps s ∧
        (∀ c, c ≠ a → mbufs s' !! c = mbufs s !! c)
    | [] => r = 0 ∧ alloc_ok s' o [] ∧ mbufs s' = mbufs s ∧ omps s' = omps s
    end) s.
Proof.
  intros Hf Ha Hsz. unfold os_msys_get_pkthdr. wp_step. change (u16 (0 + sizeof_os_mbuf_pkthdr)) with 8.
  change sizeof_os_mbuf_pkthdr with 8 in Hf. eapply wp_eq; [exact Hf|]. change (u8 0) with 0.
  destruct free as [|a free]; [|by apply os_mbuf_get_pkthdr_ok].
  unfold os_mbuf_get_pkthdr. wp_step. eapply wp_mono; [by apply os_mbuf_get_none|].
  intros r s' (-> & ? & ? & ?). simpl. by wp_simp.
Qed.
End write.
