(* ===== verification/OsMbufHeld.v ===== *)
(** Who holds which packet: the operations of [OsMbuf] for clients that keep several
    packets of one pool at the same time.

    [held s a l data]: the packet at [a], made of the mbufs [l], holds [data] and lives in
    blocks of the pool.  [heap_ok free s]: the blocks [free] of the pool are free.  Every
    operation is stated with the mbufs it touches ([frame]), so that a client keeps the
    packets it does not pass to the operation. *)
From Stdlib Require Import ZArith Lia.
From stdpp Require Import base decidable list numbers gmap.
From S2P Require Import Prelude.
From S2P Require Import OsState.
From S2P Require Import OsMempool.
From S2P Require Import OsMbuf.
From S2P Require Import OsMbufSpec.
From S2P Require Import OsMbufWrite.

#[local] Open Scope Z_scope.
#[local] Arguments splice : simpl never.

Section held.
Context {S : Type} {AL : Allocator S} {inh : Inhabited S}.
Context (o : nat) (BL : list Z).
Abbreviation bst := (bstate (S := S)) (only parsing).
Implicit Types (s : bst).

(** The pool is small enough for the 16-bit length of a packet. *)
Record heap_ok (free : list Z) (s : bst) : Prop := {
  hp_alloc : alloc_ok s o free;
  hp_blocks : al_blocks (mpools s !!! omp_pool (omp_of s o)) = BL;
  hp_cap : Z.of_nat (length BL) * omp_databuf_len (omp_of s o) < 65536;
}.

Record held (s : bst) (a : Z) (l data : list Z) : Prop := {
  hd_packet : packet s o a l data;
  hd_blocks : ∀ b, b ∈ l → b ∈ BL;
}.

(** Only the mbufs [l] change. *)
Record frame (l : list Z) (s s' : bst) : Prop := {
  fr_omps : omps s' = omps s;
  fr_mbufs : ∀ b, b ∉ l → mbufs s' !! b = mbufs s !! b;
}.

#[export] Instance frame_refl l : Reflexive (frame l).
Proof. by intros s. Qed.

Lemma frame_trans l1 l2 s1 s2 s3 : frame l1 s1 s2 → frame l2 s2 s3 → frame (l1 ++ l2) s1 s3.
Proof.
  intros [H1 H2] [H3 H4]. split; [congruence|].
  intros b [Hb1 Hb2]%not_elem_of_app. by rewrite H4, H2.
Qed.

Lemma frame_weaken l l' s s' : frame l s s' → l ⊆ l' → frame l' s s'.
Proof. intros [H1 H2] Hl. split; [done|]. intros b Hb. apply H2. intros Hbl. by apply Hb, Hl. Qed.

(** ** What a held packet gives *)

Lemma held_head s a l d : held s a l d → ∃ l', l = a :: l'.
Proof. intros [[Hnz Hl _ _ _ _] _]. destruct l as [|b l]; [done|]. destruct Hl as (-> & _). eauto. Qed.

Lemma held_owned free s a l d : heap_ok free s → held s a l d → owned s o l.
Proof. intros Hh [Hp Hb] b Hin. rewrite (hp_blocks _ _ Hh). split; [by apply Hb|by apply (pk_pool _ _ _ _ _ Hp)]. Qed.

Lemma held_not_free free s a l d b : heap_ok free s → held s a l d → b ∈ l → b ∉ free.
Proof.
  intros Hh [Hp _] Hb Hf. destruct (pk_pool _ _ _ _ _ Hp b Hb) as (m & Hm & _).
  by rewrite (ao_fresh _ _ _ (hp_alloc _ _ Hh) b Hf) in Hm.
Qed.

Lemma held_frame T s s' a l d : frame T s s' → (∀ b, b ∈ l → b ∉ T) → held s a l d → held s' a l d.
Proof.
  intros [F1 F2] Hd Hh. pose proof (held_head _ _ _ _ Hh) as [l' Hl'].
  destruct Hh as [[P1 P2 P3 P4 P5 P6] Hb]. assert (Hsame : ∀ b, b ∈ l → mbufs s' !! b = mbufs s !! b) by auto.
  split; [|done]. split; [done|by apply (linked_ext s)|done| | |].
  - intros b Hin. rewrite Hsame by done. by apply P4.
  - rewrite <- P5. by apply chain_data_ext.
  - rewrite <- P6. unfold pktlen_at. rewrite Hsame; [done|]. rewrite Hl'. by left.
Qed.

(** A chain is no longer than the pool. *)
Lemma chain_data_bound s l : ∀ a, linked s a l → of_pool s o l →
  Z.of_nat (length (chain_data s l)) <= Z.of_nat (length l) * omp_databuf_len (omp_of s o).
Proof.
  induction l as [|b l IH]; intros a; [simpl; lia|]. intros (-> & _ & m & Hm & Hok & Hl) Hp.
  rewrite chain_data_cons, length_app. unfold bytes_at at 1. rewrite Hm.
  pose proof (length_om_bytes _ _ Hok). destruct Hok as [H1 H2 H3 _ _ _].
  destruct (Hp b) as (m' & Hm' & Ho); [by left|]. assert (m' = m) as -> by congruence. rewrite Ho in H3.
  assert (HIH := IH _ Hl (λ c Hc, Hp c (list_elem_of_further _ _ _ Hc))). simpl. lia.
Qed.

Lemma blocks_bound (l : list Z) : NoDup l → (∀ b, b ∈ l → b ∈ BL) → (length l <= length BL)%nat.
Proof. intros Hnd Hb. by apply submseteq_length, NoDup_submseteq. Qed.

Lemma held_length free s a l d : heap_ok free s → held s a l d → Z.of_nat (length d) < 65536.
Proof.
  intros Hh [[P1 P2 P3 P4 P5 P6] Hb]. pose proof (chain_data_bound s l a P2 P4) as Hle. rewrite P5 in Hle.
  pose proof (blocks_bound l P3 Hb) as Hbl. pose proof (hp_cap _ _ Hh). pose proof (ao_len _ _ _ (hp_alloc _ _ Hh)).
  apply inj_le, (Z.mul_le_mono_nonneg_r _ _ (omp_databuf_len (omp_of s o))) in Hbl; lia.
Qed.

Lemma held_pktlen s a l d : held s a l d →
  ∃ m, mbufs s !! a = Some m ∧ mbuf_ok s m ∧ OS_MBUF_IS_PKTHDR m = true ∧ OS_MBUF_PKTLEN m = Z.of_nat (length d).
Proof.
  intros Hh. destruct (held_head _ _ _ _ Hh) as [l' ->]. destruct Hh as [[_ (_ & _ & m & Hm & Hok & _) _ _ _ P6] _].
  exists m. unfold pktlen_at in P6. rewrite Hm in P6. simpl in P6. destruct (OS_MBUF_IS_PKTHDR m); [|done]. by simplify_eq.
Qed.

Lemma heap_env free s s' l :
  same_env s s' → (∀ b, b ∉ l → mbufs s' !! b = mbufs s !! b) → (∀ b, b ∈ l → b ∉ free) →
  heap_ok free s → heap_ok free s' ∧ frame l s s'.
Proof.
  intros He Hf Hd [H1 H2 H3]. split; [|split; [apply He|done]].
  assert (Ho : omp_of s' o = omp_of s o) by (unfold omp_of; by rewrite (se_omps _ _ He)).
  split; [|by rewrite Ho, (se_mpools _ _ He)|by rewrite Ho].
  apply (alloc_ok_env s); [done| |done]. intros b Hb. rewrite Hf; [by apply (ao_fresh _ _ _ H1)|].
  intros Hbl. by eapply Hd.
Qed.

(** ** The operations *)

Lemma copydata_held s a l d off len :
  held s a l d → 0 <= off → 0 <= len → os_mbuf_copydata a off len s = Ret (copy_result d off len, s).
Proof. intros [[_ Hl Hnd _ <- _] _] ? ?. by apply os_mbuf_copydata_run. Qed.

Lemma free_null s : os_mbuf_free_chain 0 s = Ret (OS_OK, s).
Proof. reflexivity. Qed.

Lemma free_held free s a l d :
  heap_ok free s → held s a l d →
  wp (os_mbuf_free_chain a) (λ rc s', rc = OS_OK ∧ heap_ok (reverse l ++ free) s' ∧ frame l s s' ∧
    (∀ b, b ∈ l → mbufs s' !! b = None)) s.
Proof.
  intros Hh Hd. pose proof (held_owned _ _ _ _ _ Hh Hd) as Hown. destruct Hd as [[_ Hl Hnd _ _ _] _], Hh as [H1 H2 H3].
  eapply wp_mono; [by apply os_mbuf_free_chain_ok|]. intros rc s' (-> & Ha & Ho & Hb & Hf).
  assert (Homp : omp_of s' o = omp_of s o) by (unfold omp_of; by rewrite Ho).
  split_and!; [done|split; [done|by rewrite Homp, Hb|by rewrite Homp]| |].
  - split; [done|]. intros b Hbl. by rewrite Hf, decide_False.
  - intros b Hbl. by rewrite Hf, decide_True.
Qed.

Lemma adj_held free s a l d n :
  heap_ok free s → held s a l d → 0 <= n →
  wp (os_mbuf_adj a n) (λ _ s', held s' a l (drop (Z.to_nat n) d) ∧ heap_ok free s' ∧ frame l s s') s.
Proof.
  intros Hh Hd Hn. pose proof (held_head _ _ _ _ Hd) as [l' ->]. pose proof (held_length _ _ _ _ _ Hh Hd) as Hlen.
  pose proof (λ b, held_not_free _ _ _ _ _ b Hh Hd) as Hnf. destruct Hd as [[P1 P2 P3 P4 P5 P6] Hb].
  eapply wp_mono; [by apply wp_with_run, os_mbuf_adj_head|]. intros [] s' [(A1 & A2 & A3 & A4 & A5) Hrun].
  destruct (heap_env free s s' (a :: l')) as [Hh' Hf]; try done. split; [|done]. split; [|done].
  split; [done|done|done| |by rewrite A2, P5|].
  - rewrite <- (app_nil_r (a :: l')). eapply (of_pool_kept s s' o (a :: l') a [] free); [|done| |apply (hp_alloc _ _ Hh)|by intros b ?%elem_of_nil].
    + by eapply keeps_adj_head.
    + by rewrite app_nil_r.
  - rewrite A5, P6, P5. simpl. f_equal. rewrite u16_small by lia. rewrite length_drop. lia.
Qed.

Lemma concat_held free s a l d a2 l2 d2 :
  heap_ok free s → held s a l d → held s a2 l2 d2 → (∀ b, b ∈ l → b ∉ l2) →
  wp (os_mbuf_concat a a2) (λ _ s', held s' a (l ++ l2) (d ++ d2) ∧ heap_ok free s' ∧ frame (l ++ l2) s s') s.
Proof.
  intros Hh Hd Hd2 Hdis. pose proof (held_length _ _ _ _ _ Hh Hd) as Hlen.
  pose proof (λ b, held_not_free _ _ _ _ _ b Hh Hd) as Hnf. pose proof (λ b, held_not_free _ _ _ _ _ b Hh Hd2) as Hnf2.
  pose proof (packet_last _ _ _ _ _ (hd_packet _ _ _ _ Hd)) as (l1 & z & Hz). pose proof (held_head _ _ _ _ Hd2) as [l2' Hl2].
  assert (Hcat : l ++ l2 = l1 ++ z :: a2 :: l2') by (rewrite Hz, Hl2, <- (assoc_L (++)); done).
  destruct Hd as [[P1 P2 P3 P4 P5 P6] Hb], Hd2 as [[Q1 Q2 Q3 Q4 Q5 Q6] Hb2].
  assert (Hnd : NoDup (l ++ l2)) by by apply NoDup_app.
  eapply wp_mono; [apply wp_with_run, (os_mbuf_concat_ok s a l1 z a2 l2')|].
  { by rewrite <- Hz. } { by rewrite <- Hl2. } { by rewrite <- Hcat. }
  { intros p. rewrite P6. intros [= <-]. lia. }
  intros [] s' [(A1 & A2 & A3 & A4 & A5 & A6) Hrun]. rewrite <- Hcat in A1, A2, A4.
  destruct (heap_env free s s' (l ++ l2)) as [Hh' Hf]; try done.
  { intros b [?|?]%elem_of_app; [by apply Hnf|by apply Hnf2]. }
  split; [|done].
  assert (Hheld : packet s' o a (l ++ l2) (d ++ d2)).
  { split; [done|done|done| | |].
    - rewrite <- (app_nil_r (l ++ l2)). apply (of_pool_kept s s' o (l ++ l2) a [] free); [by eapply keeps_concat| | |apply (hp_alloc _ _ Hh)|by intros b ?%elem_of_nil].
      + intros b [?|?]%elem_of_app; [by apply P4|by apply Q4].
      + by rewrite app_nil_r.
    - rewrite A2, <- Hz, <- Hl2, P5, Q5. done.
    - rewrite A6, P6, Q6. simpl. f_equal. rewrite length_app. rewrite u16_small; [lia|].
      pose proof (chain_data_bound s l a P2 P4). pose proof (chain_data_bound s l2 a2 Q2 Q4). rewrite P5 in *. rewrite Q5 in *.
      pose proof (blocks_bound (l ++ l2) Hnd) as Hbl. rewrite length_app in Hbl.
      pose proof (hp_cap _ _ Hh). pose proof (ao_len _ _ _ (hp_alloc _ _ Hh)).
      assert (Hle : (length l + length l2 <= length BL)%nat).
      2:{ apply inj_le, (Z.mul_le_mono_nonneg_r _ _ (omp_databuf_len (omp_of s o))) in Hle; lia. }
      apply Hbl. intros b [?|?]%elem_of_app; auto. }
  split; [done|]. intros b [?|?]%elem_of_app; auto.
Qed.

(** ** Headers in front of the data *)

(** The bytes that fit in front of the data of the first mbuf. *)
Definition room (s : bst) (a : Z) : Z :=
  match mbufs s !! a with Some m => OS_MBUF_LEADINGSPACE m | None => 0 end.

Lemma leading_space s m : mbuf_ok s m → OS_MBUF_IS_PKTHDR m = true → OS_MBUF_LEADINGSPACE m = om_off m - om_pkthdr_len m.
Proof.
  intros [H1 H2 H3 H4 H5 [H6 H7]] Hh. unfold OS_MBUF_LEADINGSPACE. rewrite Hh.
  specialize (H7 Hh). apply u16_small. lia.
Qed.

Lemma take_drop_splice_front off bytes (buf : list Z) n :
  (length bytes <= off)%nat → (off <= length buf)%nat →
  take (length bytes + n) (drop (off - length bytes) (splice (off - length bytes) bytes buf)) =
    bytes ++ take n (drop off buf).
Proof.
  intros H1 H2. unfold splice. rewrite drop_app_length' by (rewrite length_take; lia).
  rewrite take_app_add. by replace (off - length bytes + length bytes)%nat with off by lia.
Qed.

(** The header [m] after [os_mbuf_prepend] and the copy of [bytes] to [om_data]. *)
Definition with_header (bytes : list Z) (m : os_mbuf) : os_mbuf :=
  let n := Z.of_nat (length bytes) in
  let m1 := set_pktlen (OS_MBUF_PKTLEN m + n) (set_om_len (u16 (om_len m + n)) (set_om_off (om_off m - n) m)) in
  set_om_databuf (splice (Z.to_nat (om_off m - n)) bytes (om_databuf m1)) m1.

Lemma with_header_ok s m bytes :
  mbuf_ok s m → OS_MBUF_IS_PKTHDR m = true → Z.of_nat (length bytes) <= om_off m - om_pkthdr_len m →
  mbuf_ok s (with_header bytes m) ∧ om_bytes (with_header bytes m) = bytes ++ om_bytes m ∧
  OS_MBUF_PKTLEN (with_header bytes m) = u16 (OS_MBUF_PKTLEN m + Z.of_nat (length bytes)).
Proof.
  intros [H1 H2 H3 H4 H5 [H6 H7]] Hh Hn. specialize (H7 Hh).
  unfold OS_MBUF_IS_PKTHDR, sizeof_os_mbuf_pkthdr in Hh. apply Z.leb_le in Hh.
  set (v := OS_MBUF_PKTLEN m + _).
  assert (Hb : length (splice 0 [u16 v mod 256; u16 v / 256] (om_databuf m)) = length (om_databuf m)).
  { apply length_splice. simpl. lia. }
  split_and!.
  - split; unfold with_header; cbn -[u16 splice omp_of]; rewrite ?u16_small by lia; try lia.
    fold v. rewrite length_splice; rewrite Hb; [done|lia].
  - unfold with_header, om_bytes; cbn -[u16 splice]. rewrite u16_small by lia.
    replace (Z.to_nat (om_len m + Z.of_nat (length bytes))) with (length bytes + Z.to_nat (om_len m))%nat by lia.
    replace (Z.to_nat (om_off m - Z.of_nat (length bytes))) with (Z.to_nat (om_off m) - length bytes)%nat by lia.
    fold v. rewrite take_drop_splice_front by (rewrite ?Hb; lia). rewrite drop_splice_before; [done|simpl; lia..].
  - unfold with_header, OS_MBUF_PKTLEN at 1. cbn -[u16 splice]. fold v.
    destruct (Z.to_nat (om_off m - Z.of_nat (length bytes))) as [|[|k]] eqn:Ek; [lia..|].
    unfold splice. cbn -[u16]. rewrite Z.add_comm. symmetry. apply Z_div_mod_eq_full.
Qed.

(** A header is prepended in place when there is room for it. *)
Lemma prepend_held free s a l d bytes :
  heap_ok free s → held s a l d → 0 < Z.of_nat (length bytes) <= room s a →
  wp (om ← os_mbuf_prepend a (Z.of_nat (length bytes)); m ← mbuf_at om; write_buf om (om_off m) bytes ;; mret om)
    (λ r s', r = a ∧ held s' a l (bytes ++ d) ∧ heap_ok free s' ∧ frame [a] s s' ∧
      room s' a = room s a - Z.of_nat (length bytes)) s.
Proof.
  intros Hh Hd Hn. destruct (held_pktlen _ _ _ _ Hd) as (m & Hm & Hok & Hhdr & Hlen).
  unfold room in Hn. rewrite Hm in Hn. pose proof (leading_space _ _ Hok Hhdr) as Hls.
  destruct (with_header_ok s m bytes Hok Hhdr) as (Hok' & Hbytes & Hpl); [lia|].
  pose proof Hok as [H1 H2 H3 H4 H5 H6].
  unfold os_mbuf_prepend. destruct (Z.to_nat (Z.of_nat (length bytes))) as [|k] eqn:Ek; [lia|].
  cbn [prepend_loop]. wp_simp. eapply wp_mbuf_at; [done|]. cbv zeta. rewrite Z.min_l by lia.
  wp_simp. eapply wp_upd_mbuf; [done|]. intros s1 Hs1 He1.
  wp_simp. eapply wp_upd_mbuf; [by rewrite Hs1, lookup_insert_eq|]. intros s2 Hs2 He2. rewrite Hs1, insert_insert_eq in Hs2.
  rewrite Hhdr. wp_simp. eapply wp_upd_mbuf; [by rewrite Hs2, lookup_insert_eq|]. intros s3 Hs3 He3. rewrite Hs2, insert_insert_eq in Hs3.
  rewrite (proj2 (Z.eqb_eq _ _)) by lia. wp_simp. eapply wp_mbuf_at; [by rewrite Hs3, lookup_insert_eq|].
  wp_simp. eapply wp_write_buf; [by rewrite Hs3, lookup_insert_eq|cbn; lia| |].
  { cbn -[u16 splice]. rewrite length_splice by (simpl; unfold OS_MBUF_IS_PKTHDR, sizeof_os_mbuf_pkthdr in Hhdr; lia). lia. }
  intros s4 Hs4 He4. rewrite Hs3, insert_insert_eq in Hs4. wp_simp.
  change (mbufs s4 = <[a:=with_header bytes m]> (mbufs s)) in Hs4.
  assert (He : same_env s s4) by (destruct He1, He2, He3, He4; split; congruence).
  pose proof (held_head _ _ _ _ Hd) as [l' Hl']. pose proof (λ b, held_not_free _ _ _ _ _ b Hh Hd) as Hnf.
  destruct (heap_env free s s4 [a]) as [Hh' Hf]; [done| | |done|].
  { intros b [Hb _]%not_elem_of_cons. by rewrite Hs4, lookup_insert_ne. }
  { intros b ->%list_elem_of_singleton. apply Hnf. rewrite Hl'. by left. }
  destruct Hd as [[P1 P2 P3 P4 P5 P6] Hb].
  assert (Hl4 : linked s4 a l) by (by eapply (linked_update s); [apply He| | | | |]).
  assert (Hp4 : of_pool s4 o l).
  { intros b Hbl. destruct (P4 b Hbl) as (mb & Hmb & Ho). rewrite Hs4. destruct (decide (b = a)) as [->|Hne].
    - rewrite lookup_insert_eq. eexists. split; [done|]. assert (mb = m) as -> by congruence. done.
    - rewrite lookup_insert_ne by done. eauto. }
  assert (Hd4 : chain_data s4 l = bytes ++ d).
  { rewrite <- P5, Hl', !chain_data_cons. unfold bytes_at at 1 2. rewrite Hs4, lookup_insert_eq, Hm, Hbytes, <- (assoc_L (++)).
    do 2 f_equal. apply chain_data_ext. intros b Hbl. rewrite Hs4, lookup_insert_ne; [done|].
    intros ->. rewrite Hl' in P3. by apply NoDup_cons in P3 as [? _]. }
  split_and!; [done| |done|done|].
  - split; [|done]. split; try done. unfold pktlen_at. rewrite Hs4, lookup_insert_eq. simpl.
    change (OS_MBUF_IS_PKTHDR (with_header bytes m)) with (OS_MBUF_IS_PKTHDR m). rewrite Hhdr, Hpl, Hlen.
    f_equal. rewrite length_app. rewrite u16_small; [lia|].
    pose proof (chain_data_bound s4 l a Hl4 Hp4) as Hle. rewrite Hd4, length_app in Hle.
    pose proof (blocks_bound l P3 Hb) as Hbl. pose proof (hp_cap _ _ Hh'). pose proof (ao_len _ _ _ (hp_alloc _ _ Hh')).
    apply inj_le, (Z.mul_le_mono_nonneg_r _ _ (omp_databuf_len (omp_of s4 o))) in Hbl; lia.
  - unfold room. rewrite Hs4, lookup_insert_eq, Hm. rewrite (leading_space s4), Hls; [cbn; lia|by apply (mbuf_ok_ext s); [apply He|]|done].
Qed.
End held.
