(* ===== verification/OsMqueue.v ===== *)
(** Queues of packets between tasks: [os_mqueue] of libs/os/src/os_mbuf.c.

    A producer links a packet to the queue and posts the event of the queue; the
    consumer waits for the event and takes packets until the queue is empty.  The
    packets are mbufs ([OsMbuf]), the event lives in the kernel ([OsEventq]): this file
    composes the two.  [mqueue_step] is the interleaving of producers, the consumer and
    the rest of the kernel. *)
From Stdlib Require Import ZArith Lia.
From stdpp Require Import base decidable list numbers gmap.
From S2P Require Import Prelude.
From S2P Require Import OsState.
From S2P Require Import OsSched.
From S2P Require Import OsInv.
From S2P Require Import OsEventq.
From S2P Require Import OsMempool.
From S2P Require Import OsMbuf.
From S2P Require Import OsMbufSpec.
From S2P Require Import OsKernel.
From S2P Require Import OsProps.
From S2P Require Import OsMbufProps.

#[local] Open Scope Z_scope.

(** ** Code *)

(** [mq_head]: the mbufs with the linked packet headers.  The event [mq_ev] of queue
    [mq] is [EvQueue mq] of the kernel. *)
Record os_mqueue := mk_mqueue { mq_head : list Z }.
#[export] Instance os_mqueue_inhabited : Inhabited os_mqueue := populate (mk_mqueue []).

Definition OS_EVENT_T_MQUEUE_DATA : Z := 2.

Section mqueue.
Context {S : Type} {AL : Allocator S} {inh : Inhabited S}.

Record qstate := mk_qstate {
  q_kernel : kstate;
  q_bufs : bstate (S := S);
  q_mqueues : gmap nat os_mqueue;
}.

Abbreviation Q := (M qstate) (only parsing).

Definition set_q_kernel (v : kstate) (s : qstate) : qstate := mk_qstate v (q_bufs s) (q_mqueues s).
Definition set_q_bufs (v : bstate) (s : qstate) : qstate := mk_qstate (q_kernel s) v (q_mqueues s).
Definition mqueue_of (s : qstate) (mq : nat) : os_mqueue := q_mqueues s !!! mq.
Definition upd_mqueue (mq : nat) (f : list Z → list Z) (s : qstate) : qstate :=
  mk_qstate (q_kernel s) (q_bufs s) (<[mq := mk_mqueue (f (mq_head (mqueue_of s mq)))]> (q_mqueues s)).

(** Runs an operation of the kernel, of the mbufs. *)
Definition on_kernel {A} (m : K A) : Q A := λ s,
  match m (q_kernel s) with Ret (a, k) => Ret (a, set_q_kernel k s) | Fault f => Fault f end.
Definition on_bufs {A} (m : M bstate A) : Q A := λ s,
  match m (q_bufs s) with Ret (a, b) => Ret (a, set_q_bufs b s) | Fault f => Fault f end.

Definition os_mqueue_init (mq : nat) (arg : Z) : Q Z :=
  modify (upd_mqueue mq (λ _, [])) ;;
  on_kernel (modify (upd_event (EvQueue mq) (λ _, mk_event false 0 0))) ;;
  on_kernel (modify (upd_event (EvQueue mq) (set_ev_arg arg))) ;;
  on_kernel (modify (upd_event (EvQueue mq) (set_ev_type OS_EVENT_T_MQUEUE_DATA))) ;;
  mret 0.

(** The mbuf, or 0. *)
Definition os_mqueue_get (mq : nat) : Q Z :=
  s ← get;
  match mq_head (mqueue_of s mq) with
  | mp :: l => modify (upd_mqueue mq (λ _, l)) ;; mret mp
  | [] => mret 0
  end.

(** A packet can be linked to one queue at a time. *)
Definition packet_queued (s : qstate) (m : Z) : bool :=
  existsb (λ '(_, mq), bool_decide (m ∈ mq_head mq)) (map_to_list (q_mqueues s)).

(** The critical section. *)
Definition mqueue_link (mq : nat) (m : Z) : Q unit :=
  s ← get;
  if packet_queued s m then fault_with FList else modify (upd_mqueue mq (λ l, l ++ [m])).

Definition os_mqueue_put (mq : nat) (evq : option nat) (m : Z) : Q os_error :=
  om ← on_bufs (mbuf_at m);
  if negb (OS_MBUF_IS_PKTHDR om) then mret OS_EINVAL
  else
    mqueue_link mq m ;;
    match evq with
    | Some q => on_kernel (os_eventq_put q (EvQueue mq))
    | None => mret tt
    end ;;
    mret OS_OK.

(** ** Lemmas *)

Lemma wp_on_kernel {A} (m : K A) (P : A → qstate → Prop) s :
  wp m (λ a k, P a (set_q_kernel k s)) (q_kernel s) → wp (on_kernel m) P s.
Proof. unfold wp, on_kernel. by destruct (m (q_kernel s)) as [[a k]|]. Qed.

Lemma wp_on_bufs {A} (m : M bstate A) (P : A → qstate → Prop) s :
  wp m (λ a b, P a (set_q_bufs b s)) (q_bufs s) → wp (on_bufs m) P s.
Proof. unfold wp, on_bufs. by destruct (m (q_bufs s)) as [[a b]|]. Qed.

Lemma mqueue_of_upd s mq f j :
  mqueue_of (upd_mqueue mq f s) j = if decide (mq = j) then mk_mqueue (f (mq_head (mqueue_of s mq))) else mqueue_of s j.
Proof.
  unfold mqueue_of, upd_mqueue. simpl.
  case_decide; subst; [by rewrite lookup_total_insert_eq|by rewrite lookup_total_insert_ne].
Qed.

Lemma packet_queued_true s m : packet_queued s m = true ↔ ∃ mq, m ∈ mq_head (mqueue_of s mq).
Proof.
  unfold packet_queued. rewrite existsb_exists. split.
  - intros ([mq v] & Hin & Hm%bool_decide_eq_true). exists mq. unfold mqueue_of.
    apply list_elem_of_In, elem_of_map_to_list in Hin. by erewrite lookup_total_correct.
  - intros (mq & Hm). unfold mqueue_of, lookup_total, map_lookup_total in Hm.
    destruct (q_mqueues s !! mq) as [v|] eqn:E; simpl in Hm; [|by apply not_elem_of_nil in Hm].
    exists (mq, v). split; [by apply list_elem_of_In, elem_of_map_to_list|]. by apply bool_decide_eq_true.
Qed.

(** ** Interleaving

    Producers, the consumer task of event queue [q] and everything else.  A producer
    can be interrupted between linking its packet and posting the event. *)
Inductive consumer := Waiting | Draining.

Record mq_sys := mk_sys {
  sy_state : qstate;
  sy_posting : nat;       (* producers that have linked and not yet posted *)
  sy_consumer : consumer;
  sy_sent : list Z;       (* the packets put on the queue *)
  sy_received : list Z;   (* the packets the consumer took *)
}.

Definition after_event (mq : nat) (e : evid) : consumer :=
  if decide (e = EvQueue mq) then Draining else Waiting.

Inductive mqueue_step (mq q : nat) : mq_sys → mq_sys → Prop :=
| MS_link s s' n c sent rcv m om :
    mbufs (q_bufs s) !! m = Some om → OS_MBUF_IS_PKTHDR om = true → m ≠ 0 →
    mqueue_link mq m s = Ret (tt, s') →
    mqueue_step mq q (mk_sys s n c sent rcv) (mk_sys s' (Datatypes.S n) c (sent ++ [m]) rcv)
| MS_post s s' n c sent rcv :
    on_kernel (os_eventq_put q (EvQueue mq)) s = Ret (tt, s') →
    mqueue_step mq q (mk_sys s (Datatypes.S n) c sent rcv) (mk_sys s' n c sent rcv)
| MS_event s s' n sent rcv e :
    on_kernel (os_eventq_get q) s = Ret (Some e, s') →
    mqueue_step mq q (mk_sys s n Waiting sent rcv) (mk_sys s' n (after_event mq e) sent rcv)
| MS_take s s' n sent rcv m :
    os_mqueue_get mq s = Ret (m, s') → m ≠ 0 →
    mqueue_step mq q (mk_sys s n Draining sent rcv) (mk_sys s' n Draining sent (rcv ++ [m]))
| MS_empty s s' n sent rcv :
    os_mqueue_get mq s = Ret (0, s') →
    mqueue_step mq q (mk_sys s n Draining sent rcv) (mk_sys s' n Waiting sent rcv)
| MS_other s s' n c sent rcv :
    mq_head (mqueue_of s' mq) = mq_head (mqueue_of s mq) → kinv 1 1 (q_kernel s') →
    (∀ j, EvQueue mq ∈ evq_list (eventq_of (q_kernel s') j) ↔ EvQueue mq ∈ evq_list (eventq_of (q_kernel s) j)) →
    mqueue_step mq q (mk_sys s n c sent rcv) (mk_sys s' n c sent rcv).

Definition event_posted (s : qstate) (mq q : nat) : Prop :=
  EvQueue mq ∈ evq_list (eventq_of (q_kernel s) q).

Record mq_inv (mq q : nat) (y : mq_sys) : Prop := {
  mi_kernel : kinv 1 1 (q_kernel (sy_state y));
  mi_order : sy_sent y = sy_received y ++ mq_head (mqueue_of (sy_state y) mq);
  mi_target : ∀ j, event_posted (sy_state y) mq j → j = q;
  mi_nonzero : 0 ∉ mq_head (mqueue_of (sy_state y) mq);
  mi_awake : mq_head (mqueue_of (sy_state y) mq) ≠ [] →
    (0 < sy_posting y)%nat ∨ sy_consumer y = Draining ∨ event_posted (sy_state y) mq q;
}.

Lemma kernel_post lo_s lo_c q mq k :
  kinv lo_s lo_c k → wp (os_eventq_put q (EvQueue mq)) (λ _ k', kinv lo_s lo_c k' ∧ put_post q (EvQueue mq) k k') k.
Proof. intros H. apply os_eventq_put2_spec; [done|]. by intros c. Qed.

Lemma kernel_post_run lo_s lo_c q mq k :
  kinv lo_s lo_c k → ∃ k', os_eventq_put q (EvQueue mq) k = Ret (tt, k') ∧ kinv lo_s lo_c k' ∧ put_post q (EvQueue mq) k k'.
Proof. intros H. apply (kernel_post lo_s lo_c q mq), wp_run in H as ([] & k' & ? & ?). by exists k'. Qed.

(** Posting leaves the event on some queue: on [q] unless it was on another one. *)
Lemma put_posted q mq k k' j :
  kinv 1 1 k → put_post q (EvQueue mq) k k' →
  EvQueue mq ∈ evq_list (eventq_of k' j) →
  EvQueue mq ∈ evq_list (eventq_of k j) ∨ j = q.
Proof.
  intros Hk. unfold put_post. destruct (ev_queued _); [intros ->; by left|].
  intros (F & Hq & _) Hj. destruct (decide (j = q)); [by right|]. left. by rewrite (pf_eventq _ _ _ F) in Hj.
Qed.

Lemma put_posts q mq k k' :
  kinv 1 1 k → put_post q (EvQueue mq) k k' → ∃ j, EvQueue mq ∈ evq_list (eventq_of k' j).
Proof.
  intros [Hk _]. unfold put_post. destruct (ev_queued _) eqn:E.
  - intros ->. by apply (ev_iff _ (ki_ev _ _ _ Hk)).
  - intros (_ & Hq & _). exists q. rewrite Hq. simpl. set_solver.
Qed.

Lemma eventq_get_event q e k k' :
  os_eventq_get q k = Ret (Some e, k') → ∃ l, evq_list (eventq_of k q) = e :: l.
Proof.
  unfold os_eventq_get, mbind, M_bind, get. destruct (evq_list (eventq_of k q)) as [|e' l]; simpl.
  - repeat case_match; intros; simplify_eq.
  - rewrite decide_True by done. unfold modify, mret, M_ret, from_option_fault. simpl.
    intros [= -> _]. eauto.
Qed.

Lemma os_mqueue_get_run s mq :
  os_mqueue_get mq s =
    Ret (match mq_head (mqueue_of s mq) with mp :: l => (mp, upd_mqueue mq (λ _, l) s) | [] => (0, s) end).
Proof. unfold os_mqueue_get, mbind, M_bind, get. by destruct (mq_head _). Qed.

Lemma mq_inv_step mq q y y' : mq_inv mq q y → mqueue_step mq q y y' → mq_inv mq q y'.
Proof.
  intros Hi Hs. destruct Hs as [s s' n c sent rcv m om Hm Hp Hnz Hl|s s' n c sent rcv Hl|s s' n sent rcv e Hl|
    s s' n sent rcv m Hl Hnz|s s' n sent rcv Hl|s s' n c sent rcv Hh Hk Hev];
    destruct Hi as [Hk0 Ho Ht Hz Ha]; simpl in *.
  - unfold mqueue_link, mbind, M_bind, get in Hl. destruct (packet_queued s m); [done|].
    injection Hl as <-. split; simpl; try done.
    + rewrite mqueue_of_upd, decide_True by done. simpl. by rewrite Ho, app_assoc.
    + rewrite mqueue_of_upd, decide_True by done. simpl. set_solver.
    + left. lia.
  - pose proof (kernel_post 1 1 q mq _ Hk0) as Hw. unfold wp in Hw. unfold on_kernel in Hl.
    destruct (os_eventq_put q (EvQueue mq) (q_kernel s)) as [[[] k']|]; [|done]. injection Hl as <-.
    destruct Hw as [Hk' Hput].
    assert (Htgt : ∀ j, EvQueue mq ∈ evq_list (eventq_of k' j) → j = q).
    { intros j Hj. destruct (put_posted _ _ _ _ _ Hk0 Hput Hj); [by apply Ht|done]. }
    split; try done. intros _. right. right. destruct (put_posts _ _ _ _ Hk0 Hput) as (j & Hj).
    by rewrite <- (Htgt j Hj).
  - unfold on_kernel in Hl. destruct (os_eventq_get q (q_kernel s)) as [[r k']|] eqn:Hg; [|done].
    injection Hl as -> <-. destruct (eventq_get_event _ _ _ _ Hg) as (l & Hlist).
    destruct (os_eventq_get_some 1 1 q e l _ Hk0 Hlist) as [Hg' Hk']. rewrite Hg in Hg'. injection Hg' as ->.
    assert (Hin : ∀ j, EvQueue mq ∈ evq_list (eventq_of (dequeue_st q e l (q_kernel s)) j) →
      EvQueue mq ∈ evq_list (eventq_of (q_kernel s) j)).
    { intros j. rewrite dequeue_st_eventq. case_decide as Hj; [|done]. subst j. rewrite Hlist. by right. }
    split; try done; simpl.
    + intros j Hj. by apply Ht, Hin.
    + intros Hne. unfold after_event. destruct (decide (e = EvQueue mq)) as [|Hnq]; [by auto|].
      destruct (Ha Hne) as [?|[?|Hp]]; [by auto|done|]. right. right. unfold event_posted in *. simpl.
      rewrite dequeue_st_eventq, decide_True by done. rewrite Hlist in Hp. set_solver.
  - rewrite os_mqueue_get_run in Hl. destruct (mq_head (mqueue_of s mq)) as [|mp l] eqn:Hq; [by simplify_eq|].
    injection Hl as -> <-. split; try done; simpl; rewrite ?mqueue_of_upd, ?decide_True by done; simpl.
    + by rewrite Ho, <- app_assoc.
    + set_solver.
    + auto.
  - rewrite os_mqueue_get_run in Hl. destruct (mq_head (mqueue_of s mq)) as [|mp l] eqn:Hq.
    + injection Hl as <-. split; simpl; rewrite ?Hq; done.
    + injection Hl as -> _. set_solver.
  - split; simpl; rewrite ?Hh; try done.
    + intros j Hj. by apply Ht, Hev.
    + intros Hne. destruct (Ha Hne) as [?|[?|?]]; auto. right. right. by apply Hev.
Qed.

(** ** Properties *)

(** A queue that nobody has used yet. *)
Definition mq_initial (mq q : nat) (s : qstate) : Prop :=
  kinv 1 1 (q_kernel s) ∧ mq_head (mqueue_of s mq) = [] ∧ (∀ j, event_posted s mq j → j = q).

(** C16. No packet is lost, duplicated or reordered, and no wake-up is lost: in every
    interleaving of producers, the consumer and the rest of the kernel, the packets
    sent are those received followed by those on the queue; when no producer is in the
    middle of a put, the consumer waits for an event and the event of the queue is not
    posted, then everything sent was received; and a producer that has linked its
    packet can always post the event. *)
Theorem mqueue_no_lost_packets mq q s y :
  mq_initial mq q s → rtc (mqueue_step mq q) (mk_sys s 0 Waiting [] []) y →
  sy_sent y = sy_received y ++ mq_head (mqueue_of (sy_state y) mq) ∧
  (sy_posting y = 0%nat → sy_consumer y = Waiting → ¬ event_posted (sy_state y) mq q →
   sy_received y = sy_sent y) ∧
  wp (on_kernel (os_eventq_put q (EvQueue mq))) (λ _ _, True) (sy_state y).
Proof.
  intros (Hk & Hh & Hev) Hrtc.
  assert (mq_inv mq q y) as [Ik Io It Iz Ia].
  { assert (Hi : mq_inv mq q (mk_sys s 0 Waiting [] [])).
    { split; simpl; rewrite ?Hh; try done. set_solver. }
    clear -Hrtc Hi. induction Hrtc; eauto using mq_inv_step. }
  split_and!; [done| |].
  - intros Hp Hc Hn. rewrite Io. destruct (mq_head (mqueue_of (sy_state y) mq)); [by rewrite app_nil_r|].
    destruct Ia as [?|[?|?]]; [done|lia|congruence|done].
  - apply wp_on_kernel. eapply wp_mono; [by apply (kernel_post 1 1)|done].
Qed.

(** A put of a packet. *)
Lemma os_mqueue_put_ok s mq evq m om :
  kinv 1 1 (q_kernel s) → mbufs (q_bufs s) !! m = Some om → packet_queued s m = false →
  OS_MBUF_IS_PKTHDR om = true →
  wp (os_mqueue_put mq evq m) (λ rc s', rc = OS_OK ∧ kinv 1 1 (q_kernel s') ∧ q_bufs s' = q_bufs s ∧
    (∀ j, mqueue_of s' j = if decide (mq = j) then mk_mqueue (mq_head (mqueue_of s mq) ++ [m]) else mqueue_of s j) ∧
    match evq with
    | Some q => put_post q (EvQueue mq) (q_kernel s) (q_kernel s')
    | None => q_kernel s' = q_kernel s
    end) s.
Proof.
  intros Hk Hm Hq Hh. unfold os_mqueue_put. wp_step. apply wp_on_bufs, (wp_mbuf_at _ _ om); [done|].
  replace (set_q_bufs (q_bufs s) s) with s by (by destruct s). rewrite Hh. cbn [negb].
  wp_step. unfold mqueue_link. wp_simp. rewrite Hq. wp_simp. set (s1 := upd_mqueue mq _ s).
  assert (Hj : ∀ k' j, mqueue_of (set_q_kernel k' s1) j =
    if decide (mq = j) then mk_mqueue (mq_head (mqueue_of s mq) ++ [m]) else mqueue_of s j)
    by (intros k' j; apply mqueue_of_upd).
  destruct evq as [q|].
  - apply wp_on_kernel. eapply wp_mono; [by apply (kernel_post 1 1)|]. intros _ k' [Hk' Hput]. wp_simp.
    by split_and!.
  - wp_simp. split_and!; try done. exact (Hj (q_kernel s)).
Qed.

(** [os_mqueue_put] refuses an mbuf without a packet header and changes nothing;
    otherwise it links the packet at the end of the queue and, if an event queue is
    given, posts the event of the queue there once: the kernel stays in its invariant
    and changes as [os_eventq_put] says ([put_post]).  [os_mqueue_get] returns the
    packets in the order of the puts. *)
Theorem mqueue_put_effect s mq evq m om :
  kinv 1 1 (q_kernel s) → mbufs (q_bufs s) !! m = Some om → packet_queued s m = false →
  wp (os_mqueue_put mq evq m) (λ rc s',
    if OS_MBUF_IS_PKTHDR om then
      rc = OS_OK ∧ kinv 1 1 (q_kernel s') ∧ q_bufs s' = q_bufs s ∧
      mq_head (mqueue_of s' mq) = mq_head (mqueue_of s mq) ++ [m] ∧
      (∀ j, j ≠ mq → mqueue_of s' j = mqueue_of s j) ∧
      match evq with
      | Some q => put_post q (EvQueue mq) (q_kernel s) (q_kernel s')
      | None => q_kernel s' = q_kernel s
      end ∧
      os_mqueue_get mq s' = Ret (match mq_head (mqueue_of s mq) with
        | [] => (m, upd_mqueue mq (λ _, []) s')
        | mp :: l => (mp, upd_mqueue mq (λ _, l ++ [m]) s')
        end)
    else rc = OS_EINVAL ∧ s' = s) s.
Proof.
  intros Hk Hm Hq. destruct (OS_MBUF_IS_PKTHDR om) eqn:Hh.
  - eapply wp_mono; [by eapply os_mqueue_put_ok|]. intros rc s' (-> & Hk' & Hb & Hj & He).
    assert (E : mq_head (mqueue_of s' mq) = mq_head (mqueue_of s mq) ++ [m]) by by rewrite Hj, decide_True.
    split_and!; try done.
    + intros j ?. by rewrite Hj, decide_False.
    + rewrite os_mqueue_get_run, E. by destruct (mq_head (mqueue_of s mq)).
  - unfold os_mqueue_put. wp_step. apply wp_on_bufs, (wp_mbuf_at _ _ om); [done|].
    replace (set_q_bufs (q_bufs s) s) with s by (by destruct s). rewrite Hh. by wp_simp.
Qed.
End mqueue.
Arguments qstate S : clear implicits.

(** *** On a concrete system *)

#[local] Instance demo_allocator' : Allocator pstate := mempool_allocator 0.

(** The packet of [OsMbufProps.demo_s] and the kernel of [OsProps.demo]. *)
Definition demo_q : qstate pstate := mk_qstate (ks demo) demo_s ∅.

(** Its first mbuf. *)
Definition demo_first : os_mbuf := Eval vm_compute in default (mk_mbuf 0 0 0 0 0 0 []) (mbufs demo_s !! 4096).

Lemma demo_q_flag : ev_queued (event_of (ks demo) (EvQueue 0)) = false.
Proof. by vm_compute. Qed.
Lemma demo_q_list : evq_list (eventq_of (ks demo) 5) = [].
Proof. by vm_compute. Qed.

(** The kernel state is not to be computed in proofs about it. *)
#[local] Opaque demo.

Lemma demo_q_initial : mq_initial 0 5 demo_q.
Proof.
  split_and!; [exact (proj1 demo_minv)|done|]. intros j Hj. exfalso.
  pose proof (proj1 demo_minv) as [Hk _]. unfold event_posted in Hj.
  change (q_kernel demo_q) with (ks demo) in Hj.
  assert (Hq : ∃ j, EvQueue 0 ∈ evq_list (eventq_of (ks demo) j)) by (exists j; exact Hj).
  apply (ev_iff _ (ki_ev _ _ _ Hk)) in Hq.
  rewrite demo_q_flag in Hq. discriminate.
Qed.

(** A producer links the packet and posts the event, the consumer gets the event, takes
    the packet and finds the queue empty. *)
Lemma demo_q_run : ∃ s', rtc (mqueue_step 0 5) (mk_sys demo_q 0 Waiting [] []) (mk_sys s' 0 Waiting [4096] [4096]) ∧
  ¬ event_posted s' 0 5.
Proof.
  pose proof (proj1 demo_minv) as Hk. destruct (kernel_post_run 1 1 5 0 _ Hk) as (k1 & E1 & Hk1 & Hput). unfold put_post in Hput. rewrite demo_q_flag in Hput.
  destruct Hput as (_ & Hq & _). rewrite demo_q_list in Hq. cbn [app] in Hq.
  destruct (os_eventq_get_some 1 1 5 (EvQueue 0) [] k1 Hk1) as [E2 Hk2]; [by rewrite Hq|].
  set (s1 := upd_mqueue 0 (λ l, l ++ [4096]) demo_q). set (k2 := dequeue_st 5 (EvQueue 0) [] k1) in *.
  exists (upd_mqueue 0 (λ _, []) (set_q_kernel k2 s1)). split.
  - eapply rtc_l; [eapply (MS_link 0 5 demo_q s1 0 Waiting [] [] 4096); [by vm_compute|done|done|done]|].
    eapply rtc_l; [apply (MS_post 0 5 s1 (set_q_kernel k1 s1)); unfold on_kernel; change (q_kernel s1) with (ks demo); by rewrite E1|].
    eapply rtc_l; [apply (MS_event 0 5 _ (set_q_kernel k2 s1) 0 _ _ (EvQueue 0)); unfold on_kernel; change (q_kernel (set_q_kernel k1 s1)) with k1; by rewrite E2|].
    eapply rtc_l; [eapply (MS_take 0 5 _ _ 0 _ [] 4096); [by rewrite os_mqueue_get_run|done]|].
    apply rtc_once. apply MS_empty. by rewrite os_mqueue_get_run.
  - unfold event_posted. simpl. unfold k2. rewrite dequeue_st_eventq. simpl. by apply not_elem_of_nil.
Qed.

Lemma mqueue_no_lost_packets_witness : ∃ s',
  rtc (mqueue_step 0 5) (mk_sys demo_q 0 Waiting [] []) (mk_sys s' 0 Waiting [4096] [4096]) ∧
  [4096] = [4096] ++ mq_head (mqueue_of s' 0) ∧
  (0%nat = 0%nat → Waiting = Waiting → ¬ event_posted s' 0 5 → [4096] = [4096]) ∧
  wp (on_kernel (os_eventq_put 5 (EvQueue 0))) (λ _ _, True) s'.
Proof.
  destruct demo_q_run as (s' & Hrun & _). exists s'. split; [exact Hrun|].
  exact (mqueue_no_lost_packets 0 5 demo_q _ demo_q_initial Hrun).
Defined.

Lemma mqueue_put_effect_witness :
  wp (os_mqueue_put 0 (Some 5%nat) 4096) (λ rc s',
      rc = OS_OK ∧ kinv 1 1 (q_kernel s') ∧ q_bufs s' = q_bufs demo_q ∧
      mq_head (mqueue_of s' 0) = [4096] ∧ (∀ j, j ≠ 0%nat → mqueue_of s' j = mqueue_of demo_q j) ∧
      put_post 5 (EvQueue 0) (q_kernel demo_q) (q_kernel s') ∧
      os_mqueue_get 0 s' = Ret (4096, upd_mqueue 0 (λ _, []) s')) demo_q.
Proof.
  apply (mqueue_put_effect demo_q 0 (Some 5%nat) 4096 demo_first);
    [exact (proj1 demo_minv)|reflexivity|reflexivity].
Defined.
