(* ===== verification/Base64.v ===== *)
(** Base64: libs/util/src/base64.c.

    Strings are lists of character codes without the terminating NUL, which the
    encoder writes and the decoder stops at; [unsigned int] wraps at 32 bits. *)
From Stdlib Require Import ZArith Lia Ascii String.
From stdpp Require Import base decidable numbers list.
From S2P Require Import Prelude.

#[local] Open Scope Z_scope.

(** ** Code *)

Definition chars_of (s : string) : list Z := (λ c, Z.of_N (N_of_ascii c)) <$> list_ascii_of_string s.

Definition base64_chars : list Z :=
  Eval vm_compute in chars_of "ABCDEFGHIJKLMNOPQRSTUVWXYZabcdefghijklmnopqrstuvwxyz0123456789+/".
Definition PAD : Z := 61.   (* '=' *)

Fixpoint pos_loop (p : list Z) (i c : Z) : Z :=
  match p with
  | [] => -1
  | d :: p => if d =? c then i else pos_loop p (i + 1) c
  end.
Definition pos (c : Z) : Z := pos_loop base64_chars 0 c.

(** [base64_chars[i]], which the encoder uses with [i < 64] only. *)
Definition char_at (i : Z) : Z := nth (Z.to_nat i) base64_chars 0.
Definition byte_at (q : list Z) (i : Z) : Z := nth (Z.to_nat i) q 0.

(** The four characters for the 24 bits of [c]. *)
Definition quad (c : Z) : list Z :=
  [char_at (Z.shiftr (Z.land c 0x00fc0000) 18);
   char_at (Z.shiftr (Z.land c 0x0003f000) 12);
   char_at (Z.shiftr (Z.land c 0x00000fc0) 6);
   char_at (Z.shiftr (Z.land c 0x0000003f) 0)].

(** The [while] loop: [i] and what was written so far.  Every round advances [i]. *)
Fixpoint encode_loop (fuel : nat) (q : list Z) (size i : Z) (p : list Z) : Z * list Z :=
  match fuel with
  | O => (i, p)
  | S fuel =>
      if i <? size then
        let c := byte_at q i in
        let i := i + 1 in
        let c := c * 256 in
        let c := if i <? size then c + byte_at q i else c in
        let i := i + 1 in
        let c := c * 256 in
        let c := if i <? size then c + byte_at q i else c in
        let i := i + 1 in
        encode_loop fuel q size i (p ++ quad c)
      else (i, p)
  end.

(** The string written to [s], whose length is the result. *)
Definition base64_encode (data : list Z) (should_pad : bool) : list Z :=
  let size := Z.of_nat (length data) in
  let '(i, p) := encode_loop (S (length data)) data size 0 [] in
  match p with
  | [] => []
  | _ =>
      let diff := i - size in
      if 0 <? diff then
        let body := take (length p - Z.to_nat diff)%nat p in
        if should_pad then body ++ replicate (Z.to_nat diff) PAD else body
      else p
  end.

(** The characters written to [buf], whose number is the result. *)
Definition base64_pad (len : Z) : list Z :=
  let remainder := Z.rem len 4 in
  if remainder =? 0 then [] else replicate (Z.to_nat (4 - remainder)) PAD.

Definition DECODE_ERROR : Z := u32 (-1).

(** The [for] loop over the token: [None] is the early [return DECODE_ERROR]. *)
Fixpoint token_loop (token : list Z) (val marker : Z) : option (Z * Z) :=
  match token with
  | [] => Some (val, marker)
  | t :: token =>
      let val := u32 (val * 64) in
      if t =? PAD then token_loop token val (marker + 1)
      else if 0 <? marker then None
      else token_loop token (u32 (val + pos t)) marker
  end.

Definition token_decode (token : list Z) : Z :=
  if (length token <? 4)%nat then DECODE_ERROR
  else match token_loop (take 4 token) 0 0 with
       | None => DECODE_ERROR
       | Some (val, marker) =>
           if 2 <? marker then DECODE_ERROR else Z.lor (Z.shiftl marker 24) val
       end.

(** The bytes of one token. *)
Definition token_bytes (val : Z) : list Z :=
  let marker := Z.land (Z.shiftr val 24) 0xff in
  [Z.land (Z.shiftr val 16) 0xff] ++
  (if marker <? 2 then [Z.land (Z.shiftr val 8) 0xff] else []) ++
  (if marker <? 1 then [Z.land val 0xff] else []).

Fixpoint decode_loop (fuel : nat) (p q : list Z) : option (list Z) :=
  match fuel with
  | O => Some q
  | S fuel =>
      match p with
      | [] => Some q
      | c :: _ =>
          if (c =? PAD) || bool_decide (c ∈ base64_chars) then
            let val := token_decode p in
            if val =? DECODE_ERROR then None
            else decode_loop fuel (drop 4 p) (q ++ token_bytes val)
          else Some q
      end
  end.

(** The bytes written to [data], whose number is the result; [None] is -1. *)
Definition base64_decode (str : list Z) : option (list Z) := decode_loop (length str) str [].

(** ** Reference encoding *)

(** RFC 4648: groups of three bytes. *)
Fixpoint encode_ref (pad : list Z) (data : list Z) : list Z :=
  match data with
  | [] => []
  | [a] => take 2 (quad (a * 65536)) ++ pad ++ pad
  | [a; b] => take 3 (quad (a * 65536 + b * 256)) ++ pad
  | a :: b :: c :: rest => quad (a * 65536 + b * 256 + c) ++ encode_ref pad rest
  end.

(** Induction in steps of three elements. *)
Lemma list_ind3 (P : list Z → Prop) :
  P [] → (∀ a, P [a]) → (∀ a b, P [a; b]) → (∀ a b c l, P l → P (a :: b :: c :: l)) → ∀ l, P l.
Proof.
  intros H0 H1 H2 H3. fix IH 1. intros [|a [|b [|c l]]]; [done|apply H1|apply H2|]. apply H3, IH.
Qed.

(** The rounds of the loop, by groups. *)
Fixpoint raw_ref (data : list Z) : list Z :=
  match data with
  | [] => []
  | [a] => quad (a * 65536)
  | [a; b] => quad (a * 65536 + b * 256)
  | a :: b :: c :: rest => quad (a * 65536 + b * 256 + c) ++ raw_ref rest
  end.
Definition groups_end (n : Z) : Z := (n + 2) / 3 * 3.

Lemma byte_at_app pre l i : 0 <= i → byte_at (pre ++ l) (Z.of_nat (length pre) + i) = byte_at l i.
Proof.
  intros Hi. unfold byte_at. rewrite app_nth2 by lia. f_equal. lia.
Qed.

(** Decides the comparisons that arithmetic settles. *)
Ltac ltb_lia :=
  repeat match goal with |- context [?a <? ?b] =>
    first [rewrite (proj2 (Z.ltb_lt a b)) by lia | rewrite (proj2 (Z.ltb_ge a b)) by lia] end.

Lemma encode_loop_spec l : ∀ pre fuel p,
  (length l < fuel)%nat →
  encode_loop fuel (pre ++ l) (Z.of_nat (length (pre ++ l))) (Z.of_nat (length pre)) p =
    (Z.of_nat (length pre) + groups_end (Z.of_nat (length l)), p ++ raw_ref l).
Proof.
  induction l as [|a|a b|a b c l IH] using list_ind3; intros pre fuel p Hfuel;
    destruct fuel as [|fuel]; try (simpl in Hfuel; lia); rewrite length_app.
  - cbn [encode_loop length]. ltb_lia. rewrite app_nil_r. simpl. f_equal.
    change (groups_end (Z.of_nat 0)) with 0. lia.
  - cbn [encode_loop length]. ltb_lia.
    destruct fuel as [|fuel]; cbn [encode_loop]; ltb_lia;
      (f_equal; [change (groups_end (Z.of_nat _)) with 3; lia|]; f_equal; cbn [raw_ref]; f_equal;
       rewrite <- (Z.add_0_r (Z.of_nat (length pre))), byte_at_app by lia; unfold byte_at; simpl; lia).
  - cbn [encode_loop length]. ltb_lia.
    destruct fuel as [|fuel]; cbn [encode_loop]; ltb_lia;
      (f_equal; [change (groups_end (Z.of_nat _)) with 3; lia|]; f_equal; cbn [raw_ref]; f_equal;
       rewrite (byte_at_app pre [a; b] 1) by lia;
       rewrite <- (Z.add_0_r (Z.of_nat (length pre))), byte_at_app by lia; unfold byte_at; simpl; lia).
  - cbn [encode_loop length]. ltb_lia.
    specialize (IH (pre ++ [a; b; c]) fuel (p ++ quad (a * 65536 + b * 256 + c))).
    rewrite <- (assoc_L (++)) in IH. cbn [app] in IH. rewrite !length_app in IH. cbn [length] in IH.
    replace ((byte_at (pre ++ a :: b :: c :: l) (Z.of_nat (length pre)) * 256 +
      byte_at (pre ++ a :: b :: c :: l) (Z.of_nat (length pre) + 1)) * 256 +
      byte_at (pre ++ a :: b :: c :: l) (Z.of_nat (length pre) + 1 + 1)) with (a * 65536 + b * 256 + c).
    2:{ rewrite <- (Z.add_assoc _ 1 1), !byte_at_app by lia.
        rewrite <- (Z.add_0_r (Z.of_nat (length pre))) at 1. rewrite byte_at_app by lia. unfold byte_at. simpl. lia. }
    replace (Z.of_nat (length pre) + 1 + 1 + 1) with (Z.of_nat (length pre + 3)) by lia.
    rewrite IH by (simpl in Hfuel; lia). f_equal.
    + unfold groups_end. replace (Z.of_nat (S (S (S (length l)))) + 2) with (Z.of_nat (length l) + 2 + 1 * 3) by lia.
      rewrite Z.div_add by lia. lia.
    + by rewrite <- (assoc_L (++)).
Qed.

(** How many characters of the last group are padding. *)
Definition missing (data : list Z) : nat := Z.to_nat (groups_end (Z.of_nat (length data)) - Z.of_nat (length data)).

Lemma missing_3 a b c l : missing (a :: b :: c :: l) = missing l.
Proof.
  unfold missing, groups_end. cbn [length].
  replace (Z.of_nat (S (S (S (length l)))) + 2) with (Z.of_nat (length l) + 2 + 1 * 3) by lia.
  rewrite Z.div_add by lia. f_equal. lia.
Qed.

Lemma missing_le l : (missing l <= length (raw_ref l))%nat.
Proof.
  induction l as [|a|a b|a b c l IH] using list_ind3; [simpl; unfold missing, groups_end; simpl; done|vm_compute; lia..|].
  rewrite missing_3. cbn [raw_ref]. rewrite length_app. lia.
Qed.

Lemma trim_raw pad l :
  take (length (raw_ref l) - missing l) (raw_ref l) ++ mjoin (replicate (missing l) pad) = encode_ref pad l.
Proof.
  induction l as [|a|a b|a b c l IH] using list_ind3.
  - done.
  - change (missing [a]) with 2%nat. cbn [raw_ref encode_ref]. simpl. by rewrite app_nil_r.
  - change (missing [a; b]) with 1%nat. cbn [raw_ref encode_ref]. simpl. by rewrite app_nil_r.
  - rewrite missing_3. cbn [raw_ref encode_ref]. pose proof (missing_le l).
    rewrite length_app. rewrite take_app_ge by lia. rewrite <- (assoc_L (++)), <- IH. f_equal. f_equal. f_equal. lia.
Qed.

Lemma mjoin_replicate_singleton n (x : Z) : mjoin (replicate n [x]) = replicate n x.
Proof. induction n as [|n IH]; [done|]. simpl. by rewrite IH. Qed.
Lemma mjoin_replicate_nil n : mjoin (replicate n ([] : list Z)) = [].
Proof. induction n as [|n IH]; [done|]. simpl. by rewrite IH. Qed.

(** The index arithmetic of the encoder implements the encoding by groups. *)
Lemma base64_encode_ref data should_pad :
  base64_encode data should_pad = encode_ref (if should_pad then [PAD] else []) data.
Proof.
  unfold base64_encode. pose proof (encode_loop_spec data [] (S (length data)) []) as Hloop.
  cbn [app length] in Hloop. change (Z.of_nat 0) with 0 in Hloop. rewrite Hloop by lia. rewrite Z.add_0_l.
  destruct (raw_ref data) as [|r raw] eqn:Hraw.
  { destruct data as [|a [|b [|c l]]]; done. }
  rewrite <- Hraw, <- trim_raw. clear Hraw. fold (missing data).
  destruct (Z.ltb_spec 0 (groups_end (Z.of_nat (length data)) - Z.of_nat (length data))) as [H|H].
  - destruct should_pad; [by rewrite mjoin_replicate_singleton|by rewrite mjoin_replicate_nil, app_nil_r].
  - replace (missing data) with 0%nat by (unfold missing; lia). rewrite Nat.sub_0_r, take_ge by lia.
    by rewrite app_nil_r.
Qed.

(** ** Decoding *)

Lemma pos_char_at i : 0 <= i < 64 → pos (char_at i) = i ∧ char_at i ≠ PAD ∧ char_at i ∈ base64_chars.
Proof.
  intros Hi.
  assert (Hall : Forall (λ j, pos (char_at (Z.of_nat j)) = Z.of_nat j ∧ char_at (Z.of_nat j) ≠ PAD ∧
    char_at (Z.of_nat j) ∈ base64_chars) (seq 0 64)) by (apply (bool_decide_unpack _); by vm_compute).
  pose proof (proj1 (Forall_forall _ _) Hall (Z.to_nat i)) as H. cbn beta in H. rewrite Z2Nat.id in H by lia.
  apply H, elem_of_seq. lia.
Qed.

(** A mask of six bits, as arithmetic. *)
Lemma six_bits c n m : 0 <= n → m = Z.shiftl 63 n → Z.shiftr (Z.land c m) n = (c / 2 ^ n) mod 64.
Proof.
  intros Hn ->. rewrite Z.shiftr_land, Z.shiftr_shiftl_l, Z.sub_diag, Z.shiftl_0_r by lia.
  change 63 with (Z.ones 6). by rewrite Z.land_ones, Z.shiftr_div_pow2 by lia.
Qed.

Lemma quad_chars c :
  quad c = [char_at ((c / 262144) mod 64); char_at ((c / 4096) mod 64); char_at ((c / 64) mod 64); char_at (c mod 64)].
Proof.
  unfold quad. rewrite (six_bits c 18), (six_bits c 12), (six_bits c 6), (six_bits c 0) by done.
  by rewrite Z.div_1_r.
Qed.

(** One character of the alphabet. *)
Lemma token_loop_char i token val :
  0 <= i < 64 → 0 <= val → val * 64 + 63 < 4294967296 →
  token_loop (char_at i :: token) val 0 = token_loop token (val * 64 + i) 0.
Proof.
  intros Hi Hv Hb. destruct (pos_char_at i Hi) as (Hpos & Hne & _). cbn [token_loop].
  rewrite (proj2 (Z.eqb_neq _ _)) by done. cbn [Z.ltb Z.compare]. rewrite Hpos, (u32_small (val * 64)) by lia.
  by rewrite u32_small by lia.
Qed.

Lemma lor_marker m v : 0 <= m → 0 <= v < 16777216 → Z.lor (Z.shiftl m 24) v = m * 16777216 + v.
Proof.
  intros Hm Hv. rewrite Z.shiftl_mul_pow2 by lia. change (2 ^ 24) with 16777216.
  rewrite <- Z.add_nocarry_lor; [done|]. apply Z.bits_inj'. intros n Hn. rewrite Z.land_spec, Z.bits_0.
  destruct (Z.lt_ge_cases n 24) as [H|H].
  - change 16777216 with (2 ^ 24). by rewrite Z.mul_pow2_bits_low by lia.
  - rewrite (Z.bits_above_log2 v n); [by rewrite andb_false_r|lia|].
    destruct (Z.eq_dec v 0) as [->|Hv0]; [simpl; lia|]. apply Z.log2_lt_pow2; [lia|].
    assert (2 ^ 24 <= 2 ^ n) by (apply Z.pow_le_mono_r; lia). lia.
Qed.

Lemma token_bytes_marker m v :
  0 <= m <= 2 → 0 <= v < 16777216 →
  token_bytes (m * 16777216 + v) =
    take (3 - Z.to_nat m) [v / 65536; v / 256 mod 256; v mod 256].
Proof.
  intros Hm Hv. unfold token_bytes. change 0xff with (Z.ones 8). rewrite !Z.land_ones, !Z.shiftr_div_pow2 by lia.
  change (2 ^ 24) with 16777216. change (2 ^ 16) with 65536. change (2 ^ 8) with 256.
  rewrite Z.div_add_l, (Z.div_small v) by lia. rewrite Z.add_0_r, (Z.mod_small m) by lia.
  replace ((m * 16777216 + v) / 65536) with (m * 256 + v / 65536) by (Z.to_euclidean_division_equations; lia).
  replace ((m * 16777216 + v) / 256) with (m * 256 * 256 + v / 256) by (Z.to_euclidean_division_equations; lia).
  replace (m * 16777216 + v) with (v + m * 65536 * 256) by lia. rewrite Z.mod_add by lia.
  replace (m * 256 + v / 65536) with (v / 65536 + m * 256) by lia. rewrite Z.mod_add by lia.
  replace (m * 256 * 256 + v / 256) with (v / 256 + m * 256 * 256) by lia. rewrite Z.mod_add by lia.
  rewrite (Z.mod_small (v / 65536)) by (Z.to_euclidean_division_equations; lia).
  assert (m = 0 ∨ m = 1 ∨ m = 2) as [->|[->| ->]] by lia; done.
Qed.

(** A token with [m] padding characters stands for its 24-bit value, whose last
    [m] characters are zero. *)
Lemma token_decode_quad v m rest :
  0 <= v < 16777216 → 0 <= m <= 2 → (m = 1 → v mod 64 = 0) → (m = 2 → v mod 4096 = 0) →
  token_decode (take (4 - Z.to_nat m) (quad v) ++ replicate (Z.to_nat m) PAD ++ rest) = m * 16777216 + v.
Proof.
  intros Hv Hm H1 H2. rewrite quad_chars.
  set (p0 := v / 262144 mod 64). set (p1 := v / 4096 mod 64). set (p2 := v / 64 mod 64). set (p3 := v mod 64).
  assert (B : 0 <= p0 < 64 ∧ 0 <= p1 < 64 ∧ 0 <= p2 < 64 ∧ 0 <= p3 < 64)
    by (subst p0 p1 p2 p3; split_and!; apply Z.mod_pos_bound; lia).
  assert (E : ((p0 * 64 + p1) * 64 + p2) * 64 + p3 = v)
    by (subst p0 p1 p2 p3; clear -Hv; Z.to_euclidean_division_equations; lia).
  assert (Hz1 : m = 1 → p3 = 0) by (intros ->; auto).
  assert (Hz2 : m = 2 → p2 = 0 ∧ p3 = 0)
    by (intros ->; specialize (H2 eq_refl); subst p2 p3; clear -H2 Hv; Z.to_euclidean_division_equations; lia).
  clearbody p0 p1 p2 p3. destruct B as (B0 & B1 & B2 & B3).
  assert (Hrun : ∀ token, (∃ x0 x1 x2 x3, token = [x0; x1; x2; x3] ++ rest ∧
      token_loop [x0; x1; x2; x3] 0 0 = Some (v, m)) → token_decode token = m * 16777216 + v).
  { intros token (x0 & x1 & x2 & x3 & -> & Hl). unfold token_decode. cbn [app length Nat.ltb Nat.leb].
    change (take 4 (x0 :: x1 :: x2 :: x3 :: rest)) with [x0; x1; x2; x3]. rewrite Hl.
    rewrite (proj2 (Z.ltb_ge _ _)) by lia. apply lor_marker; lia. }
  apply Hrun. assert (m = 0 ∨ m = 1 ∨ m = 2) as [->|[->| ->]] by lia.
  - exists (char_at p0), (char_at p1), (char_at p2), (char_at p3). split; [done|].
    rewrite !token_loop_char by lia. cbn [token_loop]. do 2 f_equal. lia.
  - exists (char_at p0), (char_at p1), (char_at p2), PAD. split; [done|]. specialize (Hz1 eq_refl).
    rewrite !token_loop_char by lia. cbn [token_loop]. rewrite Z.eqb_refl, u32_small by lia. do 2 f_equal. lia.
  - exists (char_at p0), (char_at p1), PAD, PAD. split; [done|]. destruct (Hz2 eq_refl).
    rewrite !token_loop_char by lia. cbn [token_loop]. rewrite Z.eqb_refl, (u32_small (((0 * 64 + p0) * 64 + p1) * 64)), u32_small by lia.
    do 2 f_equal. lia.
Qed.

Lemma decode_step fuel v m rest q :
  0 <= v < 16777216 → 0 <= m <= 2 → (m = 1 → v mod 64 = 0) → (m = 2 → v mod 4096 = 0) →
  decode_loop (S fuel) (take (4 - Z.to_nat m) (quad v) ++ replicate (Z.to_nat m) PAD ++ rest) q =
    decode_loop fuel rest (q ++ take (3 - Z.to_nat m) [v / 65536; v / 256 mod 256; v mod 256]).
Proof.
  intros Hv Hm H1 H2. cbn [decode_loop].
  assert (Hhd : ∃ tl, take (4 - Z.to_nat m) (quad v) ++ replicate (Z.to_nat m) PAD ++ rest =
    char_at (v / 262144 mod 64) :: tl ∧ drop 4 (char_at (v / 262144 mod 64) :: tl) = rest).
  { rewrite quad_chars. assert (m = 0 ∨ m = 1 ∨ m = 2) as [->|[->| ->]] by lia;
      eexists; (split; [reflexivity|]); by rewrite ?drop_0. }
  destruct Hhd as (tl & Heq & Hdrop). rewrite Heq.
  destruct (pos_char_at (v / 262144 mod 64)) as (_ & _ & Hin); [apply Z.mod_pos_bound; lia|].
  rewrite bool_decide_true, orb_true_r by done. rewrite <- Heq, token_decode_quad by done.
  rewrite (proj2 (Z.eqb_neq _ _)) by (unfold DECODE_ERROR, u32; change (-1 mod 2 ^ 32) with 4294967295; lia).
  rewrite token_bytes_marker, Heq, Hdrop by done. done.
Qed.

Lemma decode_encode_ref data : ∀ fuel q,
  Forall is_byte data → (length (encode_ref [PAD] data) <= fuel)%nat →
  decode_loop fuel (encode_ref [PAD] data) q = Some (q ++ data).
Proof.
  induction data as [|a|a b|a b c l IH] using list_ind3; intros fuel q Hb Hf.
  - cbn [encode_ref]. destruct fuel; by rewrite app_nil_r.
  - apply Forall_cons in Hb as [Ha _]. unfold is_byte in *. destruct fuel as [|fuel]; [simpl in Hf; lia|].
    cbn [encode_ref]. change (take 2 (quad (a * 65536)) ++ [PAD] ++ [PAD]) with
      (take (4 - Z.to_nat 2) (quad (a * 65536)) ++ replicate (Z.to_nat 2) PAD ++ []).
    rewrite decode_step by (lia || (intros; Z.to_euclidean_division_equations; lia)).
    rewrite Z.div_mul by lia. by destruct fuel.
  - rewrite !Forall_cons in Hb. destruct Hb as (Ha & Hb & _). unfold is_byte in *.
    destruct fuel as [|fuel]; [simpl in Hf; lia|].
    cbn [encode_ref]. change (take 3 (quad (a * 65536 + b * 256)) ++ [PAD]) with
      (take (4 - Z.to_nat 1) (quad (a * 65536 + b * 256)) ++ replicate (Z.to_nat 1) PAD ++ []).
    rewrite decode_step by (lia || (intros; Z.to_euclidean_division_equations; lia)).
    replace ((a * 65536 + b * 256) / 65536) with a by (Z.to_euclidean_division_equations; lia).
    replace ((a * 65536 + b * 256) / 256 mod 256) with b by (Z.to_euclidean_division_equations; lia).
    by destruct fuel.
  - rewrite !Forall_cons in Hb. destruct Hb as (Ha & Hb & Hc & Hl). unfold is_byte in *.
    destruct fuel as [|fuel]; [simpl in Hf; lia|]. cbn [encode_ref] in Hf |- *. rewrite length_app in Hf.
    change (quad (a * 65536 + b * 256 + c) ++ encode_ref [PAD] l) with
      (take (4 - Z.to_nat 0) (quad (a * 65536 + b * 256 + c)) ++ replicate (Z.to_nat 0) PAD ++ encode_ref [PAD] l).
    rewrite decode_step by (lia || (intros; Z.to_euclidean_division_equations; lia)).
    replace ((a * 65536 + b * 256 + c) / 65536) with a by (Z.to_euclidean_division_equations; lia).
    replace ((a * 65536 + b * 256 + c) / 256 mod 256) with b by (Z.to_euclidean_division_equations; lia).
    replace ((a * 65536 + b * 256 + c) mod 256) with c by (Z.to_euclidean_division_equations; lia).
    rewrite IH; [|done|simpl in Hf; lia]. by rewrite <- (assoc_L (++)).
Qed.

Lemma length_encode_ref_pad l : Z.of_nat (length (encode_ref [PAD] l)) = groups_end (Z.of_nat (length l)) / 3 * 4.
Proof.
  unfold groups_end. rewrite Z.div_mul by lia.
  induction l as [|a|a b|a b c l IH] using list_ind3; [done..|]. cbn [encode_ref length].
  rewrite length_app, Nat2Z.inj_add, IH.
  replace (Z.of_nat (S (S (S (length l)))) + 2) with (Z.of_nat (length l) + 2 + 1 * 3) by lia.
  rewrite Z.div_add by lia. change (length (quad (a * 65536 + b * 256 + c))) with 4%nat. lia.
Qed.

(** Padding afterwards is the same as padding while encoding. *)
Lemma encode_ref_pad l :
  encode_ref [] l ++ base64_pad (Z.of_nat (length (encode_ref [] l))) = encode_ref [PAD] l.
Proof.
  induction l as [|a|a b|a b c l IH] using list_ind3; [done..|].
  cbn [encode_ref]. rewrite <- (assoc_L (++)), <- IH. f_equal. f_equal. unfold base64_pad.
  rewrite length_app. change (length (quad (a * 65536 + b * 256 + c))) with 4%nat.
  rewrite Nat2Z.inj_add. change (Z.of_nat 4) with 4. rewrite !Z.rem_mod_nonneg by lia.
  replace (4 + Z.of_nat (length (encode_ref [] l))) with (Z.of_nat (length (encode_ref [] l)) + 1 * 4) by lia.
  by rewrite Z.mod_add by lia.
Qed.

(** *** Input that is cut off *)

Lemma in_chars c : c ∈ base64_chars → ∃ i, 0 <= i < 64 ∧ c = char_at i.
Proof.
  intros (i & Hi)%list_elem_of_lookup. pose proof (lookup_lt_Some _ _ _ Hi) as Hlt.
  exists (Z.of_nat i). split; [change (length base64_chars) with 64%nat in Hlt; lia|].
  unfold char_at. rewrite Nat2Z.id. symmetry. by apply nth_lookup_Some.
Qed.

Lemma token_decode_chars x0 x1 x2 x3 rest :
  x0 ∈ base64_chars → x1 ∈ base64_chars → x2 ∈ base64_chars → x3 ∈ base64_chars →
  0 <= token_decode (x0 :: x1 :: x2 :: x3 :: rest) < 16777216.
Proof.
  intros (i0 & H0 & ->)%in_chars (i1 & H1 & ->)%in_chars (i2 & H2 & ->)%in_chars (i3 & H3 & ->)%in_chars.
  unfold token_decode. cbn [length Nat.ltb Nat.leb].
  change (take 4 (?a :: ?b :: ?c :: ?d :: rest)) with [a; b; c; d]. rewrite !token_loop_char by lia.
  cbn [token_loop Z.ltb Z.compare]. rewrite lor_marker by lia. lia.
Qed.

Lemma decode_truncated fuel : ∀ str q,
  Forall (.∈ base64_chars) str → Z.of_nat (length str) mod 4 ≠ 0 → (length str <= fuel)%nat →
  decode_loop fuel str q = None.
Proof.
  induction fuel as [|fuel IH]; intros str q Hall Hlen Hf.
  { destruct str; [done|simpl in Hf; lia]. }
  destruct str as [|x0 str]; [done|]. pose proof Hall as [H0 _]%Forall_cons. cbn [decode_loop].
  rewrite bool_decide_true, orb_true_r by done.
  destruct str as [|x1 [|x2 [|x3 str]]]; [by rewrite Z.eqb_refl..|].
  rewrite !Forall_cons in Hall. destruct Hall as (_ & H1 & H2 & H3 & Hall).
  pose proof (token_decode_chars x0 x1 x2 x3 str H0 H1 H2 H3) as Hr.
  rewrite (proj2 (Z.eqb_neq _ _)) by (unfold DECODE_ERROR, u32; change (-1 mod 2 ^ 32) with 4294967295; lia).
  change (drop 4 (x0 :: x1 :: x2 :: x3 :: str)) with str. cbn [length] in Hf.
  apply IH; [done| |lia]. intros Hz. apply Hlen. cbn [length].
  replace (Z.of_nat (S (S (S (S (length str)))))) with (Z.of_nat (length str) + 1 * 4) by lia.
  by rewrite Z.mod_add by lia.
Qed.

(** ** Properties *)

(** C20. Encoding any bytes, with padding or with the padding added afterwards by
    [base64_pad], and decoding the string returns the bytes; the string has four
    characters for every group of three bytes begun. *)
Theorem base64_roundtrip data :
  Forall is_byte data →
  base64_decode (base64_encode data true) = Some data ∧
  base64_decode (base64_encode data false ++ base64_pad (Z.of_nat (length (base64_encode data false)))) = Some data ∧
  Z.of_nat (length (base64_encode data true)) = groups_end (Z.of_nat (length data)) / 3 * 4.
Proof.
  intros Hb. rewrite !base64_encode_ref, encode_ref_pad, length_encode_ref_pad. unfold base64_decode.
  by rewrite decode_encode_ref.
Qed.

Lemma base64_roundtrip_witness :
  base64_decode (base64_encode [77; 97; 110; 255] true) = Some [77; 97; 110; 255] ∧
  base64_decode (base64_encode [77; 97; 110; 255] false ++
    base64_pad (Z.of_nat (length (base64_encode [77; 97; 110; 255] false)))) = Some [77; 97; 110; 255] ∧
  Z.of_nat (length (base64_encode [77; 97; 110; 255] true)) = groups_end (Z.of_nat (length [77; 97; 110; 255])) / 3 * 4.
Proof. apply (base64_roundtrip [77; 97; 110; 255]). repeat constructor; unfold is_byte; lia. Defined.

(** A string of alphabet characters that was cut off (its length is not a
    multiple of four) is rejected. *)
Theorem base64_rejects_truncated str :
  Forall (.∈ base64_chars) str → Z.of_nat (length str) mod 4 ≠ 0 → base64_decode str = None.
Proof. intros Hall Hlen. by apply decode_truncated. Qed.

Lemma base64_rejects_truncated_witness : base64_decode [84; 87; 70; 117; 84; 87] = None.
Proof.
  apply (base64_rejects_truncated [84; 87; 70; 117; 84; 87]);
    [apply (bool_decide_unpack _); by vm_compute|done].
Defined.
