(* ===== verification/Crc16.v ===== *)
(** CRC-16/CCITT of the flash file system: fs/nffs/src/crc16.c. *)
From Stdlib Require Import ZArith Lia.
From stdpp Require Import base decidable numbers list.
From S2P Require Import Prelude.

#[local] Open Scope Z_scope.

(** ** Code *)

Definition crc16tab : list Z := [
  0x0000; 0x1021; 0x2042; 0x3063; 0x4084; 0x50a5; 0x60c6; 0x70e7;
  0x8108; 0x9129; 0xa14a; 0xb16b; 0xc18c; 0xd1ad; 0xe1ce; 0xf1ef;
  0x1231; 0x0210; 0x3273; 0x2252; 0x52b5; 0x4294; 0x72f7; 0x62d6;
  0x9339; 0x8318; 0xb37b; 0xa35a; 0xd3bd; 0xc39c; 0xf3ff; 0xe3de;
  0x2462; 0x3443; 0x0420; 0x1401; 0x64e6; 0x74c7; 0x44a4; 0x5485;
  0xa56a; 0xb54b; 0x8528; 0x9509; 0xe5ee; 0xf5cf; 0xc5ac; 0xd58d;
  0x3653; 0x2672; 0x1611; 0x0630; 0x76d7; 0x66f6; 0x5695; 0x46b4;
  0xb75b; 0xa77a; 0x9719; 0x8738; 0xf7df; 0xe7fe; 0xd79d; 0xc7bc;
  0x48c4; 0x58e5; 0x6886; 0x78a7; 0x0840; 0x1861; 0x2802; 0x3823;
  0xc9cc; 0xd9ed; 0xe98e; 0xf9af; 0x8948; 0x9969; 0xa90a; 0xb92b;
  0x5af5; 0x4ad4; 0x7ab7; 0x6a96; 0x1a71; 0x0a50; 0x3a33; 0x2a12;
  0xdbfd; 0xcbdc; 0xfbbf; 0xeb9e; 0x9b79; 0x8b58; 0xbb3b; 0xab1a;
  0x6ca6; 0x7c87; 0x4ce4; 0x5cc5; 0x2c22; 0x3c03; 0x0c60; 0x1c41;
  0xedae; 0xfd8f; 0xcdec; 0xddcd; 0xad2a; 0xbd0b; 0x8d68; 0x9d49;
  0x7e97; 0x6eb6; 0x5ed5; 0x4ef4; 0x3e13; 0x2e32; 0x1e51; 0x0e70;
  0xff9f; 0xefbe; 0xdfdd; 0xcffc; 0xbf1b; 0xaf3a; 0x9f59; 0x8f78;
  0x9188; 0x81a9; 0xb1ca; 0xa1eb; 0xd10c; 0xc12d; 0xf14e; 0xe16f;
  0x1080; 0x00a1; 0x30c2; 0x20e3; 0x5004; 0x4025; 0x7046; 0x6067;
  0x83b9; 0x9398; 0xa3fb; 0xb3da; 0xc33d; 0xd31c; 0xe37f; 0xf35e;
  0x02b1; 0x1290; 0x22f3; 0x32d2; 0x4235; 0x5214; 0x6277; 0x7256;
  0xb5ea; 0xa5cb; 0x95a8; 0x8589; 0xf56e; 0xe54f; 0xd52c; 0xc50d;
  0x34e2; 0x24c3; 0x14a0; 0x0481; 0x7466; 0x6447; 0x5424; 0x4405;
  0xa7db; 0xb7fa; 0x8799; 0x97b8; 0xe75f; 0xf77e; 0xc71d; 0xd73c;
  0x26d3; 0x36f2; 0x0691; 0x16b0; 0x6657; 0x7676; 0x4615; 0x5634;
  0xd94c; 0xc96d; 0xf90e; 0xe92f; 0x99c8; 0x89e9; 0xb98a; 0xa9ab;
  0x5844; 0x4865; 0x7806; 0x6827; 0x18c0; 0x08e1; 0x3882; 0x28a3;
  0xcb7d; 0xdb5c; 0xeb3f; 0xfb1e; 0x8bf9; 0x9bd8; 0xabbb; 0xbb9a;
  0x4a75; 0x5a54; 0x6a37; 0x7a16; 0x0af1; 0x1ad0; 0x2ab3; 0x3a92;
  0xfd2e; 0xed0f; 0xdd6c; 0xcd4d; 0xbdaa; 0xad8b; 0x9de8; 0x8dc9;
  0x7c26; 0x6c07; 0x5c64; 0x4c45; 0x3ca2; 0x2c83; 0x1ce0; 0x0cc1;
  0xef1f; 0xff3e; 0xcf5d; 0xdf7c; 0xaf9b; 0xbfba; 0x8fd9; 0x9ff8;
  0x6e17; 0x7e36; 0x4e55; 0x5e74; 0x2e93; 0x3eb2; 0x0ed1; 0x1ef0].

(** The body of the loop; [crc] is a [uint16_t]. *)
Definition crc16_byte (crc b : Z) : Z :=
  u16 (Z.lxor (Z.shiftl crc 8) (nth (Z.to_nat (Z.land (Z.lxor (Z.shiftr crc 8) b) 0x00FF)) crc16tab 0)).

Fixpoint crc16_loop (buf : list Z) (crc : Z) : Z :=
  match buf with
  | [] => crc
  | b :: buf => crc16_loop buf (crc16_byte crc b)
  end.

(** [buf] has the [len] bytes of the C call. *)
Definition crc16_ccitt (initial_crc : Z) (buf : list Z) : Z := crc16_loop buf initial_crc.

(** ** Reference: division by x^16 + x^12 + x^5 + 1, one bit at a time *)

Definition crc_bit (x : Z) : Z :=
  if Z.testbit x 15 then Z.lxor (Z.land (Z.shiftl x 1) 0xFFFF) 0x1021 else Z.land (Z.shiftl x 1) 0xFFFF.

Definition crc_byte_ref (crc b : Z) : Z := Nat.iter 8 crc_bit (Z.lxor crc (Z.shiftl b 8)).

Definition crc_ref (initial_crc : Z) (buf : list Z) : Z := fold_left crc_byte_ref buf initial_crc.


(** ** The table *)

Definition tab (i : Z) : Z := nth (Z.to_nat i) crc16tab 0.

(** Checks a property of all numbers below [n]. *)
Fixpoint all_below (n : nat) (x : Z) (p : Z → bool) : bool :=
  match n with
  | O => true
  | S n => p x && all_below n (x + 1) p
  end.

Lemma all_below_spec n : ∀ x p y,
  all_below n x p = true → x <= y < x + Z.of_nat n → p y = true.
Proof.
  induction n as [|n IH]; intros x p y Hall Hy; [lia|]. simpl in Hall. apply andb_true_iff in Hall as [Hx Hall].
  destruct (decide (y = x)) as [->|Hne]; [done|]. apply (IH (x + 1)); [done|lia].
Qed.

(** Eight division steps shift the low byte up and add the table entry of the high
    byte. *)
Lemma crc_bits_table x :
  is_u16 x → Nat.iter 8 crc_bit x = Z.lxor (Z.shiftl (x mod 256) 8) (tab (x / 256)).
Proof.
  intros Hx. apply Z.eqb_eq.
  refine (all_below_spec (Z.to_nat 65536) 0 (λ x, Nat.iter 8 crc_bit x =? Z.lxor (Z.shiftl (x mod 256) 8) (tab (x / 256))) x _ _);
    [by vm_compute|unfold is_u16 in Hx; rewrite Z2Nat.id; lia].
Qed.

Lemma tab_u16 i : is_byte i → is_u16 (tab i).
Proof.
  intros Hi. assert (H : (0 <=? tab i) && (tab i <? 65536) = true).
  { refine (all_below_spec 256 0 (λ i, (0 <=? tab i) && (tab i <? 65536)) i _ _); [by vm_compute|unfold is_byte in Hi; lia]. }
  apply andb_true_iff in H. unfold is_u16. lia.
Qed.

(** The low bytes of the entries are all different. *)
Lemma tab_low_inj i j : is_byte i → is_byte j → tab i mod 256 = tab j mod 256 → i = j.
Proof.
  intros Hi Hj E. apply Z.eqb_eq.
  assert (H : all_below 256 0 (λ j, negb (tab i mod 256 =? tab j mod 256) || (i =? j)) = true).
  { refine (all_below_spec 256 0 (λ i, all_below 256 0 (λ j, negb (tab i mod 256 =? tab j mod 256) || (i =? j))) i _ _);
      [by vm_compute|unfold is_byte in Hi; lia]. }
  pose proof (all_below_spec 256 0 _ j H) as Hj'. cbn beta in Hj'. rewrite (proj2 (Z.eqb_eq _ _) E) in Hj'.
  apply Hj'. unfold is_byte in Hj. lia.
Qed.

(** ** The step *)

Lemma land_byte x : Z.land x 0x00FF = x mod 256.
Proof. change 0x00FF with (Z.ones 8). by rewrite Z.land_ones by lia. Qed.

Lemma land_lxor_l x y m : Z.land (Z.lxor x y) m = Z.lxor (Z.land x m) (Z.land y m).
Proof.
  apply Z.bits_inj'. intros n _. rewrite !Z.land_spec, !Z.lxor_spec, !Z.land_spec.
  by destruct (Z.testbit x n), (Z.testbit y n), (Z.testbit m n).
Qed.

Lemma lxor_u16 x y : is_u16 x → is_u16 y → is_u16 (Z.lxor x y).
Proof.
  unfold is_u16. intros Hx Hy. rewrite <- (Z.mod_small x 65536), <- (Z.mod_small y 65536) by lia.
  change 65536 with (2 ^ 16). rewrite <- !Z.land_ones by lia. rewrite <- land_lxor_l, Z.land_ones by lia.
  apply Z.mod_pos_bound. lia.
Qed.

Lemma lxor_byte x y : is_byte x → is_byte y → is_byte (Z.lxor x y).
Proof.
  unfold is_byte. intros Hx Hy. rewrite <- (Z.mod_small x 256), <- (Z.mod_small y 256) by lia.
  change 256 with (2 ^ 8). rewrite <- !Z.land_ones by lia. rewrite <- land_lxor_l, Z.land_ones by lia.
  apply Z.mod_pos_bound. lia.
Qed.

(** The step in terms of the two bytes of the checksum. *)
Lemma crc16_byte_split crc b :
  is_u16 crc → is_byte b →
  crc16_byte crc b = Z.lxor (Z.shiftl (crc mod 256) 8) (tab (Z.lxor (crc / 256) b)).
Proof.
  intros Hc Hb. unfold crc16_byte. rewrite land_byte, Z.shiftr_div_pow2 by lia. change (2 ^ 8) with 256.
  assert (Hh : is_byte (crc / 256)) by (unfold is_u16, is_byte in *; Z.to_euclidean_division_equations; lia).
  pose proof (lxor_byte _ _ Hh Hb) as Hx. rewrite (Z.mod_small (Z.lxor _ _)) by done. fold (tab (Z.lxor (crc / 256) b)).
  pose proof (tab_u16 _ Hx) as Ht. unfold u16. rewrite <- Z.land_ones by lia. rewrite land_lxor_l.
  rewrite (Z.land_ones (tab _)) by lia. change (2 ^ 16) with 65536. rewrite (Z.mod_small (tab _)) by done. f_equal.
  rewrite Z.land_ones, !Z.shiftl_mul_pow2 by lia. change (2 ^ 8) with 256. change (2 ^ 16) with (256 * 256).
  by rewrite Z.mul_mod_distr_r by lia.
Qed.

Lemma crc16_byte_u16 crc b : is_u16 crc → is_byte b → is_u16 (crc16_byte crc b).
Proof. intros. apply u16_bound. Qed.

Lemma crc16_byte_is_ref crc b : is_u16 crc → is_byte b → crc16_byte crc b = crc_byte_ref crc b.
Proof.
  intros Hc Hb. unfold crc_byte_ref. rewrite crc16_byte_split by done.
  assert (Hs : is_u16 (Z.shiftl b 8)) by (rewrite Z.shiftl_mul_pow2 by lia; unfold is_u16, is_byte in *; change (2 ^ 8) with 256; lia).
  rewrite crc_bits_table by (by apply lxor_u16). f_equal.
  - f_equal. rewrite <- !land_byte, land_lxor_l, !land_byte.
    rewrite (Z.shiftl_mul_pow2 b), Z.mod_mul by lia. by rewrite Z.lxor_0_r.
  - f_equal. change 256 with (2 ^ 8). rewrite <- !Z.shiftr_div_pow2 by lia.
    rewrite Z.shiftr_lxor, Z.shiftr_shiftl_l, Z.sub_diag, Z.shiftl_0_r by lia. done.
Qed.

(** The step loses no information about the checksum or the byte. *)
Lemma crc16_byte_inj crc crc' b b' :
  is_u16 crc → is_u16 crc' → is_byte b → is_byte b' → crc16_byte crc b = crc16_byte crc' b' →
  Z.lxor (crc / 256) b = Z.lxor (crc' / 256) b' ∧ crc mod 256 = crc' mod 256.
Proof.
  intros Hc Hc' Hb Hb' E. rewrite !crc16_byte_split in E by done.
  assert (Hh : ∀ c, is_u16 c → is_byte (c / 256))
    by (unfold is_u16, is_byte; intros; Z.to_euclidean_division_equations; lia).
  assert (Hi : Z.lxor (crc / 256) b = Z.lxor (crc' / 256) b').
  { apply tab_low_inj; [by apply lxor_byte; auto..|].
    apply (f_equal (λ z, Z.land z 0x00FF)) in E. rewrite !land_lxor_l, !land_byte in E.
    rewrite !Z.shiftl_mul_pow2, !Z.mod_mul in E by lia. by rewrite !Z.lxor_0_l in E. }
  split; [done|]. rewrite Hi in E. apply (f_equal (λ z, Z.lxor z (tab (Z.lxor (crc' / 256) b')))) in E.
  rewrite !Z.lxor_assoc, !Z.lxor_nilpotent, !Z.lxor_0_r in E.
  rewrite !Z.shiftl_mul_pow2 in E by lia. change (2 ^ 8) with 256 in E. lia.
Qed.

Lemma lxor_cancel_l x y z : Z.lxor x y = Z.lxor x z → y = z.
Proof.
  intros E. apply (f_equal (Z.lxor x)) in E. rewrite <- !Z.lxor_assoc, !Z.lxor_nilpotent, !Z.lxor_0_l in E. done.
Qed.

Lemma crc16_loop_inj buf : ∀ crc crc',
  is_u16 crc → is_u16 crc' → Forall is_byte buf → crc16_loop buf crc = crc16_loop buf crc' → crc = crc'.
Proof.
  induction buf as [|b buf IH]; intros crc crc' Hc Hc' Hb E; [done|]. apply Forall_cons in Hb as [Hb Hbuf].
  apply IH in E; [|by apply crc16_byte_u16..|done].
  destruct (crc16_byte_inj crc crc' b b) as [Hh Hl]; [done..|].
  rewrite !(Z.lxor_comm _ b) in Hh. apply lxor_cancel_l in Hh.
  rewrite (Z.div_mod crc 256), (Z.div_mod crc' 256) by lia. by rewrite Hh, Hl.
Qed.

Lemma crc16_loop_app buf1 buf2 crc : crc16_loop (buf1 ++ buf2) crc = crc16_loop buf2 (crc16_loop buf1 crc).
Proof. revert crc. induction buf1 as [|b buf1 IH]; intros crc; [done|]. apply IH. Qed.

Lemma crc16_loop_u16 buf : ∀ crc, is_u16 crc → Forall is_byte buf → is_u16 (crc16_loop buf crc).
Proof.
  induction buf as [|b buf IH]; intros crc Hc Hb; [done|]. apply Forall_cons in Hb as [Hb Hbuf].
  apply IH; [by apply crc16_byte_u16|done].
Qed.

(** ** Properties *)

(** C21. The table-driven [crc16_ccitt] computes the CRC with the polynomial
    x^16 + x^12 + x^5 + 1, as defined by division bit by bit, and can be computed over
    a buffer in pieces. *)
Theorem crc16_is_polynomial crc buf1 buf2 :
  is_u16 crc → Forall is_byte (buf1 ++ buf2) →
  crc16_ccitt crc (buf1 ++ buf2) = crc_ref crc (buf1 ++ buf2) ∧
  crc16_ccitt crc (buf1 ++ buf2) = crc16_ccitt (crc16_ccitt crc buf1) buf2.
Proof.
  intros Hc Hb. split; [|apply crc16_loop_app]. unfold crc16_ccitt, crc_ref. revert crc Hc.
  induction Hb as [|b buf Hb Hbuf IH]; intros crc Hc; [done|]. simpl.
  rewrite <- crc16_byte_is_ref by done. apply IH. by apply crc16_byte_u16.
Qed.

Lemma crc16_is_polynomial_witness :
  crc16_ccitt 0 ([49; 50; 51] ++ [52; 53]) = crc_ref 0 ([49; 50; 51] ++ [52; 53]) ∧
  crc16_ccitt 0 ([49; 50; 51] ++ [52; 53]) = crc16_ccitt (crc16_ccitt 0 [49; 50; 51]) [52; 53].
Proof.
  apply (crc16_is_polynomial 0 [49; 50; 51] [52; 53]); [unfold is_u16; lia|].
  repeat constructor; unfold is_byte; lia.
Defined.

(** A corruption that is confined to two adjacent bytes of a buffer (any burst of
    up to nine bits, in particular) changes the checksum. *)
Theorem crc16_detects_bursts crc pre a b a' b' post :
  is_u16 crc → Forall is_byte (pre ++ a :: b :: post) → is_byte a' → is_byte b' → (a, b) ≠ (a', b') →
  crc16_ccitt crc (pre ++ a :: b :: post) ≠ crc16_ccitt crc (pre ++ a' :: b' :: post).
Proof.
  intros Hc Hb Ha' Hb' Hne E. unfold crc16_ccitt in E. rewrite !crc16_loop_app in E. cbn [crc16_loop] in E.
  apply Forall_app in Hb as [Hpre Hb]. apply Forall_cons in Hb as [Ha Hb]. apply Forall_cons in Hb as [Hb Hpost].
  pose proof (crc16_loop_u16 pre crc Hc Hpre) as Hc1. set (c := crc16_loop pre crc) in *.
  apply crc16_loop_inj in E; [|by repeat apply crc16_byte_u16..|done].
  apply crc16_byte_inj in E as [Eh El]; [|by apply crc16_byte_u16..|done|done].
  assert (Hab : a = a').
  { rewrite !crc16_byte_split in El by done. rewrite <- !land_byte, !land_lxor_l, !land_byte in El.
    rewrite !Z.shiftl_mul_pow2, !Z.mod_mul, !Z.lxor_0_l in El by lia.
    assert (Hh : is_byte (c / 256)) by (unfold is_u16, is_byte in *; Z.to_euclidean_division_equations; lia).
    apply tab_low_inj in El; [|by apply lxor_byte..]. by apply lxor_cancel_l in El. }
  subst a'. apply lxor_cancel_l in Eh. congruence.
Qed.

Lemma crc16_detects_bursts_witness :
  crc16_ccitt 0 ([49; 50] ++ 51 :: 52 :: [53]) ≠ crc16_ccitt 0 ([49; 50] ++ 51 :: 54 :: [53]).
Proof.
  apply (crc16_detects_bursts 0 [49; 50] 51 52 51 54 [53]); [unfold is_u16; lia| | | |congruence];
    [repeat constructor|..]; unfold is_byte; lia.
Defined.
