(* ===== verification/Cbmem.v ===== *)
(** Circular buffers of log entries: libs/util/src/cbmem.c.

    The buffer is the memory [cmem], a byte per address; an access to any other
    address is a fault, and [0] is NULL.  An entry is a header of four bytes (its
    length, little endian, and flags) and its data.  The lock is a mutex of the
    kernel: what [os_started], [os_mutex_pend] and [os_mutex_release] return are
    parameters. *)
From Stdlib Require Import ZArith Lia.
From stdpp Require Import base decidable numbers list gmap.
From S2P Require Import Prelude.
From S2P Require Import OsState.

#[local] Open Scope Z_scope.

(** ** Data *)

Record cbmem := mk_cbmem {
  c_entry_start : Z;
  c_entry_end : Z;
  c_buf : Z;
  c_buf_end : Z;
  c_buf_cur_end : Z;
}.

Record cbmem_iter := mk_iter {
  ci_start : Z;
  ci_cur : Z;
  ci_end : Z;
}.

Record cstate := mk_cstate { cb : cbmem; cmem : gmap Z Z }.

Definition set_c_entry_start (v : Z) (s : cstate) : cstate :=
  mk_cstate (mk_cbmem v (c_entry_end (cb s)) (c_buf (cb s)) (c_buf_end (cb s)) (c_buf_cur_end (cb s))) (cmem s).
Definition set_c_entry_end (v : Z) (s : cstate) : cstate :=
  mk_cstate (mk_cbmem (c_entry_start (cb s)) v (c_buf (cb s)) (c_buf_end (cb s)) (c_buf_cur_end (cb s))) (cmem s).
Definition set_c_buf_cur_end (v : Z) (s : cstate) : cstate :=
  mk_cstate (mk_cbmem (c_entry_start (cb s)) (c_entry_end (cb s)) (c_buf (cb s)) (c_buf_end (cb s)) v) (cmem s).

Definition sizeof_hdr : Z := 4.

(** ** Memory *)

Definition read_byte (a : Z) : M cstate Z := s ← get; from_option_fault FNull (cmem s !! a).
Definition write_byte (a v : Z) : M cstate unit :=
  s ← get;
  match cmem s !! a with
  | Some _ => modify (λ s, mk_cstate (cb s) (<[a := v]> (cmem s)))
  | None => fault_with FNull
  end.

Fixpoint read_bytes (a : Z) (n : nat) : M cstate (list Z) :=
  match n with
  | O => mret []
  | S n => x ← read_byte a; l ← read_bytes (a + 1) n; mret (x :: l)
  end.
Fixpoint write_bytes (a : Z) (l : list Z) : M cstate unit :=
  match l with
  | [] => mret tt
  | x :: l => write_byte a x ;; write_bytes (a + 1) l
  end.

(** [hdr->ceh_len], a [uint16_t]. *)
Definition ceh_len (p : Z) : M cstate Z := lo ← read_byte p; hi ← read_byte (p + 1); mret (lo + 256 * hi).
Definition set_ceh_len (p v : Z) : M cstate unit := write_byte p (v mod 256) ;; write_byte (p + 1) (v / 256).

Definition CBMEM_ENTRY_SIZE (p : Z) : M cstate Z := len ← ceh_len p; mret (sizeof_hdr + len).
Definition CBMEM_ENTRY_NEXT (p : Z) : M cstate Z := n ← CBMEM_ENTRY_SIZE p; mret (p + n).

Section cbmem.
Context (os_started : bool) (pend_rc release_rc : Z).

(** ** Operations *)

Definition cbmem_init (buf buf_len : Z) : M cstate Z :=
  modify (λ s, mk_cstate (mk_cbmem 0 0 buf (buf + buf_len) 0) (cmem s)) ;; mret 0.

Definition cbmem_lock_acquire : M cstate Z :=
  if negb os_started then mret 0 else if negb (pend_rc =? 0) then mret pend_rc else mret 0.
Definition cbmem_lock_release : M cstate Z :=
  if negb os_started then mret 0 else if negb (release_rc =? 0) then mret release_rc else mret 0.

(** The loop that moves the start behind what is overwritten. *)
Fixpoint start_loop (fuel : nat) (start end_ : Z) : M cstate Z :=
  if start <? end_ then
    match fuel with
    | O => fault_with FFuel
    | S fuel =>
        start ← CBMEM_ENTRY_NEXT start;
        s ← get;
        if start =? c_buf_cur_end (cb s) then mret (c_buf (cb s)) else start_loop fuel start end_
    end
  else mret start.

(** [data] has the [len] bytes of the C call. *)
Definition cbmem_append (data : list Z) : M cstate Z :=
  let len := Z.of_nat (length data) in
  rc ← cbmem_lock_acquire;
  if negb (rc =? 0) then mret (-1)
  else
    s ← get;
    dst ← (if negb (c_entry_end (cb s) =? 0) then CBMEM_ENTRY_NEXT (c_entry_end (cb s))
           else mret (c_buf (cb s)));
    let end_ := dst + len in
    '(dst, end_) ← (if c_buf_end (cb s) <? end_ then
                      modify (set_c_buf_cur_end dst) ;;
                      s ← get;
                      (if c_buf_cur_end (cb s) <=? c_entry_start (cb s)
                       then modify (set_c_entry_start (c_buf (cb s))) else mret tt) ;;
                      mret (c_buf (cb s), c_buf (cb s) + len)
                    else mret (dst, end_));
    s ← get;
    let start := c_entry_start (cb s) in
    (if negb (start =? 0) then
       sz ← CBMEM_ENTRY_SIZE start;
       if (dst <? start + sz) && (start <? end_) then
         start ← start_loop (Z.to_nat (end_ - start)) start end_;
         modify (set_c_entry_start start)
       else mret tt
     else mret tt) ;;
    set_ceh_len dst len ;;
    write_bytes (dst + sizeof_hdr) data ;;
    modify (set_c_entry_end dst) ;;
    s ← get;
    (if c_entry_start (cb s) =? 0 then modify (set_c_entry_start dst) else mret tt) ;;
    rc ← cbmem_lock_release;
    if negb (rc =? 0) then mret (-1) else mret 0.

Definition cbmem_iter_start : M cstate cbmem_iter :=
  gets (λ s, mk_iter (c_entry_start (cb s)) (c_entry_start (cb s)) (c_entry_end (cb s))).

Definition cbmem_iter_next (iter : cbmem_iter) : M cstate (Z * cbmem_iter) :=
  if ci_end iter <? ci_start iter then
    let hdr := ci_cur iter in
    cur ← CBMEM_ENTRY_NEXT (ci_cur iter);
    s ← get;
    if cur =? c_buf_cur_end (cb s)
    then mret (hdr, mk_iter (c_buf (cb s)) (c_buf (cb s)) (ci_end iter))
    else mret (hdr, mk_iter (ci_start iter) cur (ci_end iter))
  else
    let hdr := ci_cur iter in
    last ← CBMEM_ENTRY_NEXT (ci_end iter);
    if hdr =? last then mret (0, iter)
    else
      cur ← CBMEM_ENTRY_NEXT (ci_cur iter);
      mret (hdr, mk_iter (ci_start iter) cur (ci_end iter)).

Definition cbmem_flush : M cstate Z :=
  rc ← cbmem_lock_acquire;
  if negb (rc =? 0) then mret rc
  else
    modify (set_c_entry_start 0) ;;
    modify (set_c_entry_end 0) ;;
    modify (set_c_buf_cur_end 0) ;;
    rc ← cbmem_lock_release;
    if negb (rc =? 0) then mret rc else mret 0.

(** The result and the bytes written to [buf]. *)
Definition cbmem_read (hdr off len : Z) : M cstate (Z * list Z) :=
  rc ← cbmem_lock_acquire;
  if negb (rc =? 0) then mret (-1, [])
  else
    clen ← ceh_len hdr;
    let len := if clen <? off + len then u16 (clen - off) else len in
    if clen <? off then
      cbmem_lock_release ;;
      mret (-1, [])
    else
      bytes ← read_bytes (hdr + sizeof_hdr + off) (Z.to_nat len);
      rc ← cbmem_lock_release;
      if negb (rc =? 0) then mret (-1, bytes) else mret (len, bytes).

Section walk.
Context {A : Type} (walk_func : Z → A → M cstate (Z * A)).

(** The [while (1)] loop: the walk function updates its argument. *)
Fixpoint walk_loop (fuel : nat) (iter : cbmem_iter) (arg : A) : M cstate A :=
  match fuel with
  | O => fault_with FFuel
  | S fuel =>
      '(hdr, iter) ← cbmem_iter_next iter;
      if hdr =? 0 then mret arg
      else
        '(rc, arg) ← walk_func hdr arg;
        if rc =? 1 then mret arg else walk_loop fuel iter arg
  end.

(** Every round reads an entry of at least four bytes of the buffer. *)
Definition cbmem_walk (arg : A) : M cstate (Z * A) :=
  rc ← cbmem_lock_acquire;
  if negb (rc =? 0) then mret (rc, arg)
  else
    iter ← cbmem_iter_start;
    s ← get;
    arg ← walk_loop (S (size (cmem s))) iter arg;
    rc ← cbmem_lock_release;
    if negb (rc =? 0) then mret (rc, arg) else mret (0, arg).
End walk.
End cbmem.

(** ** The log as a list of entries *)

Definition bytes_in (m : gmap Z Z) (a : Z) (l : list Z) : Prop :=
  ∀ i x, l !! i = Some x → m !! (a + Z.of_nat i) = Some x.

(** The bytes of an entry; the flags are not written. *)
Record entry_in (m : gmap Z Z) (a : Z) (e : list Z) : Prop := {
  en_lo : m !! a = Some (Z.of_nat (length e) mod 256);
  en_hi : m !! (a + 1) = Some (Z.of_nat (length e) / 256);
  en_data : bytes_in m (a + 4) e;
}.

Definition esize (e : list Z) : Z := 4 + Z.of_nat (length e).
Fixpoint total (es : list (list Z)) : Z := match es with [] => 0 | e :: es => esize e + total es end.

(** The entries [es], one after the other from [a]. *)
Fixpoint entries_in (m : gmap Z Z) (a : Z) (es : list (list Z)) : Prop :=
  match es with
  | [] => True
  | e :: es => entry_in m a e ∧ entries_in m (a + esize e) es
  end.

(** The address of the last entry. *)
Fixpoint last_at (a : Z) (es : list (list Z)) : Z :=
  match es with
  | [] => 0
  | [_] => a
  | e :: es => last_at (a + esize e) es
  end.

(** The buffer holds exactly the entries [es] and has not wrapped around yet. *)
Record log_ok (s : cstate) (es : list (list Z)) : Prop := {
  lo_buf : 0 < c_buf (cb s);
  lo_mem : ∀ a, c_buf (cb s) <= a < c_buf_end (cb s) → is_Some (cmem s !! a);
  lo_fits : c_buf (cb s) + total es <= c_buf_end (cb s);
  lo_start : c_entry_start (cb s) = match es with [] => 0 | _ => c_buf (cb s) end;
  lo_end : c_entry_end (cb s) = last_at (c_buf (cb s)) es;
  lo_entries : entries_in (cmem s) (c_buf (cb s)) es;
}.

Lemma esize_pos e : 4 <= esize e.
Proof. unfold esize. lia. Qed.

Lemma total_nonneg es : 0 <= total es.
Proof. induction es as [|e es IH]; simpl; [lia|]. pose proof (esize_pos e). lia. Qed.

Lemma total_app es1 es2 : total (es1 ++ es2) = total es1 + total es2.
Proof. induction es1 as [|e es1 IH]; simpl; [done|]. lia. Qed.

Lemma last_at_snoc es : ∀ a e, last_at a (es ++ [e]) = a + total es.
Proof.
  induction es as [|d es IH]; intros a e; simpl; [lia|].
  destruct (es ++ [e]) eqn:E; [by destruct es|]. rewrite <- E, IH. lia.
Qed.

Lemma entries_in_app m es1 : ∀ a es2,
  entries_in m a (es1 ++ es2) ↔ entries_in m a es1 ∧ entries_in m (a + total es1) es2.
Proof.
  induction es1 as [|e es1 IH]; intros a es2; simpl; [rewrite Z.add_0_r; tauto|].
  rewrite IH. replace (a + esize e + total es1) with (a + (esize e + total es1)) by lia. tauto.
Qed.

(** *** Accesses *)

Lemma ceh_len_run s a e : entry_in (cmem s) a e → (ceh_len a) s = Ret (Z.of_nat (length e), s).
Proof.
  intros [H1 H2 _]. unfold ceh_len, read_byte, mbind, M_bind, get. rewrite H1. simpl. rewrite H2. simpl.
  unfold mret, M_ret. do 2 f_equal. rewrite Z.add_comm. symmetry. apply Z_div_mod_eq_full.
Qed.

Lemma entry_next_run s a e : entry_in (cmem s) a e → CBMEM_ENTRY_NEXT a s = Ret (a + esize e, s).
Proof.
  intros He. unfold CBMEM_ENTRY_NEXT, CBMEM_ENTRY_SIZE, mbind, M_bind. by rewrite (ceh_len_run _ _ _ He).
Qed.

Lemma read_bytes_run s l : ∀ a, bytes_in (cmem s) a l → read_bytes a (length l) s = Ret (l, s).
Proof.
  induction l as [|x l IH]; intros a Hb; [done|]. simpl. unfold read_byte, mbind, M_bind, get.
  pose proof (Hb 0%nat x eq_refl) as Hx. rewrite Z.add_0_r in Hx. rewrite Hx. simpl.
  unfold mret, M_ret. rewrite IH; [done|]. intros i y Hy. specialize (Hb (S i) y Hy).
  by replace (a + 1 + Z.of_nat i) with (a + Z.of_nat (S i)) by lia.
Qed.

(** The effect of writing: the bytes from [a] to [a + n] change, the record of the
    buffer does not. *)
Record wrote (s s' : cstate) (a n : Z) : Prop := {
  wr_cb : cb s' = cb s;
  wr_frame : ∀ c, c < a ∨ a + n <= c → cmem s' !! c = cmem s !! c;
  wr_dom : ∀ c, is_Some (cmem s !! c) → is_Some (cmem s' !! c);
}.

Lemma write_byte_ok s a v (Q : unit → cstate → Prop) :
  is_Some (cmem s !! a) →
  (∀ s', wrote s s' a 1 → cmem s' !! a = Some v → Q tt s') → wp (write_byte a v) Q s.
Proof.
  intros [x Hx] HQ. unfold write_byte. wp_simp. rewrite Hx. wp_simp. apply HQ; [|cbn [cmem]; by rewrite lookup_insert_eq].
  split; [done| |].
  - intros c Hc. cbn [cmem]. by rewrite lookup_insert_ne by lia.
  - intros c Hc. cbn [cmem]. destruct (decide (a = c)) as [->|Hne]; [by rewrite lookup_insert_eq|].
    by rewrite lookup_insert_ne.
Qed.

Lemma wrote_trans s1 s2 s3 a n m :
  0 <= n → 0 <= m → wrote s1 s2 a n → wrote s2 s3 (a + n) m → wrote s1 s3 a (n + m).
Proof.
  intros Hn Hm [A1 A2 A3] [B1 B2 B3]. split; [congruence| |eauto].
  intros c Hc. rewrite B2, A2; [done|lia..].
Qed.

Lemma write_bytes_ok l : ∀ s a (Q : unit → cstate → Prop),
  (∀ c, a <= c < a + Z.of_nat (length l) → is_Some (cmem s !! c)) →
  (∀ s', wrote s s' a (Z.of_nat (length l)) → bytes_in (cmem s') a l → Q tt s') →
  wp (write_bytes a l) Q s.
Proof.
  induction l as [|x l IH]; intros s a Q Hm HQ.
  { apply wp_ret, HQ; [|done]. split; [done|done|done]. }
  cbn [write_bytes length] in *. wp_step. apply write_byte_ok; [apply Hm; lia|]. intros s1 W1 Hx.
  apply IH; [intros c Hc; apply W1, Hm; lia|]. intros s2 W2 Hb. apply HQ.
  - replace (Z.of_nat (S (length l))) with (1 + Z.of_nat (length l)) by lia. by eapply wrote_trans; [..|exact W2]; [lia|lia|].
  - intros [|i] y Hy; simpl in Hy.
    + simplify_eq. rewrite Z.add_0_r, (wr_frame _ _ _ _ W2) by lia. done.
    + specialize (Hb i y Hy). by replace (a + Z.of_nat (S i)) with (a + 1 + Z.of_nat i) by lia.
Qed.

(** Entries below a written range stay as they are. *)
Lemma entries_in_frame s s' a n es : ∀ b,
  wrote s s' a n → b + total es <= a → entries_in (cmem s) b es → entries_in (cmem s') b es.
Proof.
  induction es as [|e es IH]; intros b W Hle; [done|]. simpl in *. pose proof (total_nonneg es) as Hn.
  intros [[H1 H2 H3] Hes]. unfold esize in *. split; [|apply IH; [done|lia|done]].
  split; rewrite ?(wr_frame _ _ _ _ W) by lia; [done|done|].
  intros i x Hi. pose proof (lookup_lt_Some _ _ _ Hi). rewrite (wr_frame _ _ _ _ W) by lia. by apply H3.
Qed.

Section spec.
Context (os_started : bool) (pend_rc release_rc : Z).
Context (lock_ok : os_started = true → pend_rc = 0 ∧ release_rc = 0).

Lemma acquire_run s : cbmem_lock_acquire os_started pend_rc s = Ret (0, s).
Proof.
  unfold cbmem_lock_acquire. destruct os_started; [|done]. destruct (lock_ok eq_refl) as [-> _]. done.
Qed.
Lemma release_run s : cbmem_lock_release os_started release_rc s = Ret (0, s).
Proof.
  unfold cbmem_lock_release. destruct os_started; [|done]. destruct (lock_ok eq_refl) as [_ ->]. done.
Qed.

(** Where the next entry goes. *)
Lemma append_dst s es :
  log_ok s es →
  (if negb (c_entry_end (cb s) =? 0) then CBMEM_ENTRY_NEXT (c_entry_end (cb s)) else mret (c_buf (cb s))) s =
    Ret (c_buf (cb s) + total es, s).
Proof.
  intros [Hb _ _ _ Hend Hes]. rewrite Hend. destruct es as [|e es _] using rev_ind; [by rewrite Z.add_0_r|].
  rewrite last_at_snoc. pose proof (total_nonneg es). rewrite (proj2 (Z.eqb_neq _ _)) by lia. cbn [negb].
  apply entries_in_app in Hes as [_ [He _]]. rewrite (entry_next_run _ _ _ He), total_app. simpl. do 2 f_equal. lia.
Qed.

(** The first entry is not in the way. *)
Lemma append_start s es end_ :
  log_ok s es →
  (if negb (c_entry_start (cb s) =? 0) then
     sz ← CBMEM_ENTRY_SIZE (c_entry_start (cb s));
     if (c_buf (cb s) + total es <? c_entry_start (cb s) + sz) && (c_entry_start (cb s) <? end_) then
       start ← start_loop (Z.to_nat (end_ - c_entry_start (cb s))) (c_entry_start (cb s)) end_;
       modify (set_c_entry_start start)
     else mret tt
   else mret tt) s = Ret (tt, s).
Proof.
  intros [Hb _ _ Hstart _ Hes]. rewrite Hstart. destruct es as [|e es]; [done|].
  rewrite (proj2 (Z.eqb_neq _ _)) by lia. cbn [negb]. simpl in Hes. destruct Hes as [He _].
  unfold CBMEM_ENTRY_SIZE, mbind, M_bind. rewrite (ceh_len_run _ _ _ He). unfold mret, M_ret at 1. cbn [total].
  pose proof (total_nonneg es). unfold sizeof_hdr, esize. rewrite (proj2 (Z.ltb_ge _ _)) by lia. done.
Qed.

Lemma log_ok_append s s2 es data :
  log_ok s es → c_buf (cb s) + total es + esize data <= c_buf_end (cb s) →
  wrote s s2 (c_buf (cb s) + total es) (esize data) → entry_in (cmem s2) (c_buf (cb s) + total es) data →
  log_ok (set_c_entry_start (c_buf (cb s)) (set_c_entry_end (c_buf (cb s) + total es) s2)) (es ++ [data]).
Proof.
  intros [H1 H2 H3 H4 H5 H6] Hfit W He. pose proof (wr_cb _ _ _ _ W) as Hcb.
  split; cbn [cb cmem c_buf c_buf_end c_entry_start c_entry_end set_c_entry_start set_c_entry_end]; rewrite ?Hcb.
  - done.
  - intros a Ha. by apply W, H2.
  - rewrite total_app. simpl. lia.
  - by destruct es.
  - by rewrite last_at_snoc.
  - apply entries_in_app. split; [by eapply entries_in_frame|]. by split.
Qed.

(** Appending an entry that fits behind the others. *)
Lemma cbmem_append_ok s es data :
  log_ok s es → Z.of_nat (length data) < 65536 → c_buf (cb s) + total es + esize data <= c_buf_end (cb s) →
  wp (cbmem_append os_started pend_rc release_rc data) (λ rc s', rc = 0 ∧ log_ok s' (es ++ [data]) ∧
    c_buf (cb s') = c_buf (cb s) ∧ c_buf_end (cb s') = c_buf_end (cb s)) s.
Proof.
  intros Hlog Hlen Hfit. pose proof Hlog as [H1 H2 _ Hst _ _]. pose proof (total_nonneg es) as Hn.
  unfold cbmem_append. wp_step. eapply wp_eq; [apply acquire_run|]. cbn [negb Z.eqb]. wp_step. wp_step. wp_step.
  eapply wp_eq; [by apply append_dst|]. cbv zeta. unfold esize in Hfit.
  rewrite (proj2 (Z.ltb_ge _ _)) by lia. wp_step. wp_step. wp_step. wp_step. wp_step.
  eapply wp_eq; [by apply append_start|]. set (d := c_buf (cb s) + total es) in *.
  wp_step. unfold set_ceh_len. wp_step. apply write_byte_ok; [apply H2; lia|]. intros s1 W1 Hlo.
  apply write_byte_ok; [apply W1, H2; lia|]. intros s2 W2 Hhi.
  wp_step. unfold sizeof_hdr. apply write_bytes_ok; [intros c Hc; apply W2, W1, H2; lia|]. intros s3 W3 Hbytes.
  assert (W : wrote s s3 d (esize data)).
  { unfold esize. destruct W1 as [A1 A2 A3], W2 as [B1 B2 B3], W3 as [C1 C2 C3]. split; [congruence| |auto].
    intros c Hc. rewrite C2, B2, A2; [done|lia..]. }
  assert (He : entry_in (cmem s3) d data).
  { split; [| |done]; rewrite (wr_frame _ _ _ _ W3) by lia; [|done]. by rewrite (wr_frame _ _ _ _ W2) by lia. }
  pose proof (log_ok_append s s3 es data Hlog ltac:(unfold esize; lia) W He) as Hlog'. fold d in Hlog'.
  pose proof (wr_cb _ _ _ _ W) as Hcb. wp_step. wp_step. wp_step. wp_step. wp_step.
  cbn [cb set_c_entry_end c_entry_start]. rewrite Hcb, Hst.
  destruct es as [|e es].
  - cbn [Z.eqb]. wp_step. wp_step. eapply wp_eq; [apply release_run|]. cbn [negb Z.eqb]. wp_step.
    replace d with (c_buf (cb s)) in * by (unfold d; simpl; lia). split_and!; [done|done|simpl; by rewrite Hcb..].
  - rewrite (proj2 (Z.eqb_neq _ _)) by lia. wp_step. wp_step. eapply wp_eq; [apply release_run|].
    cbn [negb Z.eqb]. wp_step. split_and!; [done| |simpl; by rewrite Hcb..].
    replace (set_c_entry_end d s3) with (set_c_entry_start (c_buf (cb s)) (set_c_entry_end d s3)); [done|].
    unfold set_c_entry_start, set_c_entry_end. cbn [cb cmem c_entry_start c_entry_end c_buf c_buf_end c_buf_cur_end].
    by rewrite Hcb, Hst.
Qed.

(** *** Reading *)

Lemma bytes_in_drop m a l n : bytes_in m a l → bytes_in m (a + Z.of_nat n) (drop n l).
Proof.
  intros Hb i x Hi. rewrite lookup_drop in Hi. specialize (Hb _ _ Hi).
  by replace (a + Z.of_nat n + Z.of_nat i) with (a + Z.of_nat (n + i)) by lia.
Qed.
Lemma bytes_in_take m a l n : bytes_in m a l → bytes_in m a (take n l).
Proof. intros Hb i x Hi. apply Hb. by apply lookup_take_Some in Hi as [? _]. Qed.

Lemma cbmem_read_run s a e off len :
  entry_in (cmem s) a e → Z.of_nat (length e) < 65536 → 0 <= off → 0 <= len →
  cbmem_read os_started pend_rc release_rc a off len s =
    Ret (if Z.of_nat (length e) <? off then (-1, [])
         else (Z.min len (Z.of_nat (length e) - off), take (Z.to_nat len) (drop (Z.to_nat off) e)), s).
Proof.
  intros He Hlen Ho Hl. unfold cbmem_read, mbind, M_bind. rewrite acquire_run. cbn [negb Z.eqb].
  rewrite (ceh_len_run _ _ _ He). destruct (Z.ltb_spec (Z.of_nat (length e)) off) as [Hlt|Hge]; [by rewrite release_run|].
  assert (Hn : (if Z.of_nat (length e) <? off + len then u16 (Z.of_nat (length e) - off) else len) =
    Z.min len (Z.of_nat (length e) - off)).
  { destruct (Z.ltb_spec (Z.of_nat (length e)) (off + len)); [rewrite u16_small|]; lia. }
  rewrite Hn. set (n := Z.min _ _).
  assert (Hb : bytes_in (cmem s) (a + sizeof_hdr + off) (take (Z.to_nat n) (drop (Z.to_nat off) e))).
  { apply bytes_in_take. unfold sizeof_hdr. rewrite <- (Z2Nat.id off) at 1 by lia. apply bytes_in_drop, He. }
  apply read_bytes_run in Hb. rewrite length_take, length_drop in Hb.
  replace (Nat.min (Z.to_nat n) (length e - Z.to_nat off)) with (Z.to_nat n) in Hb by lia.
  rewrite Hb, release_run. cbn [negb Z.eqb]. unfold mret, M_ret. do 3 f_equal.
  destruct (Z.min_spec len (Z.of_nat (length e) - off)) as [[? E]|[? E]]; fold n in E; rewrite E; [done|].
  rewrite !take_ge; [done|rewrite length_drop; lia..].
Qed.

(** The walk function that collects what it reads. *)
Definition collect (hdr : Z) (acc : list (list Z)) : M cstate (Z * list (list Z)) :=
  '(n, bytes) ← cbmem_read os_started pend_rc release_rc hdr 0 65535;
  mret (0, acc ++ [bytes]).

Lemma collect_run s a e acc :
  entry_in (cmem s) a e → Z.of_nat (length e) < 65536 → collect a acc s = Ret ((0, acc ++ [e]), s).
Proof.
  intros He Hlen. unfold collect, mbind, M_bind. rewrite (cbmem_read_run s _ e) by (done || lia).
  rewrite (proj2 (Z.ltb_ge _ _)) by lia. by rewrite drop_0, (take_ge e) by lia.
Qed.

(** A walk with any function that reads the entries: [g] is what it does to its argument. *)
Lemma walk_loop_run {A} f (g : A → list Z → A) (P : list Z → Prop) s
    (Hf : ∀ a e acc, entry_in (cmem s) a e → P e → f a acc s = Ret ((0, g acc e), s)) es2 : ∀ es1 fuel acc,
  log_ok s (es1 ++ es2) → es1 ++ es2 ≠ [] → Forall P es2 → (length es2 < fuel)%nat →
  walk_loop f fuel (mk_iter (c_buf (cb s)) (c_buf (cb s) + total es1) (c_entry_end (cb s))) acc s =
    Ret (foldl g acc es2, s).
Proof.
  induction es2 as [|e es2 IH]; intros es1 fuel acc Hlog Hne Hlens Hfuel;
    destruct fuel as [|fuel]; try (simpl in Hfuel; lia); pose proof Hlog as [Hb _ _ _ Hend Hes];
    pose proof (total_nonneg es1) as Hn;
    cbn [walk_loop]; unfold cbmem_iter_next; cbn [ci_end ci_start ci_cur].
  all: destruct (exists_last Hne) as (es0 & z & Hz); pose proof (total_nonneg es0) as Hn0.
  all: assert (Hlast : c_entry_end (cb s) = c_buf (cb s) + total es0) by (by rewrite Hend, Hz, last_at_snoc).
  all: rewrite (proj2 (Z.ltb_ge _ _)) by lia.
  all: assert (Hez : entry_in (cmem s) (c_entry_end (cb s)) z)
    by (rewrite Hlast; rewrite Hz, entries_in_app in Hes; apply Hes).
  all: assert (Htot : total (es1 ++ _) = total es0 + esize z) by (rewrite Hz, total_app; simpl; lia).
  all: unfold mbind, M_bind; rewrite (entry_next_run _ _ _ Hez), Hlast.
  - rewrite app_nil_r in Htot. rewrite (proj2 (Z.eqb_eq _ _)) by lia. by cbn [Z.eqb foldl].
  - rewrite total_app in Htot. simpl in Htot. pose proof (total_nonneg es2). pose proof (esize_pos e).
    rewrite (proj2 (Z.eqb_neq _ _)) by lia. apply entries_in_app in Hes as [_ [He _]].
    apply Forall_cons in Hlens as [Hle Hlens].
    rewrite (entry_next_run _ _ _ He). unfold mret, M_ret at 1. rewrite (proj2 (Z.eqb_neq (c_buf (cb s) + total es1) 0)) by lia.
    rewrite (Hf _ _ _ He Hle).
    cbn [Z.eqb]. rewrite <- Hlast. specialize (IH (es1 ++ [e]) fuel (g acc e)).
    rewrite total_app in IH. cbn [total] in IH. rewrite Z.add_0_r, Z.add_assoc in IH.
    rewrite IH; [done| | |done|simpl in Hfuel; lia].
    + by rewrite <- (assoc_L (++)).
    + by destruct es1.
Qed.

(** There is room for all rounds. *)
Lemma log_fuel s es : log_ok s es → (length es <= size (cmem s))%nat.
Proof.
  intros [_ Hm Hfit _ _ _]. assert (Hle : Z.of_nat (length es) <= total es).
  { clear. induction es as [|e es IH]; simpl; [lia|]. pose proof (esize_pos e). lia. }
  assert (Hsz : (length (seqZ (c_buf (cb s)) (total es)) <= size (cmem s))%nat); [|rewrite length_seqZ in Hsz; lia].
  rewrite <- size_dom, <- (size_list_to_set (C := gset Z)) by apply NoDup_seqZ.
  apply subseteq_size. intros a Ha%elem_of_list_to_set%elem_of_seqZ. apply elem_of_dom, Hm. lia.
Qed.

Lemma foldl_snoc_all {A} (l : list A) : ∀ acc, foldl (λ acc e, acc ++ [e]) acc l = acc ++ l.
Proof. induction l as [|x l IH]; intros acc; cbn; [by rewrite app_nil_r|]. by rewrite IH, <- (assoc_L (++)). Qed.

Lemma cbmem_walk_run s es :
  log_ok s es → es ≠ [] → Forall (λ e, Z.of_nat (length e) < 65536) es →
  cbmem_walk os_started pend_rc release_rc collect [] s = Ret ((0, es), s).
Proof.
  intros Hlog Hne Hlens. pose proof (log_fuel s es Hlog) as Hf. pose proof Hlog as [_ _ _ Hst _ _].
  unfold cbmem_walk, mbind, M_bind. rewrite acquire_run. cbn [negb Z.eqb].
  unfold cbmem_iter_start, gets, get. rewrite Hst. destruct es as [|e es]; [done|].
  pose proof (walk_loop_run collect (λ acc e, acc ++ [e]) _ s (collect_run s) (e :: es) [] (S (size (cmem s))) []
    Hlog Hne Hlens ltac:(lia)) as Hrun.
  cbn [total app] in Hrun. rewrite Z.add_0_r in Hrun. rewrite Hrun, release_run, foldl_snoc_all. done.
Qed.

(** Appending several entries. *)
Fixpoint append_all (es : list (list Z)) : M cstate unit :=
  match es with
  | [] => mret tt
  | e :: es => cbmem_append os_started pend_rc release_rc e ;; append_all es
  end.

Lemma append_all_ok es2 : ∀ s es1,
  log_ok s es1 → Forall (λ e, Z.of_nat (length e) < 65536) es2 →
  c_buf (cb s) + total (es1 ++ es2) <= c_buf_end (cb s) →
  wp (append_all es2) (λ _ s', log_ok s' (es1 ++ es2)) s.
Proof.
  induction es2 as [|e es2 IH]; intros s es1 Hlog Hlens Hfit.
  { apply wp_ret. by rewrite app_nil_r. }
  apply Forall_cons in Hlens as [Hle Hlens]. rewrite total_app in Hfit. simpl in Hfit.
  pose proof (total_nonneg es2). cbn [append_all]. wp_step.
  eapply wp_mono; [apply (cbmem_append_ok s es1 e); [done|done|lia]|]. intros rc s' (_ & Hlog' & Hb & He).
  replace (es1 ++ e :: es2) with ((es1 ++ [e]) ++ es2) by (by rewrite <- (assoc_L (++))).
  apply IH; [done|done|]. rewrite Hb, He, !total_app. simpl. lia.
Qed.
End spec.

(** ** Properties *)

(** The memory of a buffer. *)
Definition buffer (buf buf_len : Z) : gmap Z Z := list_to_map ((λ a, (a, 0)) <$> seqZ buf buf_len).

Lemma buffer_lookup buf buf_len a : buf <= a < buf + buf_len → is_Some (buffer buf buf_len !! a).
Proof.
  intros Ha. exists 0. apply elem_of_list_to_map_1.
  - rewrite <- list_fmap_compose. change (fst ∘ (λ a : Z, (a, 0))) with (@id Z). rewrite list_fmap_id. apply NoDup_seqZ.
  - apply list_elem_of_fmap. exists a. split; [done|]. apply elem_of_seqZ. lia.
Qed.

(** C36. Entries appended to a fresh buffer that has room for all of them (headers
    included) are visited by [cbmem_walk] in the order in which they were appended, and
    [cbmem_read] returns their data. *)
Theorem cbmem_log_order started pend_rc release_rc buf buf_len es cb0 :
  (started = true → pend_rc = 0 ∧ release_rc = 0) →
  0 < buf → total es <= buf_len → es ≠ [] → Forall (λ e, Z.of_nat (length e) < 65536) es →
  wp (cbmem_init buf buf_len ;;
      append_all started pend_rc release_rc es ;;
      cbmem_walk started pend_rc release_rc (collect started pend_rc release_rc) [])
    (λ r _, r = (0, es)) (mk_cstate cb0 (buffer buf buf_len)).
Proof.
  intros Hlock Hb Hfit Hne Hlens. pose proof (total_nonneg es). unfold cbmem_init. wp_simp.
  eapply wp_mono; [apply (append_all_ok _ _ _ Hlock es _ [])|]; cbn [app]; [|done|simpl; lia|].
  - split; simpl; [done| |lia|done|done|done]. intros a Ha. by apply buffer_lookup.
  - intros _ s' Hlog. eapply wp_eq; [by apply cbmem_walk_run|]. done.
Qed.

Lemma cbmem_log_order_witness :
  wp (cbmem_init 4096 24 ;;
      append_all true 0 0 [[1; 2; 3]; []; [4; 5]] ;;
      cbmem_walk true 0 0 (collect true 0 0) [])
    (λ r _, r = (0, [[1; 2; 3]; []; [4; 5]])) (mk_cstate (mk_cbmem 0 0 0 0 0) (buffer 4096 24)).
Proof.
  apply (cbmem_log_order true 0 0 4096 24 [[1; 2; 3]; []; [4; 5]] (mk_cbmem 0 0 0 0 0));
    [done|lia|done|done|repeat constructor; simpl; lia].
Defined.

(** The checks of [cbmem_append] leave out the four bytes of the header: an entry
    of six bytes is accepted by a buffer of eight and written past its end; and
    [cbmem_walk] on an empty log dereferences NULL. *)
Theorem cbmem_faults :
  (cbmem_init 4096 8 ;; cbmem_append false 0 0 [1; 2; 3; 4; 5; 6])
    (mk_cstate (mk_cbmem 0 0 0 0 0) (buffer 4096 8)) = Fault FNull ∧
  (cbmem_init 4096 8 ;; cbmem_walk false 0 0 (collect false 0 0) [])
    (mk_cstate (mk_cbmem 0 0 0 0 0) (buffer 4096 8)) = Fault FNull.
Proof. by vm_compute. Qed.
