(* ===== verification/Cfmt.v ===== *)
(** Number conversions of the C library the JSON code uses: libs/baselibc,
    src/tinyprintf.c (printing), src/strntoumax.c (parsing) and include/ctype.h; and the
    formatted output to the console, libs/console/full/src/cons_fmt.c.

    Strings are lists of character codes without the terminating NUL; reading past
    their end finds it.  [int] and [long] have 32 bits, [uintmax_t] has 64. *)
From Stdlib Require Import ZArith Lia.
From stdpp Require Import base decidable numbers list.
From S2P Require Import Prelude.

#[local] Open Scope Z_scope.

(** ** Character classes *)

Definition isspace (c : Z) : bool := (c =? 32) || (c =? 10) || (c =? 9) || (c =? 13).
Definition isdigit (c : Z) : bool := u32 (c - 48) <=? 9.

(** ** Printing *)

(** The loop that scales [d] up to the first digit of [num]. *)
Fixpoint ui2a_scale (fuel : nat) (num base d : Z) : Z :=
  match fuel with
  | O => d
  | S fuel => if base <=? num / d then ui2a_scale fuel num base (u32 (d * base)) else d
  end.

(** The loop that prints the digits; [n] tells whether one was printed. *)
Fixpoint ui2a_digits (fuel : nat) (num base d : Z) (n uc : bool) : list Z :=
  match fuel with
  | O => []
  | S fuel =>
      if d =? 0 then []
      else
        let dgt := num / d in
        let num := num mod d in
        let d := d / base in
        if n || (0 <? dgt) || (d =? 0) then
          (dgt + (if dgt <? 10 then 48 else (if uc then 65 else 97) - 10)) :: ui2a_digits fuel num base d true uc
        else ui2a_digits fuel num base d n uc
  end.

(** A 32-bit number has at most 32 digits in any base. *)
Definition ui2a (num base : Z) (uc : bool) : list Z :=
  ui2a_digits 33 num base (ui2a_scale 33 num base 1) false uc.

(** The sign and the digits. *)
Definition i2a (num base : Z) (uc : bool) : option Z * list Z :=
  if num <? 0 then (Some 45, ui2a (u32 (- num)) base uc) else (None, ui2a num base uc).

(** [putchw] without a field width or flags. *)
Definition putchw (p : option Z * list Z) : list Z :=
  match p.1 with Some sign => [sign] | None => [] end ++ p.2.

(** The directives %d (and %ld), %u (and %lu): long is int. *)
Definition format_d (num : Z) : list Z := putchw (i2a num 10 false).
Definition format_u (num : Z) : list Z := putchw (None, ui2a num 10 false).

(** ** Parsing *)

Definition digitval (ch : Z) : Z :=
  if (48 <=? ch) && (ch <=? 57) then ch - 48
  else if (65 <=? ch) && (ch <=? 90) then ch - 65 + 10
  else if (97 <=? ch) && (ch <=? 122) then ch - 97 + 10
  else -1.

Fixpoint skip_space (s : list Z) : list Z :=
  match s with
  | c :: s' => if isspace c then skip_space s' else s
  | [] => []
  end.

(** The loop over the digits: the value and where it stopped. *)
Fixpoint digits_loop (s : list Z) (base v : Z) : Z * list Z :=
  match s with
  | c :: s' =>
      let d := digitval c in
      if (0 <=? d) && (d <? base) then digits_loop s' base (u64 (v * base + d)) else (v, s)
  | [] => (v, [])
  end.

(** The base and the string behind the prefix [0x] or [0]. *)
Definition base_prefix (s : list Z) (base : Z) : Z * list Z :=
  if base =? 0 then
    match s with
    | 48 :: x :: s' => if (x =? 120) || (x =? 88) then (16, s') else (8, x :: s')
    | [48] => (8, [])
    | _ => (10, s)
    end
  else if base =? 16 then
    match s with
    | 48 :: x :: s' => if (x =? 120) || (x =? 88) then (16, s') else (16, s)
    | _ => (16, s)
    end
  else (base, s).

(** The number and what follows it; there is no limit on the length. *)
Definition strntoumax (nptr : list Z) (base : Z) : Z * list Z :=
  let s := skip_space nptr in
  let '(minus, s) := match s with
                     | c :: s' => if (c =? 45) || (c =? 43) then (c =? 45, s') else (false, s)
                     | [] => (false, [])
                     end in
  let '(base, s) := base_prefix s base in
  let '(v, rest) := digits_loop s base 0 in
  (if minus : bool then u64 (- v) else v, rest).

Definition atoi (nptr : list Z) : Z := s32 (strntoumax nptr 10).1.
Definition strtol (nptr : list Z) (base : Z) : Z * list Z :=
  let '(v, rest) := strntoumax nptr base in (s32 v, rest).
Definition strtoul (nptr : list Z) (base : Z) : Z * list Z :=
  let '(v, rest) := strntoumax nptr base in (u32 v, rest).

(** ** Decimal numbers *)

Definition is_dec (c : Z) : Prop := 48 <= c <= 57.
Definition dec_value (s : list Z) (v : Z) : Z := fold_left (λ v c, v * 10 + (c - 48)) s v.

Lemma pow10_pos k : 0 < 10 ^ Z.of_nat k.
Proof. apply Z.pow_pos_nonneg; lia. Qed.

Lemma pow10_S k : 10 ^ Z.of_nat (S k) = 10 * 10 ^ Z.of_nat k.
Proof. rewrite Nat2Z.inj_succ, Z.pow_succ_r by lia. done. Qed.

(** Once a digit is printed, all of them are. *)
Lemma ui2a_digits_spec k : ∀ fuel num uc v,
  (k < fuel)%nat → 0 <= num < 10 ^ Z.of_nat (S k) →
  let s := ui2a_digits fuel num 10 (10 ^ Z.of_nat k) true uc in
  length s = S k ∧ Forall is_dec s ∧ dec_value s v = v * 10 ^ Z.of_nat (S k) + num.
Proof.
  induction k as [|k IH]; intros fuel num uc v Hf Hn; destruct fuel as [|fuel]; try lia.
  - change (10 ^ Z.of_nat 0) with 1. cbn [ui2a_digits Z.eqb orb]. change (1 / 10) with 0.
    rewrite Z.div_1_r. change (10 ^ Z.of_nat 1) with 10 in *. rewrite (proj2 (Z.ltb_lt _ _)) by lia.
    assert (ui2a_digits fuel (num mod 1) 10 0 true uc = []) as -> by (by destruct fuel).
    split_and!; [done|repeat constructor; unfold is_dec; lia..|]. unfold dec_value. simpl. lia.
  - pose proof (pow10_pos k) as Hp. rewrite pow10_S in Hn |- *. rewrite pow10_S in Hn. cbn [ui2a_digits].
    rewrite (proj2 (Z.eqb_neq _ _)) by lia. cbn [orb].
    replace (10 * 10 ^ Z.of_nat k / 10) with (10 ^ Z.of_nat k) by (rewrite Z.mul_comm, Z.div_mul; lia).
    set (p := 10 ^ Z.of_nat k) in *. assert (Hd : 0 <= num / (10 * p) < 10).
    { split; [apply Z.div_pos; lia|]. apply Z.div_lt_upper_bound; lia. }
    assert (Hm : 0 <= num mod (10 * p) < 10 * p) by (apply Z.mod_pos_bound; lia).
    rewrite (proj2 (Z.ltb_lt _ _)) by lia.
    destruct (IH fuel (num mod (10 * p)) uc (v * 10 + num / (10 * p))) as (H1 & H2 & H3);
      [lia|by rewrite pow10_S|]. fold p in H1, H2, H3.
    split_and!; [simpl; by rewrite H1|constructor; [unfold is_dec; lia|done]|].
    unfold dec_value in *. cbn [fold_left]. replace (num / (10 * p) + 48 - 48) with (num / (10 * p)) by lia.
    rewrite H3, !pow10_S. fold p. pose proof (Z.div_mod num (10 * p)). lia.
Qed.

(** The scale is the power of ten of the first digit. *)
Lemma ui2a_scale_spec num : 0 <= num < 4294967296 → ∀ j fuel,
  (j <= 9)%nat → (9 - j < fuel)%nat → (j = 0%nat ∨ 10 ^ Z.of_nat j <= num) →
  ∃ k, (k <= 9)%nat ∧ ui2a_scale fuel num 10 (10 ^ Z.of_nat j) = 10 ^ Z.of_nat k ∧
    num < 10 ^ Z.of_nat (S k) ∧ (k = 0%nat ∨ 10 ^ Z.of_nat k <= num).
Proof.
  intros Hn. intros j fuel. revert j. induction fuel as [|fuel IH]; intros j Hj Hf Hlow; [lia|].
  cbn [ui2a_scale]. pose proof (pow10_pos j) as Hp. destruct (Z.leb_spec 10 (num / 10 ^ Z.of_nat j)) as [Hge|Hlt].
  - assert (H10 : 10 * 10 ^ Z.of_nat j <= num).
    { pose proof (Z.mul_div_le num (10 ^ Z.of_nat j) Hp). nia. }
    assert (j ≠ 9%nat) by (intros ->; change (10 ^ Z.of_nat 9) with 1000000000 in H10; lia).
    rewrite u32_small by lia. rewrite Z.mul_comm, <- pow10_S.
    apply IH; [lia|lia|right; by rewrite pow10_S].
  - exists j. split_and!; [done|done| |done]. rewrite pow10_S.
    pose proof (Z.div_mod num (10 ^ Z.of_nat j)). pose proof (Z.mod_pos_bound num (10 ^ Z.of_nat j)). nia.
Qed.

(** [ui2a] prints the decimal digits of its argument. *)
Lemma ui2a_dec num uc v :
  0 <= num < 4294967296 →
  ui2a num 10 uc ≠ [] ∧ Forall is_dec (ui2a num 10 uc) ∧
  ∃ k, length (ui2a num 10 uc) = S k ∧ (k <= 9)%nat ∧
    dec_value (ui2a num 10 uc) v = v * 10 ^ Z.of_nat (S k) + num.
Proof.
  intros Hn. destruct (ui2a_scale_spec num Hn 0 33) as (k & Hk & Hs & Hlt & Hlow); [lia|lia|by left|].
  unfold ui2a. change (10 ^ Z.of_nat 0) with 1 in Hs. rewrite Hs.
  assert (Hstart : ui2a_digits 33 num 10 (10 ^ Z.of_nat k) false uc = ui2a_digits 33 num 10 (10 ^ Z.of_nat k) true uc).
  { change 33%nat with (S 32). cbn [ui2a_digits orb]. pose proof (pow10_pos k) as Hp.
    rewrite (proj2 (Z.eqb_neq _ _)) by lia. destruct Hlow as [->|Hlow]; [by rewrite orb_true_r|].
    rewrite (proj2 (Z.ltb_lt 0 _)); [done|]. apply Z.div_str_pos. lia. }
  rewrite Hstart. destruct (ui2a_digits_spec k 33 num uc v) as (H1 & H2 & H3); [lia|lia|].
  split_and!; [|done|eauto]. intros E. by rewrite E in H1.
Qed.

(** The text after a number does not continue it. *)
Definition ends_number (rest : list Z) : Prop := ∀ c, head rest = Some c → ¬ is_dec c.

Lemma digitval_dec c : is_dec c → digitval c = c - 48.
Proof. unfold is_dec, digitval. intros. by rewrite !(proj2 (Z.leb_le _ _)) by lia. Qed.

Lemma digitval_not_dec c : ¬ is_dec c → ((0 <=? digitval c) && (digitval c <? 10)) = false.
Proof.
  unfold is_dec, digitval. intros Hc.
  destruct (Z.leb_spec 48 c), (Z.leb_spec c 57); try lia; cbn [andb];
  destruct (Z.leb_spec 65 c), (Z.leb_spec c 90); cbn [andb];
  try (apply andb_false_iff; right; apply Z.ltb_ge; lia);
  destruct (Z.leb_spec 97 c), (Z.leb_spec c 122); cbn [andb];
  solve [done | apply andb_false_iff; right; apply Z.ltb_ge; lia].
Qed.

Lemma digits_loop_dec s rest : ∀ v,
  Forall is_dec s → ends_number rest → 0 <= v → v * 10 ^ Z.of_nat (length s) + 10 ^ Z.of_nat (length s) <= 2 ^ 64 →
  digits_loop (s ++ rest) 10 v = (dec_value s v, rest).
Proof.
  induction s as [|c s IH]; intros v Hs Hr Hv Hb.
  - cbn [app]. destruct rest as [|c rest]; [done|]. cbn [digits_loop].
    by rewrite digitval_not_dec by (by apply Hr).
  - apply Forall_cons in Hs as [Hc Hs]. cbn [length] in Hb. rewrite pow10_S in Hb.
    pose proof (pow10_pos (length s)). cbn [app digits_loop]. rewrite digitval_dec by done. unfold is_dec in Hc.
    rewrite (proj2 (Z.leb_le _ _)), (proj2 (Z.ltb_lt _ _)) by lia. cbn [andb].
    unfold u64. rewrite Z.mod_small by nia. rewrite IH; [done|done|done|lia|nia].
Qed.

Lemma base_prefix_10 s : base_prefix s 10 = (10, s).
Proof. done. Qed.

Lemma strntoumax_unsigned s rest v :
  s ≠ [] → Forall is_dec s → (length s <= 10)%nat → ends_number rest → dec_value s 0 = v →
  strntoumax (s ++ rest) 10 = (v, rest).
Proof.
  intros Hne Hs Hlen Hr Hv. destruct s as [|c s]; [done|]. pose proof Hs as [Hc _]%Forall_cons. unfold is_dec in Hc.
  unfold strntoumax. cbn [app skip_space]. assert (isspace c = false) as ->.
  { unfold isspace. by rewrite !(proj2 (Z.eqb_neq _ _)) by lia. }
  rewrite !(proj2 (Z.eqb_neq c _)) by lia. cbn [orb]. rewrite base_prefix_10.
  change (c :: s ++ rest) with ((c :: s) ++ rest). rewrite digits_loop_dec; [by rewrite Hv|done|done|lia|].
  assert (10 ^ Z.of_nat (length (c :: s)) <= 10 ^ 10) by (apply Z.pow_le_mono_r; lia). lia.
Qed.

Lemma strntoumax_minus s rest : 
  s ≠ [] → Forall is_dec s → (length s <= 10)%nat → ends_number rest →
  strntoumax (45 :: s ++ rest) 10 = (u64 (- dec_value s 0), rest).
Proof.
  intros Hne Hs Hlen Hr. unfold strntoumax. cbn [skip_space]. change (isspace 45) with false. cbn iota.
  change (45 =? 45) with true. cbn [orb]. rewrite base_prefix_10, digits_loop_dec; [done|done|done|lia|].
  assert (10 ^ Z.of_nat (length s) <= 10 ^ 10) by (apply Z.pow_le_mono_r; lia). lia.
Qed.

Lemma s32_of_u64 n : is_s32 n → s32 (u64 n) = n.
Proof.
  unfold is_s32, s32, u64. intros Hn. change (2 ^ 31) with 2147483648. change (2 ^ 32) with 4294967296.
  change (2 ^ 64) with 18446744073709551616. Z.to_euclidean_division_equations. lia.
Qed.

Lemma format_d_text n : is_s32 n →
  ∃ s, s ≠ [] ∧ Forall is_dec s ∧ (length s <= 10)%nat ∧
    (n < 0 ∧ format_d n = 45 :: s ∧ dec_value s 0 = - n ∨ 0 <= n ∧ format_d n = s ∧ dec_value s 0 = n).
Proof.
  intros Hn. unfold is_s32 in Hn. unfold format_d, i2a, putchw. destruct (Z.ltb_spec n 0) as [Hneg|Hpos].
  - rewrite (u32_small (- n)) by lia.
    destruct (ui2a_dec (- n) false 0) as (H1 & H2 & k & H3 & H4 & H5); [lia|].
    exists (ui2a (- n) 10 false). split_and!; [done|done|lia|]. left. split_and!; [done|done|lia].
  - destruct (ui2a_dec n false 0) as (H1 & H2 & k & H3 & H4 & H5); [lia|].
    exists (ui2a n 10 false). split_and!; [done|done|lia|]. right. split_and!; [done|done|lia].
Qed.

Lemma format_u_text n : is_u32 n →
  format_u n ≠ [] ∧ Forall is_dec (format_u n) ∧ (length (format_u n) <= 10)%nat ∧ dec_value (format_u n) 0 = n.
Proof.
  intros Hn. change (format_u n) with (ui2a n 10 false).
  destruct (ui2a_dec n false 0 Hn) as (H1 & H2 & k & H3 & H4 & H5). split_and!; [done|done|lia|lia].
Qed.

Lemma s32_small n : is_s32 n → s32 n = n.
Proof.
  unfold is_s32, s32. intros Hn. change (2 ^ 31) with 2147483648. change (2 ^ 32) with 4294967296.
  rewrite Z.mod_small; lia.
Qed.

Lemma atoi_format_d n rest : is_s32 n → ends_number rest → atoi (format_d n ++ rest) = n.
Proof.
  intros Hn Hr. unfold atoi. destruct (format_d_text n Hn) as (s & H1 & H2 & H3 & [(Hneg & -> & Hv)|(Hpos & -> & Hv)]).
  - cbn [app]. rewrite strntoumax_minus by done. rewrite Hv, Z.opp_involutive. by apply s32_of_u64.
  - rewrite (strntoumax_unsigned s rest n) by done. by apply s32_small.
Qed.

Lemma u32_of_s32 n : is_u32 n → u32 (s32 n) = n.
Proof.
  unfold is_u32, s32, u32. intros Hn. change (2 ^ 31) with 2147483648. change (2 ^ 32) with 4294967296.
  Z.to_euclidean_division_equations. lia.
Qed.

Lemma atoi_format_u n rest : is_u32 n → ends_number rest → u32 (atoi (format_u n ++ rest)) = n.
Proof.
  intros Hn Hr. unfold atoi. destruct (format_u_text n Hn) as (H1 & H2 & H3 & H4).
  rewrite (strntoumax_unsigned _ rest n) by done. by apply u32_of_s32.
Qed.

(** *** Base 0

    A number that is printed has no leading zero, so it is read back as decimal where the base
    is taken from the text. *)
Lemma dec_value_bound s : ∀ v, Forall is_dec s → dec_value s v < (v + 1) * 10 ^ Z.of_nat (length s).
Proof.
  induction s as [|c s IH]; intros v Hs; [cbn; lia|]. apply Forall_cons in Hs as [Hc Hs]. unfold is_dec in Hc.
  cbn [length]. rewrite pow10_S. pose proof (pow10_pos (length s)). specialize (IH (v * 10 + (c - 48)) Hs).
  unfold dec_value in *. cbn [fold_left]. nia.
Qed.

Lemma ui2a_head num uc : 0 < num < 4294967296 → ∃ c s, ui2a num 10 uc = c :: s ∧ c ≠ 48.
Proof.
  intros Hn. destruct (ui2a_dec num uc 0) as (H1 & H2 & k & H3 & H4 & H5); [lia|].
  destruct (ui2a_scale_spec num ltac:(lia) 0 33) as (j & Hj & Hs & Hlt & Hlow); [lia|lia|by left|].
  destruct (ui2a num 10 uc) as [|c s] eqn:E; [done|]. exists c, s. split; [done|]. intros ->.
  assert (length (ui2a num 10 uc) = S j) as Hlen.
  { unfold ui2a. change (10 ^ Z.of_nat 0) with 1 in Hs. rewrite Hs. change 33%nat with (S 32).
    pose proof (pow10_pos j) as Hp. cbn [ui2a_digits orb]. rewrite (proj2 (Z.eqb_neq _ _)) by lia.
    assert ((0 <? num / 10 ^ Z.of_nat j) || (10 ^ Z.of_nat j / 10 =? 0) = true) as ->.
    { destruct Hlow as [->|Hlow]; [by rewrite orb_true_r|]. rewrite (proj2 (Z.ltb_lt 0 _)); [done|]. apply Z.div_str_pos. lia. }
    destruct (ui2a_digits_spec j 33 num uc 0 ltac:(lia) ltac:(lia)) as (Hl & _).
    change 33%nat with (S 32) in Hl. cbn [ui2a_digits orb] in Hl. rewrite (proj2 (Z.eqb_neq _ _)) in Hl by lia. exact Hl. }
  rewrite E in Hlen. apply Forall_cons in H2 as [_ H2]. pose proof (dec_value_bound s 0 H2) as Hb.
  unfold dec_value in H5, Hb. cbn [fold_left] in H5. change (0 * 10 + (48 - 48)) with 0 in H5. rewrite H5 in Hb.
  cbn [length] in Hlen. replace (length s) with j in Hb by lia. destruct Hlow as [->|Hlow]; [cbn in Hb; lia|lia].
Qed.

Lemma base_prefix_0 c s : c ≠ 48 → base_prefix (c :: s) 0 = (10, c :: s).
Proof. intros Hc. unfold base_prefix. cbn [Z.eqb]. destruct c as [|p|p]; [done| |done]. do 6 (destruct p as [p|p|]; try done). Qed.

Lemma isspace_dec c : is_dec c → isspace c = false.
Proof. unfold is_dec, isspace. intros. by rewrite !(proj2 (Z.eqb_neq _ _)) by lia. Qed.

Lemma digits_all s : Forall is_dec s → (length s <= 10)%nat → digits_loop s 10 0 = (dec_value s 0, []).
Proof.
  intros Hs Hl. rewrite <- (app_nil_r s) at 1. apply digits_loop_dec; [done|done|lia|].
  assert (10 ^ Z.of_nat (length s) <= 10 ^ 10) by (apply Z.pow_le_mono_r; lia). lia.
Qed.

(** [strtol] with base 0 reads back what %ld prints. *)
Lemma strtol_format_d n : is_s32 n → strtol (format_d n) 0 = (n, []).
Proof.
  intros Hn. destruct (decide (n = 0)) as [->|Hnz]; [done|]. unfold strtol.
  assert (strntoumax (format_d n) 0 = (u64 n, [])) as ->; [|by rewrite s32_of_u64].
  unfold is_s32 in Hn. unfold format_d, i2a, putchw. destruct (Z.ltb_spec n 0).
  - rewrite (u32_small (- n)) by lia. destruct (ui2a_head (- n) false) as (c & s & E & Hc); [lia|].
    destruct (ui2a_dec (- n) false 0) as (_ & H2 & k & H3 & H4 & H5); [lia|]. cbn [fst snd app]. rewrite E in *.
    unfold strntoumax. cbn [skip_space]. change (isspace 45) with false. cbn iota. change (45 =? 45) with true. cbn [orb].
    rewrite base_prefix_0, digits_all by (done || lia). rewrite H5. do 2 f_equal. lia.
  - destruct (ui2a_head n false) as (c & s & E & Hc); [lia|].
    destruct (ui2a_dec n false 0) as (_ & H2 & k & H3 & H4 & H5); [lia|]. cbn [fst snd app]. rewrite E in *.
    pose proof H2 as [Hd _]%Forall_cons. unfold strntoumax. cbn [skip_space]. rewrite isspace_dec by done.
    unfold is_dec in Hd. rewrite !(proj2 (Z.eqb_neq c _)) by lia. cbn [orb].
    rewrite base_prefix_0, digits_all by (done || lia). rewrite H5. f_equal. unfold u64. rewrite Z.mod_small; lia.
Qed.

(** ** Formatted output to the console

    Over a console: whether the last character written was in the middle of a line, the output of
    characters, and the time, in ticks.  [text] is what vsnprintf would print without a limit. *)
Definition CONS_OUTPUT_MAX_LINE : nat := 128.

Section cons_fmt.
Context {S : Type} (console_is_midline : S → bool) (console_write : list Z → M S unit) (os_time_get : M S Z).

Definition console_vprintf (text : list Z) : M S Z :=
  let len := if (CONS_OUTPUT_MAX_LINE <=? length text)%nat then (CONS_OUTPUT_MAX_LINE - 1)%nat else length text in
  console_write (take len text) ;;
  mret (Z.of_nat len).

(** Each line starts with a timestamp. *)
Definition console_printf (text : list Z) : M S unit :=
  s ← get;
  (if negb (console_is_midline s) return M S unit then
     now ← os_time_get;
     console_write (format_u (u32 now) ++ [58])
   else mret tt) ;;
  _ ← console_vprintf text;
  mret tt.

(** The texts of several calls. *)
Fixpoint console_prints (texts : list (list Z)) : M S unit :=
  match texts with [] => mret tt | text :: texts => console_printf text ;; console_prints texts end.
End cons_fmt.

(** A console that keeps what is written to it.  [time i] is the time at the [i]-th reading. *)
Record console_out := mk_out { co_midline : bool; co_text : list Z; co_reads : nat }.
Definition out_write (str : list Z) : M console_out unit :=
  modify (λ c, mk_out (match last str with Some ch => negb (ch =? 10) | None => co_midline c end)
                 (co_text c ++ str) (co_reads c)).
Definition out_time (time : nat → Z) : M console_out Z :=
  c ← get; modify (λ c, mk_out (co_midline c) (co_text c) (S (co_reads c))) ;; mret (time (co_reads c)).
Definition out_prints (time : nat → Z) : list (list Z) → M console_out unit :=
  console_prints co_midline out_write (out_time time).

(** A line as it appears. *)
Definition stamped (time : nat → Z) (i : nat) (line : list Z) : list Z := format_u (u32 (time i)) ++ [58] ++ line.

Lemma out_printf_line time l c :
  (length l <= 127)%nat → last l = Some 10 → co_midline c = false →
  console_printf co_midline out_write (out_time time) l c =
    Ret (tt, mk_out false (co_text c ++ stamped time (co_reads c) l) (S (co_reads c))).
Proof.
  intros Hlen Hlast Hc. unfold console_printf, out_time, console_vprintf, out_write, mbind, M_bind, get, modify, mret, M_ret.
  rewrite Hc. cbn [negb co_midline co_text co_reads]. unfold CONS_OUTPUT_MAX_LINE.
  rewrite (proj2 (Nat.leb_gt _ _)), firstn_all, Hlast by lia. cbn [co_midline co_text co_reads].
  unfold stamped. by rewrite <- !(assoc_L (++)).
Qed.

(** Lines of at most 127 characters appear as they are, each behind its timestamp. *)
Lemma out_prints_lines time lines : ∀ c,
  Forall (λ l, (length l <= 127)%nat ∧ last l = Some 10) lines → co_midline c = false →
  out_prints time lines c =
    Ret (tt, mk_out false (co_text c ++ mjoin (imap (λ i, stamped time (co_reads c + i)) lines)) (co_reads c + length lines)).
Proof.
  induction lines as [|l lines IH]; intros c Hl Hc.
  { cbn. rewrite app_nil_r, Nat.add_0_r, <- Hc. by destruct c. }
  apply Forall_cons in Hl as [[Hlen Hlast] Hl]. unfold out_prints. cbn [console_prints].
  etrans; [apply bind_ret_run, out_printf_line; done|]. cbv beta. fold (out_prints time). rewrite IH by done.
  cbn [co_midline co_text co_reads length]. generalize (stamped time). intros st.
  rewrite imap_cons, Nat.add_0_r, <- (assoc_L (++)), Nat.add_succ_r.
  assert (imap (λ i, st (S (co_reads c) + i)%nat) lines =
          imap ((λ i, st (co_reads c + i)%nat) ∘ S) lines) as E; [|rewrite E; reflexivity].
  apply imap_ext. intros i x _. unfold compose. by rewrite Nat.add_succ_r.
Qed.

(** ** Property *)

(** Every 32-bit integer printed with %d (or %ld) is read back by [atoi], and every
    unsigned one printed with %u by the conversion the JSON decoder uses, whatever text
    that does not start with a digit follows; the most negative number included. *)
Theorem printf_atoi_roundtrip n rest :
  ends_number rest →
  (is_s32 n → atoi (format_d n ++ rest) = n) ∧ (is_u32 n → u32 (atoi (format_u n ++ rest)) = n).
Proof. intros Hr. split; intros Hn; [by apply atoi_format_d|by apply atoi_format_u]. Qed.

Lemma printf_atoi_roundtrip_witness :
  (is_s32 (-2147483648) → atoi (format_d (-2147483648) ++ [44]) = -2147483648) ∧
  (is_u32 (-2147483648) → u32 (atoi (format_u (-2147483648) ++ [44])) = -2147483648).
Proof.
  apply (printf_atoi_roundtrip (-2147483648) [44]). intros c [= <-]. unfold is_dec. lia.
Defined.
