(* ===== verification/Config.v ===== *)
(** Configuration: sys/config/src/config.c, the shell command of config_cli.c, and
    strtok_r.c, strsep.c and strpbrk.c of libs/baselibc/src, which split the names.

    Strings are lists of character codes without the terminating NUL, as in [Cfmt]; the
    string a function returns a pointer to is its result.  The variables of the
    application are the state [A] of its handlers, which do not use the registry; a
    variable is the bytes in memory at its address.  The pieces of a name are copies:
    what strtok_r writes into the name between them is not modelled. *)
From Stdlib Require Import ZArith Lia.
From Stdlib Require Import Strings.String Strings.Ascii.
From stdpp Require Import base decidable numbers list.
From S2P Require Import Prelude.
From S2P Require Import OsState.
From S2P Require Import Cfmt.

#[local] Open Scope Z_scope.

(** String literals. *)
Definition cstr (s : string) : list Z := (λ c, Z.of_N (N_of_ascii c)) <$> list_ascii_of_string s.
Arguments cstr s%_string_scope.

(** ** Splitting strings *)

(** [strpbrk]: the characters before the first one of [delim], and what follows it. *)
Fixpoint strpbrk (s1 s2 : list Z) : list Z * option (list Z) :=
  match s1 with
  | [] => ([], None)
  | c :: s => if bool_decide (c ∈ s2) then ([], Some s)
              else let '(t, e) := strpbrk s s2 in (c :: t, e)
  end.

(** The piece, and the new value of the string pointer; [None] is NULL. *)
Definition strsep (stringp : option (list Z)) (delim : list Z) : option (list Z) * option (list Z) :=
  match stringp with
  | None => (None, None)
  | Some s => let '(t, e) := strpbrk s delim in (Some t, e)
  end.

Fixpoint strtok_loop {S} (fuel : nat) (delim : list Z) (holder : option (list Z)) :
    M S (option (list Z) * option (list Z)) :=
  match fuel with
  | O => fault_with FFuel
  | Datatypes.S fuel =>
      match strsep holder delim with
      | (Some [], holder) => strtok_loop fuel delim holder
      | (s, holder) => mret (s, holder)
      end
  end.

(** An empty piece takes up a character or ends the string. *)
Definition strtok_r {S} (s : option (list Z)) (delim : list Z) (holder : option (list Z)) :
    M S (option (list Z) * option (list Z)) :=
  let holder := match s with Some s => Some s | None => holder end in
  strtok_loop (Datatypes.S (Datatypes.S (from_option length 0%nat holder))) delim holder.

(** ** Values *)

Inductive conf_type :=
  | CONF_NONE | CONF_DIR | CONF_INT8 | CONF_INT16 | CONF_INT32 | CONF_INT64 | CONF_STRING | CONF_BYTES
  | CONF_FLOAT | CONF_DOUBLE.
#[export] Instance conf_type_dec : EqDecision conf_type := ltac:(solve_decision).

Definition CONF_MAX_DIR_DEPTH : nat := 8.
Definition CONF_NAME_SEPARATOR : list Z := cstr "/".

(** The signed reading of an integer of [n] bytes in memory. *)
Definition read_int (n : nat) (vp : list Z) : Z :=
  let w := 256 ^ Z.of_nat n in (bytes_val (take n vp) + w / 2) mod w - w / 2.
(** The result, and the bytes written to [vp]. *)
Definition conf_value_from_str (val_str : list Z) (type : conf_type) (maxlen : Z) : os_error * option (list Z) :=
  let err := (OS_INVALID_PARM, None) in
  let int (n : nat) (in_range : Z → bool) :=
    let '(val, eptr) := strtol val_str 0 in
    if negb (bool_decide (eptr = [])) then err
    else if in_range val then (OS_OK, Some (int_bytes n val)) else err in
  match type with
  | CONF_INT8 => int 1%nat (λ val, negb ((val <? -128) || (255 <? val)))
  | CONF_INT16 => int 2%nat (λ val, negb ((val <? -32768) || (65535 <? val)))
  | CONF_INT32 => int 4%nat (λ _, true)
  | CONF_STRING =>
      let val := Z.of_nat (length val_str) in
      if maxlen <? val + 1 then err else (OS_OK, Some (val_str ++ [0]))
  | _ => err
  end.

(** [snprintf(buf, buf_len, "%ld", val)]: vsnprintf keeps one character for the NUL. *)
Definition conf_str_from_value (type : conf_type) (vp : list Z) (buf_len : Z) : option (list Z) :=
  let int (n : nat) := Some (take (Z.to_nat (u32 (buf_len - 1))) (format_d (read_int n vp))) in
  match type with
  | CONF_STRING => Some (c_string vp)
  | CONF_INT8 => int 1%nat
  | CONF_INT16 => int 2%nat
  | CONF_INT32 => int 4%nat
  | _ => None
  end.

(** ** Handlers *)

Section conf.
Context {A : Type}.

Record conf_handler := mk_handler {
  ch_name : list Z;
  ch_get : list (list Z) → Z → M A (option (list Z));
  ch_set : list (list Z) → list Z → M A os_error;
  ch_commit : option (M A os_error) }.

(** [conf_handlers] and the variables of the application. *)
Record conf_state := mk_conf { conf_handlers : list conf_handler; vars : A }.

Definition call {X} (m : M A X) : M conf_state X := λ s,
  match m (vars s) with
  | Ret (x, a) => Ret (x, mk_conf (conf_handlers s) a)
  | Fault f => Fault f
  end.

Definition conf_register (handler : conf_handler) : M conf_state os_error :=
  modify (λ s, mk_conf (handler :: conf_handlers s) (vars s)) ;; mret OS_OK.

Fixpoint handler_loop (name : list Z) (l : list conf_handler) : option conf_handler :=
  match l with
  | [] => None
  | ch :: l => if bool_decide (name = ch_name ch) then Some ch else handler_loop name l
  end.
Definition conf_handler_lookup (name : list Z) : M conf_state (option conf_handler) :=
  gets (λ s, handler_loop name (conf_handlers s)).

(** The array [name_argv] of the callers has CONF_MAX_DIR_DEPTH elements: writing behind it
    is a fault. *)
Fixpoint parse_loop (fuel : nat) (tok tok_ptr : option (list Z)) (name_argv : list (list Z)) :
    M conf_state (list (list Z)) :=
  match tok with
  | None => mret name_argv
  | Some t =>
      match fuel with
      | O => fault_with FFuel
      | S fuel =>
          if (length name_argv <? CONF_MAX_DIR_DEPTH)%nat then
            '(tok, tok_ptr) ← strtok_r None CONF_NAME_SEPARATOR tok_ptr;
            parse_loop fuel tok tok_ptr (name_argv ++ [t])
          else fault_with FNull
      end
  end.
Definition conf_parse_name (name : list Z) : M conf_state (list (list Z)) :=
  '(tok, tok_ptr) ← strtok_r (Some name) CONF_NAME_SEPARATOR None;
  parse_loop (S (length name)) tok tok_ptr [].

(** Without a piece, [name_argv[0]] is not initialised. *)
Definition conf_parse_and_lookup (name : list Z) : M conf_state (option conf_handler * list (list Z)) :=
  name_argv ← conf_parse_name name;
  match name_argv with
  | [] => fault_with FNull
  | n :: args => ch ← conf_handler_lookup n; mret (ch, args)
  end.

Definition conf_set_value (name val_str : list Z) : M conf_state os_error :=
  '(ch, args) ← conf_parse_and_lookup name;
  match ch with
  | None => mret OS_INVALID_PARM
  | Some ch => call (ch_set ch args val_str)
  end.

Definition conf_get_value (name : list Z) (buf_len : Z) : M conf_state (option (list Z)) :=
  '(ch, args) ← conf_parse_and_lookup name;
  match ch with
  | None => mret None
  | Some ch => call (ch_get ch args buf_len)
  end.

Fixpoint commit_loop (l : list conf_handler) : M conf_state os_error :=
  match l with
  | [] => mret OS_OK
  | ch :: l =>
      match ch_commit ch with
      | Some f => rc ← call f; if decide (rc = OS_OK) then commit_loop l else mret rc
      | None => commit_loop l
      end
  end.
Definition conf_commit (name : option (list Z)) : M conf_state os_error :=
  match name with
  | Some name =>
      '(ch, _) ← conf_parse_and_lookup name;
      match ch with
      | None => mret OS_INVALID_PARM
      | Some ch => match ch_commit ch with Some f => call f | None => mret OS_OK end
      end
  | None => s ← get; commit_loop (conf_handlers s)
  end.

(** The shell command [config]: the texts it hands to console_printf (see [Cfmt]).  [tmp_buf]
    has 16 bytes. *)
Definition shell_conf_command (argv : list (list Z)) : M conf_state (list (list Z)) :=
  let err (out : list (list Z)) := mret (out ++ [cstr "Invalid args" ++ [10]]) in
  let run (name : list Z) (val : option (list Z)) :=
    if bool_decide (name = cstr "commit") then
      rc ← conf_commit val;
      mret [if decide (rc = OS_OK) then cstr "Done" ++ [10] else cstr "Failed to commit" ++ [10]]
    else
      match val with
      | None =>
          val ← conf_get_value name 16;
          match val with
          | None => err [cstr "Cannot display value" ++ [10]]
          | Some val => mret [val ++ [10]]
          end
      | Some val =>
          rc ← conf_set_value name val;
          if decide (rc = OS_OK) then mret [] else err [cstr "Failed to set" ++ [10]]
      end in
  match argv with
  | [_; name] => run name None
  | [_; name; val] => run name (Some val)
  | _ => err []
  end.
End conf.
Arguments conf_handler : clear implicits.
Arguments conf_state : clear implicits.

(** ** The handler of the sample application

    project/slinky/src/main.c: an 8-bit variable that a commit takes over from its shadow, and a
    string in an array of 32 characters. *)

Record test_vars := mk_vars { test8 : list Z; test8_shadow : list Z; test_str : list Z }.

(** Bytes written at the beginning of a variable. *)
Definition overwrite (bytes old : list Z) : list Z := bytes ++ drop (length bytes) old.

Definition test_conf_get (argv : list (list Z)) (max_len : Z) : M test_vars (option (list Z)) :=
  s ← get;
  match argv with
  | [a] => if bool_decide (a = cstr "8") then mret (conf_str_from_value CONF_INT8 (test8 s) max_len)
           else if bool_decide (a = cstr "str") then mret (Some (c_string (test_str s))) else mret None
  | _ => mret None
  end.

Definition test_conf_set (argv : list (list Z)) (val : list Z) : M test_vars os_error :=
  match argv with
  | [a] =>
      if bool_decide (a = cstr "8") then
        let '(rc, bytes) := conf_value_from_str val CONF_INT8 1 in
        modify (λ s, mk_vars (test8 s) (overwrite (default [] bytes) (test8_shadow s)) (test_str s)) ;; mret rc
      else if bool_decide (a = cstr "str") then
        let '(rc, bytes) := conf_value_from_str val CONF_STRING 32 in
        modify (λ s, mk_vars (test8 s) (test8_shadow s) (overwrite (default [] bytes) (test_str s))) ;; mret rc
      else mret OS_ENOENT
  | _ => mret OS_ENOENT
  end.

Definition test_conf_commit : M test_vars os_error :=
  modify (λ s, mk_vars (test8_shadow s) (test8_shadow s) (test_str s)) ;; mret OS_OK.

Definition test_conf_handler : conf_handler test_vars :=
  mk_handler (cstr "test") test_conf_get test_conf_set (Some test_conf_commit).

(** ** Names *)

(** The pieces of a name between the separators, and the ones that are not empty. *)
Fixpoint fields (s : list Z) : list (list Z) :=
  match s with
  | [] => [[]]
  | c :: s =>
      if c =? 47 then [] :: fields s
      else match fields s with f :: fs => (c :: f) :: fs | [] => [[c]] end
  end.

Lemma fields_ne s : fields s ≠ [].
Proof. destruct s as [|c s]; [done|]. cbn. destruct (c =? 47); [done|]. by destruct (fields s). Qed.









(** ** Values *)

(** What is read as a signed integer is written back. *)
Lemma int_bytes_read l : Forall is_byte l → int_bytes (length l) (read_int (length l) l) = l.
Proof.
  intros Hl. unfold read_int. rewrite take_ge by done. set (w := 256 ^ Z.of_nat (length l)).
  rewrite Z.mod_eq by (subst w; lia). set (q := (_ + _) / w).
  replace (bytes_val l + w / 2 - w * q - w / 2) with (bytes_val l + (- q) * w) by lia. by apply int_bytes_val.
Qed.

Lemma read_int_bound n l : (0 < n)%nat → - (256 ^ Z.of_nat n / 2) <= read_int n l < 256 ^ Z.of_nat n / 2.
Proof.
  intros Hn. unfold read_int. destruct n as [|n]; [lia|]. rewrite Nat2Z.inj_succ, Z.pow_succ_r by lia.
  set (w := 256 ^ Z.of_nat n). assert (0 < w) by (subst w; lia).
  pose proof (Z.mod_pos_bound (bytes_val (take (S n) l) + 256 * w / 2) (256 * w)).
  replace (256 * w / 2) with (128 * w) in * by (replace (256 * w) with (128 * w * 2) by lia; by rewrite Z.div_mul). lia.
Qed.

(** The types of integers, with their size. *)
Definition int_size (type : conf_type) : option nat :=
  match type with CONF_INT8 => Some 1%nat | CONF_INT16 => Some 2%nat | CONF_INT32 => Some 4%nat | _ => None end.

Lemma format_d_length n : is_s32 n → (length (format_d n) <= 11)%nat.
Proof. intros Hn. destruct (format_d_text n Hn) as (s & _ & _ & Hl & [(_ & -> & _)|(_ & -> & _)]); cbn; lia. Qed.

Lemma format_d_take n buf_len : is_s32 n → 12 <= buf_len < 4294967296 →
  take (Z.to_nat (u32 (buf_len - 1))) (format_d n) = format_d n.
Proof. intros Hn Hb. pose proof (format_d_length n Hn). rewrite u32_small by lia. apply take_ge. lia. Qed.

(** An integer of a type is read from its text; the ones above the signed range wrap around. *)
Lemma value_from_int type n v maxlen :
  int_size type = Some n → - (256 ^ Z.of_nat n / 2) <= v < 256 ^ Z.of_nat n → is_s32 v →
  conf_value_from_str (format_d v) type maxlen = (OS_OK, Some (int_bytes n v)).
Proof.
  intros Ht Hv Hs. unfold conf_value_from_str. rewrite strtol_format_d by done.
  destruct type; try done; injection Ht as <-; cbn -[int_bytes Z.ltb]; [| |done].
  - change (- 128 <= v < 256) in Hv. by rewrite !(proj2 (Z.ltb_ge _ _)) by lia.
  - change (- 32768 <= v < 65536) in Hv. by rewrite !(proj2 (Z.ltb_ge _ _)) by lia.
Qed.

(** C23. Configuration values survive their text form.  The text of an integer variable of 8, 16 or
    32 bits, printed into a buffer of at least 12 characters, is read back as the same
    bytes; a string that fits is stored with its terminator and read back.  And a text that is
    refused writes nothing, while one that is accepted writes exactly the bytes of the
    type, for a string no more than the variable has. *)
Theorem conf_value_roundtrip type maxlen :
  (∀ bytes buf_len, int_size type = Some (length bytes) → Forall is_byte bytes → 12 <= buf_len < 4294967296 →
     ∃ text, conf_str_from_value type bytes buf_len = Some text ∧
             conf_value_from_str text type maxlen = (OS_OK, Some bytes)) ∧
  (∀ s rest buf_len, 0 ∉ s → Z.of_nat (length s) < maxlen →
     conf_value_from_str s CONF_STRING maxlen = (OS_OK, Some (s ++ [0])) ∧
     conf_str_from_value CONF_STRING ((s ++ [0]) ++ rest) buf_len = Some s) ∧
  ∀ s, match conf_value_from_str s type maxlen with
       | (OS_OK, Some bytes) =>
           if decide (type = CONF_STRING) then Z.of_nat (length bytes) <= maxlen
           else int_size type = Some (length bytes)
       | (rc, bytes) => rc = OS_INVALID_PARM ∧ bytes = None
       end.
Proof.
  split_and!.
  - intros bytes buf_len Ht Hb Hl. set (n := length bytes) in *.
    assert (0 < n <= 4)%nat as Hn by (destruct type; try done; injection Ht; lia).
    pose proof (read_int_bound n bytes ltac:(lia)) as Hr.
    assert (256 ^ Z.of_nat n / 2 <= 2147483648) as H32.
    { change 2147483648 with (256 ^ 4 / 2). apply Z.div_le_mono; [lia|]. apply Z.pow_le_mono_r; lia. }
    assert (256 ^ Z.of_nat n / 2 <= 256 ^ Z.of_nat n) by (apply Z.div_le_upper_bound; lia).
    assert (is_s32 (read_int n bytes)) as Hs by (unfold is_s32; lia).
    exists (format_d (read_int n bytes)). split.
    + unfold conf_str_from_value. destruct type; try done; injection Ht as Ht; rewrite Ht; by rewrite format_d_take.
    + rewrite (value_from_int type n) by (done || lia). subst n. by rewrite int_bytes_read.
  - intros s rest buf_len H0 Hl. unfold conf_value_from_str, conf_str_from_value.
    rewrite (proj2 (Z.ltb_ge _ _)) by lia. split; [done|]. rewrite <- (assoc_L (++)). f_equal. by apply c_string_app.
  - intros s. unfold conf_value_from_str. destruct (strtol s 0) as [v e].
    destruct type; cbn -[int_bytes Z.ltb length]; try done.
    1-3: destruct (bool_decide _); cbn [negb]; [|done].
    1-2: destruct (_ || _); cbn -[int_bytes length]; [done|].
    1-3: by rewrite length_int_bytes.
    destruct (Z.ltb_spec maxlen (Z.of_nat (length s) + 1)); [done|]. rewrite length_app. rewrite decide_True by done. cbn. lia.
Qed.

Lemma conf_value_roundtrip_witness :
  (∃ text, conf_str_from_value CONF_INT16 [0; 0x80] 12 = Some text ∧
           conf_value_from_str text CONF_INT16 2 = (OS_OK, Some [0; 0x80])) ∧
  conf_value_from_str (cstr "abc") CONF_STRING 4 = (OS_OK, Some (cstr "abc" ++ [0])).
Proof.
  split.
  - apply (conf_value_roundtrip CONF_INT16 2); [done|repeat constructor; discriminate|lia].
  - apply (conf_value_roundtrip CONF_STRING 4) with (rest := []) (buf_len := 0);
      [cbn; rewrite !elem_of_cons, elem_of_nil; intros [|[|[|]]]; done|cbn; lia].
Defined.

(** ** Commands *)

Section test_handler.
Context (st : conf_state test_vars).
Context (registered : handler_loop (cstr "test") (conf_handlers st) = Some test_conf_handler).




(** The command line [config args]. *)
Definition config (args : list (list Z)) : M (conf_state test_vars) (list (list Z)) := shell_conf_command (cstr "config" :: args).









End test_handler.

(** A system in which the handler is the only one. *)
Definition demo : conf_state test_vars := mk_conf [test_conf_handler] (mk_vars [7] [7] (replicate 32 0)).


(** *** Defects

    A name with nine components is written behind the end of [name_argv]; for a name without any,
    [name_argv[0]] is used uninitialised; and a number that does not fit into 32 bits is
    accepted with its low bits. *)
Theorem conf_flaws :
  config [cstr "test/1/2/3/4/5/6/7/8"; cstr "1"] demo = Fault FNull ∧
  config [cstr "/"; cstr "1"] demo = Fault FNull ∧
  conf_value_from_str (cstr "4294967297") CONF_INT8 1 = (OS_OK, Some [1]).
Proof. by vm_compute. Qed.
