(* ===== verification/Log.v ===== *)
(** Logs: sys/log/src/log.c, the memory log of log_cbmem.c over the circular buffers
    of [Cbmem], and the shell command of log_shell.c.

    A log is an identifier.  Its handler is a record of functions on the state [S] of the
    medium the log is kept in.  A walk function, like the C function, gets the
    address and the length of an entry and its argument, which here are the texts that have been
    handed to console_printf so far ([Cfmt] has that function: what of a text appears, and
    the timestamps); the log itself is part of the function.  [os_time_get] and vsnprintf are parameters:
    the time of a call and the formatted text.  The fields of the header of an
    entry have 12 bytes; its size also depends on the alignment of 64-bit integers. *)
From Stdlib Require Import ZArith Lia.
From Stdlib Require Import Strings.String.
From stdpp Require Import base decidable numbers list gmap.
From S2P Require Import Prelude.
From S2P Require Import Cfmt.
From S2P Require Import Cbmem.

#[local] Open Scope Z_scope.

Definition LOG_TYPE_STREAM : Z := 0.
Definition LOG_TYPE_MEMORY : Z := 1.
Definition LOG_PRINTF_MAX_ENTRY_LEN : nat := 128.

Section log.
Context {S : Type} (LOG_ENTRY_HDR_SIZE : nat).

(** ** Logs and handlers *)

Record log_handler := mk_log_handler {
  log_type : Z;
  lh_read : Z → Z → Z → M S (Z * list Z);
  lh_append : list Z → M S Z;
  lh_walk : (Z → Z → list (list Z) → M S (Z * list (list Z))) → list (list Z) → M S (Z * list (list Z));
  lh_flush : M S Z }.

Record log := mk_log { l_name : list Z; l_log : log_handler }.

(** The logs, [g_log_list], and the state of the medium. *)
Record log_state := mk_log_state { logs : gmap nat log; g_log_list : list nat; dev : S }.

Definition on_dev {X} (m : M S X) : M log_state X := λ s,
  match m (dev s) with
  | Ret (x, d) => Ret (x, mk_log_state (logs s) (g_log_list s) d)
  | Fault f => Fault f
  end.
Definition log_of (l : nat) : M log_state log := s ← get; from_option_fault FNull (logs s !! l).

Definition log_list_get_next (l : option nat) : M log_state (option nat) :=
  gets (λ s, match l with None => head (g_log_list s) | Some l => next_of l (g_log_list s) end).

(** Linking a log that is in the list again would make the list a cycle. *)
Definition log_register (name : list Z) (l : nat) (lh : log_handler) : M log_state Z :=
  s ← get;
  if bool_decide (l ∈ g_log_list s) then fault_with FList
  else modify (λ s, mk_log_state (<[l := mk_log name lh]> (logs s)) (g_log_list s ++ [l]) (dev s)) ;; mret 0.

(** The header written over the beginning of [data], which has room for it. *)
Definition log_entry_bytes (now module level : Z) (data : list Z) : list Z :=
  int_bytes 8 now ++ int_bytes 2 level ++ int_bytes 2 module ++ drop 12 data.

Definition log_append (now : Z) (l : nat) (module level : Z) (data : list Z) (len : nat) : M log_state Z :=
  log ← log_of l;
  rc ← on_dev (lh_append (l_log log) (take (len + LOG_ENTRY_HDR_SIZE) (log_entry_bytes now module level data)));
  if negb (rc =? 0) then mret rc else mret 0.

(** [text]: what vsnprintf would print without a limit; [junk]: the uninitialised header in [buf]. *)
Definition log_printf (now : Z) (l : nat) (module level : Z) (junk text : list Z) : M log_state unit :=
  let buf := junk ++ take (LOG_PRINTF_MAX_ENTRY_LEN - 1) text in
  let len := if (LOG_PRINTF_MAX_ENTRY_LEN <=? length text)%nat then (LOG_PRINTF_MAX_ENTRY_LEN - 1)%nat else length text in
  log_append now l module level buf len ;; mret tt.

Definition log_walk (l : nat) (walk_func : Z → Z → list (list Z) → M S (Z * list (list Z))) (arg : list (list Z)) :
    M log_state (Z * list (list Z)) :=
  log ← log_of l;
  '(rc, arg) ← on_dev (lh_walk (l_log log) walk_func arg);
  if negb (rc =? 0) then mret (rc, arg) else mret (0, arg).

Definition log_read (l : nat) (dptr off len : Z) : M log_state (Z * list Z) :=
  log ← log_of l; on_dev (lh_read (l_log log) dptr off len).

Definition log_flush (l : nat) : M log_state Z :=
  log ← log_of l;
  rc ← on_dev (lh_flush (l_log log));
  if negb (rc =? 0) then mret rc else mret 0.

(** ** The shell command *)

(** [data[128]] does not exist: with 128 bytes of text the NUL is written behind the array. *)
Definition shell_log_dump_entry (lh : log_handler) (dptr len : Z) (out : list (list Z)) : M S (Z * list (list Z)) :=
  let sz := Z.of_nat LOG_ENTRY_HDR_SIZE in
  '(rc, ueh) ← lh_read lh dptr 0 sz;
  if negb (rc =? sz) then mret (rc, out)
  else
    let dlen := Z.min (u32 (len - sz)) 128 in
    '(rc, data) ← lh_read lh dptr sz dlen;
    if rc <? 0 then mret (rc, out)
    else if rc <? 128 then
      mret (0, out ++ [[91] ++ format_u (u32 (bytes_val (take 8 ueh))) ++ [93; 32] ++
                       c_string (take (Z.to_nat rc) data) ++ [10]])
    else fault_with FNull.

(** "Dumping log " *)
Definition dumping : list Z := [68; 117; 109; 112; 105; 110; 103; 32; 108; 111; 103; 32].

Fixpoint dump_loop (fuel : nat) (l : option nat) (out : list (list Z)) : M log_state (Z * list (list Z)) :=
  match fuel with
  | O => fault_with FFuel
  | Datatypes.S fuel =>
      l ← log_list_get_next l;
      match l with
      | None => mret (0, out)
      | Some i =>
          log ← log_of i;
          if log_type (l_log log) =? LOG_TYPE_STREAM then dump_loop fuel l out
          else
            '(rc, out) ← log_walk i (shell_log_dump_entry (l_log log)) (out ++ [dumping ++ l_name log ++ [10]]);
            if negb (rc =? 0) then mret (rc, out) else dump_loop fuel l out
      end
  end.
Definition shell_log_dump_all_cmd : M log_state (Z * list (list Z)) :=
  s ← get; dump_loop (Datatypes.S (length (g_log_list s))) None [].
End log.
Arguments log_handler : clear implicits.
Arguments log : clear implicits.
Arguments log_state : clear implicits.

(** ** Logs in memory *)

Section log_cbmem.
Context (started : bool) (pend_rc release_rc : Z).

Definition log_cbmem_append (buf : list Z) : M cstate Z :=
  rc ← cbmem_append started pend_rc release_rc (take (Z.to_nat (u16 (Z.of_nat (length buf)))) buf);
  if negb (rc =? 0) then mret rc else mret 0.

Definition log_cbmem_read (dptr offset len : Z) : M cstate (Z * list Z) :=
  cbmem_read started pend_rc release_rc dptr offset len.

(** The loop is that of [cbmem_walk]; the function also gets the length of the entry. *)
Definition log_cbmem_walk (walk_func : Z → Z → list (list Z) → M cstate (Z * list (list Z))) (arg : list (list Z)) :
    M cstate (Z * list (list Z)) :=
  rc ← cbmem_lock_acquire started pend_rc;
  if negb (rc =? 0) then mret (rc, arg)
  else
    iter ← cbmem_iter_start;
    s ← get;
    arg ← walk_loop (λ hdr arg, len ← ceh_len hdr; walk_func hdr len arg) (S (size (cmem s))) iter arg;
    rc ← cbmem_lock_release started release_rc;
    if negb (rc =? 0) then mret (rc, arg) else mret (0, arg).

Definition log_cbmem_flush : M cstate Z :=
  rc ← cbmem_flush started pend_rc release_rc;
  if negb (rc =? 0) then mret rc else mret 0.

Definition log_cbmem_handler_init : log_handler cstate :=
  mk_log_handler LOG_TYPE_MEMORY log_cbmem_read log_cbmem_append log_cbmem_walk log_cbmem_flush.
End log_cbmem.

(** ** The console as a log

    log_console.c, over the functions of the console: whether it is initialised and in the
    middle of a line, the output of text, and the time. *)
Section log_console.
Context {S : Type} (LOG_ENTRY_HDR_SIZE : nat).
Context (console_is_init : M S bool) (console_is_midline : S → bool) (console_write : list Z → M S unit)
  (os_time_get : M S Z).

(** OS_EINVAL; "[ts=", "ssb, mod=", " level=" and "] ". *)
Definition log_console_refused : Z := 2.
Definition console_prefix (hdr : list Z) : list Z :=
  [91; 116; 115; 61] ++ format_u (u32 (bytes_val (take 8 hdr))) ++
  [115; 115; 98; 44; 32; 109; 111; 100; 61] ++ format_u (bytes_val (take 2 (drop 10 hdr))) ++
  [32; 108; 101; 118; 101; 108; 61] ++ format_u (bytes_val (take 2 (drop 8 hdr))) ++ [93; 32].

Definition log_console_append (buf : list Z) : M S Z :=
  init ← console_is_init;
  if negb init then mret 0
  else
    s ← get;
    (if negb (console_is_midline s) return M S unit
     then console_printf console_is_midline console_write os_time_get (console_prefix buf) else mret tt) ;;
    console_write (drop LOG_ENTRY_HDR_SIZE buf) ;;
    mret 0.

Definition log_console_handler_init : log_handler S :=
  mk_log_handler LOG_TYPE_STREAM (λ _ _ _, mret (log_console_refused, [])) log_console_append
    (λ _ arg, mret (log_console_refused, arg)) (mret log_console_refused).
End log_console.

(** ** Properties *)

(** A call of [log_printf], and the entry and the line it makes. *)
Record log_call := mk_call { lc_now : Z; lc_module : Z; lc_level : Z; lc_junk : list Z; lc_text : list Z }.

Section spec.
Context (started : bool) (pend_rc release_rc : Z) (lock_ok : started = true → pend_rc = 0 ∧ release_rc = 0).
Context (HDR : nat) (HDR_size : (12 <= HDR <= 16)%nat).

Definition call_ok (c : log_call) : Prop := is_u32 (lc_now c) ∧ length (lc_junk c) = HDR ∧ 0 ∉ lc_text c.
Definition shown (c : log_call) : list Z := take 127 (lc_text c).
Definition call_entry (c : log_call) : list Z :=
  log_entry_bytes (lc_now c) (lc_module c) (lc_level c) (lc_junk c) ++ shown c.
Definition call_line (c : log_call) : list Z :=
  [91] ++ format_u (lc_now c) ++ [93; 32] ++ shown c ++ [10].

Definition handler : log_handler cstate := log_cbmem_handler_init started pend_rc release_rc.

Lemma length_entry_hdr now module level junk :
  length junk = HDR → length (log_entry_bytes now module level junk) = HDR.
Proof. intros Hj. unfold log_entry_bytes. rewrite !length_app, !length_int_bytes, length_drop. lia. Qed.

Lemma length_call_entry c : call_ok c → length (call_entry c) = (HDR + length (shown c))%nat.
Proof. intros (_ & Hj & _). unfold call_entry. by rewrite length_app, length_entry_hdr. Qed.

Lemma length_shown c : (length (shown c) <= 127)%nat.
Proof. unfold shown. rewrite length_take. lia. Qed.

Lemma printf_entry c :
  call_ok c →
  let len := if (LOG_PRINTF_MAX_ENTRY_LEN <=? length (lc_text c))%nat then (LOG_PRINTF_MAX_ENTRY_LEN - 1)%nat
             else length (lc_text c) in
  take (len + HDR) (log_entry_bytes (lc_now c) (lc_module c) (lc_level c)
    (lc_junk c ++ take (LOG_PRINTF_MAX_ENTRY_LEN - 1) (lc_text c))) = call_entry c.
Proof.
  intros Hc len. pose proof Hc as (_ & Hj & _). unfold log_entry_bytes. rewrite drop_app_le by lia.
  rewrite !(assoc_L (++)), <- !(assoc_L (++) (int_bytes 8 _)). fold (log_entry_bytes (lc_now c) (lc_module c) (lc_level c) (lc_junk c)).
  change (take (LOG_PRINTF_MAX_ENTRY_LEN - 1) (lc_text c)) with (shown c). fold (call_entry c).
  apply take_ge. rewrite length_call_entry by done. unfold shown. rewrite length_take. subst len.
  unfold LOG_PRINTF_MAX_ENTRY_LEN. destruct (Nat.leb_spec 128 (length (lc_text c))); lia.
Qed.

Definition same_logs (s s' : log_state cstate) : Prop :=
  logs s' = logs s ∧ g_log_list s' = g_log_list s ∧
  c_buf (cb (dev s')) = c_buf (cb (dev s)) ∧ c_buf_end (cb (dev s')) = c_buf_end (cb (dev s)).

Lemma log_printf_ok s l name es c :
  logs s !! l = Some (mk_log name handler) → log_ok (dev s) es → call_ok c →
  c_buf (cb (dev s)) + total es + esize (call_entry c) <= c_buf_end (cb (dev s)) →
  wp (log_printf HDR (lc_now c) l (lc_module c) (lc_level c) (lc_junk c) (lc_text c))
    (λ _ s', same_logs s s' ∧ log_ok (dev s') (es ++ [call_entry c])) s.
Proof.
  intros Hl Hlog Hc Hfit. pose proof (length_call_entry c Hc) as Hlen. pose proof (length_shown c) as Hsh.
  unfold log_printf, log_append, log_of. cbv zeta. rewrite printf_entry by done. wp_simp. rewrite Hl. wp_simp.
  unfold on_dev, handler, log_cbmem_handler_init. cbn [lh_append l_log]. unfold log_cbmem_append.
  rewrite u16_small, Nat2Z.id, take_ge by lia.
  pose proof (cbmem_append_ok started pend_rc release_rc lock_ok (dev s) es (call_entry c) Hlog ltac:(lia) Hfit) as Ha.
  apply wp_run in Ha as (rc & d & Hrun & -> & Hlog' & Hb & He).
  unfold wp, mbind, M_bind. rewrite Hrun. cbn. split; [|done]. split_and!; done.
Qed.

(** *** Reading *)

(** The line the shell prints for the bytes of an entry. *)
Definition entry_line (e : list Z) : list Z :=
  [91] ++ format_u (u32 (bytes_val (take 8 e))) ++ [93; 32] ++ c_string (drop HDR e) ++ [10].

Lemma c_string_all s : 0 ∉ s → c_string s = s.
Proof.
  induction s as [|c s IH]; intros Hs; [done|]. apply not_elem_of_cons in Hs as [Hc Hs]. cbn.
  rewrite (proj2 (Z.eqb_neq _ _)) by done. by rewrite IH.
Qed.

Lemma call_entry_line c : call_ok c → entry_line (call_entry c) = call_line c.
Proof.
  intros Hc. pose proof Hc as (Hn & Hj & H0). unfold entry_line, call_line, call_entry.
  rewrite drop_app_length' by (by rewrite length_entry_hdr). rewrite take_app_le by (rewrite length_entry_hdr by done; lia).
  unfold log_entry_bytes. rewrite take_app_length' by (by rewrite length_int_bytes). unfold is_u32 in Hn.
  rewrite bytes_val_int by lia. rewrite u32_small by done. rewrite c_string_all; [done|].
  intros Hin. apply H0. unfold shown in Hin. by apply elem_of_take in Hin as (i & Hi%list_elem_of_lookup_2 & _).
Qed.

Lemma dump_entry_run d a c out :
  entry_in (cmem d) a (call_entry c) → call_ok c →
  (len ← ceh_len a; shell_log_dump_entry HDR handler a len out) d =
    Ret ((0, out ++ [entry_line (call_entry c)]), d).
Proof.
  intros He Hc. pose proof (length_call_entry c Hc) as Hlen. pose proof (length_shown c) as Hsh.
  erewrite bind_ret_run by (by apply ceh_len_run). cbn beta. unfold shell_log_dump_entry.
  cbn [lh_read handler log_cbmem_handler_init]. unfold log_cbmem_read.
  erewrite bind_ret_run by (eapply cbmem_read_run; [done|done|lia..]). rewrite (proj2 (Z.ltb_ge _ _)) by lia. cbn beta iota.
  rewrite Z.min_l by lia. rewrite Z.eqb_refl. cbn [negb]. rewrite (u32_small (Z.of_nat (length (call_entry c)) - Z.of_nat HDR)) by lia. rewrite (Z.min_l _ 128) by lia.
  erewrite bind_ret_run by (eapply cbmem_read_run; [done|done|lia..]). rewrite (proj2 (Z.ltb_ge (Z.of_nat _) _)) by lia. cbn beta iota.
  rewrite Z.min_l by lia. rewrite (proj2 (Z.ltb_ge _ 0)), (proj2 (Z.ltb_lt _ 128)) by lia.
  unfold mret, M_ret, entry_line. do 4 f_equal. change (Z.to_nat 0) with 0%nat. rewrite drop_0, !Nat2Z.id, take_take.
  rewrite Nat.min_l by lia. do 4 f_equal. rewrite !(take_ge (drop HDR _)); [done|rewrite length_drop; lia..].
Qed.

Lemma fold_lines cs : Forall call_ok cs → ∀ out,
  foldl (λ out e, out ++ [entry_line e]) out (call_entry <$> cs) = out ++ (call_line <$> cs).
Proof.
  induction 1 as [|c l Hc _ IH]; intros out; [by rewrite app_nil_r|].
  rewrite !fmap_cons. cbn [foldl]. rewrite IH, call_entry_line by done. by rewrite <- (assoc_L (++)).
Qed.

(** Walking the log prints its entries in order. *)
Lemma dump_walk_run d cs out :
  log_ok d (call_entry <$> cs) → cs ≠ [] → Forall call_ok cs →
  log_cbmem_walk started pend_rc release_rc (shell_log_dump_entry HDR handler) out d =
    Ret ((0, out ++ (call_line <$> cs)), d).
Proof.
  intros Hlog Hne Hok. pose proof (log_fuel d _ Hlog) as Hf. pose proof Hlog as [_ _ _ Hst _ _].
  unfold log_cbmem_walk. erewrite bind_ret_run by (exact (acquire_run started pend_rc release_rc lock_ok _)). cbn [negb Z.eqb].
  unfold cbmem_iter_start. erewrite bind_ret_run by done. cbn beta. erewrite bind_ret_run by done. cbn beta. rewrite Hst.
  destruct cs as [|c cs]; [done|].
  pose proof (walk_loop_run (λ hdr arg, len ← ceh_len hdr; shell_log_dump_entry HDR handler hdr len arg)
    (λ out e, out ++ [entry_line e]) (λ e, ∃ c, e = call_entry c ∧ call_ok c) d
    ltac:(by intros a e acc He (c' & -> & Hc'); apply dump_entry_run) (call_entry <$> c :: cs) []
    (S (size (cmem d))) out Hlog ltac:(done)) as Hrun.
  cbn [total app] in Hrun. rewrite Z.add_0_r in Hrun.
  erewrite bind_ret_run; [|cbn [fmap list_fmap] in *; apply Hrun].
  - cbn beta. etrans; [apply bind_ret_run, (release_run started pend_rc release_rc lock_ok)|]. cbn [negb Z.eqb].
    unfold mret, M_ret. do 3 f_equal.
    by apply (fold_lines (c :: cs)).
  - change (Forall (λ e, ∃ c, e = call_entry c ∧ call_ok c) (call_entry <$> c :: cs)). apply list.Forall_fmap.
    eapply Forall_impl; [exact Hok|]. intros c' Hc'. by exists c'.
  - cbn in Hf. cbn. lia.
Qed.

Definition printf (l : nat) (c : log_call) : M (log_state cstate) unit :=
  log_printf HDR (lc_now c) l (lc_module c) (lc_level c) (lc_junk c) (lc_text c).
Fixpoint printf_all (l : nat) (cs : list log_call) : M (log_state cstate) unit :=
  match cs with [] => mret tt | c :: cs => printf l c ;; printf_all l cs end.

Lemma printf_all_ok l name cs2 : ∀ s cs1,
  logs s !! l = Some (mk_log name handler) → log_ok (dev s) (call_entry <$> cs1) → Forall call_ok cs2 →
  c_buf (cb (dev s)) + total (call_entry <$> cs1 ++ cs2) <= c_buf_end (cb (dev s)) →
  wp (printf_all l cs2) (λ _ s', same_logs s s' ∧ log_ok (dev s') (call_entry <$> cs1 ++ cs2)) s.
Proof.
  induction cs2 as [|c cs2 IH]; intros s cs1 Hl Hlog Hok Hfit.
  { apply wp_ret. rewrite app_nil_r. by split. }
  apply Forall_cons in Hok as [Hc Hok]. cbn [printf_all]. wp_step.
  pose proof Hfit as Hfit'. rewrite fmap_app, total_app, fmap_cons in Hfit'. cbn [total] in Hfit'.
  pose proof (total_nonneg (call_entry <$> cs2)).
  eapply wp_mono; [apply (log_printf_ok s l name (call_entry <$> cs1) c); [done..|lia]|].
  intros _ s1 ((S1 & S2 & S3 & S4) & Hlog1).
  eapply wp_mono; [apply (IH s1 (cs1 ++ [c]))|].
  - by rewrite S1.
  - by rewrite fmap_app.
  - done.
  - rewrite S3, S4, <- (assoc_L (++)). done.
  - intros _ s2 ((T1 & T2 & T3 & T4) & Hlog2). rewrite <- (assoc_L (++)) in Hlog2. split; [|done].
    split_and!; congruence.
Qed.

Lemma log_of_run {S} (s : log_state S) l x : logs s !! l = Some x → log_of l s = Ret (x, s).
Proof. intros Hl. unfold log_of, mbind, M_bind, get, from_option_fault. by rewrite Hl. Qed.

Lemma log_walk_run s l name cs out :
  logs s !! l = Some (mk_log name handler) → log_ok (dev s) (call_entry <$> cs) → cs ≠ [] → Forall call_ok cs →
  log_walk l (shell_log_dump_entry HDR handler) out s = Ret ((0, out ++ (call_line <$> cs)), s).
Proof.
  intros Hl Hlog Hne Hok. unfold log_walk. erewrite bind_ret_run by (by apply log_of_run). cbn beta.
  erewrite bind_ret_run; [|unfold on_dev; cbn [l_log lh_walk handler log_cbmem_handler_init];
    by rewrite (dump_walk_run (dev s) cs) by done]. cbn beta iota. by destruct s.
Qed.

(** A line that console_printf does not cut. *)
Lemma call_line_fits c : call_ok c → (length (lc_text c) <= 113)%nat →
  (length (call_line c) <= 127)%nat ∧ last (call_line c) = Some 10 ∧ shown c = lc_text c.
Proof.
  intros (Hn & _) Hl. destruct (format_u_text (lc_now c) Hn) as (_ & _ & Hf & _).
  assert (shown c = lc_text c) as E by (apply take_ge; lia). unfold call_line. rewrite E. split; [|split; [|done]].
  - rewrite !length_app. cbn [length]. lia.
  - by rewrite !(assoc_L (++)), last_snoc.
Qed.

(** C22. A log in memory shows what was written to it.  On a log that is registered alone, over a fresh
    buffer with room for the entries, any number of calls of [log_printf] followed by the shell
    command [log] hand a line for each call to console_printf, in order, with the time of the call and
    its text, up to the 127 characters that are kept; no operation faults.  When no text is longer
    than 113 characters these lines appear on the console in full, each behind the time at which
    it was printed; console_printf cuts a longer one after 127 characters. *)
Theorem log_printf_dumped buf buf_len cb0 l name cs :
  0 < buf → total (call_entry <$> cs) <= buf_len → cs ≠ [] → Forall call_ok cs →
  wp (_ ← on_dev (cbmem_init buf buf_len);
      _ ← log_register name l handler;
      printf_all l cs ;;
      shell_log_dump_all_cmd HDR)
    (λ r _, let lines := (dumping ++ name ++ [10]) :: (call_line <$> cs) in r = (0, lines) ∧
       ∀ time con, co_midline con = false → (length name <= 114)%nat →
         Forall (λ c, (length (lc_text c) <= 113)%nat) cs →
         ∃ con', out_prints time lines con = Ret (tt, con') ∧ co_midline con' = false ∧
           co_text con' = co_text con ++ mjoin (imap (λ i, stamped time (co_reads con + i)) lines))
    (mk_log_state ∅ [] (mk_cstate cb0 (buffer buf buf_len))).
Proof.
  intros Hb Hfit Hne Hok.
  eapply (wp_mono _ (λ r _, r = (0, (dumping ++ name ++ [10]) :: (call_line <$> cs)))); [|intros r s' ->; split; [done|]].
  2:{ intros time con Hcon Hname Hshort. eexists. rewrite out_prints_lines; [done| |done].
      apply Forall_cons. split.
      - split; [rewrite !length_app; cbn [length]; change (length dumping) with 12%nat; lia|].
        by rewrite !(assoc_L (++)), last_snoc.
      - assert (Forall (λ c, call_ok c ∧ (length (lc_text c) <= 113)%nat) cs) as Hall by (apply Forall_and; by split).
        apply list.Forall_fmap. eapply Forall_impl; [exact Hall|]. intros c [Hc Hs]. destruct (call_line_fits c Hc Hs) as (H1 & H2 & _). by split. } pose proof (total_nonneg (call_entry <$> cs)).
  wp_step. eapply wp_eq; [reflexivity|]. wp_step. eapply wp_eq; [reflexivity|].
  wp_step. eapply wp_mono; [apply (printf_all_ok l name cs _ [])|].
  - cbn. by rewrite lookup_insert_eq.
  - split; simpl; [done| |lia|done|done|done]. intros a Ha. by apply buffer_lookup.
  - done.
  - cbn. lia.
  - intros _ s ((S1 & S2 & _) & Hlog). cbn [app] in Hlog. cbn in S1, S2.
    unfold shell_log_dump_all_cmd. wp_step. wp_step. rewrite S2. cbn [length dump_loop].
    unfold log_list_get_next. wp_simp. rewrite S2. cbn [head]. wp_step.
    assert (Hl : logs s !! l = Some (mk_log name handler)) by (by rewrite S1, lookup_insert_eq).
    eapply wp_eq; [by apply log_of_run|]. cbn [l_log l_name].
    change (log_type handler =? LOG_TYPE_STREAM) with false. cbn iota. wp_step.
    eapply wp_eq; [by apply (log_walk_run s l name cs)|]. cbn iota. change (negb (0 =? 0)) with false. cbn iota.
    wp_simp. rewrite S2. cbn [next_of]. rewrite decide_True by done. cbn [head]. by wp_simp.
Qed.
End spec.

(** Two calls; the time is 300 when the shell prints the first line.  The console shows
    "300:Dumping log m", "301:[100] hi" and "302:[250] ok". *)
Lemma log_printf_dumped_witness :
  let cs := [mk_call 100 0 1 (replicate 16 7) [104; 105]; mk_call 250 3 8 (replicate 16 0) [111; 107]] in
  wp (_ ← on_dev (cbmem_init 4096 256);
      _ ← log_register [109] 3 (handler true 0 0);
      printf_all 16 3 cs ;;
      shell_log_dump_all_cmd 16)
    (λ r _, ∃ con', out_prints (λ i, 300 + Z.of_nat i) r.2 (mk_out false [] 0) = Ret (tt, con') ∧
       co_text con' = [51; 48; 48; 58] ++ dumping ++ [109; 10] ++
         [51; 48; 49; 58; 91; 49; 48; 48; 93; 32; 104; 105; 10] ++ [51; 48; 50; 58; 91; 50; 53; 48; 93; 32; 111; 107; 10])
    (mk_log_state ∅ [] (mk_cstate (mk_cbmem 0 0 0 0 0) (buffer 4096 256))).
Proof.
  intros cs. assert (Forall (call_ok 16) cs) as Hok.
  { apply Forall_cons; split; [|apply Forall_cons; split; [|constructor]].
    all: (split; [unfold is_u32; cbn; lia|split; [reflexivity|apply (bool_decide_eq_true_1 _); by vm_compute]]). }
  eapply wp_mono; [exact (log_printf_dumped true 0 0 ltac:(done) 16 ltac:(lia) 4096 256 (mk_cbmem 0 0 0 0 0) 3 [109] cs
    ltac:(lia) ltac:(by vm_compute) ltac:(done) Hok)|].
  intros r s' [-> Hshow].
  destruct (Hshow (λ i, 300 + Z.of_nat i) (mk_out false [] 0)) as (con' & H1 & _ & H2);
    [done|cbn; lia|apply (bool_decide_eq_true_1 _); by vm_compute|].
  exists con'. split; [exact H1|]. rewrite H2. vm_compute. reflexivity.
Defined.

(** *** Defects

    console_printf cuts a text after 127 characters, so a line of the shell command that is longer
    loses its end, the line feed included, and the next line is printed behind it without a
    timestamp; the entries of [log_printf] have up to 127 characters of text alone.
    The shell command copies up to 128 characters of an entry and writes a NUL behind them,
    outside of its array, for an entry with as many.  [cbmem_walk], and with it the command, reads
    address 0 when the log is empty. *)
Theorem shell_log_dump_flaws :
  (let line := call_line (mk_call 250 3 8 (replicate 16 0) (replicate 127 120)) in
   match out_prints (λ _, 300) [line; line] (mk_out false [] 0) with
   | Ret (_, con) => co_text con = [51; 48; 48; 58] ++ take 127 line ++ take 127 line
   | Fault _ => False
   end) ∧
  let h := log_cbmem_handler_init false 0 0 in
  let s := mk_log_state ∅ [] (mk_cstate (mk_cbmem 0 0 0 0 0) (buffer 4096 512)) in
  (_ ← on_dev (cbmem_init 4096 512);
   _ ← log_register [109] 3 h;
   _ ← log_append 16 5 3 0 1 (replicate 16 0 ++ replicate 128 120) 128;
   shell_log_dump_all_cmd 16) s = Fault FNull ∧
  (_ ← on_dev (cbmem_init 4096 512);
   _ ← log_register [109] 3 h;
   shell_log_dump_all_cmd 16) s = Fault FNull.
Proof. split; [by vm_compute|]. by vm_compute. Qed.
