(* ===== verification/Stats.v ===== *)
(** Statistics: sys/stats/src/stats.c and the shell command of stats_shell.c.

    A section is an identifier; its header has the bytes of the entries that follow it in
    memory.  An entry of the name map has the offset of its statistic behind the header
    (the C code has its address).  Whether names are compiled in (STATS_NAME_ENABLE) is a
    parameter.  A walk function gets the memory from the statistic on, and its argument. *)
From Stdlib Require Import ZArith Lia.
From stdpp Require Import base decidable numbers list gmap.
From S2P Require Import Prelude.
From S2P Require Import Cfmt.

#[local] Open Scope Z_scope.

Record stats_hdr := mk_stats {
  s_name : list Z; s_size : Z; s_cnt : Z; s_map : list (Z * list Z); s_mem : list Z }.

(** The sections and [g_stats_registry]. *)
Record stats_state := mk_stats_state { sects : gmap nat stats_hdr; g_stats_registry : list nat }.

(** The section [stats] of this module: its first entry is [num_registered]. *)
Definition g_stats_stats : nat := 0.

Definition sect_of (h : nat) : M stats_state stats_hdr := s ← get; from_option_fault FNull (sects s !! h).
Definition upd_sect (h : nat) (f : stats_hdr → stats_hdr) : M stats_state unit :=
  hdr ← sect_of h; modify (λ s, mk_stats_state (<[h := f hdr]> (sects s)) (g_stats_registry s)).

(** STATS_INC of an entry of 32 bits. *)
Definition inc32 (off : nat) (hdr : stats_hdr) : stats_hdr :=
  mk_stats (s_name hdr) (s_size hdr) (s_cnt hdr) (s_map hdr)
    (take off (s_mem hdr) ++ int_bytes 4 (bytes_val (take 4 (drop off (s_mem hdr))) + 1) ++ drop (off + 4) (s_mem hdr)).
Definition STATS_INC (h off : nat) : M stats_state unit := upd_sect h (inc32 off).

Section stats.
Context (STATS_NAME_ENABLE : bool).

(** ** Walks *)

Fixpoint map_name (l : list (Z * list Z)) (cur : Z) : option (list Z) :=
  match l with
  | [] => None
  | (off, name) :: l => if off =? cur then Some name else map_name l cur
  end.

(** The name of the statistic at [cur]; 115 is "s". *)
Definition stat_name (hdr : stats_hdr) (cur : Z) : list Z :=
  match (if STATS_NAME_ENABLE then map_name (s_map hdr) cur else None) with
  | Some name => name
  | None => 115 :: format_d (cur / s_size hdr)
  end.

Section walk.
Context {S A : Type} (walk_func : stats_hdr → A → list Z → list Z → M S (Z * A)).

Fixpoint stats_loop (fuel : nat) (hdr : stats_hdr) (cur : Z) (arg : A) : M S (Z * A) :=
  if cur <? s_size hdr * s_cnt hdr then
    match fuel with
    | O => fault_with FFuel
    | Datatypes.S fuel =>
        '(rc, arg) ← walk_func hdr arg (stat_name hdr cur) (drop (Z.to_nat cur) (s_mem hdr));
        if negb (rc =? 0) then mret (rc, arg) else stats_loop fuel hdr (cur + s_size hdr) arg
    end
  else mret (0, arg).

(** There is a round for each entry. *)
Definition stats_walk (hdr : stats_hdr) (arg : A) : M S (Z * A) := stats_loop (Z.to_nat (s_cnt hdr)) hdr 0 arg.
End walk.

(** ** The registry *)

(** Clearing the header of a registered section would cut the list, and linking it again would make
    the list a cycle: these are faults of the model. *)
Definition not_linked (h : nat) : M stats_state unit :=
  s ← get; if bool_decide (h ∈ g_stats_registry s) then fault_with FList else mret tt.

Definition stats_init (h : nat) (size cnt : Z) (map : list (Z * list Z)) : M stats_state Z :=
  not_linked h ;;
  upd_sect h (λ hdr, mk_stats [] (u8 size) (u8 cnt) (if STATS_NAME_ENABLE then map else [])
                       (replicate (Z.to_nat (u8 size * u8 cnt)) 0 ++ drop (Z.to_nat (u8 size * u8 cnt)) (s_mem hdr))) ;;
  mret 0.

Fixpoint group_loop {A} (walk_func : stats_hdr → A → M stats_state (Z * A)) (l : list nat) (arg : A) :
    M stats_state (Z * A) :=
  match l with
  | [] => mret (0, arg)
  | h :: l =>
      hdr ← sect_of h;
      '(rc, arg) ← walk_func hdr arg;
      if negb (rc =? 0) then mret (rc, arg) else group_loop walk_func l arg
  end.
Definition stats_group_walk {A} (walk_func : stats_hdr → A → M stats_state (Z * A)) (arg : A) : M stats_state (Z * A) :=
  s ← get; group_loop walk_func (g_stats_registry s) arg.

Fixpoint find_loop (name : list Z) (l : list nat) : M stats_state (option nat) :=
  match l with
  | [] => mret None
  | h :: l => hdr ← sect_of h; if bool_decide (s_name hdr = name) then mret (Some h) else find_loop name l
  end.
Definition stats_group_find (name : list Z) : M stats_state (option nat) :=
  s ← get; find_loop name (g_stats_registry s).

Definition stats_register (name : list Z) (h : nat) : M stats_state Z :=
  cur ← stats_group_find name;
  match cur with
  | Some _ => mret (-1)
  | None =>
      not_linked h ;;
      upd_sect h (λ hdr, mk_stats name (s_size hdr) (s_cnt hdr) (s_map hdr) (s_mem hdr)) ;;
      modify (λ s, mk_stats_state (sects s) (g_stats_registry s ++ [h])) ;;
      STATS_INC g_stats_stats 0 ;;
      mret 0
  end.

(** "num_registered" and "stat" *)
Definition num_registered_name : list Z := [110; 117; 109; 95; 114; 101; 103; 105; 115; 116; 101; 114; 101; 100].
Definition stats_module_init : M stats_state Z :=
  rc ← stats_init g_stats_stats 4 1 [(0, num_registered_name)];
  if negb (rc =? 0) then mret rc
  else rc ← stats_register [115; 116; 97; 116] g_stats_stats; if negb (rc =? 0) then mret rc else mret 0.

(** ** The shell command: the texts it hands to console_printf (see [Cfmt]) *)

(** Of a 64-bit value the printf of the C library prints the low 32 bits: it ignores the second
    [l] of %llu.  "Unknown stat size for " *)
Definition unknown_size : list Z :=
  [85; 110; 107; 110; 111; 119; 110; 32; 115; 116; 97; 116; 32; 115; 105; 122; 101; 32; 102; 111; 114; 32].
Definition stats_shell_display_entry (hdr : stats_hdr) (out : list (list Z)) (name stat : list Z) :
    M stats_state (Z * list (list Z)) :=
  let value (n : nat) := name ++ [58; 32] ++ format_u (u32 (bytes_val (take n stat))) ++ [10] in
  mret (0, out ++
    [if s_size hdr =? 2 then value 2%nat
     else if s_size hdr =? 4 then value 4%nat
     else if s_size hdr =? 8 then value 8%nat
     else unknown_size ++ name ++ [32] ++ format_u (s_size hdr) ++ [10]]).

Definition stats_shell_display_group (hdr : stats_hdr) (out : list (list Z)) : M stats_state (Z * list (list Z)) :=
  mret (0, out ++ [[9] ++ s_name hdr ++ [10]]).

(** [usage] and [not_found]: the texts of the two error messages; [None]: there is no argument. *)
Definition shell_stats_display (usage not_found : list Z) (name : option (list Z)) : M stats_state (Z * list (list Z)) :=
  let OS_EINVAL := 2 in
  match name with
  | None | Some [] => '(_, out) ← stats_group_walk stats_shell_display_group [usage]; mret (OS_EINVAL, out)
  | Some name =>
      hdr ← stats_group_find name;
      match hdr with
      | None => mret (OS_EINVAL, [not_found ++ name ++ [10]])
      | Some h =>
          hdr ← sect_of h;
          '(rc, out) ← stats_walk stats_shell_display_entry hdr [];
          if negb (rc =? 0) then mret (rc, out) else mret (0, out)
      end
  end.
End stats.

(** ** Properties *)

Definition name_of (s : stats_state) (h : nat) : list Z := from_option s_name [] (sects s !! h).
Definition num_registered (s : stats_state) : Z :=
  from_option (λ hdr, bytes_val (take 4 (s_mem hdr))) 0 (sects s !! g_stats_stats).

(** The registered sections exist, have different names, and are counted. *)
Record stats_ok (s : stats_state) : Prop := {
  so_nodup : NoDup (g_stats_registry s);
  so_in : Forall (λ h, is_Some (sects s !! h)) (g_stats_registry s);
  so_names : NoDup (name_of s <$> g_stats_registry s);
  so_self : ∃ hdr, sects s !! g_stats_stats = Some hdr ∧ (4 <= length (s_mem hdr))%nat;
  so_count : num_registered s = u32 (Z.of_nat (length (g_stats_registry s))) }.

Lemma sect_of_run s h hdr : sects s !! h = Some hdr → sect_of h s = Ret (hdr, s).
Proof. intros Hh. unfold sect_of, mbind, M_bind, get, from_option_fault. by rewrite Hh. Qed.

Lemma upd_sect_run s h f hdr :
  sects s !! h = Some hdr → upd_sect h f s = Ret (tt, mk_stats_state (<[h := f hdr]> (sects s)) (g_stats_registry s)).
Proof. intros Hh. unfold upd_sect. by erewrite bind_ret_run by (by apply sect_of_run). Qed.

Lemma find_loop_run s name l :
  Forall (λ h, is_Some (sects s !! h)) l →
  ∃ r, find_loop name l s = Ret (r, s) ∧
    match r with Some h => h ∈ l ∧ name_of s h = name | None => name ∉ name_of s <$> l end.
Proof.
  induction 1 as [|h l [hdr Hh] _ IH]; cbn [find_loop].
  { exists None. split; [done|]. by intros ?%elem_of_nil. }
  erewrite bind_ret_run by (by apply sect_of_run). cbn beta. destruct (decide (s_name hdr = name)) as [He|He].
  - rewrite bool_decide_eq_true_2 by done. exists (Some h). split; [done|]. unfold name_of. rewrite Hh. cbn. split; [by left|done].
  - rewrite bool_decide_eq_false_2 by done. destruct IH as (r & Hr & IH). exists r. split; [done|].
    destruct r; [destruct IH; split; [by right|done]|]. cbn. intros [->|?]%elem_of_cons; [|done].
    apply He. unfold name_of. by rewrite Hh.
Qed.

(** Different sections of a list without duplicate names have different names. *)
Lemma same_name s l : NoDup (name_of s <$> l) → ∀ x y, x ∈ l → y ∈ l → name_of s x = name_of s y → x = y.
Proof.
  intros Hnd x y [i Hi]%list_elem_of_lookup [j Hj]%list_elem_of_lookup Hxy.
  assert (i = j) as ->; [|congruence]. eapply NoDup_lookup; [exact Hnd|..]; rewrite list_lookup_fmap.
  - by rewrite Hi.
  - by rewrite Hj, Hxy.
Qed.

Lemma inc32_count hdr :
  (4 <= length (s_mem hdr))%nat →
  bytes_val (take 4 (s_mem (inc32 0 hdr))) = u32 (bytes_val (take 4 (s_mem hdr)) + 1) ∧
  (4 <= length (s_mem (inc32 0 hdr)))%nat.
Proof.
  intros Hl. unfold inc32. cbn [s_mem]. rewrite take_0, drop_0. cbn [app Nat.add].
  rewrite take_app_length' by (by rewrite length_int_bytes). split.
  - generalize (bytes_val (take 4 (s_mem hdr)) + 1). intros v. cbn -[Z.modulo Z.div]. wrap_lia.
  - rewrite length_app, length_int_bytes, length_drop. lia.
Qed.

Lemma insert_alter (m : gmap nat stats_hdr) h f hdr : m !! h = Some hdr → <[h := f hdr]> m = alter f h m.
Proof.
  intros Hh. apply map_eq. intros i. destruct (decide (i = h)) as [->|Hne].
  - by rewrite lookup_insert_eq, lookup_alter_eq, Hh.
  - by rewrite lookup_insert_ne, lookup_alter_ne.
Qed.

Lemma not_linked_run h s : h ∉ g_stats_registry s → not_linked h s = Ret (tt, s).
Proof. intros Hn. unfold not_linked. erewrite bind_ret_run by done. by rewrite bool_decide_eq_false_2. Qed.

(** The state after a registration. *)
Definition rename (name : list Z) (hdr : stats_hdr) : stats_hdr :=
  mk_stats name (s_size hdr) (s_cnt hdr) (s_map hdr) (s_mem hdr).
Definition registered (name : list Z) (h : nat) (s : stats_state) : stats_state :=
  mk_stats_state (alter (inc32 0) g_stats_stats (alter (rename name) h (sects s))) (g_stats_registry s ++ [h]).

Lemma registered_name name h s h' :
  is_Some (sects s !! h) → name_of (registered name h s) h' = if decide (h' = h) then name else name_of s h'.
Proof.
  intros [hdr Hh]. unfold name_of, registered. cbn [sects].
  assert (∀ m : gmap nat stats_hdr, from_option s_name [] (alter (inc32 0) g_stats_stats m !! h') = from_option s_name [] (m !! h')) as ->.
  { intros m. destruct (decide (h' = g_stats_stats)) as [->|Hne]; [|by rewrite lookup_alter_ne].
    rewrite lookup_alter_eq. by destruct (m !! g_stats_stats). }
  destruct (decide (h' = h)) as [->|Hne]; [by rewrite lookup_alter_eq, Hh|by rewrite lookup_alter_ne].
Qed.

Lemma registered_ok name h s :
  stats_ok s → is_Some (sects s !! h) → h ∉ g_stats_registry s → name ∉ name_of s <$> g_stats_registry s →
  stats_ok (registered name h s).
Proof.
  intros [H1 H2 H3 (h0 & H4 & H5) H6] Hh Hn Hname. set (s' := registered name h s).
  assert (∀ x, is_Some (sects s !! x) → is_Some (sects s' !! x)) as Hsome.
  { intros x Hx. unfold s', registered. cbn [sects]. by rewrite !lookup_alter_is_Some. }
  assert (∃ hdr, alter (rename name) h (sects s) !! g_stats_stats = Some hdr ∧ s_mem hdr = s_mem h0) as (h1 & Hh1 & Hm1).
  { destruct (decide (h = g_stats_stats)) as [->|Hne].
    - rewrite lookup_alter_eq, H4. by eexists.
    - rewrite lookup_alter_ne by done. by exists h0. }
  assert (sects s' !! g_stats_stats = Some (inc32 0 h1)) as Hself.
  { unfold s', registered. cbn [sects]. by rewrite lookup_alter_eq, Hh1. }
  destruct (inc32_count h1) as (Hc & Hl); [by rewrite Hm1|].
  split; unfold s'; cbn [g_stats_registry registered]; fold s'.
  - apply NoDup_app. split_and!; [done| |by apply NoDup_singleton]. intros x Hx ->%list_elem_of_singleton. done.
  - apply Forall_app. split; [|by constructor; [apply Hsome|]]. eapply Forall_impl; [exact H2|]. intros x. apply Hsome.
  - assert (name_of s' <$> g_stats_registry s ++ [h] = (name_of s <$> g_stats_registry s) ++ [name]) as ->.
    { rewrite fmap_app. f_equal.
      - apply list_fmap_ext. intros i x Hx%list_elem_of_lookup_2. unfold s'. rewrite registered_name by done.
        rewrite decide_False; [done|]. by intros ->.
      - cbn. unfold s'. rewrite registered_name by done. by rewrite decide_True. }
    apply NoDup_app. split_and!; [done| |by apply NoDup_singleton]. by intros x Hx ->%list_elem_of_singleton.
  - by exists (inc32 0 h1).
  - unfold num_registered in *. rewrite Hself. cbn [from_option]. rewrite Hc, Hm1. rewrite H4 in H6. cbn [from_option] in H6.
    rewrite H6, length_app. cbn [length]. unfold u32. rewrite Zplus_mod_idemp_l. f_equal. lia.
Qed.

(** Registering a section: its name is new, or the call fails and changes nothing.  In the first
    case it is found under its name from then on, the other names stay, and it is counted. *)
Theorem stats_register_ok name h s :
  stats_ok s → is_Some (sects s !! h) → h ∉ g_stats_registry s →
  if decide (name ∈ name_of s <$> g_stats_registry s) then stats_register name h s = Ret (-1, s)
  else stats_register name h s = Ret (0, registered name h s) ∧ stats_ok (registered name h s) ∧
       stats_group_find name (registered name h s) = Ret (Some h, registered name h s) ∧
       ∀ h', h' ≠ h → name_of (registered name h s) h' = name_of s h'.
Proof.
  intros Hok Hh Hn. destruct (find_loop_run s name (g_stats_registry s) (so_in _ Hok)) as (r & Hr & Hf).
  assert (stats_group_find name s = Ret (r, s)) as Hfind by (unfold stats_group_find; by erewrite bind_ret_run by done).
  destruct (decide _) as [Hin|Hnin].
  - unfold stats_register. erewrite bind_ret_run by exact Hfind. by destruct r.
  - destruct r as [x|]; [destruct Hf as (Hx & Hnx); destruct Hnin; apply list_elem_of_fmap; by exists x|].
    pose proof (registered_ok name h s Hok Hh Hn Hnin) as Hok'. split_and!.
    + destruct Hh as [hdr Hh]. unfold stats_register. erewrite bind_ret_run by exact Hfind. cbn beta iota.
      erewrite bind_ret_run by (by apply not_linked_run). erewrite bind_ret_run by (by apply upd_sect_run).
      erewrite bind_ret_run by done. destruct (so_self _ Hok) as (h0 & H0 & _).
      assert (∃ h1, <[h := rename name hdr]> (sects s) !! g_stats_stats = Some h1) as [h1 H1].
      { destruct (decide (h = g_stats_stats)) as [->|Hne]; [rewrite lookup_insert_eq|rewrite lookup_insert_ne by done]; by eexists. }
      unfold STATS_INC. erewrite bind_ret_run by (apply upd_sect_run; exact H1). cbn [sects g_stats_registry].
      unfold mret, M_ret, registered. do 3 f_equal. by rewrite (insert_alter _ _ _ _ H1), (insert_alter _ _ (rename name) _ Hh).
    + done.
    + destruct (find_loop_run (registered name h s) name _ (so_in _ Hok')) as (r & Hr' & Hf').
      unfold stats_group_find. erewrite bind_ret_run by done. rewrite Hr'. do 2 f_equal. destruct r as [x|].
      * destruct Hf' as [Hx Hnx]. f_equal. rewrite registered_name in Hnx by done. cbn in Hx.
        destruct (decide (x = h)); [done|]. apply elem_of_app in Hx as [Hx| ->%list_elem_of_singleton]; [|done].
        destruct Hnin. apply list_elem_of_fmap. by exists x.
      * destruct Hf'. apply list_elem_of_fmap. exists h. rewrite registered_name, decide_True by done.
        split; [done|]. cbn. apply elem_of_app. right. by apply list_elem_of_singleton.
    + intros h' Hne. rewrite registered_name by done. by rewrite decide_False.
Qed.

(** ** What is shown *)

Section shown.
Context (names : bool).

(** The line of the [i]-th statistic of a section. *)
Definition stat_line (hdr : stats_hdr) (i : nat) : list Z :=
  let n := Z.to_nat (s_size hdr) in
  stat_name names hdr (Z.of_nat i * s_size hdr) ++ [58; 32] ++
    format_u (u32 (bytes_val (take n (drop (i * n) (s_mem hdr))))) ++ [10].

Lemma stats_loop_run hdr s fuel : ∀ i out,
  s_size hdr = 2 ∨ s_size hdr = 4 ∨ s_size hdr = 8 → 0 <= s_cnt hdr →
  (i + fuel = Z.to_nat (s_cnt hdr))%nat →
  stats_loop names stats_shell_display_entry fuel hdr (Z.of_nat i * s_size hdr) out s =
    Ret ((0, out ++ (stat_line hdr <$> seq i fuel)), s).
Proof.
  induction fuel as [|fuel IH]; intros i out Hsz Hcnt Hi; cbn [stats_loop].
  - rewrite (proj2 (Z.ltb_ge _ _)) by nia. cbn. by rewrite app_nil_r.
  - rewrite (proj2 (Z.ltb_lt _ _)) by nia. erewrite bind_ret_run; [|reflexivity]. cbn beta iota.
    change (negb (0 =? 0)) with false. cbn iota.
    replace (Z.of_nat i * s_size hdr + s_size hdr) with (Z.of_nat (S i) * s_size hdr) by lia.
    rewrite IH by (done || lia). do 3 f_equal. cbn [seq]. rewrite fmap_cons.
    rewrite <- (assoc_L (++)). cbn [app]. f_equal. f_equal. unfold stat_line.
    replace (Z.to_nat (Z.of_nat i * s_size hdr)) with (i * Z.to_nat (s_size hdr))%nat by nia.
    destruct Hsz as [->|[->| ->]]; done.
Qed.

(** C34. Statistics are shown under the name they are registered with.  In a state in which the registered
    sections have different names, registering a section under a new name makes the shell command
    print a line for each of its statistics, in order: the name from the map, or its number, and
    the value as stored (its low 32 bits); and the sections registered before are shown as
    before.  A name that is taken is refused without any change. *)
Theorem stats_register_shown usage not_found name h hdr s :
  stats_ok s → sects s !! h = Some hdr → h ∉ g_stats_registry s → h ≠ g_stats_stats → name ≠ [] →
  s_size hdr = 2 ∨ s_size hdr = 4 ∨ s_size hdr = 8 → 0 <= s_cnt hdr →
  if decide (name ∈ name_of s <$> g_stats_registry s) then stats_register name h s = Ret (-1, s)
  else ∃ s', stats_register name h s = Ret (0, s') ∧ stats_ok s' ∧ num_registered s' = u32 (num_registered s + 1) ∧
    shell_stats_display names usage not_found (Some name) s' =
      Ret ((0, stat_line (rename name hdr) <$> seq 0 (Z.to_nat (s_cnt hdr))), s') ∧
    ∀ h', h' ∈ g_stats_registry s → h' ≠ g_stats_stats →
      stats_group_find (name_of s h') s' = Ret (Some h', s') ∧ sects s' !! h' = sects s !! h'.
Proof.
  intros Hok Hh Hn Hself Hne Hsz Hcnt.
  pose proof (stats_register_ok name h s Hok (mk_is_Some _ _ Hh) Hn) as Hreg.
  destruct (decide _) as [|Hnin]; [done|]. destruct Hreg as (Hr & Hok' & Hfind & Hother). set (s' := registered name h s) in *.
  assert (∀ x, x ≠ g_stats_stats → sects s' !! x = alter (rename name) h (sects s) !! x) as Hl.
  { intros x Hx. unfold s', registered. cbn [sects]. by rewrite lookup_alter_ne. }
  exists s'. split_and!; [done|done| | |].
  - rewrite (so_count _ Hok'), (so_count _ Hok). unfold s', registered. cbn [g_stats_registry]. rewrite length_app. cbn [length].
    unfold u32. rewrite Zplus_mod_idemp_l. f_equal. lia.
  - unfold shell_stats_display. destruct name as [|c name]; [done|]. erewrite bind_ret_run by exact Hfind. cbn beta iota.
    erewrite bind_ret_run; [|apply sect_of_run; rewrite Hl, lookup_alter_eq, Hh by done; reflexivity]. cbn beta.
    unfold stats_walk. erewrite bind_ret_run; [|apply (stats_loop_run (rename (c :: name) hdr) s' _ 0 []); done]. done.
  - intros h' Hin Hne'. assert (h' ≠ h) by (by intros ->). split.
    + destruct (find_loop_run s' (name_of s h') _ (so_in _ Hok')) as (r & Hr' & Hf').
      unfold stats_group_find. erewrite bind_ret_run by done. rewrite Hr'. do 2 f_equal.
      assert (h' ∈ g_stats_registry s') as Hin' by (apply elem_of_app; by left).
      rewrite <- (Hother h') in Hf' by done. destruct r as [x|]; [|destruct Hf'; apply list_elem_of_fmap; by exists h'].
      destruct Hf' as [Hx Hnx]. f_equal. by eapply (same_name s' _ (so_names _ Hok')).
    + rewrite Hl by done. by rewrite lookup_alter_ne.
Qed.
End shown.

(** The module as it initialises itself, and a section of two statistics of 16 bits, of which one
    has a name. *)
Definition demo_sect : stats_hdr := mk_stats [] 2 2 [(2, [111; 107])] [7; 0; 1; 2].
Definition demo_state : stats_state :=
  match stats_module_init true (mk_stats_state {[0%nat := mk_stats [] 0 0 [] [9; 9; 9; 9]; 5%nat := demo_sect]} []) with
  | Ret (_, s) => s
  | Fault _ => mk_stats_state ∅ []
  end.

Lemma stats_register_shown_witness :
  ∃ s', stats_register [120] 5 demo_state = Ret (0, s') ∧
    shell_stats_display true [] [] (Some [120]) s' =
      Ret ((0, [[115; 48; 58; 32; 55; 10]; [111; 107; 58; 32; 53; 49; 51; 10]]), s').
Proof.
  assert (stats_ok demo_state) as Hok.
  { split.
    - apply (bool_decide_eq_true_1 _). by vm_compute.
    - apply (bool_decide_eq_true_1 _). by vm_compute.
    - apply (bool_decide_eq_true_1 _). by vm_compute.
    - eexists. split; [by vm_compute|]. vm_compute. lia.
    - by vm_compute. }
  pose proof (stats_register_shown true [] [] [120] 5 demo_sect demo_state Hok ltac:(by vm_compute)
    ltac:(apply (bool_decide_eq_true_1 _); by vm_compute) ltac:(done) ltac:(done) ltac:(by left) ltac:(cbn; lia)) as H.
  destruct (decide _) as [Hin|_].
  - exfalso. revert Hin. apply (bool_decide_eq_true_1 _). by vm_compute.
  - destruct H as (s' & H1 & _ & _ & H2 & _). exists s'. split; [exact H1|exact H2].
Defined.
