(* ===== verification/Console.v ===== *)
(** The serial console: libs/console/full/src/cons_tty.c.

    Output goes through a ring that the UART drains, input through a ring that the
    UART interrupt fills.  [console_tty] has the two rings, the characters that went
    out on the wire and the calls of the input callback.  A ring is a bounded queue
    ([ring_list]); the operations are proved against it, and [ConsoleApi] is what the
    shell relies on. *)
From Stdlib Require Import ZArith Lia.
From stdpp Require Import base decidable numbers list.
From S2P Require Import Prelude.

#[local] Open Scope Z_scope.

(** ** Rings *)

Definition CONSOLE_TX_BUF_SZ : Z := 32.
Definition CONSOLE_RX_BUF_SZ : Z := 128.

Record console_ring := mk_ring {
  cr_head : Z;
  cr_tail : Z;
  cr_size : Z;
  cr_buf : list Z;
}.
Definition set_cr_head (v : Z) (r : console_ring) : console_ring :=
  mk_ring v (cr_tail r) (cr_size r) (cr_buf r).
Definition set_cr_tail (v : Z) (r : console_ring) : console_ring :=
  mk_ring (cr_head r) v (cr_size r) (cr_buf r).
Definition set_cr_buf (v : list Z) (r : console_ring) : console_ring :=
  mk_ring (cr_head r) (cr_tail r) (cr_size r) v.

Definition CONSOLE_HEAD_INC (cr : console_ring) : Z := Z.land (cr_head cr + 1) (cr_size cr - 1).
Definition CONSOLE_TAIL_INC (cr : console_ring) : Z := Z.land (cr_tail cr + 1) (cr_size cr - 1).

(** The indices are below [cr_size], which is the length of the buffer ([ring_ok]). *)
Definition console_add_char (cr : console_ring) (ch : Z) : console_ring :=
  let cr := set_cr_buf (<[Z.to_nat (cr_head cr) := u8 ch]> (cr_buf cr)) cr in
  set_cr_head (u8 (CONSOLE_HEAD_INC cr)) cr.

Definition console_pull_char (cr : console_ring) : Z * console_ring :=
  let ch := nth (Z.to_nat (cr_tail cr)) (cr_buf cr) 0 in
  (ch, set_cr_tail (u8 (CONSOLE_TAIL_INC cr)) cr).

Definition console_pull_char_head (cr : console_ring) : console_ring :=
  if negb (cr_head cr =? cr_tail cr) then
    set_cr_head (u8 (Z.land (cr_head cr - 1) (cr_size cr - 1))) cr
  else cr.

Definition console_buf_space (cr : console_ring) : Z :=
  Z.land (cr_tail cr - cr_head cr) (cr_size cr - 1) - 1.

(** ** The terminal *)

(** [ct_write_char]: [console_queue_char] or [console_blocking_tx]. *)
Inductive write_char := Queue_char | Blocking_tx.

(** [uart_out] is what went out on the wire, [rx_calls] the arguments of the calls
    of [ct_rx_cb], when it is set. *)
Record console_tty := mk_tty {
  ct_tx : console_ring;
  ct_rx : console_ring;
  ct_rx_cb : bool;
  ct_write_char : write_char;
  ct_echo_off : bool;
  console_is_midline : bool;
  uart_out : list Z;
  rx_calls : list Z;
  g_console_is_init : bool;
}.
Definition set_ct_tx (v : console_ring) (s : console_tty) : console_tty :=
  mk_tty v (ct_rx s) (ct_rx_cb s) (ct_write_char s) (ct_echo_off s) (console_is_midline s) (uart_out s) (rx_calls s) (g_console_is_init s).
Definition set_ct_rx (v : console_ring) (s : console_tty) : console_tty :=
  mk_tty (ct_tx s) v (ct_rx_cb s) (ct_write_char s) (ct_echo_off s) (console_is_midline s) (uart_out s) (rx_calls s) (g_console_is_init s).
Definition set_ct_rx_cb (v : bool) (s : console_tty) : console_tty :=
  mk_tty (ct_tx s) (ct_rx s) v (ct_write_char s) (ct_echo_off s) (console_is_midline s) (uart_out s) (rx_calls s) (g_console_is_init s).
Definition set_ct_write_char (v : write_char) (s : console_tty) : console_tty :=
  mk_tty (ct_tx s) (ct_rx s) (ct_rx_cb s) v (ct_echo_off s) (console_is_midline s) (uart_out s) (rx_calls s) (g_console_is_init s).
Definition set_ct_echo_off (v : bool) (s : console_tty) : console_tty :=
  mk_tty (ct_tx s) (ct_rx s) (ct_rx_cb s) (ct_write_char s) v (console_is_midline s) (uart_out s) (rx_calls s) (g_console_is_init s).
Definition set_console_is_midline (v : bool) (s : console_tty) : console_tty :=
  mk_tty (ct_tx s) (ct_rx s) (ct_rx_cb s) (ct_write_char s) (ct_echo_off s) v (uart_out s) (rx_calls s) (g_console_is_init s).
Definition set_uart_out (v : list Z) (s : console_tty) : console_tty :=
  mk_tty (ct_tx s) (ct_rx s) (ct_rx_cb s) (ct_write_char s) (ct_echo_off s) (console_is_midline s) v (rx_calls s) (g_console_is_init s).
Definition set_rx_calls (v : list Z) (s : console_tty) : console_tty :=
  mk_tty (ct_tx s) (ct_rx s) (ct_rx_cb s) (ct_write_char s) (ct_echo_off s) (console_is_midline s) (uart_out s) v (g_console_is_init s).
Definition set_g_console_is_init (v : bool) (s : console_tty) : console_tty :=
  mk_tty (ct_tx s) (ct_rx s) (ct_rx_cb s) (ct_write_char s) (ct_echo_off s) (console_is_midline s) (uart_out s) (rx_calls s) v.

Abbreviation T := (M console_tty) (only parsing).

Definition call_rx_cb (full_line : Z) : T unit :=
  s ← get; if ct_rx_cb s then modify (set_rx_calls (rx_calls s ++ [full_line])) else mret tt.

Definition console_tx_char : T Z :=
  s ← get;
  if cr_head (ct_tx s) =? cr_tail (ct_tx s) then mret (-1)
  else
    let '(ch, tx) := console_pull_char (ct_tx s) in
    modify (set_ct_tx tx) ;; mret ch.

(** [hal_uart_blocking_tx]: the character goes out. *)
Definition console_blocking_tx (ch : Z) : T unit := modify (λ s, set_uart_out (uart_out s ++ [u8 ch]) s).

(** The UART sends up to [n] characters, which it gets from [console_tx_char]. *)
Fixpoint uart_send (n : nat) : T unit :=
  match n with
  | O => mret tt
  | S n => c ← console_tx_char; if c =? -1 then mret tt else console_blocking_tx c ;; uart_send n
  end.

Fixpoint console_tx_flush (cnt : nat) : T unit :=
  match cnt with
  | O => mret tt
  | S cnt =>
      s ← get;
      if cr_head (ct_tx s) =? cr_tail (ct_tx s) then mret tt
      else
        let '(byte, tx) := console_pull_char (ct_tx s) in
        modify (set_ct_tx tx) ;;
        console_blocking_tx byte ;;
        console_tx_flush cnt
  end.

Definition console_blocking_mode : T unit :=
  modify (set_ct_write_char Blocking_tx) ;;
  console_tx_flush (Z.to_nat CONSOLE_TX_BUF_SZ).

Definition console_echo (on : Z) : T unit := modify (set_ct_echo_off (on =? 0)).

(** [console_read (str, cnt)]: the result, the characters stored to [str], and whether
    a NUL was stored behind them. *)
Fixpoint read_loop (cnt : nat) (i : Z) (str : list Z) : T (Z * list Z * bool) :=
  match cnt with
  | O => mret (i, str, false)
  | S cnt =>
      s ← get;
      if cr_head (ct_rx s) =? cr_tail (ct_rx s) then mret (i, str, false)
      else
        let '(ch, rx) := console_pull_char (ct_rx s) in
        modify (set_ct_rx rx) ;;
        if ch =? 10 then mret (i, str, true) else read_loop cnt (i + 1) (str ++ [ch])
  end.
Definition console_read (cnt : Z) : T (Z * list Z * bool) := read_loop (Z.to_nat cnt) 0 [].

Section uart.
(** The UART driver: the number of characters that it takes on [hal_uart_start_tx]
    before it returns, and those it takes while a writer waits for a tick. *)
Context (burst drain : console_tty → nat).

Definition hal_uart_start_tx : T unit := s ← get; uart_send (burst s).

(** [os_time_delay (1)]: the UART goes on. *)
Definition delay_tick : T unit := s ← get; uart_send (drain s).

(** The loop waits for the UART; more than one round is needed only if nothing is
    sent during a tick. *)
Fixpoint queue_wait (fuel : nat) : T unit :=
  s ← get;
  if CONSOLE_HEAD_INC (ct_tx s) =? cr_tail (ct_tx s) then
    match fuel with
    | O => fault_with FFuel
    | S fuel => hal_uart_start_tx ;; delay_tick ;; queue_wait fuel
    end
  else mret tt.
Definition console_queue_char (ch : Z) : T unit :=
  queue_wait (Z.to_nat CONSOLE_TX_BUF_SZ) ;;
  modify (λ s, set_ct_tx (console_add_char (ct_tx s) ch) s).

Definition write_one (ch : Z) : T unit :=
  s ← get;
  match ct_write_char s with
  | Queue_char => console_queue_char ch
  | Blocking_tx => console_blocking_tx ch
  end.
Fixpoint write_loop (str : list Z) : T unit :=
  match str with
  | [] => mret tt
  | ch :: str => (if ch =? 10 then write_one 13 else mret tt) ;; write_one ch ;; write_loop str
  end.
Definition console_write (str : list Z) : T unit :=
  write_loop str ;;
  match last str with
  | Some ch => modify (set_console_is_midline (negb (ch =? 10)))
  | None => mret tt
  end ;;
  hal_uart_start_tx.

(** The echo of the characters [tx_buf]. *)
Definition rx_echo (tx_buf : list Z) : T unit :=
  s ← get;
  if negb (ct_echo_off s) then
    let tx_space := Z.of_nat (length tx_buf) in
    (if console_buf_space (ct_tx s) <? tx_space then console_tx_flush (length tx_buf) else mret tt) ;;
    modify (λ s, set_ct_tx (foldl console_add_char (ct_tx s) tx_buf) s) ;;
    hal_uart_start_tx
  else mret tt.

Definition console_rx_char (data : Z) : T Z :=
  s ← get;
  if CONSOLE_HEAD_INC (ct_rx s) =? cr_tail (ct_rx s) then call_rx_cb 0 ;; mret (-1)
  else
    tx_buf ←
      (if (data =? 13) || (data =? 10) then
         modify (λ s, set_ct_rx (console_add_char (ct_rx s) 10) s) ;;
         call_rx_cb 1 ;;
         mret [10; 13]
       else if data =? 8 then
         modify (λ s, set_ct_rx (console_pull_char_head (ct_rx s)) s) ;;
         mret [8; 32; 8]
       else
         modify (λ s, set_ct_rx (console_add_char (ct_rx s) data) s) ;;
         mret [data]);
    rx_echo tx_buf ;;
    mret 0.
End uart.

(** [uart_rc1] and [uart_rc2] are the results of [hal_uart_init_cbs] and
    [hal_uart_config]; the rings start zeroed. *)
Definition console_init (uart_rc1 uart_rc2 : Z) (rx_cb : bool) : T Z :=
  if negb (uart_rc1 =? 0) then mret uart_rc1
  else
    modify (λ s, set_ct_tx (mk_ring (cr_head (ct_tx s)) (cr_tail (ct_tx s)) CONSOLE_TX_BUF_SZ (cr_buf (ct_tx s))) s) ;;
    modify (λ s, set_ct_rx (mk_ring (cr_head (ct_rx s)) (cr_tail (ct_rx s)) CONSOLE_RX_BUF_SZ (cr_buf (ct_rx s))) s) ;;
    modify (set_ct_rx_cb rx_cb) ;;
    modify (set_ct_write_char Queue_char) ;;
    if negb (uart_rc2 =? 0) then mret uart_rc2
    else modify (set_g_console_is_init true) ;; mret 0.

(** The static [console_tty] before [console_init]. *)
Definition tty0 : console_tty :=
  mk_tty (mk_ring 0 0 0 (replicate 32 0)) (mk_ring 0 0 0 (replicate 128 0)) false Queue_char false false [] [] false.

(** ** Rings as queues *)

Record ring_ok (r : console_ring) : Prop := {
  rk_size : ∃ k, 0 < k <= 7 ∧ cr_size r = 2 ^ k;
  rk_buf : Z.of_nat (length (cr_buf r)) = cr_size r;
  rk_head : 0 <= cr_head r < cr_size r;
  rk_tail : 0 <= cr_tail r < cr_size r;
  rk_bytes : Forall is_byte (cr_buf r);
}.

Definition ring_count (r : console_ring) : Z := (cr_head r - cr_tail r) mod cr_size r.
Definition ring_at (r : console_ring) (i : Z) : Z :=
  nth (Z.to_nat ((cr_tail r + i) mod cr_size r)) (cr_buf r) 0.
(** The characters in the ring, oldest first. *)
Definition ring_list (r : console_ring) : list Z := ring_at r <$> seqZ 0 (ring_count r).

Lemma ring_mask r z : ring_ok r → Z.land z (cr_size r - 1) = z mod cr_size r.
Proof.
  intros [(k & Hk & ->) _ _ _ _]. rewrite Z.sub_1_r, <- Z.ones_equiv. apply Z.land_ones. lia.
Qed.

Lemma ring_size_bound r : ring_ok r → 2 <= cr_size r <= 128.
Proof.
  intros [(k & Hk & ->) _ _ _ _]. change 2 with (2 ^ 1) at 1. change 128 with (2 ^ 7).
  split; apply Z.pow_le_mono_r; lia.
Qed.

Lemma ring_count_bound r : ring_ok r → 0 <= ring_count r < cr_size r.
Proof. intros H. apply ring_size_bound in H. apply Z.mod_pos_bound. lia. Qed.

Lemma length_ring_list r : ring_ok r → Z.of_nat (length (ring_list r)) = ring_count r.
Proof. intros H. unfold ring_list. rewrite length_fmap, length_seqZ. pose proof (ring_count_bound r H). lia. Qed.

(** Distances in a ring of [n] cells. *)
Lemma mod_dist n h t : 0 <= h < n → 0 <= t < n → (h - t) mod n = if t <=? h then h - t else h - t + n.
Proof.
  intros. destruct (Z.leb_spec t h).
  - by rewrite Z.mod_small by lia.
  - rewrite <- (Z.mod_small (h - t + n) n) by lia. by rewrite <- (Z_mod_plus_full (h - t) 1 n), Z.mul_1_l.
Qed.
Lemma mod_next n z : 0 <= z < n → (z + 1) mod n = if z + 1 =? n then 0 else z + 1.
Proof.
  intros. destruct (Z.eqb_spec (z + 1) n) as [->|]; [apply Z_mod_same_full|]. apply Z.mod_small. lia.
Qed.
Lemma mod_prev n z : 0 <= z < n → (z - 1) mod n = if z =? 0 then n - 1 else z - 1.
Proof.
  intros. destruct (Z.eqb_spec z 0) as [->|].
  - rewrite <- (Z_mod_plus_full _ 1 n), Z.mod_small; lia.
  - apply Z.mod_small. lia.
Qed.
Lemma mod_index n t i : 0 <= t < n → 0 <= i < n → (t + i) mod n = if t + i <? n then t + i else t + i - n.
Proof.
  intros. destruct (Z.ltb_spec (t + i) n); [apply Z.mod_small; lia|].
  rewrite <- (Z_mod_plus_full _ (-1) n), Z.mod_small; lia.
Qed.

(** Case analysis on the positions in a ring. *)
Ltac ring_cases :=
  repeat match goal with
  | |- context [?a =? ?b] => destruct (Z.eqb_spec a b)
  | |- context [?a <=? ?b] => destruct (Z.leb_spec a b)
  | |- context [?a <? ?b] => destruct (Z.ltb_spec a b)
  end.

Lemma ring_empty r : ring_ok r → (cr_head r =? cr_tail r) = bool_decide (ring_list r = []).
Proof.
  intros H. pose proof (length_ring_list r H) as Hl. destruct H as [_ _ Hh Ht _].
  unfold ring_count in Hl. rewrite mod_dist in Hl by done.
  case_bool_decide as Hn.
  - rewrite Hn in Hl. simpl in Hl. apply Z.eqb_eq. destruct (Z.leb_spec (cr_tail r) (cr_head r)); lia.
  - apply Z.eqb_neq. intros E. apply Hn, nil_length_inv. destruct (Z.leb_spec (cr_tail r) (cr_head r)); lia.
Qed.

Lemma ring_full r :
  ring_ok r → (CONSOLE_HEAD_INC r =? cr_tail r) = (Z.of_nat (length (ring_list r)) =? cr_size r - 1).
Proof.
  intros H. pose proof (length_ring_list r H) as Hl. rewrite Hl. unfold CONSOLE_HEAD_INC, ring_count.
  rewrite ring_mask by done. pose proof (ring_size_bound r H). destruct H as [_ _ Hh Ht _].
  rewrite mod_dist, mod_next by done.
  destruct (Z.eqb_spec (cr_head r + 1) (cr_size r)), (Z.leb_spec (cr_tail r) (cr_head r)); ring_cases; lia.
Qed.

(** Two rings hold the same characters if they agree cell by cell. *)
Lemma ring_list_lookup r i :
  ring_ok r → ring_list r !! i = if decide (Z.of_nat i < ring_count r) then Some (ring_at r (Z.of_nat i)) else None.
Proof.
  intros H. unfold ring_list. rewrite list_lookup_fmap. case_decide as Hi.
  - rewrite lookup_seqZ_lt by lia. by rewrite Z.add_0_l.
  - by rewrite lookup_seqZ_ge by lia.
Qed.

Lemma ring_add r ch :
  ring_ok r → Z.of_nat (length (ring_list r)) < cr_size r - 1 →
  ring_ok (console_add_char r ch) ∧ cr_size (console_add_char r ch) = cr_size r ∧
  ring_list (console_add_char r ch) = ring_list r ++ [u8 ch].
Proof.
  intros H Hl. pose proof (ring_size_bound r H) as Hs. rewrite length_ring_list in Hl by done.
  set (r' := console_add_char r ch).
  assert (Hh : cr_head r' = (cr_head r + 1) mod cr_size r).
  { unfold r', console_add_char, CONSOLE_HEAD_INC. simpl. rewrite ring_mask by done.
    apply u8_small. pose proof (Z.mod_pos_bound (cr_head r + 1) (cr_size r)). lia. }
  assert (H' : ring_ok r').
  { destruct H as [H1 H2 H3 H4 H5]. split; [done|unfold r'; simpl; by rewrite length_insert| |done|].
    - rewrite Hh. change (cr_size r') with (cr_size r). apply Z.mod_pos_bound. lia.
    - apply Forall_insert; [done|apply u8_bound]. }
  split_and!; [done|done|].
  assert (Hc : ring_count r' = ring_count r + 1).
  { revert Hl. unfold ring_count. rewrite Hh. change (cr_tail r') with (cr_tail r). change (cr_size r') with (cr_size r).
    destruct H as [_ _ H3 H4 _]. rewrite mod_next by done. intros Hl. rewrite mod_dist in Hl by done.
    revert Hl. destruct (Z.eqb_spec (cr_head r + 1) (cr_size r)); rewrite !mod_dist by lia; ring_cases; lia. }
  pose proof (ring_count_bound r H) as Hb. pose proof (length_ring_list r H) as Hlen.
  apply list_eq. intros i. rewrite ring_list_lookup, Hc by done.
  assert (Hat : ∀ j, 0 <= j < ring_count r → ring_at r' j = ring_at r j).
  { intros j Hj. unfold ring_at. change (cr_tail r') with (cr_tail r). change (cr_size r') with (cr_size r).
    destruct H as [_ H2 H3 H4 _]. simpl. unfold ring_count in Hj. rewrite mod_dist in Hj by done.
    rewrite mod_index by (ring_cases; destruct (Z.leb_spec (cr_tail r) (cr_head r)); lia).
    rewrite !nth_lookup, list_lookup_insert_ne; [done|].
    destruct (Z.leb_spec (cr_tail r) (cr_head r)), (Z.ltb_spec (cr_tail r + j) (cr_size r)); lia. }
  case_decide as Hi.
  - destruct (decide (Z.of_nat i < ring_count r)).
    + rewrite lookup_app_l by lia. rewrite ring_list_lookup, decide_True, Hat by (done || lia). done.
    + assert (Z.of_nat i = ring_count r) as Hir by lia. rewrite list_lookup_middle by lia.
      f_equal. rewrite Hir. unfold ring_at. change (cr_tail r') with (cr_tail r). change (cr_size r') with (cr_size r).
      replace ((cr_tail r + ring_count r) mod cr_size r) with (cr_head r).
      * simpl. rewrite nth_lookup, list_lookup_insert_eq; [done|]. destruct H. lia.
      * unfold ring_count. rewrite Z.add_mod_idemp_r by lia. rewrite Z.mod_small by (destruct H; lia). lia.
  - symmetry. apply lookup_ge_None. rewrite length_app. simpl. lia.
Qed.

Lemma ring_pull r ch l :
  ring_ok r → ring_list r = ch :: l →
  ∃ r', console_pull_char r = (ch, r') ∧ ring_ok r' ∧ cr_size r' = cr_size r ∧ ring_list r' = l.
Proof.
  intros H Hl. pose proof (ring_size_bound r H) as Hs. pose proof (length_ring_list r H) as Hlen.
  rewrite Hl in Hlen. simpl in Hlen. unfold console_pull_char, CONSOLE_TAIL_INC.
  set (r' := set_cr_tail _ r). assert (Ht : cr_tail r' = (cr_tail r + 1) mod cr_size r).
  { unfold r'. simpl. rewrite ring_mask by done.
    apply u8_small. pose proof (Z.mod_pos_bound (cr_tail r + 1) (cr_size r)). lia. }
  assert (H' : ring_ok r').
  { destruct H as [H1 H2 H3 H4 H5]. split; try done. rewrite Ht. change (cr_size r') with (cr_size r). apply Z.mod_pos_bound. lia. }
  assert (Hc : ring_count r' = ring_count r - 1).
  { unfold ring_count in *. rewrite Ht. change (cr_head r') with (cr_head r). change (cr_size r') with (cr_size r).
    destruct H as [_ _ H3 H4 _]. rewrite mod_next by done. rewrite mod_dist in Hlen by done.
    revert Hlen. destruct (Z.eqb_spec (cr_tail r + 1) (cr_size r)); rewrite !mod_dist by lia; ring_cases; lia. }
  assert (Hat : ∀ j, ring_at r' j = ring_at r (j + 1)).
  { intros j. unfold ring_at. rewrite Ht. change (cr_buf r') with (cr_buf r). change (cr_size r') with (cr_size r).
    rewrite Z.add_mod_idemp_l by lia. by replace (cr_tail r + (j + 1)) with (cr_tail r + 1 + j) by lia. }
  exists r'. split_and!; try done.
  - f_equal. pose proof (ring_list_lookup r 0 H) as H0. rewrite Hl, decide_True in H0 by (simpl; lia).
    simplify_eq/=. unfold ring_at. rewrite Z.add_0_r, Z.mod_small by apply H. done.
  - apply list_eq. intros i. rewrite ring_list_lookup, Hc, Hat by done.
    change (l !! i) with ((ch :: l) !! S i). rewrite <- Hl, ring_list_lookup by done.
    rewrite Nat2Z.inj_succ, <- Z.add_1_r.
    destruct (decide (Z.of_nat i < ring_count r - 1)), (decide (Z.of_nat i + 1 < ring_count r)); done || lia.
Qed.

Lemma ring_pull_head r :
  ring_ok r →
  ring_ok (console_pull_char_head r) ∧ cr_size (console_pull_char_head r) = cr_size r ∧
  ring_list (console_pull_char_head r) = take (length (ring_list r) - 1) (ring_list r).
Proof.
  intros H. pose proof (ring_size_bound r H) as Hs. pose proof (length_ring_list r H) as Hlen.
  unfold console_pull_char_head. rewrite (ring_empty r H). case_bool_decide as Hn; cbn [negb].
  { rewrite Hn. by split_and!. }
  set (r' := set_cr_head _ r). assert (Hh : cr_head r' = (cr_head r - 1) mod cr_size r).
  { unfold r'. simpl. rewrite ring_mask by done.
    apply u8_small. pose proof (Z.mod_pos_bound (cr_head r - 1) (cr_size r)). lia. }
  assert (H' : ring_ok r').
  { destruct H as [H1 H2 H3 H4 H5]. split; try done. rewrite Hh. change (cr_size r') with (cr_size r).
    apply Z.mod_pos_bound. lia. }
  assert (Hpos : 0 < ring_count r).
  { destruct (ring_list r); [done|]. simpl in Hlen. lia. }
  assert (Hc : ring_count r' = ring_count r - 1).
  { revert Hpos. unfold ring_count. rewrite Hh. change (cr_tail r') with (cr_tail r). change (cr_size r') with (cr_size r).
    destruct H as [_ _ H3 H4 _]. rewrite mod_prev by done. intros Hpos. rewrite mod_dist in Hpos by done.
    revert Hpos. destruct (Z.eqb_spec (cr_head r) 0); rewrite !mod_dist by lia; ring_cases; lia. }
  split_and!; [done|done|]. apply list_eq. intros i. rewrite ring_list_lookup, Hc by done.
  destruct (decide (Z.of_nat i < ring_count r - 1)).
  - rewrite lookup_take_lt by lia. rewrite ring_list_lookup, decide_True by (done || lia). done.
  - by rewrite lookup_take_ge by lia.
Qed.

(** [console_buf_space] is the room for characters, but -1 for the empty ring. *)
Lemma ring_space r :
  ring_ok r → console_buf_space r =
    if bool_decide (ring_list r = []) then -1 else cr_size r - 1 - Z.of_nat (length (ring_list r)).
Proof.
  intros H. pose proof (ring_size_bound r H) as Hs. pose proof (ring_empty r H) as He.
  rewrite <- He, length_ring_list by done. unfold console_buf_space, ring_count. rewrite ring_mask by done.
  destruct H as [_ _ H3 H4 _]. rewrite !mod_dist by done. ring_cases; lia.
Qed.

Lemma ring_list_bytes r : ring_ok r → Forall is_byte (ring_list r).
Proof.
  intros H. apply Forall_forall. intros c (i & -> & _)%list_elem_of_fmap. unfold ring_at.
  rewrite nth_lookup. destruct (cr_buf r !! _) as [c|] eqn:E; [|done].
  by apply (proj1 (Forall_lookup _ _) (rk_bytes r H) _ _ E).
Qed.

Lemma ring_add_all r cs :
  ring_ok r → Z.of_nat (length (ring_list r)) + Z.of_nat (length cs) <= cr_size r - 1 →
  ring_ok (foldl console_add_char r cs) ∧ cr_size (foldl console_add_char r cs) = cr_size r ∧
  ring_list (foldl console_add_char r cs) = ring_list r ++ (u8 <$> cs).
Proof.
  revert r. induction cs as [|c cs IH]; intros r H Hl; simpl in *.
  { by rewrite app_nil_r. }
  destruct (ring_add r c H) as (H1 & Hs & Hr); [lia|].
  destruct (IH (console_add_char r c) H1) as (? & E & ->); [rewrite Hs, Hr, length_app; simpl; lia|].
  rewrite E, Hs, Hr. split_and!; [done|done|]. by rewrite <- app_assoc.
Qed.

(** ** The terminal as two queues *)

Definition tx_list (s : console_tty) : list Z := ring_list (ct_tx s).
Definition rx_list (s : console_tty) : list Z := ring_list (ct_rx s).
(** What was sent and what waits to be sent, in the order of transmission. *)
Definition con_sent (s : console_tty) : list Z := uart_out s ++ tx_list s.

Record tty_ok (s : console_tty) : Prop := {
  tk_tx : ring_ok (ct_tx s);
  tk_rx : ring_ok (ct_rx s);
  tk_tx_size : cr_size (ct_tx s) = CONSOLE_TX_BUF_SZ;
  tk_rx_size : cr_size (ct_rx s) = CONSOLE_RX_BUF_SZ;
}.

(** Output: nothing but the output ring, the wire and the line position changes. *)
Record out_frame (s s' : console_tty) : Prop := {
  of_rx : ct_rx s' = ct_rx s;
  of_cb : ct_rx_cb s' = ct_rx_cb s;
  of_mode : ct_write_char s' = ct_write_char s;
  of_echo : ct_echo_off s' = ct_echo_off s;
  of_calls : rx_calls s' = rx_calls s;
  of_init : g_console_is_init s' = g_console_is_init s;
}.
#[export] Instance out_frame_preorder : PreOrder out_frame.
Proof.
  split; [by split|]. intros s1 s2 s3 [] []. split; congruence.
Qed.

Definition out_post (s : console_tty) (l : list Z) (s' : console_tty) : Prop :=
  tty_ok s' ∧ out_frame s s' ∧ con_sent s' = con_sent s ++ l.

Lemma out_post_trans s1 s2 s3 l l' : out_post s1 l s2 → out_post s2 l' s3 → out_post s1 (l ++ l') s3.
Proof.
  intros (_ & F & E) (? & F' & E'). split_and!; [done|by etrans|]. by rewrite E', E, app_assoc.
Qed.
Lemma out_post_refl s : tty_ok s → out_post s [] s.
Proof. intros H. split_and!; [done|done|]. by rewrite app_nil_r. Qed.

(** Taking a character out of the output ring and sending it. *)
Lemma tx_pull_step s c l :
  tty_ok s → tx_list s = c :: l →
  (cr_head (ct_tx s) =? cr_tail (ct_tx s)) = false ∧ is_byte c ∧
  ∃ tx, console_pull_char (ct_tx s) = (c, tx) ∧
    let s' := set_uart_out (uart_out s ++ [u8 c]) (set_ct_tx tx s) in out_post s [] s' ∧ tx_list s' = l.
Proof.
  intros H Hl. destruct (H) as [H1 H2 H3 H4].
  assert (Hc : is_byte c).
  { pose proof (ring_list_bytes _ H1) as Hb. unfold tx_list in Hl. rewrite Hl in Hb. by inversion Hb. }
  split_and!; [|done|].
  { rewrite ring_empty by done. unfold tx_list in Hl. by rewrite Hl. }
  destruct (ring_pull _ _ _ H1 Hl) as (tx & Hp & Htx & Hs & Hr). exists tx. split; [done|].
  split; [|done]. split_and!; [split; simpl; congruence|done|].
  unfold con_sent. change (tx_list (set_uart_out _ (set_ct_tx tx s))) with (ring_list tx). simpl.
  rewrite Hr, Hl, u8_small, app_nil_r by done. by rewrite <- app_assoc.
Qed.

Lemma tx_empty_step s : tty_ok s → tx_list s = [] → (cr_head (ct_tx s) =? cr_tail (ct_tx s)) = true.
Proof. intros [H1 _ _ _] Hl. rewrite ring_empty by done. unfold tx_list in Hl. by rewrite Hl. Qed.

Lemma uart_send_spec n : ∀ s,
  tty_ok s → wp (uart_send n) (λ _ s', out_post s [] s' ∧ tx_list s' = drop n (tx_list s)) s.
Proof.
  induction n as [|n IH]; intros s H; cbn [uart_send].
  { apply wp_ret. split; [by apply out_post_refl|done]. }
  unfold console_tx_char. wp_simp. destruct (tx_list s) as [|c l] eqn:Hl.
  { rewrite tx_empty_step by done. wp_simp. split; [by apply out_post_refl|done]. }
  destruct (tx_pull_step s c l H Hl) as (-> & Hc & tx & -> & Hp & Hl'). wp_simp.
  rewrite (proj2 (Z.eqb_neq _ _)) by (destruct Hc; lia). unfold console_blocking_tx. wp_simp.
  eapply wp_mono; [by apply IH, Hp|]. intros _ s' [Hp' ->].
  split; [exact (out_post_trans _ _ _ [] [] Hp Hp')|].
  change (drop (S n) (c :: l)) with (drop n l). by rewrite <- Hl'.
Qed.

Lemma console_tx_flush_spec n : ∀ s,
  tty_ok s → wp (console_tx_flush n) (λ _ s', out_post s [] s' ∧ tx_list s' = drop n (tx_list s)) s.
Proof.
  induction n as [|n IH]; intros s H; cbn [console_tx_flush].
  { apply wp_ret. split; [by apply out_post_refl|done]. }
  wp_simp. destruct (tx_list s) as [|c l] eqn:Hl.
  { rewrite tx_empty_step by done. wp_simp. split; [by apply out_post_refl|done]. }
  destruct (tx_pull_step s c l H Hl) as (-> & Hc & tx & -> & Hp & Hl'). wp_simp.
  unfold console_blocking_tx. wp_simp.
  eapply wp_mono; [by apply IH, Hp|]. intros _ s' [Hp' ->].
  split; [exact (out_post_trans _ _ _ [] [] Hp Hp')|].
  change (drop (S n) (c :: l)) with (drop n l). by rewrite <- Hl'.
Qed.

(** Reading from a queue of characters. *)
Fixpoint take_line (cnt : nat) (l : list Z) : list Z * bool * list Z :=
  match cnt, l with
  | S cnt, c :: l =>
      if c =? 10 then ([], true, l) else let '(str, nl, rest) := take_line cnt l in (c :: str, nl, rest)
  | _, _ => ([], false, l)
  end.

Lemma take_line_full cnt line rest :
  Forall (λ c, c ≠ 10) line → (length line < cnt)%nat →
  take_line cnt (line ++ 10 :: rest) = (line, true, rest).
Proof.
  intros Hl. revert cnt. induction Hl as [|c line Hc Hl IH]; intros [|cnt] Hlt; simpl in *; [lia|done|lia|].
  rewrite (proj2 (Z.eqb_neq _ _)) by done. by rewrite IH by lia.
Qed.

Lemma read_loop_spec cnt : ∀ s i str,
  tty_ok s →
  wp (read_loop cnt i str) (λ '(i', str', nl) s',
    let '(line, nl', rest) := take_line cnt (rx_list s) in
    str' = str ++ line ∧ i' = i + Z.of_nat (length line) ∧ nl = nl' ∧
    tty_ok s' ∧ rx_list s' = rest ∧ s' = set_ct_rx (ct_rx s') s) s.
Proof.
  induction cnt as [|cnt IH]; intros s i str H; cbn [read_loop take_line].
  { apply wp_ret. rewrite app_nil_r. simpl. split_and!; [done|lia|done|done|done|by destruct s]. }
  wp_simp. destruct (H) as [H1 H2 H3 H4]. rewrite ring_empty by done.
  unfold rx_list at 1 2. destruct (ring_list (ct_rx s)) as [|c l] eqn:Hl.
  { rewrite bool_decide_true by done. wp_simp. rewrite app_nil_r. simpl.
    split_and!; [done|lia|done|done|done|by destruct s]. }
  rewrite bool_decide_false by done. destruct (ring_pull _ _ _ H2 Hl) as (rx & -> & R1 & R2 & R3). wp_simp.
  assert (H' : tty_ok (set_ct_rx rx s)) by (split; simpl; congruence).
  destruct (c =? 10).
  { wp_simp. rewrite app_nil_r. simpl. split_and!; [done|lia|done|done|done|done]. }
  eapply wp_mono; [by apply IH|]. intros [[i' str'] nl] s'.
  change (rx_list (set_ct_rx rx s)) with (ring_list rx). rewrite R3.
  destruct (take_line cnt l) as [[line nl'] rest]. intros (-> & -> & ? & ? & ? & ?).
  rewrite <- app_assoc. simpl. split_and!; try done. lia.
Qed.

Section proofs.
Context (burst drain : console_tty → nat).
(** The UART sends something while a writer waits. *)
Context (drains : ∀ s, (0 < drain s)%nat).

(** The line discipline of the output. *)
Definition crlf (str : list Z) : list Z := str ≫= λ c, if c =? 10 then [13; 10] else [u8 c].

(** Output is transmitted in order: characters are queued, or the queue is empty. *)
Definition ordered (s : console_tty) : Prop := ct_write_char s = Queue_char ∨ tx_list s = [].

Lemma start_tx_spec s :
  tty_ok s → wp (hal_uart_start_tx burst) (λ _ s', out_post s [] s' ∧ ∃ n, tx_list s' = drop n (tx_list s)) s.
Proof.
  intros H. unfold hal_uart_start_tx. wp_simp. eapply wp_mono; [by apply uart_send_spec|]. naive_solver.
Qed.

Lemma queue_wait_spec s :
  tty_ok s → wp (queue_wait burst drain (Z.to_nat CONSOLE_TX_BUF_SZ))
    (λ _ s', out_post s [] s' ∧ Z.of_nat (length (tx_list s')) < CONSOLE_TX_BUF_SZ - 1) s.
Proof.
  intros H. change (Z.to_nat CONSOLE_TX_BUF_SZ) with (S (S 30)). generalize 30%nat. intros fuel.
  destruct (H) as [H1 _ H3 _].
  pose proof (length_ring_list _ H1) as Hl. pose proof (ring_count_bound _ H1) as Hb. rewrite H3 in Hb.
  cbn [queue_wait]. wp_simp. rewrite ring_full, H3 by done.
  destruct (Z.eqb_spec (Z.of_nat (length (ring_list (ct_tx s)))) (CONSOLE_TX_BUF_SZ - 1)) as [E|E].
  - wp_step. eapply wp_mono; [by apply start_tx_spec|]. intros _ s1 [Hp1 (n & Hn)].
    unfold delay_tick. wp_simp. eapply wp_mono; [apply uart_send_spec, Hp1|]. intros _ s2 [Hp2 Hl2]. wp_simp.
    destruct (Hp2) as ([K1 _ K3 _] & _ & _). rewrite ring_full, K3 by done.
    assert (Hlt : Z.of_nat (length (tx_list s2)) < CONSOLE_TX_BUF_SZ - 1).
    { rewrite Hl2, Hn, !length_drop. unfold tx_list. specialize (drains s1). unfold CONSOLE_TX_BUF_SZ in *. lia. }
    unfold tx_list in Hlt. rewrite (proj2 (Z.eqb_neq _ _)) by lia. wp_simp. split; [|done].
    exact (out_post_trans _ _ _ [] [] Hp1 Hp2).
  - wp_simp. split; [by apply out_post_refl|]. unfold tx_list. lia.
Qed.

Lemma write_one_spec ch s :
  tty_ok s → ordered s → wp (write_one burst drain ch) (λ _ s', out_post s [u8 ch] s' ∧ ordered s') s.
Proof.
  intros H Ho. unfold write_one. wp_simp. destruct (ct_write_char s) eqn:Hm.
  - unfold console_queue_char. wp_step. eapply wp_mono; [by apply queue_wait_spec|].
    intros _ s1 [(K & F & E) Hl]. wp_simp. destruct (K) as [K1 K2 K3 K4]. rewrite <- K3 in Hl.
    destruct (ring_add (ct_tx s1) ch K1 Hl) as (R1 & R2 & R3). destruct F as [F1 F2 F3 F4 F5 F6].
    split; [split_and!|left; simpl; congruence].
    + split; simpl; congruence.
    + by split.
    + rewrite app_nil_r in E. rewrite <- E. unfold con_sent, tx_list. simpl. by rewrite R3, app_assoc.
  - destruct Ho as [Ho|Ho]; [congruence|]. unfold console_blocking_tx. wp_simp.
    split; [split_and!|by right].
    + destruct H. by split.
    + by split.
    + unfold con_sent. change (tx_list (set_uart_out _ s)) with (tx_list s). simpl. by rewrite Ho, !app_nil_r.
Qed.

Lemma write_loop_spec str : ∀ s,
  tty_ok s → ordered s → wp (write_loop burst drain str) (λ _ s', out_post s (crlf str) s' ∧ ordered s') s.
Proof.
  induction str as [|c str IH]; intros s H Ho; cbn [write_loop].
  { apply wp_ret. split; [by apply out_post_refl|done]. }
  wp_step. apply wp_mono with (Q := λ _ s', out_post s (if c =? 10 then [13] else []) s' ∧ ordered s').
  { destruct (c =? 10); [by apply write_one_spec|]. apply wp_ret. split; [by apply out_post_refl|done]. }
  intros _ s1 [P1 O1]. wp_step. eapply wp_mono; [apply write_one_spec; [apply P1|done]|].
  intros _ s2 [P2 O2]. eapply wp_mono; [apply IH; [apply P2|done]|]. intros _ s3 [P3 O3]. split; [|done].
  pose proof (out_post_trans _ _ _ _ _ P1 (out_post_trans _ _ _ _ _ P2 P3)) as P.
  unfold crlf. cbn [mbind list_bind]. fold (crlf str).
  destruct (Z.eqb_spec c 10) as [->|]; exact P.
Qed.

Lemma console_write_spec str s :
  tty_ok s → ordered s →
  wp (console_write burst drain str) (λ _ s', out_post s (crlf str) s' ∧ ordered s') s.
Proof.
  intros H Ho. unfold console_write. wp_step. eapply wp_mono; [by apply write_loop_spec|].
  intros _ s1 [P1 O1]. wp_step.
  apply wp_mono with (Q := λ _ s', out_post s1 [] s' ∧ ct_tx s' = ct_tx s1 ∧ ct_write_char s' = ct_write_char s1).
  { destruct P1 as (K & _ & _). destruct (last str); wp_step; (split; [|done]); [|by apply out_post_refl].
    split_and!; [destruct K; by split|by split|]. unfold con_sent. by rewrite app_nil_r. }
  intros _ s2 (P2 & Et & Em). eapply wp_mono; [apply start_tx_spec, P2|]. intros _ s3 [P3 (n & Hn)].
  split.
  - pose proof (out_post_trans _ _ _ _ _ P1 (out_post_trans _ _ _ _ _ P2 P3)) as P. by rewrite app_nil_r in P.
  - destruct P3 as (_ & F & _). destruct O1 as [O1|O1]; [left; rewrite (of_mode _ _ F); congruence|right].
    rewrite Hn. unfold tx_list in *. rewrite Et, O1. by rewrite drop_nil.
Qed.

(** *** Input *)

(** The input line after one more key: Enter, backspace, or a character. *)
Definition line_edit (l : list Z) (key : Z) : list Z :=
  if (key =? 13) || (key =? 10) then l ++ [10]
  else if key =? 8 then take (length l - 1) l
  else l ++ [u8 key].
Definition echo_of (key : Z) : list Z :=
  if (key =? 13) || (key =? 10) then [10; 13] else if key =? 8 then [8; 32; 8] else [u8 key].

Lemma rx_echo_spec tx_buf s :
  tty_ok s → Z.of_nat (length tx_buf) < CONSOLE_TX_BUF_SZ →
  wp (rx_echo burst tx_buf) (λ _ s', out_post s (if ct_echo_off s then [] else u8 <$> tx_buf) s') s.
Proof.
  intros H Hn. unfold rx_echo. wp_simp. destruct (ct_echo_off s) eqn:He; cbn [negb].
  { wp_simp. by apply out_post_refl. }
  wp_step. apply wp_mono with (Q := λ _ s', out_post s [] s' ∧
    Z.of_nat (length (tx_list s')) + Z.of_nat (length tx_buf) <= CONSOLE_TX_BUF_SZ - 1).
  { destruct (H) as [H1 _ H3 _]. pose proof (length_ring_list _ H1). pose proof (ring_count_bound _ H1) as Hb.
    rewrite H3 in Hb. destruct (Z.ltb_spec (console_buf_space (ct_tx s)) (Z.of_nat (length tx_buf))) as [Hs|Hs].
    - eapply wp_mono; [by apply console_tx_flush_spec|]. intros _ s1 [? ->]. split; [done|].
      rewrite length_drop. unfold tx_list. lia.
    - wp_simp. split; [by apply out_post_refl|]. rewrite ring_space, H3 in Hs by done. unfold tx_list.
      case_bool_decide as E; [rewrite E; simpl; lia|lia]. }
  intros _ s1 [P1 Hl]. wp_simp. destruct (P1) as ([K1 K2 K3 K4] & F & E).
  destruct (ring_add_all (ct_tx s1) tx_buf K1) as (R1 & R2 & R3); [by rewrite K3|].
  set (s2 := set_ct_tx _ s1). assert (P2 : out_post s1 (u8 <$> tx_buf) s2).
  { split_and!; [split; simpl; congruence|by split|]. unfold con_sent, tx_list. simpl. by rewrite R3, app_assoc. }
  eapply wp_mono; [apply start_tx_spec, P2|]. intros _ s3 [P3 _].
  pose proof (out_post_trans _ _ _ _ _ P2 P3) as P. rewrite app_nil_r in P.
  exact (out_post_trans _ _ _ [] _ P1 P).
Qed.

(** What one character from the UART does. *)
Lemma console_rx_char_spec data s :
  tty_ok s →
  wp (console_rx_char burst data) (λ rc s', tty_ok s' ∧
    ct_rx_cb s' = ct_rx_cb s ∧ ct_write_char s' = ct_write_char s ∧ ct_echo_off s' = ct_echo_off s ∧
    if decide (Z.of_nat (length (rx_list s)) = CONSOLE_RX_BUF_SZ - 1) then
      rc = -1 ∧ rx_list s' = rx_list s ∧ con_sent s' = con_sent s ∧
      rx_calls s' = rx_calls s ++ (if ct_rx_cb s then [0] else [])
    else
      rc = 0 ∧ rx_list s' = line_edit (rx_list s) data ∧
      con_sent s' = con_sent s ++ (if ct_echo_off s then [] else echo_of data) ∧
      rx_calls s' = rx_calls s ++ (if ct_rx_cb s && ((data =? 13) || (data =? 10)) then [1] else [])) s.
Proof.
  intros H. unfold console_rx_char. wp_simp. destruct (H) as [H1 H2 H3 H4]. rewrite ring_full, H4 by done.
  pose proof (length_ring_list _ H2) as Hlen. pose proof (ring_count_bound _ H2) as Hb. rewrite H4 in Hb.
  destruct (decide (Z.of_nat (length (rx_list s)) = CONSOLE_RX_BUF_SZ - 1)) as [E|E]; unfold rx_list in E.
  { rewrite (proj2 (Z.eqb_eq _ _)) by done. wp_step. unfold call_rx_cb. wp_simp.
    destruct (ct_rx_cb s) eqn:Hcb; wp_simp; split_and!; try done; by rewrite app_nil_r. }
  rewrite (proj2 (Z.eqb_neq _ _)) by done. wp_step.
  apply wp_mono with (Q := λ tx_buf s1, tty_ok s1 ∧ rx_list s1 = line_edit (rx_list s) data ∧
    Z.of_nat (length tx_buf) < CONSOLE_TX_BUF_SZ ∧ u8 <$> tx_buf = echo_of data ∧
    s1 = set_rx_calls (rx_calls s ++ (if ct_rx_cb s && ((data =? 13) || (data =? 10)) then [1] else []))
           (set_ct_rx (ct_rx s1) s)).
  - unfold line_edit, echo_of, rx_list. destruct ((data =? 13) || (data =? 10)).
    + destruct (ring_add (ct_rx s) 10 H2) as (R1 & R2 & R3); [lia|]. unfold call_rx_cb. wp_simp.
      cbn [ct_rx_cb set_ct_rx]. destruct (ct_rx_cb s) eqn:Hcb; wp_simp; (split_and!; [split; simpl; congruence|done|done|done|]).
      * done.
      * simpl. rewrite app_nil_r. by destruct s.
    + destruct (data =? 8).
      * destruct (ring_pull_head (ct_rx s) H2) as (R1 & R2 & R3). wp_simp.
        split_and!; [split; simpl; congruence|done|done|done|]. rewrite andb_false_r, app_nil_r. by destruct s.
      * destruct (ring_add (ct_rx s) data H2) as (R1 & R2 & R3); [lia|]. wp_simp.
        split_and!; [split; simpl; congruence|done|done|done|]. rewrite andb_false_r, app_nil_r. by destruct s.
  - intros tx_buf s1 (K & Hr & Hn & Hu & Hs1). wp_step. eapply wp_mono; [by apply rx_echo_spec|].
    intros _ s2 (K2 & [F1 F2 F3 F4 F5 F6] & E2). wp_simp. rewrite Hs1 in F2, F3, F4, F5, E2. simpl in *.
    unfold rx_list in *. rewrite F1, E2, Hu. by split_and!.
Qed.

(** The UART delivers the characters [keys]. *)
Fixpoint type_in (keys : list Z) : T unit :=
  match keys with
  | [] => mret tt
  | key :: keys => console_rx_char burst key ;; type_in keys
  end.

Lemma length_line_edit l key : (length (line_edit l key) <= S (length l))%nat.
Proof.
  unfold line_edit. destruct (_ || _); [rewrite length_app; simpl; lia|].
  destruct (_ =? _); [rewrite length_take; lia|rewrite length_app; simpl; lia].
Qed.

Lemma type_in_spec keys : ∀ s,
  tty_ok s → Z.of_nat (length (rx_list s)) + Z.of_nat (length keys) < CONSOLE_RX_BUF_SZ →
  wp (type_in keys) (λ _ s', tty_ok s' ∧ rx_list s' = foldl line_edit (rx_list s) keys ∧
    con_sent s' = con_sent s ++ (if ct_echo_off s then [] else keys ≫= echo_of) ∧
    rx_calls s' = rx_calls s ++
      (if ct_rx_cb s then replicate (length (filter (λ k, k = 13 ∨ k = 10) keys)) 1 else [])) s.
Proof.
  induction keys as [|key keys IH]; intros s H Hl; cbn [type_in foldl].
  { apply wp_ret. cbn [mbind list_bind]. rewrite filter_nil. simpl.
    split_and!; [done|done|by destruct (ct_echo_off s); rewrite app_nil_r|by destruct (ct_rx_cb s); rewrite app_nil_r]. }
  cbn [length] in Hl. wp_step. eapply wp_mono; [by apply console_rx_char_spec|].
  intros rc s1 (H1 & Hcb & _ & He & Hpost). rewrite decide_False in Hpost by lia.
  destruct Hpost as (_ & Hr & Hs & Hc). pose proof (length_line_edit (rx_list s) key) as Hle.
  eapply wp_mono; [apply IH; [done|rewrite Hr; lia]|]. intros _ s2 (H2 & Hr2 & Hs2 & Hc2).
  rewrite Hcb, He in *. rewrite Hs2, Hs, Hc2, Hc, Hr2, Hr. split_and!; [done|done| |].
  - rewrite <- app_assoc. by destruct (ct_echo_off s).
  - rewrite <- app_assoc. destruct (ct_rx_cb s); cbn [andb]; [|done]. f_equal.
    rewrite filter_cons.
    destruct (Z.eqb_spec key 13), (Z.eqb_spec key 10), (decide (key = 13 ∨ key = 10)); done || (exfalso; lia).
Qed.
End proofs.

(** ** Interface

    What the shell relies on: output goes out in order with a carriage return in
    front of each line feed, input is read line by line. *)
Class ConsoleApi (C : Type) := {
  con_ok : C → Prop;
  con_out : C → list Z;
  con_in : C → list Z;
  con_write : list Z → M C unit;
  con_read : Z → M C (Z * list Z * bool);
  con_write_spec str c :
    con_ok c →
    wp (con_write str) (λ _ c', con_ok c' ∧ con_out c' = con_out c ++ crlf str ∧ con_in c' = con_in c) c;
  con_read_spec cnt c :
    con_ok c → wp (con_read cnt) (λ r c',
      let '(line, nl, rest) := take_line (Z.to_nat cnt) (con_in c) in
      r = (Z.of_nat (length line), line, nl) ∧ con_ok c' ∧ con_out c' = con_out c ∧ con_in c' = rest) c;
}.

(** The console implements it for every UART that makes progress. *)
Program Definition tty_console (burst drain : console_tty → nat) (drains : ∀ s, (0 < drain s)%nat) :
    ConsoleApi console_tty := {|
  con_ok s := tty_ok s ∧ ordered s;
  con_out := con_sent;
  con_in := rx_list;
  con_write := console_write burst drain;
  con_read := console_read;
|}.
Next Obligation.
  intros burst drain drains str s [H Ho]. eapply wp_mono; [by apply console_write_spec|].
  intros _ s' [(H' & F & E) Ho']. split_and!; try done. unfold rx_list. by rewrite (of_rx _ _ F).
Qed.
Next Obligation.
  intros _ _ _ cnt s [H Ho]. unfold console_read. eapply wp_mono; [by apply read_loop_spec|].
  intros [[i str] nl] s'. destruct (take_line _ _) as [[line nl'] rest]. intros (-> & -> & -> & H' & Hr & E).
  split_and!; try done.
  - destruct Ho as [Ho|Ho]; [left|right]; rewrite E; done.
  - by rewrite E.
Qed.

(** ** Properties *)

(** A freshly initialised console. *)
Definition demo_tty : console_tty := match console_init 0 0 true tty0 with Ret (_, s) => s | Fault _ => tty0 end.

Lemma demo_tty_ok : tty_ok demo_tty.
Proof.
  split; try done; (split; [|done|vm_compute; by split..|]).
  - by exists 5.
  - vm_compute. repeat (constructor; [done|]). constructor.
  - by exists 7.
  - vm_compute. repeat (constructor; [done|]). constructor.
Qed.

(** [console_write] returns, whatever the UART does as long as it sends something
    during the ticks in which a writer waits for it, and puts its characters, with a
    carriage return in front of each line feed, behind everything that was written
    before: nothing is lost or reordered, also when the console is switched to
    blocking mode between two writes. *)
Theorem console_write_in_order burst drain s str1 str2 :
  (∀ s, (0 < drain s)%nat) → tty_ok s → ordered s →
  wp (console_write burst drain str1 ;; console_blocking_mode ;; console_write burst drain str2) (λ _ s',
    tty_ok s' ∧ tx_list s' = [] ∧ rx_list s' = rx_list s ∧
    uart_out s' = uart_out s ++ tx_list s ++ crlf str1 ++ crlf str2) s.
Proof.
  intros Hd H Ho. wp_step. eapply wp_mono; [by apply console_write_spec|]. intros _ s1 [(H1 & F1 & E1) O1].
  unfold console_blocking_mode. wp_simp. set (s1' := set_ct_write_char Blocking_tx s1).
  assert (H1' : tty_ok s1') by (destruct H1; by split).
  eapply wp_mono; [by apply console_tx_flush_spec|]. intros _ s2 [(H2 & F2 & E2) Hl2].
  assert (Hn2 : tx_list s2 = []).
  { rewrite Hl2. apply drop_ge. pose proof (length_ring_list _ (tk_tx _ H1')) as Hl.
    pose proof (ring_count_bound _ (tk_tx _ H1')) as Hb. rewrite (tk_tx_size _ H1') in Hb. unfold tx_list. lia. }
  eapply wp_mono; [apply console_write_spec; [done|done|by right]|]. intros _ s3 [(H3 & F3 & E3) O3].
  assert (Hn3 : tx_list s3 = []).
  { destruct O3 as [O3|O3]; [|done]. rewrite (of_mode _ _ F3), (of_mode _ _ F2) in O3. done. }
  split_and!; [done|done| |].
  - unfold rx_list. by rewrite (of_rx _ _ F3), (of_rx _ _ F2), <- (of_rx _ _ F1).
  - unfold con_sent in E3 at 1. rewrite Hn3, app_nil_r in E3. rewrite E3, E2, app_nil_r.
    change (con_sent s1') with (con_sent s1). rewrite E1. unfold con_sent. by rewrite <- !app_assoc.
Qed.

Lemma console_write_in_order_witness :
  wp (console_write (λ _, 0%nat) (λ _, 1%nat) (replicate 40 65 ++ [10]) ;; console_blocking_mode ;;
      console_write (λ _, 0%nat) (λ _, 1%nat) [66]) (λ _ s',
    tty_ok s' ∧ tx_list s' = [] ∧ rx_list s' = rx_list demo_tty ∧
    uart_out s' = uart_out demo_tty ++ tx_list demo_tty ++ crlf (replicate 40 65 ++ [10]) ++ crlf [66]) demo_tty.
Proof.
  apply (console_write_in_order (λ _, 0%nat) (λ _, 1%nat)); [intros; lia|apply demo_tty_ok|by left].
Defined.

Lemma typed_no_newline keys l :
  Forall (λ k, k ≠ 10 ∧ k ≠ 13 ∧ is_byte k) keys → Forall (λ c, c ≠ 10) l →
  Forall (λ c, c ≠ 10) (foldl line_edit l keys).
Proof.
  intros Hk. revert l. induction Hk as [|k keys (H1 & H2 & H3) Hk IH]; intros l Hl; simpl; [done|].
  apply IH. unfold line_edit. rewrite !(proj2 (Z.eqb_neq _ _)) by done. cbn [orb].
  destruct (k =? 8); [by apply Forall_take|]. apply Forall_app. split; [done|].
  rewrite u8_small by done. by repeat constructor.
Qed.
Lemma typed_no_enter keys :
  Forall (λ k, k ≠ 10 ∧ k ≠ 13 ∧ is_byte k) keys → filter (λ k, k = 13 ∨ k = 10) keys = [].
Proof.
  intros Hk. induction Hk as [|k keys (? & ? & _) Hk IH]; [done|]. rewrite filter_cons_False by lia. done.
Qed.

(** Typing a line, with backspaces, and Enter on an empty input ring calls the input
    callback once with [full_line] set, echoes every key in order, and the reader gets
    exactly the edited line. *)
Theorem console_typed_line burst s keys cnt :
  tty_ok s → rx_list s = [] → Forall (λ k, k ≠ 10 ∧ k ≠ 13 ∧ is_byte k) keys →
  Z.of_nat (length keys) < CONSOLE_RX_BUF_SZ - 1 →
  let line := foldl line_edit [] keys in
  Z.of_nat (length line) < cnt →
  wp (type_in burst (keys ++ [13]) ;; console_read cnt) (λ r s',
    r = (Z.of_nat (length line), line, true) ∧ tty_ok s' ∧ rx_list s' = [] ∧
    con_sent s' = con_sent s ++ (if ct_echo_off s then [] else (keys ++ [13]) ≫= echo_of) ∧
    rx_calls s' = rx_calls s ++ (if ct_rx_cb s then [1] else [])) s.
Proof.
  intros H Hr Hk Hlen line Hcnt. wp_step.
  eapply wp_mono; [apply type_in_spec; [done|rewrite Hr, length_app; simpl; lia]|].
  intros _ s1 (H1 & Hr1 & Hs1 & Hc1). unfold console_read.
  eapply wp_mono; [by apply read_loop_spec|]. intros [[i str] nl] s2.
  rewrite Hr1, Hr, foldl_app. cbn [foldl]. unfold line_edit at 1. cbn [Z.eqb Pos.eqb orb]. fold line.
  rewrite take_line_full by (by apply typed_no_newline || lia).
  intros (-> & -> & -> & H2 & Hr2 & E). split_and!; [done|done|done|by rewrite E|].
  rewrite E. change (rx_calls (set_ct_rx _ s1)) with (rx_calls s1). rewrite Hc1. f_equal.
  rewrite filter_app, length_app, typed_no_enter by done. done.
Qed.

Lemma console_typed_line_witness :
  wp (type_in (λ _, 0%nat) ([108; 97; 8; 115] ++ [13]) ;; console_read 100) (λ r s',
    r = (2, [108; 115], true) ∧ tty_ok s' ∧ rx_list s' = [] ∧
    con_sent s' = con_sent demo_tty ++ [108; 97; 8; 32; 8; 115; 10; 13] ∧
    rx_calls s' = rx_calls demo_tty ++ [1]) demo_tty.
Proof.
  apply (console_typed_line (λ _, 0%nat) demo_tty [108; 97; 8; 115] 100);
    [apply demo_tty_ok|done| |done|done].
  repeat (apply Forall_cons; split; [by split_and!|]). constructor.
Defined.

(** A backspace right after Enter takes the line feed back: the callback has announced
    a line, but the ring holds none. *)
Example backspace_takes_line_feed :
  match type_in (λ _, 0%nat) [108; 115; 13; 8] demo_tty with
  | Ret (_, s) => rx_list s = [108; 115] ∧ rx_calls s = [1]
  | Fault _ => False
  end.
Proof. by vm_compute. Qed.

(** *** The rings *)

Inductive ring_op := RAdd (ch : Z) | RPull | RUndo.

(** The operations with the checks of their callers; -1 is the result of a full or
    empty ring. *)
Definition ring_step (r : console_ring) (op : ring_op) : Z * console_ring :=
  match op with
  | RAdd ch => if CONSOLE_HEAD_INC r =? cr_tail r then (-1, r) else (0, console_add_char r ch)
  | RPull => if cr_head r =? cr_tail r then (-1, r) else console_pull_char r
  | RUndo => (0, console_pull_char_head r)
  end.
(** The same on a queue of at most [cap] characters. *)
Definition queue_step (cap : Z) (l : list Z) (op : ring_op) : Z * list Z :=
  match op, l with
  | RAdd ch, _ => if Z.of_nat (length l) =? cap then (-1, l) else (0, l ++ [u8 ch])
  | RPull, [] => (-1, [])
  | RPull, c :: l => (c, l)
  | RUndo, _ => (0, take (length l - 1) l)
  end.
Fixpoint run_ops {S} (step : S → ring_op → Z * S) (s : S) (ops : list ring_op) : list Z * S :=
  match ops with
  | [] => ([], s)
  | op :: ops => let '(r, s) := step s op in let '(rs, s) := run_ops step s ops in (r :: rs, s)
  end.

(** C25. A console ring of [n] cells implements a queue of at most [n - 1] characters: every
    sequence of insertions, removals and undone insertions has the same results, and
    leaves the characters of the queue in the ring. *)
Theorem console_ring_refines_queue r ops :
  ring_ok r →
  let '(results, r') := run_ops ring_step r ops in
  ring_ok r' ∧ run_ops (queue_step (cr_size r - 1)) (ring_list r) ops = (results, ring_list r').
Proof.
  revert r. induction ops as [|op ops IH]; intros r H; [done|]. cbn [run_ops].
  assert (∃ x r1, ring_step r op = (x, r1) ∧ ring_ok r1 ∧ cr_size r1 = cr_size r ∧
    queue_step (cr_size r - 1) (ring_list r) op = (x, ring_list r1)) as (x & r1 & -> & H1 & Hs & ->).
  { destruct op as [ch| |]; cbn [ring_step queue_step].
    - rewrite ring_full by done. destruct (Z.eqb_spec (Z.of_nat (length (ring_list r))) (cr_size r - 1)); [do 2 eexists; by split_and!|].
      pose proof (length_ring_list r H). pose proof (ring_count_bound r H).
      destruct (ring_add r ch H) as (? & ? & E); [lia|]. do 2 eexists. split_and!; try done. by rewrite E.
    - rewrite ring_empty by done. destruct (ring_list r) as [|c l] eqn:Hl.
      + rewrite bool_decide_true by done. do 2 eexists. split_and!; try done. by rewrite Hl.
      + rewrite bool_decide_false by done. destruct (ring_pull r c l H Hl) as (r' & ? & ? & ? & Hr').
        do 2 eexists. split_and!; try done. by rewrite Hr'.
    - destruct (ring_pull_head r H) as (? & ? & E). do 2 eexists. split_and!; try done. by rewrite E. }
  specialize (IH r1 H1). destruct (run_ops ring_step r1 ops) as [rs r']. rewrite Hs in IH.
  destruct IH as [? ->]. done.
Qed.

Lemma console_ring_refines_queue_witness :
  let '(results, r') := run_ops ring_step (ct_tx demo_tty) (replicate 33 (RAdd 65) ++ [RUndo; RPull]) in
  ring_ok r' ∧
  run_ops (queue_step (cr_size (ct_tx demo_tty) - 1)) (ring_list (ct_tx demo_tty))
    (replicate 33 (RAdd 65) ++ [RUndo; RPull]) = (results, ring_list r').
Proof. apply (console_ring_refines_queue (ct_tx demo_tty)). apply demo_tty_ok. Defined.
