(* ===== verification/Shell.v ===== *)
(** The shell task: libs/shell/src/shell.c.

    The shell reads lines from the console.  A line is a command, or it carries a piece
    of a newtmgr packet (NLIP): the length of the packet and its bytes, in base64, the
    first line marked 06 09 and the lines that continue it 04 20.  Packets to be sent
    wait in an mbuf queue and go out in the same form.

    The console is any instance of [ConsoleApi]; the packets and the queue are those of
    [OsMbuf] and [OsMqueue]; the commands and the receiver of the packets, which are
    registered as function pointers, are parameters. *)
From Stdlib Require Import ZArith Lia.
From stdpp Require Import base decidable list numbers gmap.
From S2P Require Import Prelude.
From S2P Require Import OsState.
From S2P Require Import OsSched.
From S2P Require Import OsEventq.
From S2P Require Import OsMempool.
From S2P Require Import OsMbuf.
From S2P Require Import OsMqueue.
From S2P Require Import Base64.
From S2P Require Import Console.

#[local] Open Scope Z_scope.

Definition SHELL_NLIP_PKT_START1 : Z := 6.
Definition SHELL_NLIP_PKT_START2 : Z := 9.
Definition SHELL_NLIP_DATA_START1 : Z := 4.
Definition SHELL_NLIP_DATA_START2 : Z := 20.
Definition SHELL_NLIP_MTX_BUF_SIZE : Z := 12.
Definition SHELL_ARGV_LEN : nat := 20.
(** The quotient of integers is 1. *)
Definition BASE64_ENCODE_SIZE (size : Z) : Z := size * (4 / 3) + 4.

(** The shell's own objects: its event queue, the event of the console, the queue of
    outgoing packets. *)
Definition shell_evq : nat := 1.
Definition console_rdy_ev : evid := EvUser 1.
Definition g_shell_nlip_mq : nat := 1.

(** The first [n] bytes at offset [off] of [buf] replaced by [bytes]. *)
Definition store (off : nat) (bytes buf : list Z) : list Z :=
  take off buf ++ bytes ++ drop (off + length bytes) buf.

(** The string that starts at [buf]: [None] if there is no NUL. *)
Fixpoint c_string (buf : list Z) : option (list Z) :=
  match buf with
  | [] => None
  | c :: buf => if c =? 0 then Some [] else (c ::.) <$> c_string buf
  end.

(** [strtok_r] with spaces, called until the end of the string: the offsets of the
    tokens and those of the spaces overwritten by NUL. *)
Fixpoint strtok_all (str : list Z) (pos : nat) (in_token : bool) : list nat * list nat :=
  match str with
  | [] => ([], [])
  | c :: str =>
      let '(toks, nuls) := strtok_all str (S pos) (negb (c =? 32)) in
      if c =? 32 then (toks, if in_token then pos :: nuls else nuls)
      else (if in_token then toks else pos :: toks, nuls)
  end.

(** What [base64_decode] has written when it returns, also with an error. *)
Fixpoint decode_written (fuel : nat) (p q : list Z) : list Z :=
  match fuel with
  | O => q
  | S fuel =>
      match p with
      | [] => q
      | c :: _ =>
          if (c =? PAD) || bool_decide (c ∈ base64_chars) then
            let val := token_decode p in
            if val =? DECODE_ERROR then q else decode_written fuel (drop 4 p) (q ++ token_bytes val)
          else q
      end
  end.

Section shell.
Context {C : Type} {CA : ConsoleApi C} {S : Type} {AL : Allocator S} {inh : Inhabited S}.

(** [argv] points into [shell_line].  [encodebuf_overrun] is the number of bytes behind
    [encodebuf] that were overwritten. *)
Record shell_state := mk_shell {
  sh_con : C;
  sh_os : qstate S;
  g_nlip_mbuf : Z;
  g_nlip_expected_len : Z;
  shell_line : list Z;
  shell_line_capacity : Z;
  shell_line_len : Z;
  shell_full_line : Z;
  argv : list (option nat);
  encodebuf_overrun : Z;
}.
Definition set_sh_con (v : C) (s : shell_state) : shell_state :=
  mk_shell v (sh_os s) (g_nlip_mbuf s) (g_nlip_expected_len s) (shell_line s) (shell_line_capacity s)
    (shell_line_len s) (shell_full_line s) (argv s) (encodebuf_overrun s).
Definition set_sh_os (v : qstate S) (s : shell_state) : shell_state :=
  mk_shell (sh_con s) v (g_nlip_mbuf s) (g_nlip_expected_len s) (shell_line s) (shell_line_capacity s)
    (shell_line_len s) (shell_full_line s) (argv s) (encodebuf_overrun s).
Definition set_nlip (mbuf len : Z) (s : shell_state) : shell_state :=
  mk_shell (sh_con s) (sh_os s) mbuf len (shell_line s) (shell_line_capacity s)
    (shell_line_len s) (shell_full_line s) (argv s) (encodebuf_overrun s).
Definition set_shell_line (v : list Z) (s : shell_state) : shell_state :=
  mk_shell (sh_con s) (sh_os s) (g_nlip_mbuf s) (g_nlip_expected_len s) v (shell_line_capacity s)
    (shell_line_len s) (shell_full_line s) (argv s) (encodebuf_overrun s).
Definition set_shell_line_len (v : Z) (s : shell_state) : shell_state :=
  mk_shell (sh_con s) (sh_os s) (g_nlip_mbuf s) (g_nlip_expected_len s) (shell_line s) (shell_line_capacity s)
    v (shell_full_line s) (argv s) (encodebuf_overrun s).
Definition set_shell_full_line (v : Z) (s : shell_state) : shell_state :=
  mk_shell (sh_con s) (sh_os s) (g_nlip_mbuf s) (g_nlip_expected_len s) (shell_line s) (shell_line_capacity s)
    (shell_line_len s) v (argv s) (encodebuf_overrun s).
Definition set_argv (v : list (option nat)) (s : shell_state) : shell_state :=
  mk_shell (sh_con s) (sh_os s) (g_nlip_mbuf s) (g_nlip_expected_len s) (shell_line s) (shell_line_capacity s)
    (shell_line_len s) (shell_full_line s) v (encodebuf_overrun s).
Definition set_encodebuf_overrun (v : Z) (s : shell_state) : shell_state :=
  mk_shell (sh_con s) (sh_os s) (g_nlip_mbuf s) (g_nlip_expected_len s) (shell_line s) (shell_line_capacity s)
    (shell_line_len s) (shell_full_line s) (argv s) v.

Abbreviation H := (M shell_state) (only parsing).

Definition on_con {A} (m : M C A) : H A := λ s,
  match m (sh_con s) with Ret (a, c) => Ret (a, set_sh_con c s) | Fault f => Fault f end.
Definition on_os {A} (m : M (qstate S) A) : H A := λ s,
  match m (sh_os s) with Ret (a, q) => Ret (a, set_sh_os q s) | Fault f => Fault f end.
Definition on_mbufs {A} (m : M bstate A) : H A := on_os (on_bufs m).

(** ** Sending packets *)

(** [base64_encode (data, ..., encodebuf, should_pad)] writes a NUL behind its result. *)
Definition encode_chunk (data : list Z) (should_pad : bool) : H (list Z) :=
  let enc := base64_encode data should_pad in
  let written := Z.of_nat (length enc) + 1 in
  modify (λ s, set_encodebuf_overrun
    (Z.max (encodebuf_overrun s) (written - BASE64_ENCODE_SIZE SHELL_NLIP_MTX_BUF_SIZE)) s) ;;
  mret enc.

(** The loop: [inl rc] is the [goto err], [inr linelen] its end.  [hdr] is what
    [readbuf] holds in front of the data, of [rb_off] bytes.  A round takes at least a
    byte of the packet.  [nwritten] of the source is not used. *)
Fixpoint mtx_loop (fuel : nat) (m : Z) (hdr : list Z) (totlen off linelen : Z) : H (Z + Z) :=
  if 0 <? totlen then
    match fuel with
    | O => fault_with FFuel
    | Datatypes.S fuel =>
        let rb_off := Z.of_nat (length hdr) in
        let dlen := u16 (Z.min (SHELL_NLIP_MTX_BUF_SIZE - rb_off) totlen) in
        r ← on_mbufs (os_mbuf_copydata m off dlen);
        let '(rc, bytes) := r : Z * list Z in
        if negb (rc =? 0) then mret (inl rc)
        else
          let off := u16 (off + dlen) in
          let next := BASE64_ENCODE_SIZE (Z.min (SHELL_NLIP_MTX_BUF_SIZE - rb_off) (totlen - dlen)) in
          linelen ←
            (if 120 <=? linelen + next then
               enc ← encode_chunk (hdr ++ bytes) true;
               on_con (con_write enc) ;;
               on_con (con_write [10]) ;;
               on_con (con_write [SHELL_NLIP_DATA_START1; SHELL_NLIP_DATA_START2]) ;;
               mret 0
             else
               enc ← encode_chunk (hdr ++ bytes) false;
               on_con (con_write enc) ;;
               mret (u16 (linelen + Z.of_nat (length enc))));
          mtx_loop fuel m [] (u16 (totlen - dlen)) off linelen
    end
  else mret (inr linelen).

Definition shell_nlip_mtx (m : Z) : H Z :=
  om ← on_mbufs (mbuf_at m);
  let totlen := OS_MBUF_PKTLEN om in
  on_con (con_write [SHELL_NLIP_PKT_START1; SHELL_NLIP_PKT_START2]) ;;
  (* htons: the bytes of the length, high byte first *)
  r ← mtx_loop (Z.to_nat totlen) m [totlen / 256; totlen mod 256] totlen 0 0;
  match r with
  | inl rc => mret rc
  | inr linelen =>
      on_con (con_write (base64_pad linelen)) ;;
      on_con (con_write [10]) ;;
      mret 0
  end.

(** A round takes a packet off the queue. *)
Fixpoint mqueue_process_loop (fuel : nat) : H unit :=
  m ← on_os (os_mqueue_get g_shell_nlip_mq);
  if m =? 0 then mret tt
  else match fuel with
  | O => fault_with FFuel
  | Datatypes.S fuel =>
      shell_nlip_mtx m ;;
      on_mbufs (os_mbuf_free_chain m) ;;
      mqueue_process_loop fuel
  end.
Definition shell_nlip_mqueue_process : H unit :=
  s ← get; mqueue_process_loop (length (mq_head (mqueue_of (sh_os s) g_shell_nlip_mq))).

Definition shell_nlip_output (m : Z) : H os_error := on_os (os_mqueue_put g_shell_nlip_mq (Some shell_evq) m).

(** ** Receiving lines *)

Section input.
(** The function registered with [shell_nlip_input_register], and [shell_cmd], which
    looks the command up and calls it with its arguments. *)
Context (in_func : option (Z → H os_error)) (shell_cmd : list Z → list (list Z) → H Z).

(** The string at offset [off] of the line buffer. *)
Definition line_string (off : nat) : H (list Z) :=
  s ← get; from_option_fault FNull (c_string (drop off (shell_line s))).

Definition shell_process_command : H Z :=
  str ← line_string 0;
  let '(toks, nuls) := strtok_all str 0 false in
  let argc := length toks in
  if (SHELL_ARGV_LEN <? argc)%nat then fault_with FNull   (* argv overflows *)
  else
    modify (λ s, set_shell_line (foldl (λ l p, <[p := 0]> l) (shell_line s) nuls) s) ;;
    modify (λ s, set_argv ((Some <$> toks) ++ drop argc (argv s)) s) ;;
    s ← get;
    cmd ← from_option_fault FNull (argv s !! 0%nat ≫= id);
    cmd ← line_string cmd;
    args ← from_option_fault FNull (mapM (λ off, c_string (drop off (shell_line s))) toks);
    shell_cmd cmd args ;;
    mret 0.

(** A packet begins: its length is in the first two bytes.  [None] is an error. *)
Definition nlip_begin (data : list Z) : H (option (list Z)) :=
  match data with
  | d0 :: d1 :: data =>
      let len := d0 * 256 + d1 in
      modify (λ s, set_nlip (g_nlip_mbuf s) len s) ;;
      m ← on_mbufs (os_msys_get_pkthdr len 0);
      modify (λ s, set_nlip m (g_nlip_expected_len s) s) ;;
      if m =? 0 then mret None else mret (Some data)
  | _ => mret None
  end.

(** [data] is stored behind what the packet already holds. *)
Definition nlip_store (data : list Z) : H Z :=
  s ← get;
  om ← on_mbufs (mbuf_at (g_nlip_mbuf s));
  let len := Z.of_nat (length data) in
  let copy_len := u16 (Z.min (g_nlip_expected_len s - OS_MBUF_PKTLEN om) len) in
  if len <? copy_len then fault_with FNull
  else
    rc ← on_mbufs (os_mbuf_copyinto (g_nlip_mbuf s) (OS_MBUF_PKTLEN om) (take (Z.to_nat copy_len) data));
    if negb (rc =? 0) then mret rc
    else
      om ← on_mbufs (mbuf_at (g_nlip_mbuf s));
      (if OS_MBUF_PKTLEN om =? g_nlip_expected_len s then
         match in_func with
         | Some f => f (g_nlip_mbuf s) ;; mret tt
         | None => on_mbufs (os_mbuf_free_chain (g_nlip_mbuf s)) ;; mret tt
         end ;;
         modify (set_nlip 0 0)
       else mret tt) ;;
      mret 0.

(** [shell_nlip_process (&shell_line[2])].  The line is decoded in place: the decoder
    writes three bytes for four characters it has read. *)
Definition shell_nlip_process : H Z :=
  str ← line_string 2;
  modify (λ s, set_shell_line (store 2 (decode_written (length str) str []) (shell_line s)) s) ;;
  match base64_decode str with
  | None => mret (-1)
  | Some data =>
      s ← get;
      r ← (if g_nlip_mbuf s =? 0 then nlip_begin data else mret (Some data));
      match r with
      | None => mret (-1)
      | Some data => nlip_store data
      end
  end.

(** The body of the loop of [shell_read_console] for a full line: [rc] characters were
    read last. *)
Definition shell_handle_line (rc : Z) : H Z :=
  s ← get;
  if 2 <? rc then
    let c0 := nth 0 (shell_line s) 0 in
    let c1 := nth 1 (shell_line s) 0 in
    if (c0 =? SHELL_NLIP_PKT_START1) && (c1 =? SHELL_NLIP_PKT_START2) then
      (if negb (g_nlip_mbuf s =? 0) then
         on_mbufs (os_mbuf_free_chain (g_nlip_mbuf s)) ;;
         modify (λ s, set_nlip 0 (g_nlip_expected_len s) s)
       else mret tt) ;;
      modify (λ s, set_nlip (g_nlip_mbuf s) 0 s) ;;
      shell_nlip_process
    else if (c0 =? SHELL_NLIP_DATA_START1) && (c1 =? SHELL_NLIP_DATA_START2) then shell_nlip_process
    else shell_process_command
  else shell_process_command.

(** The result of a line that is not 0 ends the loop only for a command, whose result
    is always 0.  Every round but the last takes a character from the console. *)
Fixpoint read_console_loop (fuel : nat) : H Z :=
  s ← get;
  r ← on_con (con_read (shell_line_capacity s - shell_line_len s));
  let '(rc, str, nul) := r : Z * list Z * bool in
  modify (λ s, set_shell_line
    (store (Z.to_nat (shell_line_len s)) (if nul then str ++ [0] else str) (shell_line s)) s) ;;
  if rc <? 0 then mret rc
  else if rc =? 0 then mret 0
  else match fuel with
  | O => fault_with FFuel
  | Datatypes.S fuel =>
      s ← get;
      (if negb (shell_full_line s =? 0) then
         modify (set_shell_line_len 0) ;;
         modify (set_shell_full_line 0) ;;
         shell_handle_line rc ;;
         mret tt
       else modify (λ s, set_shell_line_len (shell_line_len s + rc) s)) ;;
      read_console_loop fuel
  end.
Definition shell_read_console : H Z :=
  s ← get; read_console_loop (length (con_in (sh_con s))).

Definition shell_console_rx_cb (full_line : Z) : H unit :=
  modify (set_shell_full_line (u8 full_line)) ;;
  on_os (on_kernel (os_eventq_put shell_evq console_rdy_ev)).
End input.

(** [nmgr_shell_in] of libs/newtmgr/src/newtmgr.c: a packet goes to the newtmgr task,
    whose transport has the queue [imq] and whose event queue is [evq]. *)
Definition nmgr_shell_in (imq evq : nat) (m : Z) : H os_error := on_os (os_mqueue_put imq (Some evq) m).
End shell.
Arguments shell_state C S : clear implicits.
