(* ===== verification/ShellProps.v ===== *)
(** Properties of the shell of [Shell]: the frames of newtmgr packets and the reading
    of lines. *)
From Stdlib Require Import ZArith Lia.
From stdpp Require Import base decidable list numbers gmap.
From S2P Require Import Prelude.
From S2P Require Import OsState.
From S2P Require Import OsSched.
From S2P Require Import OsInv.
From S2P Require Import OsEventq.
From S2P Require Import OsMempool.
From S2P Require Import OsMbuf.
From S2P Require Import OsMbufSpec.
From S2P Require Import OsMbufWrite.
From S2P Require Import OsKernel.
From S2P Require Import OsProps.
From S2P Require Import OsMbufProps.
From S2P Require Import OsMqueue.
From S2P Require Import Base64.
From S2P Require Import Console.
From S2P Require Import Shell.

#[local] Open Scope Z_scope.

(** ** Base64 in pieces *)

(** Groups of three bytes can be encoded one after the other. *)
Lemma encode_ref_app pad l1 l2 :
  (length l1 mod 3 = 0)%nat → encode_ref pad (l1 ++ l2) = encode_ref [] l1 ++ encode_ref pad l2.
Proof.
  induction l1 as [|a|a b|a b c l IH] using list_ind3; intros Hm; [done..|].
  cbn [app encode_ref]. rewrite IH; [by rewrite <- app_assoc|].
  revert Hm. cbn [length]. replace (S (S (S (length l)))) with (length l + 1 * 3)%nat by lia.
  by rewrite Nat.Div0.mod_add.
Qed.

Lemma length_encode_ref_nopad l :
  (length l mod 3 = 0)%nat → Z.of_nat (length (encode_ref [] l)) = Z.of_nat (length l) / 3 * 4.
Proof.
  induction l as [|a|a b|a b c l IH] using list_ind3; intros Hm; [done..|]. cbn [encode_ref length].
  rewrite length_app, Nat2Z.inj_add, IH.
  - replace (Z.of_nat (S (S (S (length l))))) with (Z.of_nat (length l) + 1 * 3) by lia.
    rewrite Z.div_add by lia. change (length (quad (a * 65536 + b * 256 + c))) with 4%nat. lia.
  - revert Hm. cbn [length]. replace (S (S (S (length l)))) with (length l + 1 * 3)%nat by lia.
    by rewrite Nat.Div0.mod_add.
Qed.

Lemma length_encode_ref_le pad l :
  (length pad <= 1)%nat → (length l <= 12)%nat → (length (encode_ref pad l) <= 16)%nat.
Proof.
  intros Hp Hl. assert (length (encode_ref pad l) <= length (encode_ref [PAD] l))%nat as Hle.
  { clear Hl. induction l as [|a|a b|a b c l IH] using list_ind3; simpl; rewrite ?length_app; simpl; lia. }
  pose proof (length_encode_ref_pad l) as E. unfold groups_end in E. rewrite Z.div_mul in E by lia.
  assert ((Z.of_nat (length l) + 2) / 3 < 5); [|lia]. apply Z.div_lt_upper_bound; lia.
Qed.

(** The characters of an encoding pass the line discipline unchanged. *)
Definition plain (c : Z) : Prop := c ≠ 10 ∧ 0 < c < 256.

Lemma crlf_plain l : Forall plain l → crlf l = l.
Proof.
  induction 1 as [|c l [Hc Hb] Hl IH]; [done|]. unfold crlf in *. cbn [mbind list_bind].
  rewrite (proj2 (Z.eqb_neq _ _)) by done. rewrite IH, u8_small by lia. done.
Qed.

Lemma plain_chars c : c ∈ base64_chars → plain c.
Proof.
  intros Hc. assert (Forall plain base64_chars) as Hall.
  { unfold base64_chars. repeat (constructor; [split; [lia|split; lia]|]). constructor. }
  by apply (proj1 (Forall_forall _ _) Hall).
Qed.

Lemma quad_plain v : Forall plain (quad v).
Proof.
  rewrite quad_chars.
  assert (H : ∀ z, plain (char_at (z mod 64))).
  { intros z. apply plain_chars, pos_char_at, Z.mod_pos_bound. lia. }
  by repeat (constructor; [apply H|]).
Qed.

Lemma encode_ref_plain pad l : Forall plain pad → Forall plain (encode_ref pad l).
Proof.
  intros Hp. induction l as [|a|a b|a b c l IH] using list_ind3; cbn [encode_ref].
  - constructor.
  - apply Forall_app. split; [apply Forall_take, quad_plain|by apply Forall_app].
  - apply Forall_app. split; [apply Forall_take, quad_plain|done].
  - apply Forall_app. split; [apply quad_plain|done].
Qed.

Lemma base64_encode_plain data pad : Forall plain (base64_encode data pad).
Proof.
  rewrite base64_encode_ref. apply encode_ref_plain. destruct pad; repeat constructor; done.
Qed.

(** ** Frames *)

(** The text of the lines of a packet after the mark of the first one. *)
Fixpoint frame_text (lines : list (list Z)) : list Z :=
  match lines with
  | [] => []
  | [x] => base64_encode x true ++ [13; 10]
  | x :: lines =>
      base64_encode x true ++ [13; 10] ++ [SHELL_NLIP_DATA_START1; SHELL_NLIP_DATA_START2] ++ frame_text lines
  end.

Lemma frame_text_cons x lines :
  lines ≠ [] → frame_text (x :: lines) = base64_encode x true ++ [13; 10] ++ [4; 20] ++ frame_text lines.
Proof. by destruct lines. Qed.

(** The lines of a packet carry bytes; a last line without any may follow. *)
Definition lines_ok (segs lines extra : list (list Z)) : Prop :=
  segs = lines ++ extra ∧ Forall (λ x, x ≠ []) lines ∧ (extra = [] ∨ extra = [[]]) ∧
  Forall (λ x, (length x <= 99)%nat) segs.

Lemma lines_ok_one x : (length x <= 99)%nat → ∃ lines extra, lines_ok [x] lines extra.
Proof.
  intros Hx. destruct (decide (x = [])) as [->|].
  - exists [], [[]]. split_and!; [done|constructor|by right|apply Forall_singleton; simpl; lia].
  - exists [x], []. split_and!; [done|by apply Forall_singleton|by left|by apply Forall_singleton].
Qed.
Lemma lines_ok_cons x segs lines extra :
  x ≠ [] → (length x <= 99)%nat → lines_ok segs lines extra → lines_ok (x :: segs) (x :: lines) extra.
Proof. intros ? ? (-> & ? & ? & ?). split_and!; [done|by constructor|done|by constructor]. Qed.

(** ** Programs of the shell *)

Section shell.
Context {C : Type} {CA : ConsoleApi C} {S : Type} {AL : Allocator S} {inh : Inhabited S}.
Implicit Types (s : shell_state C S).

Lemma wp_unbind {A B} (m : M (shell_state C S) A) (f : A → M (shell_state C S) B) P s :
  wp (m ≫= f) P s → wp m (λ a, wp (f a) P) s.
Proof. unfold wp, mbind, M_bind. by destruct (m s) as [[a s']|]. Qed.

Lemma wp_on_con {A} (m : M C A) (P : A → shell_state C S → Prop) s :
  wp m (λ a c, P a (set_sh_con c s)) (sh_con s) → wp (on_con m) P s.
Proof. unfold wp, on_con. by destruct (m (sh_con s)) as [[a c]|]. Qed.

Lemma wp_on_os {A} (m : M (qstate S) A) (P : A → shell_state C S → Prop) s :
  wp m (λ a q, P a (set_sh_os q s)) (sh_os s) → wp (on_os m) P s.
Proof. unfold wp, on_os. by destruct (m (sh_os s)) as [[a q]|]. Qed.

Lemma wp_on_mbufs {A} (m : M (bstate (S := S)) A) (P : A → shell_state C S → Prop) s :
  wp m (λ a b, P a (set_sh_os (set_q_bufs b (sh_os s)) s)) (q_bufs (sh_os s)) → wp (on_mbufs m) P s.
Proof. intros H. apply wp_on_os, wp_on_bufs. exact H. Qed.

(** Reading mbufs leaves the state alone. *)
Lemma wp_on_mbufs_read {A} (m : M (bstate (S := S)) A) a (P : A → shell_state C S → Prop) s :
  m (q_bufs (sh_os s)) = Ret (a, q_bufs (sh_os s)) → P a s → wp (on_mbufs m) P s.
Proof.
  intros Hm HP. apply wp_on_mbufs. unfold wp. rewrite Hm.
  by replace (set_sh_os (set_q_bufs (q_bufs (sh_os s)) (sh_os s)) s) with s by (destruct s as [? []]; done).
Qed.

(** ** Sending *)

(** [s'] is [s] after [t] was written to the console. *)
Definition wrote (s : shell_state C S) (t : list Z) (s' : shell_state C S) : Prop :=
  con_ok (sh_con s') ∧ con_out (sh_con s') = con_out (sh_con s) ++ t ∧
  con_in (sh_con s') = con_in (sh_con s) ∧
  s' = set_encodebuf_overrun (encodebuf_overrun s') (set_sh_con (sh_con s') s).

Lemma sent_refl s : con_ok (sh_con s) → wrote s [] s.
Proof. intros H. split_and!; [done|by rewrite app_nil_r|done|by destruct s]. Qed.
Lemma sent_trans s1 s2 s3 t t' : wrote s1 t s2 → wrote s2 t' s3 → wrote s1 (t ++ t') s3.
Proof.
  intros (_ & E1 & I1 & F1) (? & E2 & I2 & F2). split_and!; [done|by rewrite E2, E1, app_assoc|congruence|].
  rewrite F2, F1. by destruct s1.
Qed.
Lemma sent_os s t s' : wrote s t s' → sh_os s' = sh_os s.
Proof. intros (_ & _ & _ & ->). done. Qed.

Lemma wp_con_write t s :
  con_ok (sh_con s) →
  wp (on_con (con_write t)) (λ _ s', wrote s (crlf t) s' ∧ encodebuf_overrun s' = encodebuf_overrun s) s.
Proof.
  intros H. apply wp_on_con. eapply wp_mono; [by apply con_write_spec|]. intros _ c (? & ? & ?).
  split; [|done]. by split_and!.
Qed.

Lemma wp_encode_chunk data pad s :
  con_ok (sh_con s) → (length data <= 12)%nat →
  wp (encode_chunk data pad) (λ enc s', enc = encode_ref (if pad then [PAD] else []) data ∧ wrote s [] s' ∧
    encodebuf_overrun s <= encodebuf_overrun s' <= Z.max (encodebuf_overrun s) 1 ∧
    (length data = 12%nat → 1 <= encodebuf_overrun s')) s.
Proof.
  intros H Hl. unfold encode_chunk. wp_simp. rewrite base64_encode_ref. cbn [encodebuf_overrun set_encodebuf_overrun].
  change (BASE64_ENCODE_SIZE SHELL_NLIP_MTX_BUF_SIZE) with 16.
  pose proof (length_encode_ref_le (if pad then [PAD] else []) data) as Hle.
  split; [done|]. split; [split_and!; [done|by rewrite app_nil_r|done|by destruct s]|]. split_and!.
  - lia.
  - destruct pad; simpl in *; lia.
  - intros E. assert (Z.of_nat (length (encode_ref (if pad then [PAD] else []) data)) = 16); [|lia].
    do 12 (destruct data as [|? data]; [done|]). destruct data; [|done]. by destruct pad.
Qed.

Lemma wp_write_plain t s :
  con_ok (sh_con s) → Forall plain t →
  wp (on_con (con_write t)) (λ _ s', wrote s t s' ∧ encodebuf_overrun s' = encodebuf_overrun s) s.
Proof. intros H Ht. pose proof (wp_con_write t s H) as Hw. by rewrite crlf_plain in Hw. Qed.

(** A chunk that ends its line. *)
Lemma wp_send_last chunk s :
  con_ok (sh_con s) → (length chunk <= 12)%nat →
  wp (enc ← encode_chunk chunk true;
      on_con (con_write enc) ;; on_con (con_write [10]) ;;
      on_con (con_write [SHELL_NLIP_DATA_START1; SHELL_NLIP_DATA_START2]) ;; mret 0) (λ r s',
    r = 0 ∧ wrote s (base64_encode chunk true ++ [13; 10] ++ [4; 20]) s' ∧
    encodebuf_overrun s <= encodebuf_overrun s' <= Z.max (encodebuf_overrun s) 1 ∧
    (length chunk = 12%nat → 1 <= encodebuf_overrun s')) s.
Proof.
  intros H Hl. wp_step. eapply wp_mono; [by apply wp_encode_chunk|]. intros enc s1 (-> & W1 & O1 & O1').
  rewrite <- (base64_encode_ref chunk true).
  wp_step. eapply wp_mono; [apply wp_write_plain; [apply W1|apply base64_encode_plain]|]. intros _ s2 [W2 O2].
  wp_step. eapply wp_mono; [apply wp_con_write, W2|]. intros _ s3 [W3 O3].
  wp_step. eapply wp_mono; [apply wp_write_plain; [apply W3|repeat constructor; done]|]. intros _ s4 [W4 O4]. wp_step.
  split; [done|]. split; [|rewrite O4, O3, O2; done].
  exact (sent_trans _ _ _ [] _ W1 (sent_trans _ _ _ _ _ W2 (sent_trans _ _ _ _ _ W3 W4))).
Qed.

(** A chunk within a line. *)
Lemma wp_send_chunk chunk linelen s :
  con_ok (sh_con s) → (length chunk <= 12)%nat →
  wp (enc ← encode_chunk chunk false;
      on_con (con_write enc) ;; mret (u16 (linelen + Z.of_nat (length enc)))) (λ r s',
    r = u16 (linelen + Z.of_nat (length (encode_ref [] chunk))) ∧ wrote s (encode_ref [] chunk) s' ∧
    encodebuf_overrun s <= encodebuf_overrun s' <= Z.max (encodebuf_overrun s) 1 ∧
    (length chunk = 12%nat → 1 <= encodebuf_overrun s')) s.
Proof.
  intros H Hl. wp_step. eapply wp_mono; [by apply wp_encode_chunk|]. intros enc s1 (-> & W1 & O1 & O1').
  wp_step. eapply wp_mono; [apply wp_write_plain; [apply W1|by apply encode_ref_plain]|]. intros _ s2 [W2 O2].
  wp_step. split; [done|]. split; [|rewrite O2; done]. exact (sent_trans _ _ _ [] _ W1 W2).
Qed.

(** The state of the loop: [seg] is what the current line holds so far. *)
Record mtx_inv (hdr seg : list Z) (totlen linelen : Z) : Prop := {
  mx_hdr : (length hdr <= 2)%nat;
  mx_first : hdr = [] ∨ seg = [] ∧ 0 < totlen;
  mx_groups : 0 < totlen → ∃ k, length seg = (12 * k)%nat;
  mx_linelen : linelen = Z.of_nat (length (encode_ref [] seg));
  mx_bound : (length seg <= 84)%nat ∨ length seg = 96%nat ∧ totlen <= 3 ∨ (length seg <= 96)%nat ∧ totlen = 0;
}.

Lemma mtx_inv_fresh totlen : mtx_inv [] [] totlen 0.
Proof. split; [simpl; lia|by left|intros _; by exists 0%nat|done|left; simpl; lia]. Qed.

Lemma mtx_linelen hdr seg totlen linelen :
  mtx_inv hdr seg totlen linelen → 0 < totlen →
  ∃ k, length seg = (12 * k)%nat ∧ linelen = 16 * Z.of_nat k ∧ (length seg mod 3 = 0)%nat.
Proof.
  intros [_ _ Hg Hl _] Ht. destruct (Hg Ht) as (k & Hk). exists k. rewrite Hl.
  assert (Hm : (length seg mod 3 = 0)%nat).
  { rewrite Hk. replace (12 * k)%nat with (4 * k * 3)%nat by lia. apply Nat.Div0.mod_mul. }
  split_and!; [done| |done]. rewrite length_encode_ref_nopad by done. rewrite Hk.
  replace (Z.of_nat (12 * k)) with (4 * Z.of_nat k * 3) by lia. rewrite Z.div_mul by lia. lia.
Qed.

(** One round of the loop. *)
Lemma mtx_round hdr seg totlen linelen bytes :
  mtx_inv hdr seg totlen linelen → 0 < totlen < 65536 →
  let dlen := Z.min (12 - Z.of_nat (length hdr)) totlen in
  Z.of_nat (length bytes) = dlen →
  let chunk := hdr ++ bytes in
  (0 < dlen <= 12 ∧ (length chunk <= 12)%nat ∧ (dlen < totlen → length chunk = 12%nat)) ∧ chunk ≠ [] ∧
  (length (seg ++ chunk) <= 99)%nat ∧
  (∀ pad, encode_ref pad (seg ++ chunk) = encode_ref [] seg ++ encode_ref pad chunk) ∧
  (linelen + (Z.min (12 - Z.of_nat (length hdr)) (totlen - dlen) + 4) < 120 →
   mtx_inv [] (seg ++ chunk) (totlen - dlen) (u16 (linelen + Z.of_nat (length (encode_ref [] chunk))))).
Proof.
  intros Hi Ht dlen Hb chunk. destruct (mtx_linelen _ _ _ _ Hi) as (k & Hk & Hline & Hm); [lia|].
  destruct Hi as [Hh Hf Hg Hl Hbd].
  assert (Hc : Z.of_nat (length chunk) = Z.of_nat (length hdr) + dlen) by (unfold chunk; rewrite length_app; lia).
  assert (Happ : ∀ pad, encode_ref pad (seg ++ chunk) = encode_ref [] seg ++ encode_ref pad chunk)
    by (intros; by apply encode_ref_app).
  assert (Hhs : length seg = 96%nat → hdr = []) by (intros E; destruct Hf as [|[-> _]]; done).
  split_and!; [lia|lia|lia|lia| | |done|].
  - intros E. rewrite E in Hc. simpl in Hc. lia.
  - rewrite length_app. destruct Hbd as [?|[[? ?]|[? ?]]]; [lia| |lia]. rewrite Hhs in Hc by done. simpl in Hc. lia.
  - intros Hlt. pose proof (length_encode_ref_le [] chunk) as Hle. split.
    + simpl. lia.
    + by left.
    + intros Hpos. exists (k + 1)%nat. rewrite length_app. lia.
    + rewrite Happ, length_app, u16_small; simpl in Hle; lia.
    + rewrite length_app. destruct Hbd as [?|[[? ?]|[? ?]]]; lia.
Qed.

Lemma mtx_loop_spec m l data fuel : ∀ s hdr off linelen seg,
  linked (q_bufs (sh_os s)) m l → NoDup l → chain_data (q_bufs (sh_os s)) l = data →
  Z.of_nat (length data) < 65536 → con_ok (sh_con s) → 0 <= off <= Z.of_nat (length data) →
  let totlen := Z.of_nat (length data) - off in
  totlen <= Z.of_nat fuel → mtx_inv hdr seg totlen linelen →
  wp (mtx_loop fuel m hdr totlen off linelen) (λ r s', ∃ linelen' t segs lines extra,
    r = inr linelen' ∧ wrote s t s' ∧ lines_ok segs lines extra ∧ segs ≠ [] ∧
    mjoin segs = seg ++ hdr ++ drop (Z.to_nat off) data ∧
    encode_ref [] seg ++ t ++ base64_pad linelen' ++ [13; 10] = frame_text segs ∧
    (length seg + length hdr <= length (hd [] segs))%nat ∧
    encodebuf_overrun s <= encodebuf_overrun s' <= Z.max (encodebuf_overrun s) 1 ∧
    (12 <= Z.of_nat (length hdr) + totlen → 1 <= encodebuf_overrun s')) s.
Proof.
  induction fuel as [|fuel IH]; intros s hdr off linelen seg Hl Hnd Hd Hlen Hc Hoff totlen Hfuel Hi; cbn [mtx_loop].
  all: destruct (Z.ltb_spec 0 totlen) as [Hpos|Hz]; [try lia|].
  1,3: wp_step; destruct Hi as [_ Hf _ Hline Hbd]; (destruct Hf as [->|[_ ?]]; [|lia]);
    (assert (drop (Z.to_nat off) data = []) as -> by (apply drop_ge; lia));
    (destruct (lines_ok_one seg) as (lines & extra & Hok); [lia|]);
    exists linelen, [], [seg], lines, extra; (split_and!; [done|by apply sent_refl|done|done|done| |simpl; lia|lia|lia|simpl; lia]);
    cbn [frame_text app]; by rewrite base64_encode_ref, Hline, app_assoc, encode_ref_pad.
  cbv zeta. change SHELL_NLIP_MTX_BUF_SIZE with 12. set (dlen := Z.min (12 - Z.of_nat (length hdr)) totlen).
  pose proof (mx_hdr _ _ _ _ Hi) as Hhdr. rewrite (u16_small dlen) by lia.
  set (bytes := take (Z.to_nat dlen) (drop (Z.to_nat off) data)).
  assert (Hbytes : Z.of_nat (length bytes) = dlen) by (unfold bytes; rewrite length_take, length_drop; lia).
  wp_step. eapply wp_on_mbufs_read.
  { rewrite (os_mbuf_copydata_run _ m l) by (done || lia). rewrite Hd. unfold copy_result.
    rewrite !(proj2 (Z.leb_le _ _)) by lia. reflexivity. }
  cbv beta iota. cbn [negb Z.eqb andb]. fold bytes.
  rewrite (u16_small (off + dlen)), (u16_small (totlen - dlen)) by lia.
  destruct (mtx_round hdr seg totlen linelen bytes Hi) as ((Hdl & Hcl & Hfull) & Hne & H99 & Happ & Hnext); [lia|done|].
  set (chunk := hdr ++ bytes) in *.
  assert (Hdrop : hdr ++ drop (Z.to_nat off) data = chunk ++ drop (Z.to_nat (off + dlen)) data).
  { unfold chunk, bytes. rewrite <- app_assoc. f_equal. rewrite Z2Nat.inj_add by lia. by rewrite <- drop_drop, take_drop. }
  assert (Htot : totlen - dlen = Z.of_nat (length data) - (off + dlen)) by lia.
  assert (Hover : 12 <= Z.of_nat (length hdr) + totlen → length chunk = 12%nat) by (unfold chunk; rewrite length_app; lia).
  change (BASE64_ENCODE_SIZE (Z.min (12 - Z.of_nat (length hdr)) (totlen - dlen))) with
    (Z.min (12 - Z.of_nat (length hdr)) (totlen - dlen) * 1 + 4). rewrite Z.mul_1_r.
  wp_step. destruct (Z.leb_spec 120 (linelen + (Z.min (12 - Z.of_nat (length hdr)) (totlen - dlen) + 4))) as [Hend|Hin].
  - eapply wp_mono; [by apply wp_send_last|]. intros _ s1 (-> & W1 & O1 & O1').
    rewrite Htot. eapply wp_mono; [apply (IH s1 [] (off + dlen) 0 []); rewrite ?(sent_os _ _ _ W1); try done; try lia;
      [apply W1|apply mtx_inv_fresh]|].
    intros r s2 (linelen' & t & segs & lines & extra & -> & W2 & Hok & Hns & Hj & Ht & Hhd & O2 & _).
    exists linelen', ((base64_encode chunk true ++ [13; 10] ++ [4; 20]) ++ t), ((seg ++ chunk) :: segs),
      ((seg ++ chunk) :: lines), extra.
    split_and!; [done|by eapply sent_trans|apply lines_ok_cons; [|done|done]|done| | |
      cbn [hd]; unfold chunk; rewrite !length_app; lia|lia|lia|lia].
    + intros E. by apply app_eq_nil in E as [_ ?].
    + change (mjoin ((seg ++ chunk) :: segs)) with ((seg ++ chunk) ++ mjoin segs).
      rewrite Hj. cbn [app]. by rewrite Hdrop, <- app_assoc.
    + rewrite frame_text_cons, <- Ht, !base64_encode_ref, Happ by done. cbn [encode_ref app].
      by rewrite <- !app_assoc.
  - eapply wp_mono; [by apply wp_send_chunk|]. intros _ s1 (-> & W1 & O1 & O1').
    rewrite Htot. eapply wp_mono; [apply (IH s1 [] (off + dlen) _ (seg ++ chunk)); rewrite ?(sent_os _ _ _ W1);
      try done; try lia; [apply W1|rewrite <- Htot; apply Hnext; lia]|].
    intros r s2 (linelen' & t & segs & lines & extra & -> & W2 & Hok & Hns & Hj & Ht & Hhd & O2 & _).
    exists linelen', (encode_ref [] chunk ++ t), segs, lines, extra.
    split_and!; [done|by eapply sent_trans|done|done| | |
      unfold chunk in Hhd; rewrite !length_app in Hhd; lia|lia|lia|lia].
    + rewrite Hj, Hdrop. by rewrite <- app_assoc.
    + rewrite <- Ht, Happ. by rewrite <- !app_assoc.
Qed.
(** The bytes a packet is framed with: its length, high byte first. *)
Definition with_length (data : list Z) : list Z :=
  let n := Z.of_nat (length data) in n / 256 :: n mod 256 :: data.

Lemma mjoin_lines segs lines extra : lines_ok segs lines extra → mjoin segs = mjoin lines.
Proof.
  intros (-> & _ & [->| ->] & _); [by rewrite app_nil_r|].
  rewrite join_app. simpl. by rewrite app_nil_r.
Qed.

Lemma nlip_mtx_ok s m l om data :
  linked (q_bufs (sh_os s)) m l → NoDup l → chain_data (q_bufs (sh_os s)) l = data →
  mbufs (q_bufs (sh_os s)) !! m = Some om → OS_MBUF_PKTLEN om = Z.of_nat (length data) →
  0 < Z.of_nat (length data) < 65536 → con_ok (sh_con s) →
  wp (shell_nlip_mtx m) (λ rc s', ∃ lines extra, rc = 0 ∧ lines_ok (lines ++ extra) lines extra ∧
    mjoin lines = with_length data ∧ (2 <= length (hd [] lines))%nat ∧
    wrote s ([SHELL_NLIP_PKT_START1; SHELL_NLIP_PKT_START2] ++ frame_text (lines ++ extra)) s' ∧
    encodebuf_overrun s <= encodebuf_overrun s' <= Z.max (encodebuf_overrun s) 1 ∧
    (10 <= Z.of_nat (length data) → 1 <= encodebuf_overrun s')) s.
Proof.
  intros Hl Hnd Hd Hom Hp Hlen Hc. unfold shell_nlip_mtx. wp_step.
  eapply wp_on_mbufs_read; [by apply mbuf_at_run|]. cbv zeta. rewrite Hp. wp_step.
  eapply wp_mono; [apply wp_write_plain; [done|repeat constructor; done]|]. intros _ s1 [W1 O1]. wp_step.
  set (n := Z.of_nat (length data)) in *. rewrite <- (Z.sub_0_r n) at 4.
  eapply wp_mono; [apply (mtx_loop_spec m l data (Z.to_nat n) s1 [n / 256; n mod 256] 0 0 []);
    rewrite ?(sent_os _ _ _ W1); try done; try lia|].
  { apply W1. }
  { split; [simpl; lia|by right; split; [|lia]|intros _; by exists 0%nat|done|left; simpl; lia]. }
  intros r s2 (linelen & t & segs & lines & extra & -> & W2 & Hok & Hns & Hj & Ht & Hhd & O2 & O2').
  cbn [encode_ref app] in Ht. wp_step. eapply wp_mono; [apply wp_write_plain; [apply W2|]|].
  { unfold base64_pad. case_match; [constructor|]. by apply Forall_replicate. }
  intros _ s3 [W3 O3]. wp_step. eapply wp_mono; [apply wp_con_write, W3|]. intros _ s4 [W4 O4]. wp_step.
  pose proof (mjoin_lines _ _ _ Hok) as Hjl. rewrite Hj in Hjl. destruct (Hok) as (-> & Hne & Hex & H99).
  exists lines, extra. rewrite O4, O3. split; [done|]. split; [done|]. split; [|split; [|split; [|split; [lia|]]]].
  - rewrite <- Hjl. unfold with_length. fold n. by rewrite drop_0.
  - destruct lines as [|x lines]; [|exact Hhd]. simpl in Hhd. destruct Hex as [->| ->]; simpl in Hhd; lia.
  - rewrite <- Ht. exact (sent_trans _ _ _ _ _ W1 (sent_trans _ _ _ _ _ W2 (sent_trans _ _ _ _ _ W3 W4))).
  - intros ?. apply O2'. simpl. lia.
Qed.

(** ** Receiving *)

Lemma c_string_plain t rest : Forall plain t → c_string (t ++ 0 :: rest) = Some t.
Proof.
  induction 1 as [|c t [Hc Hb] Ht IH]; [done|]. cbn [app c_string].
  rewrite (proj2 (Z.eqb_neq _ _)) by lia. by rewrite IH.
Qed.

(** A decoded line. *)
Lemma decode_line x : Forall is_byte x → base64_decode (base64_encode x true) = Some x.
Proof. intros Hx. unfold base64_decode. by rewrite !base64_encode_ref, decode_encode_ref. Qed.

Section receive.
Context (imq evq : nat) (cmd : list Z → list (list Z) → M (shell_state C S) Z).
Abbreviation in_func := (Some (nmgr_shell_in imq evq)) (only parsing).

(** The free blocks of pool [o] are [free]; none of them is queued as a packet. *)
Record rx_ok (s : shell_state C S) (o : nat) (free : list Z) : Prop := {
  ro_kernel : kinv 1 1 (q_kernel (sh_os s));
  ro_alloc : alloc_ok (q_bufs (sh_os s)) o free;
  ro_size : sizeof_os_mbuf_pkthdr <= omp_databuf_len (omp_of (q_bufs (sh_os s)) o);
  ro_free : ∀ b, b ∈ free → packet_queued (sh_os s) b = false;
}.

(** The packet being received has [n] bytes, of which [d] have arrived. *)
Record rx_part (s : shell_state C S) (o : nat) (l : list Z) (n : Z) (d : list Z) : Prop := {
  rp_packet : packet (q_bufs (sh_os s)) o (g_nlip_mbuf s) l d;
  rp_len : g_nlip_expected_len s = n;
  rp_queue : packet_queued (sh_os s) (g_nlip_mbuf s) = false;
}.

(** The packet [data] was handed to the newtmgr task. *)
Definition delivered (s s' : shell_state C S) (o : nat) (data : list Z) : Prop :=
  ∃ a l, g_nlip_mbuf s' = 0 ∧ packet (q_bufs (sh_os s')) o a l data ∧
    mq_head (mqueue_of (sh_os s') imq) = mq_head (mqueue_of (sh_os s) imq) ++ [a] ∧
    ∃ q, EvQueue imq ∈ evq_list (eventq_of (q_kernel (sh_os s')) q).

Lemma packet_head (b : bstate (S := S)) o a l d : packet b o a l d → ∃ m, mbufs b !! a = Some m ∧ OS_MBUF_IS_PKTHDR m = true ∧
  OS_MBUF_PKTLEN m = Z.of_nat (length d).
Proof.
  intros [_ _ _ _ _ Hp]. unfold pktlen_at in Hp. destruct (mbufs b !! a) as [m|]; [|done]. exists m. simpl in Hp.
  destruct (OS_MBUF_IS_PKTHDR m); by simplify_eq.
Qed.

Lemma wp_deliver s o l n d free :
  rx_ok s o free → rx_part s o l n d →
  wp (nmgr_shell_in imq evq (g_nlip_mbuf s) ;; mret tt ;; modify (set_nlip 0 0)) (λ _ s',
    alloc_ok (q_bufs (sh_os s')) o free ∧ delivered s s' o d) s.
Proof.
  intros [Hk Ha Hsz Hf] [Hp Hn Hq]. destruct (packet_head _ _ _ _ _ Hp) as (m & Hm & Hh & Hl).
  unfold nmgr_shell_in. wp_step. apply wp_on_os.
  eapply wp_mono; [by eapply os_mqueue_put_ok|]. intros rc q' (-> & Hk' & Hb & Hj & Hput). wp_simp. simpl.
  rewrite Hb. split; [done|]. exists (g_nlip_mbuf s), l. simpl. rewrite Hb. split_and!; [done|done| |].
  - by rewrite Hj, decide_True.
  - exact (put_posts _ _ _ _ Hk Hput).
Qed.

(** Storing a piece. *)
Lemma nlip_store_ok s o l n d free x :
  rx_ok s o free → rx_part s o l n d → Z.of_nat (length d) + Z.of_nat (length x) <= n < 65536 →
  wp (nlip_store in_func x) (λ rc s', ∃ new free', free = new ++ free' ∧
    (rc ≠ 0 ∧ free' = [] ∧ alloc_ok (q_bufs (sh_os s')) o [] ∨
     rc = 0 ∧ Z.of_nat (length (d ++ x)) = n ∧ alloc_ok (q_bufs (sh_os s')) o free' ∧ delivered s s' o (d ++ x) ∨
     rc = 0 ∧ Z.of_nat (length (d ++ x)) ≠ n ∧ rx_ok s' o free' ∧ rx_part s' o (l ++ new) n (d ++ x) ∧
       q_mqueues (sh_os s') = q_mqueues (sh_os s))) s.
Proof.
  intros Hok Hpart Hlen. destruct (Hok) as [Hk Ha Hsz Hf]. destruct (Hpart) as [Hp Hn Hq].
  destruct (packet_head _ _ _ _ _ Hp) as (m & Hm & Hh & Hl).
  unfold nlip_store. wp_step. wp_step. wp_step. eapply wp_on_mbufs_read; [by apply mbuf_at_run|].
  rewrite Hl, Hn, Z.min_r, u16_small by lia. rewrite (proj2 (Z.ltb_ge _ _)) by lia.
  rewrite Nat2Z.id, firstn_all. wp_step. apply wp_on_mbufs.
  eapply wp_mono; [apply (copyinto_end _ o _ l d x free); [done|done|lia]|].
  intros rc b' (new & free' & -> & Ha' & Ho' & Hfr & Hcase). set (s1 := set_sh_os _ s).
  destruct Hcase as [[-> Hp']|[Hrc ->]].
  2:{ rewrite (proj2 (Z.eqb_neq _ _)) by done. cbn [negb]. wp_step. exists new, []. split; [done|]. by left. }
  cbn [Z.eqb negb]. destruct (packet_head _ _ _ _ _ Hp') as (m' & Hm' & Hh' & Hl').
  assert (Hpart' : rx_part s1 o (l ++ new) n (d ++ x)) by by split.
  assert (Hok' : rx_ok s1 o free').
  { split; try done.
    - change (omp_of (q_bufs (sh_os s1)) o) with (omp_of b' o). unfold omp_of. by rewrite Ho'.
    - intros b Hb. apply Hf. apply elem_of_app. by right. }
  wp_step. eapply wp_on_mbufs_read; [by apply mbuf_at_run|]. rewrite Hl'. wp_step.
  destruct (Z.eqb_spec (Z.of_nat (length (d ++ x))) n) as [E|E].
  - pose proof (wp_deliver s1 o _ n _ _ Hok' Hpart') as Hw. apply wp_run in Hw as ([] & s2 & E2 & Ha2 & Hd2).
    eapply wp_eq; [|wp_step; exists new, free'; split; [done|right; left; done]].
    rewrite <- E2. unfold mbind, M_bind. change (g_nlip_mbuf s1) with (g_nlip_mbuf s).
    by destruct (nmgr_shell_in imq evq (g_nlip_mbuf s) s1) as [[]|].
  - wp_simp. exists new, free'. split; [done|]. right. right. by split_and!.
Qed.

(** The line buffer does not matter for the packets. *)
Lemma rx_ok_line s o free line : rx_ok s o free → rx_ok (set_shell_line line s) o free.
Proof. intros []. by split. Qed.
Lemma rx_part_line s o l n d line : rx_part s o l n d → rx_part (set_shell_line line s) o l n d.
Proof. intros []. by split. Qed.

(** A line that was read: [text] and a NUL. *)
Definition put_line (text : list Z) (s : shell_state C S) : shell_state C S :=
  set_shell_line (store 0 (text ++ [0]) (shell_line s)) s.

Lemma put_line_text text s : shell_line (put_line text s) = text ++ 0 :: drop (length text + 1) (shell_line s).
Proof. unfold put_line, store. simpl. rewrite length_app, <- app_assoc. done. Qed.

Lemma wp_nlip_process p0 p1 x s (P : Z → shell_state C S → Prop) :
  Forall is_byte x →
  (∀ line, wp (r ← (if g_nlip_mbuf s =? 0 then nlip_begin x else mret (Some x));
     match r with None => mret (-1) | Some data => nlip_store in_func data end) P (set_shell_line line s)) →
  wp (shell_nlip_process in_func) P (put_line (p0 :: p1 :: base64_encode x true) s).
Proof.
  intros Hx HP. unfold shell_nlip_process, line_string. wp_simp.
  assert (Hs : c_string (drop 2 (shell_line (put_line (p0 :: p1 :: base64_encode x true) s))) =
    Some (base64_encode x true)).
  { rewrite put_line_text. apply c_string_plain, base64_encode_plain. }
  rewrite Hs. wp_simp. rewrite decode_line by done. wp_step. wp_step. apply (HP _).
Qed.

Lemma length_b64_pos x : x ≠ [] → 0 < Z.of_nat (length (base64_encode x true)).
Proof.
  intros Hx. rewrite base64_encode_ref. destruct x as [|a [|b [|c x]]]; [done|simpl; lia..|].
  cbn [encode_ref]. rewrite length_app. simpl. lia.
Qed.

(** A line that continues a packet. *)
Lemma wp_data_line x s o l n d free (P : Z → shell_state C S → Prop) :
  rx_ok s o free → rx_part s o l n d → x ≠ [] → Forall is_byte x →
  (∀ line, wp (nlip_store in_func x) P (set_shell_line line s)) →
  let text := SHELL_NLIP_DATA_START1 :: SHELL_NLIP_DATA_START2 :: base64_encode x true in
  wp (shell_handle_line in_func cmd (Z.of_nat (length text))) P (put_line text s).
Proof.
  intros Hok Hpart Hne Hx HP text. pose proof (length_b64_pos x Hne). unfold shell_handle_line. wp_step. wp_step.
  rewrite (proj2 (Z.ltb_lt _ _)) by (simpl length; lia). rewrite put_line_text.
  cbn [app nth text Z.eqb Pos.eqb andb SHELL_NLIP_DATA_START1 SHELL_NLIP_DATA_START2 SHELL_NLIP_PKT_START1 SHELL_NLIP_PKT_START2].
  apply wp_nlip_process; [done|]. intros line.
  rewrite (proj2 (Z.eqb_neq _ _)) by apply (pk_nonnull _ _ _ _ _ (rp_packet _ _ _ _ _ Hpart)). wp_simp. apply HP.
Qed.

(** The first line of a packet, when none is being received. *)
Lemma wp_first_line n hi lo x s o free (P : Z → shell_state C S → Prop) :
  rx_ok s o free → g_nlip_mbuf s = 0 → n = hi * 256 + lo → 0 <= n < 65536 →
  Forall is_byte (hi :: lo :: x) →
  _os_msys_find_pool (u16 (n + sizeof_os_mbuf_pkthdr)) (q_bufs (sh_os s)) = Ret (Some o, q_bufs (sh_os s)) →
  (free = [] → ∀ s', alloc_ok (q_bufs (sh_os s')) o [] → P (-1) s') →
  (∀ s' a free', free = a :: free' → rx_ok s' o free' → rx_part s' o [a] n [] →
     q_mqueues (sh_os s') = q_mqueues (sh_os s) → wp (nlip_store in_func x) P s') →
  let text := SHELL_NLIP_PKT_START1 :: SHELL_NLIP_PKT_START2 :: base64_encode (hi :: lo :: x) true in
  wp (shell_handle_line in_func cmd (Z.of_nat (length text))) P (put_line text s).
Proof.
  intros Hok Hz Hn Hr Hx Hpool Hnone Hsome text. pose proof (length_b64_pos (hi :: lo :: x)) as Hpos.
  unfold shell_handle_line. wp_step. wp_step.
  rewrite (proj2 (Z.ltb_lt _ _)) by (simpl length; specialize (Hpos ltac:(done)); lia). rewrite put_line_text.
  cbn [app nth text Z.eqb Pos.eqb andb SHELL_NLIP_DATA_START1 SHELL_NLIP_DATA_START2 SHELL_NLIP_PKT_START1 SHELL_NLIP_PKT_START2].
  change (g_nlip_mbuf (put_line _ s)) with (g_nlip_mbuf s). rewrite Hz. cbn [Z.eqb negb]. wp_simp.
  set (s0 := set_nlip 0 0 s).
  match goal with |- wp _ _ ?t => replace t with (put_line text s0) by (unfold put_line, s0; simpl; by rewrite Hz) end.
  apply wp_nlip_process; [done|]. intros line. change (g_nlip_mbuf s0) with 0. cbn [Z.eqb nlip_begin].
  rewrite <- Hn. wp_step. wp_step. wp_step. wp_step. apply wp_on_mbufs. destruct Hok as [Hk Ha Hsz Hf].
  eapply wp_mono; [by apply (os_msys_get_pkthdr_ok _ n o free)|]. intros r b'.
  destruct free as [|a free'].
  - intros (-> & Ha' & _ & _). wp_simp. cbn [Z.eqb]. wp_simp. by apply Hnone.
  - intros (-> & Hp & Ha' & Ho & Hfr). wp_simp.
    rewrite (proj2 (Z.eqb_neq _ _)) by apply (pk_nonnull _ _ _ _ _ Hp). wp_simp.
    eapply (Hsome _ a free'); [done| | |done].
    + split; try done.
      * change (omp_of b' o) with (omps b' !!! o). unfold omp_of. simpl. rewrite Ho. done.
      * intros c Hc. apply Hf. by right.
    + split; [done|done|]. apply Hf. by left.
Qed.

(** The shell handles lines one after the other until one is refused. *)
Fixpoint handle_lines (texts : list (list Z)) : M (shell_state C S) Z :=
  match texts with
  | [] => mret 0
  | text :: texts =>
      modify (put_line text) ;;
      rc ← shell_handle_line in_func cmd (Z.of_nat (length text));
      if negb (rc =? 0) then mret rc else handle_lines texts
  end.

Definition data_text (x : list Z) : list Z := SHELL_NLIP_DATA_START1 :: SHELL_NLIP_DATA_START2 :: base64_encode x true.
Definition first_text (x : list Z) : list Z := SHELL_NLIP_PKT_START1 :: SHELL_NLIP_PKT_START2 :: base64_encode x true.
(** The lines of a frame as they are read. *)
Definition frame_lines (lines : list (list Z)) : list (list Z) :=
  match lines with [] => [] | x :: lines => first_text x :: (data_text <$> lines) end.

(** Everything arrived, or the pool is exhausted. *)
Definition received (s : shell_state C S) (o : nat) (data : list Z) (rc : Z) (s' : shell_state C S) : Prop :=
  rc = 0 ∧ delivered s s' o data ∨ rc ≠ 0 ∧ alloc_ok (q_bufs (sh_os s')) o [].

Lemma received_eq s1 s2 o data rc s' :
  q_mqueues (sh_os s1) = q_mqueues (sh_os s2) → received s1 o data rc s' → received s2 o data rc s'.
Proof. intros E. unfold received, delivered, mqueue_of. by rewrite E. Qed.

Lemma mjoin_nonempty (lines : list (list Z)) : Forall (λ x, x ≠ []) lines → mjoin lines = [] → lines = [].
Proof. intros Hne. destruct Hne as [|x lines Hx Hl]; [done|]. intros E. by apply app_eq_nil in E as [? _]. Qed.

(** What follows a piece of the packet. *)
Lemma store_then_lines lines : ∀ s o l n d free x,
  rx_ok s o free → rx_part s o l n d →
  Forall (λ x, x ≠ []) lines → Forall is_byte (mjoin lines) →
  Z.of_nat (length d) + Z.of_nat (length x) + Z.of_nat (length (mjoin lines)) = n → n < 65536 →
  wp (rc ← nlip_store in_func x; if negb (rc =? 0) then mret rc else handle_lines (data_text <$> lines))
    (received s o (d ++ x ++ mjoin lines)) s.
Proof.
  induction lines as [|y lines IH]; intros s o l n d free x Hok Hpart Hne Hby Hlen Hn; wp_step;
    (eapply wp_mono; [apply (nlip_store_ok s o l n d free x); [done|done|lia]|]);
    intros rc s1 (new & free' & -> & [(Hrc & -> & Ha)|[(-> & E & Ha & Hd)|(-> & E & Hok1 & Hpart1 & Hq)]]);
    rewrite ?(proj2 (Z.eqb_neq rc 0)) by done; cbn [negb Z.eqb fmap list_fmap handle_lines].
  - wp_step. by right.
  - wp_step. left. split; [done|]. change (mjoin []) with ([] : list Z). by rewrite app_nil_r.
  - exfalso. simpl in Hlen. rewrite length_app in E. lia.
  - wp_step. by right.
  - exfalso. rewrite length_app in E. apply Forall_cons in Hne as [Hy _].
    change (mjoin (y :: lines)) with (y ++ mjoin lines) in Hlen. rewrite length_app in Hlen.
    destruct y; [done|]. simpl in Hlen. lia.
  - change (mjoin (y :: lines)) with (y ++ mjoin lines) in *. rewrite length_app in Hlen.
    apply Forall_cons in Hne as [Hy Hne]. apply Forall_app in Hby as [Hby1 Hby2].
    wp_step. wp_step. apply wp_bind. apply (wp_data_line y s1 o (l ++ new) n (d ++ x) free'); [done..|].
    intros line. apply wp_unbind. rewrite (app_assoc d x).
    eapply wp_mono; [apply (IH _ o (l ++ new) n (d ++ x) free' y); [by apply rx_ok_line|by apply rx_part_line|done|done| |done]|].
    + rewrite length_app. lia.
    + intros rc s'. by apply received_eq.
Qed.

Lemma frame_received lines s o free data :
  rx_ok s o free → g_nlip_mbuf s = 0 → 0 < Z.of_nat (length data) < 65536 → Forall is_byte data →
  _os_msys_find_pool (u16 (Z.of_nat (length data) + sizeof_os_mbuf_pkthdr)) (q_bufs (sh_os s)) =
    Ret (Some o, q_bufs (sh_os s)) →
  Forall (λ x, x ≠ []) lines → mjoin lines = with_length data → (2 <= length (hd [] lines))%nat →
  wp (handle_lines (frame_lines lines)) (received s o data) s.
Proof.
  intros Hok Hz Hlen Hby Hpool Hne Hj Hhd. destruct lines as [|y lines]; [simpl in Hhd; lia|].
  change (mjoin (y :: lines)) with (y ++ mjoin lines) in Hj. simpl in Hhd.
  destruct y as [|hi [|lo x]]; [simpl in Hhd; lia..|]. unfold with_length in Hj. cbn [app] in Hj.
  injection Hj as -> -> Hj. set (n := Z.of_nat (length data)) in *. apply Forall_cons in Hne as [_ Hne].
  rewrite <- Hj in Hby. apply Forall_app in Hby as [Hbx Hbl].
  assert (Hdiv : n = n / 256 * 256 + n mod 256) by (rewrite Z.mul_comm; apply Z_div_mod_eq_full).
  cbn [frame_lines handle_lines]. wp_step. wp_step. wp_step.
  apply (wp_first_line n (n / 256) (n mod 256) x s o free); try done; [lia| | |].
  - repeat (apply Forall_cons; split); [split; [apply Z.div_pos; lia|apply Z.div_lt_upper_bound; lia]|
      apply Z.mod_pos_bound; lia|done].
  - intros -> s' Ha. cbn [Z.eqb negb]. wp_step. by right.
  - intros s' a free' -> Hok' Hpart' Hq. apply wp_unbind.
    eapply wp_mono; [apply (store_then_lines lines s' o [a] n [] free' x); try done|].
    + simpl. unfold n. rewrite <- Hj, length_app. lia.
    + lia.
    + intros rc s2. rewrite <- Hj. by apply received_eq.
Qed.
End receive.

(** ** Properties *)

(** The text on the wire: every line with a carriage return and a line feed. *)
Definition wire (lines : list (list Z)) : list Z := frame_lines lines ≫= λ text, text ++ [13; 10].

Lemma frame_text_data x lines :
  frame_text (x :: lines) = base64_encode x true ++ [13; 10] ++ ((data_text <$> lines) ≫= λ text, text ++ [13; 10]).
Proof.
  revert x. induction lines as [|y lines IH]; intros x; [done|]. rewrite frame_text_cons, IH by done.
  rewrite fmap_cons, bind_cons. unfold data_text at 2. f_equal. f_equal. cbn [app]. f_equal. f_equal.
  by rewrite <- app_assoc.
Qed.

Lemma wire_text lines : lines ≠ [] → [6; 9] ++ frame_text lines = wire lines.
Proof.
  destruct lines as [|x lines]; [done|intros _]. unfold wire. cbn [frame_lines].
  rewrite frame_text_data, bind_cons. unfold first_text. cbn [app]. f_equal. f_equal. by rewrite <- app_assoc.
Qed.

(** The sender [s] transmits the packet at [m] with the bytes [data]; the receiver [r]
    belongs to another system. *)
Record sends (s : shell_state C S) (m : Z) (l : list Z) (data : list Z) : Prop := {
  sd_con : con_ok (sh_con s);
  sd_linked : linked (q_bufs (sh_os s)) m l;
  sd_nodup : NoDup l;
  sd_data : chain_data (q_bufs (sh_os s)) l = data;
  sd_len : pktlen_at (q_bufs (sh_os s)) m = Some (Z.of_nat (length data));
  sd_size : 0 < Z.of_nat (length data) < 65536;
  sd_bytes : Forall is_byte data;
}.

Lemma sends_mtx s m l data :
  sends s m l data →
  ∃ lines extra s', shell_nlip_mtx m s = Ret (0, s') ∧
    Forall (λ x, x ≠ []) lines ∧ (extra = [] ∨ extra = [[]]) ∧ Forall (λ x, (length x <= 99)%nat) (lines ++ extra) ∧
    mjoin lines = with_length data ∧ (2 <= length (hd [] lines))%nat ∧ wrote s (wire (lines ++ extra)) s' ∧
    encodebuf_overrun s <= encodebuf_overrun s' <= Z.max (encodebuf_overrun s) 1 ∧
    (10 <= Z.of_nat (length data) → 1 <= encodebuf_overrun s').
Proof.
  intros [Hc Hl Hnd Hd Hp Hsz _]. unfold pktlen_at in Hp.
  destruct (mbufs (q_bufs (sh_os s)) !! m) as [om|] eqn:Hom; [|done]. simpl in Hp.
  destruct (OS_MBUF_IS_PKTHDR om); [|done]. injection Hp as Hp.
  pose proof (nlip_mtx_ok s m l om data Hl Hnd Hd Hom Hp Hsz Hc) as Hw.
  apply wp_run in Hw as (rc & s' & E & lines & extra & -> & (_ & Hne & Hex & H99) & Hj & Hhd & W & O & O').
  exists lines, extra, s'. rewrite <- wire_text.
  - do 6 (split; [done|]). split; [exact W|]. by split.
  - by destruct lines; [simpl in Hhd; lia|].
Qed.

(** C15. A packet that the shell of one system sends arrives at another: [shell_nlip_mtx]
    writes lines of base64 text, each with its mark and at most 132 characters, to the
    console; the shell that reads these lines assembles the same bytes in a new packet
    and puts it on the queue of the newtmgr task, whose event is posted, unless the
    pool is exhausted.  The last line may be a mark without text ([extra]), which the
    receiver takes for a command. *)
Theorem nlip_roundtrip s m l data r o free imq evq cmd :
  sends s m l data →
  rx_ok r o free → g_nlip_mbuf r = 0 →
  _os_msys_find_pool (u16 (Z.of_nat (length data) + sizeof_os_mbuf_pkthdr)) (q_bufs (sh_os r)) =
    Ret (Some o, q_bufs (sh_os r)) →
  ∃ lines extra, (extra = [] ∨ extra = [[]]) ∧
    Forall (λ text, (length text <= 134)%nat) (frame_lines (lines ++ extra)) ∧
    wp (shell_nlip_mtx m) (λ rc s', rc = 0 ∧ sh_os s' = sh_os s ∧ con_ok (sh_con s') ∧
      con_out (sh_con s') = con_out (sh_con s) ++ wire (lines ++ extra)) s ∧
    wp (handle_lines imq evq cmd (frame_lines lines)) (received imq r o data) r.
Proof.
  intros Hs Hok Hz Hpool. destruct (sends_mtx s m l data Hs) as (lines & extra & s' & E & Hne & Hex & H99 & Hj & Hhd & W & _).
  exists lines, extra. split_and!; [done| | |].
  - assert (Hb : ∀ x p q, (length x <= 99)%nat → (length (p :: q :: base64_encode x true) <= 134)%nat).
    { intros x p q Hx. rewrite base64_encode_ref. pose proof (length_encode_ref_pad x) as Hlen.
      unfold groups_end in Hlen. rewrite Z.div_mul in Hlen by lia. cbn [length].
      assert ((Z.of_nat (length x) + 2) / 3 < 34); [apply Z.div_lt_upper_bound; lia|lia]. }
    destruct (lines ++ extra) as [|x segs]; [constructor|]. apply Forall_cons in H99 as [Hx Hsegs].
    cbn [frame_lines]. constructor; [by apply Hb|]. apply Forall_fmap. eapply Forall_impl; [done|].
    intros y Hy. by apply Hb.
  - eapply wp_eq; [exact E|]. split; [done|]. split; [by eapply sent_os|]. split; apply W.
  - eapply frame_received; try done; apply Hs.
Qed.

(** Sending a packet of ten bytes or more overwrites exactly one byte behind
    [encodebuf], whatever the packet holds: [BASE64_ENCODE_SIZE (12)] is 16 characters
    and leaves no room for the NUL that the encoder writes behind twelve bytes. *)
Theorem nlip_encodebuf_overrun s m l data :
  sends s m l data → encodebuf_overrun s = 0 →
  wp (shell_nlip_mtx m) (λ rc s', 10 <= Z.of_nat (length data) → encodebuf_overrun s' = 1) s.
Proof.
  intros Hs Hz. destruct (sends_mtx s m l data Hs) as (lines & extra & s' & E & _ & _ & _ & _ & _ & _ & O & O').
  eapply wp_eq; [exact E|]. lia.
Qed.
End shell.

(** *** On a concrete system *)

#[local] Instance demo_pool_allocator : Allocator pstate := mempool_allocator 0.
Lemma demo_drains (s : console_tty) : (0 < 1)%nat.
Proof. lia. Qed.
#[local] Instance demo_console : ConsoleApi console_tty := tty_console (λ _, 31%nat) (λ _, 1%nat) demo_drains.

(** A shell with a line buffer of 200 characters on the console [tty]. *)
Definition demo_shell (tty : console_tty) (bufs : bstate) : shell_state console_tty pstate :=
  mk_shell tty (mk_qstate (ks demo) bufs ∅) 0 0 (replicate 200 0) 200 0 0 (replicate 20 None) 0.

(** The sender has the packet of [OsMbufProps], the receiver the same pool, unused and
    registered with the system pools. *)
Definition demo_sender := demo_shell demo_tty demo_s.
Definition demo_rx_bufs : bstate := (run_or (0, demo_bstate) (os_msys_register 0) demo_bstate).2.
Definition demo_receiver := demo_shell demo_tty demo_rx_bufs.

#[local] Opaque demo.

Lemma demo_sends : sends demo_sender 4096 [4096; 4128] [1; 2; 3; 4; 5; 6; 7; 8; 9; 10; 11; 12].
Proof.
  destruct demo_linked as [Hl Hnd]. split; [split; [exact demo_tty_ok|by left]|exact Hl|exact Hnd|by vm_compute|by vm_compute|done|].
  repeat (constructor; [done|]). constructor.
Qed.

Lemma demo_rx_ok : rx_ok demo_receiver 0 [4096; 4128; 4160; 4192; 4224; 4256].
Proof.
  split; [exact (proj1 demo_minv)| |done|].
  - split.
    + split; try (vm_compute; intuition congruence). apply (bool_decide_unpack _). by vm_compute.
    + intros b Hb. repeat (apply elem_of_cons in Hb as [->|Hb]; [by vm_compute|]). by apply not_elem_of_nil in Hb.
    + vm_compute. done.
  - intros b _. done.
Qed.

Lemma nlip_roundtrip_witness : ∃ lines extra, (extra = [] ∨ extra = [[]]) ∧
  Forall (λ text, (length text <= 134)%nat) (frame_lines (lines ++ extra)) ∧
  wp (shell_nlip_mtx 4096) (λ rc s', rc = 0 ∧ sh_os s' = sh_os demo_sender ∧ con_ok (sh_con s') ∧
    con_out (sh_con s') = con_out (sh_con demo_sender) ++ wire (lines ++ extra)) demo_sender ∧
  wp (handle_lines 7 3 (λ _ _, mret 0) (frame_lines lines))
    (received 7 demo_receiver 0 [1; 2; 3; 4; 5; 6; 7; 8; 9; 10; 11; 12]) demo_receiver.
Proof.
  apply (nlip_roundtrip demo_sender 4096 [4096; 4128] [1; 2; 3; 4; 5; 6; 7; 8; 9; 10; 11; 12] demo_receiver 0
    [4096; 4128; 4160; 4192; 4224; 4256] 7 3);
    [exact demo_sends|exact demo_rx_ok|reflexivity|vm_compute; reflexivity].
Defined.

Lemma nlip_encodebuf_overrun_witness :
  wp (shell_nlip_mtx 4096) (λ rc s', 10 <= 12 → encodebuf_overrun s' = 1) demo_sender.
Proof. apply (nlip_encodebuf_overrun demo_sender 4096 [4096; 4128] [1; 2; 3; 4; 5; 6; 7; 8; 9; 10; 11; 12]);
  [exact demo_sends|reflexivity]. Defined.

(** *** Lines *)

(** The console prints the commands it is given, in angle brackets. *)
Definition print_cmd (cmd : list Z) (args : list (list Z)) : M (shell_state console_tty pstate) Z :=
  on_con (con_write (60 :: cmd ++ [62])) ;; mret 0.
(** [keys] arrive, the last one being Enter, before the shell task runs. *)
Definition type_lines (keys : list Z) : M (shell_state console_tty pstate) Z :=
  on_con (type_in (λ _, 0%nat) keys) ;; modify (set_shell_full_line 1) ;; shell_read_console None print_cmd.

(** Two lines that arrive before the shell task runs: "aa" is executed, "bb" is read
    as the beginning of a line because [shell_full_line] was reset, and the next line
    "cc" is executed as "bbcc". *)
Theorem shell_merges_lines :
  match (console_echo 0 ;; mret 0) demo_tty with
  | Ret (_, tty) =>
      wp (type_lines [97; 97; 13; 98; 98; 13] ;; type_lines [99; 99; 13]) (λ rc s',
        rc = 0 ∧ con_sent (sh_con s') = [60; 97; 97; 62] ++ [60; 98; 98; 99; 99; 62]) (demo_shell tty demo_s)
  | Fault _ => False
  end.
Proof. by vm_compute. Qed.

(** *** Long lines *)

Definition long_mempool : pstate :=
  (run_or (OS_OK, mk_pstate ∅ ∅ []) (os_mempool_init (Some 0%nat) 2 160 4096) (mk_pstate ∅ ∅ [])).2.
(** A packet of 97 bytes. *)
Definition long_packet : Z * bstate :=
  run_or (0, demo_bstate0)
    (os_mbuf_pool_init 0 0 160 2 ;; a ← os_mbuf_get_pkthdr 0 0; os_mbuf_append a (replicate 97 7) ;; mret a)
    (mk_bstate ∅ ∅ {[ 0%nat := long_mempool ]} ∅ []).

(** The source says that the encoded data "must be less than 122 bytes per line".  The
    line of a packet of 97 bytes has 132 of them behind its mark, and a line with
    nothing but a mark follows. *)
Example nlip_line_too_long :
  match shell_nlip_mtx long_packet.1 (demo_shell demo_tty long_packet.2) with
  | Ret (rc, s) =>
      rc = 0 ∧ length (take_line 200 (con_sent (sh_con s))).1.1 = 135%nat ∧
      drop 134 (con_sent (sh_con s)) = [13; 10; 4; 20; 13; 10]
  | Fault _ => False
  end.
Proof. by vm_compute. Qed.
