(* ===== verification/JsonEncode.v ===== *)
(** JSON output: libs/json/src/json_encode.c.

    The write function of the encoder is a parameter [je_write] that updates the
    state [W] behind [je_arg]; its result is ignored by the code.  Strings are lists
    of character codes; [long] has 32 bits. *)
From Stdlib Require Import ZArith Lia.
From stdpp Require Import base decidable numbers list.
From S2P Require Import Prelude.
From S2P Require Import Cfmt.

#[local] Open Scope Z_scope.

(** ** Data *)

(** [struct json_value]: the type tag and the member of the union it selects.
    [JVOther] is any other tag. *)
Inductive json_value :=
| JVBool (u : Z)
| JVUint (u : Z)
| JVInt (u : Z)
| JVString (str : list Z)
| JVArray (values : list json_value)
| JVObject (entries : list (list Z * json_value))
| JVOther (jv_type : Z).

Section encoder.
Context {W : Type} (je_write : list Z → W → W).

Record json_encoder := mk_encoder { je_arg : W; je_has_objects : bool }.

Abbreviation E := (M json_encoder) (only parsing).

Definition write (data : list Z) : E unit :=
  modify (λ e, mk_encoder (je_write data (je_arg e)) (je_has_objects e)).
Definition set_has_objects (b : bool) : E unit := modify (λ e, mk_encoder (je_arg e) b).

(** ** Values *)

Definition JSON_ENCODE_OBJECT_START : E unit := write [123].
Definition JSON_ENCODE_OBJECT_END : E unit := write [125].
Definition JSON_ENCODE_ARRAY_START : E unit := write [91].
Definition JSON_ENCODE_ARRAY_END : E unit := write [93].

(** One character of a string. *)
Definition encode_char (c : Z) : E unit :=
  if (c =? 34) || (c =? 47) || (c =? 92) then write [92] ;; write [c]
  else if c =? 9 then write [92; 116]
  else if c =? 13 then write [92; 114]
  else if c =? 10 then write [92; 110]
  else if c =? 12 then write [92; 102]
  else if c =? 8 then write [92; 98]
  else write [c].

Fixpoint encode_chars (str : list Z) : E unit :=
  match str with
  | [] => mret tt
  | c :: str => encode_char c ;; encode_chars str
  end.

Definition chars_true : list Z := [116; 114; 117; 101].
Definition chars_false : list Z := [102; 97; 108; 115; 101].

(** The comma, the key and the colon. *)
Definition json_encode_object_key (key : list Z) : E Z :=
  e ← get;
  (if je_has_objects e then write [44] else mret tt) ;;
  write [34] ;;
  write key ;;
  write [34; 58; 32] ;;
  mret 0.

Fixpoint json_encode_value (jv : json_value) : E Z :=
  match jv with
  | JVBool u => write (if 0 <? u64 u then chars_true else chars_false) ;; mret 0
  | JVUint u => write (format_u (u32 u)) ;; mret 0
  | JVInt u => write (format_d (s32 u)) ;; mret 0
  | JVString str => write [34] ;; encode_chars str ;; write [34] ;; mret 0
  | JVArray values =>
      JSON_ENCODE_ARRAY_START ;;
      rc ← (fix array_loop (values : list json_value) : E Z :=
              match values with
              | [] => mret 0
              | jv :: values =>
                  rc ← json_encode_value jv;
                  if negb (rc =? 0) then mret rc
                  else
                    (match values with [] => mret tt | _ => write [44] end) ;;
                    array_loop values
              end) values;
      if negb (rc =? 0) then mret rc else JSON_ENCODE_ARRAY_END ;; mret 0
  | JVObject entries =>
      JSON_ENCODE_OBJECT_START ;;
      rc ← (fix object_loop (entries : list (list Z * json_value)) : E Z :=
              match entries with
              | [] => mret 0
              | (key, jv) :: entries =>
                  rc ← (json_encode_object_key key ;;
                        rc ← json_encode_value jv;
                        if negb (rc =? 0) then mret rc else set_has_objects true ;; mret 0);
                  if negb (rc =? 0) then mret rc else object_loop entries
              end) entries;
      if negb (rc =? 0) then mret rc else JSON_ENCODE_OBJECT_END ;; mret 0
  | JVOther _ => mret (-1)
  end.

(** ** Objects *)

Definition json_encode_object_start : E Z :=
  JSON_ENCODE_OBJECT_START ;; set_has_objects false ;; mret 0.

Definition json_encode_object_entry (key : list Z) (val : json_value) : E Z :=
  e ← get;
  (if je_has_objects e then write [44] else mret tt) ;;
  write [34] ;;
  write key ;;
  write [34; 58; 32] ;;
  rc ← json_encode_value val;
  if negb (rc =? 0) then mret rc else set_has_objects true ;; mret 0.

Definition json_encode_object_finish : E Z :=
  JSON_ENCODE_OBJECT_END ;; set_has_objects true ;; mret 0.

(** An object the way the handlers write it: start, the entries, finish. *)
Fixpoint encode_entries (entries : list (list Z * json_value)) : E Z :=
  match entries with
  | [] => mret 0
  | (key, jv) :: entries =>
      rc ← json_encode_object_entry key jv;
      if negb (rc =? 0) then mret rc else encode_entries entries
  end.

Definition encode_object (entries : list (list Z * json_value)) : E Z :=
  json_encode_object_start ;;
  rc ← encode_entries entries;
  if negb (rc =? 0) then mret rc else json_encode_object_finish.
End encoder.
Arguments json_encoder : clear implicits.

(** ** Reference: the text of a JSON value *)

Definition escape (c : Z) : list Z :=
  if (c =? 34) || (c =? 47) || (c =? 92) then [92; c]
  else if c =? 9 then [92; 116]
  else if c =? 13 then [92; 114]
  else if c =? 10 then [92; 110]
  else if c =? 12 then [92; 102]
  else if c =? 8 then [92; 98]
  else [c].

Definition quoted (s : list Z) : list Z := 34 :: s ++ [34].
Definition sep (l : list (list Z)) : list Z :=
  match l with [] => [] | x :: l => x ++ (l ≫= λ y, 44 :: y) end.

(** Values without members. *)
Inductive flat : json_value → Prop :=
| flat_bool u : flat (JVBool u)
| flat_uint u : flat (JVUint u)
| flat_int u : flat (JVInt u)
| flat_string s : flat (JVString s).

Definition value_text (jv : json_value) : list Z :=
  match jv with
  | JVBool u => if 0 <? u64 u then chars_true else chars_false
  | JVUint u => format_u (u32 u)
  | JVInt u => format_d (s32 u)
  | JVString s => quoted (s ≫= escape)
  | _ => []
  end.

Definition entry_text (e : list Z * json_value) : list Z := quoted e.1 ++ [58; 32] ++ value_text e.2.
Definition object_text (entries : list (list Z * json_value)) : list Z :=
  [123] ++ sep (entry_text <$> entries) ++ [125].

(** ** The encoder writes this text *)

#[local] Opaque format_u format_d.

(** A write function that appends to a buffer. *)
Definition append_write (data out : list Z) : list Z := out ++ data.

Lemma encode_char_run c out h :
  encode_char append_write c (mk_encoder out h) = Ret (tt, mk_encoder (out ++ escape c) h).
Proof.
  unfold encode_char, escape, write, mbind, M_bind, modify, append_write.
  destruct ((c =? 34) || (c =? 47) || (c =? 92)); [simpl; by rewrite <- (assoc_L (++))|].
  repeat match goal with |- context [if ?b then _ else _] => destruct b; [done|] end. done.
Qed.

Lemma encode_chars_run str : ∀ out h,
  encode_chars append_write str (mk_encoder out h) = Ret (tt, mk_encoder (out ++ (str ≫= escape)) h).
Proof.
  induction str as [|c str IH]; intros out h; [by rewrite app_nil_r|].
  cbn [encode_chars]. unfold mbind at 1, M_bind. rewrite encode_char_run, IH.
  cbn [mbind list_bind]. by rewrite <- (assoc_L (++)).
Qed.

Lemma encode_flat_run jv out h :
  flat jv → json_encode_value append_write jv (mk_encoder out h) = Ret (0, mk_encoder (out ++ value_text jv) h).
Proof.
  intros []; try done. cbn [json_encode_value]. unfold write, mbind, M_bind, modify.
  cbn [je_arg je_has_objects]. rewrite encode_chars_run. cbn [je_arg je_has_objects].
  unfold append_write, mret, M_ret, value_text, quoted. rewrite <- !(assoc_L (++)). done.
Qed.

Lemma encode_entry_run e out h :
  flat e.2 →
  json_encode_object_entry append_write e.1 e.2 (mk_encoder out h) =
    Ret (0, mk_encoder (out ++ (if h then [44] else []) ++ entry_text e) true).
Proof.
  intros Hf. unfold json_encode_object_entry, write, mbind, M_bind, modify, get.
  destruct h; cbn [je_arg je_has_objects]; unfold mret, M_ret; rewrite encode_flat_run by done;
    cbn [Z.eqb negb]; unfold set_has_objects, modify, append_write; cbn [je_arg];
    unfold entry_text, quoted; do 3 f_equal; cbn [app]; rewrite <- ?(assoc_L (++)); done.
Qed.

Lemma encode_entries_run entries : ∀ out h,
  Forall (λ e, flat e.2) entries →
  encode_entries append_write entries (mk_encoder out h) =
    Ret (0, mk_encoder (out ++ (if h then entries ≫= λ e, 44 :: entry_text e else sep (entry_text <$> entries)))
              (h || bool_decide (entries ≠ []))).
Proof.
  induction entries as [|e entries IH]; intros out h Hf.
  { destruct h; simpl; by rewrite app_nil_r. }
  apply Forall_cons in Hf as [He Hf]. destruct e as [key jv]. cbn [encode_entries]. unfold mbind at 1, M_bind.
  pose proof (encode_entry_run (key, jv) out h He) as Hrun. cbn [fst snd] in Hrun. rewrite Hrun.
  cbn [Z.eqb negb]. rewrite IH by done. rewrite orb_true_l, bool_decide_true, orb_true_r by done. do 3 f_equal.
  rewrite <- !(assoc_L (++)). f_equal. destruct h; [done|]. cbn [app fmap list_fmap sep]. f_equal.
  clear. induction entries as [|e entries IH]; [done|]. cbn [fmap list_fmap mbind list_bind]. by rewrite <- IH.
Qed.

Lemma encode_object_run entries out h :
  Forall (λ e, flat e.2) entries →
  encode_object append_write entries (mk_encoder out h) =
    Ret (0, mk_encoder (out ++ object_text entries) true).
Proof.
  intros Hf. unfold encode_object, json_encode_object_start, JSON_ENCODE_OBJECT_START, write, set_has_objects.
  unfold mbind, M_bind, modify, mret, M_ret. cbn [je_arg je_has_objects].
  rewrite encode_entries_run by done. cbn [Z.eqb negb]. unfold json_encode_object_finish, JSON_ENCODE_OBJECT_END.
  unfold write, set_has_objects, mbind, M_bind, modify, mret, M_ret, append_write. cbn [je_arg je_has_objects].
  unfold object_text. by rewrite <- !(assoc_L (++)).
Qed.

(** *** Nested objects

    An object within an object that follows another entry starts with a comma: the
    flag that separates entries is not cleared when the inner object starts. *)
Example nested_object_comma :
  encode_object append_write [([97], JVInt 1); ([98], JVObject [([99], JVInt 2)])] (mk_encoder [] false) =
    Ret (0, mk_encoder ([123] ++ quoted [97] ++ [58; 32; 49] ++ [44] ++ quoted [98] ++ [58; 32] ++
      [123; 44] ++ quoted [99] ++ [58; 32; 50; 125; 125]) true).
Proof. by vm_compute. Qed.
