(* ===== verification/JsonDecode.v ===== *)
(** JSON input: libs/json/src/json_decode.c.

    The input is a [json_buffer]: three functions on a state [B], as the code has
    them as function pointers.  Values are stored at the addresses the attributes of
    the template name, in the memory [tmem]: an integer or boolean is one cell at its
    address, a string a cell per character; [0] is NULL.  The local buffers [attrbuf]
    and [valbuf] are the characters written to them so far, and a write past the end
    of [valbuf] is a fault.  FLOAT_SUPPORT is not defined, as in the packages of the
    repository.  [int] has 32 bits. *)
From Stdlib Require Import ZArith Lia.
From stdpp Require Import base decidable numbers list gmap.
From S2P Require Import Prelude.
From S2P Require Import Cfmt.

#[local] Open Scope Z_scope.

(** ** Templates *)

Inductive json_type :=
| t_integer | t_uinteger | t_real | t_string | t_boolean | t_character
| t_object | t_structobject | t_array | t_check | t_ignore.
#[export] Instance json_type_eq_dec : EqDecision json_type.
Proof. solve_decision. Defined.

(** [addr] is the pointer of the union, or the offset within a structure;
    [addr_array] its array member; [dflt] the default value, [check] the string of a
    [t_check] attribute; [map] the enumeration.  The members of [arr] that only some
    element types use keep their names. *)
Inductive json_attr_t := mk_attr {
  attribute : list Z;
  type : json_type;
  addr : Z;
  addr_array : option json_array_t;
  dflt : Z;
  check : list Z;
  len : Z;
  map : option (list (list Z * Z));
  nodefault : bool;
}
with json_array_t := mk_array {
  element_type : json_type;
  subtype : list json_attr_t;
  base : Z;
  stride : Z;
  ptrs : Z;
  store : Z;
  storelen : Z;
  count : Z;
  maxlen : Z;
}.

Definition JSON_ATTR_MAX : Z := 31.
Definition JSON_VAL_MAX : Z := 512.

Definition JSON_ERR_OBSTART : Z := 1.
Definition JSON_ERR_ATTRSTART : Z := 2.
Definition JSON_ERR_BADATTR : Z := 3.
Definition JSON_ERR_ATTRLEN : Z := 4.
Definition JSON_ERR_NOARRAY : Z := 5.
Definition JSON_ERR_NOBRAK : Z := 6.
Definition JSON_ERR_STRLONG : Z := 7.
Definition JSON_ERR_TOKLONG : Z := 8.
Definition JSON_ERR_BADTRAIL : Z := 9.
Definition JSON_ERR_ARRAYSTART : Z := 10.
Definition JSON_ERR_SUBTOOLONG : Z := 12.
Definition JSON_ERR_BADSUBTRAIL : Z := 13.
Definition JSON_ERR_SUBTYPE : Z := 14.
Definition JSON_ERR_BADSTRING : Z := 15.
Definition JSON_ERR_CHECKFAIL : Z := 16.
Definition JSON_ERR_NOPARSTR : Z := 17.
Definition JSON_ERR_BADENUM : Z := 18.
Definition JSON_ERR_QNONSTRING : Z := 19.
Definition JSON_ERR_NONQSTRING : Z := 19.
Definition JSON_ERR_MISC : Z := 20.
Definition JSON_ERR_BADNUM : Z := 21.

(** ** Memory *)

Inductive jcell := CInt (v : Z) | CUint (v : Z) | CBool (b : bool) | CChar (c : Z) | CPtr (a : Z).

(** [struct json_buffer]: [jb_readn] returns its result and the bytes it stored. *)
Record json_buffer (B : Type) := mk_jb {
  jb_readn : Z → B → (Z * list Z) * B;
  jb_read_next : B → Z * B;
  jb_read_prev : B → Z * B;
}.
Arguments mk_jb {B}.
Arguments jb_readn {B}.
Arguments jb_read_next {B}.
Arguments jb_read_prev {B}.

(** The C string in a buffer: the characters before the first NUL. *)
Fixpoint cstr (s : list Z) : list Z :=
  match s with
  | [] => []
  | c :: s => if c =? 0 then [] else c :: cstr s
  end.

(** strncpy: [n] bytes, padded with NUL. *)
Definition strncpy (src : list Z) (n : Z) : list Z := resize (Z.to_nat n) 0 (cstr src).

Definition str_true : list Z := [116; 114; 117; 101].
Definition str_false : list Z := [102; 97; 108; 115; 101].

Section decoder.
Context {B : Type} (jb : json_buffer B).
(** What the variable [u] of the parser holds when it is not initialised. *)
Context (uninit : Z).

Record jstate := mk_jstate { jbuf : B; tmem : gmap Z jcell }.
Abbreviation J := (M jstate) (only parsing).

Definition read_next : J Z := λ s, let '(c, b) := jb_read_next jb (jbuf s) in Ret (c, mk_jstate b (tmem s)).
Definition read_prev : J Z := λ s, let '(c, b) := jb_read_prev jb (jbuf s) in Ret (c, mk_jstate b (tmem s)).
Definition readn (n : Z) : J (Z * list Z) := λ s, let '(r, b) := jb_readn jb n (jbuf s) in Ret (r, mk_jstate b (tmem s)).

Definition poke (a : Z) (v : jcell) : J unit := modify (λ s, mk_jstate (jbuf s) (<[a := v]> (tmem s))).
Fixpoint poke_chars (a : Z) (l : list Z) : J unit :=
  match l with
  | [] => mret tt
  | c :: l => poke a (CChar c) ;; poke_chars (a + 1) l
  end.

(** Skips white space; the first other character. *)
Fixpoint skip_ws (fuel : nat) : J Z :=
  match fuel with
  | O => fault_with FFuel
  | S fuel => c ← read_next; if isspace c then skip_ws fuel else mret c
  end.

(** ** Objects *)

Definition is_struct (parent : option json_array_t) : bool :=
  match parent with Some p => bool_decide (element_type p = t_structobject) | None => false end.

Definition json_target_address (cursor : json_attr_t) (parent : option json_array_t) (offset : Z) : Z :=
  match parent with
  | Some p =>
      if bool_decide (element_type p = t_structobject)
      then base p + offset * stride p + addr cursor
      else match type cursor with
           | t_integer | t_uinteger => addr cursor + 4 * offset
           | t_real => addr cursor + 8 * offset
           | t_string => addr cursor
           | t_boolean | t_character => addr cursor + offset
           | _ => 0
           end
  | None =>
      match type cursor with
      | t_integer | t_uinteger => addr cursor + 4 * offset
      | t_real => addr cursor + 8 * offset
      | t_string => addr cursor
      | t_boolean | t_character => addr cursor + offset
      | _ => 0
      end
  end.

(** Strings are not supported in parallel arrays. *)
Definition parallel (parent : option json_array_t) (offset : Z) : bool :=
  match parent with Some p => negb (bool_decide (element_type p = t_structobject)) && (0 <? offset) | None => false end.

(** The loop that stores the defaults; [Some rc] is an early return. *)
Fixpoint store_defaults (attrs : list json_attr_t) (parent : option json_array_t) (offset : Z) : J (option Z) :=
  match attrs with
  | [] => mret None
  | cursor :: attrs =>
      let lptr := json_target_address cursor parent offset in
      r ← (if negb (nodefault cursor) && negb (lptr =? 0) then
             match type cursor with
             | t_integer => poke lptr (CInt (dflt cursor)) ;; mret None
             | t_uinteger => poke lptr (CUint (dflt cursor)) ;; mret None
             | t_string =>
                 if parallel parent offset then mret (Some JSON_ERR_NOPARSTR)
                 else poke lptr (CChar 0) ;; mret None
             | t_boolean => poke lptr (CBool (negb (dflt cursor =? 0))) ;; mret None
             | t_character => poke lptr (CChar (dflt cursor)) ;; mret None
             | _ => mret None
             end
           else mret None);
      match r with
      | Some rc => mret (Some rc)
      | None => store_defaults attrs parent offset
      end
  end.

Inductive pstate_ :=
| init | await_attr | in_attr | await_value | in_val_string | in_escape | in_val_token | post_val | post_array.

(** The local variables of the parser: [pattr] and [pval] are the lengths of the
    buffers, [cursor] an index into the template. *)
Record locals := mk_locals {
  state : pstate_;
  attrbuf : list Z;
  valbuf : list Z;
  value_quoted : bool;
  cursor : nat;
  vmaxlen : Z;
}.
Definition set_state (v : pstate_) (l : locals) : locals :=
  mk_locals v (attrbuf l) (valbuf l) (value_quoted l) (cursor l) (vmaxlen l).
Definition set_attrbuf (v : list Z) (l : locals) : locals :=
  mk_locals (state l) v (valbuf l) (value_quoted l) (cursor l) (vmaxlen l).
Definition set_valbuf (v : list Z) (l : locals) : locals :=
  mk_locals (state l) (attrbuf l) v (value_quoted l) (cursor l) (vmaxlen l).
Definition set_value_quoted (v : bool) (l : locals) : locals :=
  mk_locals (state l) (attrbuf l) (valbuf l) v (cursor l) (vmaxlen l).
Definition set_cursor (v : nat) (l : locals) : locals :=
  mk_locals (state l) (attrbuf l) (valbuf l) (value_quoted l) v (vmaxlen l).
Definition set_vmaxlen (v : Z) (l : locals) : locals :=
  mk_locals (state l) (attrbuf l) (valbuf l) (value_quoted l) (cursor l) v.

(** What one round of the parser does next. *)
Inductive next := Go (l : locals) | Return (rc : Z) | Good_parse.

(** [*pval++ = c]. *)
Definition put_val (c : Z) (l : locals) : J locals :=
  if Z.of_nat (length (valbuf l)) <=? JSON_VAL_MAX then mret (set_valbuf (valbuf l ++ [c]) l)
  else fault_with FNull.

Definition st_init (l : locals) (c : Z) : J next :=
  if isspace c then mret (Go l)
  else if c =? 123 then mret (Go (set_state await_attr l))
  else mret (Return JSON_ERR_OBSTART).

Definition st_await_attr (l : locals) (c : Z) : J next :=
  if isspace c then mret (Go l)
  else if c =? 34 then mret (Go (set_attrbuf [] (set_state in_attr l)))
  else if c =? 125 then mret (Go l)
  else mret (Return JSON_ERR_ATTRSTART).

(** The first attribute with this name. *)
Fixpoint find_attr (attrs : list json_attr_t) (name : list Z) (i : nat) : option nat :=
  match attrs with
  | [] => None
  | a :: attrs => if bool_decide (attribute a = name) then Some i else find_attr attrs name (S i)
  end.

Definition value_maxlen (a : json_attr_t) (old : Z) : Z :=
  match type a with
  | t_string => len a - 1
  | t_check => Z.of_nat (length (check a))
  | t_ignore => JSON_VAL_MAX
  | _ => if map a then JSON_VAL_MAX else old
  end.

Definition st_in_attr (attrs : list json_attr_t) (l : locals) (c : Z) : J next :=
  if c =? 34 then
    match find_attr attrs (attrbuf l) 0 with
    | None => mret (Return JSON_ERR_BADATTR)
    | Some i =>
        a ← from_option_fault FNull (attrs !! i);
        mret (Go (set_valbuf [] (set_vmaxlen (value_maxlen a (vmaxlen l)) (set_cursor i (set_state await_value l)))))
    end
  else if JSON_ATTR_MAX - 1 <=? Z.of_nat (length (attrbuf l)) then mret (Return JSON_ERR_ATTRLEN)
  else mret (Go (set_attrbuf (attrbuf l ++ [c]) l)).

(** [read_array] is [json_read_array], for the nested array. *)
Definition st_await_value (read_array : json_array_t → J Z) (attrs : list json_attr_t)
    (l : locals) (c : Z) : J next :=
  if isspace c || (c =? 58) then mret (Go l)
  else
    a ← from_option_fault FNull (attrs !! cursor l);
    if c =? 91 then
      if negb (bool_decide (type a = t_array)) then mret (Return JSON_ERR_NOARRAY)
      else
        read_prev ;;
        arr ← from_option_fault FNull (addr_array a);
        substatus ← read_array arr;
        if negb (substatus =? 0) then mret (Return substatus)
        else mret (Go (set_state post_array l))
    else if bool_decide (type a = t_array) then mret (Return JSON_ERR_NOBRAK)
    else if c =? 34 then mret (Go (set_valbuf [] (set_state in_val_string (set_value_quoted true l))))
    else mret (Go (set_valbuf [c] (set_state in_val_token (set_value_quoted false l)))).

Definition st_in_val_string (l : locals) (c : Z) : J next :=
  let pval := Z.of_nat (length (valbuf l)) in
  if c =? 92 then mret (Go (set_state in_escape l))
  else if c =? 34 then l ← put_val 0 l; mret (Go (set_state post_val l))
  else if (JSON_VAL_MAX - 1 <? pval) || (vmaxlen l <? pval) then mret (Return JSON_ERR_STRLONG)
  else l ← put_val c l; mret (Go l).

(** The loop that collects the characters of a \u escape, from the [u] on. *)
Fixpoint uescape_loop (n : nat) (c : Z) (uescape : list Z) : J (list Z) :=
  match n with
  | O => mret uescape
  | S n => if negb (c =? 0) then c' ← read_next; uescape_loop n c' (uescape ++ [c]) else mret uescape
  end.

(** sscanf with %04x: no conversion if the string does not start with a digit. *)
Definition sscanf_04x (s : list Z) (u : Z) : Z :=
  match s with
  | c :: _ => if (0 <=? digitval c) && (digitval c <? 16) then u32 (strntoumax (take 4 s) 16).1 else u
  | [] => u
  end.

Definition st_in_escape (l : locals) (c : Z) : J next :=
  l ← (if c =? 98 then put_val 8 l
       else if c =? 102 then put_val 12 l
       else if c =? 110 then put_val 10 l
       else if c =? 114 then put_val 13 l
       else if c =? 116 then put_val 9 l
       else if c =? 117 then
         uescape ← uescape_loop 4 c [];
         read_prev ;;
         put_val (u8 (sscanf_04x uescape uninit)) l
       else put_val c l);
  mret (Go (set_state in_val_string l)).

Definition st_in_val_token (l : locals) (c : Z) : J next :=
  let pval := Z.of_nat (length (valbuf l)) in
  if isspace c || (c =? 44) || (c =? 125) then
    (if (c =? 125) || (c =? 44) then read_prev ;; mret tt else mret tt) ;;
    mret (Go (set_state post_val l))
  else if JSON_VAL_MAX - 1 <? pval then mret (Return JSON_ERR_TOKLONG)
  else l ← put_val c l; mret (Go l).

(** *** The value is complete *)

(** Whether the specification fits the value. *)
Definition type_fits (a : json_attr_t) (quoted : bool) (val : list Z) : bool :=
  (quoted && bool_decide (type a = t_string)) ||
  (bool_decide (val = str_true ∨ val = str_false) && bool_decide (type a = t_boolean)) ||
  (isdigit (default 0 (head val)) &&
   (let decimal := bool_decide (46 ∈ val) in
    (decimal && bool_decide (type a = t_real)) ||
    (negb decimal && bool_decide (type a = t_integer ∨ type a = t_uinteger)))).

(** The loop that seeks a specification of the same name that fits. *)
Fixpoint seek (fuel : nat) (attrs : list json_attr_t) (i : nat) (name val : list Z) (quoted : bool) : nat :=
  match fuel with
  | O => i
  | S fuel =>
      match attrs !! i, attrs !! S i with
      | Some a, Some b =>
          if type_fits a quoted val then i
          else if negb (bool_decide (attribute b = name)) then i
          else seek fuel attrs (S i) name val quoted
      | _, _ => i
      end
  end.

Fixpoint find_enum (mp : list (list Z * Z)) (val : list Z) : option Z :=
  match mp with
  | [] => None
  | (name, v) :: mp => if bool_decide (name = val) then Some v else find_enum mp val
  end.

(** The switch that stores the value; [Some rc] is an early return. *)
Definition store_value (a : json_attr_t) (parent : option json_array_t) (offset : Z) (val : list Z) : J (option Z) :=
  let lptr := json_target_address a parent offset in
  if lptr =? 0 then mret None
  else match type a with
  | t_integer => poke lptr (CInt (atoi val)) ;; mret None
  | t_uinteger => poke lptr (CUint (u32 (atoi val))) ;; mret None
  | t_real => mret (Some JSON_ERR_MISC)
  | t_string =>
      if parallel parent offset then mret (Some JSON_ERR_NOPARSTR)
      else poke_chars lptr (strncpy val (len a)) ;; mret None
  | t_boolean => poke lptr (CBool (bool_decide (val = str_true))) ;; mret None
  | t_character =>
      if 1 <? Z.of_nat (length val) then mret (Some JSON_ERR_STRLONG)
      else poke lptr (CChar (default 0 (head val))) ;; mret None
  | t_check => if bool_decide (check a = val) then mret None else mret (Some JSON_ERR_CHECKFAIL)
  | _ => mret None
  end.

Definition st_post_array (l : locals) (c : Z) : J next :=
  if isspace c then mret (Go l)
  else if c =? 44 then mret (Go (set_state await_attr l))
  else if c =? 125 then read_next ;; mret Good_parse
  else mret (Return JSON_ERR_BADTRAIL).

(** Falls through to [post_array], in the state [post_val]. *)
Definition st_post_val (attrs : list json_attr_t) (parent : option json_array_t) (offset : Z)
    (l : locals) (c : Z) : J next :=
  let i := seek (length attrs) attrs (cursor l) (attrbuf l) (cstr (valbuf l)) (value_quoted l) in
  a ← from_option_fault FNull (attrs !! i);
  let has_map := match map a with Some _ => true | None => false end in
  if value_quoted l && negb (bool_decide (type a = t_string ∨ type a = t_character ∨
                                          type a = t_check ∨ type a = t_ignore)) && negb has_map
  then mret (Return JSON_ERR_QNONSTRING)
  else if negb (value_quoted l) && (bool_decide (type a = t_string ∨ type a = t_check) || has_map)
  then mret (Return JSON_ERR_NONQSTRING)
  else
    let val := match map a with
               | None => Some (valbuf l)
               | Some mp => format_d <$> find_enum mp (cstr (valbuf l))
               end in
    match val with
    | None => mret (Return JSON_ERR_BADENUM)
    | Some val =>
        r ← store_value a parent offset (cstr val);
        match r with
        | Some rc => mret (Return rc)
        | None => st_post_array (set_valbuf val (set_cursor i l)) c
        end
    end.

(** The switch of the parser, for one character. *)
Definition obj_step (read_array : json_array_t → J Z) (attrs : list json_attr_t)
    (parent : option json_array_t) (offset : Z) (l : locals) (c : Z) : J next :=
  match state l with
  | init => st_init l c
  | await_attr => st_await_attr l c
  | in_attr => st_in_attr attrs l c
  | await_value => st_await_value read_array attrs l c
  | in_val_string => st_in_val_string l c
  | in_escape => st_in_escape l c
  | in_val_token => st_in_val_token l c
  | post_val => st_post_val attrs parent offset l c
  | post_array => st_post_array l c
  end.

(** The [for] loop over the input and the white space after the object.  [cfuel]
    bounds the number of rounds. *)
Fixpoint obj_loop (cfuel : nat) (read_array : json_array_t → J Z) (attrs : list json_attr_t)
    (parent : option json_array_t) (offset : Z) (l : locals) : J Z :=
  match cfuel with
  | O => fault_with FFuel
  | S cfuel =>
      c ← read_next;
      if c =? 0 then skip_ws (S cfuel) ;; mret 0
      else
        r ← obj_step read_array attrs parent offset l c;
        match r with
        | Go l => obj_loop cfuel read_array attrs parent offset l
        | Return rc => mret rc
        | Good_parse => skip_ws (S cfuel) ;; mret 0
        end
  end.

Definition locals0 : locals := mk_locals init [] [] false 0 0.

(** ** Arrays *)

(** The loop over the characters of a string element: the next character and [tp], or
    an error. *)
Fixpoint string_elem_loop (room : nat) (tp c : Z) : J (option (Z * Z)) :=
  match room with
  | O => mret None
  | S room =>
      if c =? 34 then
        c ← read_next;
        poke tp (CChar 0) ;;
        mret (Some (c, tp + 1))
      else if c =? 0 then mret None
      else
        poke tp (CChar c) ;;
        c ← read_next;
        string_elem_loop room (tp + 1) c
  end.

(** Reads [n] characters; [c] is the last of them. *)
Fixpoint advance (n : nat) (c : Z) : J Z :=
  match n with
  | O => mret c
  | S n => c ← read_next; advance n c
  end.

(** [valbuf[n] = 0] after [jb_readn]: outside the buffer if [n] is negative. *)
Definition terminated (r : Z * list Z) (size : Z) : J (list Z) :=
  if (0 <=? r.1) && (r.1 <? size) then mret (cstr (take (Z.to_nat r.1) r.2)) else fault_with FNull.

(** The integer elements, read with [strtox]. *)
Definition number_elem (strtox : list Z → Z → Z * list Z) (a : Z) (mk : Z → jcell) (c : Z) : J (option Z) :=
  r ← readn 63;
  valbuf ← terminated r 64;
  let '(v, ep) := strtox valbuf 0 in
  poke a (mk v) ;;
  let n := (length valbuf - length ep)%nat in
  if (n =? 0)%nat then mret None
  else c ← advance n c; mret (Some c).

(** The switch for one element: the next character and [tp], or the error. *)
Definition array_elem (read_object : list json_attr_t → option json_array_t → Z → J Z)
    (arr : json_array_t) (offset tp c : Z) : J (Z + Z * Z) :=
  match element_type arr with
  | t_string =>
      c ← (if isspace c then read_next else mret c);
      if negb (c =? 34) then mret (inl JSON_ERR_BADSTRING)
      else
        c ← read_next;
        poke (ptrs arr + 4 * offset) (CPtr tp) ;;
        r ← string_elem_loop (Z.to_nat (storelen arr - (tp - store arr))) tp c;
        match r with
        | None => mret (inl JSON_ERR_BADSTRING)
        | Some (c, tp) => mret (inr (c, tp))
        end
  | t_object | t_structobject =>
      substatus ← read_object (subtype arr) (Some arr) offset;
      if negb (substatus =? 0) then mret (inl substatus) else mret (inr (c, tp))
  | t_integer =>
      r ← number_elem strtol (store arr + 4 * offset) CInt c;
      match r with None => mret (inl JSON_ERR_BADNUM) | Some c => mret (inr (c, tp)) end
  | t_uinteger =>
      r ← number_elem strtoul (store arr + 4 * offset) CUint c;
      match r with None => mret (inl JSON_ERR_BADNUM) | Some c => mret (inr (c, tp)) end
  | t_real => mret (inl JSON_ERR_MISC)
  | t_boolean =>
      r ← readn 5;
      valbuf ← terminated r 64;
      if bool_decide (take 4 valbuf = str_true) then
        poke (store arr + offset) (CBool true) ;; c ← advance 4 c; mret (inr (c, tp))
      else if bool_decide (take 5 valbuf = str_false) then
        poke (store arr + offset) (CBool false) ;; c ← advance 5 c; mret (inr (c, tp))
      else mret (inr (c, tp))
  | t_character | t_array | t_check | t_ignore => mret (inl JSON_ERR_SUBTYPE)
  end.

(** [breakout]: the number of elements is stored. *)
Definition array_done (arr : json_array_t) (arrcount : Z) : J Z :=
  (if negb (count arr =? 0) then poke (count arr) (CInt arrcount) else mret tt) ;; mret 0.

(** The [for] loop over the elements; [n] of them are still allowed. *)
Fixpoint array_loop (n : nat) (read_object : list json_attr_t → option json_array_t → Z → J Z)
    (arr : json_array_t) (offset tp c : Z) : J Z :=
  match n with
  | O => mret JSON_ERR_SUBTOOLONG
  | S n =>
      r ← array_elem read_object arr offset tp c;
      match r with
      | inl rc => mret rc
      | inr (c, tp) =>
          c ← (if isspace c then read_next else mret c);
          if c =? 93 then array_done arr (offset + 1)
          else if c =? 44 then c ← read_next; array_loop n read_object arr (offset + 1) tp c
          else mret JSON_ERR_BADSUBTRAIL
      end
  end.

(** [depth] bounds the nesting of the template, [cfuel] the rounds of a loop. *)
Fixpoint json_internal_read_object (depth cfuel : nat) (attrs : list json_attr_t)
    (parent : option json_array_t) (offset : Z) : J Z :=
  match depth with
  | O => fault_with FFuel
  | S depth =>
      r ← store_defaults attrs parent offset;
      match r with
      | Some rc => mret rc
      | None => obj_loop cfuel (json_read_array depth cfuel) attrs parent offset locals0
      end
  end
with json_read_array (depth cfuel : nat) (arr : json_array_t) : J Z :=
  match depth with
  | O => fault_with FFuel
  | S depth =>
      c ← skip_ws cfuel;
      if negb (c =? 91) then mret JSON_ERR_ARRAYSTART
      else
        c ← skip_ws cfuel;
        if c =? 93 then array_done arr 0
        else array_loop (Z.to_nat (maxlen arr)) (json_internal_read_object depth cfuel) arr 0 (store arr) c
  end.

Definition json_read_object (depth cfuel : nat) (attrs : list json_attr_t) : J Z :=
  json_internal_read_object depth cfuel attrs None 0.
End decoder.
Arguments jstate : clear implicits.

(** ** A buffer over a list of characters

    The cursor moves as [nmgr_jbuf] does: reading at the end returns NUL and stays,
    reading back at the start returns NUL and stays, [readn] does not move. *)
Record lbuf := mk_lbuf { lb_text : list Z; lb_off : nat }.

Definition lbuf_next (b : lbuf) : Z * lbuf :=
  match lb_text b !! lb_off b with
  | Some c => (c, mk_lbuf (lb_text b) (S (lb_off b)))
  | None => (0, b)
  end.
Definition lbuf_prev (b : lbuf) : Z * lbuf :=
  match lb_off b with
  | O => (0, b)
  | S i => (default 0 (lb_text b !! i), mk_lbuf (lb_text b) i)
  end.
Definition lbuf_readn (n : Z) (b : lbuf) : (Z * list Z) * lbuf :=
  let r := take (Z.to_nat n) (drop (lb_off b) (lb_text b)) in ((Z.of_nat (length r), r), b).
Definition list_buffer : json_buffer lbuf := mk_jb lbuf_readn lbuf_next lbuf_prev.

Definition decode_text (attrs : list json_attr_t) (text : list Z) (tm : gmap Z jcell) : res (Z * jstate lbuf) :=
  json_read_object list_buffer 0 8 (S (2 * length text)) attrs (mk_jstate (mk_lbuf text 0) tm).
