(* ===== verification/JsonProps.v ===== *)
(** The JSON decoder of [JsonDecode] reads what the encoder of [JsonEncode] writes. *)
From Stdlib Require Import ZArith Lia.
From stdpp Require Import base decidable numbers list gmap.
From S2P Require Import Prelude.
From S2P Require Import Cfmt.
From S2P Require Import JsonEncode.
From S2P Require Import JsonDecode.

#[local] Open Scope Z_scope.

(** ** Words of the input *)

(** The text has the word [w] at position [k]. *)
Definition slice (text : list Z) (k : nat) (w : list Z) : Prop :=
  ∀ i c, w !! i = Some c → text !! (k + i)%nat = Some c.

Lemma slice_app text k w1 w2 :
  slice text k (w1 ++ w2) ↔ slice text k w1 ∧ slice text (k + length w1) w2.
Proof.
  split.
  - intros H. split; intros i c Hi.
    + apply H. by apply lookup_app_l_Some.
    + rewrite <- Nat.add_assoc. apply H. rewrite lookup_app_r by lia. by replace (length w1 + i - length w1)%nat with i by lia.
  - intros [H1 H2] i c [Hi|[Hle Hi]]%lookup_app_Some; [by apply H1|].
    specialize (H2 _ _ Hi). by replace (k + length w1 + (i - length w1))%nat with (k + i)%nat in H2 by lia.
Qed.

Lemma slice_cons text k c w : slice text k (c :: w) ↔ text !! k = Some c ∧ slice text (S k) w.
Proof.
  change (c :: w) with ([c] ++ w). rewrite slice_app. cbn [length]. rewrite Nat.add_1_r. split; intros [H1 H2]; (split; [|done]).
  - specialize (H1 0%nat c eq_refl). by rewrite Nat.add_0_r in H1.
  - intros [|i] d [= <-]. by rewrite Nat.add_0_r.
Qed.

Lemma slice_self text : slice text 0 text.
Proof. by intros i c. Qed.

(** ** Reference: what the decoder leaves in the memory *)

Fixpoint chars_at (p : Z) (s : list Z) (tm : gmap Z jcell) : gmap Z jcell :=
  match s with
  | [] => tm
  | c :: s => chars_at (p + 1) s (<[p := CChar c]> tm)
  end.

(** The value at the address of its attribute; a string is padded with NUL. *)
Definition stored (a : json_attr_t) (jv : json_value) (tm : gmap Z jcell) : gmap Z jcell :=
  match jv with
  | JVBool u => <[addr a := CBool (bool_decide (0 < u64 u))]> tm
  | JVUint u => <[addr a := CUint (u32 u)]> tm
  | JVInt u => <[addr a := CInt (s32 u)]> tm
  | JVString s => chars_at (addr a) (s ++ replicate (Z.to_nat (len a) - length s) 0) tm
  | _ => tm
  end.

Lemma poke_chars_run (b : lbuf) s : ∀ p tm,
  poke_chars (B := lbuf) p s (mk_jstate b tm) = Ret (tt, mk_jstate b (chars_at p s tm)).
Proof. induction s as [|c s IH]; intros p tm; [done|]. cbn [poke_chars]. unfold mbind, M_bind. cbn. apply IH. Qed.

Lemma strncpy_pad s n :
  Forall (λ c, c ≠ 0) s → Z.of_nat (length s) < n → strncpy s n = s ++ replicate (Z.to_nat n - length s) 0.
Proof.
  intros Hs Hn. unfold strncpy. replace (cstr s) with s; [by rewrite resize_ge by lia|].
  clear Hn. induction Hs as [|c s Hc _ IH]; [done|]. simpl. by rewrite (proj2 (Z.eqb_neq _ _)), <- IH.
Qed.

(** The default of an attribute. *)
Definition default_stored (a : json_attr_t) (tm : gmap Z jcell) : gmap Z jcell :=
  if nodefault a || (addr a =? 0) then tm
  else match type a with
       | t_integer => <[addr a := CInt (dflt a)]> tm
       | t_uinteger => <[addr a := CUint (dflt a)]> tm
       | t_string => <[addr a := CChar 0]> tm
       | t_boolean => <[addr a := CBool (negb (dflt a =? 0))]> tm
       | t_character => <[addr a := CChar (dflt a)]> tm
       | _ => tm
       end.

Lemma store_defaults_run (b : lbuf) attrs : ∀ tm,
  store_defaults (B := lbuf) attrs None 0 (mk_jstate b tm) =
    Ret (None, mk_jstate b (foldl (λ tm a, default_stored a tm) tm attrs)).
Proof.
  induction attrs as [|a attrs IH]; intros tm; [done|]. cbn [store_defaults foldl]. unfold default_stored at 2.
  destruct (nodefault a); cbn [negb andb orb]; [apply IH|].
  unfold json_target_address. destruct (type a); rewrite ?Z.mul_0_r, ?Z.add_0_r; cbn [Z.eqb negb];
    destruct (addr a =? 0); cbn [negb]; apply IH.
Qed.

Lemma find_attr_self attrs i a :
  NoDup (attribute <$> attrs) → attrs !! i = Some a → find_attr attrs (attribute a) 0 = Some i.
Proof.
  enough (H : ∀ j, NoDup (attribute <$> attrs) → attrs !! i = Some a → find_attr attrs (attribute a) j = Some (j + i)%nat)
    by apply (H 0%nat).
  revert i. induction attrs as [|b attrs IH]; intros i j Hnd Ha; [done|]. cbn [find_attr fmap list_fmap] in *.
  apply NoDup_cons in Hnd as [Hni Hnd]. destruct i as [|i].
  - injection Ha as ->. rewrite bool_decide_true by done. f_equal. lia.
  - cbn [lookup list_lookup] in Ha. rewrite bool_decide_false.
    + rewrite (IH i) by done. f_equal. lia.
    + intros Heq. apply Hni. rewrite Heq. apply list_elem_of_fmap. exists a. split; [done|]. by eapply list_elem_of_lookup_2.
Qed.

(** ** Runs of the parser *)

Section run.
Context (ra : json_array_t → M (jstate lbuf) Z) (u0 : Z) (attrs : list json_attr_t) (text : list Z).

Definition run (f : nat) (l : locals) (k : nat) (tm : gmap Z jcell) : res (Z * jstate lbuf) :=
  obj_loop list_buffer u0 f ra attrs None 0 l (mk_jstate (mk_lbuf text k) tm).

(** [n] rounds lead from one configuration to another. *)
Definition reaches (n : nat) (l : locals) (k : nat) (tm : gmap Z jcell)
    (l' : locals) (k' : nat) (tm' : gmap Z jcell) : Prop :=
  ∀ f, run (n + f) l k tm = run f l' k' tm'.

Lemma reaches_refl l k tm : reaches 0 l k tm l k tm.
Proof. by intros f. Qed.

Lemma reaches_trans n1 n2 l1 k1 t1 l2 k2 t2 l3 k3 t3 :
  reaches n1 l1 k1 t1 l2 k2 t2 → reaches n2 l2 k2 t2 l3 k3 t3 → reaches (n1 + n2) l1 k1 t1 l3 k3 t3.
Proof. intros H1 H2 f. by rewrite <- Nat.add_assoc, H1, H2. Qed.

(** One round. *)
Lemma reaches_step c l k tm l' k' tm' :
  text !! k = Some c → c ≠ 0 →
  obj_step list_buffer u0 ra attrs None 0 l c (mk_jstate (mk_lbuf text (S k)) tm) =
    Ret (Go l', mk_jstate (mk_lbuf text k') tm') →
  reaches 1 l k tm l' k' tm'.
Proof.
  intros Hk Hc Hs f. unfold run. cbn [obj_loop Nat.add]. unfold mbind, M_bind, read_next.
  cbn [jb_read_next list_buffer jbuf]. unfold lbuf_next. cbn [lb_text lb_off]. rewrite Hk. cbn [tmem].
  rewrite (proj2 (Z.eqb_neq _ _)) by done. by rewrite Hs.
Qed.

(** A round that does not touch the input or the memory. *)
Lemma reaches_pure c l k tm l' :
  text !! k = Some c → c ≠ 0 →
  (∀ s, obj_step list_buffer u0 ra attrs None 0 l c s = Ret (Go l', s)) →
  reaches 1 l k tm l' (S k) tm.
Proof. intros Hk Hc Hs. by eapply reaches_step. Qed.

(** *** Names *)

Definition key_char (c : Z) : Prop := c ≠ 0 ∧ c ≠ 34.

Lemma reaches_key key : ∀ b l k tm,
  slice text k key → Forall key_char key → (length (b ++ key) <= 30)%nat →
  state l = in_attr → attrbuf l = b →
  reaches (length key) l k tm (set_attrbuf (b ++ key) l) (k + length key) tm.
Proof.
  induction key as [|c key IH]; intros b l k tm Hs Hc Hlen Hst Hb.
  - rewrite app_nil_r, Nat.add_0_r. destruct l; simpl in *; subst. apply reaches_refl.
  - apply slice_cons in Hs as [Hk Hs]. apply Forall_cons in Hc as [[Hc0 Hc34] Hc].
    rewrite length_app in Hlen. cbn [length] in Hlen.
    change (length (c :: key)) with (1 + length key)%nat. eapply reaches_trans.
    + eapply (reaches_pure c _ _ _ (set_attrbuf (b ++ [c]) l)); [done|done|]. intros s.
      unfold obj_step. rewrite Hst. unfold st_in_attr. rewrite (proj2 (Z.eqb_neq _ _)) by done.
      rewrite Hb. unfold JSON_ATTR_MAX. rewrite (proj2 (Z.leb_gt _ _)) by lia. done.
    + replace (b ++ c :: key) with ((b ++ [c]) ++ key) by (by rewrite <- (assoc_L (++))).
      replace (k + (1 + length key))%nat with (S k + length key)%nat by lia.
      apply (IH (b ++ [c]) (set_attrbuf (b ++ [c]) l)); [done|done|rewrite !length_app; simpl; lia|done|done].
Qed.

(** The name, the colon and the space after it. *)
Lemma reaches_name key i a l k tm :
  slice text k (quoted key ++ [58; 32]) → Forall key_char key → (length key <= 30)%nat →
  state l = await_attr → find_attr attrs key 0 = Some i → attrs !! i = Some a →
  reaches (length (quoted key ++ [58; 32])) l k tm
    (mk_locals await_value key [] (value_quoted l) i (value_maxlen a (vmaxlen l)))
    (k + length (quoted key ++ [58; 32])) tm.
Proof.
  intros Hs Hc Hlen Hst Hf Ha. unfold quoted in *. cbn [app] in Hs. rewrite <- (assoc_L (++)) in Hs. cbn [app] in Hs.
  apply slice_cons in Hs as [H1 Hs]. apply slice_app in Hs as [Hkey Hs].
  apply slice_cons in Hs as [H2 Hs]. apply slice_cons in Hs as [H3 Hs]. apply slice_cons in Hs as [H4 _].
  replace (length ((34 :: key ++ [34]) ++ [58; 32])) with (1 + (length key + (1 + (1 + 1))))%nat
    by (rewrite length_app; simpl; rewrite length_app; simpl; lia).
  eapply reaches_trans.
  { eapply (reaches_pure 34 _ _ _ (set_attrbuf [] (set_state in_attr l))); [done|done|]. intros s.
    unfold obj_step. by rewrite Hst. }
  eapply reaches_trans; [apply (reaches_key key []); try done|].
  eapply reaches_trans.
  { eapply (reaches_pure 34 _ _ _ (mk_locals await_value key [] (value_quoted l) i (value_maxlen a (vmaxlen l))));
      [done|done|]. intros s. unfold obj_step. cbn [state set_state set_attrbuf app]. unfold st_in_attr.
    cbn [Z.eqb Pos.eqb attrbuf set_attrbuf set_state]. rewrite Hf. unfold mbind, M_bind. rewrite Ha. done. }
  replace (k + (1 + (length key + (1 + (1 + 1)))))%nat with (S (S (S (S k + length key)))) by lia.
  eapply reaches_trans; [eapply (reaches_pure 58); [done|done|done]|eapply (reaches_pure 32); [done|done|done]].
Qed.

(** *** Values *)

Definition token_char (c : Z) : Prop := c ≠ 0 ∧ isspace c = false ∧ c ≠ 44 ∧ c ≠ 125.

Lemma reaches_token w : ∀ v l k tm,
  slice text k w → Forall token_char w → (length (v ++ w) <= 512)%nat →
  state l = in_val_token → valbuf l = v →
  reaches (length w) l k tm (set_valbuf (v ++ w) l) (k + length w) tm.
Proof.
  induction w as [|c w IH]; intros v l k tm Hs Hc Hlen Hst Hv.
  - rewrite app_nil_r, Nat.add_0_r. destruct l; simpl in *; subst. apply reaches_refl.
  - apply slice_cons in Hs as [Hk Hs]. apply Forall_cons in Hc as [(Hc0 & Hsp & Hc44 & Hc125) Hc].
    rewrite length_app in Hlen. cbn [length] in Hlen.
    change (length (c :: w)) with (1 + length w)%nat. eapply reaches_trans.
    + eapply (reaches_pure c _ _ _ (set_valbuf (v ++ [c]) l)); [done|done|]. intros s.
      unfold obj_step. rewrite Hst. unfold st_in_val_token. rewrite Hsp, !(proj2 (Z.eqb_neq c _)) by done.
      cbn [orb]. rewrite Hv. unfold JSON_VAL_MAX. rewrite (proj2 (Z.ltb_ge _ _)) by lia.
      unfold put_val, mbind, M_bind. rewrite Hv. unfold JSON_VAL_MAX. by rewrite (proj2 (Z.leb_le _ _)) by lia.
    + replace (v ++ c :: w) with ((v ++ [c]) ++ w) by (by rewrite <- (assoc_L (++))).
      replace (k + (1 + length w))%nat with (S k + length w)%nat by lia.
      apply (IH (v ++ [c]) (set_valbuf (v ++ [c]) l)); [done|done|rewrite !length_app; simpl; lia|done|done].
Qed.

(** One character of a string, escaped if need be. *)
Lemma reaches_escape c v l k tm :
  slice text k (escape c) → c ≠ 0 → (length v <= 511)%nat → Z.of_nat (length v) <= vmaxlen l →
  state l = in_val_string → valbuf l = v →
  reaches (length (escape c)) l k tm (set_valbuf (v ++ [c]) l) (k + length (escape c)) tm.
Proof.
  intros Hs Hc0 Hlen Hmax Hst Hv.
  assert (Hput : ∀ l' s, valbuf l' = v → put_val (B := lbuf) c l' s = Ret (set_valbuf (v ++ [c]) l', s)).
  { intros l' s Hv'. unfold put_val. rewrite Hv'. unfold JSON_VAL_MAX. by rewrite (proj2 (Z.leb_le _ _)) by lia. }
  assert (Hback : set_state in_val_string (set_valbuf (v ++ [c]) (set_state in_escape l)) = set_valbuf (v ++ [c]) l)
    by (destruct l; simpl in *; by subst).
  assert (Hesc : ∀ e, slice text k [92; e] → e ≠ 0 →
    (∀ s, st_in_escape list_buffer u0 (set_state in_escape l) e s =
      (l ← put_val (B := lbuf) c (set_state in_escape l); mret (Go (set_state in_val_string l))) s) →
    reaches 2 l k tm (set_valbuf (v ++ [c]) l) (k + 2) tm).
  { intros e [H1 [H2 _]%slice_cons]%slice_cons He Hrun. replace (k + 2)%nat with (S (S k)) by lia.
    eapply (reaches_trans 1 1).
    - eapply (reaches_pure 92 _ _ _ (set_state in_escape l)); [done|done|]. intros s. unfold obj_step. by rewrite Hst.
    - eapply (reaches_pure e); [done|done|]. intros s. unfold obj_step. cbn [state set_state].
      rewrite Hrun. unfold mbind, M_bind. rewrite Hput by done. unfold mret, M_ret. by rewrite Hback. }
  unfold escape in *. destruct ((c =? 34) || (c =? 47) || (c =? 92)) eqn:E1.
  { apply (Hesc c); [done|done|]. intros s. unfold st_in_escape.
    apply orb_true_iff in E1 as [[E1|E1]%orb_true_iff|E1]; apply Z.eqb_eq in E1; subst c; done. }
  destruct (Z.eqb_spec c 9) as [->|N9]; [by apply (Hesc 116)|].
  destruct (Z.eqb_spec c 13) as [->|N13]; [by apply (Hesc 114)|].
  destruct (Z.eqb_spec c 10) as [->|N10]; [by apply (Hesc 110)|].
  destruct (Z.eqb_spec c 12) as [->|N12]; [by apply (Hesc 102)|].
  destruct (Z.eqb_spec c 8) as [->|N8]; [by apply (Hesc 98)|].
  apply slice_cons in Hs as [Hk _]. cbn [length]. rewrite Nat.add_1_r.
  apply orb_false_iff in E1 as [[E34 E47]%orb_false_iff E92].
  eapply (reaches_pure c); [done|done|]. intros s. unfold obj_step. rewrite Hst. unfold st_in_val_string.
  rewrite E92, E34, Hv. unfold JSON_VAL_MAX. rewrite !(proj2 (Z.ltb_ge _ _)) by lia. cbn [orb].
  unfold mbind, M_bind. by rewrite Hput.
Qed.

Lemma reaches_string s : ∀ v l k tm,
  slice text k (s ≫= escape) → Forall (λ c, c ≠ 0) s →
  (length (v ++ s) <= 512)%nat → Z.of_nat (length (v ++ s)) <= vmaxlen l + 1 →
  state l = in_val_string → valbuf l = v →
  reaches (length (s ≫= escape)) l k tm (set_valbuf (v ++ s) l) (k + length (s ≫= escape)) tm.
Proof.
  induction s as [|c s IH]; intros v l k tm Hs Hc Hlen Hmax Hst Hv.
  - rewrite app_nil_r, Nat.add_0_r. destruct l; simpl in *; subst. apply reaches_refl.
  - cbn [mbind list_bind] in Hs |- *. apply slice_app in Hs as [Hs1 Hs]. apply Forall_cons in Hc as [Hc0 Hc].
    rewrite length_app in Hlen, Hmax. cbn [length] in Hlen, Hmax. rewrite length_app. eapply reaches_trans.
    + apply (reaches_escape c v); [done|done|lia|lia|done|done].
    + replace (v ++ c :: s) with ((v ++ [c]) ++ s) by (by rewrite <- (assoc_L (++))).
      rewrite Nat.add_assoc. change (set_valbuf ((v ++ [c]) ++ s) l) with
        (set_valbuf ((v ++ [c]) ++ s) (set_valbuf (v ++ [c]) l)).
      apply (IH (v ++ [c])); [done|done|rewrite !length_app; simpl; lia..|done|done].
Qed.

(** *** Complete values *)

Definition plain (c : Z) : Prop := c = 45 ∨ 48 <= c <= 57 ∨ 97 <= c <= 122.

Lemma plain_spec c : plain c →
  c ≠ 0 ∧ isspace c = false ∧ c ≠ 34 ∧ c ≠ 44 ∧ c ≠ 58 ∧ c ≠ 91 ∧ c ≠ 125.
Proof.
  unfold plain, isspace. intros Hc. split_and!; lia.
Qed.

(** The characters the parser collects for a value. *)
Definition value_chars (jv : json_value) : list Z :=
  match jv with JVString s => s | _ => value_text jv end.
Definition is_string (jv : json_value) : bool := match jv with JVString _ => true | _ => false end.

(** The attribute can hold the value. *)
Definition attr_fits (a : json_attr_t) (jv : json_value) : Prop :=
  map a = None ∧ addr a ≠ 0 ∧
  match jv with
  | JVBool _ => type a = t_boolean
  | JVUint _ => type a = t_uinteger
  | JVInt _ => type a = t_integer
  | JVString s => type a = t_string ∧ Forall (λ c, c ≠ 0) s ∧ Z.of_nat (length s) < len a ∧ (length s <= 512)%nat
  | _ => False
  end.

Lemma dec_plain w : Forall is_dec w → Forall plain w.
Proof. intros H. eapply Forall_impl; [exact H|]. unfold is_dec, plain. lia. Qed.

Lemma token_text a jv :
  attr_fits a jv → is_string jv = false →
  value_text jv ≠ [] ∧ Forall plain (value_text jv) ∧ (length (value_text jv) <= 11)%nat.
Proof.
  intros (_ & _ & Hf) Hs. destruct jv as [u|u|u|s|vs|es|ty]; try done; cbn [value_text].
  - destruct (0 <? u64 u); (split_and!; [done| |simpl; lia]); repeat constructor; unfold plain; lia.
  - destruct (format_u_text (u32 u)) as (H1 & H2 & H3 & _); [apply u32_bound|].
    split_and!; [done|by apply dec_plain|lia].
  - destruct (format_d_text (s32 u)) as (s & H1 & H2 & H3 & [(_ & -> & _)|(_ & -> & _)]); [apply s32_bound|..].
    + split_and!; [done| |simpl; lia]. constructor; [by left|by apply dec_plain].
    + split_and!; [done|by apply dec_plain|lia].
Qed.

Lemma cstr_nonzero s : Forall (λ c, c ≠ 0) s → cstr s = s.
Proof. induction 1 as [|c s Hc _ IH]; [done|]. simpl. by rewrite (proj2 (Z.eqb_neq _ _)), IH. Qed.
Lemma cstr_terminated s : Forall (λ c, c ≠ 0) s → cstr (s ++ [0]) = s.
Proof. induction 1 as [|c s Hc _ IH]; [done|]. simpl. by rewrite (proj2 (Z.eqb_neq _ _)), IH. Qed.

(** The value has been read and its text is in the buffer. *)
Record value_read (l : locals) (i : nat) (key : list Z) (jv : json_value) : Prop := {
  vr_state : state l = post_val;
  vr_attr : attrbuf l = key;
  vr_cursor : cursor l = i;
  vr_val : cstr (valbuf l) = value_chars jv;
  vr_quoted : value_quoted l = is_string jv;
}.

Lemma reaches_token_value a jv key i q mx k tm d :
  attr_fits a jv → is_string jv = false → attrs !! i = Some a →
  slice text k (value_text jv ++ [d]) → d = 44 ∨ d = 125 →
  ∃ l', reaches (S (length (value_text jv))) (mk_locals await_value key [] q i mx) k tm l' (k + length (value_text jv)) tm ∧
    value_read l' i key jv.
Proof.
  intros Hf Hstr Ha Hs Hd. destruct (token_text a jv Hf Hstr) as (Hne & Hp & Hlen).
  apply slice_app in Hs as [Hs [Hd1 _]%slice_cons].
  assert (Hval : value_chars jv = value_text jv) by (by destruct jv). 
  assert (Hta : type a ≠ t_array) by (destruct Hf as (_ & _ & Hf); destruct jv; try done; congruence).
  destruct (value_text jv) as [|c w] eqn:Hw; [done|]. apply slice_cons in Hs as [Hk Hs].
  apply Forall_cons in Hp as [Hc Hp]. destruct (plain_spec c Hc) as (N0 & Nsp & N34 & N44 & N58 & N91 & N125).
  exists (mk_locals post_val key (c :: w) false i mx). split.
  2:{ split; try done. rewrite Hval. apply cstr_nonzero.
      constructor; [done|]. eapply Forall_impl; [exact Hp|]. intros x Hx. by apply plain_spec in Hx as (? & _). }
  change (S (length (c :: w))) with (1 + (1 + length w))%nat. rewrite (Nat.add_comm 1 (length w)). eapply reaches_trans.
  { eapply (reaches_pure c _ _ _ (mk_locals in_val_token key [c] false i mx)); [done|done|]. intros s.
    unfold obj_step, st_await_value. cbn [state cursor]. rewrite Nsp, (proj2 (Z.eqb_neq c 58)) by done. cbn [orb].
    unfold mbind, M_bind. rewrite Ha. unfold from_option_fault, mret, M_ret at 1.
    rewrite (proj2 (Z.eqb_neq c 91)), bool_decide_false, (proj2 (Z.eqb_neq c 34)) by done. done. }
  eapply reaches_trans.
  { apply (reaches_token w [c]); try done; [|simpl in *; lia]. eapply Forall_impl; [exact Hp|].
    intros x Hx. apply plain_spec in Hx as (? & ? & _ & ? & _ & _ & ?). done. }
  cbn [app]. cbn [length] in Hd1 |- *. rewrite Nat.add_succ_r in Hd1 |- *. rewrite Nat.add_succ_l.
  eapply (reaches_step d); [done|by destruct Hd as [->| ->]|].
  unfold obj_step, st_in_val_token. cbn [state set_valbuf valbuf]. destruct Hd as [->| ->]; done.
Qed.

Lemma reaches_string_value a s key i q k tm :
  attr_fits a (JVString s) → attrs !! i = Some a → slice text k (value_text (JVString s)) →
  ∃ l', reaches (length (value_text (JVString s))) (mk_locals await_value key [] q i (len a - 1)) k tm
      l' (k + length (value_text (JVString s))) tm ∧
    value_read l' i key (JVString s).
Proof.
  intros (_ & _ & Hta & Hnz & Hlen & Hmax) Ha Hs. cbn [value_text] in *. unfold quoted in *.
  apply slice_cons in Hs as [H1 Hs]. apply slice_app in Hs as [Hs [H2 _]%slice_cons].
  exists (mk_locals post_val key (s ++ [0]) true i (len a - 1)). split.
  2:{ split; try done. by apply cstr_terminated. }
  replace (length (34 :: (s ≫= escape) ++ [34])) with (1 + (length (s ≫= escape) + 1))%nat
    by (cbn [length]; rewrite length_app; simpl; lia).
  eapply reaches_trans.
  { eapply (reaches_pure 34 _ _ _ (mk_locals in_val_string key [] true i (len a - 1))); [done|done|]. intros st.
    unfold obj_step, st_await_value. cbn [state cursor]. change (isspace 34 || (34 =? 58)) with false. cbn iota.
    unfold mbind, M_bind. rewrite Ha. unfold from_option_fault, mret, M_ret at 1. cbn [Z.eqb Pos.eqb].
    by rewrite bool_decide_false by congruence. }
  eapply reaches_trans; [apply (reaches_string s []); try done; cbn [app vmaxlen]; lia|].
  replace (k + (1 + (length (s ≫= escape) + 1)))%nat with (S (S k + length (s ≫= escape))) by lia.
  eapply (reaches_pure 34); [done|done|]. intros st. unfold obj_step, st_in_val_string.
  cbn [state set_valbuf valbuf app Z.eqb Pos.eqb]. unfold mbind, M_bind, put_val. cbn [valbuf set_valbuf app].
  unfold JSON_VAL_MAX. by rewrite (proj2 (Z.leb_le _ _)) by lia.
Qed.

(** *** Storing a value *)

Lemma seek_self i a f val q :
  NoDup (attribute <$> attrs) → attrs !! i = Some a → seek f attrs i (attribute a) val q = i.
Proof.
  intros Hnd Ha. destruct f as [|f]; [done|]. cbn [seek]. rewrite Ha. destruct (attrs !! S i) as [b|] eqn:Hb; [|done].
  destruct (type_fits a q val); [done|]. rewrite bool_decide_false; [done|]. intros Heq.
  assert (i = S i); [|lia]. apply (NoDup_lookup _ i (S i) (attribute a) Hnd).
  - by rewrite list_lookup_fmap, Ha.
  - rewrite list_lookup_fmap, Hb. cbn. by rewrite Heq.
Qed.

Lemma store_value_run a jv b tm :
  attr_fits a jv →
  store_value (B := lbuf) a None 0 (value_chars jv) (mk_jstate b tm) = Ret (None, mk_jstate b (stored a jv tm)).
Proof.
  intros (_ & Ha & Hf). unfold store_value.
  assert (Hp : json_target_address a None 0 = addr a).
  { unfold json_target_address. destruct jv; try done; try (rewrite Hf; lia). by destruct Hf as [-> _]. }
  rewrite Hp, (proj2 (Z.eqb_neq _ _)) by done. destruct jv as [u|u|u|s|vs|es|ty]; try done; cbn [value_chars stored].
  - rewrite Hf. cbn [value_text]. replace (bool_decide (0 < u64 u)) with (0 <? u64 u) by (case_bool_decide; lia).
    by destruct (0 <? u64 u).
  - rewrite Hf. cbn [value_text]. rewrite <- (app_nil_r (format_u _)), atoi_format_u; [done|apply u32_bound|done].
  - rewrite Hf. cbn [value_text]. rewrite <- (app_nil_r (format_d _)), atoi_format_d; [done|apply s32_bound|done].
  - destruct Hf as (-> & Hnz & Hlen & _). cbn [parallel]. unfold mbind, M_bind.
    by rewrite strncpy_pad, poke_chars_run by done.
Qed.

Lemma post_val_run a jv l i c b tm :
  NoDup (attribute <$> attrs) → attrs !! i = Some a → attr_fits a jv → value_read l i (attribute a) jv →
  obj_step list_buffer u0 ra attrs None 0 l c (mk_jstate b tm) =
    st_post_array list_buffer l c (mk_jstate b (stored a jv tm)).
Proof.
  intros Hnd Ha Hf [Hst Hat Hcu Hval Hq]. unfold obj_step. rewrite Hst. unfold st_post_val.
  rewrite Hat, Hcu, seek_self by done. rewrite Ha. unfold from_option_fault. unfold mbind at 1, M_bind at 1.
  unfold mret at 1, M_ret at 1. pose proof Hf as (Hm & _ & Hty). rewrite Hm, Hq, Hval.
  assert (Hl : set_valbuf (valbuf l) (set_cursor i l) = l) by (destruct l; simpl in *; by subst).
  assert (E1 : is_string jv && negb (bool_decide (type a = t_string ∨ type a = t_character ∨
    type a = t_check ∨ type a = t_ignore)) && negb false = false).
  { destruct jv; try done. rewrite bool_decide_true; [done|]. left. apply Hty. }
  assert (E2 : negb (is_string jv) && (bool_decide (type a = t_string ∨ type a = t_check) || false) = false).
  { destruct jv; try done; rewrite Hty; done. }
  rewrite E1, E2. unfold mbind, M_bind. by rewrite store_value_run, Hl.
Qed.

(** *** Entries *)

Definition entry_fits (e : json_attr_t * json_value) : Prop :=
  e.1 ∈ attrs ∧ Forall key_char (attribute e.1) ∧ (length (attribute e.1) <= 30)%nat ∧ attr_fits e.1 e.2.

Definition named (e : json_attr_t * json_value) : list Z * json_value := (attribute e.1, e.2).

Lemma reaches_entry a jv l k tm d :
  NoDup (attribute <$> attrs) → entry_fits (a, jv) → state l = await_attr →
  slice text k (entry_text (named (a, jv)) ++ [d]) → d = 44 ∨ d = 125 →
  ∃ n l' i, (n <= S (length (entry_text (named (a, jv)))))%nat ∧
    reaches n l k tm l' (k + length (entry_text (named (a, jv)))) tm ∧
    attrs !! i = Some a ∧ value_read l' i (attribute a) jv.
Proof.
  intros Hnd ((i & Ha)%list_elem_of_lookup & Hkc & Hkl & Hf) Hst Hs Hd. cbn [fst snd] in *.
  unfold entry_text, named in *. cbn [fst snd] in *. rewrite (assoc_L (++)) in Hs. rewrite (assoc_L (++)).
  set (pre := quoted (attribute a) ++ [58; 32]) in *.
  rewrite <- (assoc_L (++)) in Hs. apply slice_app in Hs as [Hpre Hs].
  pose proof (reaches_name (attribute a) i a l k tm Hpre Hkc Hkl Hst (find_attr_self attrs i a Hnd Ha) Ha) as Hname.
  fold pre in Hname. rewrite length_app, Nat.add_assoc. destruct (is_string jv) eqn:Hstr.
  - destruct jv as [| | |str| | |]; try done. apply slice_app in Hs as [Hs _].
    assert (Hmx : value_maxlen a (vmaxlen l) = len a - 1).
    { unfold value_maxlen. by destruct Hf as (_ & _ & -> & _). }
    rewrite Hmx in Hname. destruct (reaches_string_value a str (attribute a) i (value_quoted l) (k + length pre) tm Hf Ha Hs)
      as (l' & Hrun & Hread). eexists _, l', i. split_and!; [|by eapply reaches_trans|done|done]. lia.
  - destruct (reaches_token_value a jv (attribute a) i (value_quoted l) (value_maxlen a (vmaxlen l)) (k + length pre) tm d
      Hf Hstr Ha Hs Hd) as (l' & Hrun & Hread).
    eexists _, l', i. split_and!; [|by eapply reaches_trans|done|done]. lia.
Qed.

Lemma await_comma a jv l i k tm :
  NoDup (attribute <$> attrs) → attrs !! i = Some a → attr_fits a jv → value_read l i (attribute a) jv →
  text !! k = Some 44 → reaches 1 l k tm (set_state await_attr l) (S k) (stored a jv tm).
Proof. intros Hnd Ha Hf Hr Hk. eapply reaches_step; [done|done|]. by erewrite post_val_run by done. Qed.

(** The end of the object, which is the end of the text. *)
Lemma finish_object a jv l i k tm f :
  NoDup (attribute <$> attrs) → attrs !! i = Some a → attr_fits a jv → value_read l i (attribute a) jv →
  text !! k = Some 125 → text !! S k = None →
  run (S f) l k tm = Ret (0, mk_jstate (mk_lbuf text (S k)) (stored a jv tm)).
Proof.
  intros Hnd Ha Hf Hr Hk Hend. unfold run. cbn [obj_loop]. unfold mbind at 1, M_bind at 1, read_next.
  cbn [jb_read_next list_buffer jbuf]. unfold lbuf_next at 1. cbn [lb_text lb_off]. rewrite Hk. cbn [tmem Z.eqb].
  unfold mbind at 1, M_bind at 1. erewrite post_val_run by done. unfold st_post_array.
  change (isspace 125) with false. cbn iota. cbn [Z.eqb Pos.eqb].
  unfold mbind, M_bind, read_next, mret, M_ret. cbn [jb_read_next list_buffer jbuf tmem].
  unfold lbuf_next. cbn [lb_text lb_off]. rewrite Hend. cbn [skip_ws].
  unfold mbind, M_bind, read_next. cbn [jb_read_next list_buffer jbuf tmem]. unfold lbuf_next. cbn [lb_text lb_off].
  by rewrite Hend.
Qed.

Definition entries_text (e : json_attr_t * json_value) (es : list (json_attr_t * json_value)) : list Z :=
  entry_text (named e) ++ (es ≫= λ e, 44 :: entry_text (named e)) ++ [125].

Lemma run_entries es : ∀ e l k tm,
  NoDup (attribute <$> attrs) → Forall entry_fits (e :: es) → state l = await_attr →
  slice text k (entries_text e es) → length text = (k + length (entries_text e es))%nat →
  ∃ n, (n <= 2 * length (entries_text e es))%nat ∧ ∀ f,
    run (n + f) l k tm =
      Ret (0, mk_jstate (mk_lbuf text (length text)) (foldl (λ tm e, stored e.1 e.2 tm) tm (e :: es))).
Proof.
  induction es as [|e' es IH]; intros [a jv] l k tm Hnd Hfit Hst Hs Hlen; apply Forall_cons in Hfit as [He Hes].
  - unfold entries_text in *. cbn [mbind list_bind app] in *.
    destruct (reaches_entry a jv l k tm 125) as (n & l' & i & Hn & Hrun & Ha & Hr); [done..|by right|].
    apply slice_app in Hs as [_ [Hd _]%slice_cons]. rewrite length_app in Hlen |- *. cbn [length] in Hlen |- *.
    exists (n + 1)%nat. split; [lia|]. intros f. rewrite <- Nat.add_assoc, Hrun. cbn [Nat.add].
    destruct He as (_ & _ & _ & Hf). erewrite (finish_object a jv) by (done || apply lookup_ge_None; lia).
    by replace (S (k + length (entry_text (named (a, jv))))) with (length text) by lia.
  - unfold entries_text in Hs, Hlen |- *. cbn [mbind list_bind] in Hs, Hlen |- *.
    change (((44 :: entry_text (named e')) ++ (es ≫= λ e, 44 :: entry_text (named e))) ++ [125]) with
      (44 :: (entry_text (named e') ++ (es ≫= λ e, 44 :: entry_text (named e))) ++ [125]) in *.
    rewrite <- (assoc_L (++)) in Hs, Hlen |- *. fold (entries_text e' es) in Hs, Hlen |- *.
    change (44 :: entries_text e' es) with ([44] ++ entries_text e' es) in *.
    rewrite (assoc_L (++)) in Hs, Hlen |- *. apply slice_app in Hs as [Hs Hs'].
    rewrite (length_app _ [44]) in Hs'. rewrite length_app, (length_app _ [44]) in Hlen |- *. cbn [length] in Hlen, Hs' |- *.
    destruct (reaches_entry a jv l k tm 44) as (n & l' & i & Hn & Hrun & Ha & Hr); [done..|by left|].
    apply slice_app in Hs as [_ [Hd _]%slice_cons]. pose proof He as (_ & _ & _ & Hf).
    pose proof (reaches_trans _ _ _ _ _ _ _ _ _ _ _ Hrun (await_comma a jv l' i _ tm Hnd Ha Hf Hr Hd)) as Hrun'.
    destruct (IH e' (set_state await_attr l') (S (k + length (entry_text (named (a, jv))))) (stored a jv tm))
      as (n' & Hn' & Hfin); [done|done|done|by replace (S _) with (k + (length (entry_text (named (a, jv))) + 1))%nat by lia|lia|].
    exists (n + 1 + n')%nat. split; [lia|]. intros f. by rewrite <- Nat.add_assoc, Hrun', Hfin.
Qed.
End run.

Lemma attr_fits_flat a jv : attr_fits a jv → flat jv.
Proof. intros (_ & _ & Hf). destruct jv; try done; constructor. Qed.

(** C14. What the encoder writes for an object, the decoder reads: the text of the
    entries is parsed to its end with result 0, and the memory then holds the default
    of every attribute of the template, overwritten in order by the value of each
    entry: booleans, signed and unsigned 32-bit integers and strings, whose special
    characters are escaped and unescaped. *)
Theorem json_roundtrip attrs entries tm :
  NoDup (attribute <$> attrs) → Forall (entry_fits attrs) entries →
  ∃ text,
    encode_object append_write (named <$> entries) (mk_encoder [] false) = Ret (0, mk_encoder text true) ∧
    decode_text attrs text tm =
      Ret (0, mk_jstate (mk_lbuf text (length text))
                (foldl (λ tm e, stored e.1 e.2 tm) (foldl (λ tm a, default_stored a tm) tm attrs) entries)).
Proof.
  intros Hnd Hfit. exists (object_text (named <$> entries)). split.
  { rewrite encode_object_run; [done|]. apply Forall_fmap. eapply Forall_impl; [exact Hfit|].
    intros e (_ & _ & _ & Hf). by eapply attr_fits_flat. }
  unfold decode_text, json_read_object. cbn [json_internal_read_object]. unfold mbind, M_bind.
  rewrite store_defaults_run. generalize (foldl (λ tm a, default_stored a tm) tm attrs). clear tm. intros tm.
  set (text := object_text (named <$> entries)). set (ra := json_read_array list_buffer 0 7 (S (2 * length text))).
  change (run ra 0 attrs text (S (2 * length text)) locals0 0 tm =
    Ret (0, mk_jstate (mk_lbuf text (length text)) (foldl (λ tm e, stored e.1 e.2 tm) tm entries))).
  assert (Hstart : reaches ra 0 attrs text 1 locals0 0 tm (set_state await_attr locals0) 1 tm)
    by (by eapply (reaches_pure ra 0 attrs text 123)).
  destruct entries as [|e es]; [by vm_compute|].
  assert (Htext : text = [123] ++ entries_text e es).
  { unfold text, object_text, entries_text. f_equal. cbn [fmap list_fmap sep]. rewrite <- (assoc_L (++)). do 2 f_equal.
    clear. induction es as [|e es IH]; [done|]. cbn [fmap list_fmap mbind list_bind]. by rewrite IH. }
  assert (Hlen : length text = (1 + length (entries_text e es))%nat) by (by rewrite Htext).
  destruct (run_entries ra 0 attrs text es e (set_state await_attr locals0) 1 tm) as (n & Hn & Hrun); try done.
  { pose proof (slice_self text) as Hs. rewrite Htext in Hs at 2. by apply slice_app in Hs as [_ Hs]. }
  replace (S (2 * length text)) with (1 + (n + (2 * length text - n)))%nat by lia. by rewrite Hstart, Hrun.
Qed.

Definition attr_n : json_attr_t := mk_attr [110] t_integer 100 None 7 [] 0 None false.
Definition attr_s : json_attr_t := mk_attr [115] t_string 200 None 0 [] 8 None false.
Definition attr_b : json_attr_t := mk_attr [98] t_boolean 300 None 1 [] 0 None false.

Lemma json_roundtrip_witness : ∃ text,
  encode_object append_write (named <$> [(attr_s, JVString [97; 34; 10]); (attr_n, JVInt (-5))]) (mk_encoder [] false) =
    Ret (0, mk_encoder text true) ∧
  decode_text [attr_n; attr_s; attr_b] text ∅ =
    Ret (0, mk_jstate (mk_lbuf text (length text))
      (foldl (λ tm e, stored e.1 e.2 tm) (foldl (λ tm a, default_stored a tm) ∅ [attr_n; attr_s; attr_b])
         [(attr_s, JVString [97; 34; 10]); (attr_n, JVInt (-5))])).
Proof.
  apply (json_roundtrip [attr_n; attr_s; attr_b] [(attr_s, JVString [97; 34; 10]); (attr_n, JVInt (-5))] ∅).
  - cbn. apply (bool_decide_unpack _). by vm_compute.
  - repeat (apply Forall_cons; split); [split_and!..|by apply Forall_nil].
    all: try (apply (bool_decide_unpack _); by vm_compute).
    all: try (cbn; lia).
    all: try (repeat constructor; cbn; lia).
Defined.

(** ** Every input is handled *)

Section returns.
Context (ra : json_array_t → M (jstate lbuf) Z) (attrs : list json_attr_t) (text : list Z).
Context (no_arrays : Forall (λ a, type a ≠ t_array) attrs).

(** [m] returns, and the position it leaves satisfies [Q], or [valbuf] overflows, which
    takes a backslash. *)
Definition settles {A} (m : M (jstate lbuf) A) (Q : A → nat → Prop) (k : nat) : Prop :=
  ∀ tm, match m (mk_jstate (mk_lbuf text k) tm) with
        | Ret (a, s) => lb_text (jbuf s) = text ∧ Q a (lb_off (jbuf s))
        | Fault f => f = FNull ∧ 92 ∈ text
        end.

Lemma settles_ret {A} (a : A) (Q : A → nat → Prop) k : Q a k → settles (mret a) Q k.
Proof. by intros H tm. Qed.

Lemma settles_bind {A A'} (m : M (jstate lbuf) A) (g : A → M (jstate lbuf) A') Q k :
  settles m (λ a, settles (g a) Q) k → settles (m ≫= g) Q k.
Proof.
  intros H tm. specialize (H tm). unfold mbind, M_bind. destruct (m _) as [[a [[t' k'] tm']]|f]; [|done].
  destruct H as [Ht H]. cbn in Ht, H. subst t'. apply H.
Qed.

Lemma settles_mono {A} (m : M (jstate lbuf) A) (Q Q' : A → nat → Prop) k :
  settles m Q k → (∀ a k, Q a k → Q' a k) → settles m Q' k.
Proof. intros H HQ tm. specialize (H tm). destruct (m _) as [[a s]|f]; [|done]. destruct H. auto. Qed.

Lemma settles_next (Q : Z → nat → Prop) k :
  (∀ c, text !! k = Some c → Q c (S k)) → (text !! k = None → Q 0 k) → settles (read_next list_buffer) Q k.
Proof.
  intros H1 H2 tm. unfold read_next. cbn [jb_read_next list_buffer jbuf]. unfold lbuf_next. cbn [lb_text lb_off].
  destruct (text !! k) eqn:E; cbn; auto.
Qed.

Lemma settles_prev (Q : Z → nat → Prop) k : (∀ c, Q c (pred k)) → settles (read_prev list_buffer) Q k.
Proof.
  intros H tm. unfold read_prev. cbn [jb_read_prev list_buffer jbuf]. unfold lbuf_prev. cbn [lb_text lb_off].
  destruct k; cbn; split; try done; apply H.
Qed.

Lemma settles_poke p v (Q : unit → nat → Prop) k : Q tt k → settles (poke p v) Q k.
Proof. by intros H tm. Qed.

Lemma settles_poke_chars s : ∀ p (Q : unit → nat → Prop) k, Q tt k → settles (poke_chars p s) Q k.
Proof.
  induction s as [|c s IH]; intros p Q k H; [by apply settles_ret|]. cbn [poke_chars].
  apply settles_bind, settles_poke. by apply IH.
Qed.

Lemma settles_skip_ws (Q : Z → nat → Prop) f : ∀ k,
  (length text - k < f)%nat → (∀ c k', Q c k') → settles (skip_ws list_buffer f) Q k.
Proof.
  induction f as [|f IH]; intros k Hf HQ; [lia|]. cbn [skip_ws]. apply settles_bind, settles_next.
  - intros c Hc. apply lookup_lt_Some in Hc. destruct (isspace c); [apply IH; [lia|done]|by apply settles_ret].
  - intros _. by apply settles_ret.
Qed.

(** The rounds that are left at most. *)
Definition rounds (l : locals) (k : nat) : nat :=
  2 * (length text - k) + match state l with in_val_token | in_escape => 1 | _ => 0 end.

Definition has_cursor (l : locals) : Prop :=
  match state l with
  | await_value | in_val_string | in_escape | in_val_token | post_val => (cursor l < length attrs)%nat
  | _ => True
  end.
Definition has_room (l : locals) : Prop :=
  match state l with
  | in_val_string | in_val_token => (length (valbuf l) <= 512)%nat
  | in_escape => False
  | _ => True
  end.

(** Before a round at position [k]. *)
Definition round_ok (l : locals) : Prop := has_cursor l ∧ (92 ∉ text → has_room l).

Definition round_done (l : locals) (k : nat) (r : next) (k' : nat) : Prop :=
  match r with
  | Go l' => round_ok l' ∧ (rounds l' k' < rounds l k)%nat
  | Good_parse => (k <= k')%nat
  | Return _ => True
  end.

Lemma settles_put_val c l (Q : locals → nat → Prop) k :
  (92 ∉ text → (length (valbuf l) <= 512)%nat) → Q (set_valbuf (valbuf l ++ [c]) l) k → settles (put_val c l) Q k.
Proof.
  intros Hr HQ tm. unfold put_val, JSON_VAL_MAX. destruct (Z.leb_spec (Z.of_nat (length (valbuf l))) 512); [done|].
  split; [done|]. destruct (decide (92 ∈ text)) as [|Hn]; [done|]. specialize (Hr Hn). lia.
Qed.

Lemma settles_store_value a val (Q : option Z → nat → Prop) k :
  (∀ r, Q r k) → settles (store_value a None 0 val) Q k.
Proof.
  intros HQ. unfold store_value. destruct (_ =? 0); [by apply settles_ret|].
  destruct (type a); cbn [parallel];
    repeat match goal with |- context [if ?b then _ else _] => destruct b end;
    try (apply settles_bind; first [apply settles_poke|apply settles_poke_chars]); by apply settles_ret.
Qed.

Lemma seek_lt f val q name : ∀ i, (i < length attrs)%nat → (seek f attrs i name val q < length attrs)%nat.
Proof.
  induction f as [|f IH]; intros i Hi; [done|]. cbn [seek]. destruct (attrs !! i) as [a|]; [|done].
  destruct (attrs !! S i) eqn:Hb; [|done]. destruct (type_fits a q val); [done|].
  destruct (negb _); [done|]. apply IH. by eapply lookup_lt_Some.
Qed.

(** A round that goes on in the state [l'] without moving the input. *)
Lemma settles_go l l' k :
  (k < length text)%nat → round_ok l' → settles (mret (Go l')) (round_done l k) (S k).
Proof. intros Hk Hl. apply settles_ret. split; [done|]. unfold rounds. destruct (state l'), (state l); lia. Qed.

Lemma settles_post_array l l' c k :
  (k < length text)%nat → state l' = post_val ∨ state l' = post_array → has_cursor l' →
  settles (st_post_array list_buffer l' c) (round_done l k) (S k).
Proof.
  intros Hk Hst Hc. assert (Hok : round_ok l') by (split; [done|]; unfold has_room; by destruct Hst as [-> | ->]).
  unfold st_post_array. destruct (isspace c); [by apply settles_go|].
  destruct (c =? 44); [by apply settles_go|]. destruct (c =? 125); [|by apply settles_ret].
  apply settles_bind, settles_next; intros; apply settles_ret; cbn; lia.
Qed.

Lemma settles_cursor {A} (l : locals) (g : json_attr_t → M (jstate lbuf) A) i Q k :
  (i < length attrs)%nat → (∀ a, attrs !! i = Some a → settles (g a) Q k) →
  settles (from_option_fault FNull (attrs !! i) ≫= g) Q k.
Proof.
  intros Hi Hg. apply settles_bind. destruct (attrs !! i) as [a|] eqn:Ha; [|apply lookup_ge_None in Ha; lia].
  apply settles_ret. by apply Hg.
Qed.

Lemma settles_post_val l c k :
  (k < length text)%nat → state l = post_val → round_ok l →
  settles (st_post_val list_buffer attrs None 0 l c) (round_done l k) (S k).
Proof.
  intros Hk Hst [Hc _]. unfold has_cursor in Hc. rewrite Hst in Hc. unfold st_post_val.
  set (i := seek _ _ _ _ _ _). assert (Hi : (i < length attrs)%nat) by (by apply seek_lt).
  apply settles_cursor; [done..|]. intros a Ha.
  repeat match goal with |- settles (if ?b then _ else _) _ _ => destruct b; [by apply settles_ret|] end.
  destruct (match map a with Some _ => _ | None => _ end) as [val|]; [|by apply settles_ret].
  apply settles_bind, settles_store_value. intros [rc|]; [by apply settles_ret|].
  apply settles_post_array; [done|by left|]. unfold has_cursor. cbn. by rewrite Hst.
Qed.

Lemma settles_await_value l c k :
  text !! k = Some c → state l = await_value → round_ok l →
  settles (st_await_value list_buffer ra attrs l c) (round_done l k) (S k).
Proof.
  intros Htk Hst Hok. pose proof Htk as Hk%lookup_lt_Some. pose proof Hok as [Hc _]. unfold has_cursor in Hc. rewrite Hst in Hc. unfold st_await_value.
  destruct (isspace c || (c =? 58)); [by apply settles_go|].
  apply settles_cursor; [done..|]. intros a Ha. pose proof (Forall_lookup_1 _ _ _ _ no_arrays Ha) as Hna.
  rewrite bool_decide_false by done. cbn [negb]. destruct (c =? 91); [by apply settles_ret|].
  destruct (c =? 34); (apply settles_go; [done|]); (split; [done|]); unfold has_room; cbn; lia.
Qed.

Lemma settles_in_val_string l c k :
  text !! k = Some c → state l = in_val_string → round_ok l →
  settles (st_in_val_string l c) (round_done l k) (S k).
Proof.
  intros Htk Hst [Hc Hr]. pose proof Htk as Hk%lookup_lt_Some. unfold has_cursor, has_room in Hc, Hr. rewrite Hst in Hc, Hr.
  unfold st_in_val_string. destruct (Z.eqb_spec c 92) as [->|Hn].
  { apply settles_go; [done|]. split; [done|]. intros Hb. destruct Hb. by eapply list_elem_of_lookup_2. }
  destruct (c =? 34). { apply settles_bind, settles_put_val; [done|]. by apply settles_go. }
  destruct (_ || _) eqn:E; [by apply settles_ret|]. apply settles_bind, settles_put_val; [done|].
  apply settles_go; [done|]. apply orb_false_iff in E as [E%Z.ltb_ge _]. unfold JSON_VAL_MAX in E.
  split; unfold has_cursor, has_room; cbn; rewrite Hst; [done|]. rewrite length_app. cbn. lia.
Qed.

Lemma settles_in_val_token l c k :
  (k < length text)%nat → state l = in_val_token → round_ok l →
  settles (st_in_val_token list_buffer l c) (round_done l k) (S k).
Proof.
  intros Hk Hst [Hc Hr]. unfold has_cursor, has_room in Hc, Hr. rewrite Hst in Hc, Hr. unfold st_in_val_token.
  destruct (isspace c || (c =? 44) || (c =? 125)).
  - apply settles_bind. destruct ((c =? 125) || (c =? 44)).
    + apply settles_bind, settles_prev. intros _. do 2 apply settles_ret. split; [done|].
      unfold rounds. cbn. rewrite Hst. lia.
    + apply settles_ret. by apply settles_go.
  - destruct (_ <? _) eqn:E; [by apply settles_ret|]. apply settles_bind, settles_put_val; [done|].
    apply settles_go; [done|]. apply Z.ltb_ge in E. unfold JSON_VAL_MAX in E.
    split; unfold has_cursor, has_room; cbn; rewrite Hst; [done|]. rewrite length_app. cbn. lia.
Qed.

Lemma settles_uescape n : ∀ c acc k (Q : list Z → nat → Prop),
  (∀ acc k', (k <= k')%nat → Q acc k') → settles (uescape_loop list_buffer n c acc) Q k.
Proof.
  induction n as [|n IH]; intros c acc k Q HQ; cbn [uescape_loop]; [apply settles_ret; auto|].
  destruct (negb (c =? 0)); [|apply settles_ret; auto].
  apply settles_bind, settles_next; intros; apply IH; intros; apply HQ; lia.
Qed.

Lemma settles_in_escape l c k :
  (k < length text)%nat → state l = in_escape → round_ok l →
  settles (st_in_escape list_buffer 0 l c) (round_done l k) (S k).
Proof.
  intros Hk Hst [Hc Hr]. unfold has_cursor, has_room in Hc, Hr. rewrite Hst in Hc, Hr. unfold st_in_escape.
  assert (Hb : 92 ∈ text) by (destruct (decide (92 ∈ text)); [done|by destruct Hr]).
  assert (Hgo : ∀ v k', (k <= k')%nat →
    settles (put_val v l) (λ l', settles (mret (Go (set_state in_val_string l'))) (round_done l k)) k').
  { intros v k' Hk'. apply settles_put_val; [done|]. apply settles_ret. split; [|unfold rounds; cbn; rewrite Hst; lia].
    split; [done|by intros []]. }
  apply settles_bind.
  repeat match goal with |- settles (if ?b then _ else _) _ _ => destruct b; [try (apply Hgo; lia)|] end; [|apply Hgo; lia].
  apply settles_bind, settles_uescape. intros acc k' Hk'. apply settles_bind, settles_prev. intros _. apply Hgo. lia.
Qed.

Lemma settles_in_attr l c k :
  (k < length text)%nat → state l = in_attr → settles (st_in_attr attrs l c) (round_done l k) (S k).
Proof.
  intros Hk Hst. unfold st_in_attr. destruct (c =? 34).
  - destruct (find_attr attrs (attrbuf l) 0) as [i|] eqn:Hi; [|by apply settles_ret].
    assert (Hlt : (i < length attrs)%nat).
    { enough (H : ∀ j, find_attr attrs (attrbuf l) j = Some i → (i < j + length attrs)%nat) by apply (H 0%nat Hi).
      clear. induction attrs as [|a attrs' IH]; intros j Hj; [done|]. cbn [find_attr] in Hj. cbn [length].
      destruct (bool_decide _); [injection Hj as <-; lia|]. specialize (IH _ Hj). lia. }
    apply settles_cursor; [done..|]. intros a _. by apply settles_go.
  - destruct (_ <=? _); [by apply settles_ret|]. apply settles_go; [done|].
    split; unfold has_cursor, has_room; cbn; by rewrite Hst.
Qed.

Lemma settles_round l c k :
  text !! k = Some c → round_ok l →
  settles (obj_step list_buffer 0 ra attrs None 0 l c) (round_done l k) (S k).
Proof.
  intros Htk Hok. pose proof Htk as Hk%lookup_lt_Some. unfold obj_step. destruct (state l) eqn:Hst.
  - unfold st_init. destruct (isspace c); [by apply settles_go|]. destruct (c =? 123); [|by apply settles_ret].
    by apply settles_go.
  - unfold st_await_attr. destruct (isspace c); [by apply settles_go|].
    destruct (c =? 34); [by apply settles_go|]. destruct (c =? 125); [by apply settles_go|by apply settles_ret].
  - by apply settles_in_attr.
  - by apply settles_await_value.
  - by apply settles_in_val_string.
  - by apply settles_in_escape.
  - by apply settles_in_val_token.
  - by apply settles_post_val.
  - apply settles_post_array; [done|by right|]. unfold has_cursor. by rewrite Hst.
Qed.

Lemma settles_loop f : ∀ l k,
  round_ok l → (rounds l k < f)%nat →
  settles (obj_loop list_buffer 0 f ra attrs None 0 l) (λ _ _, True) k.
Proof.
  induction f as [|f IH]; intros l k Hok Hf; [lia|]. cbn [obj_loop].
  assert (Hskip : ∀ k', (k <= k')%nat → settles (skip_ws list_buffer (S f) ;; mret 0) (λ _ _, True) k').
  { intros k' Hk'. apply settles_bind, settles_skip_ws; [unfold rounds in Hf; lia|]. intros. by apply settles_ret. }
  apply settles_bind, settles_next.
  - intros c Hc. destruct (c =? 0); [apply Hskip; lia|]. apply settles_bind.
    eapply settles_mono; [by apply settles_round|]. intros [l'|rc|] k' Hr.
    + destruct Hr as [Hok' Hr]. apply IH; [done|lia].
    + by apply settles_ret.
    + by apply Hskip.
  - intros _. cbn [Z.eqb]. apply Hskip. lia.
Qed.
End returns.

(** C37. The decoder handles every input: for a template without arrays and any text it
    returns a result code after at most two rounds per character, unless [valbuf]
    overflows, which only an escape sequence can cause. *)
Theorem json_decode_returns attrs text tm :
  Forall (λ a, type a ≠ t_array) attrs →
  (∃ rc s, decode_text attrs text tm = Ret (rc, s)) ∨ (decode_text attrs text tm = Fault FNull ∧ 92 ∈ text).
Proof.
  intros Hna. unfold decode_text, json_read_object. cbn [json_internal_read_object]. unfold mbind, M_bind.
  rewrite store_defaults_run. set (ra := json_read_array list_buffer 0 7 (S (2 * length text))).
  pose proof (settles_loop ra attrs text Hna (S (2 * length text)) locals0 0) as H.
  specialize (H ltac:(by split) ltac:(unfold rounds; cbn; lia) (foldl (λ tm a, default_stored a tm) tm attrs)).
  fold ra. destruct (obj_loop _ _ _ _ _ _ _ _ _) as [[rc s]|f]; [left; by eexists _, _|].
  right. by destruct H as [-> H].
Qed.

Lemma json_decode_returns_witness :
  (∃ rc s, decode_text [attr_n; attr_s] [123; 34; 120] ∅ = Ret (rc, s)) ∨
  (decode_text [attr_n; attr_s] [123; 34; 120] ∅ = Fault FNull ∧ 92 ∈ [123; 34; 120]).
Proof. apply json_decode_returns. apply (bool_decide_unpack _). by vm_compute. Defined.

(** ** Where the decoder differs from what it means to do *)

(** The escape state appends to [valbuf] without the length check of the string state:
    a string of 514 escaped characters overruns the buffer, for an attribute of eight
    bytes. *)
Theorem json_escape_overflow :
  decode_text [attr_s] ([123] ++ quoted [115] ++ [58; 32] ++ quoted (replicate 514 10 ≫= escape) ++ [125]) ∅ = Fault FNull.
Proof. by vm_compute. Qed.

Definition arr_i : json_array_t := mk_array t_integer [] 0 0 0 400 0 500 4.
Definition attr_a : json_attr_t := mk_attr [97] t_array 0 (Some arr_i) 0 [] 0 None false.
Definition attr_e : json_attr_t := mk_attr [101] t_integer 100 None 0 [] 0 (Some [([120], 5)]) false.

(** An object with one attribute and the text of its value. *)
Definition one_text (key value : list Z) : list Z := [123] ++ quoted key ++ [58; 32] ++ value ++ [125].

Definition decoded (attrs : list json_attr_t) (text : list Z) (ps : list Z) : option (Z * list (option jcell)) :=
  match decode_text attrs text ∅ with
  | Ret (rc, s) => Some (rc, (λ p, tmem s !! p) <$> ps)
  | Fault _ => None
  end.

(** A \u escape of the letter A stores NUL: the digits start with the [u]. *)
Example json_unicode_escape :
  decoded [attr_s] (one_text [115] (quoted [92; 117; 48; 48; 52; 49])) [200; 201] =
    Some (0, [Some (CChar 0); Some (CChar 0)]).
Proof. by vm_compute. Qed.

(** A string as long as the destination is stored without a terminating NUL. *)
Example json_string_unterminated :
  decoded [attr_s] (one_text [115] (quoted (replicate 8 120))) [207; 208] = Some (0, [Some (CChar 120); None]).
Proof. by vm_compute. Qed.

(** Integer arrays: the number is read from behind its first digit, so an array of
    one-digit numbers is refused, and so is one of longer numbers, whose last digit is
    taken for the separator; with a space before the separators it is read as zeroes. *)
Example json_integer_array :
  decoded [attr_a] (one_text [97] [91; 49; 44; 50; 93]) [400; 404; 500] =
    Some (JSON_ERR_BADNUM, [Some (CInt 0); None; None]) ∧
  decoded [attr_a] (one_text [97] [91; 49; 50; 44; 51; 52; 93]) [400; 404; 500] =
    Some (JSON_ERR_BADSUBTRAIL, [Some (CInt 2); None; None]) ∧
  decoded [attr_a] (one_text [97] [91; 49; 32; 44; 50; 32; 93]) [400; 404; 500] =
    Some (0, [Some (CInt 0); Some (CInt 0); Some (CInt 2)]).
Proof. split_and!; by vm_compute. Qed.

(** An enumeration value followed by a space is refused: the number it was replaced by
    is looked up again. *)
Example json_enum_space :
  decoded [attr_e] (one_text [101] (quoted [120])) [100] = Some (0, [Some (CInt 5)]) ∧
  decoded [attr_e] (one_text [101] (quoted [120] ++ [32])) [100] = Some (JSON_ERR_BADENUM, [Some (CInt 5)]).
Proof. split; by vm_compute. Qed.
