(* ===== verification/HalFlash.v ===== *)
(** Flash access: hw/hal/src/hal_flash.c over the drivers of the board, and the driver
    of the simulator, hw/mcu/native/src/hal_flash.c.

    A driver is a [hal_flash_funcs] on a state [D], as the code has it as a table of
    function pointers; which device has which number is the parameter [bsp_flash_dev].
    The interface [FlashApi] is what the flash functions promise their clients for an
    area made of whole sectors; the boot loader is verified against it.

    The flash of the simulator is the memory the file is mapped to, a function from
    addresses to bytes; opening and mapping the file is not modelled. *)
From Stdlib Require Import ZArith Lia.
From stdpp Require Import base decidable numbers list.
From S2P Require Import Prelude.

#[local] Open Scope Z_scope.

(** ** The interface of a driver *)

Record hal_flash_funcs (D : Type) := mk_hff {
  hff_read : Z → Z → M D (Z * list Z);
  hff_write : Z → list Z → M D Z;
  hff_erase_sector : Z → M D Z;
  hff_sector_info : Z → M D (Z * (Z * Z));
  hff_init : M D Z;
}.
Arguments mk_hff {D}.
Arguments hff_read {D}.
Arguments hff_write {D}.
Arguments hff_erase_sector {D}.
Arguments hff_sector_info {D}.
Arguments hff_init {D}.

Record hal_flash (D : Type) := mk_hf {
  hf_itf : hal_flash_funcs D;
  hf_base_addr : Z;
  hf_size : Z;
  hf_sector_cnt : nat;
  hf_align : Z;
}.
Arguments mk_hf {D}.
Arguments hf_itf {D}.
Arguments hf_base_addr {D}.
Arguments hf_size {D}.
Arguments hf_sector_cnt {D}.
Arguments hf_align {D}.

(** ** The functions *)

Section hal.
Context {D : Type} (bsp_flash_dev : Z → option (hal_flash D)).

(** The loop over the devices; [i] has eight bits. *)
Fixpoint flash_init_loop (fuel : nat) (i rc : Z) : M D Z :=
  match fuel with
  | O => fault_with FFuel
  | S fuel =>
      match bsp_flash_dev i with
      | None => mret rc
      | Some hf =>
          r ← hff_init (hf_itf hf);
          flash_init_loop fuel (u8 (i + 1)) (if negb (r =? 0) then -1 else rc)
      end
  end.

Definition hal_flash_init : M D Z := flash_init_loop 256 0 0.

Definition hal_flash_align (flash_id : Z) : Z :=
  match bsp_flash_dev flash_id with
  | None => 1
  | Some hf => u8 (hf_align hf)
  end.

Definition hal_flash_sector_size (hf : hal_flash D) (sec_idx : Z) : M D Z :=
  r ← hff_sector_info (hf_itf hf) sec_idx;
  let '(rc, (_, size)) := r in
  mret (if negb (rc =? 0) then 0 else size).

Definition hal_flash_check_addr (hf : hal_flash D) (addr : Z) : Z :=
  if (addr <? hf_base_addr hf) || (u32 (hf_base_addr hf + hf_size hf) <? addr) then -1 else 0.

Definition hal_flash_read (id address num_bytes : Z) : M D (Z * list Z) :=
  match bsp_flash_dev id with
  | None => mret (-1, [])
  | Some hf =>
      if negb (hal_flash_check_addr hf address =? 0) ||
         negb (hal_flash_check_addr hf (u32 (address + num_bytes)) =? 0)
      then mret (-1, [])
      else hff_read (hf_itf hf) address num_bytes
  end.

Definition hal_flash_write (id address : Z) (src : list Z) : M D Z :=
  match bsp_flash_dev id with
  | None => mret (-1)
  | Some hf =>
      if negb (hal_flash_check_addr hf address =? 0) ||
         negb (hal_flash_check_addr hf (u32 (address + Z.of_nat (length src))) =? 0)
      then mret (-1)
      else hff_write (hf_itf hf) address src
  end.

Definition hal_flash_erase_sector (id sector_address : Z) : M D Z :=
  match bsp_flash_dev id with
  | None => mret (-1)
  | Some hf =>
      if negb (hal_flash_check_addr hf sector_address =? 0) then mret (-1)
      else hff_erase_sector (hf_itf hf) sector_address
  end.

(** The loop over the sectors from [i]; [n] of them are left. *)
Fixpoint erase_loop (hf : hal_flash D) (n : nat) (i address end_ : Z) : M D Z :=
  match n with
  | O => mret 0
  | S n =>
      r ← hff_sector_info (hf_itf hf) i;
      let '(rc, (start, size)) := r in
      assert_ (rc =? 0) ;;
      let end_area := u32 (start + size) in
      if (address <? end_area) && (start <? end_) then
        rc ← hff_erase_sector (hf_itf hf) start;
        if negb (rc =? 0) then mret (-1) else erase_loop hf n (i + 1) address end_
      else erase_loop hf n (i + 1) address end_
  end.

Definition hal_flash_erase (id address num_bytes : Z) : M D Z :=
  match bsp_flash_dev id with
  | None => mret (-1)
  | Some hf =>
      if negb (hal_flash_check_addr hf address =? 0) ||
         negb (hal_flash_check_addr hf (u32 (address + num_bytes)) =? 0)
      then mret (-1)
      else
        let end_ := u32 (address + num_bytes) in
        if end_ <=? address then mret (-1)
        else erase_loop hf (hf_sector_cnt hf) 0 address end_
  end.
End hal.

(** ** The simulated flash *)

Section native.
(** The table of sector addresses and the size of the device. *)
Context (native_flash_sectors : list Z) (native_size : Z).

Abbreviation F := (M (Z → Z)) (only parsing).

Definition mem_bytes (d : Z → Z) (a : Z) (n : nat) : list Z := (λ i, d (a + Z.of_nat i)) <$> seq 0 n.
Definition mem_store (a : Z) (l : list Z) (d : Z → Z) : Z → Z := λ x,
  if (a <=? x) && (x <? a + Z.of_nat (length l)) then default 0 (l !! Z.to_nat (x - a)) else d x.

Definition native_flash_read (address length : Z) : F (Z * list Z) :=
  gets (λ d, (0, mem_bytes d address (Z.to_nat length))).

Definition flash_native_erase (addr len : Z) : F unit :=
  modify (λ d x, if (addr <=? x) && (x <? addr + len) then 255 else d x).

(** The loop that ensures that no data is overwritten. *)
Fixpoint overwrite_loop (fuel : nat) (cur end_ : Z) : F unit :=
  if cur <? end_ then
    match fuel with
    | O => fault_with FFuel
    | S fuel =>
        let chunk_sz := if end_ - cur <? 256 then end_ - cur else 256 in
        r ← native_flash_read cur chunk_sz;
        assert_ (r.1 =? 0) ;;
        assert_ (forallb (λ b, b =? 255) r.2) ;;
        overwrite_loop fuel (u32 (cur + chunk_sz)) end_
    end
  else mret tt.

Definition flash_native_write_internal (address : Z) (src : list Z) (allow_overwrite : bool) : F Z :=
  if (length src =? 0)%nat then mret 0
  else
    let end_ := u32 (address + Z.of_nat (length src)) in
    (if allow_overwrite then mret tt else overwrite_loop (length src) address end_) ;;
    modify (mem_store address src) ;;
    mret 0.

Definition native_flash_write (address : Z) (src : list Z) : F Z :=
  assert_ (address mod 1 =? 0) ;;
  flash_native_write_internal address src false.

Fixpoint find_area_from (address : Z) (l : list Z) (i : Z) : Z :=
  match l with
  | [] => -1
  | s :: l => if s =? address then i else find_area_from address l (i + 1)
  end.
Definition find_area (address : Z) : Z := find_area_from address native_flash_sectors 0.

Definition sector_start (i : Z) : Z := default 0 (native_flash_sectors !! Z.to_nat i).
Definition FLASH_NUM_AREAS : Z := Z.of_nat (length native_flash_sectors).

Definition flash_sector_len (sector : Z) : Z :=
  let end_ := if sector =? FLASH_NUM_AREAS - 1 then u32 (native_size + sector_start 0)
              else sector_start (sector + 1) in
  u32 (end_ - sector_start sector).

Definition native_flash_erase_sector (sector_address : Z) : F Z :=
  let area_id := find_area sector_address in
  if area_id =? -1 then mret (-1)
  else flash_native_erase sector_address (flash_sector_len area_id) ;; mret 0.

Definition native_flash_sector_info (idx : Z) : F (Z * (Z * Z)) :=
  assert_ (idx <? FLASH_NUM_AREAS) ;;
  mret (0, (sector_start idx, flash_sector_len idx)).

Definition native_flash_init : F Z := mret 0.

Definition native_flash_funcs : hal_flash_funcs (Z → Z) :=
  mk_hff native_flash_read native_flash_write native_flash_erase_sector native_flash_sector_info native_flash_init.

Definition native_dev_of : hal_flash (Z → Z) :=
  mk_hf native_flash_funcs 0 native_size (length native_flash_sectors) 1.

(** The board of the simulator has one device. *)
Definition bsp_flash_dev (id : Z) : option (hal_flash (Z → Z)) :=
  if negb (id =? 0) then None else Some native_dev_of.
End native.

Definition native_flash_sectors : list Z :=
  [0x00000000; 0x00004000; 0x00008000; 0x0000c000; 0x00010000; 0x00020000;
   0x00040000; 0x00060000; 0x00080000; 0x000a0000; 0x000c0000; 0x000e0000].
Definition native_flash_dev : hal_flash (Z → Z) := native_dev_of native_flash_sectors (1024 * 1024).

(** ** What the flash functions promise

    [fl_byte d id x] is the byte at address [x] of device [id]; [fl_area id off len]
    says that the range is made of whole sectors of the device. *)
Class FlashApi (D : Type) := {
  fl_init : M D Z;
  fl_read : Z → Z → Z → M D (Z * list Z);
  fl_write : Z → Z → list Z → M D Z;
  fl_erase : Z → Z → Z → M D Z;
  fl_byte : D → Z → Z → Z;
  fl_area : Z → Z → Z → Prop;
  fl_init_ok d : ∃ d', fl_init d = Ret (0, d') ∧ ∀ j x, fl_byte d' j x = fl_byte d j x;
  fl_area_pos id off len : fl_area id off len → 0 <= off ∧ 0 < len ∧ off + len < 2 ^ 32;
  fl_read_ok id off len a n d :
    fl_area id off len → off <= a → 0 <= n → a + n <= off + len →
    fl_read id a n d = Ret ((0, (λ i, fl_byte d id (a + Z.of_nat i)) <$> seq 0 (Z.to_nat n)), d);
  fl_write_ok id off len a l d :
    fl_area id off len → off <= a → a + Z.of_nat (length l) <= off + len →
    (∀ x, a <= x < a + Z.of_nat (length l) → fl_byte d id x = 255) →
    ∃ d', fl_write id a l d = Ret (0, d') ∧
      ∀ j x, fl_byte d' j x = if decide (j = id ∧ a <= x < a + Z.of_nat (length l))
                              then default 0 (l !! Z.to_nat (x - a)) else fl_byte d j x;
  fl_erase_ok id off len d :
    fl_area id off len →
    ∃ d', fl_erase id off len d = Ret (0, d') ∧
      ∀ j x, fl_byte d' j x = if decide (j = id ∧ off <= x < off + len) then 255 else fl_byte d j x;
}.

(** What a driver promises: its sectors, and that it reads, writes erased bytes and
    erases sectors. *)
Class FlashDrivers {D : Type} (devs : Z → option (hal_flash D)) := {
  fd_byte : D → Z → Z → Z;
  fd_sect : Z → Z → Z * Z;
  fd_count : ∃ n : nat, (n < 256)%nat ∧ devs (Z.of_nat n) = None ∧ ∀ i : nat, (i < n)%nat → is_Some (devs (Z.of_nat i));
  fd_init_ok id hf d : devs id = Some hf →
    ∃ d', hff_init (hf_itf hf) d = Ret (0, d') ∧ ∀ j x, fd_byte d' j x = fd_byte d j x;
  fd_range id hf : devs id = Some hf → 0 <= hf_base_addr hf ∧ 0 <= hf_size hf ∧ hf_base_addr hf + hf_size hf < 2 ^ 32;
  fd_sect_ok id hf i d : devs id = Some hf → 0 <= i < Z.of_nat (hf_sector_cnt hf) →
    hff_sector_info (hf_itf hf) i d = Ret ((0, fd_sect id i), d) ∧
    0 <= (fd_sect id i).1 ∧ 0 <= (fd_sect id i).2 ∧ (fd_sect id i).1 + (fd_sect id i).2 < 2 ^ 32;
  fd_read_ok id hf a n d :
    devs id = Some hf → hf_base_addr hf <= a → 0 <= n → a + n <= hf_base_addr hf + hf_size hf →
    hff_read (hf_itf hf) a n d = Ret ((0, (λ i, fd_byte d id (a + Z.of_nat i)) <$> seq 0 (Z.to_nat n)), d);
  fd_write_ok id hf a l d :
    devs id = Some hf → hf_base_addr hf <= a → a + Z.of_nat (length l) <= hf_base_addr hf + hf_size hf →
    (∀ x, a <= x < a + Z.of_nat (length l) → fd_byte d id x = 255) →
    ∃ d', hff_write (hf_itf hf) a l d = Ret (0, d') ∧
      ∀ j x, fd_byte d' j x = if decide (j = id ∧ a <= x < a + Z.of_nat (length l))
                              then default 0 (l !! Z.to_nat (x - a)) else fd_byte d j x;
  fd_erase_ok id hf i d :
    devs id = Some hf → 0 <= i < Z.of_nat (hf_sector_cnt hf) →
    ∃ d', hff_erase_sector (hf_itf hf) (fd_sect id i).1 d = Ret (0, d') ∧
      ∀ j x, fd_byte d' j x = if decide (j = id ∧ (fd_sect id i).1 <= x < (fd_sect id i).1 + (fd_sect id i).2)
                              then 255 else fd_byte d j x;
}.

Section hal_api.
Context {D : Type} (devs : Z → option (hal_flash D)) `{FD : !FlashDrivers devs}.

Definition sect_overlaps (id i a b : Z) : Prop := a < (fd_sect id i).1 + (fd_sect id i).2 ∧ (fd_sect id i).1 < b.
#[export] Instance sect_overlaps_dec id i a b : Decision (sect_overlaps id i a b).
Proof. unfold sect_overlaps. apply _. Defined.

(** The range is inside the device and a union of sectors. *)
Record whole_sectors (id off len : Z) : Prop := {
  ws_dev : ∃ hf, devs id = Some hf ∧ hf_base_addr hf <= off ∧ 0 < len ∧ off + len <= hf_base_addr hf + hf_size hf ∧
    (∀ i, 0 <= i < Z.of_nat (hf_sector_cnt hf) → sect_overlaps id i off (off + len) →
       off <= (fd_sect id i).1 ∧ (fd_sect id i).1 + (fd_sect id i).2 <= off + len) ∧
    (∀ x, off <= x < off + len → ∃ i, 0 <= i < Z.of_nat (hf_sector_cnt hf) ∧
       (fd_sect id i).1 <= x < (fd_sect id i).1 + (fd_sect id i).2)
}.

Lemma check_addr_ok id hf a :
  devs id = Some hf → hf_base_addr hf <= a <= hf_base_addr hf + hf_size hf →
  u32 a = a ∧ hal_flash_check_addr hf a = 0.
Proof.
  intros Hd Ha. pose proof (fd_range id hf Hd). unfold hal_flash_check_addr, u32. rewrite !Z.mod_small by lia.
  by rewrite !(proj2 (Z.ltb_ge _ _)) by lia.
Qed.

(** The byte is in a sector, from number [i] on, that overlaps the range. *)
Definition in_erased (hf : hal_flash D) (id i a b x : Z) : Prop :=
  ∃ k, i <= k < Z.of_nat (hf_sector_cnt hf) ∧ sect_overlaps id k a b ∧
    (fd_sect id k).1 <= x < (fd_sect id k).1 + (fd_sect id k).2.

Lemma erase_loop_ok id hf n : ∀ i d a b,
  devs id = Some hf → 0 <= i → i + Z.of_nat n = Z.of_nat (hf_sector_cnt hf) →
  ∃ d', erase_loop hf n i a b d = Ret (0, d') ∧
    (∀ x, in_erased hf id i a b x ∨ fd_byte d id x = 255 → fd_byte d' id x = 255) ∧
    (∀ j x, ¬ (j = id ∧ in_erased hf id i a b x) → fd_byte d' j x = fd_byte d j x).
Proof.
  induction n as [|n IH]; intros i d a b Hd Hi Hn.
  { exists d. split; [done|]. split; [|done]. intros x [(k & Hk & _)|]; [lia|done]. }
  cbn [erase_loop]. destruct (fd_sect_ok id hf i d Hd) as (Hs & Hlo & Hsz & Hhi); [lia|].
  unfold mbind at 1, M_bind at 1. rewrite Hs. destruct (fd_sect id i) as [st sz] eqn:Hsect. cbn [fst snd] in *.
  cbn [assert_ Z.eqb]. unfold mbind at 1, M_bind at 1, mret at 1, M_ret at 1. unfold u32. rewrite Z.mod_small by lia.
  assert (Hov : (a <? st + sz) && (st <? b) = bool_decide (sect_overlaps id i a b)).
  { case_bool_decide as Hb; unfold sect_overlaps in Hb; rewrite Hsect in Hb; cbn in Hb; lia. }
  rewrite Hov. case_bool_decide as Hb.
  - destruct (fd_erase_ok id hf i d Hd) as (d1 & He & Hd1); [lia|]. rewrite Hsect in He, Hd1. cbn [fst snd] in He, Hd1.
    unfold mbind, M_bind. rewrite He. cbn [Z.eqb negb].
    destruct (IH (i + 1) d1 a b) as (d' & Hrun & H1 & H2); [done|lia|lia|]. exists d'. split; [done|]. split.
    + intros x Hx. apply H1. rewrite Hd1. case_decide as Hc; [by right|].
      destruct Hx as [(k & Hk & Hk1 & Hk2)|Hx]; [|by right]. left.
      assert (k ≠ i) by (intros ->; rewrite Hsect in Hk2; cbn in Hk2; apply Hc; split; [done|lia]).
      exists k. split; [lia|]. done.
    + intros j x Hx. rewrite H2, Hd1.
      * rewrite decide_False; [done|]. intros [-> Hxs]. apply Hx. split; [done|]. exists i.
        split; [lia|]. split; [done|]. by rewrite Hsect.
      * intros [-> (k & Hk & Hk1 & Hk2)]. apply Hx. split; [done|]. exists k. split; [lia|]. done.
  - destruct (IH (i + 1) d a b) as (d' & Hrun & H1 & H2); [done|lia|lia|]. exists d'. split; [done|]. split.
    + intros x Hx. apply H1. destruct Hx as [(k & Hk & Hk1 & Hk2)|Hx]; [|by right]. left.
      assert (k ≠ i) by (by intros ->). exists k. split; [lia|]. done.
    + intros j x Hx. apply H2. intros [-> (k & Hk & Hk1 & Hk2)]. apply Hx. split; [done|]. exists k. split; [lia|]. done.
Qed.

Lemma flash_init_ok d : ∃ d', hal_flash_init devs d = Ret (0, d') ∧ ∀ j x, fd_byte d' j x = fd_byte d j x.
Proof.
  destruct fd_count as (n & Hn & Hnone & Hsome). unfold hal_flash_init.
  enough (H : ∀ k f i d, (i + k = n)%nat → (k < f)%nat →
    ∃ d', flash_init_loop devs f (Z.of_nat i) 0 d = Ret (0, d') ∧ ∀ j x, fd_byte d' j x = fd_byte d j x)
    by (apply (H n 256%nat 0%nat); lia).
  clear d. induction k as [|k IH]; intros f i d Hi Hf; (destruct f as [|f]; [lia|]); cbn [flash_init_loop].
  - replace i with n by lia. rewrite Hnone. by exists d.
  - destruct (Hsome i) as [hf Hhf]; [lia|]. rewrite Hhf. destruct (fd_init_ok _ hf d Hhf) as (d1 & H1 & E1).
    unfold mbind, M_bind. rewrite H1. cbn [Z.eqb negb].
    replace (u8 (Z.of_nat i + 1)) with (Z.of_nat (S i)) by (unfold u8; rewrite Z.mod_small; lia).
    destruct (IH f (S i) d1) as (d2 & H2 & E2); [lia|lia|]. exists d2. split; [done|]. intros j x. by rewrite E2, E1.
Qed.

(** Reading, writing and erasing a range of whole sectors. *)
#[export] Program Instance hal_flash_api : FlashApi D := {|
  fl_init := hal_flash_init devs;
  fl_read := hal_flash_read devs;
  fl_write := hal_flash_write devs;
  fl_erase := hal_flash_erase devs;
  fl_byte := fd_byte;
  fl_area := whole_sectors;
|}.
Next Obligation. exact flash_init_ok. Qed.
Next Obligation.
  intros id off len [(hf & Hd & H1 & H2 & H3 & _)]. pose proof (fd_range id hf Hd). lia.
Qed.
Next Obligation.
  intros id off len a n d [(hf & Hd & H1 & H2 & H3 & _)] Ha Hn Hb. unfold hal_flash_read. rewrite Hd.
  pose proof (fd_range id hf Hd). destruct (check_addr_ok id hf (a + n) Hd) as [-> ->]; [lia|].
  destruct (check_addr_ok id hf a Hd) as [_ ->]; [lia|]. apply (fd_read_ok id hf); done || lia.
Qed.
Next Obligation.
  intros id off len a l d [(hf & Hd & H1 & H2 & H3 & _)] Ha Hb Her. unfold hal_flash_write. rewrite Hd.
  pose proof (fd_range id hf Hd). destruct (check_addr_ok id hf (a + Z.of_nat (length l)) Hd) as [-> ->]; [lia|].
  destruct (check_addr_ok id hf a Hd) as [_ ->]; [lia|]. apply (fd_write_ok id hf); done || lia.
Qed.
Next Obligation.
  intros id off len d [(hf & Hd & H1 & H2 & H3 & Hin & Hcov)]. unfold hal_flash_erase. rewrite Hd.
  pose proof (fd_range id hf Hd). destruct (check_addr_ok id hf (off + len) Hd) as [-> ->]; [lia|].
  destruct (check_addr_ok id hf off Hd) as [_ ->]; [lia|]. cbn [Z.eqb negb orb].
  rewrite (proj2 (Z.leb_gt _ _)) by lia.
  destruct (erase_loop_ok id hf (hf_sector_cnt hf) 0 d off (off + len)) as (d' & Hrun & E1 & E2); [done|lia|lia|].
  exists d'. split; [done|]. intros j x. case_decide as Hc.
  - destruct Hc as [-> Hx]. apply E1. left. destruct (Hcov x Hx) as (i & Hi & Hix). exists i.
    split; [lia|]. split; [|done]. unfold sect_overlaps. lia.
  - apply E2. intros [-> (k & Hk & Hov & Hkx)]. apply Hc. split; [done|]. specialize (Hin k ltac:(lia) Hov). lia.
Qed.
End hal_api.

(** ** The driver of the simulator keeps its promise *)

(** A table of ascending sector addresses, from 0 to below the size of the device. *)
Definition table_ok (table : list Z) (size : Z) : Prop :=
  0 < size < 2 ^ 32 ∧ table !! 0%nat = Some 0 ∧
  ∀ i s, table !! i = Some s → 0 <= s < default size (table !! S i) ∧ default size (table !! S i) <= size.

Section native_ok.
Context (table : list Z) (size : Z) (Htable : table_ok table size).

Lemma table_mono i j si sj :
  (i < j)%nat → table !! i = Some si → table !! j = Some sj → si < sj.
Proof.
  destruct Htable as (_ & _ & Ht). revert sj. induction j as [|j IH]; intros sj Hij Hi Hj; [lia|].
  destruct (decide (i = j)) as [->|Hne].
  - specialize (Ht _ _ Hi). rewrite Hj in Ht. cbn in Ht. lia.
  - destruct (lookup_lt_is_Some_2 table j) as [s Hs]; [apply lookup_lt_Some in Hj; lia|].
    specialize (IH s ltac:(lia) Hi Hs). specialize (Ht _ _ Hs). rewrite Hj in Ht. cbn in Ht. lia.
Qed.

Lemma sector_info_table i s :
  table !! i = Some s →
  sector_start table (Z.of_nat i) = s ∧ 0 <= s ∧ 0 < flash_sector_len table size (Z.of_nat i) ∧
  s + flash_sector_len table size (Z.of_nat i) = default size (table !! S i) ∧
  s + flash_sector_len table size (Z.of_nat i) <= size.
Proof.
  intros Hi. destruct Htable as (Hsz & H0 & Ht). specialize (Ht _ _ Hi). unfold flash_sector_len, FLASH_NUM_AREAS.
  assert (Hs : sector_start table (Z.of_nat i) = s) by (unfold sector_start; by rewrite Nat2Z.id, Hi). rewrite Hs.
  assert (Hend : (if Z.of_nat i =? Z.of_nat (length table) - 1 then u32 (size + sector_start table 0)
     else sector_start table (Z.of_nat i + 1)) = default size (table !! S i)).
  { pose proof (lookup_lt_Some _ _ _ Hi). destruct (Z.eqb_spec (Z.of_nat i) (Z.of_nat (length table) - 1)) as [He|He].
    - rewrite (lookup_ge_None_2 table (S i)) by lia. unfold sector_start. change (Z.to_nat 0) with 0%nat. rewrite H0. cbn.
      unfold u32. rewrite Z.mod_small; lia.
    - unfold sector_start. replace (Z.to_nat (Z.of_nat i + 1)) with (S i) by lia.
      destruct (lookup_lt_is_Some_2 table (S i)) as [s' Hs']; [lia|]. by rewrite Hs'. }
  rewrite Hend. unfold u32. rewrite Z.mod_small by lia. split_and!; lia.
Qed.

Lemma find_area_table i s : table !! i = Some s → find_area table s = Z.of_nat i.
Proof.
  intros Hi. unfold find_area. pose proof table_mono as Hm. clear Htable.
  enough (H : ∀ l j, (∀ m, (m < i)%nat → l !! m ≠ Some s) → l !! i = Some s → find_area_from s l j = j + Z.of_nat i)
    by (rewrite (H table 0); [lia|intros m Hmi Hms; specialize (Hm _ _ _ _ Hmi Hms Hi); lia|done]).
  clear Hi Hm. induction i as [|i IH]; intros l j Hne Hi; destruct l as [|x l]; try done; cbn [find_area_from].
  - injection Hi as ->. rewrite Z.eqb_refl. lia.
  - rewrite (proj2 (Z.eqb_neq x s)) by (intros ->; by apply (Hne 0%nat); [lia|]).
    rewrite IH; [lia| |done]. intros m Hm. apply (Hne (S m)). lia.
Qed.

Lemma mem_store_spec a l d x :
  mem_store a l d x = if decide (a <= x < a + Z.of_nat (length l)) then default 0 (l !! Z.to_nat (x - a)) else d x.
Proof.
  unfold mem_store. case_decide as Hc.
  - by rewrite (proj2 (Z.leb_le _ _)), (proj2 (Z.ltb_lt _ _)) by lia.
  - destruct (Z.leb_spec a x); [|done]. by rewrite (proj2 (Z.ltb_ge _ _)) by lia.
Qed.

Lemma overwrite_loop_ok f : ∀ cur e d,
  0 <= cur → e < 2 ^ 32 → e - cur <= Z.of_nat f → (∀ x, cur <= x < e → d x = 255) →
  overwrite_loop f cur e d = Ret (tt, d).
Proof.
  induction f as [|f IH]; intros cur e d Hc He Hf Hff; cbn [overwrite_loop].
  { by rewrite (proj2 (Z.ltb_ge _ _)) by lia. }
  destruct (Z.ltb_spec cur e); [|done].
  set (n := if e - cur <? 256 then e - cur else 256). assert (Hn : 0 < n <= e - cur) by (unfold n; destruct (Z.ltb_spec (e - cur) 256); lia).
  unfold mbind at 1, M_bind at 1, native_flash_read, gets. cbn [fst snd Z.eqb assert_].
  unfold mbind at 1, M_bind at 1, mret at 1, M_ret at 1.
  assert (Hall : forallb (λ b, b =? 255) (mem_bytes d cur (Z.to_nat n)) = true).
  { apply Is_true_true, forallb_True, Forall_fmap, Forall_forall.
    intros i Hi%elem_of_seq. cbn. by rewrite Hff by lia. }
  rewrite Hall. cbn [assert_]. unfold mbind, M_bind, mret, M_ret. unfold u32. rewrite Z.mod_small by lia.
  apply IH; [lia|lia|lia|]. intros x Hx. apply Hff. lia.
Qed.
End native_ok.

(** The driver over a table; [table_ok] is decided by evaluation for a given table. *)
#[export] Program Instance native_drivers (table : list Z) (size : Z) (Ht : table_ok table size) :
    FlashDrivers (bsp_flash_dev table size) := {|
  fd_byte := λ d id x, if decide (id = 0) then d x else 255;
  fd_sect := λ _ i, (sector_start table i, flash_sector_len table size i);
|}.
Next Obligation. intros table size Ht. exists 1%nat. split; [lia|]. split; [done|]. intros [|i] Hi; [by eexists|lia]. Qed.
Next Obligation.
  intros table size Ht id hf d Hd. unfold bsp_flash_dev in Hd. destruct (id =? 0); [|done]. injection Hd as <-. by exists d.
Qed.
Next Obligation.
  intros table size Ht id hf Hd. unfold bsp_flash_dev in Hd. destruct (id =? 0); [|done]. injection Hd as <-. cbn.
  destruct Ht. lia.
Qed.
Next Obligation.
  intros table size Ht id hf i d Hd Hi. unfold bsp_flash_dev in Hd. destruct (id =? 0); [|done]. injection Hd as <-.
  cbn in Hi |- *. destruct (lookup_lt_is_Some_2 table (Z.to_nat i)) as [s Hs]; [lia|].
  pose proof (sector_info_table table size Ht _ _ Hs) as (E & H1 & H2 & _ & H3). rewrite !Z2Nat.id in E, H2, H3 by lia.
  rewrite E. split; [|destruct Ht; lia]. unfold native_flash_sector_info, FLASH_NUM_AREAS.
  rewrite (proj2 (Z.ltb_lt _ _)) by lia. cbn. by rewrite E.
Qed.
Next Obligation.
  intros table size Ht id hf a n d Hd Ha Hn Hb. unfold bsp_flash_dev in Hd. destruct (Z.eqb_spec id 0) as [->|]; [|done].
  injection Hd as <-. done.
Qed.
Next Obligation.
  intros table size Ht id hf a l d Hd Ha Hb Hff. unfold bsp_flash_dev in Hd. destruct (Z.eqb_spec id 0) as [->|]; [|done].
  injection Hd as <-. cbn in *. destruct (decide (length l = 0%nat)) as [Hl|Hl].
  { apply nil_length_inv in Hl as ->. exists d. split; [unfold native_flash_write; by rewrite Z.mod_1_r|].
    intros j x. cbn [length]. by rewrite (decide_False (P := j = 0 ∧ _)) by lia. }
  exists (mem_store a l d). split.
  - unfold native_flash_write. rewrite Z.mod_1_r. cbn [Z.eqb assert_]. unfold mbind at 1, M_bind at 1, mret at 1, M_ret at 1.
    unfold flash_native_write_internal. rewrite (proj2 (Nat.eqb_neq _ _)) by done.
    unfold mbind at 1, M_bind at 1. destruct Ht as (? & _). rewrite overwrite_loop_ok; [done|lia| | |].
    + unfold u32. rewrite Z.mod_small; lia.
    + unfold u32. rewrite Z.mod_small; lia.
    + intros x Hx. unfold u32 in Hx. rewrite Z.mod_small in Hx by lia. by apply Hff.
  - intros j x. destruct (decide (j = 0)) as [->|]; [|by rewrite decide_False by naive_solver].
    rewrite mem_store_spec. repeat case_decide; done || naive_solver.
Qed.
Next Obligation.
  intros table size Ht id hf i d Hd Hi. unfold bsp_flash_dev in Hd. destruct (Z.eqb_spec id 0) as [->|]; [|done].
  injection Hd as <-. cbn in *. destruct (lookup_lt_is_Some_2 table (Z.to_nat i)) as [s Hs]; [lia|].
  pose proof (sector_info_table table size Ht _ _ Hs) as (E & _). rewrite !Z2Nat.id in E by lia.
  unfold native_flash_erase_sector. rewrite E, (find_area_table table size Ht _ _ Hs), Z2Nat.id by lia.
  rewrite (proj2 (Z.eqb_neq _ _)) by lia. eexists. split; [done|]. cbn. intros j x.
  destruct (decide (j = 0)) as [->|]; [|by rewrite decide_False by naive_solver].
  case_decide as Hc; destruct (Z.leb_spec s x), (Z.ltb_spec x (s + flash_sector_len table size i)); cbn; try done; lia.
Qed.

Lemma native_table_ok : table_ok native_flash_sectors (1024 * 1024).
Proof.
  split; [done|]. split; [done|]. intros i s Hi.
  do 12 (destruct i as [|i]; [by injection Hi as <-|]). done.
Qed.

(** Reading does not check the end of the range for wrap-around, as erasing does: the
    driver is asked for nearly four gigabytes. *)
Lemma flash_read_wraps d :
  hal_flash_read (bsp_flash_dev native_flash_sectors (1024 * 1024)) 0 16 4294967288 d =
    native_flash_read 16 4294967288 d.
Proof. reflexivity. Qed.

(** C26. For any drivers that keep their promise, data written to an erased range of whole
    sectors is read back, and nothing outside the range changes: erasing reaches exactly
    the sectors of the range. *)
Theorem hal_flash_erase_write_read {D : Type} (devs : Z → option (hal_flash D)) `{FD : !FlashDrivers devs} id off len a l d :
  whole_sectors devs id off len → off <= a → a + Z.of_nat (length l) <= off + len →
  ∃ d1 d2, hal_flash_erase devs id off len d = Ret (0, d1) ∧ hal_flash_write devs id a l d1 = Ret (0, d2) ∧
    hal_flash_read devs id a (Z.of_nat (length l)) d2 = Ret ((0, l), d2) ∧
    (∀ x, off <= x < off + len → ¬ (a <= x < a + Z.of_nat (length l)) → fd_byte d2 id x = 255) ∧
    (∀ j x, ¬ (j = id ∧ off <= x < off + len) → fd_byte d2 j x = fd_byte d j x).
Proof.
  intros Hw Ha Hl. destruct (@fl_erase_ok D (hal_flash_api devs) id off len d Hw) as (d1 & He & Ed1).
  destruct (@fl_write_ok D (hal_flash_api devs) id off len a l d1 Hw Ha Hl) as (d2 & Hwr & Ed2).
  { intros x Hx. rewrite Ed1. apply decide_True. lia. }
  change (@fl_byte D (hal_flash_api devs)) with fd_byte in Ed1, Ed2.
  exists d1, d2. split; [done|]. split; [done|]. split; [|split].
  - pose proof (@fl_read_ok D (hal_flash_api devs) id off len a (Z.of_nat (length l)) d2 Hw Ha ltac:(lia) Hl) as Hr.
    cbn [fl_read fl_byte hal_flash_api] in Hr. rewrite Hr. do 3 f_equal. apply list_eq. intros i.
    rewrite Nat2Z.id, list_lookup_fmap. destruct (decide (i < length l)%nat) as [Hi|Hi].
    + rewrite lookup_seq_lt by done. cbn [fmap option_fmap option_map]. rewrite Ed2, decide_True by lia.
      replace (Z.to_nat (a + Z.of_nat (0 + i) - a)) with i by lia.
      destruct (lookup_lt_is_Some_2 l i Hi) as [y Hy]. by rewrite Hy.
    + rewrite (lookup_ge_None_2 l), lookup_seq_ge by lia. done.
  - intros x Hx Hn. rewrite Ed2, decide_False, Ed1, decide_True by lia. done.
  - intros j x Hx. rewrite Ed2, decide_False, Ed1, decide_False; [done|done|]. lia.
Qed.

(** Evaluates the sectors in the goal. *)
Ltac eval_sect :=
  repeat match goal with
         | |- context [@fd_sect ?D ?devs ?I ?id ?k] =>
             let v := eval vm_compute in (@fd_sect D devs I id k) in
             change (@fd_sect D devs I id k) with v
         end; cbn [fst snd].

(** Sector 5 of the simulator is a range of one sector. *)
Lemma native_sector_5 :
  @whole_sectors _ (bsp_flash_dev native_flash_sectors (1024 * 1024)) (native_drivers _ _ native_table_ok) 0 0x20000 0x20000.
Proof.
  split. exists native_flash_dev. split; [done|]. cbn [hf_base_addr hf_size hf_sector_cnt native_flash_dev native_dev_of].
  split; [lia|]. split; [lia|]. split; [lia|]. change (length native_flash_sectors) with 12%nat. split.
  - intros i Hi. rewrite <- (Z2Nat.id i) by lia. assert (Hn : (Z.to_nat i < 12)%nat) by lia.
    generalize (Z.to_nat i) Hn. clear. intros i Hn. unfold sect_overlaps.
    do 12 (destruct i as [|i]; [eval_sect; lia|]). lia.
  - intros x Hx. exists 5. split; [lia|]. eval_sect. lia.
Qed.

Lemma hal_flash_erase_write_read_witness :
  ∃ d1 d2, hal_flash_erase (bsp_flash_dev native_flash_sectors (1024 * 1024)) 0 0x20000 0x20000 (λ _, 0) = Ret (0, d1) ∧
    hal_flash_write (bsp_flash_dev native_flash_sectors (1024 * 1024)) 0 0x20010 [1; 2; 3] d1 = Ret (0, d2) ∧
    hal_flash_read (bsp_flash_dev native_flash_sectors (1024 * 1024)) 0 0x20010 3 d2 = Ret ((0, [1; 2; 3]), d2).
Proof.
  destruct (hal_flash_erase_write_read (bsp_flash_dev native_flash_sectors (1024 * 1024))
    (FD := native_drivers _ _ native_table_ok) 0 0x20000 0x20000 0x20010 [1; 2; 3] (λ _, 0) native_sector_5) as (d1 & d2 & H1 & H2 & H3 & _);
    [lia|cbn; lia|]. by exists d1, d2.
Defined.
