(* ===== verification/Fs.v ===== *)
(** The file system interface: fs/fs/src/fs_file.c, fs_mkdir.c, fsutil.c and
    include/fs/fs_if.h.

    A file system is a table of functions, [fs_ops]; the functions of fs_file.c call
    the table of the registered file system.  The class [FsApi] is such a table on a
    state [F], the functions that mount it, and what the header documents of them: the
    contents of the files and the position of an open handle.  [0] is the NULL handle. *)
From Stdlib Require Import ZArith Lia.
From stdpp Require Import base decidable strings numbers list gmap.
From S2P Require Import Prelude.

#[local] Open Scope Z_scope.

Definition FS_ACCESS_READ : Z := 0x01.
Definition FS_ACCESS_WRITE : Z := 0x02.
Definition FS_ACCESS_TRUNCATE : Z := 0x08.
Definition FS_ENOENT : Z := 6.

(** ** The functions of a file system *)
Record fs_ops (F : Type) := mk_fs_ops {
  f_open : string → Z → M F (Z * Z);
  f_close : Z → M F Z;
  f_read : Z → Z → M F (Z * list Z);
  f_write : Z → list Z → M F Z;
  f_unlink : string → M F Z;
  f_mkdir : string → M F Z;
}.
Arguments mk_fs_ops {F}.
Arguments f_open {F}.
Arguments f_close {F}.
Arguments f_read {F}.
Arguments f_write {F}.
Arguments f_unlink {F}.
Arguments f_mkdir {F}.

Section fs.
(** The registered file system. *)
Context {F : Type} (fs_root_ops : fs_ops F).

Definition fs_open (filename : string) (access_flags : Z) : M F (Z * Z) := f_open fs_root_ops filename access_flags.
Definition fs_close (file : Z) : M F Z := f_close fs_root_ops file.
Definition fs_read (file len : Z) : M F (Z * list Z) := f_read fs_root_ops file len.
Definition fs_write (file : Z) (data : list Z) : M F Z := f_write fs_root_ops file data.
Definition fs_unlink (filename : string) : M F Z := f_unlink fs_root_ops filename.
Definition fs_mkdir (path : string) : M F Z := f_mkdir fs_root_ops path.

(** The result and the bytes read; the offset is not used. *)
Definition fsutil_read_file (path : string) (offset len : Z) : M F (Z * list Z) :=
  r ← fs_open path FS_ACCESS_READ;
  let '(rc, file) := r in
  res ← (if negb (rc =? 0) then mret (rc, []) else
           r ← fs_read file len;
           let '(rc, data) := r in
           if negb (rc =? 0) then mret (rc, data) else mret (0, data));
  fs_close file ;;
  mret res.

Definition fsutil_write_file (path : string) (data : list Z) : M F Z :=
  r ← fs_open path (Z.lor FS_ACCESS_WRITE FS_ACCESS_TRUNCATE);
  let '(rc, file) := r in
  rc ← (if negb (rc =? 0) then mret rc else
          rc ← fs_write file data;
          if negb (rc =? 0) then mret rc else mret 0);
  fs_close file ;;
  mret rc.
End fs.

(** ** What the header documents

    [fs_file f p] is the contents of the file [p], [fs_pos f h] the file and the position
    of the handle [h].  [f_init] and [f_detect] mount the file system. *)
Class FsApi (F : Type) := {
  f_ops : fs_ops F;
  f_init : M F Z;
  f_detect : M F Z;
  fs_file : F → string → option (list Z);
  fs_pos : F → Z → option (string * nat);
  f_init_ok f : ∃ f', f_init f = Ret (0, f') ∧ ∀ p, fs_file f' p = fs_file f p;
  f_detect_ok f : ∃ rc f', f_detect f = Ret (rc, f') ∧ ∀ p, fs_file f' p = fs_file f p;
  f_mkdir_ok p f : ∃ rc f', f_mkdir f_ops p f = Ret (rc, f') ∧ ∀ q, fs_file f' q = fs_file f q;
  f_open_read_ok p c f : fs_file f p = Some c →
    ∃ h f', f_open f_ops p FS_ACCESS_READ f = Ret ((0, h), f') ∧
      fs_pos f' h = Some (p, 0%nat) ∧ ∀ q, fs_file f' q = fs_file f q;
  f_open_read_none p f : fs_file f p = None →
    ∃ rc h f', f_open f_ops p FS_ACCESS_READ f = Ret ((rc, h), f') ∧ rc ≠ 0 ∧ ∀ q, fs_file f' q = fs_file f q;
  f_open_trunc_ok p f :
    ∃ h f', f_open f_ops p (Z.lor FS_ACCESS_WRITE FS_ACCESS_TRUNCATE) f = Ret ((0, h), f') ∧
      fs_pos f' h = Some (p, 0%nat) ∧ ∀ q, fs_file f' q = if decide (q = p) then Some [] else fs_file f q;
  f_read_ok h p i c n f : fs_pos f h = Some (p, i) → fs_file f p = Some c → 0 <= n →
    ∃ f', f_read f_ops h n f = Ret ((0, take (Z.to_nat n) (drop i c)), f') ∧
      fs_pos f' h = Some (p, i + length (take (Z.to_nat n) (drop i c)))%nat ∧
      ∀ q, fs_file f' q = fs_file f q;
  f_write_ok h p c l f : fs_pos f h = Some (p, length c) → fs_file f p = Some c →
    ∃ f', f_write f_ops h l f = Ret (0, f') ∧ fs_pos f' h = Some (p, length (c ++ l)) ∧
      ∀ q, fs_file f' q = if decide (q = p) then Some (c ++ l) else fs_file f q;
  f_close_ok h f : ∃ rc f', f_close f_ops h f = Ret (rc, f') ∧ ∀ q, fs_file f' q = fs_file f q;
  f_unlink_ok p f : ∃ rc f', f_unlink f_ops p f = Ret (rc, f') ∧
    ∀ q, fs_file f' q = if decide (q = p) then None else fs_file f q;
}.

Section fs_api.
Context {F : Type} `{FA : FsApi F}.

(** Files written are read back. *)
Lemma fsutil_read_ok p c n f :
  fs_file f p = Some c → 0 <= n →
  ∃ f', fsutil_read_file f_ops p 0 n f = Ret ((0, take (Z.to_nat n) c), f') ∧ ∀ q, fs_file f' q = fs_file f q.
Proof.
  intros Hc Hn. destruct (f_open_read_ok p c f Hc) as (h & f1 & H1 & Hp & E1).
  destruct (f_read_ok h p 0 c n f1) as (f2 & H2 & _ & E2); [done|by rewrite E1|done|].
  destruct (f_close_ok h f2) as (rc & f3 & H3 & E3). exists f3.
  unfold fsutil_read_file, fs_open, fs_read, fs_close, mbind, M_bind. rewrite H1. cbn [Z.eqb negb].
  rewrite H2. cbn [Z.eqb negb]. unfold mret, M_ret. rewrite H3. split; [done|]. intros q. by rewrite E3, E2, E1.
Qed.

Lemma fsutil_read_none p n f :
  fs_file f p = None →
  ∃ rc f', fsutil_read_file f_ops p 0 n f = Ret ((rc, []), f') ∧ rc ≠ 0 ∧ ∀ q, fs_file f' q = fs_file f q.
Proof.
  intros Hc. destruct (f_open_read_none p f Hc) as (rc & h & f1 & H1 & Hrc & E1).
  destruct (f_close_ok h f1) as (rc' & f3 & H3 & E3). exists rc, f3.
  unfold fsutil_read_file, fs_open, fs_read, fs_close, mbind, M_bind. rewrite H1.
  rewrite (proj2 (Z.eqb_neq _ _)) by done. cbn [negb]. unfold mret, M_ret. rewrite H3.
  split; [done|]. split; [done|]. intros q. by rewrite E3, E1.
Qed.
End fs_api.

(** ** A file system in memory

    The contents of the files and one open handle: it shows that the interface can be
    implemented, and the examples run on it. *)
Record memfs := mk_memfs { mf_files : gmap string (list Z); mf_handle : option (string * nat) }.

Definition memfs_open (p : string) (flags : Z) : M memfs (Z * Z) := λ f,
  if Z.testbit flags 3 then Ret ((0, 1), mk_memfs (<[p := []]> (mf_files f)) (Some (p, 0%nat)))
  else match mf_files f !! p with
       | Some _ => Ret ((0, 1), mk_memfs (mf_files f) (Some (p, 0%nat)))
       | None => Ret ((FS_ENOENT, 0), f)
       end.
Definition memfs_close (h : Z) : M memfs Z := λ f, Ret (0, mk_memfs (mf_files f) None).
Definition memfs_read (h n : Z) : M memfs (Z * list Z) := λ f,
  match mf_handle f with
  | Some (p, i) =>
      let l := take (Z.to_nat n) (drop i (default [] (mf_files f !! p))) in
      Ret ((0, l), mk_memfs (mf_files f) (Some (p, i + length l)%nat))
  | None => Ret ((FS_ENOENT, []), f)
  end.
Definition memfs_write (h : Z) (l : list Z) : M memfs Z := λ f,
  match mf_handle f with
  | Some (p, i) =>
      Ret (0, mk_memfs (<[p := take i (default [] (mf_files f !! p)) ++ l]> (mf_files f)) (Some (p, i + length l)%nat))
  | None => Ret (FS_ENOENT, f)
  end.
Definition memfs_unlink (p : string) : M memfs Z := λ f, Ret (0, mk_memfs (delete p (mf_files f)) (mf_handle f)).
Definition memfs_nop : M memfs Z := mret 0.

#[export] Program Instance memfs_api : FsApi memfs := {|
  f_ops := mk_fs_ops memfs_open memfs_close memfs_read memfs_write memfs_unlink (λ _, memfs_nop);
  f_init := memfs_nop;
  f_detect := memfs_nop;
  fs_file := λ f p, mf_files f !! p;
  fs_pos := λ f _, mf_handle f;
|}.
Next Obligation. intros f. by exists f. Qed.
Next Obligation. intros f. by exists 0, f. Qed.
Next Obligation. intros p f. by exists 0, f. Qed.
Next Obligation.
  intros p c f Hc. cbn in *. eexists 1, _. unfold memfs_open. cbn. rewrite Hc. by split.
Qed.
Next Obligation.
  intros p f Hc. cbn in *. unfold memfs_open. cbn. rewrite Hc. by eexists _, _, _.
Qed.
Next Obligation.
  intros p f. cbn. eexists 1, _. unfold memfs_open. cbn. split; [done|]. split; [done|].
  intros q. cbn. case_decide; [subst; by rewrite lookup_insert_eq|by rewrite lookup_insert_ne].
Qed.
Next Obligation.
  intros h p i c n f Hp Hc Hn. cbn in *. unfold memfs_read. rewrite Hp, Hc. cbn. by eexists.
Qed.
Next Obligation.
  intros h p c l f Hp Hc. cbn in *. unfold memfs_write. rewrite Hp, Hc. cbn. eexists. split; [done|]. cbn.
  rewrite length_app. split; [done|]. intros q. rewrite take_ge by done.
  case_decide; [subst; by rewrite lookup_insert_eq|by rewrite lookup_insert_ne].
Qed.
Next Obligation. intros h f. by eexists 0, _. Qed.
Next Obligation.
  intros p f. eexists 0, _. split; [done|]. intros q. cbn.
  case_decide; [subst; by rewrite lookup_delete_eq|by rewrite lookup_delete_ne].
Qed.
