(* ===== verification/Boot.v ===== *)
(** The boot loader: libs/bootutil/src/loader.c and bootutil_misc.c.

    The flash and the file system are the interfaces [FlashApi] and [FsApi].  A run of
    the loader ends with a result, with a failed assertion, or with a loss of power: the
    fuses of the state count the flash operations, and the operations on files, that are
    carried out before power is lost.  When it is lost during a flash operation the
    range the operation works on holds whatever [torn] leaves there.  The flash and the
    files survive, the variables of the loader do not.

    Structures in flash and in files are lists of bytes, little-endian as on the
    processors of the boards. *)
From Stdlib Require Import ZArith Lia.
From stdpp Require Import base decidable strings numbers list.
From S2P Require Import Prelude.
From S2P Require Import HalFlash.
From S2P Require Import Fs.

#[local] Open Scope Z_scope.

Definition BOOT_EFLASH : Z := 1.
Definition BOOT_EFILE : Z := 2.
Definition BOOT_EBADIMAGE : Z := 3.
Definition BOOT_EBADVECT : Z := 4.
Definition BOOT_EBADSTATUS : Z := 5.
Definition BOOT_ENOMEM : Z := 6.
Definition BOOT_IMAGE_NUM_NONE : Z := 0xff.
Definition BOOT_NUM_SLOTS : Z := 2.
Definition BOOT_PATH_MAIN : string := "/boot/main".
Definition BOOT_PATH_TEST : string := "/boot/test".
Definition BOOT_PATH_STATUS : string := "/boot/status".
Definition IMAGE_MAGIC : Z := 0x96f3b83c.
Definition IMAGE_MAGIC_NONE : Z := 0xffffffff.
Definition IMAGE_HEADER_SIZE : Z := 32.

(** ** Data *)

Definition le32 (l : list Z) : Z :=
  match l with
  | [a; b; c; d] => a + 256 * b + 65536 * c + 16777216 * d
  | _ => 0
  end.
Definition to_le32 (n : Z) : list Z := [n mod 256; n / 256 mod 256; n / 65536 mod 256; n / 16777216 mod 256].

(** [struct image_header], its 32 bytes; [ih_ver] are the bytes of the version. *)
Definition image_header : Type := list Z.
Definition ih_magic (h : image_header) : Z := le32 (take 4 h).
Definition ih_img_size (h : image_header) : Z := le32 (take 4 (drop 12 h)).
Definition ih_ver (h : image_header) : list Z := take 8 (drop 20 h).

Record nffs_area_desc := mk_desc { nad_offset : Z; nad_length : Z; nad_flash_id : Z }.

(** The terminating element of [br_area_descs] is in the list. *)
Record boot_req := mk_req {
  br_area_descs : list nffs_area_desc;
  br_image_areas : list Z;
  br_slot_areas : list Z;
  br_num_image_areas : nat;
  br_scratch_area_idx : Z;
}.

Record boot_rsp := mk_rsp { br_hdr : image_header; br_flash_id : Z; br_image_addr : Z }.

(** [struct boot_status_entry]: the image and the part. *)
Definition boot_status_entry : Type := Z * Z.
Definition entry_none : boot_status_entry := (BOOT_IMAGE_NUM_NONE, BOOT_IMAGE_NUM_NONE).

Section boot.
Context {D F : Type} `{FL : FlashApi D} `{FA : FsApi F}.
(** What a loss of power during an operation on a range of the flash leaves. *)
Context (torn : Z → Z → Z → D → D).
(** Whether the allocation of the entries succeeds. *)
Context (malloc_ok : bool).
Context (req : boot_req).

Record boot_state := mk_boot {
  flash : D;
  files : F;
  boot_img_hdrs : list image_header;
  bs_img1_length : Z;
  bs_img2_length : Z;
  boot_status_entries : list boot_status_entry;
  flash_fuse : option nat;
  file_fuse : option nat;
}.

Definition set_flash (v : D) (s : boot_state) : boot_state :=
  mk_boot v (files s) (boot_img_hdrs s) (bs_img1_length s) (bs_img2_length s) (boot_status_entries s) (flash_fuse s) (file_fuse s).
Definition set_files (v : F) (s : boot_state) : boot_state :=
  mk_boot (flash s) v (boot_img_hdrs s) (bs_img1_length s) (bs_img2_length s) (boot_status_entries s) (flash_fuse s) (file_fuse s).
Definition set_hdrs (v : list image_header) (s : boot_state) : boot_state :=
  mk_boot (flash s) (files s) v (bs_img1_length s) (bs_img2_length s) (boot_status_entries s) (flash_fuse s) (file_fuse s).
Definition set_lengths (l1 l2 : Z) (s : boot_state) : boot_state :=
  mk_boot (flash s) (files s) (boot_img_hdrs s) l1 l2 (boot_status_entries s) (flash_fuse s) (file_fuse s).
Definition set_entries (v : list boot_status_entry) (s : boot_state) : boot_state :=
  mk_boot (flash s) (files s) (boot_img_hdrs s) (bs_img1_length s) (bs_img2_length s) v (flash_fuse s) (file_fuse s).
Definition set_flash_fuse (v : option nat) (s : boot_state) : boot_state :=
  mk_boot (flash s) (files s) (boot_img_hdrs s) (bs_img1_length s) (bs_img2_length s) (boot_status_entries s) v (file_fuse s).
Definition set_file_fuse (v : option nat) (s : boot_state) : boot_state :=
  mk_boot (flash s) (files s) (boot_img_hdrs s) (bs_img1_length s) (bs_img2_length s) (boot_status_entries s) (flash_fuse s) v.

(** ** Runs *)

Inductive outcome (A : Type) :=
| Done (a : A) (s : boot_state)
| Power_loss (s : boot_state)
| Failed (f : fault).
#[local] Arguments Done {A}.
#[local] Arguments Power_loss {A}.
#[local] Arguments Failed {A}.

Definition BM (A : Type) : Type := boot_state → outcome A.
#[local] Instance BM_ret : MRet BM := λ A a s, Done a s.
#[local] Instance BM_bind : MBind BM := λ A B f m s,
  match m s with
  | Done a s => f a s
  | Power_loss s => Power_loss s
  | Failed e => Failed e
  end.

Definition read_state {A} (f : boot_state → A) : BM A := λ s, Done (f s) s.
Definition update (f : boot_state → boot_state) : BM unit := λ s, Done tt (f s).
Definition bfail {A} (f : fault) : BM A := λ _, Failed f.
Definition bassert (b : bool) : BM unit := if b then mret tt else bfail FAssert.
Definition bsome {A} (o : option A) : BM A := match o with Some a => mret a | None => bfail FNull end.

(** Flash operations that change the flash use up the fuse. *)
Definition flash_op {A} (m : M D A) : BM A := λ s,
  match m (flash s) with
  | Ret (a, d) => Done a (set_flash d s)
  | Fault f => Failed f
  end.
Definition flash_change {A} (id addr len : Z) (m : M D A) : BM A := λ s,
  match flash_fuse s with
  | Some O => Power_loss (set_flash (torn id addr len (flash s)) s)
  | Some (S n) => flash_op m (set_flash_fuse (Some n) s)
  | None => flash_op m s
  end.
Definition bread (id addr n : Z) : BM (Z * list Z) := flash_op (fl_read id addr n).
Definition bwrite (id addr : Z) (l : list Z) : BM Z := flash_change id addr (Z.of_nat (length l)) (fl_write id addr l).
Definition berase (id addr len : Z) : BM Z := flash_change id addr len (fl_erase id addr len).

Definition file_op {A} (m : M F A) : BM A := λ s,
  match m (files s) with
  | Ret (a, f) => Done a (set_files f s)
  | Fault f => Failed f
  end.
(** Operations that change files. *)
Definition file_change {A} (m : M F A) : BM A := λ s,
  match file_fuse s with
  | Some O => Power_loss s
  | Some (S n) => file_op m (set_file_fuse (Some n) s)
  | None => file_op m s
  end.

(** ** bootutil_misc.c *)

Definition boot_vect_read_one (path : string) : BM (Z * list Z) :=
  r ← file_op (fsutil_read_file f_ops path 0 8);
  let '(rc, ver) := r in
  if negb (rc =? 0) || negb (length ver =? 8)%nat then mret (BOOT_EBADVECT, ver) else mret (0, ver).

Definition boot_vect_read_test : BM (Z * list Z) := boot_vect_read_one BOOT_PATH_TEST.
Definition boot_vect_read_main : BM (Z * list Z) := boot_vect_read_one BOOT_PATH_MAIN.
Definition boot_vect_delete_test : BM Z := file_change (fs_unlink f_ops BOOT_PATH_TEST).
Definition boot_vect_delete_main : BM Z := file_change (fs_unlink f_ops BOOT_PATH_MAIN).

Definition boot_read_image_header (loc : Z * Z) : BM (Z * image_header) :=
  r ← bread loc.1 loc.2 IMAGE_HEADER_SIZE;
  let '(rc, hdr) := r in
  if negb (rc =? 0) then mret (BOOT_EFLASH, hdr)
  else if negb (ih_magic hdr =? IMAGE_MAGIC) then mret (BOOT_EBADIMAGE, hdr)
  else mret (0, hdr).

(** The headers of the slots, in order. *)
Fixpoint boot_read_image_headers (addresses : list (Z * Z)) : BM (list image_header) :=
  match addresses with
  | [] => mret []
  | loc :: addresses =>
      r ← boot_read_image_header loc;
      let '(rc, hdr) := r in
      let hdr := if negb (rc =? 0) || negb (ih_magic hdr =? IMAGE_MAGIC)
                 then replicate (Z.to_nat IMAGE_HEADER_SIZE) 255 else hdr in
      hdrs ← boot_read_image_headers addresses;
      mret (hdr :: hdrs)
  end.

(** The bytes of the entries. *)
Fixpoint entry_bytes (l : list boot_status_entry) : list Z :=
  match l with
  | [] => []
  | (i, p) :: l => i :: p :: entry_bytes l
  end.
Fixpoint bytes_entries (l : list Z) : list boot_status_entry :=
  match l with
  | i :: p :: l => (i, p) :: bytes_entries l
  | _ => []
  end.

(** The loop that checks the images of the entries against the lengths. *)
Fixpoint entries_ok (l : list boot_status_entry) (len1 len2 : Z) : bool :=
  match l with
  | [] => true
  | (i, _) :: l =>
      if (i =? 0) && (len1 =? 0) then false
      else if (i =? 1) && (len2 =? 0) then false
      else entries_ok l len1 len2
  end.

Definition boot_read_status : BM Z :=
  let num_areas := br_num_image_areas req in
  r ← file_op (fs_open f_ops BOOT_PATH_STATUS FS_ACCESS_READ);
  let '(rc, file) := r in
  rc ← (if negb (rc =? 0) then mret BOOT_EBADSTATUS else
        r ← file_op (fs_read f_ops file 8);
        let '(rc, st) := r in
        if negb (rc =? 0) || negb (length st =? 8)%nat then mret BOOT_EBADSTATUS else
        r ← file_op (fs_read f_ops file (2 * Z.of_nat num_areas));
        let '(rc, es) := r in
        if negb (rc =? 0) || negb (length es =? 2 * num_areas)%nat then mret BOOT_EBADSTATUS else
        let len1 := le32 (take 4 st) in
        let len2 := le32 (take 4 (drop 4 st)) in
        let len1 := if len1 =? 0xffffffff then 0 else len1 in
        let len2 := if len2 =? 0xffffffff then 0 else len2 in
        update (set_lengths len1 len2) ;;
        update (set_entries (bytes_entries es)) ;;
        if entries_ok (bytes_entries es) len1 len2 then mret 0 else mret BOOT_EBADSTATUS);
  file_op (fs_close f_ops file) ;;
  mret rc.

Definition boot_write_status : BM Z :=
  r ← file_change (fs_open f_ops BOOT_PATH_STATUS (Z.lor FS_ACCESS_WRITE FS_ACCESS_TRUNCATE));
  let '(rc, file) := r in
  rc ← (if negb (rc =? 0) then mret BOOT_EFILE else
        len1 ← read_state bs_img1_length;
        len2 ← read_state bs_img2_length;
        rc ← file_change (fs_write f_ops file (to_le32 len1 ++ to_le32 len2));
        if negb (rc =? 0) then mret BOOT_EFILE else
        es ← read_state boot_status_entries;
        rc ← file_change (fs_write f_ops file (entry_bytes es));
        if negb (rc =? 0) then mret BOOT_EFILE else mret 0);
  file_op (fs_close f_ops file) ;;
  mret rc.

Definition boot_clear_status : BM unit := file_change (fs_unlink f_ops BOOT_PATH_STATUS) ;; mret tt.

(** ** loader.c *)

(** [boot_req->br_area_descs + idx], dereferenced. *)
Definition area_desc (idx : Z) : BM nffs_area_desc :=
  if 0 <=? idx then bsome (br_area_descs req !! Z.to_nat idx) else bfail FNull.

(** [boot_status_entries[i]]. *)
Definition entry_at (i : Z) : BM boot_status_entry :=
  es ← read_state boot_status_entries;
  if 0 <=? i then bsome (es !! Z.to_nat i) else bfail FNull.
Definition set_entry (i : Z) (e : boot_status_entry) : BM unit :=
  entry_at i ;; update (λ s, set_entries (<[Z.to_nat i := e]> (boot_status_entries s)) s).

Definition boot_slot_addr (slot_num : Z) : BM (Z * Z) :=
  bassert ((0 <=? slot_num) && (slot_num <? BOOT_NUM_SLOTS)) ;;
  area_idx ← bsome (br_slot_areas req !! Z.to_nat slot_num);
  d ← area_desc area_idx;
  mret (nad_flash_id d, nad_offset d).

(** The slot whose header has the version. *)
Fixpoint find_slot (hdrs : list image_header) (ver : list Z) (i : Z) : Z :=
  match hdrs with
  | [] => -1
  | h :: hdrs => if bool_decide (ih_ver h = ver) then i else find_slot hdrs ver (i + 1)
  end.
Definition boot_find_image_slot (ver : list Z) : BM Z :=
  hdrs ← read_state boot_img_hdrs; mret (find_slot hdrs ver 0).

Definition boot_select_image_slot : BM Z :=
  r ← boot_vect_read_test;
  slot ← (if r.1 =? 0 then
            slot ← boot_find_image_slot r.2;
            if slot =? -1 then boot_vect_delete_test ;; mret (-1) else mret slot
          else mret (-1));
  if negb (slot =? -1) then mret slot
  else
    r ← boot_vect_read_main;
    if r.1 =? 0 then
      slot ← boot_find_image_slot r.2;
      if slot =? -1 then boot_vect_delete_main ;; mret (-1) else mret slot
    else mret (-1).

(** The area that holds the part; the entries and the areas are searched together. *)
Fixpoint find_part (es : list boot_status_entry) (areas : list Z) (image_num part_num : Z) : Z :=
  match es, areas with
  | (i, p) :: es, a :: areas =>
      if (i =? image_num) && (p =? part_num) then a else find_part es areas image_num part_num
  | _, _ => -1
  end.
Definition boot_find_image_part (image_num part_num : Z) : BM Z :=
  es ← read_state boot_status_entries;
  mret (find_part es (take (br_num_image_areas req) (br_image_areas req)) image_num part_num).

(** The loop over the areas up to the terminating element. *)
Fixpoint find_desc (descs : list nffs_area_desc) (flash_id address : Z) (i : Z) : Z :=
  match descs with
  | [] => -1
  | d :: descs =>
      if nad_length d =? 0 then -1
      else if (nad_offset d =? address) && (nad_flash_id d =? flash_id) then i
      else find_desc descs flash_id address (i + 1)
  end.
Definition boot_slot_to_area_idx (slot_num : Z) : BM Z :=
  bassert ((0 <=? slot_num) && (slot_num <? BOOT_NUM_SLOTS)) ;;
  a ← boot_slot_addr slot_num;
  mret (find_desc (br_area_descs req) a.1 a.2 0).

Fixpoint find_idx (areas : list Z) (area_idx i : Z) : Z :=
  match areas with
  | [] => -1
  | a :: areas => if a =? area_idx then i else find_idx areas area_idx (i + 1)
  end.
Definition boot_find_image_area_idx (area_idx : Z) : Z :=
  find_idx (take (br_num_image_areas req) (br_image_areas req)) area_idx 0.

Definition boot_erase_area (area_idx : Z) : BM Z :=
  d ← area_desc area_idx;
  rc ← berase (nad_flash_id d) (nad_offset d) (nad_length d);
  mret (if negb (rc =? 0) then BOOT_EFLASH else 0).

(** The loop that copies 1024 bytes at a time. *)
Fixpoint copy_loop (fuel : nat) (from_ to_ : nffs_area_desc) (off : Z) : BM Z :=
  if off <? nad_length from_ then
    match fuel with
    | O => bfail FFuel
    | S fuel =>
        let chunk_sz := if 1024 <? u32 (nad_length from_ - off) then 1024 else u32 (nad_length from_ - off) in
        r ← bread (nad_flash_id from_) (u32 (nad_offset from_ + off)) chunk_sz;
        let '(rc, buf) := r in
        if negb (rc =? 0) then mret rc
        else
          rc ← bwrite (nad_flash_id to_) (u32 (nad_offset to_ + off)) buf;
          if negb (rc =? 0) then mret rc else copy_loop fuel from_ to_ (u32 (off + chunk_sz))
    end
  else mret 0.

Definition boot_copy_area (from_area_idx to_area_idx : Z) : BM Z :=
  from_ ← area_desc from_area_idx;
  to_ ← area_desc to_area_idx;
  bassert (nad_length from_ <=? nad_length to_) ;;
  copy_loop (Z.to_nat (nad_length from_)) from_ to_ 0.

Definition boot_move_area (from_area_idx to_area_idx img_num part_num : Z) : BM Z :=
  let src_image_idx := boot_find_image_area_idx from_area_idx in
  bassert (negb (src_image_idx =? -1)) ;;
  let dst_image_idx := boot_find_image_area_idx to_area_idx in
  bassert (negb (dst_image_idx =? -1)) ;;
  rc ← boot_erase_area to_area_idx;
  if negb (rc =? 0) then mret rc else
  rc ← boot_copy_area from_area_idx to_area_idx;
  if negb (rc =? 0) then mret rc else
  set_entry src_image_idx entry_none ;;
  set_entry dst_image_idx (img_num, part_num) ;;
  rc ← boot_write_status;
  if negb (rc =? 0) then mret rc else
  rc ← boot_erase_area from_area_idx;
  if negb (rc =? 0) then mret rc else mret 0.

(** The image and part numbers that are passed are not used. *)
Definition boot_swap_areas (area_idx_1 img_num_1 part_num_1 area_idx_2 img_num_2 part_num_2 : Z) : BM Z :=
  let scratch := br_scratch_area_idx req in
  bassert (negb (area_idx_1 =? area_idx_2)) ;;
  bassert (negb (area_idx_1 =? scratch)) ;;
  bassert (negb (area_idx_2 =? scratch)) ;;
  let image_idx_1 := boot_find_image_area_idx area_idx_1 in
  bassert (negb (image_idx_1 =? -1)) ;;
  let image_idx_2 := boot_find_image_area_idx area_idx_2 in
  bassert (negb (image_idx_2 =? -1)) ;;
  let scratch_image_idx := boot_find_image_area_idx scratch in
  bassert (negb (scratch_image_idx =? -1)) ;;
  rc ← boot_erase_area scratch;
  if negb (rc =? 0) then mret rc else
  rc ← boot_copy_area area_idx_2 scratch;
  if negb (rc =? 0) then mret rc else
  e2 ← entry_at image_idx_2;
  set_entry scratch_image_idx e2 ;;
  set_entry image_idx_2 entry_none ;;
  rc ← boot_write_status;
  if negb (rc =? 0) then mret rc else
  rc ← boot_erase_area area_idx_2;
  if negb (rc =? 0) then mret rc else
  rc ← boot_copy_area area_idx_1 area_idx_2;
  if negb (rc =? 0) then mret rc else
  e1 ← entry_at image_idx_1;
  set_entry image_idx_2 e1 ;;
  set_entry image_idx_1 entry_none ;;
  rc ← boot_write_status;
  if negb (rc =? 0) then mret rc else
  rc ← boot_erase_area area_idx_1;
  if negb (rc =? 0) then mret rc else
  rc ← boot_copy_area scratch area_idx_1;
  if negb (rc =? 0) then mret rc else
  es ← entry_at scratch_image_idx;
  set_entry image_idx_1 es ;;
  set_entry scratch_image_idx entry_none ;;
  rc ← boot_write_status;
  if negb (rc =? 0) then mret rc else mret 0.

(** The loop over the parts; [dst_area_idx] is a valid index in each round, so the
    number of areas bounds the rounds. *)
Fixpoint fill_loop (fuel : nat) (img_num img_length start_area_idx part_num off : Z) : BM Z :=
  if off <? img_length then
    match fuel with
    | O => bfail FFuel
    | S fuel =>
        src_area_idx ← boot_find_image_part img_num part_num;
        if src_area_idx =? -1 then mret BOOT_EBADIMAGE
        else
          let dst_area_idx := start_area_idx + part_num in
          rc ← (if negb (src_area_idx =? dst_area_idx) then
                  let dst_image_area_idx := boot_find_image_area_idx dst_area_idx in
                  e ← entry_at dst_image_area_idx;
                  if e.1 =? BOOT_IMAGE_NUM_NONE
                  then boot_move_area src_area_idx dst_area_idx img_num (u8 part_num)
                  else boot_swap_areas src_area_idx (Z.lxor img_num 1) (u8 part_num) dst_area_idx img_num (u8 part_num)
                else mret 0);
          if negb (rc =? 0) then mret rc
          else
            d ← area_desc dst_area_idx;
            fill_loop fuel img_num img_length start_area_idx (part_num + 1) (u32 (off + nad_length d))
    end
  else mret 0.

Definition boot_fill_slot (img_num img_length start_area_idx : Z) : BM Z :=
  fill_loop (S (length (br_area_descs req))) img_num img_length start_area_idx 0 0.

Definition boot_copy_image (img1_length img2_length : Z) : BM Z :=
  start ← boot_slot_to_area_idx 0;
  rc ← boot_fill_slot 1 img2_length start;
  if negb (rc =? 0) then mret rc else
  start ← boot_slot_to_area_idx 1;
  rc ← boot_fill_slot 0 img1_length start;
  if negb (rc =? 0) then mret rc else mret 0.

(** The loop that finds the first area of the slot: its position and index. *)
Fixpoint find_start (areas : list Z) (flash_id addr i : Z) : BM (Z * Z) :=
  match areas with
  | [] => bfail FAssert
  | a :: areas =>
      d ← area_desc a;
      if (nad_offset d =? addr) && (nad_flash_id d =? flash_id) then mret (i, a)
      else find_start areas flash_id addr (i + 1)
  end.

Fixpoint build_loop (fuel : nat) (image_num length_ i area_idx part_num offset : Z) : BM Z :=
  if offset <? length_ then
    match fuel with
    | O => bfail FFuel
    | S fuel =>
        e ← entry_at i;
        bassert (e.1 =? 0xff) ;;
        set_entry i (image_num, u8 part_num) ;;
        d ← area_desc area_idx;
        build_loop fuel image_num length_ (i + 1) (area_idx + 1) (part_num + 1) (u32 (offset + nad_length d))
    end
  else mret i.

Definition boot_build_status_one (image_num flash_id addr length_ : Z) : BM unit :=
  start ← find_start (take (br_num_image_areas req) (br_image_areas req)) flash_id addr 0;
  i ← build_loop (S (br_num_image_areas req)) image_num length_ start.1 start.2 0 0;
  bassert (i <=? Z.of_nat (br_num_image_areas req)).

Definition hdr_at (i : nat) : BM image_header := hs ← read_state boot_img_hdrs; bsome (hs !! i).

Definition boot_build_status : BM unit :=
  update (set_entries (replicate (br_num_image_areas req) entry_none)) ;;
  h0 ← hdr_at 0;
  (if ih_magic h0 =? IMAGE_MAGIC then
     update (λ s, set_lengths (ih_img_size h0) (bs_img2_length s) s) ;;
     a ← boot_slot_addr 0;
     boot_build_status_one 0 a.1 a.2 (ih_img_size h0)
   else update (λ s, set_lengths 0 (bs_img2_length s) s)) ;;
  h1 ← hdr_at 1;
  (if ih_magic h1 =? IMAGE_MAGIC then
     update (λ s, set_lengths (bs_img1_length s) (ih_img_size h1) s) ;;
     a ← boot_slot_addr 1;
     boot_build_status_one 1 a.1 a.2 (ih_img_size h1)
   else update (λ s, set_lengths (bs_img1_length s) 0 s)).

(** [f_init] and [f_detect] are [nffs_init] and [nffs_detect]. *)
Definition boot_init_flash : BM Z :=
  rc ← flash_op fl_init;
  if negb (rc =? 0) then mret BOOT_EFLASH else
  rc ← file_op f_init;
  if negb (rc =? 0) then mret BOOT_EFILE else
  file_op f_detect ;;
  file_op (fs_mkdir f_ops "/boot") ;;
  mret 0.

Definition boot_go : BM (Z * option boot_rsp) :=
  rc ← boot_init_flash;
  if negb (rc =? 0) then mret (rc, None) else
  if negb malloc_ok then mret (BOOT_ENOMEM, None) else
  rc ← boot_read_status;
  rc ← (if rc =? 0 then
          len1 ← read_state bs_img1_length;
          len2 ← read_state bs_img2_length;
          boot_copy_image len1 len2
        else mret 0);
  if negb (rc =? 0) then mret (rc, None) else
  a0 ← boot_slot_addr 0;
  a1 ← boot_slot_addr 1;
  hdrs ← boot_read_image_headers [a0; a1];
  update (set_hdrs hdrs) ;;
  boot_build_status ;;
  slot ← boot_select_image_slot;
  h0 ← hdr_at 0;
  h1 ← hdr_at 1;
  let slot := if slot =? -1 then
                if negb (ih_magic h0 =? IMAGE_MAGIC_NONE) then 0
                else if negb (ih_magic h1 =? IMAGE_MAGIC_NONE) then 1 else -1
              else slot in
  if slot =? -1 then mret (BOOT_EBADIMAGE, None) else
  r ← (if slot =? 0 then mret (0, h0)
       else if slot =? 1 then
         len1 ← read_state bs_img1_length;
         len2 ← read_state bs_img2_length;
         rc ← boot_copy_image len1 len2;
         mret (rc, h1)
       else bfail FAssert);
  if negb (r.1 =? 0) then mret (r.1, None) else
  file_change (fs_unlink f_ops BOOT_PATH_STATUS) ;;
  boot_vect_delete_test ;;
  mret (0, Some (mk_rsp r.2 a0.1 a0.2)).

(** What survives a loss of power. *)
Definition persistent : Type := D * F.

(** The loader is started with these contents and fuses; the variables are cleared. *)
Definition power_on (p : persistent) (fuse1 fuse2 : option nat) : boot_state :=
  mk_boot p.1 p.2 [] 0 0 [] fuse1 fuse2.

(** The loader starts once for each of the fuses, and loses power each time, then runs
    to its end.  A start that ends before its fuse blows is not an interruption. *)
Fixpoint boots (fuses : list nat) (p : persistent) : outcome (Z * option boot_rsp) :=
  match fuses with
  | [] => boot_go (power_on p None None)
  | n :: fuses =>
      match boot_go (power_on p (Some n) None) with
      | Power_loss s => boots fuses (flash s, files s)
      | r => r
      end
  end.
End boot.
Arguments boot_state : clear implicits.
Arguments outcome : clear implicits.
Arguments Done {D F A}.
Arguments Power_loss {D F A}.
Arguments Failed {D F A}.
