(* ===== verification/BootProps.v ===== *)
(** The boot loader swaps two images, whenever power is lost.

    The images are the contents of the slots when an image is put up for a test.  The
    areas of the slots and the scratch area are consecutive in the request and have the
    same length, as in project/boot and in the tests of the loader. *)
From Stdlib Require Import ZArith Lia.
From stdpp Require Import base decidable strings numbers list gmap.
From S2P Require Import Prelude.
From S2P Require Import HalFlash.
From S2P Require Import Fs.
From S2P Require Import Boot.

#[local] Open Scope Z_scope.
#[local] Existing Instance BM_ret.
#[local] Existing Instance BM_bind.

(** ** Runs that may lose power *)

Section bwp.
Context {D F : Type} `{FL : FlashApi D} `{FA : FsApi F}.
Abbreviation st := (boot_state D F) (only parsing).

(** [m] does not fail; it ends in [Q], or loses power in [C]. *)
Definition bwp {A} (m : BM A) (Q : A → st → Prop) (C : st → Prop) (s : st) : Prop :=
  match m s with
  | Done a s' => Q a s'
  | Power_loss s' => C s'
  | Failed _ => False
  end.

Lemma bwp_bind {A B} (m : BM A) (f : A → BM B) Q C s :
  bwp m (λ a, bwp (f a) Q C) C s → bwp (m ≫= f) Q C s.
Proof. unfold bwp, mbind, BM_bind. by destruct (m s). Qed.

Lemma bwp_ret {A} (a : A) (Q : A → st → Prop) C s : Q a s → bwp (mret a) Q C s.
Proof. done. Qed.

Lemma bwp_mono {A} (m : BM A) (Q Q' : A → st → Prop) (C C' : st → Prop) s :
  bwp m Q C s → (∀ a s', Q a s' → Q' a s') → (∀ s', C s' → C' s') → bwp m Q' C' s.
Proof. unfold bwp. destruct (m s); eauto. Qed.

Lemma bwp_read {A} (f : st → A) Q C s : Q (f s) s → bwp (read_state f) Q C s.
Proof. done. Qed.
Lemma bwp_update (f : st → st) (Q : unit → st → Prop) C s : Q tt (f s) → bwp (update f) Q C s.
Proof. done. Qed.
Lemma bwp_assert (b : bool) (Q : unit → st → Prop) C s : b = true → Q tt s → bwp (bassert b) Q C s.
Proof. by intros ->. Qed.
Lemma bwp_some {A} (o : option A) a (Q : A → st → Prop) C s : o = Some a → Q a s → bwp (bsome o) Q C s.
Proof. by intros ->. Qed.

Lemma bwp_flash_op {A} (m : M D A) a d Q C (s : st) :
  m (flash s) = Ret (a, d) → Q a (set_flash d s) → bwp (flash_op m) Q C s.
Proof. unfold bwp, flash_op. by intros ->. Qed.

(** The state but for its flash fuse. *)
Lemma bwp_flash_change {A} torn id addr len (m : M D A) a d Q C (s : st) :
  m (flash s) = Ret (a, d) → C (set_flash (torn id addr len (flash s)) s) →
  (∀ fuse, Q a (set_flash_fuse fuse (set_flash d s))) → bwp (flash_change torn id addr len m) Q C s.
Proof.
  intros Hm Hc HQ. unfold bwp, flash_change, flash_op. destruct (flash_fuse s) as [[|n]|] eqn:Hf; [done|..].
  - cbn. rewrite Hm. apply (HQ (Some n)).
  - rewrite Hm. specialize (HQ None). destruct s; cbn in *; by subst.
Qed.

Lemma bwp_file_op {A} (m : M F A) a f Q C (s : st) :
  m (files s) = Ret (a, f) → Q a (set_files f s) → bwp (file_op m) Q C s.
Proof. unfold bwp, file_op. by intros ->. Qed.

Lemma bwp_file_change {A} (m : M F A) a f Q C (s : st) :
  file_fuse s = None → m (files s) = Ret (a, f) → Q a (set_files f s) → bwp (file_change m) Q C s.
Proof. intros Hf Hm HQ. unfold bwp, file_change, file_op. by rewrite Hf, Hm. Qed.

(** *** Status files *)

Lemma le32_bytes n : 0 <= n < 2 ^ 32 → le32 (to_le32 n) = n.
Proof.
  intros Hn. unfold le32, to_le32. change (2 ^ 32) with 4294967296 in Hn.
  rewrite !(Z.mod_eq _ 256) by lia. rewrite !Z.div_div by lia.
  replace (n / (16777216 * 256)) with 0 by (rewrite Z.div_small; lia).
  change (65536 * 256) with 16777216. change (256 * 256) with 65536. lia.
Qed.

Lemma bytes_entry_bytes es : bytes_entries (entry_bytes es) = es.
Proof. induction es as [|[i p] es IH]; [done|]. cbn. by rewrite IH. Qed.
Lemma entry_bytes_length es : length (entry_bytes es) = (2 * length es)%nat.
Proof. induction es as [|[i p] es IH]; [done|]. cbn. rewrite IH. lia. Qed.

Definition status_bytes (len1 len2 : Z) (es : list boot_status_entry) : list Z :=
  to_le32 len1 ++ to_le32 len2 ++ entry_bytes es.

(** Writing the status: the file holds it, the other files do not change. *)
Lemma bwp_write_status Q C (s : st) :
  file_fuse s = None →
  (∀ f, fs_file f BOOT_PATH_STATUS = Some (status_bytes (bs_img1_length s) (bs_img2_length s) (boot_status_entries s)) →
        (∀ q, q ≠ BOOT_PATH_STATUS → fs_file f q = fs_file (files s) q) → Q 0 (set_files f s)) →
  bwp boot_write_status Q C s.
Proof.
  intros Hf HQ. unfold boot_write_status. destruct (f_open_trunc_ok BOOT_PATH_STATUS (files s)) as (h & f1 & H1 & P1 & E1).
  apply bwp_bind. eapply bwp_file_change; [done|exact H1|]. cbn [Z.eqb negb].
  apply bwp_bind, bwp_bind, bwp_read, bwp_bind, bwp_read, bwp_bind.
  destruct (f_write_ok h BOOT_PATH_STATUS [] (to_le32 (bs_img1_length s) ++ to_le32 (bs_img2_length s)) f1)
    as (f2 & H2 & P2 & E2); [done|by rewrite E1, decide_True|].
  eapply bwp_file_change; [done|exact H2|]. cbn [Z.eqb negb]. apply bwp_bind, bwp_read, bwp_bind.
  destruct (f_write_ok h BOOT_PATH_STATUS _ (entry_bytes (boot_status_entries s)) f2 P2)
    as (f3 & H3 & P3 & E3); [by rewrite E2, decide_True|].
  eapply bwp_file_change; [done|exact H3|]. cbn [Z.eqb negb]. apply bwp_ret, bwp_bind.
  destruct (f_close_ok h f3) as (rc & f4 & H4 & E4). eapply bwp_file_op; [exact H4|]. apply bwp_ret.
  apply (HQ f4).
  - rewrite E4, E3, decide_True by done. unfold status_bytes. by rewrite <- (assoc_L (++)).
  - intros q Hq. by rewrite E4, E3, decide_False, E2, decide_False, E1, decide_False.
Qed.

Lemma entries_ok_lengths es len1 len2 : len1 ≠ 0 → len2 ≠ 0 → entries_ok es len1 len2 = true.
Proof.
  intros H1 H2. induction es as [|[i p] es IH]; [done|]. cbn.
  rewrite (proj2 (Z.eqb_neq len1 0)), (proj2 (Z.eqb_neq len2 0)) by done.
  by rewrite !andb_false_r, IH.
Qed.

(** Reading a status that was written. *)
Lemma bwp_read_status req len1 len2 es Q C (s : st) :
  fs_file (files s) BOOT_PATH_STATUS = Some (status_bytes len1 len2 es) →
  length es = br_num_image_areas req → 0 < len1 < 2 ^ 32 - 1 → 0 < len2 < 2 ^ 32 - 1 →
  (∀ f, (∀ q, fs_file f q = fs_file (files s) q) → Q 0 (set_files f (set_entries es (set_lengths len1 len2 s)))) →
  bwp (boot_read_status req) Q C s.
Proof.
  intros Hst Hlen Hl1 Hl2 HQ. unfold boot_read_status. apply bwp_bind.
  destruct (f_open_read_ok BOOT_PATH_STATUS _ (files s) Hst) as (h & f1 & H1 & P1 & E1).
  eapply bwp_file_op; [exact H1|]. cbn [Z.eqb negb]. apply bwp_bind, bwp_bind.
  destruct (f_read_ok h BOOT_PATH_STATUS 0 (status_bytes len1 len2 es) 8 f1) as (f2 & H2 & P2 & E2); [done|by rewrite E1|done|].
  eapply bwp_file_op; [exact H2|]. change (take (Z.to_nat 8) (drop 0 (status_bytes len1 len2 es))) with (to_le32 len1 ++ to_le32 len2) in P2 |- *.
  change (length (to_le32 len1 ++ to_le32 len2) =? 8)%nat with true. cbn [Z.eqb negb orb]. apply bwp_bind.
  destruct (f_read_ok h BOOT_PATH_STATUS 8 (status_bytes len1 len2 es) (2 * Z.of_nat (br_num_image_areas req)) f2)
    as (f3 & H3 & P3 & E3); [done|by rewrite E2, E1|lia|].
  eapply bwp_file_op; [exact H3|].
  change (drop 8 (status_bytes len1 len2 es)) with (entry_bytes es).
  rewrite take_ge by (rewrite entry_bytes_length; lia). rewrite entry_bytes_length, Hlen, Nat.eqb_refl.
  cbn [Z.eqb negb orb].
  change (take 4 (to_le32 len1 ++ to_le32 len2)) with (to_le32 len1).
  change (take 4 (drop 4 (to_le32 len1 ++ to_le32 len2))) with (to_le32 len2).
  rewrite !le32_bytes, !(proj2 (Z.eqb_neq _ 0xffffffff)) by lia.
  apply bwp_bind, bwp_update, bwp_bind, bwp_update. rewrite bytes_entry_bytes, entries_ok_lengths by lia.
  apply bwp_ret, bwp_bind. destruct (f_close_ok h f3) as (rc & f4 & H4 & E4).
  eapply bwp_file_op; [exact H4|]. apply bwp_ret. apply (HQ f4). intros q. by rewrite E4, E3, E2, E1.
Qed.

Lemma bwp_read_status_none req Q C (s : st) :
  fs_file (files s) BOOT_PATH_STATUS = None →
  (∀ f, (∀ q, fs_file f q = fs_file (files s) q) → Q BOOT_EBADSTATUS (set_files f s)) →
  bwp (boot_read_status req) Q C s.
Proof.
  intros Hst HQ. unfold boot_read_status. apply bwp_bind.
  destruct (f_open_read_none BOOT_PATH_STATUS (files s) Hst) as (rc & h & f1 & H1 & Hrc & E1).
  eapply bwp_file_op; [exact H1|]. cbn beta iota. rewrite (proj2 (Z.eqb_neq _ _)) by done. cbn [negb].
  apply bwp_bind, bwp_ret, bwp_bind.
  destruct (f_close_ok h f1) as (rc' & f4 & H4 & E4). eapply bwp_file_op; [exact H4|]. apply bwp_ret.
  apply (HQ f4). intros q. by rewrite E4, E1.
Qed.

(** The version in a vector file. *)
Lemma bwp_vect_read path ver Q C (s : st) :
  fs_file (files s) path = Some ver → length ver = 8%nat →
  (∀ f, (∀ q, fs_file f q = fs_file (files s) q) → Q (0, ver) (set_files f s)) →
  bwp (boot_vect_read_one path) Q C s.
Proof.
  intros Hv Hlen HQ. unfold boot_vect_read_one. apply bwp_bind.
  destruct (fsutil_read_ok path ver 8 (files s) Hv) as (f1 & H1 & E1); [lia|].
  eapply bwp_file_op; [exact H1|]. rewrite take_ge by (rewrite Hlen; done). rewrite Hlen. apply bwp_ret. by apply HQ.
Qed.

Lemma bwp_unlink path Q C (s : st) :
  file_fuse s = None →
  (∀ rc f, (∀ q, fs_file f q = if decide (q = path) then None else fs_file (files s) q) → Q rc (set_files f s)) →
  bwp (file_change (fs_unlink f_ops path)) Q C s.
Proof.
  intros Hf HQ. destruct (f_unlink_ok path (files s)) as (rc & f1 & H1 & E1).
  eapply bwp_file_change; [done|exact H1|]. by apply HQ.
Qed.
End bwp.

(** ** Without fuses no power is lost *)

Create HintDb steady discriminated.

Section steady.
Context {D F : Type} `{FL : FlashApi D} `{FA : FsApi F} (torn : Z → Z → Z → D → D) (req : boot_req).
Abbreviation st := (boot_state D F) (only parsing).

Definition no_fuses (s : st) : Prop := flash_fuse s = None ∧ file_fuse s = None.
Definition steady {A} (m : BM A) : Prop := ∀ s : st, no_fuses s →
  match m s with
  | Done _ s' => no_fuses s'
  | Power_loss _ => False
  | Failed _ => True
  end.

Lemma steady_ret {A} (a : A) : steady (mret a).
Proof. by intros s. Qed.
Lemma steady_bind {A B} (m : BM A) (f : A → BM B) : steady m → (∀ a, steady (f a)) → steady (m ≫= f).
Proof.
  intros Hm Hf s Hs. specialize (Hm s Hs). unfold mbind, BM_bind. destruct (m s) as [a s'| |]; [|done|done]. by apply Hf.
Qed.
Lemma steady_read {A} (f : st → A) : steady (read_state f).
Proof. by intros s. Qed.
Lemma steady_update (f : st → st) : (∀ s, no_fuses s → no_fuses (f s)) → steady (update f).
Proof. intros Hf s Hs. by apply Hf. Qed.
Lemma steady_fail {A} e : steady (bfail (A := A) e).
Proof. by intros s. Qed.
Lemma steady_assert b : steady (bassert b).
Proof. by destruct b; intros s. Qed.
Lemma steady_some {A} (o : option A) : steady (bsome o).
Proof. by destruct o; intros s. Qed.
Lemma steady_flash_op {A} (m : M D A) : steady (flash_op m).
Proof. intros s Hs. unfold flash_op. by destruct (m (flash s)) as [[a d]|]. Qed.
Lemma steady_flash_change {A} id a len (m : M D A) : steady (flash_change torn id a len m).
Proof. intros s Hs. unfold flash_change. pose proof Hs as [-> _]. by apply steady_flash_op. Qed.
Lemma steady_file_op {A} (m : M F A) : steady (file_op m).
Proof. intros s Hs. unfold file_op. by destruct (m (files s)) as [[a f]|]. Qed.
Lemma steady_file_change {A} (m : M F A) : steady (file_change m).
Proof. intros s Hs. unfold file_change. pose proof Hs as [_ ->]. by apply steady_file_op. Qed.
End steady.

#[export] Hint Resolve steady_ret steady_read steady_fail steady_assert steady_some
  steady_flash_op steady_flash_change steady_file_op steady_file_change : steady.
#[export] Hint Extern 1 (steady (update _)) => apply steady_update; intros ? []; by split : steady.

(** Goes through a program, with the lemmas for the functions it calls. *)
Ltac steady :=
  repeat first
    [ solve [auto with steady]
    | apply steady_bind; [|intros ?]
    | match goal with
      | |- steady (if ?b then _ else _) => destruct b
      | |- steady (let '(_, _) := ?x in _) => destruct x
      | |- steady (match ?x with _ => _ end) => destruct x
      end ].

Section steady_boot.
Context {D F : Type} `{FL : FlashApi D} `{FA : FsApi F} (torn : Z → Z → Z → D → D) (req : boot_req).

Lemma steady_vect_read path : steady (D := D) (boot_vect_read_one path).
Proof. unfold boot_vect_read_one. steady. Qed.
Lemma steady_read_header loc : steady (F := F) (boot_read_image_header loc).
Proof. unfold boot_read_image_header, bread. steady. Qed.
Lemma steady_read_status : steady (D := D) (boot_read_status req).
Proof. unfold boot_read_status. steady. Qed.
Lemma steady_write_status : steady (D := D) boot_write_status.
Proof. unfold boot_write_status. steady. Qed.
Lemma steady_area_desc i : steady (D := D) (F := F) (area_desc req i).
Proof. unfold area_desc. steady. Qed.
Lemma steady_entry_at i : steady (D := D) (F := F) (entry_at i).
Proof. unfold entry_at. steady. Qed.
#[local] Hint Resolve steady_vect_read steady_read_header steady_read_status steady_write_status steady_area_desc
  steady_entry_at : steady.
Lemma steady_set_entry i e : steady (D := D) (F := F) (set_entry i e).
Proof. unfold set_entry. steady. Qed.
Lemma steady_slot_addr i : steady (D := D) (F := F) (boot_slot_addr req i).
Proof. unfold boot_slot_addr. steady. Qed.
Lemma steady_find_slot v : steady (D := D) (F := F) (boot_find_image_slot v).
Proof. unfold boot_find_image_slot. steady. Qed.
Lemma steady_find_part i q : steady (D := D) (F := F) (boot_find_image_part req i q).
Proof. unfold boot_find_image_part. steady. Qed.
#[local] Hint Resolve steady_set_entry steady_slot_addr steady_find_slot steady_find_part : steady.
Lemma steady_slot_idx i : steady (D := D) (F := F) (boot_slot_to_area_idx req i).
Proof. unfold boot_slot_to_area_idx. steady. Qed.
Lemma steady_select : steady (D := D) boot_select_image_slot.
Proof. unfold boot_select_image_slot, boot_vect_read_test, boot_vect_read_main, boot_vect_delete_test, boot_vect_delete_main. steady. Qed.
Lemma steady_read_headers l : steady (F := F) (boot_read_image_headers l).
Proof. induction l; cbn [boot_read_image_headers]; steady. Qed.
Lemma steady_erase_area i : steady (F := F) (boot_erase_area torn req i).
Proof. unfold boot_erase_area, berase. steady. Qed.
Lemma steady_copy_loop f a b : ∀ off, steady (F := F) (copy_loop torn f a b off).
Proof. induction f; intros off; cbn [copy_loop]; unfold bread, bwrite; steady. Qed.
#[local] Hint Resolve steady_slot_idx steady_select steady_read_headers steady_erase_area steady_copy_loop : steady.
Lemma steady_copy_area i j : steady (F := F) (boot_copy_area torn req i j).
Proof. unfold boot_copy_area. steady. Qed.
#[local] Hint Resolve steady_copy_area : steady.
Lemma steady_move_area a b i p : steady (boot_move_area torn req a b i p).
Proof. unfold boot_move_area. steady. Qed.
Lemma steady_swap_areas a b c a' b' c' : steady (boot_swap_areas torn req a b c a' b' c').
Proof. unfold boot_swap_areas. steady. Qed.
#[local] Hint Resolve steady_move_area steady_swap_areas : steady.
Lemma steady_fill_loop f a b c : ∀ q off, steady (fill_loop torn req f a b c q off).
Proof. induction f; intros q off; cbn [fill_loop]; steady. Qed.
#[local] Hint Resolve steady_fill_loop : steady.
Lemma steady_copy_image a b : steady (boot_copy_image torn req a b).
Proof. unfold boot_copy_image, boot_fill_slot. steady. Qed.
Lemma steady_find_start l i a : ∀ j, steady (D := D) (F := F) (find_start req l i a j).
Proof. induction l; intros j; cbn [find_start]; steady. Qed.
Lemma steady_build_loop f k l : ∀ i a q off, steady (D := D) (F := F) (build_loop req f k l i a q off).
Proof. induction f; intros i a q off; cbn [build_loop]; steady. Qed.
#[local] Hint Resolve steady_copy_image steady_find_start steady_build_loop : steady.
Lemma steady_hdr_at i : steady (D := D) (F := F) (hdr_at i).
Proof. unfold hdr_at. steady. Qed.
Lemma steady_build_status : steady (D := D) (F := F) (boot_build_status req).
Proof. unfold boot_build_status, boot_build_status_one, hdr_at. steady. Qed.
Lemma steady_init_flash : steady boot_init_flash.
Proof. unfold boot_init_flash. steady. Qed.
#[local] Hint Resolve steady_hdr_at steady_build_status steady_init_flash : steady.
Lemma steady_boot_go ok : steady (boot_go torn ok req).
Proof. unfold boot_go, boot_vect_delete_test. steady. Qed.
End steady_boot.

(** ** Areas *)

Section areas.
Context {D F : Type} `{FL : FlashApi D} `{FA : FsApi F}.
Abbreviation st := (boot_state D F) (only parsing).
Context (torn : Z → Z → Z → D → D) (req : boot_req).
(** The number of areas of a slot, the index of the first area, the length of an area,
    and where the areas are. *)
Context (n : nat) (base L : Z) (aid aoff : nat → Z).

Definition area (i : nat) : Z := base + Z.of_nat i.

(** Power loss during an operation on a range leaves the rest of the flash alone. *)
Definition torn_local : Prop :=
  ∀ id a len d j x, ¬ (j = id ∧ a <= x < a + len) → fl_byte (torn id a len d) j x = fl_byte d j x.

(** Both slots have [n] areas, the scratch area follows; an area is made of whole
    sectors and no two overlap. *)
Record layout : Prop := {
  ly_n : (1 <= n <= 127)%nat;
  ly_base : 0 <= base;
  ly_L : IMAGE_HEADER_SIZE <= L;
  ly_total : Z.of_nat n * L < 2 ^ 32 - 1;
  ly_areas : br_image_areas req = area <$> seq 0 (2 * n + 1);
  ly_num : br_num_image_areas req = (2 * n + 1)%nat;
  ly_slots : br_slot_areas req = [area 0; area n];
  ly_scratch : br_scratch_area_idx req = area (2 * n);
  ly_desc i : (i <= 2 * n)%nat → br_area_descs req !! Z.to_nat (area i) = Some (mk_desc (aoff i) L (aid i));
  ly_before j d : (j < Z.to_nat base)%nat → br_area_descs req !! j = Some d →
    nad_length d ≠ 0 ∧ ∀ i, (i <= 2 * n)%nat → nad_offset d ≠ aoff i ∨ nad_flash_id d ≠ aid i;
  ly_flash i : (i <= 2 * n)%nat → fl_area (aid i) (aoff i) L;
  ly_disjoint i j : (i <= 2 * n)%nat → (j <= 2 * n)%nat → i ≠ j →
    aid i ≠ aid j ∨ aoff i + L <= aoff j ∨ aoff j + L <= aoff i;
}.
Context (Htorn : torn_local) (Hly : layout).

Lemma L_pos : 32 <= L < 2 ^ 32.
Proof. pose proof (ly_L Hly). pose proof (fl_area_pos _ _ _ (ly_flash Hly 0 ltac:(lia))). unfold IMAGE_HEADER_SIZE in *. lia. Qed.

(** Byte [x] of area [i]. *)
Definition ab (d : D) (i : nat) (x : Z) : Z := fl_byte d (aid i) (aoff i + x).

(** Only area [i] has changed. *)
Definition only (i : nat) (d d' : D) : Prop :=
  ∀ j x, ¬ (j = aid i ∧ aoff i <= x < aoff i + L) → fl_byte d' j x = fl_byte d j x.

Lemma only_refl i d : only i d d.
Proof. by intros j x. Qed.
Lemma only_trans i d1 d2 d3 : only i d1 d2 → only i d2 d3 → only i d1 d3.
Proof. intros H1 H2 j x Hx. by rewrite H2, H1. Qed.

Lemma only_other i j d d' x :
  only i d d' → (i <= 2 * n)%nat → (j <= 2 * n)%nat → i ≠ j → 0 <= x < L → ab d' j x = ab d j x.
Proof. intros Ho Hi Hj Hne Hx. apply Ho. pose proof (ly_disjoint Hly i j Hi Hj Hne). lia. Qed.

(** The state with another flash, and a fuse that may have become shorter. *)
Definition with_flash (d' : D) (s s' : st) : Prop := ∃ fuse, s' = set_flash_fuse fuse (set_flash d' s).

Lemma with_flash_self d' s : with_flash d' s (set_flash d' s).
Proof. exists (flash_fuse s). by destruct s. Qed.

Lemma with_flash_trans d1 d2 s s1 s2 : with_flash d1 s s1 → with_flash d2 s1 s2 → with_flash d2 s s2.
Proof. intros [f1 ->] [f2 ->]. by exists f2. Qed.

Lemma bwp_area_desc i Q C (s : st) :
  (i <= 2 * n)%nat → Q (mk_desc (aoff i) L (aid i)) s → bwp (area_desc req (area i)) Q C s.
Proof.
  intros Hi HQ. unfold area_desc. pose proof (ly_base Hly). unfold area at 1. rewrite (proj2 (Z.leb_le _ _)) by lia.
  eapply bwp_some; [by apply (ly_desc Hly)|done].
Qed.

Lemma bwp_erase_area i Q C (s : st) :
  (i <= 2 * n)%nat →
  (∀ d' s', with_flash d' s s' → only i (flash s) d' → C s') →
  (∀ d' s', with_flash d' s s' → only i (flash s) d' → (∀ x, 0 <= x < L → ab d' i x = 255) → Q 0 s') →
  bwp (boot_erase_area torn req (area i)) Q C s.
Proof.
  intros Hi HC HQ. unfold boot_erase_area. apply bwp_bind, bwp_area_desc; [done|]. cbn [nad_flash_id nad_offset nad_length].
  destruct (fl_erase_ok (aid i) (aoff i) L (flash s)) as (d' & He & Ed); [by apply (ly_flash Hly)|].
  apply bwp_bind. eapply bwp_flash_change; [exact He| |].
  - eapply HC; [apply with_flash_self|]. intros j x Hx. by apply Htorn.
  - intros fuse. apply bwp_ret. cbn [Z.eqb negb]. apply (HQ d').
    + by exists fuse.
    + intros j x Hx. by rewrite Ed, decide_False.
    + intros x Hx. unfold ab. rewrite Ed, decide_True; [done|]. lia.
Qed.

Lemma bwp_copy_loop i j Q C f : ∀ off (s : st),
  (i <= 2 * n)%nat → (j <= 2 * n)%nat → i ≠ j → 0 <= off <= L → L - off <= Z.of_nat f →
  (∀ x, off <= x < L → ab (flash s) j x = 255) →
  (∀ d' s', with_flash d' s s' → only j (flash s) d' → C s') →
  (∀ d' s', with_flash d' s s' → only j (flash s) d' →
     (∀ x, off <= x < L → ab d' j x = ab (flash s) i x) →
     (∀ x, 0 <= x < off → ab d' j x = ab (flash s) j x) → Q 0 s') →
  bwp (copy_loop torn f (mk_desc (aoff i) L (aid i)) (mk_desc (aoff j) L (aid j)) off) Q C s.
Proof.
  induction f as [|f IH]; intros off s Hi Hj Hne Hoff Hf Her HC HQ; cbn [copy_loop nad_length nad_flash_id nad_offset].
  { rewrite (proj2 (Z.ltb_ge _ _)) by lia. apply bwp_ret. eapply (HQ (flash s)); [|apply only_refl|lia|done].
    exists (flash_fuse s). by destruct s. }
  pose proof L_pos. pose proof (ly_flash Hly i Hi) as Hfi. pose proof (ly_flash Hly j Hj) as Hfj.
  pose proof (fl_area_pos _ _ _ Hfi). pose proof (fl_area_pos _ _ _ Hfj).
  destruct (Z.ltb_spec off L) as [Hlt|Hge].
  2:{ apply bwp_ret. eapply (HQ (flash s)); [|apply only_refl|lia|done]. exists (flash_fuse s). by destruct s. }
  rewrite (u32_small (L - off)) by lia. set (c := if 1024 <? L - off then 1024 else L - off).
  assert (Hc : 0 < c <= L - off) by (unfold c; destruct (Z.ltb_spec 1024 (L - off)); lia).
  rewrite !u32_small by lia. apply bwp_bind. eapply bwp_flash_op; [apply (fl_read_ok _ _ _ _ _ _ Hfi); lia|].
  cbn [Z.eqb negb]. set (buf := _ <$> seq 0 (Z.to_nat c)).
  assert (Hbl : Z.of_nat (length buf) = c) by (unfold buf; rewrite length_fmap, length_seq; lia).
  apply bwp_bind. unfold bwrite.
  destruct (fl_write_ok (aid j) (aoff j) L (aoff j + off) buf (flash s)) as (d1 & Hw & Ed); [done|lia|lia| |].
  { intros x Hx. rewrite <- (Her (x - aoff j)) by lia. unfold ab. f_equal. lia. }
  assert (Honly : only j (flash s) d1) by (intros k x Hx; rewrite Ed, decide_False; [done|]; lia).
  eapply bwp_flash_change; [exact Hw| |].
  { assert (Hs : set_flash (flash s) s = s) by (by destruct s). rewrite Hs.
    eapply HC; [apply with_flash_self|]. intros k x Hx. apply Htorn. lia. }
  intros fuse. cbn [Z.eqb negb]. set (s1 := set_flash_fuse _ _).
  assert (Hwf : with_flash d1 s s1) by (by exists fuse).
  assert (Hab : ∀ x, 0 <= x < L → ab d1 j x = if decide (off <= x < off + c) then ab (flash s) i x else ab (flash s) j x).
  { intros x Hx. unfold ab at 1. rewrite Ed. case_decide as Hd.
    - rewrite decide_True by lia. unfold buf. rewrite list_lookup_fmap, lookup_seq_lt by lia. cbn. unfold ab. f_equal. lia.
    - rewrite decide_False by lia. done. }
  assert (Hi' : ∀ x, 0 <= x < L → ab d1 i x = ab (flash s) i x) by (intros x Hx; by apply (only_other j i)).
  apply IH; [done|done|done|lia|lia| | |].
  - intros x Hx. change (flash s1) with d1. rewrite Hab, decide_False by lia. apply Her. lia.
  - intros d' s' Hs' Hd'. apply (HC d'); [by eapply with_flash_trans|by eapply only_trans].
  - intros d' s' Hs' Hd' Hcp Hold. apply (HQ d').
    + by eapply with_flash_trans.
    + by eapply only_trans.
    + intros x Hx. destruct (decide (x < off + c)).
      * rewrite Hold by lia. change (flash s1) with d1. by rewrite Hab, decide_True by lia.
      * rewrite Hcp by lia. change (flash s1) with d1. apply Hi'. lia.
    + intros x Hx. rewrite Hold by lia. change (flash s1) with d1. by rewrite Hab, decide_False by lia.
Qed.

(** Erasing area [j] and copying area [i] there, as both ways to move a part do. *)
Lemma bwp_renew i j (K : BM Z) Q C (s : st) :
  (i <= 2 * n)%nat → (j <= 2 * n)%nat → i ≠ j →
  (∀ d' s', with_flash d' s s' → only j (flash s) d' → C s') →
  (∀ d' s', with_flash d' s s' → only j (flash s) d' → (∀ x, 0 <= x < L → ab d' j x = ab (flash s) i x) → bwp K Q C s') →
  bwp (rc ← boot_erase_area torn req (area j);
       if negb (rc =? 0) then mret rc else
       rc ← boot_copy_area torn req (area i) (area j);
       if negb (rc =? 0) then mret rc else K) Q C s.
Proof.
  intros Hi Hj Hne HC HK. apply bwp_bind, bwp_erase_area; [done|done|]. intros d1 s1 Hw1 Ho1 Her. cbn [Z.eqb negb].
  assert (Hf1 : flash s1 = d1) by (by destruct Hw1 as [? ->]).
  apply bwp_bind. unfold boot_copy_area. apply bwp_bind, bwp_area_desc; [done|]. apply bwp_bind, bwp_area_desc; [done|].
  apply bwp_bind, bwp_assert; [apply Z.leb_refl|]. cbn [nad_length]. pose proof L_pos.
  apply (bwp_copy_loop i j); [done|done|done|lia|lia|by rewrite Hf1| |].
  - intros d' s' Hw Ho. rewrite Hf1 in Ho. apply (HC d'); [by eapply with_flash_trans|by eapply only_trans].
  - intros d' s' Hw Ho Hcp _. rewrite Hf1 in Ho, Hcp. apply (HK d'); [by eapply with_flash_trans|by eapply only_trans|].
    intros x Hx. rewrite Hcp by done. by apply (only_other j i).
Qed.

(** ** The images *)

(** Byte [x] of part [p] of image [k]; the numbers of parts of the two images. *)
Context (img : Z → nat → Z → Z) (k0 k1 : nat).

Definition holds (d : D) (i : nat) (k : Z) (p : nat) : Prop := ∀ x, 0 <= x < L → ab d i x = img k p x.
Abbreviation entries := (list boot_status_entry) (only parsing).
Definition ent (k : Z) (p : nat) : boot_status_entry := (k, Z.of_nat p).

(** A part of image 0 still is where the part of image 1 belongs. *)
Definition pending (es : entries) : Prop := ∃ p, (p < k1)%nat ∧ es !! p = Some (ent 0 p).

(** What the status says of an area: nothing; a part of image 1, which is at its old or
    its new place; a part of image 0, at its place in a slot or in the scratch area.  The
    scratch area may have lost the part if another swap is due. *)
Inductive entry_ok (es : entries) (d : D) (i : nat) : boot_status_entry → Prop :=
| entry_empty : entry_ok es d i entry_none
| entry_new p : (p < k1)%nat → i = p ∨ i = (n + p)%nat → holds d i 1 p → entry_ok es d i (ent 1 p)
| entry_old p : (p < k0)%nat → i = p ∨ i = (n + p)%nat → holds d i 0 p → entry_ok es d i (ent 0 p)
| entry_scratch p : (p < k0)%nat → (p < k1)%nat → i = (2 * n)%nat → holds d i 0 p ∨ pending es → entry_ok es d i (ent 0 p).

Record swap_inv (es : entries) (d : D) : Prop := {
  si_len : length es = (2 * n + 1)%nat;
  si_entry i e : es !! i = Some e → entry_ok es d i e;
  si_uniq i j e : es !! i = Some e → es !! j = Some e → e ≠ entry_none → i = j;
  si_all1 p : (p < k1)%nat → ∃ i, es !! i = Some (ent 1 p);
}.
Definition all0 (es : entries) : Prop := ∀ p, (p < k0)%nat → ∃ i, es !! i = Some (ent 0 p).

Context (Hk0 : (1 <= k0 <= n)%nat) (Hk1 : (1 <= k1 <= n)%nat).

Lemma n_range : (1 <= n <= 127)%nat.
Proof. exact (ly_n Hly). Qed.

Lemma ent_inj k p k' p' : ent k p = ent k' p' → k = k' ∧ p = p'.
Proof. unfold ent. intros [= -> H]. split; [done|lia]. Qed.
Lemma ent_none k p : (p < n)%nat → ent k p ≠ entry_none.
Proof. pose proof n_range. unfold ent, entry_none, BOOT_IMAGE_NUM_NONE. intros Hp [= _ Heq]. lia. Qed.

Lemma si_lt es d i e : swap_inv es d → es !! i = Some e → (i <= 2 * n)%nat.
Proof. intros [Hl _ _ _] Hi%lookup_lt_Some. lia. Qed.

(** Another area of the same contents. *)
Lemma holds_only i j d d' k p :
  only i d d' → (i <= 2 * n)%nat → (j <= 2 * n)%nat → i ≠ j → holds d j k p → holds d' j k p.
Proof. intros Ho Hi Hj Hne Hh x Hx. by rewrite (only_other i j d d'), Hh. Qed.

(** What an entry says. *)
Lemma entry_ok_inv es d i k p :
  entry_ok es d i (ent k p) → k ≠ 255 →
  (k = 1 ∧ (p < k1)%nat ∧ (i = p ∨ i = (n + p)%nat) ∧ holds d i k p) ∨
  (k = 0 ∧ (p < k0)%nat ∧ ((i = p ∨ i = (n + p)%nat) ∧ holds d i k p ∨ i = (2 * n)%nat ∧ (p < k1)%nat ∧ (holds d i k p ∨ pending es))).
Proof.
  intros Hok Hp. remember (ent k p) as e eqn:E. destruct Hok as [|q Hq Hi Hh|q Hq Hi Hh|q Hq Hq1 Hi Hh].
  - by injection E as <- _.
  - apply ent_inj in E as [<- ->]. by left.
  - apply ent_inj in E as [<- ->]. right. split_and!; [done|done|by left].
  - apply ent_inj in E as [<- ->]. right. split_and!; [done|done|by right].
Qed.

(** Parts of image 1 are never in the scratch area. *)
Lemma scratch_old es d q : ¬ entry_ok es d (2 * n)%nat (ent 1 q).
Proof.
  intros Hok. remember (ent 1 q) as e eqn:E. destruct Hok as [|p Hp Hi Hh|p Hp Hi Hh|p Hp Hp1 Hi Hh];
    [done|lia|by apply ent_inj in E as [? _]|by apply ent_inj in E as [? _]].
Qed.

(** An area without a part can be written at will, and the scratch area if a swap is
    due. *)
Lemma inv_scribble es d d' j :
  swap_inv es d → only j d d' → es !! j = Some entry_none ∨ (j = (2 * n)%nat ∧ pending es) → swap_inv es d'.
Proof.
  intros Hinv Ho Hj. pose proof Hinv as [Hl He Hu Ha]. split; [done| |done|done]. intros i e Hi.
  assert (Hile : (i <= 2 * n)%nat) by (by eapply si_lt). pose proof n_range.
  assert (Hjle : (j <= 2 * n)%nat) by (destruct Hj as [Hj|[-> _]]; [by eapply si_lt|lia]).
  assert (Hcase : j ≠ i ∨ e = entry_none ∨ (i = (2 * n)%nat ∧ pending es)).
  { destruct (decide (j = i)) as [->|]; [|by left]. right. destruct Hj as [Hj|Hj]; [|by right]. left. congruence. }
  destruct Hcase as [Hne|[->|[-> Hp]]]; [|constructor|].
  - destruct (He i e Hi) as [|p Hp Hi' Hh|p Hp Hi' Hh|p Hp Hp1 Hi' Hh]; [constructor|..].
    + constructor; [done|done|]. by eapply (holds_only j).
    + apply entry_old; [done|done|]. by eapply (holds_only j).
    + apply entry_scratch; [done|done|done|]. destruct Hh as [Hh|Hh]; [left; by eapply (holds_only j)|by right].
  - destruct (He _ e Hi) as [|p Hp' Hi' Hh|p Hp' Hi' Hh|p Hp' Hp1 Hi' Hh]; [constructor|lia|lia|].
    apply entry_scratch; [done|done|done|by right].
Qed.

(** The entry of area [i] moves to area [j]. *)
Definition mv (i j : nat) (e : boot_status_entry) (es : entries) : entries := <[i := entry_none]> (<[j := e]> es).

Lemma mv_lookup i j e es m :
  i ≠ j → (i < length es)%nat → (j < length es)%nat →
  mv i j e es !! m = if decide (m = i) then Some entry_none else if decide (m = j) then Some e else es !! m.
Proof.
  intros Hne Hi Hj. unfold mv. case_decide as H1; [subst; by rewrite list_lookup_insert_eq by (by rewrite length_insert)|].
  rewrite list_lookup_insert_ne by done. case_decide as H2; [subst; by rewrite list_lookup_insert_eq|].
  by rewrite list_lookup_insert_ne.
Qed.

Lemma inv_move es d i j e ej :
  swap_inv es d → es !! i = Some e → e ≠ entry_none → es !! j = Some ej → i ≠ j →
  (∀ p, ej ≠ ent 1 p) → entry_ok (mv i j e es) d j e →
  (i ≠ (2 * n)%nat → j ≠ (2 * n)%nat → ∀ p, es !! (2 * n)%nat = Some (ent 0 p) →
     holds d (2 * n)%nat 0 p ∨ pending (mv i j e es)) →
  swap_inv (mv i j e es) d.
Proof.
  intros Hinv Hi Hen Hj Hne Hej Hok Hsc. pose proof Hinv as [Hl He Hu Ha].
  pose proof (lookup_lt_Some _ _ _ Hi) as Hil. pose proof (lookup_lt_Some _ _ _ Hj) as Hjl.
  assert (Hlook := λ m, mv_lookup i j e es m Hne Hil Hjl). pose proof n_range. split.
  - unfold mv. by rewrite !length_insert.
  - intros m em Hm. rewrite Hlook in Hm. case_decide; [injection Hm as <-; constructor|].
    case_decide; [by injection Hm as <-; subst|].
    destruct (He m em Hm) as [|p Hp Hi' Hh|p Hp Hi' Hh|p Hp Hp1 Hi' Hh]; [constructor|by constructor|by apply entry_old|].
    subst m. apply entry_scratch; [done|done|done|]. apply Hsc; [lia|lia|done].
  - intros m m' em Hm Hm' Hemn.
    assert (Hcase : ∀ m, mv i j e es !! m = Some em → (m = j ∧ em = e) ∨ (m ≠ i ∧ es !! m = Some em)).
    { intros x Hx. rewrite Hlook in Hx. case_decide; [congruence|]. case_decide; [left; split; congruence|by right]. }
    destruct (Hcase _ Hm) as [[-> ->]|[H1 H2]], (Hcase _ Hm') as [[-> E]|[H3 H4]]; [done|..].
    + by rewrite (Hu m' i e) in H3.
    + subst em. by rewrite (Hu m i e) in H1.
    + by eapply Hu.
  - intros p Hp. destruct (Ha p Hp) as [m Hm]. destruct (decide (m = i)) as [->|Hmi].
    + exists j. rewrite Hlook, decide_False, decide_True by done. congruence.
    + exists m. rewrite Hlook, decide_False by done. rewrite decide_False; [done|]. intros ->.
      rewrite Hj in Hm. injection Hm as ->. by apply (Hej p).
Qed.

Lemma all0_move es i j e : 
  all0 es → es !! i = Some e → es !! j = Some entry_none → i ≠ j → all0 (mv i j e es).
Proof.
  intros H0 Hi Hj Hne p Hp. destruct (H0 p Hp) as [m Hm]. pose proof (lookup_lt_Some _ _ _ Hi) as Hil.
  pose proof (lookup_lt_Some _ _ _ Hj) as Hjl. destruct (decide (m = i)) as [->|Hmi].
  - exists j. rewrite mv_lookup, decide_False, decide_True by done. congruence.
  - exists m. rewrite mv_lookup, decide_False by done. rewrite decide_False; [done|]. intros ->.
    rewrite Hj in Hm. injection Hm as Hm. exfalso. eapply (ent_none 0 p); [lia|done].
Qed.

(** ** Searches *)

Lemma image_areas : take (br_num_image_areas req) (br_image_areas req) = area <$> seq 0 (2 * n + 1).
Proof. rewrite (ly_num Hly), (ly_areas Hly). apply take_ge. rewrite length_fmap, length_seq. lia. Qed.

Lemma find_idx_area i : (i <= 2 * n)%nat → boot_find_image_area_idx req (area i) = Z.of_nat i.
Proof.
  intros Hi. unfold boot_find_image_area_idx. rewrite image_areas.
  enough (H : ∀ m j, (j <= i)%nat → (i < j + m)%nat → find_idx (area <$> seq j m) (area i) (Z.of_nat j) = Z.of_nat i)
    by (apply (H _ 0%nat); lia).
  induction m as [|m IH]; intros j Hj Hm; [lia|]. cbn [seq fmap list_fmap find_idx].
  destruct (Z.eqb_spec (area j) (area i)) as [E|E]; unfold area in E; [lia|].
  replace (Z.of_nat j + 1) with (Z.of_nat (S j)) by lia. apply IH; lia.
Qed.

Lemma find_part_spec es k p :
  length es = (2 * n + 1)%nat → 
  (∃ i, es !! i = Some (ent k p) ∧ find_part es (area <$> seq 0 (2 * n + 1)) k (Z.of_nat p) = area i) ∨
  ((∀ i, es !! i ≠ Some (ent k p)) ∧ find_part es (area <$> seq 0 (2 * n + 1)) k (Z.of_nat p) = -1).
Proof.
  intros Hl. rewrite <- Hl. clear Hl.
  enough (H : ∀ es j,
    (∃ i, es !! i = Some (ent k p) ∧ find_part es (area <$> seq j (length es)) k (Z.of_nat p) = area (j + i)) ∨
    ((∀ i, es !! i ≠ Some (ent k p)) ∧ find_part es (area <$> seq j (length es)) k (Z.of_nat p) = -1)) by apply (H es 0%nat).
  clear es. induction es as [|[k' p'] es IH]; intros j; [by right|].
  cbn [length seq fmap list_fmap find_part]. destruct (Z.eqb_spec k' k) as [->|Hk]; [destruct (Z.eqb_spec p' (Z.of_nat p)) as [->|Hp]|]; cbn [andb].
  - left. exists 0%nat. split; [done|]. by rewrite Nat.add_0_r.
  - destruct (IH (S j)) as [(i & Hi & E)|[Hn E]].
    + left. exists (S i). split; [done|]. by rewrite E, Nat.add_succ_r.
    + right. split; [|done]. intros [|i]; [|apply Hn]. unfold ent. intros [= H]. done.
  - destruct (IH (S j)) as [(i & Hi & E)|[Hn E]].
    + left. exists (S i). split; [done|]. by rewrite E, Nat.add_succ_r.
    + right. split; [|done]. intros [|i]; [|apply Hn]. unfold ent. intros [= H]. done.
Qed.

Lemma area_nonneg i : 0 <= area i.
Proof. pose proof (ly_base Hly). unfold area. lia. Qed.

Lemma area_inj i j : area i = area j → i = j.
Proof. unfold area. lia. Qed.

(** The index of an area from its place in flash. *)
Lemma find_desc_area i : (i <= 2 * n)%nat → find_desc (br_area_descs req) (aid i) (aoff i) 0 = area i.
Proof.
  intros Hi. pose proof (ly_base Hly). pose proof L_pos.
  assert (Hbefore : ∀ j d, (j < Z.to_nat (area i))%nat → br_area_descs req !! j = Some d →
    nad_length d ≠ 0 ∧ (nad_offset d ≠ aoff i ∨ nad_flash_id d ≠ aid i)).
  { intros j d Hj Hd. destruct (decide (j < Z.to_nat base)%nat) as [Hb|Hb].
    - destruct (ly_before Hly j d Hb Hd) as [H1 H2]. auto.
    - unfold area in Hj. assert (Hj' : j = Z.to_nat (area (j - Z.to_nat base))) by (unfold area; lia).
      rewrite Hj', (ly_desc Hly) in Hd by lia. injection Hd as <-. cbn.
      pose proof (ly_disjoint Hly (j - Z.to_nat base) i ltac:(lia) Hi ltac:(lia)). lia. }
  pose proof (ly_desc Hly i Hi) as Hd. pose proof (area_nonneg i) as Ha.
  enough (Hgen : ∀ l m z, (∀ j d, (j < m)%nat → l !! j = Some d →
      nad_length d ≠ 0 ∧ (nad_offset d ≠ aoff i ∨ nad_flash_id d ≠ aid i)) →
    l !! m = Some (mk_desc (aoff i) L (aid i)) → find_desc l (aid i) (aoff i) z = z + Z.of_nat m)
    by (rewrite (Hgen _ (Z.to_nat (area i)) 0); [lia|done|done]).
  clear Hbefore Hd. induction l as [|d l IH]; intros m z Hb Hd; [done|].
  cbn [find_desc]. destruct m as [|m].
  - injection Hd as ->. cbn. rewrite (proj2 (Z.eqb_neq L 0)), !Z.eqb_refl by lia. cbn. lia.
  - destruct (Hb 0%nat d) as [H1 H2]; [lia|done|]. rewrite (proj2 (Z.eqb_neq _ 0)) by done.
    assert (E : (nad_offset d =? aoff i) && (nad_flash_id d =? aid i) = false) by lia. rewrite E.
    rewrite (IH m (z + 1)); [lia| |done]. intros j d' Hj Hd'. apply (Hb (S j)); [lia|done].
Qed.

Lemma bwp_slot_addr i Q C (s : st) :
  (i = 0 ∨ i = 1)%nat → Q (aid (i * n), aoff (i * n)) s → bwp (boot_slot_addr req (Z.of_nat i)) Q C s.
Proof.
  intros Hi HQ. pose proof n_range. unfold boot_slot_addr. apply bwp_bind, bwp_assert; [unfold BOOT_NUM_SLOTS; lia|].
  apply bwp_bind, (bwp_some _ (area (i * n))).
  { rewrite (ly_slots Hly), Nat2Z.id. destruct Hi as [-> | ->]; [done|]. by rewrite Nat.mul_1_l. }
  apply bwp_bind, bwp_area_desc; [nia|]. by apply bwp_ret.
Qed.

Lemma bwp_slot_idx i Q C (s : st) :
  (i = 0 ∨ i = 1)%nat → Q (area (i * n)) s → bwp (boot_slot_to_area_idx req (Z.of_nat i)) Q C s.
Proof.
  intros Hi HQ. unfold boot_slot_to_area_idx. apply bwp_bind, bwp_assert; [unfold BOOT_NUM_SLOTS; lia|].
  apply bwp_bind, bwp_slot_addr; [done|]. apply bwp_ret. cbn [fst snd]. rewrite find_desc_area by nia. done.
Qed.

(** ** Moving parts *)

(** The lengths of the images, and the version that is to be tested. *)
Context (len1 len2 : Z) (ver : list Z).

(** The status when no copy is in progress: the images are in their slots. *)
Definition slots_entry (m : nat) : boot_status_entry :=
  if decide (m < k0)%nat then ent 0 m else if decide (n <= m < n + k1)%nat then ent 1 (m - n) else entry_none.
Definition init_es : entries := slots_entry <$> seq 0 (2 * n + 1).

Definition disk (es : entries) (f : F) : Prop :=
  (fs_file f BOOT_PATH_STATUS = Some (status_bytes len1 len2 es) ∨ es = init_es ∧ fs_file f BOOT_PATH_STATUS = None) ∧
  fs_file f BOOT_PATH_TEST = Some ver.

(** One of the images fits into one area. *)
Definition small : Prop := (k0 <= 1 ∨ k1 <= 1)%nat.

(** The loader can finish from here. *)
Definition recoverable (d : D) (f : F) : Prop := ∃ es, disk es f ∧ swap_inv es d ∧ (small → all0 es).
Definition crash_ok (s : st) : Prop := recoverable (flash s) (files s).

Record working (es : entries) (s : st) : Prop := {
  wk_entries : boot_status_entries s = es;
  wk_len1 : bs_img1_length s = len1;
  wk_len2 : bs_img2_length s = len2;
  wk_fuse : file_fuse s = None;
  wk_disk : disk es (files s);
  wk_inv : swap_inv es (flash s);
}.

Lemma working_crash es s d' s' :
  working es s → (small → all0 es) → with_flash d' s s' → swap_inv es d' → crash_ok s'.
Proof. intros [_ _ _ _ Hd _] H0 [fuse ->] Hinv. by exists es. Qed.

Lemma working_flash es s d' s' :
  working es s → with_flash d' s s' → swap_inv es d' → working es s'.
Proof. intros [] [fuse ->] Hinv. by split. Qed.

Lemma bwp_entry_at i e Q C (s : st) :
  boot_status_entries s !! i = Some e → Q e s → bwp (entry_at (Z.of_nat i)) Q C s.
Proof.
  intros Hi HQ. unfold entry_at. apply bwp_bind, bwp_read. rewrite (proj2 (Z.leb_le _ _)) by lia.
  eapply bwp_some; [|done]. by rewrite Nat2Z.id.
Qed.

Lemma bwp_set_entry i e Q C (s : st) :
  (i < length (boot_status_entries s))%nat → Q tt (set_entries (<[i := e]> (boot_status_entries s)) s) →
  bwp (set_entry (Z.of_nat i) e) Q C s.
Proof.
  intros Hi HQ. destruct (lookup_lt_is_Some_2 _ _ Hi) as [e' He']. unfold set_entry.
  apply bwp_bind. eapply bwp_entry_at; [done|]. apply bwp_update. by rewrite Nat2Z.id.
Qed.

(** The entries change, area [j] was filled, and the status is written. *)
Lemma bwp_commit es' Q C (s : st) :
  boot_status_entries s = es' → bs_img1_length s = len1 → bs_img2_length s = len2 → file_fuse s = None →
  fs_file (files s) BOOT_PATH_TEST = Some ver → swap_inv es' (flash s) →
  (∀ s', flash s' = flash s → working es' s' → Q 0 s') → bwp boot_write_status Q C s.
Proof.
  intros He H1 H2 Hf Ht Hinv HQ. apply bwp_write_status; [done|]. intros f Hst Hoth. apply HQ; [done|].
  split; try done. split; [left; by rewrite He, H1, H2 in Hst|]. by rewrite Hoth.
Qed.

Lemma bwp_move_area i j k p es (Q : Z → st → Prop) (s : st) :
  working es s → (small → all0 es) → es !! i = Some (ent k p) → (p < n)%nat → es !! j = Some entry_none → i ≠ j →
  holds (flash s) i k p →
  (∀ d', holds d' j k p → entry_ok (mv i j (ent k p) es) d' j (ent k p)) →
  (∀ q, i ≠ (2 * n)%nat → j ≠ (2 * n)%nat → es !! (2 * n)%nat = Some (ent 0 q) →
     holds (flash s) (2 * n)%nat 0 q ∨ pending (mv i j (ent k p) es)) →
  (∀ s', working (mv i j (ent k p) es) s' → Q 0 s') →
  bwp (boot_move_area torn req (area i) (area j) k (Z.of_nat p)) Q crash_ok s.
Proof.
  intros Hw H0 Hi Hp Hj Hne Hh Hok Hsc HQ. pose proof (wk_inv _ _ Hw) as Hinv. pose proof n_range.
  pose proof (si_lt _ _ _ _ Hinv Hi) as Hile. pose proof (si_lt _ _ _ _ Hinv Hj) as Hjle. pose proof (si_len _ _ Hinv) as Hlen.
  unfold boot_move_area. rewrite !find_idx_area by done.
  apply bwp_bind, bwp_assert; [lia|]. apply bwp_bind, bwp_assert; [lia|]. apply bwp_renew; [done|done|done| |].
  { intros d' s' Hwf Ho. eapply working_crash; [done|done|done|]. eapply inv_scribble; [done|done|by left]. }
  intros d' s' Hwf Ho Hcp. destruct Hwf as [fuse ->].
  assert (Hj' : holds d' j k p) by (intros x Hx; rewrite Hcp by done; by apply Hh).
  apply bwp_bind, bwp_set_entry; [cbn; rewrite (wk_entries _ _ Hw); lia|].
  apply bwp_bind, bwp_set_entry; [cbn; rewrite length_insert, (wk_entries _ _ Hw); lia|].
  set (es' := mv i j (ent k p) es) in *.
  assert (Hinv' : swap_inv es' d').
  { eapply inv_move; [by eapply inv_scribble; [|exact Ho|left]|done|by apply ent_none|done|done| |by apply Hok|].
    - intros q Hq. by apply (ent_none 1 q); [|symmetry] .
    - intros Hin Hjn q Hq. destruct (Hsc q Hin Hjn Hq) as [Hs|Hs]; [left|by right]. eapply (holds_only j); [done|done|lia|done|done]. }
  apply bwp_bind, (bwp_commit es'); cbn.
  - rewrite (wk_entries _ _ Hw). unfold es', mv. by apply list_insert_insert_ne.
  - apply (wk_len1 _ _ Hw).
  - apply (wk_len2 _ _ Hw).
  - apply (wk_fuse _ _ Hw).
  - apply (wk_disk _ _ Hw).
  - done.
  - intros s1 Hf1 Hw1. cbn in Hf1. apply bwp_bind.
    assert (H0' : small → all0 es') by (intros Hs; apply all0_move; auto).
    assert (Hi' : es' !! i = Some entry_none) by (unfold es'; rewrite mv_lookup, decide_True by (done || lia); done).
    apply bwp_erase_area; [done| |].
    + intros d2 s2 Hwf2 Ho2. eapply working_crash; [exact Hw1|done|done|].
      eapply inv_scribble; [apply (wk_inv _ _ Hw1)|done|by left].
    + intros d2 s2 Hwf2 Ho2 _. cbn [Z.eqb negb]. apply bwp_ret, HQ. eapply working_flash; [done|done|].
      eapply inv_scribble; [apply (wk_inv _ _ Hw1)|done|by left].
Qed.

(** A scratch area in use can only wait for a swap of a part that was not moved yet. *)
Lemma scratch_free es d p :
  swap_inv es d → (p < k0)%nat → (p < k1)%nat → es !! p = Some (ent 0 p) → small → es !! (2 * n)%nat = Some entry_none.
Proof.
  intros Hinv Hp0 Hp1 Hp Hs. pose proof n_range. pose proof (si_len _ _ Hinv) as Hlen.
  destruct (lookup_lt_is_Some_2 es (2 * n)%nat) as [e He]; [lia|].
  destruct (si_entry _ _ Hinv _ _ He) as [|q Hq Hi _|q Hq Hi _|q Hq Hq1 _ _]; [done|lia|lia|].
  assert (q = p) as -> by (unfold small in Hs; lia).
  assert (p = (2 * n)%nat); [|lia]. eapply (si_uniq _ _ Hinv); [done|done|]. apply ent_none. lia.
Qed.

(** One of the three steps of a swap: area [i] is copied to area [j], whose contents are
    not needed, and the entry of [i] is moved to [j]. *)
Lemma bwp_swap_step i j k p ej es (K : BM Z) (Q : Z → st → Prop) (s : st) :
  working es s → (small → all0 es) → es !! i = Some (ent k p) → (p < n)%nat → es !! j = Some ej → i ≠ j →
  holds (flash s) i k p →
  (small → ej = entry_none) → ej = entry_none ∨ (j = (2 * n)%nat ∧ pending es) → (∀ q, ej ≠ ent 1 q) →
  (∀ d', holds d' j k p → entry_ok (mv i j (ent k p) es) d' j (ent k p)) →
  (∀ q, i ≠ (2 * n)%nat → j ≠ (2 * n)%nat → es !! (2 * n)%nat = Some (ent 0 q) → holds (flash s) (2 * n)%nat 0 q) →
  (∀ s', working (mv i j (ent k p) es) s' → only j (flash s) (flash s') → holds (flash s') j k p →
     (small → all0 (mv i j (ent k p) es)) → bwp K Q crash_ok s') →
  bwp (rc ← boot_erase_area torn req (area j);
       if negb (rc =? 0) then mret rc else
       rc ← boot_copy_area torn req (area i) (area j);
       if negb (rc =? 0) then mret rc else
       e ← entry_at (Z.of_nat i);
       set_entry (Z.of_nat j) e ;;
       set_entry (Z.of_nat i) entry_none ;;
       rc ← boot_write_status;
       if negb (rc =? 0) then mret rc else K) Q crash_ok s.
Proof.
  intros Hw H0 Hi Hp Hj Hne Hh Hsm Hej Hej1 Hok Hsc HK. pose proof (wk_inv _ _ Hw) as Hinv. pose proof n_range.
  pose proof (si_lt _ _ _ _ Hinv Hi) as Hile. pose proof (si_lt _ _ _ _ Hinv Hj) as Hjle. pose proof (si_len _ _ Hinv) as Hlen.
  assert (Hscr : ∀ d', only j (flash s) d' → swap_inv es d').
  { intros d' Ho. eapply inv_scribble; [done|done|]. destruct Hej as [->|Hej]; [by left|by right]. }
  apply bwp_renew; [done|done|done| |].
  { intros d' s' Hwf Ho. eapply working_crash; [done|done|done|by apply Hscr]. }
  intros d' s' Hwf Ho Hcp. destruct Hwf as [fuse ->].
  assert (Hj' : holds d' j k p) by (intros x Hx; rewrite Hcp by done; by apply Hh).
  apply bwp_bind. eapply bwp_entry_at; [cbn; by rewrite (wk_entries _ _ Hw)|].
  apply bwp_bind, bwp_set_entry; [cbn; rewrite (wk_entries _ _ Hw); lia|].
  apply bwp_bind, bwp_set_entry; [cbn; rewrite length_insert, (wk_entries _ _ Hw); lia|].
  apply bwp_bind, (bwp_commit (mv i j (ent k p) es)); cbn.
  - by rewrite (wk_entries _ _ Hw).
  - apply (wk_len1 _ _ Hw).
  - apply (wk_len2 _ _ Hw).
  - apply (wk_fuse _ _ Hw).
  - apply (wk_disk _ _ Hw).
  - eapply inv_move; [by apply Hscr|done|by apply ent_none|done|done|done|by apply Hok|].
    intros Hin Hjn q Hq. left. eapply (holds_only j); [done|done|lia|done|by apply Hsc].
  - intros s1 Hf1 Hw1. cbn in Hf1. apply HK; [done|by rewrite Hf1|by rewrite Hf1|].
    intros Hs. apply all0_move; [by apply H0|done|by rewrite Hj, Hsm|done].
Qed.

Lemma bwp_swap_areas p es (Q : Z → st → Prop) (s : st) :
  working es s → (small → all0 es) → (p < k0)%nat → (p < k1)%nat →
  es !! (n + p)%nat = Some (ent 1 p) → es !! p = Some (ent 0 p) →
  (∀ es' s', working es' s' → (small → all0 es') → (all0 es → es !! (2 * n)%nat = Some entry_none → all0 es') →
     es' !! p = Some (ent 1 p) → es' !! (2 * n)%nat = Some entry_none →
     (∀ m, m ≠ p → m ≠ (n + p)%nat → m ≠ (2 * n)%nat → es' !! m = es !! m) → Q 0 s') →
  bwp (boot_swap_areas torn req (area (n + p)) 0 (Z.of_nat p) (area p) 1 (Z.of_nat p)) Q crash_ok s.
Proof.
  intros Hw H0 Hp0 Hp1 Hnew Hold HQ. pose proof n_range. pose proof (wk_inv _ _ Hw) as Hinv.
  pose proof (si_len _ _ Hinv) as Hlen. unfold boot_swap_areas. rewrite (ly_scratch Hly), !find_idx_area by lia.
  do 3 (apply bwp_bind, bwp_assert; [apply negb_true_iff, Z.eqb_neq; unfold area; lia|]).
  do 3 (apply bwp_bind, bwp_assert; [apply negb_true_iff, Z.eqb_neq; lia|]).
  destruct (lookup_lt_is_Some_2 es (2 * n)%nat) as [ej Hej]; [lia|].
  assert (Hh0 : holds (flash s) p 0 p).
  { destruct (entry_ok_inv _ _ _ _ _ (si_entry _ _ Hinv _ _ Hold)) as [(? & _)|(_ & _ & [(_ & Hh)|(? & _)])]; [lia|lia|done|lia]. }
  assert (Hh1 : holds (flash s) (n + p)%nat 1 p).
  { destruct (entry_ok_inv _ _ _ _ _ (si_entry _ _ Hinv _ _ Hnew)) as [(_ & _ & _ & Hh)|(? & _)]; [lia|done|lia]. }
  set (es1 := mv p (2 * n) (ent 0 p) es). set (es2 := mv (n + p) p (ent 1 p) es1). set (es3 := mv (2 * n) (n + p) (ent 0 p) es2).
  assert (L1 : ∀ m, es1 !! m = if decide (m = p) then Some entry_none else if decide (m = (2 * n)%nat) then Some (ent 0 p) else es !! m)
    by (intros m; apply mv_lookup; lia).
  assert (Hl1 : length es1 = (2 * n + 1)%nat) by (unfold es1, mv; by rewrite !length_insert).
  assert (L2 : ∀ m, es2 !! m = if decide (m = (n + p)%nat) then Some entry_none else if decide (m = p) then Some (ent 1 p) else es1 !! m)
    by (intros m; apply mv_lookup; lia).
  assert (Hl2 : length es2 = (2 * n + 1)%nat) by (unfold es2, mv; by rewrite !length_insert).
  assert (L3 : ∀ m, es3 !! m = if decide (m = (2 * n)%nat) then Some entry_none else if decide (m = (n + p)%nat) then Some (ent 0 p) else es2 !! m)
    by (intros m; apply mv_lookup; lia).
  assert (Hen : ∀ q, entry_none ≠ ent 1 q) by done.
  (* to the scratch area *)
  eapply (bwp_swap_step p (2 * n) 0 p ej es); [done|done|done|lia|done|lia|done| | | | | |].
  { intros Hs. pose proof (scratch_free _ _ _ Hinv Hp0 Hp1 Hold Hs). congruence. }
  { right. split; [done|]. by exists p. }
  { intros q ->. by apply (scratch_old _ _ _ (si_entry _ _ Hinv _ _ Hej)). }
  { intros d' Hh. apply entry_scratch; [done|done|done|by left]. }
  { done. }
  fold es1. intros s1 Hw1 Ho1 Hs1 H01.
  assert (Hh1' : holds (flash s1) (n + p)%nat 1 p) by (eapply (holds_only (2 * n)%nat); [done|lia|lia|lia|done]).
  (* the new part *)
  eapply (bwp_swap_step (n + p) p 1 p entry_none es1); [done|done| |lia| |lia|done|done|by left|done| | |].
  { rewrite L1, !decide_False by lia. done. }
  { rewrite L1, decide_True by done. done. }
  { intros d' Hh. apply entry_new; [done|by left|done]. }
  { intros q _ _ Hq. rewrite L1, decide_False, decide_True in Hq by lia. injection Hq as Hq. by replace q with p by lia. }
  fold es2. intros s2 Hw2 Ho2 Hs2 H02.
  assert (Hs1' : holds (flash s2) (2 * n)%nat 0 p) by (eapply (holds_only p); [done|lia|lia|lia|done]).
  (* from the scratch area *)
  eapply (bwp_swap_step (2 * n) (n + p) 0 p entry_none es2); [done|done| |lia| |lia|done|done|by left|done| | |].
  { rewrite L2, !decide_False, L1, decide_False, decide_True by lia. done. }
  { rewrite L2, decide_True by done. done. }
  { intros d' Hh. apply entry_old; [done|by right|done]. }
  { done. }
  fold es3. intros s3 Hw3 Ho3 Hs3 H03. apply bwp_ret. apply (HQ es3 s3); [done|done| | | |].
  - intros Hall Hfree. unfold es3, es2, es1. apply all0_move; [apply all0_move; [apply all0_move|..]|..]; try done; try lia.
    + fold es1. rewrite L1, !decide_False by lia. done.
    + fold es1. rewrite L1, decide_True by done. done.
    + fold es1. fold es2. rewrite L2, !decide_False, L1, decide_False, decide_True by lia. done.
    + fold es1. fold es2. rewrite L2, decide_True by done. done.
  - rewrite L3, !decide_False, L2, decide_False, decide_True by lia. done.
  - rewrite L3, decide_True by done. done.
  - intros m Hm1 Hm2 Hm3. by rewrite L3, !decide_False, L2, !decide_False, L1, !decide_False by done.
Qed.

(** ** Filling the slots *)

Context (Hlen1 : (Z.of_nat k0 - 1) * L < len1 <= Z.of_nat k0 * L).
Context (Hlen2 : (Z.of_nat k1 - 1) * L < len2 <= Z.of_nat k1 * L).

Lemma part_off p : (p < n)%nat → u32 (Z.of_nat p * L + L) = Z.of_nat (S p) * L.
Proof.
  intros Hp. pose proof (ly_total Hly). pose proof L_pos. rewrite u32_small; [lia|].
  assert (Z.of_nat (S p) * L <= Z.of_nat n * L) by (apply Z.mul_le_mono_nonneg_r; lia). lia.
Qed.

Lemma part_lt k p len : (Z.of_nat k - 1) * L < len <= Z.of_nat k * L → (Z.of_nat p * L <? len) = bool_decide (p < k)%nat.
Proof.
  intros Hl. pose proof L_pos. case_bool_decide; [apply Z.ltb_lt|apply Z.ltb_ge]; nia.
Qed.

Definition in_place (es : entries) (p : nat) : Prop := ∀ q, (q < p)%nat → es !! q = Some (ent 1 q).

Lemma in_place_pending es : in_place es k1 → ¬ pending es.
Proof. intros Hin (p & Hp & Hpe). rewrite Hin in Hpe by done. injection Hpe. lia. Qed.

(** Where part [p] of image 1 is, if it is not in place. *)
Lemma part_where es d p :
  swap_inv es d → (p < k1)%nat → es !! p ≠ Some (ent 1 p) →
  es !! (n + p)%nat = Some (ent 1 p) ∧ holds d (n + p)%nat 1 p ∧
  (es !! p = Some entry_none ∨ (p < k0)%nat ∧ es !! p = Some (ent 0 p)).
Proof.
  intros Hinv Hp Hnot. pose proof n_range. destruct (si_all1 _ _ Hinv p Hp) as [i Hi].
  destruct (entry_ok_inv _ _ _ _ _ (si_entry _ _ Hinv _ _ Hi)) as [(_ & _ & Hip & Hh)|(? & _)]; [lia| |lia].
  destruct Hip as [->| ->]; [done|]. split; [done|]. split; [done|].
  destruct (lookup_lt_is_Some_2 es p) as [e He]; [rewrite (si_len _ _ Hinv); lia|].
  pose proof (si_entry _ _ Hinv _ _ He) as Hok. destruct Hok as [|q Hq Hpq Hh'|q Hq Hpq Hh'|q Hq Hq1 Hpq Hh'].
  - by left.
  - assert (q = p) as -> by lia. congruence.
  - assert (q = p) as -> by lia. by right.
  - lia.
Qed.

Lemma fill_new m : ∀ fuel p es (Q : Z → st → Prop) (s : st),
  (p + m = k1)%nat → (m < fuel)%nat → working es s → (small → all0 es) → in_place es p →
  (∀ es' s', working es' s' → (small → all0 es') →
     (all0 es → es !! (2 * n)%nat = Some entry_none → all0 es') → in_place es' k1 → Q 0 s') →
  bwp (fill_loop torn req fuel 1 len2 (area 0) (Z.of_nat p) (Z.of_nat p * L)) Q crash_ok s.
Proof.
  induction m as [|m IH]; intros fuel p es Q s Hpm Hfu Hw H0 Hin HQ; (destruct fuel as [|fuel]; [lia|]);
    cbn [fill_loop]; rewrite (part_lt k1) by done.
  { rewrite bool_decide_false by lia. apply bwp_ret. replace p with k1 in Hin by lia. by apply (HQ es). }
  rewrite bool_decide_true by lia. pose proof (wk_inv _ _ Hw) as Hinv. pose proof n_range. pose proof (si_len _ _ Hinv) as Hlen.
  apply bwp_bind. unfold boot_find_image_part. apply bwp_bind, bwp_read, bwp_ret. rewrite image_areas, (wk_entries _ _ Hw).
  destruct (find_part_spec es 1 p Hlen) as [(i & Hi & ->)|[Hno _]].
  2:{ destruct (si_all1 _ _ Hinv p) as [i Hi]; [lia|]. by destruct (Hno i). }
  rewrite (proj2 (Z.eqb_neq (area i) (-1))) by (pose proof (area_nonneg i); lia).
  replace (area 0 + Z.of_nat p) with (area p) by (unfold area; lia). apply bwp_bind.
  assert (Hnext : ∀ es' s', working es' s' → (small → all0 es') →
    (all0 es → es !! (2 * n)%nat = Some entry_none → all0 es' ∧ es' !! (2 * n)%nat = Some entry_none) →
    in_place es' (S p) →
    bwp (if negb (0 =? 0) then mret 0 else d ← area_desc req (area p);
         fill_loop torn req fuel 1 len2 (area 0) (Z.of_nat p + 1) (u32 (Z.of_nat p * L + nad_length d))) Q crash_ok s').
  { intros es' s' Hw' H0' Hcl Hin'. cbn [Z.eqb negb]. apply bwp_bind, bwp_area_desc; [lia|]. cbn [nad_length].
    rewrite part_off by lia. replace (Z.of_nat p + 1) with (Z.of_nat (S p)) by lia.
    apply (IH fuel (S p) es'); [lia|lia|done|done|done|]. intros es2 s2 Hw2 H02 Hcl2 Hin2. apply (HQ es2); [done|done| |done].
    intros Ha Hfree. destruct (Hcl Ha Hfree). by apply Hcl2. }
  destruct (decide (es !! p = Some (ent 1 p))) as [Hpl|Hpl].
  { assert (i = p) as -> by (eapply (si_uniq _ _ Hinv); [done|done|]; apply ent_none; lia).
    rewrite Z.eqb_refl. cbn [negb]. apply bwp_ret. apply (Hnext es s); [done|done|done|].
    intros q Hq. destruct (decide (q = p)) as [->|]; [done|]. apply Hin. lia. }
  destruct (part_where es (flash s) p Hinv) as (Hnp & Hh & Hdst); [lia|done|].
  assert (i = (n + p)%nat) as -> by (eapply (si_uniq _ _ Hinv); [done|done|]; apply ent_none; lia).
  rewrite (proj2 (Z.eqb_neq _ _)) by (unfold area; lia). cbn [negb]. rewrite find_idx_area by lia.
  assert (Hu8 : u8 (Z.of_nat p) = Z.of_nat p) by (unfold u8; rewrite Z.mod_small; lia). rewrite Hu8.
  apply bwp_bind. destruct Hdst as [Hdst|[Hp0 Hdst]].
  - eapply bwp_entry_at; [by rewrite (wk_entries _ _ Hw)|]. cbn [fst entry_none]. rewrite Z.eqb_refl.
    assert (Hlk := λ m, mv_lookup (n + p) p (ent 1 p) es m ltac:(lia) ltac:(lia) ltac:(lia)).
    apply (bwp_move_area (n + p) p 1 p es); [done|done|done|lia|done|lia|done| | |].
    + intros d' Hh'. apply entry_new; [lia|by left|done].
    + intros q _ _ Hq. destruct (entry_ok_inv _ _ _ _ _ (si_entry _ _ Hinv _ _ Hq)) as [(? & _)|(_ & Hq0 & Hc)]; [lia|lia|].
      destruct Hc as [[Hc _]|(_ & Hq1 & [Hc|(r & Hr & Hpr)])]; [lia|by left|]. right. exists r. split; [done|].
      rewrite Hlk, !decide_False; [done|intros ->|lia]. by rewrite Hdst in Hpr.
    + intros s' Hw'. apply (Hnext _ s' Hw').
      * intros Hs. apply all0_move; [by apply H0|done|done|lia].
      * intros Ha Hfree. split; [apply all0_move; done || lia|]. by rewrite Hlk, !decide_False by lia.
      * intros q Hq. rewrite Hlk, decide_False by lia. case_decide; [by subst|]. apply Hin. lia.
  - eapply bwp_entry_at; [by rewrite (wk_entries _ _ Hw)|]. cbn [fst ent]. cbn [Z.eqb]. change (Z.lxor 1 1) with 0.
    apply (bwp_swap_areas p es); [done|done|done|lia|done|done|].
    intros es' s' Hw' H0' Hcl Hp' Hsc Hoth. apply (Hnext es' s'); [done|done|by auto|].
    intros q Hq. destruct (decide (q = p)) as [->|]; [done|]. rewrite Hoth by lia. apply Hin. lia.
Qed.

Definition in_place0 (es : entries) (p : nat) : Prop := ∀ q, (q < p)%nat → es !! (n + q)%nat = Some (ent 0 q).

(** All parts of image 1 are in the first slot. *)
Definition new_in_slot (d : D) : Prop := ∀ p, (p < k1)%nat → holds d p 1 p.
Definition old_in_slot (d : D) : Prop := ∀ p, (p < k0)%nat → holds d (n + p)%nat 0 p.

Lemma in_place_new es d : swap_inv es d → in_place es k1 → new_in_slot d.
Proof.
  intros Hinv Hin p Hp. specialize (Hin p Hp).
  destruct (entry_ok_inv _ _ _ _ _ (si_entry _ _ Hinv _ _ Hin)) as [(_ & _ & _ & Hh)|(? & _)]; [lia|done|lia].
Qed.

Lemma in_place_old es d : swap_inv es d → in_place0 es k0 → old_in_slot d.
Proof.
  intros Hinv Hin p Hp. specialize (Hin p Hp).
  destruct (entry_ok_inv _ _ _ _ _ (si_entry _ _ Hinv _ _ Hin)) as [(? & _)|(_ & _ & [(_ & Hh)|(? & _)])]; [lia|lia|done|].
  lia.
Qed.

Lemma fill_old m : ∀ fuel p es (Q : Z → st → Prop) (s : st),
  (p + m = k0)%nat → (m < fuel)%nat → working es s → (small → all0 es) → in_place es k1 → in_place0 es p →
  (∀ es' s', working es' s' → in_place es' k1 → in_place0 es' k0 → Q 0 s') →
  (∀ s', ¬ all0 es → file_fuse s' = None → new_in_slot (flash s') → Q BOOT_EBADIMAGE s') →
  bwp (fill_loop torn req fuel 0 len1 (area n) (Z.of_nat p) (Z.of_nat p * L)) Q crash_ok s.
Proof.
  induction m as [|m IH]; intros fuel p es Q s Hpm Hfu Hw H0 Hin1 Hin HQ HQ'; (destruct fuel as [|fuel]; [lia|]);
    cbn [fill_loop]; rewrite (part_lt k0) by done.
  { rewrite bool_decide_false by lia. apply bwp_ret. replace p with k0 in Hin by lia. by apply (HQ es). }
  rewrite bool_decide_true by lia. pose proof (wk_inv _ _ Hw) as Hinv. pose proof n_range. pose proof (si_len _ _ Hinv) as Hlen.
  apply bwp_bind. unfold boot_find_image_part. apply bwp_bind, bwp_read, bwp_ret. rewrite image_areas, (wk_entries _ _ Hw).
  destruct (find_part_spec es 0 p Hlen) as [(i & Hi & ->)|[Hno ->]].
  2:{ cbn [Z.eqb Pos.eqb]. apply bwp_ret. apply HQ'; [|apply (wk_fuse _ _ Hw)|by eapply in_place_new].
      intros Ha. destruct (Ha p) as [i Hi]; [lia|]. by apply (Hno i). }
  rewrite (proj2 (Z.eqb_neq (area i) (-1))) by (pose proof (area_nonneg i); lia).
  replace (area n + Z.of_nat p) with (area (n + p)) by (unfold area; lia). apply bwp_bind.
  assert (Hh : holds (flash s) i 0 p).
  { destruct (entry_ok_inv _ _ _ _ _ (si_entry _ _ Hinv _ _ Hi)) as [(? & _)|(_ & _ & [(_ & Hh)|(_ & _ & [Hh|Hpe])])]; try done; try lia.
    by destruct (in_place_pending es Hin1). }
  assert (Hnext : ∀ es' s', working es' s' → (small → all0 es') → (all0 es → all0 es') → in_place es' k1 → in_place0 es' (S p) →
    bwp (if negb (0 =? 0) then mret 0 else d ← area_desc req (area (n + p));
         fill_loop torn req fuel 0 len1 (area n) (Z.of_nat p + 1) (u32 (Z.of_nat p * L + nad_length d))) Q crash_ok s').
  { intros es' s' Hw' H0' Ha Hin1' Hin'. cbn [Z.eqb negb]. apply bwp_bind, bwp_area_desc; [lia|]. cbn [nad_length].
    rewrite part_off by lia. replace (Z.of_nat p + 1) with (Z.of_nat (S p)) by lia.
    apply (IH fuel (S p) es'); [lia|lia|done|done|done|done|done|]. intros s2 Hn. apply HQ'. auto. }
  destruct (decide (i = (n + p)%nat)) as [->|Hne].
  { rewrite Z.eqb_refl. cbn [negb]. apply bwp_ret. apply (Hnext es s); [done|done|done|done|].
    intros q Hq. destruct (decide (q = p)) as [->|]; [done|]. apply Hin. lia. }
  assert (Hdst : es !! (n + p)%nat = Some entry_none).
  { destruct (lookup_lt_is_Some_2 es (n + p)%nat) as [e He]; [lia|].
    pose proof (si_entry _ _ Hinv _ _ He) as Hok. destruct Hok as [|q Hq Hpq Hh'|q Hq Hpq Hh'|q Hq Hq1 Hpq Hh'].
    - done.
    - assert (q = p) as -> by lia. assert ((n + p)%nat = p); [|lia].
      eapply (si_uniq _ _ Hinv); [done|by apply Hin1|]. apply ent_none. lia.
    - assert (q = p) as -> by lia. destruct Hne. eapply (si_uniq _ _ Hinv); [done|done|]. apply ent_none. lia.
    - lia. }
  assert (Hi1 : ∀ q, (q < k1)%nat → i ≠ q).
  { intros q Hq ->. rewrite Hin1 in Hi by done. by injection Hi. }
  rewrite (proj2 (Z.eqb_neq _ _)) by (unfold area; lia). cbn [negb]. rewrite find_idx_area by lia.
  assert (Hu8 : u8 (Z.of_nat p) = Z.of_nat p) by (unfold u8; rewrite Z.mod_small; lia). rewrite Hu8.
  pose proof (si_lt _ _ _ _ Hinv Hi) as Hile.
  apply bwp_bind. eapply bwp_entry_at; [by rewrite (wk_entries _ _ Hw)|]. cbn [fst entry_none]. rewrite Z.eqb_refl.
  assert (Hlk := λ m, mv_lookup i (n + p) (ent 0 p) es m Hne ltac:(lia) ltac:(lia)).
  apply (bwp_move_area i (n + p) 0 p es); [done|done|done|lia|done|done|done| | |].
  - intros d' Hh'. apply entry_old; [lia|by right|done].
  - intros q _ _ Hq. left.
    destruct (entry_ok_inv _ _ _ _ _ (si_entry _ _ Hinv _ _ Hq)) as [(? & _)|(_ & _ & [(_ & Hh')|(_ & _ & [Hh'|Hpe])])]; try done; try lia.
    by destruct (in_place_pending es Hin1).
  - intros s' Hw'. assert (Ha' : all0 es → all0 (mv i (n + p) (ent 0 p) es)) by (intros Ha; by apply all0_move).
    apply (Hnext _ s' Hw'); [by auto|done| |].
    + intros q Hq. rewrite Hlk, decide_False by (specialize (Hi1 q Hq); lia). rewrite decide_False by lia. by apply Hin1.
    + intros q Hq. rewrite Hlk. destruct (decide (q = p)) as [->|Hqp].
      * by rewrite decide_False, decide_True by lia.
      * rewrite decide_False; [rewrite decide_False by lia; apply Hin; lia|]. intros Heq.
        rewrite <- Heq, (Hin q) in Hi by lia. injection Hi as Hi. lia.
Qed.

Lemma descs_enough : (2 * n < length (br_area_descs req))%nat.
Proof.
  pose proof (ly_desc Hly (2 * n) ltac:(lia)) as Hd%lookup_lt_Some. pose proof (ly_base Hly). unfold area in Hd. lia.
Qed.

(** The copy puts image 1 into the first slot, and image 0 into the second unless it is
    lost. *)
Lemma bwp_copy_image es (Q : Z → st → Prop) (s : st) :
  working es s → (small → all0 es) →
  (∀ s', file_fuse s' = None → new_in_slot (flash s') → old_in_slot (flash s') →
     fs_file (files s') BOOT_PATH_TEST = Some ver → Q 0 s') →
  (∀ s', ¬ (all0 es ∧ (small ∨ es !! (2 * n)%nat = Some entry_none)) → new_in_slot (flash s') → Q BOOT_EBADIMAGE s') →
  bwp (boot_copy_image torn req len1 len2) Q crash_ok s.
Proof.
  intros Hw H0 HQ HQ'. pose proof n_range. pose proof descs_enough. unfold boot_copy_image.
  apply bwp_bind, (bwp_slot_idx 0); [by left|]. cbn [Nat.mul]. apply bwp_bind. unfold boot_fill_slot.
  change 0 with (Z.of_nat 0) at 2. replace 0 with (Z.of_nat 0 * L) at 1 by lia.
  apply (fill_new k1 _ 0 es); [lia|lia|done|done|by intros q Hq; lia|].
  intros es1 s1 Hw1 H01 Hcl Hin1. cbn [Z.eqb negb]. apply bwp_bind, (bwp_slot_idx 1); [by right|]. rewrite Nat.mul_1_l.
  apply bwp_bind. change 0 with (Z.of_nat 0) at 3. replace 0 with (Z.of_nat 0 * L) at 2 by lia.
  apply (fill_old k0 _ 0 es1); [lia|lia|done|done|done|by intros q Hq; lia| |].
  - intros es2 s2 Hw2 Hin2 Hin0. cbn [Z.eqb negb]. apply bwp_ret. pose proof (wk_inv _ _ Hw2).
    apply HQ; [apply (wk_fuse _ _ Hw2)|by eapply in_place_new|by eapply in_place_old|apply (wk_disk _ _ Hw2)].
  - intros s2 Hno Hf Hnew. cbn [Z.eqb negb]. apply bwp_ret, HQ'; [|done]. intros [Ha [Hs|Hfree]]; apply Hno; auto.
Qed.

(** ** The headers and the status of a new start *)

Definition hdr (k : Z) : image_header := (λ i, img k 0 (Z.of_nat i)) <$> seq 0 32.

Context (Hmagic0 : ih_magic (hdr 0) = IMAGE_MAGIC) (Hmagic1 : ih_magic (hdr 1) = IMAGE_MAGIC).
Context (Hsize0 : ih_img_size (hdr 0) = len1) (Hsize1 : ih_img_size (hdr 1) = len2).
Context (Hver : ver = ih_ver (hdr 1)) (Hver0 : ih_ver (hdr 0) ≠ ver).

Lemma bwp_read_header i k Q C (s : st) :
  (i <= 2 * n)%nat → holds (flash s) i k 0 → ih_magic (hdr k) = IMAGE_MAGIC →
  Q (0, hdr k) s → bwp (boot_read_image_header (aid i, aoff i)) Q C s.
Proof.
  intros Hi Hh Hm HQ. unfold boot_read_image_header. cbn [fst snd]. apply bwp_bind. pose proof L_pos.
  eapply bwp_flash_op; [apply (fl_read_ok _ _ _ _ _ _ (ly_flash Hly i Hi)); unfold IMAGE_HEADER_SIZE; lia|].
  assert (Hb : (λ m, fl_byte (flash s) (aid i) (aoff i + Z.of_nat m)) <$> seq 0 (Z.to_nat IMAGE_HEADER_SIZE) = hdr k).
  { apply list_fmap_ext. intros m x Hx. apply lookup_seq in Hx as [-> Hx]. apply Hh. change (Z.to_nat IMAGE_HEADER_SIZE) with 32%nat in Hx. lia. }
  rewrite Hb. cbn [Z.eqb negb]. rewrite Hm, Z.eqb_refl. cbn [negb]. apply bwp_ret.
  assert (Hs : set_flash (flash s) s = s) by (by destruct s). by rewrite Hs.
Qed.

Lemma bwp_read_headers a b Q C (s : st) :
  holds (flash s) 0 a 0 → holds (flash s) n b 0 →
  ih_magic (hdr a) = IMAGE_MAGIC → ih_magic (hdr b) = IMAGE_MAGIC →
  Q [hdr a; hdr b] s → bwp (boot_read_image_headers [(aid 0, aoff 0); (aid n, aoff n)]) Q C s.
Proof.
  intros Ha Hb Hma Hmb HQ. pose proof n_range. cbn [boot_read_image_headers].
  apply bwp_bind, (bwp_read_header 0 a); [lia|done|done|]. rewrite Hma, Z.eqb_refl. cbn [Z.eqb negb orb].
  apply bwp_bind, bwp_bind, (bwp_read_header n b); [lia|done|done|]. rewrite Hmb, Z.eqb_refl. cbn [Z.eqb negb orb].
  by apply bwp_bind, bwp_ret, bwp_ret, bwp_ret.
Qed.

Lemma bwp_find_start i Q C (s : st) :
  (i <= 2 * n)%nat → Q (Z.of_nat i, area i) s →
  bwp (find_start req (area <$> seq 0 (2 * n + 1)) (aid i) (aoff i) 0) Q C s.
Proof.
  intros Hi HQ. enough (Hgen : ∀ m j, (j <= i)%nat → (i < j + m)%nat → (j + m <= 2 * n + 1)%nat →
    bwp (find_start req (area <$> seq j m) (aid i) (aoff i) (Z.of_nat j)) Q C s) by (apply (Hgen _ 0%nat); lia).
  induction m as [|m IH]; intros j Hj Hm Hb; [lia|]. cbn [seq fmap list_fmap find_start].
  apply bwp_bind, bwp_area_desc; [lia|]. cbn [nad_offset nad_flash_id]. destruct (decide (j = i)) as [->|Hne].
  - rewrite !Z.eqb_refl. by apply bwp_ret.
  - pose proof (ly_disjoint Hly j i ltac:(lia) Hi Hne). pose proof L_pos.
    assert (E : (aoff j =? aoff i) && (aid j =? aid i) = false) by lia. rewrite E.
    replace (Z.of_nat j + 1) with (Z.of_nat (S j)) by lia. apply IH; lia.
Qed.

Lemma bwp_build_loop k i c len Q C : (Z.of_nat c - 1) * L < len <= Z.of_nat c * L → (c <= n)%nat → (i + c <= 2 * n)%nat →
  ∀ r p fuel (s : st), (p + r = c)%nat → (r < fuel)%nat →
  length (boot_status_entries s) = (2 * n + 1)%nat →
  (∀ q, (p <= q < c)%nat → boot_status_entries s !! (i + q)%nat = Some entry_none) →
  (∀ es', length es' = (2 * n + 1)%nat →
     (∀ m, es' !! m = if decide (i + p <= m < i + c)%nat then Some (ent k (m - i)) else boot_status_entries s !! m) →
     Q (Z.of_nat (i + c)) (set_entries es' s)) →
  bwp (build_loop req fuel k len (Z.of_nat (i + p)) (area (i + p)) (Z.of_nat p) (Z.of_nat p * L)) Q C s.
Proof.
  intros Hl Hc Hic. pose proof n_range. induction r as [|r IH]; intros p fuel s Hpr Hf Hlen Hnone HQ;
    (destruct fuel as [|fuel]; [lia|]); cbn [build_loop]; rewrite (part_lt c) by done.
  { rewrite bool_decide_false by lia. apply bwp_ret. assert (p = c) as -> by lia.
    assert (Hs : set_entries (boot_status_entries s) s = s) by (by destruct s). rewrite <- Hs. apply HQ; [done|].
    intros m. by rewrite decide_False by lia. }
  rewrite bool_decide_true by lia. apply bwp_bind. eapply bwp_entry_at; [apply Hnone; lia|].
  apply bwp_bind, bwp_assert; [done|]. apply bwp_bind, bwp_set_entry; [lia|].
  apply bwp_bind, bwp_area_desc; [lia|]. cbn [nad_length]. rewrite part_off by lia.
  assert (Hu8 : u8 (Z.of_nat p) = Z.of_nat p) by (unfold u8; rewrite Z.mod_small; lia). rewrite Hu8.
  replace (Z.of_nat (i + p) + 1) with (Z.of_nat (i + S p)) by lia. replace (area (i + p) + 1) with (area (i + S p)) by (unfold area; lia).
  replace (Z.of_nat p + 1) with (Z.of_nat (S p)) by lia. apply IH; [lia|lia| | |]; cbn.
  - by rewrite length_insert.
  - intros q Hq. rewrite list_lookup_insert_ne by lia. apply Hnone. lia.
  - intros es' Hl' Hes'. apply (HQ es' Hl'). intros m. rewrite Hes'. destruct (decide (m = (i + p)%nat)) as [->|Hm].
    + rewrite decide_False, decide_True, list_lookup_insert_eq by lia. unfold ent. do 3 f_equal. lia.
    + rewrite list_lookup_insert_ne by done. repeat case_decide; done || lia.
Qed.

Lemma bwp_build_one k i c len (Q : unit → st → Prop) C (s : st) :
  (Z.of_nat c - 1) * L < len <= Z.of_nat c * L → (c <= n)%nat → (i + c <= 2 * n)%nat →
  length (boot_status_entries s) = (2 * n + 1)%nat →
  (∀ q, (q < c)%nat → boot_status_entries s !! (i + q)%nat = Some entry_none) →
  (∀ es', length es' = (2 * n + 1)%nat →
     (∀ m, es' !! m = if decide (i <= m < i + c)%nat then Some (ent k (m - i)) else boot_status_entries s !! m) →
     Q tt (set_entries es' s)) →
  bwp (boot_build_status_one req k (aid i) (aoff i) len) Q C s.
Proof.
  intros Hl Hc Hic Hlen Hnone HQ. unfold boot_build_status_one. rewrite image_areas, (ly_num Hly).
  apply bwp_bind, bwp_find_start; [lia|]. cbn [fst snd]. apply bwp_bind.
  pose proof (bwp_build_loop k i c len (λ i, bwp (bassert (i <=? Z.of_nat (2 * n + 1))) Q C) C Hl Hc Hic c 0 (S (2 * n + 1)) s) as Hb.
  rewrite Nat.add_0_r in Hb. apply Hb; [lia|lia|done|intros q Hq; apply Hnone; lia|].
  intros es' Hl' He'. apply bwp_assert; [apply Z.leb_le; lia|]. by apply HQ.
Qed.

(** The status built from the headers of the slots. *)
Lemma bwp_build_status a b ca cb la lb (Q : unit → st → Prop) C (s : st) :
  boot_img_hdrs s = [hdr a; hdr b] → ih_magic (hdr a) = IMAGE_MAGIC → ih_magic (hdr b) = IMAGE_MAGIC →
  ih_img_size (hdr a) = la → ih_img_size (hdr b) = lb →
  (Z.of_nat ca - 1) * L < la <= Z.of_nat ca * L → (Z.of_nat cb - 1) * L < lb <= Z.of_nat cb * L →
  (ca <= n)%nat → (cb <= n)%nat →
  (∀ es', length es' = (2 * n + 1)%nat →
     (∀ m, (m <= 2 * n)%nat → es' !! m = Some (if decide (m < ca)%nat then ent 0 m
             else if decide (n <= m < n + cb)%nat then ent 1 (m - n) else entry_none)) →
     Q tt (set_entries es' (set_lengths la lb s))) →
  bwp (boot_build_status req) Q C s.
Proof.
  intros Hh Hma Hmb Hsa Hsb Hla Hlb Hca Hcb HQ. pose proof n_range. unfold boot_build_status.
  apply bwp_bind, bwp_update. rewrite (ly_num Hly).
  apply bwp_bind. unfold hdr_at at 1. apply bwp_bind, bwp_read, (bwp_some _ (hdr a)); [by cbn; rewrite Hh|].
  rewrite Hma, Z.eqb_refl. apply bwp_bind, bwp_bind, bwp_update, bwp_bind, (bwp_slot_addr 0); [by left|]. cbn [Nat.mul fst snd].
  rewrite Hsa. apply (bwp_build_one 0 0 ca); [done|done|lia|by cbn [boot_status_entries set_lengths set_entries]; rewrite length_replicate| |].
  { intros q Hq. cbn [boot_status_entries set_lengths set_entries Nat.add]. rewrite lookup_replicate_2; [done|lia]. }
  intros es1 Hl1 He1. apply bwp_bind. unfold hdr_at. apply bwp_bind, bwp_read, (bwp_some _ (hdr b)); [by cbn; rewrite Hh|].
  rewrite Hmb, Z.eqb_refl. apply bwp_bind, bwp_update, bwp_bind, (bwp_slot_addr 1); [by right|]. rewrite Nat.mul_1_l. cbn [fst snd].
  assert (He1' : ∀ m, (m <= 2 * n)%nat → es1 !! m = Some (if decide (m < ca)%nat then ent 0 m else entry_none)).
  { intros m Hm. rewrite He1. cbn [boot_status_entries set_lengths set_entries Nat.add]. case_decide; [rewrite decide_True, Nat.sub_0_r by lia; done|].
    rewrite decide_False by lia. rewrite lookup_replicate_2; [done|lia]. }
  rewrite Hsb. apply (bwp_build_one 1 n cb); [done|done|lia|done| |].
  { intros q Hq. cbn. rewrite He1', decide_False by lia. done. }
  intros es2 Hl2 He2. cbn in He2. apply (HQ es2 Hl2). intros m Hm. rewrite He2, He1' by done.
  repeat case_decide; done || lia.
Qed.

(** ** A start of the loader *)

Lemma ver_length : length ver = 8%nat.
Proof. rewrite Hver. unfold ih_ver. rewrite length_take, length_drop. unfold hdr. by rewrite length_fmap, length_seq. Qed.

Lemma bwp_select hdrs slot Q C (s : st) :
  boot_img_hdrs s = hdrs → fs_file (files s) BOOT_PATH_TEST = Some ver → find_slot hdrs ver 0 = slot → slot ≠ -1 →
  (∀ f, (∀ q, fs_file f q = fs_file (files s) q) → Q slot (set_files f s)) →
  bwp boot_select_image_slot Q C s.
Proof.
  intros Hh Ht Hf Hne HQ. unfold boot_select_image_slot, boot_vect_read_test. apply bwp_bind.
  eapply bwp_vect_read; [done|apply ver_length|]. intros f Ef. cbn [fst snd Z.eqb]. apply bwp_bind, bwp_bind.
  unfold boot_find_image_slot. apply bwp_bind, bwp_read, bwp_ret. cbn. rewrite Hh, Hf, (proj2 (Z.eqb_neq _ _)) by done.
  apply bwp_ret. rewrite (proj2 (Z.eqb_neq _ _)) by done. cbn [negb]. apply bwp_ret. by apply HQ.
Qed.

Lemma find_slot_new : find_slot [hdr 1; hdr 0] ver 0 = 0.
Proof. cbn. by rewrite bool_decide_true. Qed.
Lemma find_slot_old : find_slot [hdr 0; hdr 1] ver 0 = 1.
Proof. cbn [find_slot]. by rewrite bool_decide_false, bool_decide_true. Qed.

Lemma inv_ext es d d' : (∀ j x, fl_byte d' j x = fl_byte d j x) → swap_inv es d → swap_inv es d'.
Proof.
  intros Ed Hinv. pose proof n_range. pose proof Hinv as [Hl He Hu Ha].
  assert (Hh : ∀ i k p, holds d i k p → holds d' i k p) by (intros i k p Hh x Hx; unfold ab; rewrite Ed; by apply Hh).
  split; [done| |done|done]. intros i e Hi. destruct (He i e Hi) as [|p Hp Hi' H1|p Hp Hi' H1|p Hp Hp1 Hi' H1].
  - constructor.
  - constructor; auto.
  - apply entry_old; auto.
  - apply entry_scratch; auto. destruct H1; auto.
Qed.

Lemma init_holds d : swap_inv init_es d → (∀ p, (p < k0)%nat → holds d p 0 p) ∧ (∀ p, (p < k1)%nat → holds d (n + p)%nat 1 p).
Proof.
  intros Hinv. pose proof n_range. assert (Hlk : ∀ m, (m <= 2 * n)%nat → init_es !! m = Some (slots_entry m)).
  { intros m Hm. unfold init_es. rewrite list_lookup_fmap, lookup_seq_lt by lia. done. }
  split; intros p Hp.
  - assert (He : init_es !! p = Some (ent 0 p)) by (rewrite Hlk by lia; unfold slots_entry; by rewrite decide_True).
    destruct (entry_ok_inv _ _ _ _ _ (si_entry _ _ Hinv _ _ He)) as [(? & _)|(_ & _ & [(_ & Hh)|(? & _)])]; [lia|lia|done|lia].
  - assert (He : init_es !! (n + p)%nat = Some (ent 1 p)).
    { rewrite Hlk by lia. unfold slots_entry. rewrite decide_False, decide_True by lia. unfold ent. do 2 f_equal. lia. }
    destruct (entry_ok_inv _ _ _ _ _ (si_entry _ _ Hinv _ _ He)) as [(_ & _ & _ & Hh)|(? & _)]; [lia|done|lia].
Qed.

(** The result of a start that is not interrupted, from the status [es]. *)
Definition booted (es : entries) (r : Z * option boot_rsp) (s : st) : Prop :=
  new_in_slot (flash s) ∧
  ((r = (0, Some (mk_rsp (hdr 1) (aid 0) (aoff 0))) ∧ old_in_slot (flash s) ∧
    fs_file (files s) BOOT_PATH_STATUS = None ∧ fs_file (files s) BOOT_PATH_TEST = None) ∨
   (r = (BOOT_EBADIMAGE, None) ∧ ¬ (all0 es ∧ (small ∨ es !! (2 * n)%nat = Some entry_none)))).

Lemma bwp_finish es a0 (s : st) :
  file_fuse s = None → new_in_slot (flash s) → old_in_slot (flash s) → a0 = (aid 0, aoff 0) →
  bwp (file_change (fs_unlink f_ops BOOT_PATH_STATUS) ;; boot_vect_delete_test ;;
       mret (0, Some (mk_rsp (hdr 1) a0.1 a0.2))) (booted es) crash_ok s.
Proof.
  intros Hf Hn Ho ->. apply bwp_bind, bwp_unlink; [done|]. intros rc f Ef. apply bwp_bind, bwp_unlink; [done|].
  intros rc' f' Ef'. apply bwp_ret. split; [done|]. left. cbn. split; [done|]. split; [done|]. split.
  - rewrite Ef', decide_False, Ef, decide_True by done. done.
  - by rewrite Ef', decide_True.
Qed.

Lemma len_range : 0 < len1 < 2 ^ 32 - 1 ∧ 0 < len2 < 2 ^ 32 - 1.
Proof.
  pose proof L_pos. pose proof (ly_total Hly).
  assert (Z.of_nat k0 * L <= Z.of_nat n * L) by (apply Z.mul_le_mono_nonneg_r; lia).
  assert (Z.of_nat k1 * L <= Z.of_nat n * L) by (apply Z.mul_le_mono_nonneg_r; lia). nia.
Qed.

Lemma bwp_boot_go es d f fuse :
  disk es f → swap_inv es d → (small → all0 es) →
  bwp (boot_go torn true req) (booted es) crash_ok (power_on (d, f) fuse None).
Proof.
  intros Hdisk Hinv H0. pose proof n_range. destruct len_range as [Hr1 Hr2]. unfold boot_go, boot_init_flash.
  apply bwp_bind, bwp_bind. destruct (fl_init_ok d) as (d1 & Hi1 & Ed1). eapply bwp_flash_op; [exact Hi1|]. cbn [Z.eqb negb].
  destruct (f_init_ok f) as (f1 & Hf1 & Ef1). apply bwp_bind. eapply bwp_file_op; [exact Hf1|]. cbn [Z.eqb negb].
  destruct (f_detect_ok f1) as (rc2 & f2 & Hf2 & Ef2). apply bwp_bind. eapply bwp_file_op; [exact Hf2|].
  destruct (f_mkdir_ok "/boot" f2) as (rc3 & f3 & Hf3 & Ef3). apply bwp_bind. eapply bwp_file_op; [exact Hf3|].
  apply bwp_ret. cbn [Z.eqb negb]. apply (inv_ext es d d1) in Hinv; [|done].
  assert (Hf : ∀ q, fs_file f3 q = fs_file f q) by (intros q; by rewrite Ef3, Ef2, Ef1).
  set (s := set_files f3 _). destruct Hdisk as [Hst Htest]. apply bwp_bind. destruct Hst as [Hst|[-> Hst]].
  - (* a copy is in progress *)
    eapply (bwp_read_status req len1 len2 es); [cbn; by rewrite Hf|by rewrite (ly_num Hly); apply si_len with d1|done|done|].
    intros f4 Ef4. cbn [Z.eqb]. apply bwp_bind, bwp_bind, bwp_read, bwp_bind, bwp_read. cbn [bs_img1_length bs_img2_length set_files set_entries set_lengths].
    apply (bwp_copy_image es).
    + split; try done. split; [left; cbn; by rewrite Ef4; cbn; rewrite Hf|cbn; rewrite Ef4; cbn; by rewrite Hf].
    + done.
    + intros s1 Hfu Hn Ho Ht. cbn [Z.eqb negb]. apply bwp_bind, (bwp_slot_addr 0); [by left|].
      apply bwp_bind, (bwp_slot_addr 1); [by right|]. cbn [Nat.mul]. rewrite Nat.add_0_r.
      apply bwp_bind, (bwp_read_headers 1 0); [apply Hn; lia|specialize (Ho 0%nat ltac:(lia)); by rewrite Nat.add_0_r in Ho|done|done|].
      apply bwp_bind, bwp_update. apply bwp_bind, (bwp_build_status 1 0 k1 k0 len2 len1); [done|done|done|done|done|done|done|lia|lia|].
      intros es2 _ _. apply bwp_bind. eapply bwp_select; [done|done|apply find_slot_new|done|]. intros f5 Ef5.
      unfold hdr_at. apply bwp_bind, bwp_bind, bwp_read, (bwp_some _ (hdr 1)); [done|].
      apply bwp_bind, bwp_bind, bwp_read, (bwp_some _ (hdr 0)); [done|]. cbn [Z.eqb]. apply bwp_bind, bwp_ret. cbn [fst snd Z.eqb negb].
      by apply (bwp_finish es (aid 0, aoff 0)).
    + intros s1 Hlost Hn. cbn [Z.eqb negb]. apply bwp_ret. split; [done|]. by right.
  - (* the first start *)
    eapply bwp_read_status_none; [cbn; by rewrite Hf|]. intros f4 Ef4. cbn [Z.eqb BOOT_EBADSTATUS Pos.eqb].
    apply bwp_bind, bwp_ret. cbn [Z.eqb negb]. apply bwp_bind, (bwp_slot_addr 0); [by left|].
    apply bwp_bind, (bwp_slot_addr 1); [by right|]. cbn [Nat.mul]. rewrite Nat.add_0_r.
    destruct (init_holds d1 Hinv) as [Hi0 Hin].
    apply bwp_bind, (bwp_read_headers 0 1); [apply Hi0; lia|specialize (Hin 0%nat ltac:(lia)); by rewrite Nat.add_0_r in Hin|done|done|].
    apply bwp_bind, bwp_update. apply bwp_bind, (bwp_build_status 0 1 k0 k1 len1 len2); [done|done|done|done|done|done|done|lia|lia|].
    intros es2 Hl2 He2. assert (es2 = init_es) as ->.
    { apply list_eq. intros m. destruct (decide (m <= 2 * n)%nat) as [Hm|Hm].
      - rewrite He2 by done. unfold init_es. rewrite list_lookup_fmap, lookup_seq_lt by lia. done.
      - rewrite !lookup_ge_None_2; [done|unfold init_es; rewrite length_fmap, length_seq; lia|lia]. }
    apply bwp_bind. eapply bwp_select; [done|cbn; rewrite Ef4; cbn; by rewrite Hf|apply find_slot_old|done|]. intros f5 Ef5.
    unfold hdr_at. apply bwp_bind, bwp_bind, bwp_read, (bwp_some _ (hdr 0)); [done|].
    apply bwp_bind, bwp_bind, bwp_read, (bwp_some _ (hdr 1)); [done|]. cbn [Z.eqb Pos.eqb]. apply bwp_bind, bwp_bind, bwp_read, bwp_bind, bwp_read, bwp_bind.
    cbn [bs_img1_length bs_img2_length set_files set_entries set_lengths].
    assert (Hfin : ∀ q, fs_file f5 q = fs_file f q) by (intros q; rewrite Ef5; cbn; rewrite Ef4; cbn; apply Hf).
    apply (bwp_copy_image init_es).
    + split; try done. split; [right; split; [done|]; cbn; by rewrite Hfin|cbn; by rewrite Hfin].
    + done.
    + intros s1 Hfu Hn Ho Ht. apply bwp_ret. cbn [fst snd Z.eqb negb].
      by apply (bwp_finish init_es (aid 0, aoff 0)).
    + intros s1 Hlost Hn. apply bwp_ret. cbn [fst snd Z.eqb negb BOOT_EBADIMAGE]. apply bwp_ret. split; [done|]. by right.
Qed.

(** After any number of interrupted starts. *)
Lemma boots_recover fuses : ∀ es d f,
  disk es f → swap_inv es d → (small → all0 es) →
  match boots torn true req fuses (d, f) with
  | Done r s => ∃ es', booted es' r s ∧ (small → all0 es') ∧ (fuses = [] → es' = es)
  | _ => False
  end.
Proof.
  induction fuses as [|fuse fuses IH]; intros es d f Hd Hinv H0; cbn [boots].
  - pose proof (bwp_boot_go es d f None Hd Hinv H0) as Hb. unfold bwp in Hb.
    pose proof (steady_boot_go torn req true (power_on (d, f) None None)) as Hnl. specialize (Hnl ltac:(done)).
    destruct (boot_go _ _ _ _) as [r s|s|]; [by exists es|done|done].
  - pose proof (bwp_boot_go es d f (Some fuse) Hd Hinv H0) as Hb. unfold bwp in Hb.
    destruct (boot_go _ _ _ _) as [r s|s|]; [by exists es|..|done]. destruct Hb as (es' & Hd' & Hinv' & H0').
    specialize (IH es' (flash s) (files s) Hd' Hinv' H0'). destruct (boots _ _ _ _ _) as [r s'| |]; [|done|done].
    destruct IH as (es2 & H1 & H2 & _). by exists es2.
Qed.
End areas.

(** ** The theorems *)

Section upgrade.
Context {D F : Type} `{FL : FlashApi D} `{FA : FsApi F}.
Context (n : nat) (L : Z) (aid aoff : nat → Z) (img : Z → nat → Z → Z) (k0 k1 : nat).

(** Image 0, of [k0] parts, is in the first slot and image 1, of [k1] parts, in the second;
    image 1 is to be tested, and no copy is in progress. *)
Record upgrade (d : D) (f : F) : Prop := {
  up_k0 : (1 <= k0 <= n)%nat;
  up_k1 : (1 <= k1 <= n)%nat;
  up_magic0 : ih_magic (hdr img 0) = IMAGE_MAGIC;
  up_magic1 : ih_magic (hdr img 1) = IMAGE_MAGIC;
  up_size0 : (Z.of_nat k0 - 1) * L < ih_img_size (hdr img 0) <= Z.of_nat k0 * L;
  up_size1 : (Z.of_nat k1 - 1) * L < ih_img_size (hdr img 1) <= Z.of_nat k1 * L;
  up_ver : ih_ver (hdr img 0) ≠ ih_ver (hdr img 1);
  up_old p : (p < k0)%nat → holds L aid aoff img d p 0 p;
  up_new p : (p < k1)%nat → holds L aid aoff img d (n + p) 1 p;
  up_status : fs_file f BOOT_PATH_STATUS = None;
  up_test : fs_file f BOOT_PATH_TEST = Some (ih_ver (hdr img 1));
}.

Lemma init_lookup m : (m <= 2 * n)%nat → init_es n k0 k1 !! m = Some (slots_entry n k0 k1 m).
Proof. intros Hm. unfold init_es. by rewrite list_lookup_fmap, lookup_seq_lt by lia. Qed.

Lemma init_inv d f :
  (1 <= n <= 127)%nat → upgrade d f →
  swap_inv n L aid aoff img k0 k1 (init_es n k0 k1) d ∧ all0 k0 (init_es n k0 k1) ∧
  init_es n k0 k1 !! (2 * n)%nat = Some entry_none.
Proof.
  intros Hn Hup. pose proof (up_k0 _ _ Hup). pose proof (up_k1 _ _ Hup).
  assert (Hlen : length (init_es n k0 k1) = (2 * n + 1)%nat) by (unfold init_es; by rewrite length_fmap, length_seq).
  split; [split|split].
  - done.
  - intros i e Hi. pose proof (lookup_lt_Some _ _ _ Hi). rewrite init_lookup in Hi by lia. injection Hi as <-.
    unfold slots_entry. case_decide; [apply entry_old; [done|by left|by apply (up_old _ _ Hup)]|].
    case_decide; [|constructor]. apply entry_new; [lia|right; lia|]. pose proof (up_new _ _ Hup (i - n)%nat ltac:(lia)) as Hh.
    by replace (n + (i - n))%nat with i in Hh by lia.
  - intros i j e Hi Hj He. pose proof (lookup_lt_Some _ _ _ Hi). pose proof (lookup_lt_Some _ _ _ Hj).
    rewrite init_lookup in Hi, Hj by lia. injection Hi as <-. injection Hj as Hj. revert Hj He. unfold slots_entry.
    repeat case_decide; try done; unfold ent; intros [=]; intros; lia.
  - intros p Hp. exists (n + p)%nat. rewrite init_lookup by lia. unfold slots_entry. rewrite decide_False, decide_True by lia.
    unfold ent. do 2 f_equal. lia.
  - intros p Hp. exists p. rewrite init_lookup by lia. unfold slots_entry. by rewrite decide_True.
  - rewrite init_lookup by lia. unfold slots_entry. by rewrite !decide_False by lia.
Qed.
End upgrade.

(** C3. However often power is lost, an upgrade ends with the new image in the first slot.
    After any sequence of starts that are cut off during a flash operation, which may
    leave anything in the range it works on, the next complete start either returns 0,
    boots the new image, has moved the old image to the second slot, and has removed the
    status file and the test request; or it returns BOOT_EBADIMAGE because a part of the
    old image is lost, which takes an interruption and images of at least two areas
    each.  No assertion of the loader fails. *)
Theorem boot_survives_resets {D F : Type} `{FL : FlashApi D} `{FA : FsApi F}
    (torn : Z → Z → Z → D → D) req n base L aid aoff img k0 k1 (d : D) (f : F) (fuses : list nat) :
  torn_local torn → layout req n base L aid aoff → upgrade n L aid aoff img k0 k1 d f →
  match boots torn true req fuses (d, f) with
  | Done r s =>
      new_in_slot L aid aoff img k1 (flash s) ∧
      (r = (0, Some (mk_rsp (hdr img 1) (aid 0%nat) (aoff 0%nat))) ∧
       old_in_slot n L aid aoff img k0 (flash s) ∧
       fs_file (files s) BOOT_PATH_STATUS = None ∧ fs_file (files s) BOOT_PATH_TEST = None ∨
       r = (BOOT_EBADIMAGE, None) ∧ fuses ≠ [] ∧ (2 <= k0)%nat ∧ (2 <= k1)%nat)
  | _ => False
  end.
Proof.
  intros Htorn Hly Hup. destruct (init_inv n L aid aoff img k0 k1 d f (ly_n _ _ _ _ _ _ Hly) Hup) as (Hinv & Hall & Hfree).
  pose proof (boots_recover torn req n base L aid aoff Htorn Hly img k0 k1 (up_k0 _ _ _ _ _ _ _ _ _ Hup)
    (up_k1 _ _ _ _ _ _ _ _ _ Hup) _ _ _ (up_size0 _ _ _ _ _ _ _ _ _ Hup) (up_size1 _ _ _ _ _ _ _ _ _ Hup)
    (up_magic0 _ _ _ _ _ _ _ _ _ Hup) (up_magic1 _ _ _ _ _ _ _ _ _ Hup) eq_refl eq_refl eq_refl
    (up_ver _ _ _ _ _ _ _ _ _ Hup) fuses (init_es n k0 k1) d f) as Hb.
  destruct (boots _ _ _ _ _) as [r s| |]; [|apply Hb|apply Hb];
    try (split; [right; split; [done|apply (up_status _ _ _ _ _ _ _ _ _ Hup)]|apply (up_test _ _ _ _ _ _ _ _ _ Hup)]); try done.
  destruct Hb as (es' & [Hnew Hres] & Hsm & Hes); try done.
  { split; [right; split; [done|apply (up_status _ _ _ _ _ _ _ _ _ Hup)]|apply (up_test _ _ _ _ _ _ _ _ _ Hup)]. }
  split; [done|]. destruct Hres as [Hres|[-> Hlost]]; [by left|]. right. split; [done|]. split.
  - intros ->. apply Hlost. rewrite Hes by done. split; [done|by right].
  - destruct (decide (2 <= k0 ∧ 2 <= k1)%nat) as [|Hk]; [done|]. destruct Hlost.
    assert (Hs : small k0 k1) by (unfold small; lia). split; [by apply Hsm|by left].
Qed.

(** ** An example

    A flash of five sectors of 64 bytes: two slots of two areas and the scratch area. *)
Module Example64.
Definition table : list Z := [0; 64; 128; 192; 256].
Lemma table_good : table_ok table 320.
Proof.
  split; [done|]. split; [done|]. intros i s Hi. do 5 (destruct i as [|i]; [by injection Hi as <-|]). done.
Qed.
#[export] Instance drivers : FlashDrivers (bsp_flash_dev table 320) := native_drivers table 320 table_good.
#[export] Instance flash64 : FlashApi (Z → Z) := hal_flash_api (bsp_flash_dev table 320).

Definition descs : list nffs_area_desc := (λ a, mk_desc a 64 0) <$> table.
Definition req : boot_req := mk_req (descs ++ [mk_desc 0 0 0]) [0; 1; 2; 3; 4] [0; 2] 5 4.
Definition aid (i : nat) : Z := 0.
Definition aoff (i : nat) : Z := 64 * Z.of_nat i.

(** A header, followed by bytes that tell the images and their parts apart. *)
Definition header (size v : Z) : list Z :=
  to_le32 IMAGE_MAGIC ++ [0; 0; 0; 0] ++ to_le32 32 ++ to_le32 size ++ [0; 0; 0; 0] ++ [v; 0; 0; 0; 0; 0; 0; 0] ++ [0; 0; 0; 0].
Definition image (size : Z) (k : Z) (p : nat) (x : Z) : Z :=
  if (p =? 0)%nat && (x <? 32) then default 0 (header size k !! Z.to_nat x) else 100 * k + 50 * Z.of_nat p + x.
Definition flash0 (size : Z) : Z → Z := λ x,
  let i := x / 64 in
  if i <? 2 then image size 0 (Z.to_nat i) (x mod 64)
  else if i <? 4 then image size 1 (Z.to_nat (i - 2)) (x mod 64) else 255.
Definition files0 : memfs := mk_memfs {[ BOOT_PATH_TEST := [1; 0; 0; 0; 0; 0; 0; 0] ]} None.
Definition tear (id a n : Z) (d : Z → Z) : Z → Z := λ x, if (id =? 0) && (a <=? x) && (x <? a + n) then 77 else d x.

Lemma tear_local : torn_local tear.
Proof.
  intros id a len d j x Hx. cbn. unfold tear. destruct (decide (j = 0)) as [->|]; [|done].
  destruct (Z.eqb_spec id 0), (Z.leb_spec a x), (Z.ltb_spec x (a + len)); try done. exfalso. apply Hx. lia.
Qed.

Lemma flash_area i : (i <= 4)%nat → fl_area (aid i) (aoff i) 64.
Proof.
  intros Hi. split. exists (native_dev_of table 320). split; [done|]. cbn [hf_base_addr hf_size hf_sector_cnt native_dev_of].
  unfold aoff. split; [lia|]. split; [lia|]. split; [lia|].
  assert (Hsec : ∀ j, (j <= 4)%nat → fd_sect (aid i) (Z.of_nat j) = (64 * Z.of_nat j, 64)).
  { intros j Hj. do 5 (destruct j as [|j]; [done|]). lia. }
  change (length table) with 5%nat. split.
  - intros j Hj. unfold sect_overlaps. change j with j at 1. rewrite <- (Z2Nat.id j) by lia. rewrite Hsec by lia. cbn. lia.
  - intros x Hx. exists (Z.of_nat i). rewrite Hsec by lia. cbn. lia.
Qed.

Lemma layout64 : layout req 2 0 64 aid aoff.
Proof.
  split; try done; try lia.
  - intros i Hi. do 5 (destruct i as [|i]; [done|]). lia.
  - apply flash_area.
  - intros i j Hi Hj Hne. right. unfold aoff. lia.
Qed.

Lemma upgrade64 : upgrade 2 64 aid aoff (image 100) 2 2 (flash0 100) files0.
Proof.
  split; try done; try lia.
  - intros p Hp x Hx. unfold ab. cbn. unfold flash0, aoff.
    replace ((64 * Z.of_nat p + x) / 64) with (Z.of_nat p) by (Z.to_euclidean_division_equations; lia).
    replace ((64 * Z.of_nat p + x) mod 64) with x by (Z.to_euclidean_division_equations; lia).
    rewrite (proj2 (Z.ltb_lt _ _)) by lia. by rewrite Nat2Z.id.
  - intros p Hp x Hx. unfold ab. cbn [fl_byte flash64 hal_flash_api fd_byte drivers native_drivers aid]. rewrite decide_True by done.
    unfold flash0, aoff.
    replace ((64 * Z.of_nat (2 + p) + x) / 64) with (2 + Z.of_nat p) by (Z.to_euclidean_division_equations; lia).
    replace ((64 * Z.of_nat (2 + p) + x) mod 64) with x by (Z.to_euclidean_division_equations; lia).
    rewrite (proj2 (Z.ltb_ge _ _)), (proj2 (Z.ltb_lt _ _)) by lia. f_equal. lia.
Qed.
End Example64.
#[local] Existing Instance Example64.flash64.

Lemma boot_survives_resets_witness :
  match boots Example64.tear true Example64.req [8%nat; 1%nat] (Example64.flash0 100, Example64.files0) with
  | Done r s =>
      new_in_slot 64 Example64.aid Example64.aoff (Example64.image 100) 2 (flash s) ∧
      (r = (0, Some (mk_rsp (hdr (Example64.image 100) 1) (Example64.aid 0%nat) (Example64.aoff 0%nat))) ∧
       old_in_slot 2 64 Example64.aid Example64.aoff (Example64.image 100) 2 (flash s) ∧
       fs_file (files s) BOOT_PATH_STATUS = None ∧ fs_file (files s) BOOT_PATH_TEST = None ∨
       r = (BOOT_EBADIMAGE, None) ∧ [8%nat; 1%nat] ≠ [] ∧ (2 <= 2)%nat ∧ (2 <= 2)%nat)
  | _ => False
  end.
Proof.
  apply (boot_survives_resets Example64.tear Example64.req 2 0 64 Example64.aid Example64.aoff (Example64.image 100) 2 2).
  - exact Example64.tear_local.
  - exact Example64.layout64.
  - exact Example64.upgrade64.
Defined.

(** The result of a start, and of the start after it. *)
Definition two_results (o : outcome (Z → Z) memfs (Z * option boot_rsp)) : option (Z * Z) :=
  match o with
  | Done (rc, _) s =>
      match boots Example64.tear true Example64.req [] (flash s, files s) with
      | Done (rc', _) _ => Some (rc, rc')
      | _ => None
      end
  | _ => None
  end.

(** The result and two bytes of the first slot: one of each part. *)
Definition result_and_slot (o : outcome (Z → Z) memfs (Z * option boot_rsp)) : option (Z * Z * Z) :=
  match o with
  | Done (rc, _) s => Some (rc, flash s 40, flash s 64)
  | _ => None
  end.

(** Two examples of an interruption that spoils an upgrade of images of two areas.  If
    power is lost after the first part of the old image went to the scratch area, the
    next start uses the scratch area for the second part: the old image is lost, and this
    start and the one after it fail with BOOT_EBADIMAGE.  If power is lost while the status
    file is rewritten, which truncates it first, the next start finds no copy in
    progress and boots a first slot made of a part of the new and a part of the old
    image. *)
Theorem boot_interruption_flaws :
  two_results (boots Example64.tear true Example64.req [2%nat] (Example64.flash0 100, Example64.files0)) =
    Some (BOOT_EBADIMAGE, BOOT_EBADIMAGE) ∧
  match boot_go Example64.tear true Example64.req
          (power_on (Example64.flash0 100, Example64.files0) None (Some 4%nat)) with
  | Power_loss s =>
      result_and_slot (boots Example64.tear true Example64.req [] (flash s, files s)) =
        Some (0, Example64.image 100 1 0 40, Example64.image 100 0 1 0)
  | _ => False
  end.
Proof. split; by vm_compute. Qed.

(** The size in the header does not include the header, but the number of areas to swap
    is computed from it: of an image of 64 bytes and its header only the first area is
    moved. *)
Example boot_header_not_counted :
  result_and_slot (boots Example64.tear true Example64.req [] (Example64.flash0 64, Example64.files0)) =
    Some (0, Example64.image 64 1 0 40, Example64.image 64 0 1 0).
Proof. by vm_compute. Qed.
