(* ===== verification/HalCputime.v ===== *)
(** The cpu timers of the hardware abstraction layer:
    hw/mcu/nordic/nrf52xxx/src/hal_cputime.c.

    The timers run on one 32-bit counter.  The started timers are queued in the order
    in which they expire, the compare register holds the expiry of the first one, and
    the interrupt routine runs the callbacks of the timers that have expired and counts
    the overflows of the counter, which gives a 64-bit time.

    The counter is hardware: [hw_clock n] is the number of ticks since the counter was
    started at the [n]-th access to it, so that time passes between two reads of the
    counter in one function.  The 32-bit counter shows that number modulo [2^32], and
    the overflow event is set when the number of overflows is larger than the number
    that was acknowledged. *)
From Stdlib Require Import ZArith Lia.
From stdpp Require Import base decidable list numbers gmap.
From S2P Require Import Prelude.
From S2P Require Import OsState.

#[local] Open Scope Z_scope.

(** ** State *)

(** [tm_linked]: [link.tqe_prev != NULL]. *)
Record cpu_timer := mk_timer { tm_cb : nat; tm_arg : Z; tm_cputime : Z; tm_linked : bool }.
#[export] Instance cpu_timer_inhabited : Inhabited cpu_timer := populate (mk_timer 0 0 0 false).

(** The timer peripheral. *)
Record timer_hw := mk_hw {
  hw_clock : nat → Z;
  hw_access : nat;
  hw_wraps : Z;          (* overflows acknowledged: EVENTS_COMPARE[OVERFLOW] was cleared *)
  hw_cc : Z;             (* CC[CPUTIMER_CC_INT] *)
  hw_compare : bool;     (* EVENTS_COMPARE[CPUTIMER_CC_INT] *)
  hw_enabled : bool;     (* the compare interrupt is enabled *)
  hw_pending : bool;     (* NVIC pending bit of the timer interrupt *)
  hw_prescaler : Z;
}.

Record cputime_st := mk_cputime {
  ticks_per_usec : Z;
  cputime_high : Z;
  timer_isrs : Z;
  ocmp_ints : Z;
  uif_ints : Z;
  g_cputimer_q : list nat;
  cpu_timers : gmap nat cpu_timer;
  cpu_hw : timer_hw;
}.

Abbreviation T := (M cputime_st) (only parsing).

Definition set_hw (f : timer_hw → timer_hw) (s : cputime_st) : cputime_st :=
  mk_cputime (ticks_per_usec s) (cputime_high s) (timer_isrs s) (ocmp_ints s) (uif_ints s)
    (g_cputimer_q s) (cpu_timers s) (f (cpu_hw s)).
Definition set_q (q : list nat) (s : cputime_st) : cputime_st :=
  mk_cputime (ticks_per_usec s) (cputime_high s) (timer_isrs s) (ocmp_ints s) (uif_ints s)
    q (cpu_timers s) (cpu_hw s).
Definition set_counts (high isrs ocmp uif : Z) (s : cputime_st) : cputime_st :=
  mk_cputime (ticks_per_usec s) high isrs ocmp uif (g_cputimer_q s) (cpu_timers s) (cpu_hw s).
Definition set_freq (f : Z) (s : cputime_st) : cputime_st :=
  mk_cputime f (cputime_high s) (timer_isrs s) (ocmp_ints s) (uif_ints s)
    (g_cputimer_q s) (cpu_timers s) (cpu_hw s).
Definition timer_of (s : cputime_st) (t : nat) : cpu_timer := cpu_timers s !!! t.
Definition upd_timer (t : nat) (f : cpu_timer → cpu_timer) (s : cputime_st) : cputime_st :=
  mk_cputime (ticks_per_usec s) (cputime_high s) (timer_isrs s) (ocmp_ints s) (uif_ints s)
    (g_cputimer_q s) (<[t := f (timer_of s t)]> (cpu_timers s)) (cpu_hw s).

Definition set_cc (v : Z) (h : timer_hw) : timer_hw :=
  mk_hw (hw_clock h) (hw_access h) (hw_wraps h) v (hw_compare h) (hw_enabled h) (hw_pending h) (hw_prescaler h).
Definition set_compare (b : bool) (h : timer_hw) : timer_hw :=
  mk_hw (hw_clock h) (hw_access h) (hw_wraps h) (hw_cc h) b (hw_enabled h) (hw_pending h) (hw_prescaler h).
Definition set_enabled (b : bool) (h : timer_hw) : timer_hw :=
  mk_hw (hw_clock h) (hw_access h) (hw_wraps h) (hw_cc h) (hw_compare h) b (hw_pending h) (hw_prescaler h).
Definition set_pending (b : bool) (h : timer_hw) : timer_hw :=
  mk_hw (hw_clock h) (hw_access h) (hw_wraps h) (hw_cc h) (hw_compare h) (hw_enabled h) b (hw_prescaler h).
Definition set_prescaler (v : Z) (h : timer_hw) : timer_hw :=
  mk_hw (hw_clock h) (hw_access h) (hw_wraps h) (hw_cc h) (hw_compare h) (hw_enabled h) (hw_pending h) v.
Definition set_wraps (v : Z) (h : timer_hw) : timer_hw :=
  mk_hw (hw_clock h) (hw_access h) v (hw_cc h) (hw_compare h) (hw_enabled h) (hw_pending h) (hw_prescaler h).
Definition tick_hw (h : timer_hw) : timer_hw :=
  mk_hw (hw_clock h) (S (hw_access h)) (hw_wraps h) (hw_cc h) (hw_compare h) (hw_enabled h) (hw_pending h) (hw_prescaler h).

(** The ticks at the next access to the counter; an access advances the clock. *)
Definition hw_time (h : timer_hw) : Z := hw_clock h (hw_access h).
Definition access_clock : T Z :=
  t ← gets (λ s, hw_time (cpu_hw s));
  modify (set_hw tick_hw) ;;
  mret t.

(** ** The counter *)

Definition cputime_get32 : T Z := t ← access_clock; mret (u32 t).

(** EVENTS_COMPARE[CPUTIMER_CC_OVERFLOW]: reading it and clearing it. *)
Definition overflow_event : T bool :=
  t ← access_clock;
  s ← get;
  mret (hw_wraps (cpu_hw s) <? t / 2 ^ 32).
Definition clear_overflow : T unit :=
  t ← access_clock;
  modify (set_hw (set_wraps (t / 2 ^ 32))).

Definition cputime_get64 : T Z :=
  high ← gets cputime_high;
  low ← cputime_get32;
  ov ← overflow_event;
  '(high, low) ← (if ov : bool then
     low ← cputime_get32;
     mret (u32 (high + 1), low)
   else mret (high, low));
  mret (Z.lor (Z.shiftl high 32) low).

(** The signed comparisons of two points in time. *)
Definition time_reached (now t : Z) : bool := 0 <=? s32 (u32 (now - t)).
Definition time_before (t1 t2 : Z) : bool := s32 (u32 (t1 - t2)) <? 0.

(** ** Conversions *)

Definition cputime_nsecs_to_ticks (nsecs : Z) : T Z :=
  gets (λ s, u32 (u32 (nsecs * ticks_per_usec s) + 999) / 1000).
Definition cputime_ticks_to_nsecs (ticks : Z) : T Z :=
  gets (λ s, u32 (u32 (ticks * 1000) + u32 (ticks_per_usec s - 1)) / ticks_per_usec s).
Definition cputime_usecs_to_ticks (usecs : Z) : T Z := gets (λ s, u32 (usecs * ticks_per_usec s)).
Definition cputime_ticks_to_usecs (ticks : Z) : T Z :=
  gets (λ s, u32 (ticks + u32 (ticks_per_usec s - 1)) / ticks_per_usec s).

(** The busy-wait loops; [fuel] bounds the number of reads of the counter. *)
Fixpoint delay_loop (fuel : nat) (until : Z) : T unit :=
  match fuel with
  | O => fault_with FFuel
  | S fuel =>
      now ← cputime_get32;
      if time_before now until then delay_loop fuel until else mret tt
  end.
Definition cputime_delay_ticks (fuel : nat) (ticks : Z) : T unit :=
  now ← cputime_get32;
  delay_loop fuel (u32 (now + ticks)).
Definition cputime_delay_nsecs (fuel : nat) (nsecs : Z) : T unit :=
  ticks ← cputime_nsecs_to_ticks nsecs; cputime_delay_ticks fuel ticks.
Definition cputime_delay_usecs (fuel : nat) (usecs : Z) : T unit :=
  ticks ← cputime_usecs_to_ticks usecs; cputime_delay_ticks fuel ticks.

(** ** Timers *)

Definition cputime_disable_ocmp : T unit := modify (set_hw (set_enabled false)).

Definition cputime_set_ocmp (t : nat) : T unit :=
  cputime_disable_ocmp ;;
  s ← get;
  modify (set_hw (set_cc (tm_cputime (timer_of s t)))) ;;
  modify (set_hw (set_compare false)) ;;
  modify (set_hw (set_enabled true)) ;;
  now ← cputime_get32;
  (if time_reached now (tm_cputime (timer_of s t)) then modify (set_hw (set_pending true)) else mret tt).

Definition cputime_timer_init (t fp : nat) (arg : Z) : T unit :=
  modify (upd_timer t (λ tm, mk_timer fp arg (tm_cputime tm) false)).

Definition cputime_timer_start (t : nat) (cputime : Z) : T unit :=
  s ← get;
  assert_ (negb (tm_linked (timer_of s t))) ;;
  modify (upd_timer t (λ tm, mk_timer (tm_cb tm) (tm_arg tm) cputime (tm_linked tm))) ;;
  s ← get;
  modify (set_q (insert_before
    (λ entry, time_before (tm_cputime (timer_of s t)) (tm_cputime (timer_of s entry))) t (g_cputimer_q s))) ;;
  modify (upd_timer t (λ tm, mk_timer (tm_cb tm) (tm_arg tm) (tm_cputime tm) true)) ;;
  s ← get;
  (if decide (head (g_cputimer_q s) = Some t) then cputime_set_ocmp t else mret tt).

Definition cputime_timer_relative (t : nat) (usecs : Z) : T unit :=
  now ← cputime_get32;
  ticks ← cputime_usecs_to_ticks usecs;
  cputime_timer_start t (u32 (now + ticks)).

(** TAILQ_REMOVE and [tqe_prev = NULL]. *)
Definition unlink_timer (t : nat) : T unit :=
  s ← get;
  q ← from_option_fault FList (list_remove t (g_cputimer_q s));
  modify (set_q q) ;;
  modify (upd_timer t (λ tm, mk_timer (tm_cb tm) (tm_arg tm) (tm_cputime tm) false)).

Definition cputime_timer_stop (t : nat) : T unit :=
  s ← get;
  if tm_linked (timer_of s t) then
    let reset_ocmp := bool_decide (head (g_cputimer_q s) = Some t) in
    let entry := next_of t (g_cputimer_q s) in
    unlink_timer t ;;
    (if reset_ocmp then
       match entry with
       | Some e => cputime_set_ocmp e
       | None => cputime_disable_ocmp
       end
     else mret tt)
  else mret tt.

(** ** Initialisation *)

Definition NRF52_MAX_TIMER_FREQ : Z := 16000000.

Definition cputime_init (clock_freq : Z) : T Z :=
  if clock_freq <? 1000000 then mret (-1)
  else if NRF52_MAX_TIMER_FREQ <? clock_freq then mret (-1)
  else
    let pre_scaler := NRF52_MAX_TIMER_FREQ / clock_freq in
    if negb (u32 (pre_scaler * clock_freq) =? NRF52_MAX_TIMER_FREQ) then mret (-1)
    else
      let pre := if pre_scaler =? 1 then Some 0 else if pre_scaler =? 2 then Some 1
                 else if pre_scaler =? 4 then Some 2 else if pre_scaler =? 8 then Some 3
                 else if pre_scaler =? 16 then Some 4 else None in
      match pre with
      | None => mret (-1)
      | Some p =>
          modify (set_q []) ;;
          modify (set_freq (clock_freq / 1000000)) ;;
          modify (set_hw (set_prescaler p)) ;;
          mret 0
      end.

(** ** The interrupt

    A timer callback may do anything to the state of the program, of which the timers
    are a part. *)
Class CputimeUser (S : Type) := {
  cpu_of : S → cputime_st;
  set_cpu : cputime_st → S → S;
  cpu_of_set : ∀ c s, cpu_of (set_cpu c s) = c;
  set_cpu_of : ∀ s, set_cpu (cpu_of s) s = s;
  set_cpu_set : ∀ c c' s, set_cpu c (set_cpu c' s) = set_cpu c s;
}.

#[export, refine] Instance cputime_self : CputimeUser cputime_st := {
  cpu_of s := s; set_cpu c _ := c;
}.
Proof. all: done. Defined.

Definition on_cpu {S} `{CputimeUser S} {A} (m : T A) : M S A := λ s,
  match m (cpu_of s) with Ret (a, c) => Ret (a, set_cpu c s) | Fault f => Fault f end.

Section isr.
Context {S : Type} {U : CputimeUser S} (timer_cb : nat → Z → M S unit).

Fixpoint expire_loop (fuel : nat) : M S unit :=
  match fuel with
  | O => fault_with FFuel
  | Datatypes.S fuel =>
      c ← gets cpu_of;
      match g_cputimer_q c with
      | [] => mret tt
      | t :: _ =>
          now ← on_cpu cputime_get32;
          if time_reached now (tm_cputime (timer_of c t)) then
            on_cpu (unlink_timer t) ;;
            timer_cb (tm_cb (timer_of c t)) (tm_arg (timer_of c t)) ;;
            expire_loop fuel
          else mret tt
      end
  end.

Definition cputime_chk_expiration (fuel : nat) : M S unit :=
  expire_loop fuel ;;
  c ← gets cpu_of;
  on_cpu (match g_cputimer_q c return T unit with
          | t :: _ => cputime_set_ocmp t
          | [] => cputime_disable_ocmp
          end).

Definition cputime_isr (fuel : nat) : M S unit :=
  on_cpu (modify (set_hw (set_compare false))) ;;
  overflow ← on_cpu overflow_event;
  (if (overflow : bool) return M S unit then on_cpu clear_overflow else mret tt) ;;
  on_cpu (modify (λ c, set_counts (cputime_high c) (u32 (timer_isrs c + 1)) (ocmp_ints c) (uif_ints c) c)) ;;
  (if (overflow : bool) return M S unit then
     on_cpu (modify (λ c, set_counts (u32 (cputime_high c + 1)) (timer_isrs c) (ocmp_ints c)
                            (u32 (uif_ints c + 1)) c))
   else mret tt) ;;
  c ← gets cpu_of;
  if hw_enabled (cpu_hw c) return M S unit then
    on_cpu (modify (λ c, set_counts (cputime_high c) (timer_isrs c) (u32 (ocmp_ints c + 1)) (uif_ints c) c)) ;;
    cputime_chk_expiration fuel
  else mret tt.
End isr.

(** ** Specifications *)

Lemma timer_of_upd t f s u :
  timer_of (upd_timer t f s) u = if decide (t = u) then f (timer_of s t) else timer_of s u.
Proof.
  unfold timer_of, upd_timer; simpl.
  case_decide; subst; [by rewrite lookup_total_insert_eq|by rewrite lookup_total_insert_ne].
Qed.

Lemma time_before_until base a b :
  ticks_until base a < 2147483648 → ticks_until base b < 2147483648 →
  time_before a b = (ticks_until base a <? ticks_until base b).
Proof. apply tick_lt_until. Qed.

(** Time [t] lies in the half of the counter's range that follows [base]. *)
Definition in_window (base t : Z) : Prop := ticks_until base t < 2147483648.
Definition expiry (base : Z) (s : cputime_st) (t : nat) : Z := ticks_until base (tm_cputime (timer_of s t)).

(** The queue holds the started timers in the order in which they expire, and the
    compare register is armed for the first one. *)
Record cpu_ok (base : Z) (s : cputime_st) : Prop := {
  cp_nodup : NoDup (g_cputimer_q s);
  cp_linked : ∀ t, t ∈ g_cputimer_q s ↔ tm_linked (timer_of s t) = true;
  cp_sorted : sorted_by (expiry base s) (g_cputimer_q s);
  cp_window : ∀ t, t ∈ g_cputimer_q s → expiry base s t < 2147483648;
  cp_armed : match g_cputimer_q s with
             | t :: _ => hw_enabled (cpu_hw s) = true ∧ hw_cc (cpu_hw s) = tm_cputime (timer_of s t)
             | [] => hw_enabled (cpu_hw s) = false
             end;
}.

(** What arming the compare register changes: the peripheral only. *)
Definition armed (t : nat) (s s' : cputime_st) : Prop :=
  ∃ h, s' = set_hw (λ _, h) s ∧ hw_enabled h = true ∧ hw_cc h = tm_cputime (timer_of s t) ∧
    hw_clock h = hw_clock (cpu_hw s) ∧ hw_access h = S (hw_access (cpu_hw s)) ∧
    hw_wraps h = hw_wraps (cpu_hw s) ∧
    (time_reached (u32 (hw_time (cpu_hw s))) (tm_cputime (timer_of s t)) = true → hw_pending h = true).

Lemma set_ocmp_run t s : ∃ s', cputime_set_ocmp t s = Ret (tt, s') ∧ armed t s s'.
Proof.
  unfold cputime_set_ocmp, cputime_disable_ocmp, cputime_get32, access_clock, armed, mbind, M_bind, modify, get, gets.
  simpl.
  match goal with |- context [if ?b then _ else _] => destruct b eqn:E end;
    eexists; (split; [reflexivity|]); eexists; (split; [reflexivity|]); simpl;
    repeat (split; [done|]); intros H; [done|];
    revert E; unfold hw_time, timer_of in *; simpl in *; congruence.
Qed.

Lemma time_before_same base s t u :
  expiry base s t < 2147483648 → expiry base s u < 2147483648 →
  time_before (tm_cputime (timer_of s t)) (tm_cputime (timer_of s u)) = (expiry base s t <? expiry base s u).
Proof. apply time_before_until. Qed.

Lemma head_insert_before_keep {A} p (x y : A) l :
  head (insert_before p x l) = Some y → y ≠ x → head l = Some y.
Proof. destruct l as [|z l]; simpl; [naive_solver|]. destruct (p z); naive_solver. Qed.

(** The first timer, if any, is the one the compare register is armed for. *)
Definition head_armed (s : cputime_st) : Prop :=
  match g_cputimer_q s with
  | t :: _ => hw_enabled (cpu_hw s) = true ∧ hw_cc (cpu_hw s) = tm_cputime (timer_of s t)
  | [] => hw_enabled (cpu_hw s) = false
  end.

(** The queue alone, as a callback finds it in the interrupt, before the register is armed
    again. *)
Record cpu_queued (base : Z) (s : cputime_st) : Prop := {
  cq_nodup : NoDup (g_cputimer_q s);
  cq_linked : ∀ t, t ∈ g_cputimer_q s ↔ tm_linked (timer_of s t) = true;
  cq_sorted : sorted_by (expiry base s) (g_cputimer_q s);
  cq_window : ∀ t, t ∈ g_cputimer_q s → expiry base s t < 2147483648;
}.

Lemma cpu_ok_split base s : cpu_ok base s ↔ cpu_queued base s ∧ head_armed s.
Proof. split; [intros [? ? ? ? ?]; by split; [split|]|intros [[? ? ? ?] ?]; by split]. Qed.

Lemma cpu_queued_insert base t tm s s' :
  cpu_queued base s → t ∉ g_cputimer_q s → in_window base (tm_cputime tm) → tm_linked tm = true →
  g_cputimer_q s' = insert_before
    (λ e, time_before (tm_cputime tm) (tm_cputime (timer_of s e))) t (g_cputimer_q s) →
  timer_of s' t = tm → (∀ u, u ≠ t → timer_of s' u = timer_of s u) →
  cpu_queued base s'.
Proof.
  intros [Hnd Hlk Hso Hw] Hnot Hc Htm Hq Ht Hother.
  assert (∀ u, u ∈ g_cputimer_q s → timer_of s' u = timer_of s u) as Hin
    by (intros u Hu; apply Hother; by intros ->).
  assert (g_cputimer_q s' =
    insert_before (λ e, expiry base s' t <? expiry base s' e) t (g_cputimer_q s)) as Hq'.
  { rewrite Hq. apply insert_before_ext. intros e He. unfold expiry. rewrite Ht, (Hin e He).
    apply time_before_until; [done|]. by apply Hw. }
  split.
  - rewrite Hq. by apply NoDup_insert_before.
  - intros u. rewrite Hq, elem_of_insert_before.
    destruct (decide (u = t)) as [->|Hu]; [rewrite Ht; naive_solver|].
    rewrite Hother, Hlk by done. naive_solver.
  - rewrite Hq'. apply sorted_by_insert. apply (sorted_by_ext (expiry base s)); [|done].
    intros u Hu. unfold expiry. by rewrite Hin.
  - intros u. rewrite Hq, elem_of_insert_before. unfold expiry.
    intros [->|Hu]; [by rewrite Ht|]. rewrite Hin by done. by apply Hw.
Qed.

(** The state in which a started timer is linked, before the peripheral is touched. *)
Definition timer_linked (t : nat) (c : Z) (s : cputime_st) : cputime_st :=
  let s1 := upd_timer t (λ tm, mk_timer (tm_cb tm) (tm_arg tm) c (tm_linked tm)) s in
  upd_timer t (λ tm, mk_timer (tm_cb tm) (tm_arg tm) (tm_cputime tm) true)
    (set_q (insert_before
       (λ e, time_before (tm_cputime (timer_of s1 t)) (tm_cputime (timer_of s1 e))) t (g_cputimer_q s)) s1).

Lemma timer_linked_same t c s :
  timer_of (timer_linked t c s) t = mk_timer (tm_cb (timer_of s t)) (tm_arg (timer_of s t)) c true.
Proof.
  unfold timer_linked. rewrite timer_of_upd, decide_True by done.
  match goal with |- context [timer_of (set_q _ ?x) t] => change (timer_of (set_q _ x) t) with (timer_of x t) end.
  by rewrite timer_of_upd, decide_True.
Qed.

Lemma timer_linked_other t c s u : u ≠ t → timer_of (timer_linked t c s) u = timer_of s u.
Proof.
  intros Hu. unfold timer_linked. rewrite timer_of_upd, decide_False by done.
  match goal with |- context [timer_of (set_q _ ?x) u] => change (timer_of (set_q _ x) u) with (timer_of x u) end.
  by rewrite timer_of_upd, decide_False.
Qed.

Lemma timer_linked_q t c s : t ∉ g_cputimer_q s →
  g_cputimer_q (timer_linked t c s) =
    insert_before (λ e, time_before c (tm_cputime (timer_of s e))) t (g_cputimer_q s).
Proof.
  intros Hnot. unfold timer_linked; simpl. apply insert_before_ext. intros e He.
  rewrite !timer_of_upd, decide_True, decide_False by (done || by intros ->). done.
Qed.

(** A timer in the window is queued in order; when it is the first to expire the
    compare register is set to it, and a time that has already passed makes the
    interrupt pending. *)
Lemma timer_start_queued base t c s :
  cpu_queued base s → tm_linked (timer_of s t) = false → in_window base c →
  wp (cputime_timer_start t c) (λ _ s',
    (cpu_queued base s' ∧ (head_armed s → head_armed s')) ∧ g_cputimer_q s' ≡ₚ t :: g_cputimer_q s ∧
    timer_of s' t = mk_timer (tm_cb (timer_of s t)) (tm_arg (timer_of s t)) c true ∧
    (∀ u, u ≠ t → timer_of s' u = timer_of s u) ∧
    (head (g_cputimer_q s') = Some t → time_reached (u32 (hw_time (cpu_hw s))) c = true →
       hw_pending (cpu_hw s') = true)) s.
Proof.
  intros Hok Hfree Hc. unfold cputime_timer_start.
  assert (t ∉ g_cputimer_q s) as Hnot by (rewrite (cq_linked _ _ Hok), Hfree; done).
  apply wp_bind, wp_get. apply wp_bind, wp_assert; [by rewrite Hfree|].
  wp_simp.
  match goal with |- context [head (g_cputimer_q ?x)] => change x with (timer_linked t c s) end.
  pose proof (timer_linked_q t c s Hnot) as Hq.
  assert (g_cputimer_q (timer_linked t c s) ≡ₚ t :: g_cputimer_q s) as Hp
    by (rewrite Hq; apply insert_before_perm).
  case_decide as Hhd.
  - destruct (set_ocmp_run t (timer_linked t c s)) as (s' & Hr & h & -> & He & Hcc & _ & _ & _ & Hpend).
    eapply wp_eq; [exact Hr|]. rewrite timer_linked_same in Hcc, Hpend. simpl in Hpend.
    split; [split|split; [exact Hp|split; [by apply timer_linked_same|split; [by apply timer_linked_other|]]]].
    + eapply (cpu_queued_insert base t _ s); [..|by apply timer_linked_same|by apply timer_linked_other]; done.
    + intros _. unfold head_armed. change (g_cputimer_q (set_hw _ ?x)) with (g_cputimer_q x).
      destruct (g_cputimer_q (timer_linked t c s)); [done|]. injection Hhd as ->. split; [done|]. simpl. rewrite Hcc. symmetry. apply (f_equal tm_cputime (timer_linked_same t c s)).
    + intros _ Hr'. by apply Hpend.
  - apply wp_ret.
    split; [split|split; [exact Hp|split; [by apply timer_linked_same|split; [by apply timer_linked_other|done]]]].
    { eapply (cpu_queued_insert base t _ s); [..|by apply timer_linked_same|by apply timer_linked_other]; done. }
    unfold head_armed. rewrite Hq in *. intros Ha.
    change (cpu_hw (timer_linked t c s)) with (cpu_hw s).
    destruct (insert_before _ _ _) as [|u q'] eqn:E.
    { exfalso. apply (not_elem_of_nil (A:=nat) t). rewrite <- E. apply elem_of_insert_before. by left. }
    assert (u ≠ t) as Hu by (intros ->; by apply Hhd).
    assert (head (g_cputimer_q s) = Some u) as Hh by (eapply head_insert_before_keep; [|exact Hu]; by rewrite E).
    destruct (g_cputimer_q s) as [|v l]; [done|]. injection Hh as ->. by rewrite timer_linked_other.
Qed.

Lemma cputime_timer_start_ok base t c s :
  cpu_ok base s → tm_linked (timer_of s t) = false → in_window base c →
  wp (cputime_timer_start t c) (λ _ s',
    cpu_ok base s' ∧ g_cputimer_q s' ≡ₚ t :: g_cputimer_q s ∧
    timer_of s' t = mk_timer (tm_cb (timer_of s t)) (tm_arg (timer_of s t)) c true ∧
    (∀ u, u ≠ t → timer_of s' u = timer_of s u) ∧
    (head (g_cputimer_q s') = Some t → time_reached (u32 (hw_time (cpu_hw s))) c = true →
       hw_pending (cpu_hw s') = true)) s.
Proof.
  intros [Hq Ha]%cpu_ok_split Hfree Hc. eapply wp_mono; [by apply timer_start_queued|].
  intros _ s' ((Hq' & Ha') & H). split; [apply cpu_ok_split; auto|exact H].
Qed.

(** Unlinking a timer keeps the order of the others; the compare register is left as it
    was, so the caller arms it again. *)
Definition timer_unlinked (t : nat) (q : list nat) (s : cputime_st) : cputime_st :=
  upd_timer t (λ tm, mk_timer (tm_cb tm) (tm_arg tm) (tm_cputime tm) false) (set_q q s).

Lemma timer_unlinked_of t q s u :
  timer_of (timer_unlinked t q s) u =
    if decide (t = u) then mk_timer (tm_cb (timer_of s t)) (tm_arg (timer_of s t)) (tm_cputime (timer_of s t)) false
    else timer_of s u.
Proof. unfold timer_unlinked. by rewrite timer_of_upd. Qed.

Lemma unlink_timer_run t q s :
  list_remove t (g_cputimer_q s) = Some q → unlink_timer t s = Ret (tt, timer_unlinked t q s).
Proof. intros H. unfold unlink_timer, mbind, M_bind, get. by rewrite H. Qed.

Lemma cpu_queued_unlink base t q s s' :
  cpu_queued base s → list_remove t (g_cputimer_q s) = Some q →
  g_cputimer_q s' = q → (∀ u, timer_of s' u = timer_of (timer_unlinked t q s) u) →
  cpu_queued base s'.
Proof.
  intros [Hnd Hlk Hso Hw] Hr Hq Ht.
  destruct (list_remove_split _ _ _ Hr) as (l1 & l2 & E & E' & _).
  assert (t ∉ q) as Hnot.
  { rewrite E in Hnd. rewrite E'. apply NoDup_app in Hnd as (_ & Hd & Hn2).
    apply NoDup_cons in Hn2 as [Hn2 _]. rewrite elem_of_app. intros [H|H]; [|done].
    by apply (Hd t H), elem_of_cons; left. }
  assert (∀ u, u ∈ q → u ≠ t ∧ u ∈ g_cputimer_q s) as Hin.
  { intros u Hu. split; [by intros ->|]. rewrite E. rewrite E' in Hu.
    apply elem_of_app in Hu as [Hu|Hu]; apply elem_of_app; [by left|right; by right]. }
  assert (∀ u, u ∈ q → expiry base s' u = expiry base s u) as Hex.
  { intros u Hu. unfold expiry. rewrite Ht, timer_unlinked_of, decide_False; [done|].
    intros <-. by apply Hnot. }
  split; rewrite ?Hq.
  - by eapply list_remove_NoDup.
  - intros u. rewrite Ht, timer_unlinked_of. case_decide as Hu; [subst; naive_solver|].
    rewrite <- Hlk, E, E', !elem_of_app, elem_of_cons. naive_solver.
  - apply (sorted_by_ext (expiry base s)); [intros u Hu; by rewrite Hex|]. by eapply sorted_by_remove.
  - intros u Hu. rewrite Hex by done. apply Hw. by apply Hin.
Qed.

(** Stopping a timer: it is off the queue, the others stay in order, and the compare
    register serves the first of them. *)
Lemma timer_stop_queued base t s :
  cpu_queued base s →
  wp (cputime_timer_stop t) (λ _ s',
    (cpu_queued base s' ∧ (head_armed s → head_armed s')) ∧ g_cputimer_q s' = filter (λ u, u ≠ t) (g_cputimer_q s) ∧
    tm_linked (timer_of s' t) = false ∧ tm_cb (timer_of s' t) = tm_cb (timer_of s t) ∧
    tm_arg (timer_of s' t) = tm_arg (timer_of s t) ∧
    (∀ u, u ≠ t → timer_of s' u = timer_of s u)) s.
Proof.
  intros Hok. unfold cputime_timer_stop. apply wp_bind, wp_get.
  destruct (tm_linked (timer_of s t)) eqn:Hl.
  2:{ apply wp_ret. repeat split; try done; try apply Hok. symmetry. apply list_filter_all_true.
      intros u Hu ->. apply (cq_linked _ _ Hok) in Hu. congruence. }
  pose proof (proj2 (cq_linked _ _ Hok t) Hl) as Hin.
  destruct (list_remove_is_Some _ _ Hin) as [q Hr].
  apply wp_bind. eapply wp_eq; [by apply unlink_timer_run|].
  pose proof (list_remove_filter _ _ _ (cq_nodup _ _ Hok) Hr) as Hf.
  assert (∀ s', g_cputimer_q s' = q → (∀ u, timer_of s' u = timer_of (timer_unlinked t q s) u) →
    (head_armed s → head_armed s') →
    (cpu_queued base s' ∧ (head_armed s → head_armed s')) ∧ g_cputimer_q s' = filter (λ u, u ≠ t) (g_cputimer_q s) ∧
    tm_linked (timer_of s' t) = false ∧ tm_cb (timer_of s' t) = tm_cb (timer_of s t) ∧
    tm_arg (timer_of s' t) = tm_arg (timer_of s t) ∧
    (∀ u, u ≠ t → timer_of s' u = timer_of s u)) as Hdone.
  { intros s' E1 E2 E3. split; [split; [by eapply cpu_queued_unlink|done]|]. split; [congruence|].
    rewrite E2, timer_unlinked_of, decide_True by done. repeat (split; [done|]).
    intros u Hu. by rewrite E2, timer_unlinked_of, decide_False. }
  destruct (g_cputimer_q s) as [|h l] eqn:Eq; [by apply not_elem_of_nil in Hin|].
  case_bool_decide as Hh.
  - injection Hh as ->. cbn [list_remove next_of] in Hr |- *.
    rewrite decide_True in Hr by done. rewrite decide_True by done. injection Hr as ->.
    destruct q as [|e q']; cbn [head].
    + eapply wp_eq; [reflexivity|]. by apply Hdone.
    + destruct (set_ocmp_run e (timer_unlinked t (e :: q') s)) as (s' & Hr' & hh & -> & He & Hcc & _).
      eapply wp_eq; [exact Hr'|]. apply Hdone; try done.
  - apply wp_ret. apply Hdone; try done. cbn [list_remove] in Hr.
    rewrite decide_False in Hr by (intros ->; by apply Hh).
    destruct (list_remove t l); [|done]. injection Hr as <-. unfold head_armed; rewrite Eq; simpl. intros Ha.
    split; [apply Ha|].
    rewrite timer_unlinked_of, decide_False by (intros ->; by apply Hh). apply Ha.
Qed.

Lemma cputime_timer_stop_ok base t s :
  cpu_ok base s →
  wp (cputime_timer_stop t) (λ _ s',
    cpu_ok base s' ∧ g_cputimer_q s' = filter (λ u, u ≠ t) (g_cputimer_q s) ∧
    tm_linked (timer_of s' t) = false ∧ tm_cb (timer_of s' t) = tm_cb (timer_of s t) ∧
    tm_arg (timer_of s' t) = tm_arg (timer_of s t) ∧
    (∀ u, u ≠ t → timer_of s' u = timer_of s u)) s.
Proof.
  intros [Hq Ha]%cpu_ok_split. eapply wp_mono; [by apply timer_stop_queued|].
  intros _ s' ((Hq' & Ha') & H). split; [apply cpu_ok_split; auto|exact H].
Qed.

(** What the interrupt does at its end: the compare register is armed for the first timer. *)
Lemma arm_first_ok base s :
  cpu_queued base s → wp (match g_cputimer_q s return T unit with t :: _ => cputime_set_ocmp t | [] => cputime_disable_ocmp end)
    (λ _ s', cpu_ok base s' ∧ (∀ t, timer_of s' t = timer_of s t) ∧ ticks_per_usec s' = ticks_per_usec s) s.
Proof.
  intros Hq. destruct (g_cputimer_q s) as [|t q] eqn:Eq.
  - unfold cputime_disable_ocmp. apply wp_modify. split; [|done]. apply cpu_ok_split. split; [by destruct Hq; split|].
    unfold head_armed. simpl. by rewrite Eq.
  - destruct (set_ocmp_run t s) as (s' & Hr & h & -> & He & Hcc & _). eapply wp_eq; [exact Hr|].
    split; [|done]. apply cpu_ok_split. split; [by destruct Hq; split|]. unfold head_armed. simpl. by rewrite Eq.
Qed.

(** The base moves forward, as far as the first timer. *)
Lemma cpu_ok_shift base k s :
  cpu_ok base s → 0 <= k → (∀ t, t ∈ g_cputimer_q s → k <= expiry base s t) → cpu_ok (u32 (base + k)) s.
Proof.
  intros [Hnd Hlk Hso Hw Ha] Hk Hmin.
  assert (∀ t, t ∈ g_cputimer_q s → expiry (u32 (base + k)) s t = expiry base s t - k) as He.
  { intros t Ht. specialize (Hmin t Ht). specialize (Hw t Ht). unfold expiry, ticks_until in *. wrap_lia. }
  split; [done|done| | |done].
  - clear -Hso He. unfold sorted_by in *. induction Hso as [|x l Hl IH Hx]; constructor.
    + apply IH. intros t Ht. apply He. by right.
    + rewrite Forall_forall in Hx |- *. intros y Hy. rewrite !He by (by left || by right).
      specialize (Hx y Hy). simpl in *. lia.
  - intros t Ht. rewrite He by done. specialize (Hw t Ht). lia.
Qed.

(** Starting and stopping timers leaves the frequency alone. *)
Lemma timer_start_freq t c s s' :
  cputime_timer_start t c s = Ret (tt, s') → ticks_per_usec s' = ticks_per_usec s.
Proof.
  unfold cputime_timer_start, assert_, mbind, M_bind, modify, get. simpl.
  destruct (tm_linked _); [done|]. simpl. case_decide; [|by intros [= <-]].
  destruct (set_ocmp_run t (timer_linked t c s)) as (s1 & Hr & h & -> & _).
  unfold timer_linked in Hr. simpl in Hr. rewrite Hr. by intros [= <-].
Qed.

Lemma timer_stop_freq t s s' :
  cputime_timer_stop t s = Ret (tt, s') → ticks_per_usec s' = ticks_per_usec s.
Proof.
  unfold cputime_timer_stop, unlink_timer, mbind, M_bind, modify, get. simpl.
  destruct (tm_linked _); [|by intros [= <-]].
  destruct (list_remove _ _); [|done]. simpl. case_bool_decide; [|by intros [= <-]].
  destruct (next_of _ _) as [e|]; [|by intros [= <-]].
  match goal with |- cputime_set_ocmp e ?x = _ → _ => destruct (set_ocmp_run e x) as (s1 & -> & h & -> & _) end.
  by intros [= <-].
Qed.

(** ** The 64-bit time *)

(** The high word counts the overflows that were acknowledged. *)
Definition time_synced (c : cputime_st) : Prop := cputime_high c = u32 (hw_wraps (cpu_hw c)).

(** The counter only runs forward. *)
Definition clock_runs (h : timer_hw) : Prop := ∀ i j, (i ≤ j)%nat → hw_clock h i <= hw_clock h j.

Lemma lor_high_low h l : 0 <= l < 2 ^ 32 → Z.lor (Z.shiftl h 32) l = h * 2 ^ 32 + l.
Proof.
  intros Hl. pose proof (Z.add_lor_land (Z.shiftl h 32) l) as E.
  assert (Z.land (Z.shiftl h 32) l = 0) as E0; [|rewrite <- Z.shiftl_mul_pow2 by lia; lia].
  apply Z.bits_inj'. intros n Hn. rewrite Z.land_spec, Z.bits_0.
  destruct (decide (n < 32)); [by rewrite Z.shiftl_spec_low|].
  rewrite (Z.bits_above_log2 l n) by (destruct (decide (l = 0)) as [->|]; [simpl; lia|];
    try (apply Z.log2_lt_pow2; [lia|]; apply (Z.lt_le_trans _ (2 ^ 32)); [lia|]; apply Z.pow_le_mono_r; lia); lia).
  apply andb_false_r.
Qed.

(** The 64-bit time is the time of one of the accesses the function makes, even when
    the counter overflows during the call. *)
Lemma get64_reads s w :
  let h := cpu_hw s in let n := hw_access h in
  time_synced s → clock_runs h → hw_wraps h = w →
  w * 2 ^ 32 <= hw_clock h n → hw_clock h (n + 2) < (w + 2) * 2 ^ 32 →
  ∃ i s', (n ≤ i ≤ n + 2)%nat ∧ cputime_get64 s = Ret (u64 (hw_clock h i), s').
Proof.
  intros h n Hs Hm Hw Hlo Hhi.
  pose proof (Hm n (S n) ltac:(lia)) as H1. pose proof (Hm (S n) (n + 2)%nat ltac:(lia)) as H2.
  unfold cputime_get64, cputime_get32, overflow_event, access_clock, mbind, M_bind, gets, get, modify, hw_time.
  simpl. fold h. fold n. rewrite Hw.
  assert (∀ t k, t / 2 ^ 32 = k → Z.lor (Z.shiftl (u32 k) 32) (u32 t) = u64 t) as Hval.
  { intros t k <-. rewrite lor_high_low by (apply Z.mod_pos_bound; lia). unfold u32, u64.
    change (2 ^ 64) with (2 ^ 32 * 2 ^ 32).
    rewrite (Z.rem_mul_r t) by lia. lia. }
  unfold time_synced in Hs. fold h in Hs. rewrite Hw in Hs.
  destruct (Z.ltb_spec w (hw_clock h (S n) / 2 ^ 32)) as [Hov|Hov]; simpl; rewrite Hs; fold h.
  - exists (n + 2)%nat. eexists. split; [lia|]. replace (n + 2)%nat with (S (S n)) in * by lia.
    rewrite <- (Hval _ (w + 1)); [do 4 f_equal; unfold u32; by rewrite Z.add_mod_idemp_l|].
    Z.to_euclidean_division_equations; lia.
  - exists n. eexists. split; [lia|]. rewrite <- (Hval _ w); [reflexivity|].
    Z.to_euclidean_division_equations; lia.
Qed.

(** ** The interrupt: timers run in the order of their expiry *)

Section isr_proofs.
Context {S : Type} {U : CputimeUser S} (timer_cb : nat → Z → M S unit) (log : S → list (nat * Z)).

(** The callbacks record that they ran and leave the timers alone. *)
Hypothesis cb_logs : ∀ f a s, ∃ s',
  timer_cb f a s = Ret (tt, s') ∧ cpu_of s' = cpu_of s ∧ log s' = log s ++ [(f, a)].
Hypothesis log_cpu : ∀ c s, log (set_cpu c s) = log s.

Definition callback_of (c : cputime_st) (t : nat) : nat * Z := (tm_cb (timer_of c t), tm_arg (timer_of c t)).

(** The counter showed, at an access from the [n]-th on, that time [x] had (not) come. *)
Definition seen_reached (b : bool) (h : timer_hw) (n : nat) (x : Z) : Prop :=
  ∃ i, (n ≤ i)%nat ∧ time_reached (u32 (hw_clock h i)) x = b.

Lemma seen_reached_mono b h n m x : (m ≤ n)%nat → seen_reached b h n x → seen_reached b h m x.
Proof. intros ? (i & ? & ?). exists i. split; [lia|done]. Qed.

(** What the loop did when it left the timers [q]: it ran a prefix of the queue. *)
Record expired_prefix (s s' : S) (k : nat) : Prop := {
  ep_q : g_cputimer_q (cpu_of s') = drop k (g_cputimer_q (cpu_of s));
  ep_log : log s' = log s ++ map (callback_of (cpu_of s)) (take k (g_cputimer_q (cpu_of s)));
  ep_timers : ∀ u, u ∉ take k (g_cputimer_q (cpu_of s)) → timer_of (cpu_of s') u = timer_of (cpu_of s) u;
  ep_unlinked : ∀ u, u ∈ take k (g_cputimer_q (cpu_of s)) → tm_linked (timer_of (cpu_of s') u) = false;
  ep_clock : hw_clock (cpu_hw (cpu_of s')) = hw_clock (cpu_hw (cpu_of s));
  ep_fired : ∀ u, u ∈ take k (g_cputimer_q (cpu_of s)) →
    seen_reached true (cpu_hw (cpu_of s)) (hw_access (cpu_hw (cpu_of s))) (tm_cputime (timer_of (cpu_of s) u));
  ep_first : match drop k (g_cputimer_q (cpu_of s)) with
    | u :: _ => seen_reached false (cpu_hw (cpu_of s)) (hw_access (cpu_hw (cpu_of s)))
                  (tm_cputime (timer_of (cpu_of s) u))
    | [] => True
    end;
}.

Lemma get32_run c : cputime_get32 c = Ret (u32 (hw_time (cpu_hw c)), set_hw tick_hw c).
Proof. done. Qed.

Lemma on_cpu_run {A} (m : T A) a c (s : S) : m (cpu_of s) = Ret (a, c) → on_cpu m s = Ret (a, set_cpu c s).
Proof. intros H. unfold on_cpu. by rewrite H. Qed.

Lemma expired_prefix_cons t q s s1 s' k :
  t ∉ q → g_cputimer_q (cpu_of s) = t :: q →
  time_reached (u32 (hw_time (cpu_hw (cpu_of s)))) (tm_cputime (timer_of (cpu_of s) t)) = true →
  cpu_of s1 = timer_unlinked t q (set_hw tick_hw (cpu_of s)) →
  log s1 = log s ++ [callback_of (cpu_of s) t] →
  expired_prefix s1 s' k → expired_prefix s s' (Datatypes.S k).
Proof.
  intros Hnot Hq Hr Hc Hl [E1 E2 E3 E4 E5 E6 E7].
  set (c1 := set_hw tick_hw (cpu_of s)) in *.
  rewrite Hc in *.
  assert (∀ u, u ∈ q → timer_of (timer_unlinked t q c1) u = timer_of (cpu_of s) u) as Hin.
  { intros u Hu. rewrite timer_unlinked_of, decide_False; [done|]. by intros ->. }
  change (g_cputimer_q (timer_unlinked t q c1)) with q in *.
  change (cpu_hw (timer_unlinked t q c1)) with (tick_hw (cpu_hw (cpu_of s))) in *.
  assert (∀ b u, seen_reached b (tick_hw (cpu_hw (cpu_of s))) (hw_access (tick_hw (cpu_hw (cpu_of s)))) u →
    seen_reached b (cpu_hw (cpu_of s)) (hw_access (cpu_hw (cpu_of s))) u) as Hse.
  { intros b u (i & ? & ?). exists i. split; [simpl in *; lia|done]. }
  assert (∀ u, u ∈ take k q → u ∈ q) as Htk by (intros u Hu; rewrite <- (take_drop k q); apply elem_of_app; by left).
  split; rewrite ?Hq; cbn [drop take map].
  + exact E1.
  + rewrite E2, Hl, <- app_assoc. simpl. do 2 f_equal. apply map_ext_in. intros u Hu.
    apply list_elem_of_In in Hu. unfold callback_of. by rewrite Hin by auto.
  + intros u Hu. apply not_elem_of_cons in Hu as [Hu Hu']. rewrite E3 by done.
    by rewrite timer_unlinked_of, decide_False.
  + intros u [->|Hu]%elem_of_cons; [|auto]. destruct (decide (t ∈ take k q)); [auto|].
    rewrite E3 by done. by rewrite timer_unlinked_of, decide_True.
  + done.
  + intros u [->|Hu]%elem_of_cons.
    * exists (hw_access (cpu_hw (cpu_of s))). by split; [lia|].
    * apply Hse. rewrite <- Hin by auto. auto.
  + destruct (drop k q) as [|u l] eqn:Ed; [done|]. apply Hse. rewrite <- Hin; [done|].
    rewrite <- (take_drop k q), Ed. apply elem_of_app. right. by left.
Qed.

Lemma expire_loop_run q : ∀ s, NoDup q → g_cputimer_q (cpu_of s) = q →
  wp (expire_loop timer_cb (Datatypes.S (length q))) (λ _ s', ∃ k, expired_prefix s s' k) s.
Proof.
  induction q as [|t q IH]; intros s Hnd Hq; simpl.
  - apply wp_bind, wp_gets. rewrite Hq. apply wp_ret. exists O. split; rewrite ?Hq, ?app_nil_r; simpl; set_solver.
  - apply wp_bind, wp_gets. rewrite Hq. apply wp_bind.
    eapply wp_eq; [eapply on_cpu_run, get32_run|].
    destruct (time_reached _ _) eqn:Hr.
    2:{ apply wp_ret. exists O. split; rewrite ?cpu_of_set, ?Hq, ?log_cpu, ?app_nil_r; simpl; try done; try set_solver.
        exists (hw_access (cpu_hw (cpu_of s))). by split; [lia|]. }
    apply NoDup_cons in Hnd as [Hnot Hnd].
    apply wp_bind. eapply wp_eq.
    { eapply on_cpu_run, unlink_timer_run. rewrite cpu_of_set. simpl. rewrite Hq.
      cbn [list_remove]. by rewrite decide_True. }
    rewrite !cpu_of_set, set_cpu_set. apply wp_bind.
    destruct (cb_logs (tm_cb (timer_of (cpu_of s) t)) (tm_arg (timer_of (cpu_of s) t))
      (set_cpu (timer_unlinked t q (set_hw tick_hw (cpu_of s))) s)) as (s1 & Hcb & Hc & Hl).
    eapply wp_eq; [exact Hcb|]. rewrite cpu_of_set in Hc. rewrite log_cpu in Hl.
    eapply wp_mono; [apply (IH s1 Hnd); by rewrite Hc|].
    intros _ s' [k Hk]. exists (Datatypes.S k). by eapply expired_prefix_cons.
Qed.

(** The timers that are left are still in order, and the compare register serves the
    first of them. *)
Lemma cpu_ok_expired base s s' s'' k :
  cpu_ok base (cpu_of s) → expired_prefix s s' k →
  g_cputimer_q s'' = g_cputimer_q (cpu_of s') → (∀ u, timer_of s'' u = timer_of (cpu_of s') u) →
  head_armed s'' → cpu_ok base s''.
Proof.
  intros [Hnd Hlk Hso Hw _] [E1 _ E3 E4 _ _ _] Hq Ht Ha. rewrite E1 in Hq.
  rewrite <- (take_drop k (g_cputimer_q (cpu_of s))) in Hnd, Hso.
  apply NoDup_app in Hnd as (_ & Hd & Hnd). apply sorted_by_app in Hso as (_ & Hso & _).
  assert (∀ u, u ∈ drop k (g_cputimer_q (cpu_of s)) → timer_of s'' u = timer_of (cpu_of s) u) as Hin.
  { intros u Hu. rewrite Ht, E3; [done|]. intros Hu'. by apply (Hd u Hu'). }
  assert (∀ u, u ∈ drop k (g_cputimer_q (cpu_of s)) → u ∈ g_cputimer_q (cpu_of s)) as Hsub.
  { intros u Hu. rewrite <- (take_drop k). apply elem_of_app. by right. }
  split; [by rewrite Hq| | | |exact Ha].
  - intros u. rewrite Hq, Ht. destruct (decide (u ∈ take k (g_cputimer_q (cpu_of s)))) as [Hu|Hu].
    + rewrite E4 by done. split; [|done]. intros Hu'. by destruct (Hd u Hu).
    + rewrite E3, <- Hlk by done. split; [auto|]. rewrite <- (take_drop k (g_cputimer_q (cpu_of s))) at 1.
      rewrite elem_of_app. naive_solver.
  - rewrite Hq. apply (sorted_by_ext (expiry base (cpu_of s))); [|done].
    intros u Hu. unfold expiry. by rewrite Hin.
  - intros u. rewrite Hq. intros Hu. unfold expiry. rewrite Hin by done. apply Hw. auto.
Qed.

(** The interrupt runs the callbacks of a prefix of the queue, that is of the timers
    that expire first, each once its time has come, stops at the first timer whose time
    has not come, and leaves the queue and the compare register in order. *)
Lemma chk_expiration_ok base s :
  cpu_ok base (cpu_of s) →
  wp (cputime_chk_expiration timer_cb (Datatypes.S (length (g_cputimer_q (cpu_of s))))) (λ _ s'',
    ∃ s' k, expired_prefix s s' k ∧ log s'' = log s' ∧
      g_cputimer_q (cpu_of s'') = g_cputimer_q (cpu_of s') ∧ cpu_ok base (cpu_of s'')) s.
Proof.
  intros Hok. unfold cputime_chk_expiration. apply wp_bind.
  eapply wp_mono; [apply expire_loop_run; [apply Hok|done]|].
  intros _ s' [k Hk]. apply wp_bind, wp_gets.
  destruct (g_cputimer_q (cpu_of s')) as [|t q] eqn:Eq.
  - eapply wp_eq; [by apply on_cpu_run|]. exists s', k. rewrite log_cpu, cpu_of_set.
    split; [done|]. split; [done|]. split; [done|].
    eapply cpu_ok_expired; [done|done|done|done|]. unfold head_armed. simpl. by rewrite Eq.
  - destruct (set_ocmp_run t (cpu_of s')) as (c & Hr & h & -> & He & Hcc & _).
    eapply wp_eq; [by apply on_cpu_run|]. exists s', k. rewrite log_cpu, cpu_of_set.
    split; [done|]. split; [done|]. split; [done|].
    eapply cpu_ok_expired; [done|done|done|done|]. unfold head_armed. simpl. by rewrite Eq.
Qed.
End isr_proofs.

(** ** Properties *)

(** Stopping a timer, running or not, and starting it again at a time in the window
    never faults; the queue stays in the order in which the timers expire and holds
    exactly the running timers, the others keep their expiry, and the compare register
    is armed for the first one, with the interrupt forced when that time has passed. *)
Theorem cputimer_restart base t c s :
  cpu_ok base s → in_window base c →
  ∃ s1 s2, cputime_timer_stop t s = Ret (tt, s1) ∧ cputime_timer_start t c s1 = Ret (tt, s2) ∧
    cpu_ok base s1 ∧ g_cputimer_q s1 = filter (λ u, u ≠ t) (g_cputimer_q s) ∧
    cpu_ok base s2 ∧ g_cputimer_q s2 ≡ₚ t :: g_cputimer_q s1 ∧
    timer_of s2 t = mk_timer (tm_cb (timer_of s t)) (tm_arg (timer_of s t)) c true ∧
    (∀ u, u ≠ t → timer_of s2 u = timer_of s u) ∧
    (head (g_cputimer_q s2) = Some t → time_reached (u32 (hw_time (cpu_hw s1))) c = true →
       hw_pending (cpu_hw s2) = true).
Proof.
  intros Hok Hc. pose proof (cputime_timer_stop_ok base t s Hok) as H1.
  apply wp_run in H1 as ([] & s1 & R1 & Hok1 & Hq1 & Hl1 & Hcb1 & Har1 & Hot1).
  pose proof (cputime_timer_start_ok base t c s1 Hok1 Hl1 Hc) as H2.
  apply wp_run in H2 as ([] & s2 & R2 & Hok2 & Hq2 & Ht2 & Hot2 & Hp2).
  exists s1, s2. rewrite Hcb1, Har1 in Ht2. repeat (split; [done|]).
  split; [|done]. intros u Hu. rewrite Hot2, Hot1; done.
Qed.

(** A machine with one timer running, and a log of the callbacks. *)
Module Demo.
Definition hw0 : timer_hw := mk_hw (λ n, 1000 + 10 * Z.of_nat n) 0 0 2000 false true false 4.
Definition s1 : cputime_st :=
  mk_cputime 1 0 0 0 0 [7%nat] (<[7%nat := mk_timer 3 42 2000 true]> ∅) hw0.

Lemma s1_ok : cpu_ok 0 s1.
Proof.
  split; simpl.
  - apply NoDup_singleton.
  - intros t. rewrite list_elem_of_singleton. unfold timer_of; simpl.
    destruct (decide (t = 7%nat)) as [->|Ht]; [by rewrite lookup_total_insert_eq|].
    by rewrite lookup_total_insert_ne by done.
  - apply sorted_by_cons. split; [constructor|]. by intros ? ?%not_elem_of_nil.
  - intros t ->%list_elem_of_singleton. reflexivity.
  - by split.
Qed.

#[local] Instance logged : CputimeUser (cputime_st * list (nat * Z)) := {|
  cpu_of := fst; set_cpu c s := (c, s.2);
  cpu_of_set _ _ := eq_refl; set_cpu_of s := match s with (_, _) => eq_refl end; set_cpu_set _ _ _ := eq_refl |}.
Definition log_cb (f : nat) (a : Z) : M (cputime_st * list (nat * Z)) unit := modify (λ s, (s.1, s.2 ++ [(f, a)])).
End Demo.

Lemma cputimer_restart_witness : ∃ s1 s2,
  cputime_timer_stop 5 Demo.s1 = Ret (tt, s1) ∧ cputime_timer_start 5 1500 s1 = Ret (tt, s2) ∧ cpu_ok 0 s2.
Proof.
  destruct (cputimer_restart 0 5 1500 Demo.s1) as (s1 & s2 & H1 & H2 & _ & _ & H3 & _);
    [apply Demo.s1_ok|reflexivity|]. exists s1, s2. auto.
Defined.

(** C27. The timer interrupt runs the callbacks of the timers at the front of the queue,
    that is of those that expire first, in order and once each, every one at a reading
    of the counter at which its time had come; it stops at the first timer whose time
    had not come at its last reading, takes the timers it ran off the queue, and arms
    the compare register for the first one left (for callbacks that record that they
    ran and leave the timers alone). *)
Theorem cputimer_fires_in_order {S} {U : CputimeUser S} (timer_cb : nat → Z → M S unit)
    (log : S → list (nat * Z)) base s (c := cpu_of s) (h := cpu_hw c) :
  (∀ f a s, ∃ s', timer_cb f a s = Ret (tt, s') ∧ cpu_of s' = cpu_of s ∧ log s' = log s ++ [(f, a)]) →
  (∀ c s, log (set_cpu c s) = log s) →
  cpu_ok base c →
  ∃ s' k, cputime_chk_expiration timer_cb (Datatypes.S (length (g_cputimer_q c))) s = Ret (tt, s') ∧
    log s' = log s ++ map (callback_of c) (take k (g_cputimer_q c)) ∧
    g_cputimer_q (cpu_of s') = drop k (g_cputimer_q c) ∧ cpu_ok base (cpu_of s') ∧
    (∀ t, t ∈ take k (g_cputimer_q c) →
       ∃ i, (hw_access h ≤ i)%nat ∧ time_reached (u32 (hw_clock h i)) (tm_cputime (timer_of c t)) = true) ∧
    match drop k (g_cputimer_q c) with
    | t :: _ => ∃ i, (hw_access h ≤ i)%nat ∧ time_reached (u32 (hw_clock h i)) (tm_cputime (timer_of c t)) = false
    | [] => True
    end.
Proof.
  intros Hcb Hlog Hok. pose proof (chk_expiration_ok timer_cb log Hcb Hlog base s Hok) as H.
  apply wp_run in H as ([] & s'' & Hrun & s' & k & [E1 E2 _ _ _ E6 E7] & Hl & Hq & Hok').
  exists s'', k. fold c in E1, E2, E6, E7. split; [done|]. split; [by rewrite Hl|]. split; [by rewrite Hq|].
  split; [done|]. split; [exact E6|exact E7].
Qed.

Lemma cputimer_fires_in_order_witness : ∃ s' k,
  cputime_chk_expiration (U := Demo.logged) Demo.log_cb 2 (Demo.s1, []) = Ret (tt, s') ∧
  s'.2 = [] ++ map (callback_of Demo.s1) (take k [7%nat]).
Proof.
  destruct (cputimer_fires_in_order (U := Demo.logged) Demo.log_cb snd 0 (Demo.s1, [])) as (s' & k & H1 & H2 & _).
  - intros f a s. exists (s.1, s.2 ++ [(f, a)]). auto.
  - done.
  - apply Demo.s1_ok.
  - exists s', k. auto.
Defined.

(** C38. The 64-bit time is exact: it is the number of ticks the counter had made at one of
    the (at most three) accesses the function makes to the peripheral, even when the
    32-bit counter overflows between them, as long as at most one overflow has not yet
    been counted by the interrupt. *)
Theorem cputime_get64_exact s (h := cpu_hw s) (n := hw_access h) :
  cputime_high s = u32 (hw_wraps h) →
  (∀ i j, (i ≤ j)%nat → hw_clock h i <= hw_clock h j) →
  hw_wraps h * 2 ^ 32 <= hw_clock h n → hw_clock h (n + 2) < (hw_wraps h + 2) * 2 ^ 32 →
  ∃ i s', (n ≤ i ≤ n + 2)%nat ∧ cputime_get64 s = Ret (u64 (hw_clock h i), s').
Proof. intros. by apply (get64_reads s (hw_wraps h)). Qed.

Lemma cputime_get64_exact_witness : ∃ i s', (0 ≤ i ≤ 2)%nat ∧
  cputime_get64 Demo.s1 = Ret (u64 (1000 + 10 * Z.of_nat i), s').
Proof.
  apply (cputime_get64_exact Demo.s1).
  - reflexivity.
  - simpl. lia.
  - simpl. lia.
  - simpl. lia.
Defined.
