(* ===== verification/BleSched.v ===== *)
(** The scheduler of the BLE link layer: net/nimble/controller/src/ble_ll_sched.c, with
    the parts of ble_ll.c, ble_ll_adv.c and ble_ll_conn.c it calls.

    A schedule item reserves the radio from its start time to its end time, for an
    advertising event or for an event of a connection.  The items are queued by time
    and a cpu timer ([HalCputime]) is started for the first one.  A new advertising
    event moves behind the items it overlaps, a slave's connection event pushes
    connections out, and a connection that is rescheduled replaces connections that
    were serviced later than it.

    The items are embedded in the state machines that own them: [SchAdv] is
    [&g_ble_ll_adv_sm.adv_sch], [SchConn c] is [&connsm->conn_sch] of connection [c]. *)
From Stdlib Require Import ZArith Lia.
From stdpp Require Import base decidable list numbers gmap.
From S2P Require Import Prelude.
From S2P Require Import OsState.
From S2P Require Import HalCputime.

#[local] Open Scope Z_scope.

(** ** Constants *)
Definition BLE_LL_SCHED_USECS_PER_SLOT : Z := 1250.
Definition BLE_LL_STATE_STANDBY : Z := 0.
Definition BLE_LL_STATE_ADV : Z := 1.
Definition BLE_LL_STATE_SCANNING : Z := 2.
Definition BLE_LL_STATE_INITIATING : Z := 3.
Definition BLE_LL_STATE_CONNECTION : Z := 4.
Definition BLE_LL_CONN_ROLE_SLAVE : Z := 2.
Definition BLE_LL_IFS : Z := 150.
Definition BLE_LL_CONN_INITIAL_OFFSET : Z := 1250.
Definition BLE_LL_CONN_ITVL_USECS : Z := 1250.
Definition BLE_LL_CONN_REQ_DURATION : Z := 352.
Definition BLE_LL_ADV_STATE_HD_MAX : Z := 1280.
Definition XCVR_TX_SCHED_DELAY_USECS : Z := 140 + 50.
Definition XCVR_RX_SCHED_DELAY_USECS : Z := 140 + 50.

(** ** State *)

Inductive sched_kind := BLE_LL_SCHED_TYPE_ADV | BLE_LL_SCHED_TYPE_SCAN | BLE_LL_SCHED_TYPE_CONN.
#[export] Instance sched_kind_eq_dec : EqDecision sched_kind.
Proof. solve_decision. Defined.

Inductive sched_id := SchAdv | SchConn (c : nat).
#[export] Instance sched_id_eq_dec : EqDecision sched_id.
Proof. solve_decision. Defined.

(** [cb_arg] points to a connection when the type is [BLE_LL_SCHED_TYPE_CONN]. *)
Record ble_ll_sched_item := mk_item {
  sched_type : sched_kind;
  enqueued : bool;
  start_time : Z;
  end_time : Z;
  cb_arg : nat;
  sched_cb : option nat;
}.

Record ble_ll_conn_sm := mk_conn {
  conn_role : Z;
  conn_itvl : Z;
  tx_win_off : Z;
  anchor_point : Z;
  ce_end_time : Z;
  last_scheduled : Z;
  slave_cur_window_widening : Z;
  pkt_rxd : bool;
  conn_sch : ble_ll_sched_item;
}.
#[export] Instance ble_ll_conn_sm_inhabited : Inhabited ble_ll_conn_sm :=
  populate (mk_conn 0 0 0 0 0 0 0 false (mk_item BLE_LL_SCHED_TYPE_CONN false 0 0 0 None)).

Record ble_ll_adv_sm := mk_adv {
  adv_event_start_time : Z;
  adv_pdu_start_time : Z;
  adv_dir_hd_end_time : Z;
  adv_sch : ble_ll_sched_item;
}.

(** The events of the link layer task. *)
Inductive ll_event := EvConnEnd (c : nat) | EvAdvTxDone.
#[export] Instance ll_event_eq_dec : EqDecision ll_event.
Proof. solve_decision. Defined.

Record ll_st := mk_ll {
  ll_cpu : cputime_st;
  g_ble_ll_sched_q : list sched_id;
  g_ble_ll_adv_sm : ble_ll_adv_sm;
  g_ble_ll_conn_sm : gmap nat ble_ll_conn_sm;
  g_ble_ll_conn_cur_sm : option nat;
  ll_state : Z;
  ll_evq : list ll_event;
  sched_state_adv_errs : Z;
  sched_state_conn_errs : Z;
}.

Abbreviation L := (M ll_st) (only parsing).

Definition set_ll_cpu (v : cputime_st) (s : ll_st) : ll_st :=
  mk_ll v (g_ble_ll_sched_q s) (g_ble_ll_adv_sm s) (g_ble_ll_conn_sm s) (g_ble_ll_conn_cur_sm s)
    (ll_state s) (ll_evq s) (sched_state_adv_errs s) (sched_state_conn_errs s).
Definition set_sched_q (v : list sched_id) (s : ll_st) : ll_st :=
  mk_ll (ll_cpu s) v (g_ble_ll_adv_sm s) (g_ble_ll_conn_sm s) (g_ble_ll_conn_cur_sm s)
    (ll_state s) (ll_evq s) (sched_state_adv_errs s) (sched_state_conn_errs s).
Definition upd_adv (f : ble_ll_adv_sm → ble_ll_adv_sm) (s : ll_st) : ll_st :=
  mk_ll (ll_cpu s) (g_ble_ll_sched_q s) (f (g_ble_ll_adv_sm s)) (g_ble_ll_conn_sm s) (g_ble_ll_conn_cur_sm s)
    (ll_state s) (ll_evq s) (sched_state_adv_errs s) (sched_state_conn_errs s).
Definition conn_of (s : ll_st) (c : nat) : ble_ll_conn_sm := g_ble_ll_conn_sm s !!! c.
Definition upd_conn (c : nat) (f : ble_ll_conn_sm → ble_ll_conn_sm) (s : ll_st) : ll_st :=
  mk_ll (ll_cpu s) (g_ble_ll_sched_q s) (g_ble_ll_adv_sm s) (<[c := f (conn_of s c)]> (g_ble_ll_conn_sm s))
    (g_ble_ll_conn_cur_sm s) (ll_state s) (ll_evq s) (sched_state_adv_errs s) (sched_state_conn_errs s).
Definition set_cur_sm (v : option nat) (s : ll_st) : ll_st :=
  mk_ll (ll_cpu s) (g_ble_ll_sched_q s) (g_ble_ll_adv_sm s) (g_ble_ll_conn_sm s) v
    (ll_state s) (ll_evq s) (sched_state_adv_errs s) (sched_state_conn_errs s).
Definition set_ll_state (v : Z) (s : ll_st) : ll_st :=
  mk_ll (ll_cpu s) (g_ble_ll_sched_q s) (g_ble_ll_adv_sm s) (g_ble_ll_conn_sm s) (g_ble_ll_conn_cur_sm s)
    v (ll_evq s) (sched_state_adv_errs s) (sched_state_conn_errs s).
Definition set_ll_evq (v : list ll_event) (s : ll_st) : ll_st :=
  mk_ll (ll_cpu s) (g_ble_ll_sched_q s) (g_ble_ll_adv_sm s) (g_ble_ll_conn_sm s) (g_ble_ll_conn_cur_sm s)
    (ll_state s) v (sched_state_adv_errs s) (sched_state_conn_errs s).
Definition set_sched_errs (a c : Z) (s : ll_st) : ll_st :=
  mk_ll (ll_cpu s) (g_ble_ll_sched_q s) (g_ble_ll_adv_sm s) (g_ble_ll_conn_sm s) (g_ble_ll_conn_cur_sm s)
    (ll_state s) (ll_evq s) a c.

#[export, refine] Instance ll_cputime : CputimeUser ll_st := { cpu_of := ll_cpu; set_cpu := set_ll_cpu }.
Proof. all: by intros; destruct s. Defined.

Definition set_conn_sch (i : ble_ll_sched_item) (c : ble_ll_conn_sm) : ble_ll_conn_sm :=
  mk_conn (conn_role c) (conn_itvl c) (tx_win_off c) (anchor_point c) (ce_end_time c) (last_scheduled c)
    (slave_cur_window_widening c) (pkt_rxd c) i.
Definition set_conn_timing (win_off anchor ce_end : Z) (c : ble_ll_conn_sm) : ble_ll_conn_sm :=
  mk_conn (conn_role c) (conn_itvl c) win_off anchor ce_end (last_scheduled c)
    (slave_cur_window_widening c) (pkt_rxd c) (conn_sch c).
Definition set_pkt_rxd (b : bool) (c : ble_ll_conn_sm) : ble_ll_conn_sm :=
  mk_conn (conn_role c) (conn_itvl c) (tx_win_off c) (anchor_point c) (ce_end_time c) (last_scheduled c)
    (slave_cur_window_widening c) b (conn_sch c).
Definition set_adv_sch (i : ble_ll_sched_item) (a : ble_ll_adv_sm) : ble_ll_adv_sm :=
  mk_adv (adv_event_start_time a) (adv_pdu_start_time a) (adv_dir_hd_end_time a) i.
Definition set_times (a b : Z) (i : ble_ll_sched_item) : ble_ll_sched_item :=
  mk_item (sched_type i) (enqueued i) a b (cb_arg i) (sched_cb i).
Definition set_enqueued (b : bool) (i : ble_ll_sched_item) : ble_ll_sched_item :=
  mk_item (sched_type i) b (start_time i) (end_time i) (cb_arg i) (sched_cb i).

(** A pointer to a schedule item. *)
Definition item_of (s : ll_st) (i : sched_id) : ble_ll_sched_item :=
  match i with
  | SchAdv => adv_sch (g_ble_ll_adv_sm s)
  | SchConn c => conn_sch (conn_of s c)
  end.
Definition upd_item (i : sched_id) (f : ble_ll_sched_item → ble_ll_sched_item) (s : ll_st) : ll_st :=
  match i with
  | SchAdv => upd_adv (λ a, set_adv_sch (f (adv_sch a)) a) s
  | SchConn c => upd_conn c (λ k, set_conn_sch (f (conn_sch k)) k) s
  end.

(** [&g_ble_ll_sched_timer] and [&g_ble_ll_data.ll_wfr_timer]. *)
Definition g_ble_ll_sched_timer : nat := 0.
Definition ll_wfr_timer : nat := 1.
Definition ble_ll_sched_run_cb : nat := 0.

(** ** What the scheduler calls *)

(** [os_eventq_put]: an event that is queued stays where it is. *)
Definition ble_ll_event_send (ev : ll_event) : L unit :=
  modify (λ s, if decide (ev ∈ ll_evq s) then s else set_ll_evq (ll_evq s ++ [ev]) s).

Definition ble_ll_state_get : L Z := gets ll_state.
Definition ble_ll_state_set (v : Z) : L unit := modify (set_ll_state v).
Definition ble_ll_wfr_disable : L unit := on_cpu (cputime_timer_stop ll_wfr_timer).

Definition ble_ll_conn_is_lru (s : ll_st) (s1 s2 : nat) : bool :=
  s32 (u32 (last_scheduled (conn_of s s1) - last_scheduled (conn_of s s2))) <? 0.

Definition ble_ll_conn_get_ce_end_time : L Z :=
  s ← get;
  match g_ble_ll_conn_cur_sm s with
  | Some c => mret (ce_end_time (conn_of s c))
  | None => on_cpu cputime_get32
  end.

Definition ble_ll_conn_event_halt : L unit :=
  ble_ll_state_set BLE_LL_STATE_STANDBY ;;
  s ← get;
  match g_ble_ll_conn_cur_sm s with
  | Some c =>
      modify (upd_conn c (set_pkt_rxd false)) ;;
      ble_ll_event_send (EvConnEnd c) ;;
      modify (set_cur_sm None)
  | None => mret tt
  end.

Definition ble_ll_adv_tx_done : L unit :=
  ble_ll_event_send EvAdvTxDone ;;
  ble_ll_state_set BLE_LL_STATE_STANDBY.
Definition ble_ll_adv_halt : L unit := ble_ll_adv_tx_done.

Definition ble_ll_adv_scheduled (sch_start : Z) : L unit :=
  t ← on_cpu (cputime_usecs_to_ticks XCVR_TX_SCHED_DELAY_USECS);
  let start := u32 (sch_start + t) in
  d ← on_cpu (cputime_usecs_to_ticks (BLE_LL_ADV_STATE_HD_MAX * 1000));
  modify (upd_adv (λ a, mk_adv start start (u32 (start + d)) (adv_sch a))).

(** ** The scheduler *)

Definition time_diff (a b : Z) : Z := s32 (u32 (a - b)).

Definition ble_ll_sched_is_overlap (s1 s2 : ble_ll_sched_item) : bool :=
  if time_diff (start_time s1) (start_time s2) <? 0 then
    negb (time_diff (end_time s1) (start_time s2) <=? 0)
  else negb (0 <=? time_diff (start_time s1) (end_time s2)).

Definition ble_ll_sched_overlaps_current (sch : sched_id) : L bool :=
  lls ← ble_ll_state_get;
  if lls =? BLE_LL_STATE_CONNECTION then
    t ← ble_ll_conn_get_ce_end_time;
    s ← get;
    mret (0 <? time_diff t (start_time (item_of s sch)))
  else mret false.

(** TAILQ_REMOVE, TAILQ_INSERT_BEFORE and TAILQ_INSERT_TAIL on the queue. *)
Definition sched_remove (i : sched_id) : L unit :=
  s ← get;
  q ← from_option_fault FList (list_remove i (g_ble_ll_sched_q s));
  modify (set_sched_q q).
Definition sched_insert_before (entry i : sched_id) : L unit :=
  modify (λ s, set_sched_q (insert_before (λ e, bool_decide (e = entry)) i (g_ble_ll_sched_q s)) s).
Definition sched_insert_tail (i : sched_id) : L unit :=
  modify (λ s, set_sched_q (g_ble_ll_sched_q s ++ [i]) s).

(** [true]: the item of a connection was removed; [false]: the return value -1. *)
Definition ble_ll_sched_conn_overlap (entry : sched_id) : L bool :=
  s ← get;
  if decide (sched_type (item_of s entry) = BLE_LL_SCHED_TYPE_CONN) then
    modify (upd_item entry (set_enqueued false)) ;;
    sched_remove entry ;;
    ble_ll_event_send (EvConnEnd (cb_arg (item_of s entry))) ;;
    mret true
  else mret false.

Definition ble_ll_sched_insert_if_empty (sch : sched_id) : L (option sched_id) :=
  s ← get;
  match head (g_ble_ll_sched_q s) with
  | None =>
      modify (set_sched_q (sch :: g_ble_ll_sched_q s)) ;;
      modify (upd_item sch (set_enqueued true)) ;;
      mret None
  | Some e => mret (Some e)
  end.

Definition sched_timer_stop : L unit := on_cpu (cputime_timer_stop g_ble_ll_sched_timer).
Definition sched_timer_start (sch : sched_id) : L unit :=
  s ← get;
  on_cpu (cputime_timer_start g_ble_ll_sched_timer (start_time (item_of s sch))).
Definition sched_first : L sched_id :=
  s ← get; from_option_fault FNull (head (g_ble_ll_sched_q s)).

(** *** Rescheduling a connection *)

(** The loop over the queue.  The result: [rc = 0], the first and the last entry that
    is overlapped, and whether the item was inserted before an entry. *)
Record resched := mk_resched {
  rs_ok : bool; rs_start : option sched_id; rs_end : option sched_id; rs_inserted : bool }.

Fixpoint resched_loop (sch : sched_id) (start_overlap end_overlap : option sched_id)
    (l : list sched_id) : L resched :=
  match l with
  | [] => mret (mk_resched true start_overlap end_overlap false)
  | entry :: l =>
      s ← get;
      if ble_ll_sched_is_overlap (item_of s sch) (item_of s entry) then
        if bool_decide (sched_type (item_of s entry) = BLE_LL_SCHED_TYPE_ADV) ||
           negb (ble_ll_conn_is_lru s (cb_arg (item_of s sch)) (cb_arg (item_of s entry))) then
          mret (mk_resched false None end_overlap true)
        else
          match start_overlap with
          | None => resched_loop sch (Some entry) (Some entry) l
          | Some _ => resched_loop sch start_overlap (Some entry) l
          end
      else if time_diff (end_time (item_of s sch)) (start_time (item_of s entry)) <? 0 then
        sched_insert_before entry sch ;;
        mret (mk_resched true start_overlap end_overlap true)
      else resched_loop sch start_overlap end_overlap l
  end.

(** Removes the entries from [entry] to [end_overlap]. *)
Fixpoint overlap_remove (fuel : nat) (entry end_overlap : option sched_id) : L unit :=
  match entry with
  | None => mret tt
  | Some e =>
      match fuel with
      | O => fault_with FFuel
      | S fuel =>
          s ← get;
          let next := next_of e (g_ble_ll_sched_q s) in
          (if decide (sched_type (item_of s e) = BLE_LL_SCHED_TYPE_CONN) return L unit
           then ble_ll_event_send (EvConnEnd (cb_arg (item_of s e))) else mret tt) ;;
          sched_remove e ;;
          modify (upd_item e (set_enqueued false)) ;;
          if decide (Some e = end_overlap) then mret tt else overlap_remove fuel next end_overlap
      end
  end.

Definition ble_ll_sched_conn_reschedule (connsm : nat) : L Z :=
  s ← get;
  let sch := SchConn connsm in
  let k := conn_of s connsm in
  let usecs := if conn_role k =? BLE_LL_CONN_ROLE_SLAVE
               then u32 (XCVR_RX_SCHED_DELAY_USECS + slave_cur_window_widening k)
               else XCVR_TX_SCHED_DELAY_USECS in
  ticks ← on_cpu (cputime_usecs_to_ticks usecs);
  let start := u32 (anchor_point k - ticks) in
  modify (upd_item sch (set_times start (ce_end_time k))) ;;
  now ← on_cpu cputime_get32;
  if time_diff start now <? 0 then mret (-1)
  else
    cur ← ble_ll_sched_overlaps_current sch;
    if (cur : bool) then mret (-1)
    else
      sched_timer_stop ;;
      s ← get;
      r ← resched_loop sch None None (g_ble_ll_sched_q s);
      (if rs_ok r return L unit then
         (if rs_inserted r return L unit then mret tt else sched_insert_tail sch) ;;
         modify (upd_item sch (set_enqueued true))
       else mret tt) ;;
      s ← get;
      overlap_remove (length (g_ble_ll_sched_q s)) (rs_start r) (rs_end r) ;;
      first ← sched_first;
      sched_timer_start first ;;
      mret (if rs_ok r then 0 else -1).

(** *** A new master connection *)

(** The loop over the queue: the item's times, the earliest start and end, and whether
    it was inserted, given up, or the end of the queue was reached. *)
Inductive place := PlaceInserted | PlaceFailed | PlaceTail.

Fixpoint master_loop (sch : sched_id) (dur itvl_t initial_start earliest_start earliest_end : Z)
    (l : list sched_id) : L (place * (Z * Z)) :=
  match l with
  | [] => mret (PlaceTail, (earliest_start, earliest_end))
  | entry :: l =>
      modify (upd_item sch (set_times earliest_start earliest_end)) ;;
      s ← get;
      if time_diff (end_time (item_of s sch)) (start_time (item_of s entry)) <? 0 then
        if u32 (earliest_start - initial_start) <=? itvl_t then
          sched_insert_before entry sch ;;
          mret (PlaceInserted, (earliest_start, earliest_end))
        else mret (PlaceFailed, (earliest_start, earliest_end))
      else if ble_ll_sched_is_overlap (item_of s sch) (item_of s entry) then
        let earliest_start := end_time (item_of s entry) in
        master_loop sch dur itvl_t initial_start earliest_start (u32 (earliest_start + dur)) l
      else master_loop sch dur itvl_t initial_start earliest_start earliest_end l
  end.

Definition ble_ll_sched_master_new (connsm : nat) (adv_rxend req_slots : Z) : L Z :=
  s ← get;
  let sch := SchConn connsm in
  dur ← on_cpu (cputime_usecs_to_ticks (req_slots * BLE_LL_SCHED_USECS_PER_SLOT));
  off ← on_cpu (cputime_usecs_to_ticks
    (BLE_LL_IFS + BLE_LL_CONN_REQ_DURATION + BLE_LL_CONN_INITIAL_OFFSET));
  let earliest_start := u32 (adv_rxend + off) in
  let earliest_end := u32 (earliest_start + dur) in
  itvl_t ← on_cpu (cputime_usecs_to_ticks (conn_itvl (conn_of s connsm) * BLE_LL_CONN_ITVL_USECS));
  modify (upd_item sch (λ i, set_times earliest_start (end_time i) i)) ;;
  lls ← ble_ll_state_get;
  '(earliest_start, earliest_end) ←
    (if lls =? BLE_LL_STATE_CONNECTION return L (Z * Z) then
       ce_end ← ble_ll_conn_get_ce_end_time;
       mret (if 0 <=? time_diff ce_end earliest_start then (ce_end, u32 (ce_end + dur))
             else (earliest_start, earliest_end))
     else mret (earliest_start, earliest_end));
  let initial_start := earliest_start in
  e ← ble_ll_sched_insert_if_empty sch;
  '(rc, sch', (earliest_start, earliest_end)) ←
    (match (e : option sched_id) return L (Z * sched_id * (Z * Z)) with
     | None =>
         modify (upd_conn connsm (λ k, set_conn_timing 0 (anchor_point k) (ce_end_time k) k)) ;;
         mret (0, sch, (earliest_start, earliest_end))
     | Some _ =>
         sched_timer_stop ;;
         s ← get;
         '(p, (earliest_start, earliest_end)) ←
           master_loop sch dur itvl_t initial_start earliest_start earliest_end (g_ble_ll_sched_q s);
         rc ← (match p return L Z with
               | PlaceInserted => mret 0
               | PlaceFailed => mret (-1)
               | PlaceTail =>
                   if u32 (earliest_start - initial_start) <=? itvl_t return L Z then
                     sched_insert_tail sch ;; mret 0
                   else mret (-1)
               end);
         (if rc =? 0 return L unit then
            modify (upd_item sch (set_enqueued true)) ;;
            ticks ← on_cpu (cputime_usecs_to_ticks BLE_LL_CONN_ITVL_USECS);
            modify (upd_conn connsm (λ k,
              set_conn_timing (u16 (u32 (earliest_start - initial_start) / ticks))
                (anchor_point k) (ce_end_time k) k))
          else mret tt) ;;
         first ← sched_first;
         mret (rc, first, (earliest_start, earliest_end))
     end);
  (if rc =? 0 return L unit then
     modify (upd_item sch' (set_times earliest_start earliest_end)) ;;
     t ← on_cpu (cputime_usecs_to_ticks XCVR_TX_SCHED_DELAY_USECS);
     modify (upd_conn connsm (λ k, set_conn_timing (tx_win_off k) (u32 (earliest_start + t)) earliest_end k))
   else mret tt) ;;
  sched_timer_start sch' ;;
  mret rc.

(** *** A new slave connection *)

(** [true]: inserted ([rc = 0]); [false]: an advertising event is overlapped. *)
Fixpoint slave_loop (sch : sched_id) (l : list sched_id) : L bool :=
  match l with
  | [] => sched_insert_tail sch ;; mret true
  | entry :: l =>
      s ← get;
      if time_diff (end_time (item_of s sch)) (start_time (item_of s entry)) <? 0 then
        sched_insert_before entry sch ;; mret true
      else if ble_ll_sched_is_overlap (item_of s sch) (item_of s entry) then
        removed ← ble_ll_sched_conn_overlap entry;
        if (removed : bool) then slave_loop sch l else mret false
      else slave_loop sch l
  end.

Definition ble_ll_sched_slave_new (connsm : nat) : L Z :=
  s ← get;
  let sch := SchConn connsm in
  let k := conn_of s connsm in
  ticks ← on_cpu (cputime_usecs_to_ticks (u32 (XCVR_RX_SCHED_DELAY_USECS + slave_cur_window_widening k)));
  modify (upd_item sch (set_times (u32 (anchor_point k - ticks)) (ce_end_time k))) ;;
  cur ← ble_ll_sched_overlaps_current sch;
  if (cur : bool) then mret (-1)
  else
    e ← ble_ll_sched_insert_if_empty sch;
    '(rc, sch) ←
      (match (e : option sched_id) return L (Z * sched_id) with
       | None => mret (0, sch)
       | Some _ =>
           sched_timer_stop ;;
           s ← get;
           ok ← slave_loop sch (g_ble_ll_sched_q s);
           (if (ok : bool) return L unit then modify (upd_item sch (set_enqueued true)) else mret tt) ;;
           first ← sched_first;
           mret (if (ok : bool) then 0 else -1, first)
       end);
    sched_timer_start sch ;;
    mret rc.

(** *** Advertising events *)

(** [true]: inserted before an entry; [false]: the end of the queue was reached. *)
Fixpoint adv_loop (sch : sched_id) (duration : Z) (l : list sched_id) : L bool :=
  match l with
  | [] => mret false
  | entry :: l =>
      s ← get;
      if time_diff (end_time (item_of s sch)) (start_time (item_of s entry)) <? 0 then
        sched_insert_before entry sch ;; mret true
      else
        (if ble_ll_sched_is_overlap (item_of s sch) (item_of s entry) return L unit then
           let start := end_time (item_of s entry) in
           modify (upd_item sch (set_times start (u32 (start + duration))))
         else mret tt) ;;
        adv_loop sch duration l
  end.

Definition ble_ll_sched_adv_new (sch : sched_id) : L Z :=
  s ← get;
  let duration := u32 (end_time (item_of s sch) - start_time (item_of s sch)) in
  lls ← ble_ll_state_get;
  (if lls =? BLE_LL_STATE_CONNECTION return L unit then
     slot ← on_cpu (cputime_usecs_to_ticks BLE_LL_SCHED_USECS_PER_SLOT);
     modify (upd_item sch (λ i, set_times (u32 (start_time i + slot)) (end_time i) i)) ;;
     ce_end ← ble_ll_conn_get_ce_end_time;
     s ← get;
     (if 0 <=? time_diff ce_end (start_time (item_of s sch)) return L unit then
        modify (upd_item sch (λ i, set_times ce_end (end_time i) i))
      else mret tt) ;;
     modify (upd_item sch (λ i, set_times (start_time i) (u32 (start_time i + duration)) i))
   else mret tt) ;;
  e ← ble_ll_sched_insert_if_empty sch;
  '(adv_start, first) ←
    (match (e : option sched_id) return L (Z * sched_id) with
     | None => s ← get; mret (start_time (item_of s sch), sch)
     | Some _ =>
         sched_timer_stop ;;
         s ← get;
         ok ← adv_loop sch duration (g_ble_ll_sched_q s);
         (if (ok : bool) return L unit then mret tt else sched_insert_tail sch) ;;
         s ← get;
         modify (upd_item sch (set_enqueued true)) ;;
         first ← sched_first;
         mret (start_time (item_of s sch), first)
     end);
  ble_ll_adv_scheduled adv_start ;;
  sched_timer_start first ;;
  mret 0.

(** The loop of the advertising event that is already under way: a connection is
    pushed out, another advertising event is an assertion failure. *)
Fixpoint adv_resched_loop (sch : sched_id) (l : list sched_id) : L unit :=
  match l with
  | [] => sched_insert_tail sch
  | entry :: l =>
      s ← get;
      if time_diff (end_time (item_of s sch)) (start_time (item_of s entry)) <? 0 then
        sched_insert_before entry sch
      else
        (if ble_ll_sched_is_overlap (item_of s sch) (item_of s entry) return L unit then
           removed ← ble_ll_sched_conn_overlap entry;
           assert_ removed
         else mret tt) ;;
        adv_resched_loop sch l
  end.

Definition ble_ll_sched_adv_reschedule (sch : sched_id) : L Z :=
  cur ← ble_ll_sched_overlaps_current sch;
  if (cur : bool) then mret (-1)
  else
    e ← ble_ll_sched_insert_if_empty sch;
    first ←
      (match (e : option sched_id) return L sched_id with
       | None => mret sch
       | Some _ =>
           sched_timer_stop ;;
           s ← get;
           adv_resched_loop sch (g_ble_ll_sched_q s) ;;
           modify (upd_item sch (set_enqueued true)) ;;
           sched_first
       end);
    sched_timer_start first ;;
    mret 0.

(** *** Removing and running items *)

Definition ble_ll_sched_rmv_elem (sch : option sched_id) : L unit :=
  match sch with
  | None => mret tt
  | Some sch =>
      s ← get;
      if enqueued (item_of s sch) return L unit then
        let was_first := bool_decide (head (g_ble_ll_sched_q s) = Some sch) in
        (if was_first return L unit then sched_timer_stop else mret tt) ;;
        sched_remove sch ;;
        modify (upd_item sch (set_enqueued false)) ;;
        (if was_first return L unit then
           s ← get;
           match head (g_ble_ll_sched_q s) with
           | Some first => sched_timer_start first
           | None => mret tt
           end
         else mret tt)
      else mret tt
  end.

Section run.
(** The radio driver and the callbacks of the items. *)
Context (ble_phy_disable : L unit) (call_sched_cb : nat → sched_id → L Z).

Definition ble_ll_sched_execute_item (sch : sched_id) : L Z :=
  lls ← ble_ll_state_get;
  (if negb (lls =? BLE_LL_STATE_STANDBY) return L unit then
     ble_phy_disable ;;
     ble_ll_wfr_disable ;;
     (if (lls =? BLE_LL_STATE_SCANNING) || (lls =? BLE_LL_STATE_INITIATING) return L unit then
        ble_ll_state_set BLE_LL_STATE_STANDBY
      else if lls =? BLE_LL_STATE_ADV return L unit then
        modify (λ s, set_sched_errs (u32 (sched_state_adv_errs s + 1)) (sched_state_conn_errs s) s) ;;
        ble_ll_adv_halt
      else
        ble_ll_conn_event_halt ;;
        modify (λ s, set_sched_errs (sched_state_adv_errs s) (u32 (sched_state_conn_errs s + 1)) s))
   else mret tt) ;;
  s ← get;
  cb ← from_option_fault FAssert (sched_cb (item_of s sch));
  call_sched_cb cb sch.

Fixpoint sched_run_loop (fuel : nat) : L unit :=
  s ← get;
  match head (g_ble_ll_sched_q s) with
  | None => mret tt
  | Some sch =>
      match fuel with
      | O => fault_with FFuel
      | S fuel =>
          now ← on_cpu cputime_get32;
          if 0 <=? time_diff now (start_time (item_of s sch)) return L unit then
            ble_ll_sched_execute_item sch ;;
            sched_remove sch ;;
            modify (upd_item sch (set_enqueued false)) ;;
            sched_run_loop fuel
          else sched_timer_start sch
      end
  end.

(** The callbacks may schedule items again: [fuel] bounds the number of items run. *)
Definition ble_ll_sched_run (fuel : nat) : L unit := sched_run_loop fuel.
End run.

Definition ble_ll_sched_stop : L unit := sched_timer_stop.

Definition ble_ll_sched_init : L Z :=
  on_cpu (cputime_timer_init g_ble_ll_sched_timer ble_ll_sched_run_cb 0) ;;
  mret 0.
