(* ===== verification/BleSchedProps.v ===== *)
(** Correctness of the link-layer scheduler of [BleSched].

    The promise of the scheduler is that the radio is never reserved twice: the queued
    items are disjoint, in the order of their times, and the timer runs for the first
    one.  Times are 32-bit counter values that wrap around; the statements are relative
    to a [base] such that all the times in play lie in the half range that follows it,
    which is where the signed comparisons of the code are meaningful. *)
From Stdlib Require Import ZArith Lia.
From stdpp Require Import base decidable numbers list sorting gmap.
From S2P Require Import Prelude.
From S2P Require Import OsState.
From S2P Require Import HalCputime.
From S2P Require Import BleSched.

#[local] Open Scope Z_scope.

(** ** Times relative to a base *)

Lemma time_diff_until base a b :
  in_window base a → in_window base b → time_diff a b = ticks_until base a - ticks_until base b.
Proof. unfold in_window, ticks_until, time_diff. intros. wrap_lia. Qed.

Lemma ticks_until_shift base t d :
  0 <= d → ticks_until base t + d < 4294967296 → ticks_until base (u32 (t + d)) = ticks_until base t + d.
Proof. unfold ticks_until. intros. wrap_lia. Qed.

(** ** Reading back updates *)

Lemma conn_of_upd c f s d :
  conn_of (upd_conn c f s) d = if decide (c = d) then f (conn_of s c) else conn_of s d.
Proof.
  unfold conn_of, upd_conn; simpl.
  case_decide; subst; [by rewrite lookup_total_insert_eq|by rewrite lookup_total_insert_ne].
Qed.

Lemma item_of_upd i f s j :
  item_of (upd_item i f s) j = if decide (i = j) then f (item_of s i) else item_of s j.
Proof.
  destruct i as [|c], j as [|d]; simpl; try done.
  unfold conn_of, upd_conn; simpl. destruct (decide (c = d)) as [->|Hne].
  - by rewrite lookup_total_insert_eq, decide_True.
  - rewrite lookup_total_insert_ne by done. rewrite decide_False by congruence. done.
Qed.

Lemma upd_item_same i f s :
  g_ble_ll_sched_q (upd_item i f s) = g_ble_ll_sched_q s ∧ ll_cpu (upd_item i f s) = ll_cpu s ∧
  ll_evq (upd_item i f s) = ll_evq s ∧ ll_state (upd_item i f s) = ll_state s ∧
  g_ble_ll_conn_cur_sm (upd_item i f s) = g_ble_ll_conn_cur_sm s.
Proof. by destruct i. Qed.

Lemma upd_item_q i f s : g_ble_ll_sched_q (upd_item i f s) = g_ble_ll_sched_q s.
Proof. by destruct i. Qed.
Lemma upd_item_cpu i f s : ll_cpu (upd_item i f s) = ll_cpu s.
Proof. by destruct i. Qed.
Lemma upd_item_evq i f s : ll_evq (upd_item i f s) = ll_evq s.
Proof. by destruct i. Qed.
Lemma upd_item_lru i f s c d : ble_ll_conn_is_lru (upd_item i f s) c d = ble_ll_conn_is_lru s c d.
Proof.
  destruct i as [|k]; [done|]. unfold ble_ll_conn_is_lru, upd_item. rewrite !conn_of_upd.
  by repeat case_decide; subst.
Qed.

(** ** The schedule *)

Section base.
Context (base : Z).

Definition t_start (s : ll_st) (i : sched_id) : Z := ticks_until base (start_time (item_of s i)).
Definition t_end (s : ll_st) (i : sched_id) : Z := ticks_until base (end_time (item_of s i)).

(** The item reserves a non-empty interval of the window. *)
Definition reserves (s : ll_st) (i : sched_id) : Prop := t_start s i < t_end s i < 2147483648.

(** Item [i] is over when [j] starts. *)
Definition precedes (s : ll_st) (i j : sched_id) : Prop := t_end s i <= t_start s j.

(** The items of [q] are disjoint and in order. *)
Definition ordered (s : ll_st) (q : list sched_id) : Prop :=
  Forall (reserves s) q ∧ StronglySorted (precedes s) q.

(** [i] and [j] want the radio at the same time. *)
Definition overlaps (s : ll_st) (i j : sched_id) : Prop :=
  t_start s i < t_end s j ∧ t_start s j < t_end s i.

#[export] Instance overlaps_dec s i j : Decision (overlaps s i j).
Proof. unfold overlaps. apply _. Defined.

Lemma reserves_start s i : reserves s i → in_window base (start_time (item_of s i)).
Proof. unfold reserves, in_window, t_start. lia. Qed.
Lemma reserves_end s i : reserves s i → in_window base (end_time (item_of s i)).
Proof. unfold reserves, in_window, t_end. lia. Qed.

(** On such items the wrapped comparisons of the code decide overlap and order. *)
Lemma is_overlap_spec s i j : reserves s i → reserves s j →
  ble_ll_sched_is_overlap (item_of s i) (item_of s j) = bool_decide (overlaps s i j).
Proof.
  intros Hi Hj. unfold ble_ll_sched_is_overlap.
  rewrite !(time_diff_until base) by (by apply reserves_start || by apply reserves_end).
  unfold overlaps, reserves, t_start, t_end in *.
  case_bool_decide; destruct (Z.ltb_spec (ticks_until base (start_time (item_of s i)) -
    ticks_until base (start_time (item_of s j))) 0); lia.
Qed.

Lemma ends_before_spec s i j : reserves s i → reserves s j →
  (time_diff (end_time (item_of s i)) (start_time (item_of s j)) <? 0) = (t_end s i <? t_start s j).
Proof.
  intros Hi Hj. rewrite (time_diff_until base) by (by apply reserves_start || by apply reserves_end).
  unfold t_start, t_end. lia.
Qed.

Lemma ordered_app s l1 l2 :
  ordered s (l1 ++ l2) ↔ ordered s l1 ∧ ordered s l2 ∧ (∀ a b, a ∈ l1 → b ∈ l2 → precedes s a b).
Proof.
  unfold ordered. rewrite Forall_app. split.
  - intros [[? ?] Hs]. apply StronglySorted_app in Hs as (? & ? & ?). done.
  - intros ([? ?] & [? ?] & ?). split; [done|]. by apply StronglySorted_app.
Qed.

Lemma ordered_cons s i l :
  ordered s (i :: l) ↔ reserves s i ∧ ordered s l ∧ (∀ b, b ∈ l → precedes s i b).
Proof.
  unfold ordered. rewrite Forall_cons. split.
  - intros [[? ?] Hs]. apply StronglySorted_cons in Hs as [Hf ?]. rewrite Forall_forall in Hf. done.
  - intros (? & [? ?] & Hp). split; [done|]. apply StronglySorted_cons. split; [by apply Forall_forall|done].
Qed.

Lemma ordered_elem s q i : ordered s q → i ∈ q → reserves s i.
Proof. intros [Hf _]. rewrite Forall_forall in Hf. auto. Qed.

(** The order depends on the times of the queued items only. *)
Lemma ordered_ext s s' q :
  (∀ i, i ∈ q → start_time (item_of s' i) = start_time (item_of s i) ∧ end_time (item_of s' i) = end_time (item_of s i)) →
  ordered s q → ordered s' q.
Proof.
  intros Hx. induction q as [|i q IH]; [by split; constructor|].
  rewrite !ordered_cons. unfold reserves, precedes, t_start, t_end.
  destruct (Hx i ltac:(by left)) as [-> ->]. intros (? & ? & Hp). split; [done|]. split.
  - apply IH; [|done]. intros; apply Hx; by right.
  - intros b Hb. destruct (Hx b ltac:(by right)) as [-> _]. auto.
Qed.

(** Putting an item between the items that are over when it starts and those that
    start when it is over. *)
Lemma ordered_insert s sch l1 l2 :
  ordered s (l1 ++ l2) → reserves s sch → (∀ e, e ∈ l1 → precedes s e sch) →
  (∀ e, e ∈ l2 → precedes s sch e) → ordered s (l1 ++ sch :: l2).
Proof.
  rewrite !ordered_app, ordered_cons. intros (? & ? & ?) ? Ha Hb. split; [done|]. split; [done|].
  intros a b Ha' [->|Hb']%elem_of_cons; auto.
Qed.

(** When an item ends before the first of the remaining items starts, it ends before
    they all start. *)
Lemma ordered_head_after s sch e l :
  ordered s (e :: l) → t_end s sch <= t_start s e → ∀ b, b ∈ e :: l → precedes s sch b.
Proof.
  rewrite ordered_cons. unfold precedes, reserves. intros (? & _ & Hp) ? b [->|Hb]%elem_of_cons; [lia|].
  specialize (Hp b Hb). lia.
Qed.

(** Insertion before [e] in the queue. *)
Lemma insert_before_elem (i e : sched_id) l1 l2 :
  e ∉ l1 → insert_before (λ x, bool_decide (x = e)) i (l1 ++ e :: l2) = l1 ++ i :: e :: l2.
Proof.
  induction l1 as [|x l1 IH]; intros Hn; simpl.
  - by rewrite bool_decide_true.
  - apply not_elem_of_cons in Hn as [Hne Hn]. rewrite bool_decide_false by congruence. by rewrite IH.
Qed.

(** ** The invariant *)

(** The queue and the flags of the items, [except] excepted. *)
Record queue_ok (except : option sched_id) (s : ll_st) : Prop := {
  qk_nodup : NoDup (g_ble_ll_sched_q s);
  qk_enq : ∀ i, Some i ≠ except → (i ∈ g_ble_ll_sched_q s ↔ enqueued (item_of s i) = true);
  qk_order : ordered s (g_ble_ll_sched_q s);
}.

Definition timer_idle (s : ll_st) : Prop := tm_linked (timer_of (ll_cpu s) g_ble_ll_sched_timer) = false.

(** The timer runs for the first item of a queue that is not empty. *)
Definition timer_serves (s : ll_st) : Prop :=
  match g_ble_ll_sched_q s with
  | [] => timer_idle s
  | h :: _ => tm_linked (timer_of (ll_cpu s) g_ble_ll_sched_timer) = true ∧
              tm_cputime (timer_of (ll_cpu s) g_ble_ll_sched_timer) = start_time (item_of s h)
  end.

Record sched_ok (s : ll_st) : Prop := {
  so_queue : queue_ok None s;
  so_cpu : cpu_ok base (ll_cpu s);
  so_timer : timer_serves s;
}.

(** Everything but the timers is as before. *)
Record same_sched (s s' : ll_st) : Prop := {
  ss_q : g_ble_ll_sched_q s' = g_ble_ll_sched_q s;
  ss_items : ∀ i, item_of s' i = item_of s i;
  ss_conns : g_ble_ll_conn_sm s' = g_ble_ll_conn_sm s;
  ss_evq : ll_evq s' = ll_evq s;
  ss_state : ll_state s' = ll_state s;
  ss_cur : g_ble_ll_conn_cur_sm s' = g_ble_ll_conn_cur_sm s;
  ss_freq : ticks_per_usec (ll_cpu s') = ticks_per_usec (ll_cpu s);
}.

Lemma same_sched_set_cpu c s :
  ticks_per_usec c = ticks_per_usec (ll_cpu s) → same_sched s (set_ll_cpu c s).
Proof. by split. Qed.

Lemma wp_on_cpu {A} (m : T A) (Q : A → ll_st → Prop) s :
  wp m (λ a c, Q a (set_ll_cpu c s)) (ll_cpu s) → wp (on_cpu m) Q s.
Proof. unfold wp, on_cpu; simpl. by destruct (m (ll_cpu s)) as [[a c]|]. Qed.

Lemma queue_ok_same x s s' : same_sched s s' → queue_ok x s → queue_ok x s'.
Proof.
  intros [Hq Hi _ _ _ _ _] [H1 H2 H3]. split; rewrite ?Hq; [done| |].
  - intros i. rewrite Hi. apply H2.
  - eapply ordered_ext; [|done]. intros i _. by rewrite Hi.
Qed.

Lemma sched_timer_stop_ok s : cpu_ok base (ll_cpu s) →
  wp sched_timer_stop (λ _ s', same_sched s s' ∧ cpu_ok base (ll_cpu s') ∧ timer_idle s') s.
Proof.
  intros Hc. unfold sched_timer_stop. apply wp_on_cpu.
  eapply wp_mono; [apply wp_with_run, (cputime_timer_stop_ok base _ _ Hc)|].
  intros [] c [(Hok & _ & Hl & _) Hrun]. split; [|by split].
  apply same_sched_set_cpu. by eapply timer_stop_freq.
Qed.

Lemma sched_timer_start_ok s h q x :
  queue_ok x s → cpu_ok base (ll_cpu s) → timer_idle s → g_ble_ll_sched_q s = h :: q →
  wp (sched_timer_start h) (λ _ s', same_sched s s' ∧ cpu_ok base (ll_cpu s') ∧ timer_serves s' ∧
    g_ble_ll_adv_sm s' = g_ble_ll_adv_sm s) s.
Proof.
  intros Hq Hc Hi Eq. unfold sched_timer_start. apply wp_bind, wp_get. apply wp_on_cpu.
  eapply wp_mono; [apply wp_with_run, (cputime_timer_start_ok base); [done|done|]|].
  - apply reserves_start. eapply ordered_elem; [apply Hq|]. rewrite Eq. by left.
  - intros [] c [(Hok & _ & Ht & _) Hrun].
    split; [apply same_sched_set_cpu; by eapply timer_start_freq|]. split; [done|].
    unfold timer_serves; simpl. rewrite Eq, Ht. by destruct h.
Qed.

(** What the schedulers do at the end: start the timer for the first item. *)
Lemma restart_ok s (Q : ll_st → Prop) :
  queue_ok None s → cpu_ok base (ll_cpu s) → timer_idle s → g_ble_ll_sched_q s ≠ [] →
  (∀ s', same_sched s s' → sched_ok s' → Q s') →
  wp sched_first (λ h, wp (sched_timer_start h) (λ _, Q)) s.
Proof.
  intros Hq Hc Hi Hne HQ. destruct (g_ble_ll_sched_q s) as [|h q] eqn:E; [done|].
  unfold sched_first. apply wp_bind, wp_get. rewrite E. apply wp_ret.
  eapply wp_mono; [by eapply sched_timer_start_ok|]. intros _ s' (Hs & Hc' & Ht & _). apply HQ; [done|].
  split; [by eapply queue_ok_same|done|done].
Qed.

(** ** A new advertising event *)

(** Item [sch] was put into the queue, possibly later than asked, and nothing else
    changed. *)
Record placed (sch : sched_id) (s s' : ll_st) : Prop := {
  pl_q : ∃ q1 q2, g_ble_ll_sched_q s = q1 ++ q2 ∧ g_ble_ll_sched_q s' = q1 ++ sch :: q2;
  pl_order : ordered s' (g_ble_ll_sched_q s');
  pl_item : ∃ a b, item_of s' sch = set_times a b (item_of s sch);
  pl_others : ∀ j, j ≠ sch → item_of s' j = item_of s j;
  pl_later : t_start s sch <= t_start s' sch;
  pl_dur : t_end s' sch - t_start s' sch = t_end s sch - t_start s sch;
  pl_cpu : ll_cpu s' = ll_cpu s;
  pl_evq : ll_evq s' = ll_evq s;
}.

(** The placements the item may get do not end exactly where a queued item starts. *)
Definition no_touch (s : ll_st) (sch : sched_id) (d : Z) (l : list sched_id) : Prop :=
  ∀ e, e ∈ l → t_end s sch ≠ t_start s e ∧ (∀ e', e' ∈ l → t_end s e' + d ≠ t_start s e).

(** Moving the item behind [e]. *)
Lemma moved_times s sch d e (s' := upd_item sch (set_times (end_time (item_of s e)) (u32 (end_time (item_of s e) + d))) s) :
  e ≠ sch → 0 < d → t_end s e + d < 2147483648 →
  t_start s' sch = t_end s e ∧ t_end s' sch = t_end s e + d ∧
  (∀ j, j ≠ sch → item_of s' j = item_of s j) ∧
  item_of s' sch = set_times (end_time (item_of s e)) (u32 (end_time (item_of s e) + d)) (item_of s sch).
Proof.
  intros Hne Hd Hw. unfold t_start, t_end, s'. rewrite !item_of_upd, !decide_True by done. simpl.
  split; [done|]. split; [apply ticks_until_shift; unfold t_end in Hw; lia|]. split; [|done].
  intros j Hj. by rewrite item_of_upd, decide_False.
Qed.

Lemma times_ext s s' j : item_of s' j = item_of s j → t_start s' j = t_start s j ∧ t_end s' j = t_end s j.
Proof. unfold t_start, t_end. by intros ->. Qed.

Lemma ordered_others s s' sch q :
  sch ∉ q → (∀ j, j ≠ sch → item_of s' j = item_of s j) → ordered s q → ordered s' q.
Proof.
  intros Hn Ho. apply ordered_ext. intros i Hi. rewrite Ho; [done|]. by intros ->.
Qed.

(** The loop over the queue: the entries of [l1] are over when the item starts, those
    of [l] are still to be looked at. *)
Record placing (sch : sched_id) (d : Z) (s : ll_st) (l1 l : list sched_id) : Prop := {
  pg_q : g_ble_ll_sched_q s = l1 ++ l;
  pg_nodup : NoDup (l1 ++ l);
  pg_new : sch ∉ l1 ++ l;
  pg_order : ordered s (l1 ++ l);
  pg_item : reserves s sch;
  pg_dur : t_end s sch = t_start s sch + d;
  pg_before : ∀ e, e ∈ l1 → precedes s e sch;
  pg_window : ∀ e, e ∈ l → t_end s e + d < 2147483648;
  pg_touch : no_touch s sch d l;
}.

Lemma placing_entry sch d s l1 e l : placing sch d s l1 (e :: l) →
  reserves s e ∧ e ≠ sch ∧ e ∉ l1 ∧ ordered s (e :: l) ∧ (∀ x, x ∈ l1 → precedes s x e).
Proof.
  intros P. pose proof (pg_order _ _ _ _ _ P) as Ho. pose proof (pg_nodup _ _ _ _ _ P) as Hnd.
  split; [eapply ordered_elem; [done|]; apply elem_of_app; right; by left|].
  split; [intros ->; apply (pg_new _ _ _ _ _ P), elem_of_app; right; by left|].
  apply NoDup_app in Hnd as (_ & Hx & _). apply ordered_app in Ho as (_ & ? & Hp).
  split; [intros H'; apply (Hx e H'); by left|]. split; [done|]. intros x ?. apply Hp; [done|by left].
Qed.

Lemma placing_insert sch d s l1 l (s' := set_sched_q (l1 ++ sch :: l) s) :
  placing sch d s l1 l → (∀ e, e ∈ l → precedes s sch e) → placed sch s s'.
Proof.
  intros P Hl. split; unfold s'; try done.
  - exists l1, l. split; [apply P|done].
  - simpl. apply ordered_insert; [apply P|apply P|apply P|done].
  - exists (start_time (item_of s sch)), (end_time (item_of s sch)).
    change (item_of (set_sched_q _ s) sch) with (item_of s sch). by destruct (item_of s sch).
Qed.

Lemma placing_move sch d s l1 e l
    (s' := upd_item sch (set_times (end_time (item_of s e)) (u32 (end_time (item_of s e) + d))) s) :
  placing sch d s l1 (e :: l) → placing sch d s' (l1 ++ [e]) l.
Proof.
  intros P. destruct (placing_entry _ _ _ _ _ _ P) as (He & Hne & _ & _ & Hp).
  destruct P as [Hq Hnd Hn Ho Hr Hd Hb Hw Ht].
  specialize (Hw e ltac:(by left)) as Hwe.
  destruct (moved_times s sch d e) as (M1 & M2 & M3 & M4); [done|unfold reserves in Hr; lia|done|].
  fold s' in M1, M2, M3, M4.
  assert (∀ x, x ∈ l1 ++ e :: l → t_start s' x = t_start s x ∧ t_end s' x = t_end s x) as Hx
    by (intros x Hx; apply times_ext, M3; by intros ->).
  assert (∀ x, x ∈ l → x ∈ l1 ++ e :: l) as Hin by (intros; apply elem_of_app; right; by right).
  split; rewrite <- ?app_assoc; simpl; try done.
  - unfold s'. by rewrite upd_item_q.
  - by apply (ordered_others s s' sch).
  - unfold reserves in *. rewrite M1, M2. lia.
  - lia.
  - intros x Hx'. unfold precedes. rewrite M1. destruct (Hx x) as [_ ->]; [set_solver|].
    apply elem_of_app in Hx' as [Hx'|Hx']; [|apply list_elem_of_singleton in Hx'; subst; lia].
    specialize (Hp x Hx'). unfold precedes, reserves in *. lia.
  - intros x Hx'. destruct (Hx x) as [_ ->]; [auto|]. apply Hw. by right.
  - intros x Hx'. rewrite M2. destruct (Hx x) as [-> _]; [auto|].
    destruct (Ht x ltac:(by right)) as [_ Hx2]. split; [apply Hx2; by left|].
    intros e' He'. destruct (Hx e') as [_ ->]; [auto|]. apply Hx2. by right.
Qed.

Lemma placing_skip sch d s l1 e l :
  placing sch d s l1 (e :: l) → t_start s e <= t_end s sch → ¬ overlaps s sch e →
  placing sch d s (l1 ++ [e]) l.
Proof.
  intros P Hge Hno. destruct (placing_entry _ _ _ _ _ _ P) as (He & _).
  destruct P as [Hq Hnd Hn Ho Hr Hd Hb Hw Ht]. destruct (Ht e ltac:(by left)) as [Ht1 _].
  split; rewrite <- ?app_assoc; simpl; try done.
  - intros x [Hx|Hx]%elem_of_app; [auto|]. apply list_elem_of_singleton in Hx. subst x.
    unfold precedes, overlaps, reserves in *. lia.
  - intros x Hx. apply Hw. by right.
  - intros x Hx. destruct (Ht x ltac:(by right)) as [? Hx2]. split; [done|]. intros; apply Hx2. by right.
Qed.

(** Moving the item and then placing it is placing it. *)
Lemma placed_move sch d s l1 e l s'' 
    (s' := upd_item sch (set_times (end_time (item_of s e)) (u32 (end_time (item_of s e) + d))) s) :
  placing sch d s l1 (e :: l) → overlaps s sch e → placed sch s' s'' → placed sch s s''.
Proof.
  intros P Hov [(q1 & q2 & Q1 & Q2) H2 (a & b & H3) H4 H5 H6 H7 H8].
  destruct (placing_entry _ _ _ _ _ _ P) as (He & Hne & _).
  destruct (moved_times s sch d e) as (M1 & M2 & M3 & M4);
    [done|pose proof (pg_item _ _ _ _ _ P); pose proof (pg_dur _ _ _ _ _ P); unfold reserves in *; lia
    |apply (pg_window _ _ _ _ _ P); by left|].
  fold s' in M1, M2, M3, M4. pose proof (pg_dur _ _ _ _ _ P). unfold overlaps in Hov. split.
  - exists q1, q2. split; [|done]. rewrite <- Q1. unfold s'. by rewrite upd_item_q.
  - done.
  - exists a, b. rewrite H3, M4. by destruct (item_of s sch).
  - intros j Hj. rewrite H4, M3; done.
  - lia.
  - lia.
  - rewrite H7. unfold s'. apply upd_item_cpu.
  - rewrite H8. unfold s'. apply upd_item_evq.
Qed.

Lemma adv_loop_ok sch d l : ∀ s l1, placing sch d s l1 l →
  wp (adv_loop sch d l) (λ ok s',
    placed sch s (if (ok : bool) then s' else set_sched_q (g_ble_ll_sched_q s' ++ [sch]) s')) s.
Proof.
  induction l as [|e l IH]; intros s l1 P; cbn [adv_loop].
  - apply wp_ret. rewrite (pg_q _ _ _ _ _ P), app_nil_r. eapply placing_insert; [done|].
    by intros ? ?%not_elem_of_nil.
  - apply wp_bind, wp_get. destruct (placing_entry _ _ _ _ _ _ P) as (He & Hne & Hl1 & Ho & _).
    rewrite ends_before_spec, is_overlap_spec by (done || apply P).
    destruct (Z.ltb_spec (t_end s sch) (t_start s e)) as [Hlt|Hge].
    + apply wp_bind. unfold sched_insert_before. apply wp_modify, wp_ret.
      rewrite (pg_q _ _ _ _ _ P), insert_before_elem by done.
      eapply placing_insert; [done|]. apply ordered_head_after; [done|lia].
    + apply wp_bind. case_bool_decide as Hov.
      * apply wp_modify. eapply wp_mono; [eapply IH, placing_move, P|].
        intros ok s' Hp. by eapply placed_move.
      * apply wp_ret. eapply IH. by eapply placing_skip.
Qed.

(** Reading the number of ticks leaves the state as it is. *)
Lemma wp_ticks (n : Z) (Q : Z → ll_st → Prop) s :
  Q (u32 (n * ticks_per_usec (ll_cpu s))) s → wp (on_cpu (cputime_usecs_to_ticks n)) Q s.
Proof. intros H. apply wp_on_cpu. unfold cputime_usecs_to_ticks. apply wp_gets. by destruct s. Qed.

(** Where the advertising event asks to be: behind the running connection event. *)
Definition adv_request (s : ll_st) : ll_st :=
  let i := item_of s SchAdv in
  let d := u32 (end_time i - start_time i) in
  if ll_state s =? BLE_LL_STATE_CONNECTION then
    match g_ble_ll_conn_cur_sm s with
    | Some c =>
        let st := u32 (start_time i + u32 (BLE_LL_SCHED_USECS_PER_SLOT * ticks_per_usec (ll_cpu s))) in
        let ce := ce_end_time (conn_of s c) in
        let r := if 0 <=? time_diff ce st then ce else st in
        upd_item SchAdv (set_times r (u32 (r + d))) s
    | None => s
    end
  else s.

Lemma adv_request_same s :
  g_ble_ll_sched_q (adv_request s) = g_ble_ll_sched_q s ∧ ll_cpu (adv_request s) = ll_cpu s ∧
  (∀ j, j ≠ SchAdv → item_of (adv_request s) j = item_of s j) ∧
  enqueued (item_of (adv_request s) SchAdv) = enqueued (item_of s SchAdv).
Proof.
  unfold adv_request. destruct (_ =? _); [|done]. destruct (g_ble_ll_conn_cur_sm s); [|done].
  split; [done|]. split; [done|]. split; [|done]. intros j Hj. by rewrite item_of_upd, decide_False.
Qed.

(** The outcome of scheduling item [sch]: it is queued without an overlap, no earlier
    than [s1] asks for and for as long, and the others keep their places. *)
Record scheduled (sch : sched_id) (s1 s' : ll_st) : Prop := {
  sd_ok : sched_ok s';
  sd_q : ∃ q1 q2, g_ble_ll_sched_q s1 = q1 ++ q2 ∧ g_ble_ll_sched_q s' = q1 ++ sch :: q2;
  sd_others : ∀ j, j ≠ sch → item_of s' j = item_of s1 j;
  sd_later : t_start s1 sch <= t_start s' sch;
  sd_dur : t_end s' sch - t_start s' sch = t_end s1 sch - t_start s1 sch;
}.

(** Placing the item and setting its flag makes the queue whole again. *)
Lemma placed_enqueue sch s s' :
  queue_ok None s → enqueued (item_of s sch) = false → placed sch s s' →
  queue_ok None (upd_item sch (set_enqueued true) s').
Proof.
  intros [Hnd He Ho] Hen [(q1 & q2 & Q1 & Q2) H2 (a & b & H3) H4 _ _ _ _].
  assert (sch ∉ g_ble_ll_sched_q s) as Hn by (rewrite He by done; rewrite Hen; done).
  assert (g_ble_ll_sched_q s' ≡ₚ sch :: g_ble_ll_sched_q s) as Hp
    by (rewrite Q1, Q2; symmetry; apply Permutation_middle).
  split; rewrite upd_item_q.
  - rewrite Hp. by apply NoDup_cons.
  - intros i _. rewrite Hp, elem_of_cons, item_of_upd. case_decide as Hi; [subst; naive_solver|].
    rewrite H4, He by done. naive_solver.
  - eapply ordered_ext; [|exact H2]. intros i _. rewrite item_of_upd. case_decide; [by subst|done].
Qed.

Lemma upd_item_times i b s j :
  t_start (upd_item i (set_enqueued b) s) j = t_start s j ∧ t_end (upd_item i (set_enqueued b) s) j = t_end s j.
Proof. unfold t_start, t_end. rewrite item_of_upd. case_decide; [by subst|done]. Qed.

Lemma placed_scheduled sch s s1 s2 s3 :
  placed sch s s1 → s2 = upd_item sch (set_enqueued true) s1 →
  g_ble_ll_sched_q s3 = g_ble_ll_sched_q s2 →
  (∀ i, t_start s3 i = t_start s2 i ∧ t_end s3 i = t_end s2 i) →
  (∀ i, i ≠ sch → item_of s3 i = item_of s2 i) →
  sched_ok s3 → scheduled sch s s3.
Proof.
  intros [(q1 & q2 & Q1 & Q2) H2 _ H4 H5 H6 _ _] -> Hq Ht Ho Hok.
  split; [done| | | |].
  - exists q1, q2. split; [done|]. by rewrite Hq, upd_item_q.
  - intros j Hj. rewrite Ho by done. rewrite item_of_upd, decide_False by done. auto.
  - destruct (Ht sch) as [-> _]. by destruct (upd_item_times sch true s1 sch) as [-> _].
  - destruct (Ht sch) as [-> ->]. by destruct (upd_item_times sch true s1 sch) as [-> ->].
Qed.

(** Setting the times of the advertising event touches no item and no timer. *)
Lemma wp_adv_scheduled st s (Q : unit → ll_st → Prop) :
  (∀ s', same_sched s s' → ll_cpu s' = ll_cpu s →
     adv_event_start_time (g_ble_ll_adv_sm s') =
       u32 (st + u32 (XCVR_TX_SCHED_DELAY_USECS * ticks_per_usec (ll_cpu s))) → Q tt s') →
  wp (ble_ll_adv_scheduled st) Q s.
Proof.
  intros H. unfold ble_ll_adv_scheduled. apply wp_bind, wp_ticks, wp_bind, wp_ticks, wp_modify.
  by apply H; [split|..].
Qed.

Lemma timer_idle_cpu s s' : ll_cpu s' = ll_cpu s → timer_idle s → timer_idle s'.
Proof. unfold timer_idle. by intros ->. Qed.

(** The part of a scheduler that follows the placement: the advertising event is told its
    start, and the timer is started. *)
Lemma adv_finish_ok sch s s1 s2 st h q :
  placed sch s s1 → s2 = upd_item sch (set_enqueued true) s1 →
  queue_ok None s2 → cpu_ok base (ll_cpu s2) → timer_idle s2 → g_ble_ll_sched_q s2 = h :: q →
  wp (ble_ll_adv_scheduled st ;; sched_timer_start h ;; mret 0) (λ rc s',
    rc = 0 ∧ scheduled sch s s' ∧ (∀ i, item_of s' i = item_of s2 i) ∧
    adv_event_start_time (g_ble_ll_adv_sm s') =
      u32 (st + u32 (XCVR_TX_SCHED_DELAY_USECS * ticks_per_usec (ll_cpu s2)))) s2.
Proof.
  intros Hp Hs2 Hk Hc Hi Hq. apply wp_bind, wp_adv_scheduled. intros s3 H3 Ec Ha. apply wp_bind.
  eapply wp_mono; [eapply (sched_timer_start_ok s3)|].
  - by eapply queue_ok_same.
  - by rewrite Ec.
  - by eapply timer_idle_cpu.
  - by rewrite (ss_q _ _ H3).
  - intros _ s4 (H4 & Hc4 & Hs4 & Had). apply wp_ret.
    assert (∀ i, item_of s4 i = item_of s2 i) as Hit by (intros; by rewrite (ss_items _ _ H4), (ss_items _ _ H3)).
    split; [done|]. split; [|split; [done|by rewrite Had]].
    eapply placed_scheduled; [done|done| | |by intros; apply Hit|].
    + by rewrite (ss_q _ _ H4), (ss_q _ _ H3).
    + intros i. by apply times_ext.
    + split; [eapply queue_ok_same; [done|]; by eapply queue_ok_same|done|done].
Qed.

Lemma placing_same sch d s s' l1 l : same_sched s s' → placing sch d s l1 l → placing sch d s' l1 l.
Proof.
  intros [Hq Hi _ _ _ _ _] [? ? ? Ho ? ? ? ? Hto].
  assert (∀ i, t_start s' i = t_start s i) as E1 by (intros; by apply times_ext).
  assert (∀ i, t_end s' i = t_end s i) as E2 by (intros; by apply times_ext).
  split; unfold reserves, precedes in *; rewrite ?E1, ?E2; try done; [by rewrite Hq| | | |].
  - eapply ordered_ext; [|done]. intros. by rewrite Hi.
  - intros. rewrite E2. auto.
  - intros. rewrite E2. auto.
  - intros e He. rewrite E1, E2. destruct (Hto e He) as [? Ht2]. split; [done|].
    intros. rewrite E2. auto.
Qed.

Lemma scheduled_same sch s s1 s' : same_sched s s1 → scheduled sch s1 s' → scheduled sch s s'.
Proof.
  intros [Hq Hi _ _ _ _ _] [H1 H2 H3 H4 H5]. destruct (times_ext s s1 sch (Hi sch)) as [E1 E2].
  split; [done|by rewrite <- Hq| |lia|lia]. intros. rewrite <- Hi. auto.
Qed.

(** The delay for the running connection event. *)
Lemma wp_adv_request s (Q : unit → ll_st → Prop) (i := item_of s SchAdv) (d := u32 (end_time i - start_time i)) :
  (ll_state s = BLE_LL_STATE_CONNECTION → is_Some (g_ble_ll_conn_cur_sm s)) → Q tt (adv_request s) →
  wp (if ll_state s =? BLE_LL_STATE_CONNECTION return L unit then
     slot ← on_cpu (cputime_usecs_to_ticks BLE_LL_SCHED_USECS_PER_SLOT);
     modify (upd_item SchAdv (λ i, set_times (u32 (start_time i + slot)) (end_time i) i)) ;;
     ce_end ← ble_ll_conn_get_ce_end_time;
     s ← get;
     (if 0 <=? time_diff ce_end (start_time (item_of s SchAdv)) return L unit then
        modify (upd_item SchAdv (λ i, set_times ce_end (end_time i) i))
      else mret tt) ;;
     modify (upd_item SchAdv (λ i, set_times (start_time i) (u32 (start_time i + d)) i))
   else mret tt) Q s.
Proof.
  intros Hcur HQ. unfold adv_request in HQ. fold i in HQ. fold d in HQ.
  destruct (Z.eqb_spec (ll_state s) BLE_LL_STATE_CONNECTION) as [E|E]; [|by apply wp_ret].
  destruct (Hcur E) as [c Hc]. rewrite Hc in HQ.
  apply wp_bind, wp_ticks, wp_bind, wp_modify. unfold ble_ll_conn_get_ce_end_time.
  apply wp_bind, wp_bind, wp_get. cbn [upd_item upd_adv g_ble_ll_conn_cur_sm]. rewrite Hc.
  apply wp_ret, wp_bind, wp_get, wp_bind. simpl.
  change (conn_of _ c) with (conn_of s c).
  destruct (0 <=? _) eqn:E2; [apply wp_modify|apply wp_ret]; apply wp_modify; simpl in HQ |- *;
    exact HQ.
Qed.

Lemma queue_ok_request s : queue_ok None s → enqueued (item_of s SchAdv) = false →
  queue_ok None (adv_request s) ∧ SchAdv ∉ g_ble_ll_sched_q s.
Proof.
  intros [Hnd He Ho] Hen. destruct (adv_request_same s) as (Hq & _ & Hot & Hen').
  assert (SchAdv ∉ g_ble_ll_sched_q s) as Hn by (rewrite He by done; rewrite Hen; done).
  split; [|done]. split; rewrite ?Hq; [done| |].
  - intros i Hi. destruct (decide (i = SchAdv)) as [->|Hne]; [by rewrite Hen', He|].
    rewrite Hot by done. by apply He.
  - by apply (ordered_others s _ SchAdv).
Qed.

(** What follows the loop when the queue was not empty. *)
Lemma adv_tail_ok s2 s4 :
  queue_ok None s2 → enqueued (item_of s2 SchAdv) = false → cpu_ok base (ll_cpu s2) → timer_idle s2 →
  placed SchAdv s2 s4 →
  wp (s ← get; modify (upd_item SchAdv (set_enqueued true)) ;; first ← sched_first;
      mret (start_time (item_of s SchAdv), first))
    (λ p, wp (ble_ll_adv_scheduled p.1 ;; sched_timer_start p.2 ;; mret 0)
      (λ rc s', rc = 0 ∧ scheduled SchAdv s2 s' ∧
         adv_event_start_time (g_ble_ll_adv_sm s') =
           u32 (start_time (item_of s' SchAdv) + u32 (XCVR_TX_SCHED_DELAY_USECS * ticks_per_usec (ll_cpu s2)))))
    s4.
Proof.
  intros Hk Hen Hc Hi Hp. apply wp_bind, wp_get, wp_bind, wp_modify, wp_bind. unfold sched_first.
  apply wp_bind, wp_get. rewrite upd_item_q. destruct (pl_q _ _ _ Hp) as (q1 & q2 & Q1 & Q2).
  destruct (g_ble_ll_sched_q s4) as [|h q] eqn:Eq; [by destruct q1|]. apply wp_ret, wp_ret.
  eapply wp_mono; [eapply adv_finish_ok; [exact Hp|done| | | |by rewrite upd_item_q]|].
  - by apply (placed_enqueue _ s2).
  - by rewrite upd_item_cpu, (pl_cpu _ _ _ Hp).
  - eapply timer_idle_cpu; [|done]. by rewrite upd_item_cpu, (pl_cpu _ _ _ Hp).
  - intros rc s' (-> & Hsd & Hit & Ha). split; [done|]. split; [done|].
    by rewrite Ha, Hit, item_of_upd, decide_True, upd_item_cpu, (pl_cpu _ _ _ Hp).
Qed.

(** A new advertising event is scheduled: no earlier than asked (and after the running
    connection event), for as long as asked, overlapping nothing; the others keep their
    places and the timer serves the first item. *)
Lemma adv_new_ok s (s1 := adv_request s)
    (d := u32 (end_time (item_of s SchAdv) - start_time (item_of s SchAdv))) :
  sched_ok s → enqueued (item_of s SchAdv) = false →
  (ll_state s = BLE_LL_STATE_CONNECTION → is_Some (g_ble_ll_conn_cur_sm s)) →
  reserves s1 SchAdv → t_end s1 SchAdv = t_start s1 SchAdv + d →
  (∀ e, e ∈ g_ble_ll_sched_q s → t_end s e + d < 2147483648) →
  no_touch s1 SchAdv d (g_ble_ll_sched_q s) →
  wp (ble_ll_sched_adv_new SchAdv) (λ rc s', rc = 0 ∧ scheduled SchAdv s1 s' ∧
    adv_event_start_time (g_ble_ll_adv_sm s') =
      u32 (start_time (item_of s' SchAdv) + u32 (XCVR_TX_SCHED_DELAY_USECS * ticks_per_usec (ll_cpu s)))) s.
Proof.
  intros [Hk Hc Ht] Hen Hcur Hr Hd Hw Hto.
  destruct (queue_ok_request s Hk Hen) as [Hk1 Hn]. fold s1 in Hk1.
  destruct (adv_request_same s) as (Hq1 & Hc1 & Ho1 & He1). fold s1 in Hq1, Hc1, Ho1, He1.
  assert (placing SchAdv d s1 [] (g_ble_ll_sched_q s1)) as P.
  { rewrite Hq1. split; simpl; try done; [apply Hk| |by intros ? ?%not_elem_of_nil|].
    - rewrite <- Hq1. apply Hk1.
    - intros e He. destruct (times_ext s s1 e) as [_ ->]; [|auto]. apply Ho1. by intros ->. }
  unfold ble_ll_sched_adv_new. apply wp_bind, wp_get. cbv zeta. apply wp_bind, wp_gets, wp_bind.
  apply wp_adv_request; [done|]. fold s1. apply wp_bind. unfold ble_ll_sched_insert_if_empty.
  apply wp_bind, wp_get. unfold timer_serves in Ht. rewrite <- Hq1 in Ht.
  destruct (g_ble_ll_sched_q s1) as [|e q] eqn:Eq; simpl head; cbv iota.
  - apply wp_bind, wp_modify, wp_bind, wp_modify, wp_ret, wp_bind, wp_bind, wp_get, wp_ret.
    set (s2 := upd_item SchAdv (set_enqueued true) (set_sched_q [SchAdv] s1)).
    assert (placed SchAdv s1 (set_sched_q [SchAdv] s1)) as Hp
      by (apply (placing_insert SchAdv d s1 [] []); [done|by intros ? ?%not_elem_of_nil]).
    eapply wp_mono; [eapply (adv_finish_ok SchAdv s1 _ s2); [exact Hp|done| | | |done]|].
    + apply (placed_enqueue _ s1); [done|by rewrite He1|done].
    + change (cpu_ok base (ll_cpu s1)). by rewrite Hc1.
    + apply (timer_idle_cpu s); [exact Hc1|done].
    + intros rc s' (-> & Hsd & Hit & Ha). split; [done|]. split; [done|]. rewrite Ha, Hit.
      unfold s2. rewrite item_of_upd, decide_True, upd_item_cpu by done. simpl. by rewrite Hc1.
  - apply wp_ret, wp_bind, wp_bind. eapply wp_mono; [apply sched_timer_stop_ok; by rewrite Hc1|].
    intros _ s2 (Hs2 & Hc2 & Hi2). apply wp_bind, wp_get, wp_bind.
    assert (enqueued (item_of s2 SchAdv) = false) as Hen2 by (rewrite (ss_items _ _ Hs2); by rewrite He1).
    pose proof (queue_ok_same _ _ _ Hs2 Hk1) as Hk2.
    rewrite (ss_q _ _ Hs2), Eq. eapply wp_mono; [apply (adv_loop_ok _ _ _ s2 []); by eapply placing_same|].
    intros ok s3 Hp. apply wp_bind.
    assert (placed SchAdv s2 (if ok then s3 else set_sched_q (g_ble_ll_sched_q s3 ++ [SchAdv]) s3)) as Hp' by done.
    destruct ok; [apply wp_ret|unfold sched_insert_tail; apply wp_modify];
      (eapply wp_mono; [by eapply adv_tail_ok|]); intros [st f] s4 Hf; cbv beta iota in Hf;
      (eapply wp_mono; [exact Hf|]); intros rc s' (-> & Hsd & Ha);
      (split; [done|]); (split; [by eapply scheduled_same|]); by rewrite Ha, (ss_freq _ _ Hs2), Hc1.
Qed.

(** ** Items that are pushed out of the schedule *)

(** The items of [l] were taken off the queue, and the connections among them were
    told that their event is over. *)
Record released (l : list sched_id) (s s' : ll_st) : Prop := {
  rl_items : ∀ i, item_of s' i = if decide (i ∈ l) then set_enqueued false (item_of s i) else item_of s i;
  rl_evq : ∀ ev, ev ∈ ll_evq s' ↔ ev ∈ ll_evq s ∨
    ∃ e, e ∈ l ∧ sched_type (item_of s e) = BLE_LL_SCHED_TYPE_CONN ∧ ev = EvConnEnd (cb_arg (item_of s e));
  rl_cpu : ll_cpu s' = ll_cpu s;
}.

Lemma released_nil s s' :
  (∀ i, item_of s' i = item_of s i) → ll_evq s' = ll_evq s → ll_cpu s' = ll_cpu s → released [] s s'.
Proof.
  intros H1 H2 H3. split; [|rewrite H2|done].
  - intros i. rewrite decide_False by apply not_elem_of_nil. apply H1.
  - intros ev. split; [by left|]. intros [?|(e & He%not_elem_of_nil & _)]; done.
Qed.

Lemma released_plan l s s' i : released l s s' →
  start_time (item_of s' i) = start_time (item_of s i) ∧ end_time (item_of s' i) = end_time (item_of s i) ∧
  sched_type (item_of s' i) = sched_type (item_of s i) ∧ cb_arg (item_of s' i) = cb_arg (item_of s i).
Proof. intros [-> _ _]. by case_decide. Qed.

Lemma released_times l s s' i : released l s s' → t_start s' i = t_start s i ∧ t_end s' i = t_end s i.
Proof. intros H. unfold t_start, t_end. by destruct (released_plan l s s' i H) as (-> & -> & _). Qed.

Lemma released_ordered l s s' q : released l s s' → ordered s q → ordered s' q.
Proof. intros H. apply ordered_ext. intros i _. by destruct (released_plan l s s' i H) as (-> & -> & _). Qed.

Lemma released_trans l1 l2 s s1 s2 : released l1 s s1 → released l2 s1 s2 → released (l1 ++ l2) s s2.
Proof.
  intros R1 R2. split.
  - intros i. rewrite (rl_items _ _ _ R2), !(rl_items _ _ _ R1).
    destruct (decide (i ∈ l1)), (decide (i ∈ l2)), (decide (i ∈ l1 ++ l2)) as [Hd|Hd];
      rewrite elem_of_app in Hd; try tauto; done.
  - intros ev. rewrite (rl_evq _ _ _ R2), (rl_evq _ _ _ R1). split.
    + intros [[?|(e & ? & ? & ?)]|(e & ? & H1 & H2)].
      * by left.
      * right. exists e. rewrite elem_of_app. auto.
      * right. exists e. destruct (released_plan _ _ _ e R1) as (_ & _ & <- & <-). rewrite elem_of_app. auto.
    + intros [?|(e & [?|?]%elem_of_app & ? & ?)].
      * auto.
      * left. right. eauto.
      * right. exists e. destruct (released_plan _ _ _ e R1) as (_ & _ & -> & ->). auto.
  - by rewrite (rl_cpu _ _ _ R2), (rl_cpu _ _ _ R1).
Qed.

Lemma event_send_run ev s : ∃ s', ble_ll_event_send ev s = Ret (tt, s') ∧
  s' = set_ll_evq (ll_evq s') s ∧ (∀ x, x ∈ ll_evq s' ↔ x ∈ ll_evq s ∨ x = ev).
Proof.
  unfold ble_ll_event_send, modify. case_decide; eexists; (split; [done|]).
  - split; [by destruct s|]. intros x. naive_solver.
  - split; [done|]. intros x. simpl. by rewrite elem_of_app, list_elem_of_singleton.
Qed.

(** Taking one item off the queue, as the schedulers do it. *)
Lemma release_one e q s s' evq :
  s' = upd_item e (set_enqueued false) (set_sched_q q (set_ll_evq evq s)) →
  (∀ x, x ∈ evq ↔ x ∈ ll_evq s ∨
     sched_type (item_of s e) = BLE_LL_SCHED_TYPE_CONN ∧ x = EvConnEnd (cb_arg (item_of s e))) →
  released [e] s s' ∧ g_ble_ll_sched_q s' = q.
Proof.
  intros -> Hev. split; [|by rewrite upd_item_q]. split.
  - intros i. rewrite item_of_upd. destruct (decide (e = i)) as [<-|Hne].
    + by rewrite decide_True by (by apply list_elem_of_singleton).
    + by rewrite decide_False by (rewrite list_elem_of_singleton; congruence).
  - intros x. rewrite upd_item_evq. simpl. rewrite Hev. split; intros [?|H]; [by left| |by left|].
    + right. exists e. by rewrite list_elem_of_singleton.
    + destruct H as (e' & ->%list_elem_of_singleton & ?). by right.
  - by rewrite upd_item_cpu.
Qed.

(** ** Rescheduling a connection *)

(** [sch] may take the place of [e]. *)
Definition replaceable (s : ll_st) (sch e : sched_id) : Prop :=
  sched_type (item_of s e) ≠ BLE_LL_SCHED_TYPE_ADV ∧
  ble_ll_conn_is_lru s (cb_arg (item_of s sch)) (cb_arg (item_of s e)) = true.

Lemma replaceable_spec s sch e :
  bool_decide (sched_type (item_of s e) = BLE_LL_SCHED_TYPE_ADV) ||
    negb (ble_ll_conn_is_lru s (cb_arg (item_of s sch)) (cb_arg (item_of s e))) = false ↔ replaceable s sch e.
Proof.
  unfold replaceable. rewrite orb_false_iff, bool_decide_eq_false, negb_false_iff. done.
Qed.

(** The loop over the queue: the entries of [A] are over when the item starts, those of
    [B] are overlapped and, by [P], to be replaced, those of [l] are still to be looked
    at. *)
Record scanning (P : sched_id → Prop) (sch : sched_id) (s : ll_st) (A B l : list sched_id) : Prop := {
  sn_q : g_ble_ll_sched_q s = A ++ B ++ l;
  sn_nodup : NoDup (A ++ B ++ l);
  sn_order : ordered s (A ++ B ++ l);
  sn_item : reserves s sch;
  sn_before : ∀ e, e ∈ A → precedes s e sch;
  sn_over : ∀ e, e ∈ B → overlaps s sch e ∧ P e;
  sn_touch : ∀ e, e ∈ l → t_end s sch ≠ t_start s e;
}.

Lemma scanning_over P sch s A B e l :
  scanning P sch s A B (e :: l) → overlaps s sch e → P e → scanning P sch s A (B ++ [e]) l.
Proof.
  intros [H1 H2 H3 H4 H5 H6 H7] Ho Hr.
  split; rewrite <- ?app_assoc; simpl; try done.
  - intros x [Hx|Hx]%elem_of_app; [auto|]. apply list_elem_of_singleton in Hx. by subst.
  - intros x Hx. apply H7. by right.
Qed.

Lemma elem_third (A B : list sched_id) e l : e ∈ A ++ B ++ e :: l.
Proof. rewrite !elem_of_app. right. right. by left. Qed.

(** An entry that is passed over comes before any that is replaced. *)
Lemma scanning_skip P sch s A B e l :
  scanning P sch s A B (e :: l) → ¬ overlaps s sch e → t_start s e <= t_end s sch →
  B = [] ∧ scanning P sch s (A ++ [e]) [] l.
Proof.
  intros [H1 H2 H3 H4 H5 H6 H7] Hno Hle.
  assert (reserves s e) as He by (eapply ordered_elem; [done|]; apply elem_third).
  pose proof (H7 e ltac:(by left)) as Hne.
  assert (t_end s e <= t_start s sch) as Hpre by (unfold overlaps, reserves in *; lia).
  assert (B = []) as ->.
  { destruct B as [|b B]; [done|]. exfalso. destruct (H6 b ltac:(by left)) as [[Hb _] _].
    apply ordered_app in H3 as (_ & H3 & _). apply ordered_app in H3 as (_ & _ & H3).
    specialize (H3 b e ltac:(by left) ltac:(by left)). unfold precedes, reserves in *. lia. }
  split; [done|]. split; rewrite <- ?app_assoc; simpl in *; try done.
  - intros x [Hx|Hx]%elem_of_app; [auto|]. apply list_elem_of_singleton in Hx. by subst.
  - intros x Hx. apply H7. by right.
Qed.

(** What the loop finds: the item fits between [A] and [C] once [B] is gone. *)
Record fits (P : sched_id → Prop) (sch : sched_id) (s : ll_st) (A B C : list sched_id) : Prop := {
  ft_q : g_ble_ll_sched_q s = A ++ B ++ C;
  ft_before : ∀ e, e ∈ A → precedes s e sch;
  ft_over : ∀ e, e ∈ B → overlaps s sch e ∧ P e;
  ft_after : ∀ e, e ∈ C → precedes s sch e;
}.

Lemma resched_loop_ok sch l : ∀ s A B, scanning (replaceable s sch) sch s A B l →
  wp (resched_loop sch (head B) (last B) l) (λ r s',
    if rs_ok r then ∃ A B C, fits (replaceable s sch) sch s A B C ∧ rs_start r = head B ∧ rs_end r = last B ∧
      (if rs_inserted r then s' = set_sched_q (A ++ B ++ sch :: C) s else s' = s ∧ C = [])
    else s' = s ∧ rs_start r = None ∧
      ∃ e, e ∈ g_ble_ll_sched_q s ∧ overlaps s sch e ∧ ¬ replaceable s sch e) s.
Proof.
  induction l as [|e l IH]; intros s A B Hs; cbn [resched_loop].
  - apply wp_ret. simpl. exists A, B, []. split; [|done]. destruct Hs; split; try done.
    by intros ? ?%not_elem_of_nil.
  - apply wp_bind, wp_get. pose proof Hs as [H1 H2 H3 H4 H5 H6 H7].
    assert (reserves s e) as He by (eapply ordered_elem; [done|]; apply elem_third).
    rewrite is_overlap_spec, ends_before_spec by done.
    case_bool_decide as Hov.
    + destruct (_ || _) eqn:Hrep.
      * apply wp_ret. simpl. split; [done|]. split; [done|]. exists e. rewrite H1. split; [set_solver|].
        split; [done|]. intros Hr%replaceable_spec. congruence.
      * apply replaceable_spec in Hrep. pose proof (scanning_over _ _ _ _ _ _ _ Hs Hov Hrep) as Hs'.
        specialize (IH s A (B ++ [e]) Hs'). rewrite last_snoc in IH.
        destruct B as [|b B]; exact IH.
    + destruct (Z.ltb_spec (t_end s sch) (t_start s e)) as [Hlt|Hge].
      * apply wp_bind. unfold sched_insert_before. apply wp_modify, wp_ret. simpl.
        exists A, B, (e :: l). split; [split; try done; apply ordered_head_after; [|lia]|].
        { apply ordered_app in H3 as (_ & H3 & _). by apply ordered_app in H3 as (_ & H3 & _). }
        split; [done|]. split; [done|]. rewrite H1, app_assoc, insert_before_elem; [by rewrite <- app_assoc|].
        rewrite app_assoc in H2. apply NoDup_app in H2 as (_ & H2 & _). intros Hin. apply (H2 e Hin). by left.
      * destruct (scanning_skip _ _ _ _ _ _ _ Hs Hov Hge) as [-> Hs']. apply (IH s (A ++ [e]) [] Hs').
Qed.

(** One turn of the loop that removes the overlapped entries. *)
Lemma release_step s e q (Q : unit → ll_st → Prop) :
  list_remove e (g_ble_ll_sched_q s) = Some q →
  (∀ s', released [e] s s' → g_ble_ll_sched_q s' = q → Q tt s') →
  wp (if decide (sched_type (item_of s e) = BLE_LL_SCHED_TYPE_CONN) return L unit
      then ble_ll_event_send (EvConnEnd (cb_arg (item_of s e))) else mret tt)
    (λ _, wp (sched_remove e) (λ _, wp (modify (upd_item e (set_enqueued false))) Q)) s.
Proof.
  intros Hr HQ.
  assert (∀ evq, (∀ x, x ∈ evq ↔ x ∈ ll_evq s ∨
     sched_type (item_of s e) = BLE_LL_SCHED_TYPE_CONN ∧ x = EvConnEnd (cb_arg (item_of s e))) →
    wp (sched_remove e) (λ _, wp (modify (upd_item e (set_enqueued false))) Q) (set_ll_evq evq s)) as H.
  { intros evq Hev. unfold sched_remove. apply wp_bind, wp_get, wp_bind. simpl. rewrite Hr.
    apply wp_ret, wp_modify, wp_modify.
    destruct (release_one e q s _ evq eq_refl Hev) as [? ?]. by apply HQ. }
  case_decide as Hc.
  - destruct (event_send_run (EvConnEnd (cb_arg (item_of s e))) s) as (s' & Hrun & Hs & Hev).
    eapply wp_eq; [exact Hrun|]. rewrite Hs. apply H. intros x. rewrite Hev. naive_solver.
  - apply wp_ret. replace s with (set_ll_evq (ll_evq s) s) by (by destruct s). apply H. naive_solver.
Qed.

Lemma overlap_remove_ok B : ∀ fuel A R s,
  g_ble_ll_sched_q s = A ++ B ++ R → NoDup (A ++ B ++ R) → (length B <= fuel)%nat →
  wp (overlap_remove fuel (head B) (last B)) (λ _ s',
    released B s s' ∧ g_ble_ll_sched_q s' = A ++ R) s.
Proof.
  induction B as [|b B IH]; intros fuel A R s Hq Hnd Hf.
  - destruct fuel; apply wp_ret; (split; [by apply released_nil|done]).
  - destruct fuel as [|fuel]; [simpl in Hf; lia|]. cbn [head overlap_remove].
    apply wp_bind, wp_get. cbv zeta.
    assert (b ∉ A) as HbA.
    { apply NoDup_app in Hnd as (_ & Hx & _). intros HA. apply (Hx b HA). by left. }
    assert (b ∉ B) as HbB.
    { apply NoDup_app in Hnd as (_ & _ & Hx). apply NoDup_cons in Hx as [Hx _]. set_solver. }
    rewrite Hq. cbn [app]. rewrite next_of_app by done. apply wp_bind.
    eapply wp_mono; [apply (release_step s b (A ++ B ++ R) (λ _ s', released [b] s s' ∧ g_ble_ll_sched_q s' = A ++ B ++ R))|].
    { rewrite Hq. by apply list_remove_app_notin. }
    { done. }
    intros [] s1 Hs1. apply wp_bind. eapply wp_mono; [exact Hs1|]. intros [] s2 Hs2. apply wp_bind.
    eapply wp_mono; [exact Hs2|]. intros [] s3 [Hrel Hq3].
    apply NoDup_app in Hnd as (Hn1 & Hn2 & Hn3). apply NoDup_cons in Hn3 as [_ Hn3].
    assert (NoDup (A ++ B ++ R)) as Hnd3.
    { apply NoDup_app. split; [done|]. split; [|done]. intros x Hx Hin. apply (Hn2 x Hx). by right. }
    destruct B as [|b' B].
    + rewrite decide_True by done. apply wp_ret. done.
    + rewrite decide_False.
      2:{ rewrite last_cons_cons. intros Hl. symmetry in Hl. apply HbB. by apply last_Some_elem_of. }
      rewrite last_cons_cons.
      eapply wp_mono; [apply (IH fuel A R s3 Hq3 Hnd3); simpl in *; lia|].
      intros _ s4 [Hrel4 Hq4]. split; [by apply (released_trans [b] (b' :: B) s s3)|done].
Qed.

(** Setting the times of an item that is not queued. *)
Lemma sched_ok_set_times s sch a b (s1 := upd_item sch (set_times a b) s) :
  sched_ok s → enqueued (item_of s sch) = false →
  sched_ok s1 ∧ sch ∉ g_ble_ll_sched_q s ∧ enqueued (item_of s1 sch) = false.
Proof.
  intros [[Hnd He Ho] Hc Ht] Hen.
  assert (sch ∉ g_ble_ll_sched_q s) as Hn by (rewrite He by done; rewrite Hen; done).
  assert (∀ j, j ≠ sch → item_of s1 j = item_of s j) as Hot
    by (intros j Hj; unfold s1; by rewrite item_of_upd, decide_False).
  assert (enqueued (item_of s1 sch) = false) as Hen1 by (unfold s1; by rewrite item_of_upd, decide_True).
  split; [|done]. unfold s1 in *. split.
  - split; rewrite ?upd_item_q; [done| |by apply (ordered_others s _ sch)].
    intros i _. destruct (decide (i = sch)) as [->|Hne]; [rewrite Hen1; naive_solver|].
    rewrite Hot by done. by apply He.
  - by rewrite upd_item_cpu.
  - unfold timer_serves, timer_idle in *. rewrite upd_item_q, upd_item_cpu.
    destruct (g_ble_ll_sched_q s) as [|h q]; [done|]. rewrite Hot; [done|]. intros ->. apply Hn. by left.
Qed.

(** Reading the counter changes neither the schedule nor the timers. *)
Definition clock_only (s s' : ll_st) : Prop :=
  same_sched s s' ∧ (∀ t, timer_of (ll_cpu s') t = timer_of (ll_cpu s) t) ∧
  (cpu_ok base (ll_cpu s) → cpu_ok base (ll_cpu s')).

Lemma clock_only_refl s : clock_only s s.
Proof. by split; [split|]. Qed.

Lemma sched_ok_clock s s' : clock_only s s' → sched_ok s → sched_ok s'.
Proof.
  intros (Hs & Ht & Hc) [Hk Hcp Hts]. split; [by eapply queue_ok_same|auto|].
  unfold timer_serves, timer_idle in *. rewrite (ss_q _ _ Hs).
  destruct (g_ble_ll_sched_q s) as [|h q]; rewrite Ht; [done|]. by rewrite (ss_items _ _ Hs).
Qed.

Lemma same_sched_trans s1 s2 s3 : same_sched s1 s2 → same_sched s2 s3 → same_sched s1 s3.
Proof. intros [? H ? ? ? ? ?] [? H' ? ? ? ? ?]. split; congruence. Qed.

(** What the counter shows at the next access. *)
Definition counter (s : ll_st) : Z := u32 (hw_time (cpu_hw (ll_cpu s))).

Lemma read_clock_ok s : wp (on_cpu cputime_get32) (λ now s', now = counter s ∧ clock_only s s') s.
Proof.
  apply wp_on_cpu. eapply wp_eq; [apply get32_run|]. split; [done|]. split; [by split|]. split; [done|].
  simpl. intros [H1 H2 H3 H4 H5]. by split.
Qed.

Lemma overlaps_current_ok sch s : wp (ble_ll_sched_overlaps_current sch) (λ _ s', clock_only s s') s.
Proof.
  unfold ble_ll_sched_overlaps_current. apply wp_bind, wp_gets.
  destruct (_ =? _); [|apply wp_ret, clock_only_refl].
  unfold ble_ll_conn_get_ce_end_time. apply wp_bind, wp_bind, wp_get.
  destruct (g_ble_ll_conn_cur_sm s).
  - apply wp_ret, wp_bind, wp_get, wp_ret, clock_only_refl.
  - eapply wp_mono; [apply read_clock_ok|]. intros t s' [_ H]. by apply wp_bind, wp_get, wp_ret.
Qed.

(** The event of the connection that is running ends after the item starts. *)
Definition in_the_way (s : ll_st) (sch : sched_id) : Prop :=
  ∃ k, ll_state s = BLE_LL_STATE_CONNECTION ∧ g_ble_ll_conn_cur_sm s = Some k ∧
    0 < time_diff (ce_end_time (conn_of s k)) (start_time (item_of s sch)).

Lemma overlaps_current_spec sch s :
  (ll_state s = BLE_LL_STATE_CONNECTION → is_Some (g_ble_ll_conn_cur_sm s)) →
  wp (ble_ll_sched_overlaps_current sch) (λ b s', s' = s ∧ (b = true ↔ in_the_way s sch)) s.
Proof.
  intros Hcur. unfold ble_ll_sched_overlaps_current, in_the_way. apply wp_bind, wp_gets.
  destruct (Z.eqb_spec (ll_state s) BLE_LL_STATE_CONNECTION) as [E|E].
  - destruct (Hcur E) as [k Ek]. unfold ble_ll_conn_get_ce_end_time. apply wp_bind, wp_bind, wp_get. rewrite Ek.
    apply wp_ret, wp_bind, wp_get, wp_ret. split; [done|]. rewrite Z.ltb_lt. naive_solver.
  - apply wp_ret. split; [done|]. naive_solver.
Qed.

(** The times the rescheduled connection asks for. *)
Definition resched_request (c : nat) (s : ll_st) : ll_st :=
  let k := conn_of s c in
  let usecs := if conn_role k =? BLE_LL_CONN_ROLE_SLAVE
               then u32 (XCVR_RX_SCHED_DELAY_USECS + slave_cur_window_widening k)
               else XCVR_TX_SCHED_DELAY_USECS in
  upd_item (SchConn c)
    (set_times (u32 (anchor_point k - u32 (usecs * ticks_per_usec (ll_cpu s)))) (ce_end_time k)) s.

(** The item took the place of the entries [B], which were told. *)
Record replaced (P : sched_id → Prop) (sch : sched_id) (s s' : ll_st) (B : list sched_id) : Prop := {
  rp_q : ∃ A C, g_ble_ll_sched_q s = A ++ B ++ C ∧ g_ble_ll_sched_q s' = A ++ sch :: C ∧
    (∀ e, e ∈ A → precedes s e sch) ∧ (∀ e, e ∈ C → precedes s sch e);
  rp_over : ∀ e, e ∈ B → overlaps s sch e ∧ P e;
  rp_times : ∀ i, t_start s' i = t_start s i ∧ t_end s' i = t_end s i;
  rp_told : ∀ e, e ∈ B → sched_type (item_of s e) = BLE_LL_SCHED_TYPE_CONN →
    EvConnEnd (cb_arg (item_of s e)) ∈ ll_evq s';
}.

Lemma replaced_same P sch s s1 s2 B : same_sched s1 s2 → replaced P sch s s1 B → replaced P sch s s2 B.
Proof.
  intros [Hq Hi _ Hev _ _ _] [H1 H2 H3 H4]. split; rewrite ?Hq, ?Hev; [done|done| |done].
  intros i. by destruct (times_ext s1 s2 i (Hi i)) as [-> ->].
Qed.

Lemma precedes_same s s1 sch q q' (B : list sched_id) :
  (∀ i, t_start s1 i = t_start s i ∧ t_end s1 i = t_end s i) →
  (∃ A C, q = A ++ B ++ C ∧ q' = A ++ sch :: C ∧
    (∀ e, e ∈ A → precedes s1 e sch) ∧ (∀ e, e ∈ C → precedes s1 sch e)) →
  ∃ A C, q = A ++ B ++ C ∧ q' = A ++ sch :: C ∧
    (∀ e, e ∈ A → precedes s e sch) ∧ (∀ e, e ∈ C → precedes s sch e).
Proof.
  intros Ht (A & C & H1 & H2 & H3 & H4). exists A, C. split; [done|]. split; [done|]. unfold precedes in *.
  destruct (Ht sch) as [E1 E2]. rewrite E1 in H3. rewrite E2 in H4.
  split; intros e He; destruct (Ht e) as [E3 E4]; [rewrite <- E4|rewrite <- E3]; auto.
Qed.

(** The relation depends on the schedule of the state it starts from. *)
Lemma replaced_from_same sch s s1 s2 B : same_sched s s1 →
  replaced (replaceable s1 sch) sch s1 s2 B → replaced (replaceable s sch) sch s s2 B.
Proof.
  intros [Hq Hi Hcs _ _ _ _] [H1 H2 H3 H4].
  assert (∀ i, t_start s1 i = t_start s i ∧ t_end s1 i = t_end s i) as Ht by (intros; by apply times_ext).
  split.
  - rewrite <- Hq. by apply (precedes_same s s1).
  - intros e He. destruct (H2 e He) as [Ho Hr]. unfold overlaps, replaceable, ble_ll_conn_is_lru, conn_of in *.
    destruct (Ht e) as [E1 E2], (Ht sch) as [E3 E4]. by rewrite !Hi, Hcs, E1, E2, E3, E4 in *.
  - intros i. destruct (H3 i) as [-> ->]. apply Ht.
  - intros e He. rewrite <- Hi. auto.
Qed.

(** The items once [sch] is in and [B] is out. *)
Definition swapped_items (sch : sched_id) (B : list sched_id) (s s' : ll_st) : Prop :=
  ∀ i, item_of s' i = if decide (sch = i) then set_enqueued true (item_of s i)
                      else if decide (i ∈ B) then set_enqueued false (item_of s i) else item_of s i.

(** Taking [B] out and the item in leaves the queue in order. *)
Lemma fits_queue_ok P sch s s2 A B C :
  queue_ok None s → enqueued (item_of s sch) = false → reserves s sch → fits P sch s A B C →
  g_ble_ll_sched_q s2 = A ++ sch :: C → swapped_items sch B s s2 →
  (∀ e, e ∈ B → sched_type (item_of s e) = BLE_LL_SCHED_TYPE_CONN → EvConnEnd (cb_arg (item_of s e)) ∈ ll_evq s2) →
  queue_ok None s2 ∧ replaced P sch s s2 B.
Proof.
  intros [Hnd He Ho] Hen Hr [Hq Hb Hov Ha] Hq2 Hit Hev.
  assert (sch ∉ g_ble_ll_sched_q s) as Hn by (rewrite He by done; rewrite Hen; done).
  assert (∀ i, start_time (item_of s2 i) = start_time (item_of s i) ∧ end_time (item_of s2 i) = end_time (item_of s i)) as Hpl.
  { intros i. rewrite Hit. by repeat case_decide. }
  rewrite Hq in Hn, Hnd, Ho, He.
  assert (sch ∉ A ∧ sch ∉ B ∧ sch ∉ C) as (HnA & HnB & HnC) by set_solver.
  apply NoDup_app in Hnd as (Hn1 & Hn2 & Hn3). apply NoDup_app in Hn3 as (Hn3 & Hn4 & Hn5).
  split; [split; rewrite Hq2|split].
  - apply NoDup_app. split; [done|]. split; [set_solver|]. by apply NoDup_cons.
  - intros i _. rewrite Hit. destruct (decide (sch = i)) as [<-|Hne]; [set_solver|].
    rewrite elem_of_app, elem_of_cons. specialize (He i ltac:(done)). rewrite !elem_of_app in He.
    case_decide; simpl; [|rewrite <- He; naive_solver].
    split; [|done]. intros [?|[?|?]]; [|congruence|]; exfalso; set_solver.
  - apply (ordered_ext s); [by intros i _|].
    apply ordered_insert; [|done|done|done].
    apply ordered_app in Ho as (O1 & O2 & O3). apply ordered_app in O2 as (_ & O2 & _).
    apply ordered_app. split; [done|]. split; [done|]. intros. apply O3; [done|]. set_solver.
  - by exists A, C.
  - done.
  - intros i. unfold t_start, t_end. by destruct (Hpl i) as (-> & ->).
  - done.
Qed.

(** A failed attempt leaves the schedule as it was. *)
Definition unchanged (s s' : ll_st) : Prop :=
  g_ble_ll_sched_q s' = g_ble_ll_sched_q s ∧ (∀ i, item_of s' i = item_of s i) ∧ ll_evq s' = ll_evq s.

Lemma unchanged_same s s' : same_sched s s' → unchanged s s'.
Proof. intros [? ? ? ? ? ? ?]. by split. Qed.

(** What follows the loop over the queue. *)
Lemma resched_finish s sch (Q : Z → ll_st → Prop) :
  queue_ok None s → enqueued (item_of s sch) = false → cpu_ok base (ll_cpu s) → timer_idle s →
  reserves s sch → (∀ e, e ∈ g_ble_ll_sched_q s → t_end s sch ≠ t_start s e) →
  (∀ s', sched_ok s' → (∃ B, replaced (replaceable s sch) sch s s' B) → Q 0 s') →
  (∀ s', sched_ok s' → unchanged s s' →
     (∃ e, e ∈ g_ble_ll_sched_q s ∧ overlaps s sch e ∧ ¬ replaceable s sch e) → Q (-1) s') →
  wp (r ← resched_loop sch None None (g_ble_ll_sched_q s);
      (if rs_ok r return L unit then
         (if rs_inserted r return L unit then mret tt else sched_insert_tail sch) ;;
         modify (upd_item sch (set_enqueued true))
       else mret tt) ;;
      s ← get;
      overlap_remove (length (g_ble_ll_sched_q s)) (rs_start r) (rs_end r) ;;
      first ← sched_first;
      sched_timer_start first ;;
      mret (if rs_ok r then 0 else -1)) Q s.
Proof.
  intros Hk Hen Hc Hi Hr Hto HQ0 HQ1. apply wp_bind.
  eapply wp_mono; [apply (resched_loop_ok sch _ s [] []); split; simpl; try done; try apply Hk;
    by intros ? ?%not_elem_of_nil|].
  intros [ok st en ins] s1 Hloop. apply wp_bind. cbn [rs_ok rs_start rs_end rs_inserted] in *. destruct ok.
  - destruct Hloop as (A & B & C & Hfit & -> & -> & Hins).
    set (s2 := upd_item sch (set_enqueued true) (set_sched_q (A ++ B ++ sch :: C) s)).
    assert (∀ Q', Q' tt s2 → wp ((if ins return L unit then mret tt else sched_insert_tail sch) ;;
         modify (upd_item sch (set_enqueued true))) Q' s1) as Hstep.
    { intros Q' HQ'. apply wp_bind. destruct ins.
      - subst s1. by apply wp_ret, wp_modify.
      - destruct Hins as [-> ->]. unfold sched_insert_tail. apply wp_modify, wp_modify.
        rewrite (ft_q _ _ _ _ _ _ Hfit), app_nil_r, <- app_assoc. done. }
    apply Hstep. apply wp_bind, wp_get, wp_bind.
    assert (sch ∉ g_ble_ll_sched_q s) as Hn by (rewrite (qk_enq _ _ Hk), Hen; done).
    assert (g_ble_ll_sched_q s2 = A ++ B ++ sch :: C) as Hq2 by (unfold s2; by rewrite upd_item_q).
    assert (NoDup (A ++ B ++ sch :: C)) as Hnd.
    { rewrite !app_assoc. rewrite <- Permutation_middle. apply NoDup_cons.
      rewrite <- app_assoc, <- (ft_q _ _ _ _ _ _ Hfit). split; [done|apply Hk]. }
    eapply wp_mono; [eapply overlap_remove_ok; [exact Hq2|done|]|].
    { rewrite Hq2, !length_app. lia. }
    intros _ s3 [Hrel Hq3].
    assert (∀ i, item_of s2 i = if decide (sch = i) then set_enqueued true (item_of s i) else item_of s i) as Hi2.
    { intros i. unfold s2. rewrite item_of_upd. by case_decide; subst. }
    assert (sch ∉ B) as HnB by (intros HB; apply Hn; rewrite (ft_q _ _ _ _ _ _ Hfit); set_solver).
    destruct (fits_queue_ok (replaceable s sch) sch s s3 A B C) as [Hk3 Hrep]; try done.
    { intros i. rewrite (rl_items _ _ _ Hrel), Hi2.
      destruct (decide (sch = i)) as [<-|]; [by rewrite decide_False|done]. }
    { intros e HeB Hty. apply (rl_evq _ _ _ Hrel). right. exists e. rewrite Hi2.
      rewrite decide_False by (intros ->; done). done. }
    assert (ll_cpu s3 = ll_cpu s) as Hc3 by (rewrite (rl_cpu _ _ _ Hrel); unfold s2; by rewrite upd_item_cpu).
    apply wp_bind. eapply wp_mono; [apply (restart_ok s3 (λ s', Q 0 s'))|].
    + done.
    + by rewrite Hc3.
    + by eapply timer_idle_cpu.
    + rewrite Hq3. by destruct A.
    + intros s4 Hs4 Hok4. apply HQ0; [done|]. exists B. by eapply replaced_same.
    + intros h s4 H. apply wp_bind. eapply wp_mono; [exact H|]. intros [] s5 H5. by apply wp_ret.
  - destruct Hloop as (-> & -> & Hblock). pose proof Hblock as (e & He & _). apply wp_ret, wp_bind, wp_get, wp_bind.
    replace (overlap_remove _ None en) with (mret tt : L unit) by (by destruct (length _)).
    apply wp_ret, wp_bind. eapply wp_mono; [apply (restart_ok s (λ s', Q (-1) s')); try done|].
    + intros E. rewrite E in He. by apply not_elem_of_nil in He.
    + intros s4 Hs4 Hok4. apply HQ1; [done|by apply unchanged_same|done].
    + intros h s4 H. apply wp_bind. eapply wp_mono; [exact H|]. intros [] s5 H5. by apply wp_ret.
Qed.

(** When a connection event can be rescheduled: its time has not passed, the event that is
    running does not last into it, and it may take the place of every item it overlaps. *)
Definition resched_allowed (sch : sched_id) (s : ll_st) : Prop :=
  0 <= time_diff (start_time (item_of s sch)) (counter s) ∧ ¬ in_the_way s sch ∧
  ∀ e, e ∈ g_ble_ll_sched_q s → overlaps s sch e → replaceable s sch e.

Lemma replaced_allowed sch s s' B e :
  reserves s sch → ordered s (g_ble_ll_sched_q s) → replaced (replaceable s sch) sch s s' B →
  e ∈ g_ble_ll_sched_q s → overlaps s sch e → e ∈ B ∧ replaceable s sch e.
Proof.
  intros Hr Ho [(A & C & Hq & _ & HA & HC) HB _ _] He Hov. pose proof (ordered_elem s _ e Ho He) as Hre.
  rewrite Hq, !elem_of_app in He. destruct He as [He|[He|He]]; [|by destruct (HB e He)|].
  - specialize (HA e He). unfold overlaps, precedes, reserves in *. lia.
  - specialize (HC e He). unfold overlaps, precedes, reserves in *. lia.
Qed.

(** A connection event is rescheduled. *)
Lemma conn_reschedule_ok s c (sch := SchConn c) (s1 := resched_request c s) :
  sched_ok s → enqueued (item_of s sch) = false → reserves s1 sch →
  (ll_state s = BLE_LL_STATE_CONNECTION → is_Some (g_ble_ll_conn_cur_sm s)) →
  (∀ e, e ∈ g_ble_ll_sched_q s → t_end s1 sch ≠ t_start s1 e) →
  wp (ble_ll_sched_conn_reschedule c) (λ rc s', sched_ok s' ∧
    (rc = 0 ∧ resched_allowed sch s1 ∧ (∃ B, replaced (replaceable s1 sch) sch s1 s' B) ∨
     rc = -1 ∧ ¬ resched_allowed sch s1 ∧ unchanged s1 s')) s.
Proof.
  intros Hok Hen Hr Hcur Hto. unfold ble_ll_sched_conn_reschedule.
  apply wp_bind, wp_get, wp_bind, wp_ticks, wp_bind, wp_modify. cbv zeta.
  match goal with |- context [upd_item (SchConn c) ?f s] => change (upd_item (SchConn c) f s) with s1 end.
  destruct (sched_ok_set_times s sch (start_time (item_of s1 sch)) (end_time (item_of s1 sch)))
    as (Hok1 & Hn & Hen1); [done|done|].
  assert (upd_item sch (set_times (start_time (item_of s1 sch)) (end_time (item_of s1 sch))) s = s1) as E1.
  { unfold s1, sch, resched_request. rewrite item_of_upd, decide_True by done. done. }
  rewrite E1 in Hok1, Hen1.
  assert (start_time (item_of s1 sch) = u32 (anchor_point (conn_of s c) - u32 ((if conn_role (conn_of s c) =? BLE_LL_CONN_ROLE_SLAVE
    then u32 (XCVR_RX_SCHED_DELAY_USECS + slave_cur_window_widening (conn_of s c)) else XCVR_TX_SCHED_DELAY_USECS) *
    ticks_per_usec (ll_cpu s)))) as Est.
  { unfold s1, sch, resched_request. rewrite item_of_upd, decide_True by done. done. }
  apply wp_bind. eapply wp_mono; [apply read_clock_ok|]. intros now s2 [-> Hs2].
  pose proof (sched_ok_clock _ _ Hs2 Hok1) as Hok2. rewrite <- Est.
  destruct (Z.ltb_spec (time_diff (start_time (item_of s1 sch)) (counter s1)) 0) as [Hlate|Hlate].
  { apply wp_ret. split; [done|]. right. split; [done|]. split; [|apply unchanged_same, Hs2].
    intros (? & _). lia. }
  pose proof (proj1 Hs2) as H12. apply wp_bind. eapply wp_mono; [apply overlaps_current_spec|].
  { rewrite (ss_state _ _ H12), (ss_cur _ _ H12). exact Hcur. }
  intros cur s3 [-> Hway].
  assert (in_the_way s2 (SchConn c) ↔ in_the_way s1 sch) as Hway1.
  { unfold in_the_way, conn_of. by rewrite (ss_state _ _ H12), (ss_cur _ _ H12), (ss_conns _ _ H12), (ss_items _ _ H12). }
  rewrite Hway1 in Hway.
  destruct cur.
  { apply wp_ret. split; [done|]. right. split; [done|]. split; [|by apply unchanged_same].
    intros (_ & Hno & _). by apply Hno, Hway. }
  assert (¬ in_the_way s1 sch) as Hnoway by (intros ?%Hway; done).
  apply wp_bind. eapply wp_mono; [apply sched_timer_stop_ok, Hok2|]. intros _ s4 (H34 & Hc4 & Hi4).
  pose proof (same_sched_trans _ _ _ H12 H34) as H14. apply wp_bind, wp_get.
  pose proof (ss_items _ _ H14) as Hit.
  assert (∀ i, t_start s4 i = t_start s1 i ∧ t_end s4 i = t_end s1 i) as Ht4 by (intros; by apply times_ext).
  destruct (Ht4 sch) as [Es4 Ee4]. change (SchConn c) with sch.
  apply resched_finish; [|by rewrite Hit|done|done| | | |].
  - eapply queue_ok_same; [exact H34|apply Hok2].
  - unfold reserves. rewrite Es4, Ee4. exact Hr.
  - intros e. rewrite (ss_q _ _ H14). unfold s1, resched_request. rewrite upd_item_q. intros He.
    destruct (Ht4 e) as [-> _]. rewrite Ee4. auto.
  - intros s' Hok' [B HB]. split; [done|]. left. apply (replaced_from_same _ s1) in HB; [|done]. split; [done|].
    split; [|by exists B]. split; [done|]. split; [done|]. intros e He Hov.
    destruct (replaced_allowed sch s1 s' B e Hr) as [_ ?]; try done. apply Hok1.
  - intros s' Hok' (U1 & U2 & U3) (e & He & Hov & Hnr). split; [done|]. right. split; [done|]. split.
    + intros (_ & _ & Hall). apply Hnr. rewrite (ss_q _ _ H14) in He.
      assert (overlaps s1 sch e) as Hov1.
      { unfold overlaps in *. destruct (Ht4 e) as [E3 E4]. by rewrite Es4, Ee4, E3, E4 in Hov. }
      specialize (Hall e He Hov1). unfold replaceable, ble_ll_conn_is_lru, conn_of in *.
      by rewrite !Hit, (ss_conns _ _ H14).
    + split; [|split]; [by rewrite U1, (ss_q _ _ H14)| |by rewrite U3, (ss_evq _ _ H14)].
      intros i. by rewrite U2.
Qed.

(** ** A new slave connection *)

(** [e] is the item of a connection, which can be pushed out. *)
Definition is_conn (s : ll_st) (e : sched_id) : Prop := sched_type (item_of s e) = BLE_LL_SCHED_TYPE_CONN.

Lemma conn_overlap_ok e A R s :
  g_ble_ll_sched_q s = A ++ e :: R → e ∉ A →
  wp (ble_ll_sched_conn_overlap e) (λ ok s',
    if (ok : bool) then is_conn s e ∧ released [e] s s' ∧ g_ble_ll_sched_q s' = A ++ R
    else ¬ is_conn s e ∧ s' = s) s.
Proof.
  intros Hq HeA. unfold ble_ll_sched_conn_overlap. apply wp_bind, wp_get. unfold is_conn.
  case_decide as Hc; [|by apply wp_ret].
  apply wp_bind, wp_modify, wp_bind. unfold sched_remove. apply wp_bind, wp_get, wp_bind.
  rewrite upd_item_q, Hq, list_remove_app_notin by done. apply wp_ret, wp_modify, wp_bind.
  destruct (event_send_run (EvConnEnd (cb_arg (item_of s e)))
    (set_sched_q (A ++ R) (upd_item e (set_enqueued false) s))) as (s' & Hrun & Hs & Hev).
  eapply wp_eq; [exact Hrun|]. apply wp_ret. split; [done|].
  apply (release_one e _ s s' (ll_evq s')).
  - rewrite Hs at 1. by destruct e.
  - intros x. rewrite Hev. simpl. rewrite upd_item_evq. naive_solver.
Qed.

Lemma slave_loop_ok sch s0 (P := is_conn s0) l : ∀ s A B,
  scanning P sch s0 A B l → released B s0 s → g_ble_ll_sched_q s = A ++ l →
  wp (slave_loop sch l) (λ ok s', ∃ A B C,
    released B s0 s' ∧ g_ble_ll_sched_q s0 = A ++ B ++ C ∧ (∀ e, e ∈ B → overlaps s0 sch e ∧ P e) ∧
    if (ok : bool) then fits P sch s0 A B C ∧ g_ble_ll_sched_q s' = A ++ sch :: C
    else g_ble_ll_sched_q s' = A ++ C ∧ ∃ e, e ∈ C ∧ overlaps s0 sch e ∧ ¬ P e) s.
Proof.
  induction l as [|e l IH]; intros s A B Hs Hrel Hq; cbn [slave_loop].
  - apply wp_bind. unfold sched_insert_tail. apply wp_modify, wp_ret. exists A, B, [].
    split; [by destruct Hrel; split|]. destruct Hs. split; [done|]. split; [done|].
    split; [split; try done; by intros ? ?%not_elem_of_nil|]. simpl. by rewrite Hq, app_nil_r.
  - apply wp_bind, wp_get. pose proof Hs as [H1 H2 H3 H4 H5 H6 H7].
    assert (reserves s0 e) as He by (eapply ordered_elem; [done|]; apply elem_third).
    assert (∀ i, reserves s0 i → reserves s i) as Hres
      by (intros i; unfold reserves; by destruct (released_times B s0 s i Hrel) as [-> ->]).
    rewrite is_overlap_spec, ends_before_spec by auto.
    destruct (released_times B s0 s e Hrel) as [E1 E2], (released_times B s0 s sch Hrel) as [E3 E4].
    assert (overlaps s sch e ↔ overlaps s0 sch e) as Hovi by (unfold overlaps; by rewrite E1, E2, E3, E4).
    rewrite E1, E4.
    assert (e ∉ A) as HeA.
    { apply NoDup_app in H2 as (_ & H2 & _). intros HA. apply (H2 e HA).
      apply elem_of_app. right. by left. }
    destruct (Z.ltb_spec (t_end s0 sch) (t_start s0 e)) as [Hlt|Hge].
    + apply wp_bind. unfold sched_insert_before. apply wp_modify, wp_ret. exists A, B, (e :: l).
      split; [by destruct Hrel; split|]. split; [done|]. split; [done|].
      rewrite Hq, insert_before_elem by done. split; [|done].
      split; try done. apply ordered_head_after; [|lia].
      apply ordered_app in H3 as (_ & H3 & _). by apply ordered_app in H3 as (_ & H3 & _).
    + case_bool_decide as Hov; apply Hovi in Hov || (rewrite Hovi in Hov).
      * apply wp_bind. eapply wp_mono; [by apply (conn_overlap_ok e A l)|]. intros ok s1 Hok.
        assert (is_conn s e ↔ P e) as Hty
          by (unfold P, is_conn; by destruct (released_plan B s0 s e Hrel) as (_ & _ & -> & _)).
        destruct ok.
        -- destruct Hok as (Hc & Hrel1 & Hq1). apply Hty in Hc.
           apply (IH s1 A (B ++ [e])); [by apply scanning_over|by eapply released_trans|done].
        -- destruct Hok as [Hc ->]. apply wp_ret. exists A, B, (e :: l).
           split; [done|]. split; [done|]. split; [done|]. split; [done|]. exists e. rewrite <- Hty. split; [by left|]. by split.
      * destruct (scanning_skip _ _ _ _ _ _ _ Hs Hov Hge) as [-> Hs'].
        apply (IH s (A ++ [e]) []); [done|done|]. by rewrite <- app_assoc.
Qed.

Lemma released_queue_ok s s' A B C :
  queue_ok None s → g_ble_ll_sched_q s = A ++ B ++ C →
  (∀ i, item_of s' i = if decide (i ∈ B) then set_enqueued false (item_of s i) else item_of s i) →
  g_ble_ll_sched_q s' = A ++ C → queue_ok None s'.
Proof.
  intros [Hnd He Ho] Hq Hrel Hq'. rewrite Hq in *.
  apply NoDup_app in Hnd as (Hn1 & Hn2 & Hn3). apply NoDup_app in Hn3 as (Hn3 & Hn4 & Hn5).
  split; rewrite Hq'.
  - apply NoDup_app. split; [done|]. split; [set_solver|done].
  - intros i _. rewrite Hrel. specialize (He i ltac:(done)). rewrite !elem_of_app in He.
    rewrite elem_of_app. case_decide; simpl; [|rewrite <- He; naive_solver].
    split; [|done]. intros [?|?]; exfalso; set_solver.
  - apply (ordered_ext s); [intros i _; rewrite Hrel; by case_decide|].
    apply ordered_app in Ho as (O1 & O2 & O3). apply ordered_app in O2 as (_ & O2 & _). apply ordered_app. split; [done|]. split; [done|].
    intros. apply O3; [done|]. set_solver.
Qed.

(** Some connections were pushed out, but an advertising event is in the way. *)
Record blocked (sch : sched_id) (s s' : ll_st) : Prop := {
  bk_q : ∃ A B C, g_ble_ll_sched_q s = A ++ B ++ C ∧ g_ble_ll_sched_q s' = A ++ C ∧
    (∀ e, e ∈ B → overlaps s sch e ∧ is_conn s e) ∧
    (∀ e, e ∈ B → EvConnEnd (cb_arg (item_of s e)) ∈ ll_evq s') ∧
    ∃ e, e ∈ C ∧ overlaps s sch e ∧ ¬ is_conn s e;
  bk_times : ∀ i, t_start s' i = t_start s i ∧ t_end s' i = t_end s i;
}.

Lemma blocked_same sch s s1 s2 s3 :
  same_sched s s1 → same_sched s2 s3 → blocked sch s1 s2 → blocked sch s s3.
Proof.
  intros [Hq Hi _ _ _ _ _] [Hq' Hi' _ Hev' _ _ _] [(A & B & C & H1 & H2 & H3 & H4 & H5) Ht].
  assert (∀ i, t_start s1 i = t_start s i ∧ t_end s1 i = t_end s i) as Ht1 by (intros; by apply times_ext).
  assert (∀ i, t_start s3 i = t_start s2 i ∧ t_end s3 i = t_end s2 i) as Ht3 by (intros; by apply times_ext).
  assert (∀ e, overlaps s1 sch e ↔ overlaps s sch e) as Ho.
  { intros e. unfold overlaps. by destruct (Ht1 sch) as [-> ->], (Ht1 e) as [-> ->]. }
  assert (∀ e, is_conn s1 e ↔ is_conn s e) as Hc by (intros e; unfold is_conn; by rewrite Hi).
  split.
  - exists A, B, C. rewrite Hq', Hev', <- Hq. split; [done|]. split; [done|].
    split; [intros e He; rewrite <- Ho, <- Hc; auto|].
    split; [intros e He; rewrite <- Hi; auto|]. destruct H5 as (e & ? & ? & ?). exists e. by rewrite <- Ho, <- Hc.
  - intros i. destruct (Ht3 i) as [-> ->], (Ht i) as [-> ->]. apply Ht1.
Qed.

Lemma replaced_conn_same sch s s1 s2 s3 B : same_sched s s1 → same_sched s2 s3 →
  replaced (is_conn s1) sch s1 s2 B → replaced (is_conn s) sch s s3 B.
Proof.
  intros [Hq Hi _ _ _ _ _] H23 Hr. eapply replaced_same; [exact H23|]. destruct Hr as [H1 H2 H3 H4].
  assert (∀ i, t_start s1 i = t_start s i ∧ t_end s1 i = t_end s i) as Ht by (intros; by apply times_ext).
  split.
  - rewrite <- Hq. by apply (precedes_same s s1).
  - intros e He. destruct (H2 e He) as [Ho Hc]. unfold overlaps, is_conn in *.
    destruct (Ht e) as [E1 E2], (Ht sch) as [E3 E4]. by rewrite E1, E2, E3, E4, Hi in *.
  - intros i. destruct (H3 i) as [-> ->]. apply Ht.
  - intros e He. rewrite <- Hi. auto.
Qed.

(** The times the new slave connection asks for. *)
Definition slave_request (c : nat) (s : ll_st) : ll_st :=
  let k := conn_of s c in
  upd_item (SchConn c)
    (set_times (u32 (anchor_point k - u32 (u32 (XCVR_RX_SCHED_DELAY_USECS + slave_cur_window_widening k) *
                                           ticks_per_usec (ll_cpu s)))) (ce_end_time k)) s.

Definition slave_outcome (c : nat) (s : ll_st) (rc : Z) (s' : ll_st) : Prop :=
  sched_ok s' ∧
  (rc = 0 ∧ (∃ B, replaced (is_conn s) (SchConn c) s s' B) ∨
   rc = -1 ∧ (unchanged s s' ∨ blocked (SchConn c) s s')).

Lemma swapped_enqueue sch B s s' : sch ∉ B → released B s s' →
  swapped_items sch B s (upd_item sch (set_enqueued true) s').
Proof.
  intros Hn Hrel i. rewrite item_of_upd, (rl_items _ _ _ Hrel), (rl_items _ _ _ Hrel).
  rewrite (decide_False (P := sch ∈ B)) by done. by case_decide; subst.
Qed.

(** The queue was empty. *)
Lemma empty_ok sch s (s' := upd_item sch (set_enqueued true) (set_sched_q [sch] s)) :
  queue_ok None s → enqueued (item_of s sch) = false → reserves s sch →
  g_ble_ll_sched_q s = [] → queue_ok None s' ∧ replaced (is_conn s) sch s s' [].
Proof.
  intros Hk Hen Hr Hq. apply (fits_queue_ok (is_conn s) sch s s' [] [] []); try done.
  - split; simpl; try done; by intros ? ?%not_elem_of_nil.
  - subst s'. by rewrite upd_item_q.
  - apply (swapped_enqueue _ _ _ (set_sched_q [sch] s)); [by apply not_elem_of_nil|by apply released_nil].
  - by intros ? ?%not_elem_of_nil.
Qed.

(** What follows the decision to schedule into a queue that is not empty. *)
Lemma slave_queue_ok c s (Q : Z → ll_st → Prop) :
  queue_ok None s → enqueued (item_of s (SchConn c)) = false → cpu_ok base (ll_cpu s) → timer_idle s →
  reserves s (SchConn c) → (∀ e, e ∈ g_ble_ll_sched_q s → t_end s (SchConn c) ≠ t_start s e) →
  g_ble_ll_sched_q s ≠ [] →
  (∀ rc s', slave_outcome c s rc s' → Q rc s') →
  wp (ok ← slave_loop (SchConn c) (g_ble_ll_sched_q s);
      (if (ok : bool) return L unit then modify (upd_item (SchConn c) (set_enqueued true)) else mret tt) ;;
      first ← sched_first;
      mret (if (ok : bool) then 0 else -1, first))
    (λ p, wp (sched_timer_start p.2 ;; mret p.1) Q) s.
Proof.
  intros Hk Hen Hc Hi Hr Hto Hne HQ. apply wp_bind.
  eapply wp_mono; [apply (slave_loop_ok _ s _ s [] []); [|by apply released_nil|done]|].
  { split; simpl; try done; try apply Hk; by intros ? ?%not_elem_of_nil. }
  intros ok s1 (A & B & C & Hrel & Hq & HB & Hres).
  assert (SchConn c ∉ g_ble_ll_sched_q s) as Hn by (rewrite (qk_enq _ _ Hk), Hen; done).
  rewrite Hq in Hn. assert (∀ rc s2, queue_ok None s2 → ll_cpu s2 = ll_cpu s → g_ble_ll_sched_q s2 ≠ [] →
    (∀ s3, same_sched s2 s3 → sched_ok s3 → Q rc s3) →
    wp (first ← sched_first; mret (rc, first)) (λ p, wp (sched_timer_start p.2 ;; mret p.1) Q) s2) as Hfin.
  { intros rc s2 Hk2 Hc2 Hne2 HQ2. apply wp_bind.
    eapply wp_mono; [apply (restart_ok s2 (Q rc)); [done|by rewrite Hc2|by eapply timer_idle_cpu|done|done]|].
    intros h s3 H. apply wp_ret, wp_bind. eapply wp_mono; [exact H|]. intros [] s4 H4. by apply wp_ret. }
  apply wp_bind. destruct ok.
  - destruct Hres as [Hfit Hq1]. apply wp_modify.
    destruct (fits_queue_ok (is_conn s) (SchConn c) s (upd_item (SchConn c) (set_enqueued true) s1) A B C) as [Hk2 Hrep];
      [done|done|done|done|by rewrite upd_item_q|apply swapped_enqueue; [set_solver|done]| |].
    { intros e He Hty. rewrite upd_item_evq. apply (rl_evq _ _ _ Hrel). right. by exists e. }
    apply Hfin; [done|by rewrite upd_item_cpu, (rl_cpu _ _ _ Hrel)|rewrite upd_item_q, Hq1; by destruct A|].
    intros s3 Hs3 Hok3. apply HQ. split; [done|]. left. split; [done|]. exists B. by eapply replaced_same.
  - destruct Hres as [Hq1 Hblock]. apply wp_ret.
    apply Hfin; [eapply released_queue_ok; [done|done|apply Hrel|done]|apply (rl_cpu _ _ _ Hrel)| |].
    + rewrite Hq1. destruct Hblock as (e & He & _). intros E. apply app_eq_nil in E as [_ ->].
      by apply not_elem_of_nil in He.
    + intros s3 Hs3 Hok3. apply HQ. split; [done|]. right. split; [done|]. right.
      apply (blocked_same _ s s s1 s3); [by split|done|]. split.
      * exists A, B, C. split; [done|]. split; [done|]. split; [done|]. split; [|done].
        intros e He. apply (rl_evq _ _ _ Hrel). right. exists e. split; [done|]. split; [by apply HB|done].
      * intros i. by eapply released_times.
Qed.

(** A new slave connection event is scheduled: connections in its way are pushed out,
    an advertising event in its way makes it fail. *)
Lemma slave_new_ok s c (s1 := slave_request c s) :
  sched_ok s → enqueued (item_of s (SchConn c)) = false → reserves s1 (SchConn c) →
  (∀ e, e ∈ g_ble_ll_sched_q s → t_end s1 (SchConn c) ≠ t_start s1 e) →
  wp (ble_ll_sched_slave_new c) (λ rc s', slave_outcome c s1 rc s') s.
Proof.
  intros Hok Hen Hr Hto. unfold ble_ll_sched_slave_new.
  apply wp_bind, wp_get, wp_bind, wp_ticks, wp_bind, wp_modify.
  match goal with |- context [upd_item (SchConn c) ?f s] => change (upd_item (SchConn c) f s) with s1 end.
  destruct (sched_ok_set_times s (SchConn c) (start_time (item_of s1 (SchConn c))) (end_time (item_of s1 (SchConn c))))
    as (Hok1 & Hn & Hen1); [done|done|].
  assert (upd_item (SchConn c) (set_times (start_time (item_of s1 (SchConn c))) (end_time (item_of s1 (SchConn c)))) s = s1) as E1.
  { unfold s1, slave_request. rewrite item_of_upd, decide_True by done. done. }
  rewrite E1 in Hok1, Hen1. assert (g_ble_ll_sched_q s1 = g_ble_ll_sched_q s) as Hq1 by apply upd_item_q.
  apply wp_bind. eapply wp_mono; [apply overlaps_current_ok|]. intros cur s3 Hs3.
  pose proof (sched_ok_clock _ _ Hs3 Hok1) as Hok3. destruct Hs3 as [H13 _].
  destruct cur; [apply wp_ret; split; [done|]; right; split; [done|]; left; by apply unchanged_same|].
  pose proof (ss_items _ _ H13) as Hit3.
  assert (∀ i, t_start s3 i = t_start s1 i ∧ t_end s3 i = t_end s1 i) as Ht3 by (intros; by apply times_ext).
  assert (reserves s3 (SchConn c)) as Hr3 by (unfold reserves; by destruct (Ht3 (SchConn c)) as [-> ->]).
  apply wp_bind. unfold ble_ll_sched_insert_if_empty. apply wp_bind, wp_get.
  destruct (g_ble_ll_sched_q s3) as [|h q] eqn:Eq3; simpl head; cbv iota.
  - apply wp_bind, wp_modify, wp_bind, wp_modify, wp_ret, wp_bind, wp_ret.
    destruct (empty_ok (SchConn c) s3) as [Hk4 Hrep]; [apply Hok3|by rewrite Hit3|done|done|].
    apply wp_bind. eapply wp_mono; [eapply sched_timer_start_ok; [exact Hk4|apply Hok3| |by rewrite upd_item_q]|].
    + pose proof (so_timer _ Hok3) as Hts. unfold timer_serves in Hts. rewrite Eq3 in Hts. exact Hts.
    + intros _ s5 (H45 & Hc5 & Ht5 & _). apply wp_ret. split.
      * split; [by eapply queue_ok_same|done|done].
      * left. split; [done|]. exists []. by eapply replaced_conn_same.
  - apply wp_ret, wp_bind, wp_bind. eapply wp_mono; [apply sched_timer_stop_ok, Hok3|].
    intros _ s4 (H34 & Hc4 & Hi4). apply wp_bind, wp_get.
    pose proof (same_sched_trans _ _ _ H13 H34) as H14. pose proof (ss_items _ _ H14) as Hit4.
    assert (∀ i, t_start s4 i = t_start s1 i ∧ t_end s4 i = t_end s1 i) as Ht4 by (intros; by apply times_ext).
    eapply wp_mono; [apply (slave_queue_ok c s4 (λ rc s', slave_outcome c s1 rc s'))|].
    + eapply queue_ok_same; [exact H34|apply Hok3].
    + by rewrite Hit4.
    + done.
    + done.
    + unfold reserves. by destruct (Ht4 (SchConn c)) as [-> ->].
    + intros e. rewrite (ss_q _ _ H14), Hq1. intros He. destruct (Ht4 e) as [-> _], (Ht4 (SchConn c)) as [_ ->]. auto.
    + by rewrite (ss_q _ _ H34), Eq3.
    + intros rc s' [Hok' Hout]. split; [done|]. destruct Hout as [[-> [B HB]]|[-> Hf]].
      * left. split; [done|]. exists B. eapply replaced_conn_same; [exact H14| |exact HB]. by split.
      * right. split; [done|]. destruct Hf as [(U1 & U2 & U3)|Hb].
        -- left. split; [|split]; [by rewrite U1, (ss_q _ _ H14)|intros i; by rewrite U2|by rewrite U3, (ss_evq _ _ H14)].
        -- right. eapply blocked_same; [exact H14| |exact Hb]. by split.
    + intros [rc h'] s' H. exact H.
Qed.

(** ** Removing an item *)

Lemma queue_ok_remove s i q (s' := upd_item i (set_enqueued false) (set_sched_q q s)) :
  queue_ok None s → list_remove i (g_ble_ll_sched_q s) = Some q →
  queue_ok None s' ∧ q = filter (λ j, j ≠ i) (g_ble_ll_sched_q s) ∧
  (∀ j, t_start s' j = t_start s j ∧ t_end s' j = t_end s j).
Proof.
  intros Hk Hr. pose proof (list_remove_filter _ _ _ (qk_nodup _ _ Hk) Hr) as Hf.
  destruct (list_remove_split _ _ _ Hr) as (l1 & l2 & E1 & E2 & Hnl).
  assert (∀ j, item_of s' j = if decide (j ∈ [i]) then set_enqueued false (item_of s j) else item_of s j) as Hit.
  { intros j. unfold s'. rewrite item_of_upd. destruct (decide (i = j)) as [<-|Hne].
    - by rewrite decide_True by (by apply list_elem_of_singleton).
    - by rewrite decide_False by (rewrite list_elem_of_singleton; congruence). }
  split; [|split; [done|]].
  - eapply (released_queue_ok s s' l1 [i] l2); [done|by rewrite E1|done|]. unfold s'. by rewrite upd_item_q.
  - intros j. unfold t_start, t_end. rewrite Hit. by case_decide.
Qed.

(** An item is taken out of the schedule: the others keep their places, and the timer
    serves the item that is now the first. *)
Lemma rmv_elem_ok s i :
  sched_ok s →
  wp (ble_ll_sched_rmv_elem (Some i)) (λ _ s', sched_ok s' ∧
    g_ble_ll_sched_q s' = filter (λ j, j ≠ i) (g_ble_ll_sched_q s) ∧
    (∀ j, t_start s' j = t_start s j ∧ t_end s' j = t_end s j)) s.
Proof.
  intros [Hk Hc Ht]. unfold ble_ll_sched_rmv_elem. apply wp_bind, wp_get.
  destruct (enqueued (item_of s i)) eqn:Hen.
  2:{ apply wp_ret. split; [done|]. split; [|done]. symmetry. apply list_filter_all_true.
      intros j Hj ->. apply (qk_enq _ _ Hk) in Hj; [congruence|done]. }
  apply (qk_enq _ _ Hk) in Hen as Hin; [|done].
  destruct (list_remove_is_Some _ _ Hin) as [q Hr]. cbv zeta.
  assert (∀ s1, same_sched s s1 → wp (sched_remove i) (λ _ s2, s2 = set_sched_q q s1) s1) as Hrm.
  { intros s1 H1. unfold sched_remove. apply wp_bind, wp_get, wp_bind. rewrite (ss_q _ _ H1), Hr.
    by apply wp_ret, wp_modify. }
  assert (∀ s1 s3, same_sched s s1 → s3 = upd_item i (set_enqueued false) (set_sched_q q s1) →
    queue_ok None s3 ∧ g_ble_ll_sched_q s3 = filter (λ j, j ≠ i) (g_ble_ll_sched_q s) ∧
    (∀ j, t_start s3 j = t_start s j ∧ t_end s3 j = t_end s j)) as Hk3.
  { intros s1 s3 H1 ->. destruct (queue_ok_remove s1 i q) as (K1 & K2 & K3);
      [by eapply queue_ok_same|by rewrite (ss_q _ _ H1)|].
    split; [done|]. split; [by rewrite upd_item_q, <- (ss_q _ _ H1)|].
    intros j. destruct (K3 j) as [-> ->]. apply times_ext, H1. }
  apply wp_bind. case_bool_decide as Hhd.
  - eapply wp_mono; [by apply sched_timer_stop_ok|]. intros _ s1 (H1 & Hc1 & Hi1).
    apply wp_bind. eapply wp_mono; [by apply Hrm|]. intros _ s2 ->. apply wp_bind, wp_modify.
    destruct (Hk3 s1 _ H1 eq_refl) as (K1 & K2 & K3). apply wp_bind, wp_get.
    destruct (g_ble_ll_sched_q (upd_item _ _ _)) as [|h q'] eqn:Eq; simpl head; cbv iota.
    + apply wp_ret. split; [|split; [by rewrite Eq|done]].
      split; [done|by rewrite upd_item_cpu|]. unfold timer_serves. rewrite Eq.
      eapply timer_idle_cpu; [|exact Hi1]. by rewrite upd_item_cpu.
    + eapply wp_mono; [eapply sched_timer_start_ok; [exact K1|by rewrite upd_item_cpu| |exact Eq]|].
      { eapply timer_idle_cpu; [|exact Hi1]. by rewrite upd_item_cpu. }
      intros _ s4 (H4 & Hc4 & Ht4 & _). split; [split; [by eapply queue_ok_same|done|done]|].
      split; [by rewrite (ss_q _ _ H4), Eq|]. intros j.
      destruct (K3 j) as [<- <-]. apply times_ext, H4.
  - apply wp_ret, wp_bind. eapply wp_mono; [apply Hrm; by split|]. intros _ s2 ->. apply wp_bind, wp_modify.
    destruct (Hk3 s _ ltac:(by split) eq_refl) as (K1 & K2 & K3). apply wp_ret.
    split; [|by rewrite K2]. split; [done|by rewrite upd_item_cpu|].
    unfold timer_serves, timer_idle in *. rewrite upd_item_q, upd_item_cpu. simpl.
    destruct (g_ble_ll_sched_q s) as [|h l] eqn:Eq; [by apply not_elem_of_nil in Hin|].
    cbn [list_remove] in Hr. rewrite decide_False in Hr by (intros ->; by apply Hhd).
    destruct (list_remove i l); [|done]. injection Hr as <-.
    rewrite item_of_upd, decide_False by (intros ->; by apply Hhd). done.
Qed.
End base.
