(* ===== verification/BleSchedSteps.v ===== *)
(** The schedule of [BleSched] over time: the operations that remain (the advertising event
    that is under way, a new master connection, the interrupt of the timer, which runs the
    items whose time has come), the passing of time, and the invariant in every state that
    all of them together can reach; what a rescheduled connection and a new advertising
    event get. *)
From Stdlib Require Import ZArith Lia.
From stdpp Require Import base decidable numbers list sorting gmap relations.
From S2P Require Import Prelude.
From S2P Require Import OsState.
From S2P Require Import HalCputime.
From S2P Require Import BleSched.
From S2P Require Import BleSchedProps.

#[local] Open Scope Z_scope.

Section base.
Variable base : Z.

(** ** The advertising event that is under way *)

(** The loop does what that of a new slave connection does, as long as that one succeeds. *)
Lemma slave_loop_adv sch l : ∀ s s', slave_loop sch l s = Ret (true, s') → adv_resched_loop sch l s = Ret (tt, s').
Proof.
  induction l as [|e l IH]; intros s s'; cbn [slave_loop adv_resched_loop].
  - unfold sched_insert_tail, mbind, M_bind, modify. cbn. intros E. injection E as <-. reflexivity.
  - intros Hs. unfold mbind, M_bind, get in Hs |- *. destruct (_ <? 0).
    + unfold sched_insert_before, modify in *. cbn in Hs. by injection Hs as <-.
    + destruct (ble_ll_sched_is_overlap _ _); [|exact (IH s s' Hs)].
      destruct (ble_ll_sched_conn_overlap e s) as [[[|] s1]|]; [exact (IH s1 s' Hs)|done|done].
Qed.

Lemma adv_resched_ok s (sch := SchAdv) :
  sched_ok base s → enqueued (item_of s sch) = false → reserves base s sch →
  (∀ e, e ∈ g_ble_ll_sched_q s → t_end base s sch ≠ t_start base s e) →
  (∀ e, e ∈ g_ble_ll_sched_q s → overlaps base s sch e → is_conn s e) →
  wp (ble_ll_sched_adv_reschedule sch) (λ rc s', sched_ok base s' ∧
    (rc = 0 ∧ (∃ B, replaced base (is_conn s) sch s s' B) ∨ rc = -1 ∧ unchanged s s')) s.
Proof.
  intros Hok Hen Hr Hto Hconn. unfold ble_ll_sched_adv_reschedule.
  apply wp_bind. eapply wp_mono; [apply (overlaps_current_ok base)|]. intros cur s3 Hs3.
  pose proof (sched_ok_clock base _ _ Hs3 Hok) as Hok3. destruct Hs3 as [H13 _].
  destruct cur; [apply wp_ret; split; [done|]; right; split; [done|]; by apply unchanged_same|].
  pose proof (ss_items _ _ H13) as Hit3.
  assert (∀ i, t_start base s3 i = t_start base s i ∧ t_end base s3 i = t_end base s i) as Ht3 by (intros; by apply times_ext).
  assert (reserves base s3 sch) as Hr3 by (unfold reserves; by destruct (Ht3 sch) as [-> ->]).
  apply wp_bind. unfold ble_ll_sched_insert_if_empty. apply wp_bind, wp_get.
  destruct (g_ble_ll_sched_q s3) as [|h q] eqn:Eq3; simpl head; cbv iota.
  - apply wp_bind, wp_modify, wp_bind, wp_modify, wp_ret, wp_bind, wp_ret.
    destruct (empty_ok base sch s3) as [Hk4 Hrep]; [apply Hok3|by rewrite Hit3|done|done|].
    apply wp_bind. eapply wp_mono; [eapply (sched_timer_start_ok base); [exact Hk4|apply Hok3| |done]|].
    + pose proof (so_timer _ _ Hok3) as Hts. unfold timer_serves in Hts. rewrite Eq3 in Hts. exact Hts.
    + intros _ s5 (H45 & Hc5 & Ht5 & _). apply wp_ret. split.
      * split; [by eapply queue_ok_same|done|done].
      * left. split; [done|]. exists []. by eapply replaced_conn_same.
  - apply wp_ret, wp_bind, wp_bind. eapply wp_mono; [apply sched_timer_stop_ok, Hok3|].
    intros _ s4 (H34 & Hc4 & Hi4). apply wp_bind, wp_get.
    pose proof (same_sched_trans _ _ _ H13 H34) as H14. pose proof (ss_items _ _ H14) as Hit4.
    assert (∀ i, t_start base s4 i = t_start base s i ∧ t_end base s4 i = t_end base s i) as Ht4 by (intros; by apply times_ext).
    destruct (Ht4 sch) as [Es Ee]. pose proof (queue_ok_same base _ _ _ H34 (so_queue _ _ Hok3)) as Hk4.
    assert (reserves base s4 sch) as Hr4 by (unfold reserves; by rewrite Es, Ee).
    assert (sch ∉ g_ble_ll_sched_q s4) as Hn by (rewrite (qk_enq _ _ _ Hk4), Hit4, Hen; done).
    assert (wp (slave_loop sch (g_ble_ll_sched_q s4)) (λ ok s', ok = true ∧ ∃ A B C, released B s4 s' ∧
      fits base (is_conn s4) sch s4 A B C ∧ g_ble_ll_sched_q s' = A ++ sch :: C) s4) as Hloop.
    { eapply wp_mono; [apply (slave_loop_ok base _ s4 _ s4 [] []); [|by apply released_nil|done]|].
      { split; simpl; try done; try apply Hk4; try by intros ? ?%not_elem_of_nil.
        intros e. rewrite (ss_q _ _ H14). destruct (Ht4 e) as [-> _]. rewrite Ee. auto. }
      intros ok s' (A & B & C & Hrel & Hq & HB & Hres). destruct ok; [split; [done|]; exists A, B, C; by destruct Hres|].
      exfalso. destruct Hres as (_ & e & He & Hov & Hnc). apply Hnc. unfold is_conn. rewrite Hit4. apply Hconn.
      - rewrite <- (ss_q _ _ H14), Hq. set_solver.
      - unfold overlaps in *. destruct (Ht4 e) as [E1 E2]. by rewrite Es, Ee, E1, E2 in Hov. }
    apply wp_run in Hloop as (ok & s5 & Hrun & -> & A & B & C & Hrel & Hfit & Hq5).
    apply wp_bind. eapply wp_eq; [by apply slave_loop_adv|]. apply wp_bind, wp_modify.
    destruct (fits_queue_ok base (is_conn s4) sch s4 (upd_item sch (set_enqueued true) s5) A B C) as [Hk6 Hrep];
      [done|by rewrite Hit4|done|done|done|apply swapped_enqueue; [|done]| |].
    { intros HB. apply Hn. rewrite (ft_q _ _ _ _ _ _ _ Hfit). set_solver. }
    { intros e He Hty. apply (rl_evq _ _ _ Hrel). right. by exists e. }
    assert (timer_idle (upd_item sch (set_enqueued true) s5)) as Hi6.
    { eapply timer_idle_cpu; [|exact Hi4]. rewrite upd_item_cpu. apply (rl_cpu _ _ _ Hrel). }
    eapply wp_mono; [apply (restart_ok base _ (λ s', sched_ok base s' ∧ replaced base (is_conn s) sch s s' B));
      [done|by rewrite upd_item_cpu, (rl_cpu _ _ _ Hrel)|done|rewrite upd_item_q, Hq5; by destruct A|]|].
    + intros s7 Hs7 Hok7. split; [done|]. eapply replaced_conn_same; [exact H14|exact Hs7|exact Hrep].
    + intros f s7 H7. apply wp_bind. eapply wp_mono; [exact H7|]. intros [] s8 [Hok8 Hrep8]. apply wp_ret.
      split; [done|]. left. split; [done|]. by exists B.
Qed.

(** ** A new master connection *)

(** The time it asks for: after the connect request, and after the running event. *)
Definition master_start (c : nat) (adv_rxend : Z) (s : ll_st) : Z :=
  let earliest := u32 (adv_rxend + u32 ((BLE_LL_IFS + BLE_LL_CONN_REQ_DURATION + BLE_LL_CONN_INITIAL_OFFSET) *
                                        ticks_per_usec (ll_cpu s))) in
  match g_ble_ll_conn_cur_sm s with
  | Some k =>
      if (ll_state s =? BLE_LL_STATE_CONNECTION) && (0 <=? time_diff (ce_end_time (conn_of s k)) earliest)
      then ce_end_time (conn_of s k) else earliest
  | None => earliest
  end.
Definition master_dur (req_slots : Z) (s : ll_st) : Z :=
  u32 (req_slots * BLE_LL_SCHED_USECS_PER_SLOT * ticks_per_usec (ll_cpu s)).
Definition master_request (c : nat) (adv_rxend req_slots : Z) (s : ll_st) : ll_st :=
  let start := master_start c adv_rxend s in
  upd_item (SchConn c) (set_times start (u32 (start + master_dur req_slots s))) s.

Lemma item_of_timing c w a e s i : item_of (upd_conn c (λ k, set_conn_timing (w k) (a k) (e k) k) s) i = item_of s i.
Proof.
  destruct i as [|d]; simpl; [done|]. rewrite conn_of_upd. by case_decide; subst.
Qed.

(** What follows once the item has its place at the head of the queue. *)
Lemma master_finish c s s4 (st en : Z) :
  queue_ok base None s → enqueued (item_of s (SchConn c)) = false →
  let s1 := upd_item (SchConn c) (set_times st en) s in
  reserves base s1 (SchConn c) → (∀ e, e ∈ g_ble_ll_sched_q s → precedes base s1 (SchConn c) e) →
  g_ble_ll_sched_q s4 = SchConn c :: g_ble_ll_sched_q s → cpu_ok base (ll_cpu s4) → timer_idle s4 →
  (∀ i, i ≠ SchConn c → item_of s4 i = item_of s i) → enqueued (item_of s4 (SchConn c)) = true →
  wp (modify (upd_item (SchConn c) (set_times st en)) ;;
      t ← on_cpu (cputime_usecs_to_ticks XCVR_TX_SCHED_DELAY_USECS);
      modify (upd_conn c (λ k, set_conn_timing (tx_win_off k) (u32 (st + t)) en k)))
    (λ _, wp (sched_timer_start (SchConn c)) (λ _ s', sched_ok base s' ∧
       g_ble_ll_sched_q s' = SchConn c :: g_ble_ll_sched_q s)) s4.
Proof.
  intros Hk Hen s1 Hr Hpre Hq4 Hc4 Hi4 Hit Hen4. set (sch := SchConn c) in *.
  apply wp_bind, wp_modify, wp_bind, wp_ticks, wp_modify.
  match goal with |- wp _ _ ?x => set (s5 := x) end.
  assert (∀ i, item_of s5 i = item_of (upd_item sch (set_times st en) s4) i) as Hit5
    by (intros i; apply (item_of_timing c tx_win_off _ _ (upd_item sch (set_times st en) s4))).
  assert (∀ i, start_time (item_of s5 i) = start_time (item_of s1 i) ∧ end_time (item_of s5 i) = end_time (item_of s1 i) ∧
    enqueued (item_of s5 i) = if decide (i = sch) then true else enqueued (item_of s i)) as Hi5.
  { intros i. rewrite Hit5. unfold s1. rewrite !item_of_upd. destruct (decide (sch = i)) as [<-|Hne].
    - by rewrite decide_True.
    - rewrite decide_False by congruence. by rewrite Hit. }
  assert (g_ble_ll_sched_q s5 = sch :: g_ble_ll_sched_q s) as Hq5 by exact Hq4.
  assert (sch ∉ g_ble_ll_sched_q s) as Hn by (rewrite (qk_enq _ _ _ Hk), Hen; done).
  assert (queue_ok base None s5) as Hk5.
  { destruct Hk as [K1 K2 K3]. split; rewrite Hq5.
    - by apply NoDup_cons.
    - intros i _. destruct (Hi5 i) as (_ & _ & ->). rewrite elem_of_cons. case_decide; [naive_solver|].
      rewrite <- (K2 i) by done. naive_solver.
    - apply (ordered_ext base s1); [intros i _; destruct (Hi5 i) as (? & ? & _); done|].
      apply ordered_cons. split; [exact Hr|]. split; [|exact Hpre]. eapply ordered_ext; [|exact K3].
      intros i Hi. unfold s1. rewrite item_of_upd, decide_False by (intros <-; done). done. }
  eapply wp_mono; [eapply (sched_timer_start_ok base); [exact Hk5|exact Hc4|exact Hi4|exact Hq5]|].
  intros _ s6 (H56 & Hc6 & Ht6 & _). split; [|by rewrite (ss_q _ _ H56)].
  split; [by eapply queue_ok_same|done|done].
Qed.

(** A new master connection that comes before all queued items, in particular when there is
    none, gets the time it asks for. *)
Lemma master_new_ok c adv_rxend req_slots s (sch := SchConn c) (s1 := master_request c adv_rxend req_slots s) :
  sched_ok base s → enqueued (item_of s sch) = false →
  (ll_state s = BLE_LL_STATE_CONNECTION → is_Some (g_ble_ll_conn_cur_sm s)) →
  reserves base s1 sch → (∀ e, e ∈ g_ble_ll_sched_q s → t_end base s1 sch < t_start base s1 e) →
  wp (ble_ll_sched_master_new c adv_rxend req_slots) (λ rc s', rc = 0 ∧ sched_ok base s' ∧
    g_ble_ll_sched_q s' = sch :: g_ble_ll_sched_q s) s.
Proof.
  intros Hok Hen Hcur Hr Hpre. subst sch. unfold ble_ll_sched_master_new.
  apply wp_bind, wp_get, wp_bind, wp_ticks, wp_bind, wp_ticks, wp_bind, wp_ticks, wp_bind, wp_modify.
  match goal with |- wp _ _ ?x => set (s2 := x) end.
  set (st := master_start c adv_rxend s). set (en := u32 (st + master_dur req_slots s)).
  apply wp_bind, wp_gets, wp_bind.
  match goal with |- wp ?m ?Q s2 => assert (∀ R, R (st, en) s2 → wp m R s2) as Hst end.
  { intros R HR. unfold en, st, master_start, master_dur in HR. change (ll_state s2) with (ll_state s).
    revert HR. destruct (Z.eqb_spec (ll_state s) BLE_LL_STATE_CONNECTION) as [E|E]; intros HR.
    - destruct (Hcur E) as [k Ek]. unfold ble_ll_conn_get_ce_end_time. apply wp_bind, wp_bind, wp_get.
      change (g_ble_ll_conn_cur_sm s2) with (g_ble_ll_conn_cur_sm s). rewrite Ek in HR |- *. apply wp_ret, wp_ret.
      assert (ce_end_time (conn_of s2 k) = ce_end_time (conn_of s k)) as ->.
      { unfold s2, upd_item. rewrite conn_of_upd. by case_decide; subst. }
      cbn [andb] in HR. by destruct (0 <=? _).
    - apply wp_ret. destruct (g_ble_ll_conn_cur_sm s); exact HR. }
  apply Hst. cbv beta iota. clear Hst.
  assert (∀ i, i ≠ SchConn c → item_of s2 i = item_of s i) as Hi2.
  { intros i Hi. unfold s2. by rewrite item_of_upd, decide_False. }
  assert (g_ble_ll_sched_q s2 = g_ble_ll_sched_q s) as Hq2 by done.
  assert (ll_cpu s2 = ll_cpu s) as Hc2 by done.
  destruct Hok as [Hk Hc Ht].
  assert (∀ e, e ∈ g_ble_ll_sched_q s → precedes base s1 (SchConn c) e) as Hpre'
    by (intros e He; specialize (Hpre e He); unfold precedes; lia).
  assert (∀ s4, g_ble_ll_sched_q s4 = SchConn c :: g_ble_ll_sched_q s → cpu_ok base (ll_cpu s4) → timer_idle s4 →
    (∀ i, i ≠ SchConn c → item_of s4 i = item_of s i) → enqueued (item_of s4 (SchConn c)) = true →
    wp (modify (upd_item (SchConn c) (set_times st en)) ;;
      t ← on_cpu (cputime_usecs_to_ticks XCVR_TX_SCHED_DELAY_USECS);
      modify (upd_conn c (λ k, set_conn_timing (tx_win_off k) (u32 (st + t)) en k)))
    (λ _, wp (sched_timer_start (SchConn c) ;; mret 0) (λ rc s', rc = 0 ∧ sched_ok base s' ∧
       g_ble_ll_sched_q s' = SchConn c :: g_ble_ll_sched_q s)) s4) as Hfin.
  { intros s4 H1 H2 H3 H4 H5. eapply wp_mono; [by apply (master_finish c s s4 st en)|].
    intros u s5 H6. apply wp_bind. eapply wp_mono; [exact H6|]. intros [] s6 [H7 H8]. by apply wp_ret. }
  unfold ble_ll_sched_insert_if_empty. apply wp_bind, wp_bind, wp_get. rewrite Hq2.
  unfold timer_serves in Ht. destruct (g_ble_ll_sched_q s) as [|h q] eqn:Eq; simpl head; cbv iota.
  - apply wp_bind, wp_modify, wp_bind, wp_modify, wp_ret, wp_bind, wp_bind, wp_modify, wp_ret. cbn [Z.eqb].
    apply wp_bind, Hfin; [done|exact Hc|exact Ht| |].
    + intros i Hi. rewrite (item_of_timing c (λ _, 0) anchor_point ce_end_time), item_of_upd, decide_False by done. by apply Hi2.
    + rewrite (item_of_timing c (λ _, 0) anchor_point ce_end_time), item_of_upd, decide_True; done.
  - apply wp_ret, wp_bind, wp_bind. eapply wp_mono; [apply (sched_timer_stop_ok base); exact Hc|].
    intros _ s3 (H23 & Hc3 & Hi3). pose proof (ss_items _ _ H23) as Hit3.
    apply wp_bind, wp_get. rewrite (ss_q _ _ H23), Hq2. cbn [master_loop].
    apply wp_bind, wp_bind, wp_modify, wp_bind, wp_get.
    set (s4 := upd_item (SchConn c) (set_times st en) s3).
    assert (∀ i, item_of s4 i = if decide (i = SchConn c) then set_times st en (item_of s3 i) else item_of s i) as Hit4.
    { intros i. unfold s4. rewrite item_of_upd. destruct (decide (SchConn c = i)) as [<-|Hne]; [by rewrite decide_True|].
      rewrite decide_False by congruence. rewrite Hit3. by apply Hi2. }
    assert (∀ i, t_start base s4 i = t_start base s1 i ∧ t_end base s4 i = t_end base s1 i) as Ht4.
    { intros i. unfold t_start, t_end. rewrite Hit4. unfold s1, master_request. rewrite item_of_upd.
      destruct (decide (SchConn c = i)) as [<-|Hne]; [by rewrite decide_True|by rewrite decide_False by congruence]. }
    assert (h ≠ SchConn c) as Hhc.
    { intros ->. pose proof (proj1 (qk_enq _ _ _ Hk (SchConn c) ltac:(done))) as He. rewrite Eq, Hen in He.
      specialize (He ltac:(by left)). done. }
    assert (reserves base s4 h) as Hrh.
    { assert (reserves base s h) as Hh by (eapply ordered_elem; [apply Hk|rewrite Eq; by left]).
      unfold reserves, t_start, t_end in *. by rewrite Hit4, decide_False. }
    assert (reserves base s4 (SchConn c)) as Hrc by (unfold reserves; by destruct (Ht4 (SchConn c)) as [-> ->]).
    rewrite (ends_before_spec base s4) by done.
    destruct (Ht4 (SchConn c)) as [_ ->], (Ht4 h) as [-> _].
    specialize (Hpre h ltac:(by left)) as Hlt. rewrite (proj2 (Z.ltb_lt _ _) Hlt).
    rewrite Z.sub_diag. change (u32 0) with 0. rewrite (proj2 (Z.leb_le 0 (u32 _))) by (apply u32_bound).
    apply wp_bind. unfold sched_insert_before. apply wp_modify, wp_ret, wp_bind, wp_ret. cbn [Z.eqb].
    apply wp_bind, wp_bind, wp_modify, wp_bind, wp_ticks, wp_modify, wp_bind.
    match goal with |- wp _ _ ?x => set (s5 := x) end.
    assert (g_ble_ll_sched_q s5 = SchConn c :: h :: q) as Hq5.
    { unfold s5, s4. cbn. rewrite (ss_q _ _ H23), Hq2. cbn. by rewrite bool_decide_true. }
    unfold sched_first. apply wp_bind, wp_get. rewrite Hq5. apply wp_ret, wp_ret. cbn [Z.eqb]. apply wp_bind, Hfin.
    + exact Hq5.
    + exact Hc3.
    + exact Hi3.
    + intros i Hi. unfold s5.
      rewrite (item_of_timing c (λ _, _) anchor_point ce_end_time), item_of_upd, decide_False by done.
      change (item_of (set_sched_q _ s4) i) with (item_of s4 i). by rewrite Hit4, decide_False.
    + unfold s5. rewrite (item_of_timing c (λ _, _) anchor_point ce_end_time), item_of_upd, decide_True; done.
Qed.

(** ** The interrupt of the timer *)

(** Code that leaves the schedule and its timer alone. *)
Record sched_kept (s s' : ll_st) : Prop := {
  sk_q : g_ble_ll_sched_q s' = g_ble_ll_sched_q s;
  sk_items : ∀ i, item_of s' i = item_of s i;
  sk_timer : timer_of (ll_cpu s') g_ble_ll_sched_timer = timer_of (ll_cpu s) g_ble_ll_sched_timer;
  sk_cpu : cpu_queued base (ll_cpu s');
}.
Definition leaves_schedule {A} (m : L A) : Prop := ∀ s, cpu_queued base (ll_cpu s) → wp m (λ _ s', sched_kept s s') s.

Lemma kept_same s s' : cpu_queued base (ll_cpu s) → g_ble_ll_sched_q s' = g_ble_ll_sched_q s →
  (∀ i, item_of s' i = item_of s i) → ll_cpu s' = ll_cpu s → sched_kept s s'.
Proof. intros H1 H2 H3 H4. split; rewrite ?H4; done. Qed.

Lemma kept_trans s1 s2 s3 : sched_kept s1 s2 → sched_kept s2 s3 → sched_kept s1 s3.
Proof. intros [? H1 ? ?] [? H2 ? ?]. split; [congruence| |congruence|done]. intros i. by rewrite H2. Qed.

Lemma leaves_ret {A} (a : A) : leaves_schedule (mret a).
Proof. intros s H. by apply wp_ret, kept_same. Qed.
Lemma leaves_bind {A B} (m : L A) (f : A → L B) :
  leaves_schedule m → (∀ a, leaves_schedule (f a)) → leaves_schedule (m ≫= f).
Proof.
  intros Hm Hf s Hs. apply wp_bind. eapply wp_mono; [by apply Hm|]. intros a s1 H1. cbv beta in H1.
  eapply wp_mono; [apply Hf, (sk_cpu _ _ H1)|]. intros b s2 H2. by eapply kept_trans.
Qed.
Lemma leaves_get {A} (f : ll_st → L A) : (∀ s, leaves_schedule (f s)) → leaves_schedule (s ← get; f s).
Proof. intros Hf s Hs. apply wp_bind, wp_get. by apply Hf. Qed.
Lemma leaves_modify (f : ll_st → ll_st) :
  (∀ s, g_ble_ll_sched_q (f s) = g_ble_ll_sched_q s ∧ (∀ i, item_of (f s) i = item_of s i) ∧ ll_cpu (f s) = ll_cpu s) →
  leaves_schedule (modify f).
Proof. intros Hf s Hs. apply wp_modify. destruct (Hf s) as (? & ? & ?). by apply kept_same. Qed.

Lemma leaves_send ev : leaves_schedule (ble_ll_event_send ev).
Proof. unfold ble_ll_event_send. apply leaves_modify. intros s. by case_decide. Qed.

Lemma leaves_wfr_disable : leaves_schedule ble_ll_wfr_disable.
Proof.
  intros s Hs. unfold ble_ll_wfr_disable. apply wp_on_cpu. eapply wp_mono; [by apply (timer_stop_queued base)|].
  intros [] c ((Hq & _) & _ & _ & _ & _ & Ho). split; [done|done| |done]. by apply Ho.
Qed.

Lemma leaves_event_halt : leaves_schedule ble_ll_conn_event_halt.
Proof.
  unfold ble_ll_conn_event_halt. apply leaves_bind; [by apply leaves_modify|]. intros _. apply leaves_get. intros s.
  destruct (g_ble_ll_conn_cur_sm s) as [c|]; [|apply leaves_ret].
  apply leaves_bind.
  - apply leaves_modify. intros s1. split; [done|]. split; [|done]. intros [|d]; [done|]. cbn. rewrite conn_of_upd.
    by case_decide; subst.
  - intros _. apply leaves_bind; [apply leaves_send|]. intros _. by apply leaves_modify.
Qed.

Lemma leaves_execute phy cb sch s :
  leaves_schedule phy → (∀ f i, leaves_schedule (cb f i)) → cpu_queued base (ll_cpu s) → is_Some (sched_cb (item_of s sch)) →
  wp (ble_ll_sched_execute_item phy cb sch) (λ _ s', sched_kept s s') s.
Proof.
  intros Hphy Hcb Hs [f Hf]. unfold ble_ll_sched_execute_item. apply wp_bind, wp_gets, wp_bind.
  match goal with |- wp ?m _ _ => assert (leaves_schedule m) as Hm end.
  { destruct (negb _); [|apply leaves_ret].
    apply leaves_bind; [done|]. intros _. apply leaves_bind; [apply leaves_wfr_disable|]. intros _.
    destruct (_ || _); [by apply leaves_modify|]. destruct (_ =? _).
    - apply leaves_bind; [by apply leaves_modify|]. intros _. unfold ble_ll_adv_halt, ble_ll_adv_tx_done.
      apply leaves_bind; [apply leaves_send|]. intros _. by apply leaves_modify.
    - apply leaves_bind; [apply leaves_event_halt|]. intros _. by apply leaves_modify. }
  eapply wp_mono; [by apply Hm|]. intros u1 s1 H1. cbv beta in H1. apply wp_bind, wp_get, wp_bind.
  rewrite (sk_items _ _ H1), Hf. cbn. apply wp_ret.
  eapply wp_mono; [apply Hcb, (sk_cpu _ _ H1)|]. intros rc s2 H2. by eapply kept_trans.
Qed.

(** The scheduler runs the items whose time has come, from the first on, takes them off the
    queue, and starts its timer for the first one that is left. *)
Lemma run_loop_ok phy cb : leaves_schedule phy → (∀ f i, leaves_schedule (cb f i)) → ∀ fuel s,
  (length (g_ble_ll_sched_q s) <= fuel)%nat → queue_ok base None s → cpu_queued base (ll_cpu s) → timer_idle s →
  (∀ i, i ∈ g_ble_ll_sched_q s → is_Some (sched_cb (item_of s i))) →
  wp (sched_run_loop phy cb fuel) (λ _ s', queue_ok base None s' ∧ cpu_queued base (ll_cpu s') ∧ timer_serves s' ∧
    (∃ k, g_ble_ll_sched_q s' = drop k (g_ble_ll_sched_q s)) ∧
    ∀ i, t_start base s' i = t_start base s i ∧ t_end base s' i = t_end base s i) s.
Proof.
  intros Hphy Hcb. induction fuel as [|fuel IH]; intros s Hlen Hk Hc Hi Hf; cbn [sched_run_loop];
    apply wp_bind, wp_get; (destruct (g_ble_ll_sched_q s) as [|h q] eqn:Eq; cbn [head]; cbv iota; cbn [length] in Hlen;
      [apply wp_ret; split; [done|]; split; [done|]; split; [unfold timer_serves; by rewrite Eq|];
       split; [by exists O; rewrite Eq|done]|]); [lia|].
  apply wp_bind, wp_on_cpu. eapply wp_eq; [apply get32_run|].
  set (s1 := set_ll_cpu (set_hw tick_hw (ll_cpu s)) s).
  assert (cpu_queued base (ll_cpu s1)) as Hc1 by (destruct Hc as [C1 C2 C3 C4]; by split).
  destruct (0 <=? _).
  - apply wp_bind. eapply wp_mono; [apply leaves_execute; [done|done|done|]|].
    { change (item_of s1 h) with (item_of s h). apply Hf. by left. }
    intros rc s2 [K1 K2 K3 K4]. unfold sched_remove. apply wp_bind, wp_bind, wp_get, wp_bind. rewrite K1.
    change (g_ble_ll_sched_q s1) with (g_ble_ll_sched_q s). rewrite Eq. cbn [list_remove]. rewrite decide_True by done.
    apply wp_ret, wp_modify, wp_bind, wp_modify.
    assert (∀ i, item_of s2 i = item_of s i) as same_items by (intros i; rewrite K2; done).
    assert (queue_ok base None (set_sched_q (h :: q) s2)) as Hk2.
    { destruct Hk as [Q1 Q2 Q3]. rewrite Eq in *. split; [done| |].
      - intros i. change (item_of (set_sched_q _ s2) i) with (item_of s2 i). rewrite same_items. apply Q2.
      - eapply ordered_ext; [|exact Q3]. intros i _. change (item_of (set_sched_q _ s2) i) with (item_of s2 i).
        by rewrite same_items. }
    destruct (queue_ok_remove base (set_sched_q (h :: q) s2) h q Hk2) as (Hk3 & _ & Ht3).
    { cbn. by rewrite decide_True. }
    set (s3 := upd_item h (set_enqueued false) (set_sched_q q s2)).
    assert (∀ i, t_start base s3 i = t_start base s i ∧ t_end base s3 i = t_end base s i) as Ht.
    { intros i. specialize (Ht3 i). unfold t_start, t_end in *.
      change (item_of (set_sched_q (h :: q) s2) i) with (item_of s2 i) in Ht3. rewrite same_items in Ht3. exact Ht3. }
    assert (g_ble_ll_sched_q s3 = q) as Hq3 by (unfold s3; by rewrite upd_item_q).
    assert (ll_cpu s3 = ll_cpu s2) as Hc3 by (unfold s3; by rewrite upd_item_cpu).
    eapply wp_mono; [apply (IH s3)|].
    + rewrite Hq3. lia.
    + exact Hk3.
    + by rewrite Hc3.
    + unfold timer_idle. rewrite Hc3, K3. exact Hi.
    + intros i Hin. unfold s3. rewrite item_of_upd. change (item_of (set_sched_q _ s2) ?x) with (item_of s2 x).
      rewrite Hq3 in Hin. assert (is_Some (sched_cb (item_of s2 i))) by (rewrite same_items; apply Hf; by right).
      case_decide as E; [by subst i|done].
    + intros _ s4 (R1 & R2 & R3 & (k & R4) & R5). split; [done|]. split; [done|]. split; [done|].
      split; [exists (S k); by rewrite R4, Hq3|]. intros i. destruct (R5 i) as [-> ->]. apply Ht.
  - assert (in_window base (start_time (item_of s h))) as Hw.
    { apply reserves_start. eapply ordered_elem; [apply Hk|]. rewrite Eq. by left. }
    unfold sched_timer_start. apply wp_bind, wp_get, wp_on_cpu.
    eapply wp_mono; [apply (timer_start_queued base); [exact Hc1|exact Hi|exact Hw]|].
    intros [] c ((Hq' & _) & _ & Ht & _). split; [destruct Hk as [Q1 Q2 Q3]; by split|]. split; [done|].
    split; [|split; [by exists O|done]].
    unfold timer_serves, s1. cbn [ll_cpu set_ll_cpu g_ble_ll_sched_q]. rewrite Eq, Ht. split; [done|]. by destruct h.
Qed.

(** What cputime_chk_expiration does when the scheduler's timer has expired: the timer is
    taken off the timer queue, its callback, ble_ll_sched_run, is called, and at the end the
    compare register is armed for the first timer. *)
Definition sched_timer_expires (phy : L unit) (cb : nat → sched_id → L Z) (fuel : nat) : L unit :=
  on_cpu (unlink_timer g_ble_ll_sched_timer) ;;
  ble_ll_sched_run phy cb fuel ;;
  c ← gets cpu_of;
  on_cpu (match g_cputimer_q c return T unit with
          | t :: _ => cputime_set_ocmp t
          | [] => cputime_disable_ocmp
          end).

Lemma timer_expires_ok phy cb s :
  leaves_schedule phy → (∀ f i, leaves_schedule (cb f i)) → sched_ok base s → g_ble_ll_sched_q s ≠ [] →
  (∀ i, i ∈ g_ble_ll_sched_q s → is_Some (sched_cb (item_of s i))) →
  wp (sched_timer_expires phy cb (length (g_ble_ll_sched_q s))) (λ _ s', sched_ok base s' ∧
    (∃ k, g_ble_ll_sched_q s' = drop k (g_ble_ll_sched_q s)) ∧
    ∀ i, t_start base s' i = t_start base s i ∧ t_end base s' i = t_end base s i) s.
Proof.
  intros Hphy Hcb [Hk Hc Ht] Hne Hf. pose proof Hc as [Hcq _]%cpu_ok_split.
  assert (tm_linked (timer_of (ll_cpu s) g_ble_ll_sched_timer) = true) as Hl.
  { unfold timer_serves in Ht. by destruct (g_ble_ll_sched_q s); [|apply Ht]. }
  apply (cq_linked _ _ Hcq) in Hl. destruct (list_remove_is_Some _ _ Hl) as [tq Htq].
  unfold sched_timer_expires. apply wp_bind, wp_on_cpu. eapply wp_eq; [by apply unlink_timer_run|].
  apply wp_bind. set (s1 := set_ll_cpu _ s).
  eapply wp_mono; [apply (run_loop_ok phy cb Hphy Hcb _ s1); [done| | | |exact Hf]|].
  - destruct Hk as [Q1 Q2 Q3]. by split.
  - eapply cpu_queued_unlink; [exact Hcq|exact Htq|done|done].
  - unfold timer_idle, s1. cbn [ll_cpu set_ll_cpu]. by rewrite timer_unlinked_of, decide_True.
  - intros _ s2 (H1 & H2 & H3 & H4 & H5). apply wp_bind, wp_gets, wp_on_cpu.
    eapply wp_mono; [apply (arm_first_ok base), H2|]. intros [] c (Hc' & Htm & _).
    split; [|by split]. split; [destruct H1 as [Q1 Q2 Q3]; by split|done|].
    unfold timer_serves, timer_idle in *. cbn [ll_cpu set_ll_cpu g_ble_ll_sched_q]. by rewrite Htm.
Qed.

End base.

(** ** The schedule over time *)

(** The operations of the scheduler, and what their callers see to: the item is not in
    the schedule, its times lie in the window, and it does not end exactly when a queued
    item starts.  A new master connection comes before the queued items, and the advertising
    event that is under way overlaps connections only.  [OpExpire] is the interrupt of the
    timer; the radio driver and the callbacks of the items leave the schedule alone. *)
Inductive sched_op :=
| OpAdvNew
| OpAdvReschedule
| OpMasterNew (c : nat) (adv_rxend req_slots : Z)
| OpSlaveNew (c : nat)
| OpReschedule (c : nat)
| OpRemove (i : sched_id)
| OpExpire (phy : L unit) (cb : nat → sched_id → L Z).

Definition do_op (o : sched_op) : M ll_st Z :=
  match o with
  | OpAdvNew => ble_ll_sched_adv_new SchAdv
  | OpAdvReschedule => ble_ll_sched_adv_reschedule SchAdv
  | OpMasterNew c adv_rxend req_slots => ble_ll_sched_master_new c adv_rxend req_slots
  | OpSlaveNew c => ble_ll_sched_slave_new c
  | OpReschedule c => ble_ll_sched_conn_reschedule c
  | OpRemove i => ble_ll_sched_rmv_elem (Some i) ;; mret 0
  | OpExpire phy cb => s ← get; sched_timer_expires phy cb (length (g_ble_ll_sched_q s)) ;; mret 0
  end.

(** A connection that runs is known. *)
Definition current_known (s : ll_st) : Prop :=
  ll_state s = BLE_LL_STATE_CONNECTION → is_Some (g_ble_ll_conn_cur_sm s).
(** The item is not in the schedule, and its times, which those of [s1] are, do not touch it. *)
Definition item_ready (base : Z) (sch : sched_id) (s s1 : ll_st) : Prop :=
  enqueued (item_of s sch) = false ∧ reserves base s1 sch ∧
  ∀ e, e ∈ g_ble_ll_sched_q s → t_end base s1 sch ≠ t_start base s1 e.

Definition admissible (base : Z) (o : sched_op) (s : ll_st) : Prop :=
  match o with
  | OpAdvNew =>
      let s1 := adv_request s in
      let d := u32 (end_time (item_of s SchAdv) - start_time (item_of s SchAdv)) in
      enqueued (item_of s SchAdv) = false ∧ current_known s ∧
      reserves base s1 SchAdv ∧ t_end base s1 SchAdv = t_start base s1 SchAdv + d ∧
      (∀ e, e ∈ g_ble_ll_sched_q s → t_end base s e + d < 2147483648) ∧
      no_touch base s1 SchAdv d (g_ble_ll_sched_q s)
  | OpAdvReschedule =>
      item_ready base SchAdv s s ∧ ∀ e, e ∈ g_ble_ll_sched_q s → overlaps base s SchAdv e → is_conn s e
  | OpMasterNew c adv_rxend req_slots =>
      let s1 := master_request c adv_rxend req_slots s in
      enqueued (item_of s (SchConn c)) = false ∧ current_known s ∧ reserves base s1 (SchConn c) ∧
      ∀ e, e ∈ g_ble_ll_sched_q s → t_end base s1 (SchConn c) < t_start base s1 e
  | OpSlaveNew c => item_ready base (SchConn c) s (slave_request c s)
  | OpReschedule c => item_ready base (SchConn c) s (resched_request c s) ∧ current_known s
  | OpRemove _ => True
  | OpExpire phy cb =>
      g_ble_ll_sched_q s ≠ [] ∧ (∀ i, i ∈ g_ble_ll_sched_q s → is_Some (sched_cb (item_of s i))) ∧
      leaves_schedule base phy ∧ ∀ f i, leaves_schedule base (cb f i)
  end.

(** The rest of the link layer: the state machines move on, the counter is read and other
    timers are started and stopped, but the items that are in the schedule, the flags and the
    timer of the scheduler are the scheduler's. *)
Record ll_moves (base : Z) (s s' : ll_st) : Prop := {
  lm_q : g_ble_ll_sched_q s' = g_ble_ll_sched_q s;
  lm_items : ∀ i, i ∈ g_ble_ll_sched_q s → item_of s' i = item_of s i;
  lm_enq : ∀ i, enqueued (item_of s' i) = enqueued (item_of s i);
  lm_timer : timer_of (ll_cpu s') g_ble_ll_sched_timer = timer_of (ll_cpu s) g_ble_ll_sched_timer;
  lm_cpu : cpu_ok base (ll_cpu s');
}.

(** Time passes: the window moves on, as far as the first of the queued items and of the
    running timers. *)
Definition window_moves (base k : Z) (s : ll_st) : Prop :=
  0 <= k ∧ (∀ i, i ∈ g_ble_ll_sched_q s → k <= t_start base s i) ∧
  (∀ t, t ∈ g_cputimer_q (ll_cpu s) → k <= expiry base (ll_cpu s) t).

Inductive sched_step : Z * ll_st → Z * ll_st → Prop :=
| step_op base s o rc s' : admissible base o s → do_op o s = Ret (rc, s') → sched_step (base, s) (base, s')
| step_ll base s s' : ll_moves base s s' → sched_step (base, s) (base, s')
| step_time base s k : window_moves base k s → sched_step (base, s) (u32 (base + k), s).

Lemma sched_ok_moves base s s' : ll_moves base s s' → sched_ok base s → sched_ok base s'.
Proof.
  intros [Hq Hi He Ht Hc] [[K1 K2 K3] H2 H3]. split; [split|done|]; rewrite ?Hq.
  - done.
  - intros i. rewrite He. apply K2.
  - eapply ordered_ext; [|done]. intros i Hin. by rewrite Hi.
  - unfold timer_serves, timer_idle in *. rewrite Hq, Ht. destruct (g_ble_ll_sched_q s) as [|h l]; [done|].
    rewrite Hi; [done|]. by left.
Qed.

Lemma sched_ok_shift base k s : window_moves base k s → sched_ok base s → sched_ok (u32 (base + k)) s.
Proof.
  intros (Hk & Hq & Ht) [[K1 K2 K3] H2 H3].
  assert (∀ i, i ∈ g_ble_ll_sched_q s → t_start (u32 (base + k)) s i = t_start base s i - k ∧
    t_end (u32 (base + k)) s i = t_end base s i - k) as Hs.
  { intros i Hi. specialize (Hq i Hi). pose proof (ordered_elem base s _ i K3 Hi) as Hr.
    unfold reserves, t_start, t_end, ticks_until in *. wrap_lia. }
  split; [split; [done|done|]|by apply cpu_ok_shift|done].
  clear -K3 Hs Hq Hk. induction (g_ble_ll_sched_q s) as [|h q IH]; [by split; constructor|].
  apply ordered_cons in K3 as (O1 & O2 & O3). apply ordered_cons.
  destruct (Hs h ltac:(by left)) as [E1 E2]. specialize (Hq h ltac:(by left)) as Hh. split; [|split].
  - unfold reserves in *. lia.
  - apply IH; try exact O2; intros i Hi; first [apply Hq; by right|apply Hs; by right].
  - intros i Hi. specialize (O3 i Hi). destruct (Hs i ltac:(by right)) as [E3 E4]. unfold precedes in *. lia.
Qed.

Lemma do_op_ok base o s : sched_ok base s → admissible base o s → wp (do_op o) (λ _ s', sched_ok base s') s.
Proof.
  intros Hok. destruct o as [| |c r n|c|c|i|phy cb]; cbn [admissible do_op].
  - intros (? & ? & ? & ? & ? & ?). eapply wp_mono; [by apply adv_new_ok|]. intros rc s' (_ & Hsd & _). apply Hsd.
  - intros ((? & ? & ?) & ?). eapply wp_mono; [by apply adv_resched_ok|]. by intros rc s' [? _].
  - intros (? & ? & ? & ?). eapply wp_mono; [by apply (master_new_ok base)|]. by intros rc s' (_ & ? & _).
  - intros (? & ? & ?). eapply wp_mono; [by apply slave_new_ok|]. by intros rc s' [? _].
  - intros ((? & ? & ?) & ?). eapply wp_mono; [by apply conn_reschedule_ok|]. by intros rc s' [? _].
  - intros _. apply wp_bind. eapply wp_mono; [by apply rmv_elem_ok|]. intros [] s' [Hs' _]. by apply wp_ret.
  - intros (? & ? & ? & ?). apply wp_bind, wp_get, wp_bind. eapply wp_mono; [by apply (timer_expires_ok base)|].
    intros [] s' [Hs' _]. by apply wp_ret.
Qed.

Lemma sched_step_ok p p' : sched_step p p' → sched_ok p.1 p.2 → sched_ok p'.1 p'.2.
Proof.
  intros [base s o rc s' Ha Hr|base s s' Hm|base s k Hk] Hok; cbn in *.
  - pose proof (do_op_ok _ _ _ Hok Ha) as H. unfold wp in H. by rewrite Hr in H.
  - by eapply sched_ok_moves.
  - by apply sched_ok_shift.
Qed.

Lemma ordered_disjoint base s q i j : ordered base s q → i ∈ q → j ∈ q → i ≠ j → ¬ overlaps base s i j.
Proof.
  induction q as [|k q IH]; intros Ho Hi Hj Hne; [by apply not_elem_of_nil in Hi|].
  apply ordered_cons in Ho as (_ & Ho & Hp). unfold precedes in Hp.
  apply elem_of_cons in Hi as [->|Hi]; apply elem_of_cons in Hj as [->|Hj]; [done| | |by apply IH];
    intros [? ?]; [specialize (Hp j Hj)|specialize (Hp i Hi)]; lia.
Qed.

(** C5. Whatever the link layer does with the scheduler as its operations require, while time
    passes, the radio is never reserved twice: no operation faults, the queued items stay
    pairwise disjoint and in the order of their times, an item's flag says whether it is
    queued, and the scheduler's timer is one of the timers in order and runs for the first item.
    What the operations require is [admissible]: a new item does not end exactly when a queued
    one starts and a new master connection comes before the queued items ([ble_sched_flaws]
    shows that the schedule goes wrong otherwise). *)
Theorem ble_sched_disjoint base0 s0 base s o :
  sched_ok base0 s0 → rtc sched_step (base0, s0) (base, s) →
  sched_ok base s ∧
  (∀ i j, i ∈ g_ble_ll_sched_q s → j ∈ g_ble_ll_sched_q s → i ≠ j → ¬ overlaps base s i j) ∧
  (admissible base o s → ∃ rc s', do_op o s = Ret (rc, s') ∧ sched_ok base s').
Proof.
  intros Hok Hrtc. assert (sched_ok base s) as Hok'.
  { remember (base0, s0) as p eqn:Ep. remember (base, s) as p' eqn:Ep'. revert base0 s0 Ep Hok.
    induction Hrtc as [p|p p1 p2 Hstep _ IH]; intros base0 s0 ->; [by injection Ep' as -> ->|].
    intros Hok. apply (sched_step_ok _ _ Hstep) in Hok. destruct p1 as [b1 s1]. by eapply IH. }
  split; [done|]. split.
  - intros i j. eapply ordered_disjoint, Hok'.
  - intros Ha. pose proof (do_op_ok _ _ _ Hok' Ha) as H. apply wp_run in H as (rc & s' & Hr & H). eauto.
Qed.

(** ** A concrete schedule *)

Module Demo.
(** A counter that starts at 1000 and advances by one tick at each access; one tick is a
    microsecond.  Three connections in the slave role, all serviced at different times,
    and an advertising event of 1000 ticks. *)
Definition hw0 : timer_hw := mk_hw (λ n, 1000 + Z.of_nat n) 0 0 0 false false false 4.
Definition cpu0 : cputime_st := mk_cputime 1 0 0 0 0 [] ∅ hw0.
Definition conn (c : nat) (anchor ce_end serviced : Z) : ble_ll_conn_sm :=
  mk_conn BLE_LL_CONN_ROLE_SLAVE 40 0 anchor ce_end serviced 0 false
    (mk_item BLE_LL_SCHED_TYPE_CONN false 0 0 c (Some 0%nat)).
Definition adv (st en : Z) : ble_ll_adv_sm :=
  mk_adv 0 0 0 (mk_item BLE_LL_SCHED_TYPE_ADV false st en 0 (Some 1%nat)).
Definition s0 : ll_st := mk_ll cpu0 [] (adv 5000 6000)
  (<[1%nat := conn 1 10190 12000 50]> (<[2%nat := conn 2 20190 22000 40]>
    (<[3%nat := conn 3 18190 21000 30]> ∅))) None BLE_LL_STATE_STANDBY [] 0 0.

(** The state after some operations; [s0] if one faults. *)
Definition after (ops : list sched_op) : ll_st :=
  foldl (λ s o, match do_op o s with Ret (_, s') => s' | Fault _ => s end) s0 ops.
Definition times (s : ll_st) : list (sched_id * Z * Z) :=
  map (λ i, (i, start_time (item_of s i), end_time (item_of s i))) (g_ble_ll_sched_q s).

Lemma s0_ok : sched_ok 0 s0.
Proof.
  split; [split| |done]; simpl.
  - constructor.
  - intros i _. split; [by intros ?%not_elem_of_nil|]. destruct i as [|c]; [done|]. simpl.
    destruct (decide (c = 1%nat)) as [->|]; [done|]. destruct (decide (c = 2%nat)) as [->|]; [done|].
    destruct (decide (c = 3%nat)) as [->|]; [done|]. unfold conn_of, s0; simpl.
    by rewrite !lookup_total_insert_ne by done.
  - by split; constructor.
  - split; simpl; [by apply NoDup_nil| |by apply SSorted_nil|by intros ? ?%not_elem_of_nil|done].
    intros t. split; [by intros ?%not_elem_of_nil|done].
Qed.
End Demo.

Definition demo_two : ll_st := Demo.after [OpSlaveNew 1; OpSlaveNew 2].

(** Deciding the side conditions on concrete states. *)
Lemma for_all_queued (P : sched_id → Prop) (l l' : list sched_id) : l = l' → Forall P l' → ∀ e, e ∈ l → P e.
Proof. intros ->. by rewrite Forall_forall. Qed.

Ltac for_each_queued :=
  match goal with
  | |- ∀ e, e ∈ ?l → _ =>
      let l' := eval vm_compute in l in
      apply (for_all_queued _ l l'); [vm_compute; reflexivity|]; repeat (apply Forall_cons; split);
      [..|apply Forall_nil; exact I]; cbv beta
  end.

Ltac sched_concrete :=
  repeat match goal with
  | |- _ ∧ _ => split
  | |- no_touch _ _ _ _ _ => unfold no_touch
  | |- item_ready _ _ _ _ => unfold item_ready
  | |- current_known _ => unfold current_known
  | |- reserves _ _ _ => split
  | |- ∀ e, e ∈ _ → _ => for_each_queued
  | |- _ < _ => vm_compute; reflexivity
  | |- _ ≠ _ => let H := fresh in intros H; vm_compute in H; discriminate H
  | |- _ → is_Some _ => let H := fresh in intros H; vm_compute in H; discriminate H
  | |- _ = _ => vm_compute; reflexivity
  end.

Lemma demo_step1 : sched_step (0, Demo.s0) (0, Demo.after [OpSlaveNew 1]).
Proof.
  apply (step_op 0 _ (OpSlaveNew 1) 0); [|vm_compute; reflexivity]. unfold admissible. sched_concrete.
Qed.
Lemma demo_step2 : sched_step (0, Demo.after [OpSlaveNew 1]) (0, demo_two).
Proof.
  apply (step_op 0 _ (OpSlaveNew 2) 0); [|vm_compute; reflexivity]. unfold admissible. sched_concrete.
Qed.
(** 9000 ticks pass. *)
Lemma demo_step3 : sched_step (0, demo_two) (9000, demo_two).
Proof.
  apply (step_time 0 demo_two 9000). split; [done|]. split.
  - for_each_queued; vm_compute; discriminate.
  - intros t Ht. assert (g_cputimer_q (ll_cpu demo_two) = [0%nat]) as E by (vm_compute; reflexivity). rewrite E in Ht.
    apply list_elem_of_singleton in Ht as ->. vm_compute. discriminate.
Qed.

Lemma demo_two_ok : sched_ok 0 demo_two.
Proof. apply (sched_step_ok _ _ demo_step2), (sched_step_ok _ _ demo_step1), Demo.s0_ok. Qed.

Lemma ble_sched_disjoint_witness : ∃ rc s', do_op (OpExpire (mret tt) (λ _ _, mret 0)) demo_two = Ret (rc, s') ∧
  sched_ok 9000 s'.
Proof.
  apply (ble_sched_disjoint 0 Demo.s0 9000 demo_two (OpExpire (mret tt) (λ _ _, mret 0))).
  - apply Demo.s0_ok.
  - eapply rtc_l; [apply demo_step1|]. eapply rtc_l; [apply demo_step2|]. eapply rtc_l; [apply demo_step3|]. apply rtc_refl.
  - split; [|split; [|split]].
    + intros E. vm_compute in E. discriminate E.
    + for_each_queued; exists 0%nat; vm_compute; reflexivity.
    + apply leaves_ret.
    + intros f i. apply leaves_ret.
Defined.

(** A new advertising event never fails: it is queued no earlier than asked (after the
    running connection event, if there is one) and for as long as asked, between the
    items that are over by then and those that start afterwards; nothing overlaps, the
    other items keep their times, the timer runs for the first item, and the advertiser
    is told the start of its event. *)
Theorem ble_adv_new_placed base s (d := u32 (end_time (item_of s SchAdv) - start_time (item_of s SchAdv))) :
  sched_ok base s → admissible base OpAdvNew s →
  ∃ s' q1 q2, ble_ll_sched_adv_new SchAdv s = Ret (0, s') ∧
    g_ble_ll_sched_q s = q1 ++ q2 ∧ g_ble_ll_sched_q s' = q1 ++ SchAdv :: q2 ∧
    ordered base s' (q1 ++ SchAdv :: q2) ∧ timer_serves s' ∧
    t_start base (adv_request s) SchAdv <= t_start base s' SchAdv ∧
    t_end base s' SchAdv = t_start base s' SchAdv + d ∧
    (∀ j, j ≠ SchAdv → item_of s' j = item_of s j) ∧
    adv_event_start_time (g_ble_ll_adv_sm s') =
      u32 (start_time (item_of s' SchAdv) + u32 (XCVR_TX_SCHED_DELAY_USECS * ticks_per_usec (ll_cpu s))).
Proof.
  intros Hok (A1 & A2 & A3 & Hd & A5 & A6).
  pose proof (adv_new_ok base s Hok) as H. apply wp_run in H as (rc & s' & Hrun & -> & Hsd & Ha); [|done..].
  destruct (adv_request_same s) as (Hq & _ & Ho & _).
  destruct Hsd as [Hok' (q1 & q2 & Q1 & Q2) H3 H4 H5].
  exists s', q1, q2. split; [done|]. split; [by rewrite <- Hq|]. split; [done|].
  split; [rewrite <- Q2; apply Hok'|]. split; [apply Hok'|]. split; [done|]. split; [unfold d; lia|].
  split; [|done]. intros j Hj. rewrite H3, Ho; done.
Qed.

Lemma ble_adv_new_placed_witness :
  ∃ s' q1 q2, ble_ll_sched_adv_new SchAdv demo_two = Ret (0, s') ∧
    g_ble_ll_sched_q demo_two = q1 ++ q2 ∧ g_ble_ll_sched_q s' = q1 ++ SchAdv :: q2.
Proof.
  destruct (ble_adv_new_placed 0 demo_two) as (s' & q1 & q2 & H1 & H2 & H3 & _).
  - apply demo_two_ok.
  - unfold admissible. sched_concrete.
  - exists s', q1, q2. auto.
Defined.

(** C28. A connection is rescheduled, with return value 0, if and only if its time has not
    passed, the event that is running does not last into it, and every item it overlaps is that
    of a connection serviced later than it.  Then it takes the place of exactly the items it
    overlaps, whose tasks are told that the event is over: it is queued after the items that end
    before it starts and before those that start after it ends.  Otherwise the return value is
    -1 and nothing changes but the times of the item.  (Provided that the item does not end
    exactly when a queued one starts: see [ble_sched_flaws].) *)
Theorem ble_conn_reschedule_lru base s c (sch := SchConn c) (s1 := resched_request c s) :
  sched_ok base s → admissible base (OpReschedule c) s →
  ∃ rc s', ble_ll_sched_conn_reschedule c s = Ret (rc, s') ∧ sched_ok base s' ∧
    (rc = 0 ↔ 0 <= time_diff (start_time (item_of s1 sch)) (counter s) ∧ ¬ in_the_way s1 sch ∧
       ∀ e, e ∈ g_ble_ll_sched_q s → overlaps base s1 sch e → sched_type (item_of s1 e) ≠ BLE_LL_SCHED_TYPE_ADV ∧
         ble_ll_conn_is_lru s1 (cb_arg (item_of s1 sch)) (cb_arg (item_of s1 e)) = true) ∧
    (rc = 0 → ∃ A B C, g_ble_ll_sched_q s = A ++ B ++ C ∧ g_ble_ll_sched_q s' = A ++ sch :: C ∧
       (∀ e, e ∈ A → precedes base s1 e sch) ∧ (∀ e, e ∈ C → precedes base s1 sch e) ∧
       (∀ e, e ∈ g_ble_ll_sched_q s → e ∈ B ↔ overlaps base s1 sch e) ∧
       (∀ e, e ∈ B → sched_type (item_of s1 e) = BLE_LL_SCHED_TYPE_CONN →
          EvConnEnd (cb_arg (item_of s1 e)) ∈ ll_evq s') ∧
       ∀ i, t_start base s' i = t_start base s1 i ∧ t_end base s' i = t_end base s1 i) ∧
    (rc ≠ 0 → rc = -1 ∧ g_ble_ll_sched_q s' = g_ble_ll_sched_q s ∧ (∀ i, item_of s' i = item_of s1 i) ∧
       ll_evq s' = ll_evq s).
Proof.
  intros Hok ((A1 & A2 & A3) & A4).
  pose proof (conn_reschedule_ok base s c Hok) as H.
  apply wp_run in H as (rc & s' & Hrun & Hok' & Hout); [|done..].
  exists rc, s'. split; [done|]. split; [done|].
  assert (g_ble_ll_sched_q s1 = g_ble_ll_sched_q s) as Hq by apply upd_item_q.
  assert (counter s1 = counter s) as Hc by (unfold counter, s1, resched_request; by rewrite upd_item_cpu).
  unfold resched_allowed, replaceable in Hout. fold sch s1 in Hout. rewrite Hc, Hq in Hout.
  destruct Hout as [(-> & Hall & B & HB)|(-> & Hno & U1 & U2 & U3)].
  - split; [done|]. split; [intros _|done].
    pose proof HB as [(A & C & R1 & R2 & RA & RC) R3 R4 R5]. exists A, B, C. rewrite <- Hq.
    split; [done|]. split; [done|]. split; [done|]. split; [done|]. split; [|done].
    intros e He. split; [intros Hb; by apply R3|]. intros Hov.
    eapply (replaced_allowed base sch s1 s' B); [done| |done|done|done].
    apply (ordered_others base s s1 sch); [|intros j Hj|rewrite Hq; apply Hok].
    { rewrite Hq, (qk_enq _ _ _ (so_queue _ _ Hok)) by done. unfold sch. by rewrite A1. }
    unfold s1, resched_request. by rewrite item_of_upd, decide_False.
  - split; [done|]. split; [done|]. intros _. split; [done|]. split; [by rewrite U1|]. split; [done|].
    rewrite U3. apply upd_item_evq.
Qed.

Lemma ble_conn_reschedule_lru_witness :
  ∃ s', ble_ll_sched_conn_reschedule 3 demo_two = Ret (0, s') ∧ sched_ok 0 s'.
Proof.
  destruct (ble_conn_reschedule_lru 0 demo_two 3) as (rc & s' & H1 & H2 & _).
  - apply demo_two_ok.
  - unfold admissible. sched_concrete.
  - exists s'. split; [|exact H2]. rewrite H1. do 2 f_equal. vm_compute in H1. congruence.
Defined.

(** Two flaws of the scheduler.  (1) An item that ends exactly when a queued item starts
    does not overlap it, but the test for inserting before an entry is strict: it is
    queued behind the later item, so the queue is out of order and the timer runs for
    the wrong item.  (2) A new master connection that fits into a queue that is not
    empty overwrites the times of the first item of the queue, another connection, with
    its own: the radio is reserved twice, with a return value of success. *)
Theorem ble_sched_flaws :
  (let s := upd_item SchAdv (set_times 9000 10000) (Demo.after [OpSlaveNew 1]) in
   Demo.times s = [(SchConn 1, 10000, 12000)] ∧
   ∃ s', ble_ll_sched_adv_new SchAdv s = Ret (0, s') ∧
     Demo.times s' = [(SchConn 1, 10000, 12000); (SchAdv, 9000, 10000)] ∧
     tm_cputime (timer_of (ll_cpu s') g_ble_ll_sched_timer) = 10000) ∧
  Demo.times demo_two = [(SchConn 1, 10000, 12000); (SchConn 2, 20000, 22000)] ∧
  ∃ s', ble_ll_sched_master_new 3 10000 3 demo_two = Ret (0, s') ∧
    Demo.times s' = [(SchConn 1, 12000, 15750); (SchConn 3, 12000, 15750); (SchConn 2, 20000, 22000)].
Proof.
  split; [split; [reflexivity|]|split; [reflexivity|]]; eexists; (split; [vm_compute; reflexivity|]).
  - split; vm_compute; reflexivity.
  - vm_compute; reflexivity.
Qed.
