(* ===== verification/BleAtt.v ===== *)
(** The formats of the BLE host: byte order (net/nimble/src/util.c), UUIDs
    (net/nimble/host/src/ble_uuid.c) and the headers of the attribute protocol
    (net/nimble/host/src/ble_att_cmd.c and .h).

    The functions work on a buffer the caller passes with its length; the buffer is the
    state, and an access outside of it is a fault. *)
From Stdlib Require Import ZArith Lia.
From stdpp Require Import base decidable numbers list.
From S2P Require Import Prelude.

#[local] Open Scope Z_scope.

(** ** The buffer *)

Abbreviation B := (M (list Z)) (only parsing).

Definition u8ptr (i : nat) : B Z := s ← get; from_option_fault FNull (s !! i).
Definition set_u8 (i : nat) (v : Z) : B unit :=
  s ← get; if decide (i < length s)%nat then modify (<[i := v]>) else fault_with FNull.

(** ** Byte order *)

Definition htole16 (i : nat) (x : Z) : B unit :=
  set_u8 i (u8 x) ;; set_u8 (i + 1) (u8 (Z.shiftr x 8)).
Definition htole32 (i : nat) (x : Z) : B unit :=
  set_u8 i (u8 x) ;; set_u8 (i + 1) (u8 (Z.shiftr x 8)) ;; set_u8 (i + 2) (u8 (Z.shiftr x 16)) ;;
  set_u8 (i + 3) (u8 (Z.shiftr x 24)).
Definition htole64 (i : nat) (x : Z) : B unit :=
  set_u8 i (u8 x) ;; set_u8 (i + 1) (u8 (Z.shiftr x 8)) ;; set_u8 (i + 2) (u8 (Z.shiftr x 16)) ;;
  set_u8 (i + 3) (u8 (Z.shiftr x 24)) ;; set_u8 (i + 4) (u8 (Z.shiftr x 32)) ;;
  set_u8 (i + 5) (u8 (Z.shiftr x 40)) ;; set_u8 (i + 6) (u8 (Z.shiftr x 48)) ;;
  set_u8 (i + 7) (u8 (Z.shiftr x 56)).

Definition le16toh (i : nat) : B Z :=
  a ← u8ptr i; b ← u8ptr (i + 1);
  mret (u16 (Z.lor a (Z.shiftl b 8))).
Definition le32toh (i : nat) : B Z :=
  a ← u8ptr i; b ← u8ptr (i + 1); c ← u8ptr (i + 2); d ← u8ptr (i + 3);
  mret (Z.lor (Z.lor (Z.lor a (u32 (Z.shiftl b 8))) (u32 (Z.shiftl c 16))) (u32 (Z.shiftl d 24))).
(** The last shift is by 54, as in the code. *)
Definition le64toh (i : nat) : B Z :=
  a ← u8ptr i; b ← u8ptr (i + 1); c ← u8ptr (i + 2); d ← u8ptr (i + 3);
  e ← u8ptr (i + 4); f ← u8ptr (i + 5); g ← u8ptr (i + 6); h ← u8ptr (i + 7);
  mret (Z.lor (Z.lor (Z.lor (Z.lor (Z.lor (Z.lor (Z.lor a (u64 (Z.shiftl b 8))) (u64 (Z.shiftl c 16)))
    (u64 (Z.shiftl d 24))) (u64 (Z.shiftl e 32))) (u64 (Z.shiftl f 40))) (u64 (Z.shiftl g 48)))
    (u64 (Z.shiftl h 54))).

(** ** Return codes *)
Definition BLE_HS_EAGAIN : Z := 1.
Definition BLE_HS_EINVAL : Z := 3.
Definition BLE_HS_EMSGSIZE : Z := 4.
Definition BLE_HS_ENOENT : Z := 5.
Definition BLE_HS_ENOMEM : Z := 6.
Definition BLE_HS_EBADDATA : Z := 10.

(** ** UUIDs *)
Definition ble_uuid_base : list Z :=
  [0xfb; 0x34; 0x9b; 0x5f; 0x80; 0x00; 0x00; 0x80; 0x00; 0x10; 0x00; 0x00; 0x00; 0x00; 0x00; 0x00].

Definition ble_uuid_128_to_16 : B Z :=
  s ← get;
  if decide (length s < 16)%nat then fault_with FNull
  else if decide (take 12 s = take 12 ble_uuid_base) then
    h ← u8ptr 14; l ← u8ptr 15;
    if negb (h =? 0) || negb (l =? 0) then mret 0 else le16toh 12
  else mret 0.

(** memcpy of the base, then the two bytes of the short form. *)
Definition ble_uuid_16_to_128 (uuid16 : Z) : B Z :=
  if uuid16 =? 0 then mret BLE_HS_EINVAL
  else
    s ← get;
    if decide (length s < 16)%nat then fault_with FNull
    else
      modify (λ s, ble_uuid_base ++ drop 16 s) ;;
      htole16 12 uuid16 ;;
      mret 0.

(** ** The attribute protocol: opcodes, sizes and headers *)

Definition BLE_ATT_OP_ERROR_RSP : Z := 1.
Definition BLE_ATT_OP_MTU_REQ : Z := 2.
Definition BLE_ATT_OP_MTU_RSP : Z := 3.
Definition BLE_ATT_OP_FIND_INFO_REQ : Z := 4.
Definition BLE_ATT_OP_FIND_INFO_RSP : Z := 5.
Definition BLE_ATT_OP_FIND_TYPE_VALUE_REQ : Z := 6.
Definition BLE_ATT_OP_READ_TYPE_REQ : Z := 8.
Definition BLE_ATT_OP_READ_TYPE_RSP : Z := 9.
Definition BLE_ATT_OP_READ_REQ : Z := 10.
Definition BLE_ATT_OP_READ_BLOB_REQ : Z := 12.
Definition BLE_ATT_OP_READ_MULT_REQ : Z := 14.
Definition BLE_ATT_OP_READ_MULT_RSP : Z := 15.
Definition BLE_ATT_OP_READ_GROUP_TYPE_REQ : Z := 16.
Definition BLE_ATT_OP_READ_GROUP_TYPE_RSP : Z := 17.
Definition BLE_ATT_OP_WRITE_REQ : Z := 18.
Definition BLE_ATT_OP_PREP_WRITE_REQ : Z := 22.
Definition BLE_ATT_OP_PREP_WRITE_RSP : Z := 23.
Definition BLE_ATT_OP_EXEC_WRITE_REQ : Z := 24.
Definition BLE_ATT_OP_EXEC_WRITE_RSP : Z := 25.
Definition BLE_ATT_OP_NOTIFY_REQ : Z := 27.
Definition BLE_ATT_OP_INDICATE_REQ : Z := 29.
Definition BLE_ATT_OP_INDICATE_RSP : Z := 30.
Definition BLE_ATT_OP_WRITE_CMD : Z := 82.

Definition BLE_ATT_ERROR_RSP_SZ : Z := 5.
Definition BLE_ATT_MTU_CMD_SZ : Z := 3.
Definition BLE_ATT_FIND_INFO_REQ_SZ : Z := 5.
Definition BLE_ATT_FIND_INFO_RSP_BASE_SZ : Z := 2.
Definition BLE_ATT_FIND_TYPE_VALUE_REQ_BASE_SZ : Z := 7.
Definition BLE_ATT_READ_TYPE_REQ_BASE_SZ : Z := 5.
Definition BLE_ATT_READ_TYPE_RSP_BASE_SZ : Z := 2.
Definition BLE_ATT_READ_REQ_SZ : Z := 3.
Definition BLE_ATT_READ_BLOB_REQ_SZ : Z := 5.
Definition BLE_ATT_READ_MULT_REQ_BASE_SZ : Z := 1.
Definition BLE_ATT_READ_MULT_RSP_BASE_SZ : Z := 1.
Definition BLE_ATT_READ_GROUP_TYPE_REQ_BASE_SZ : Z := 5.
Definition BLE_ATT_READ_GROUP_TYPE_RSP_BASE_SZ : Z := 2.
Definition BLE_ATT_WRITE_REQ_BASE_SZ : Z := 3.
Definition BLE_ATT_PREP_WRITE_CMD_BASE_SZ : Z := 5.
Definition BLE_ATT_EXEC_WRITE_REQ_SZ : Z := 2.
Definition BLE_ATT_EXEC_WRITE_RSP_SZ : Z := 1.
Definition BLE_ATT_NOTIFY_REQ_BASE_SZ : Z := 3.
Definition BLE_ATT_INDICATE_REQ_BASE_SZ : Z := 3.
Definition BLE_ATT_INDICATE_RSP_SZ : Z := 1.

Record ble_att_error_rsp := mk_error_rsp { baep_req_op : Z; baep_handle : Z; baep_error_code : Z }.
Record ble_att_mtu_cmd := mk_mtu_cmd { bamc_mtu : Z }.
Record ble_att_find_info_req := mk_find_info_req { bafq_start_handle : Z; bafq_end_handle : Z }.
Record ble_att_find_info_rsp := mk_find_info_rsp { bafp_format : Z }.
Record ble_att_find_type_value_req := mk_find_type_value_req { bavq_start_handle : Z; bavq_end_handle : Z; bavq_attr_type : Z }.
Record ble_att_read_type_req := mk_read_type_req { batq_start_handle : Z; batq_end_handle : Z }.
Record ble_att_read_type_rsp := mk_read_type_rsp { batp_length : Z }.
Record ble_att_read_req := mk_read_req { barq_handle : Z }.
Record ble_att_read_blob_req := mk_read_blob_req { babq_handle : Z; babq_offset : Z }.
Record ble_att_read_group_type_req := mk_read_group_type_req { bagq_start_handle : Z; bagq_end_handle : Z }.
Record ble_att_read_group_type_rsp := mk_read_group_type_rsp { bagp_length : Z }.
Record ble_att_write_req := mk_write_req { bawq_handle : Z }.
Record ble_att_prep_write_cmd := mk_prep_write_cmd { bapc_handle : Z; bapc_offset : Z }.
Record ble_att_exec_write_req := mk_exec_write_req { baeq_flags : Z }.
Record ble_att_notify_req := mk_notify_req { banq_handle : Z }.
Record ble_att_indicate_req := mk_indicate_req { baiq_handle : Z }.

(** ** Parsing and writing *)

Definition ble_att_error_rsp_parse (len : Z) : B (Z + ble_att_error_rsp) :=
  if len <? BLE_ATT_ERROR_RSP_SZ then mret (inl BLE_HS_EMSGSIZE)
  else op ← u8ptr 0;
    if negb (op =? BLE_ATT_OP_ERROR_RSP) then mret (inl BLE_HS_EINVAL)
    else a ← u8ptr 1; b ← le16toh 2; c ← u8ptr 4; mret (inr (mk_error_rsp a b c)).
Definition ble_att_error_rsp_write (len : Z) (r : ble_att_error_rsp) : B Z :=
  if len <? BLE_ATT_ERROR_RSP_SZ then mret BLE_HS_EMSGSIZE
  else set_u8 0 BLE_ATT_OP_ERROR_RSP ;; set_u8 1 (baep_req_op r) ;; htole16 2 (baep_handle r) ;; set_u8 4 (baep_error_code r) ;; mret 0.

Definition ble_att_mtu_cmd_parse (len : Z) : B (Z + ble_att_mtu_cmd) :=
  if len <? BLE_ATT_MTU_CMD_SZ then mret (inl BLE_HS_EMSGSIZE)
  else op ← u8ptr 0;
    if negb (op =? BLE_ATT_OP_MTU_REQ) && negb (op =? BLE_ATT_OP_MTU_RSP) then mret (inl BLE_HS_EINVAL)
    else a ← le16toh 1; mret (inr (mk_mtu_cmd a)).
Definition ble_att_mtu_req_write (len : Z) (r : ble_att_mtu_cmd) : B Z :=
  if len <? BLE_ATT_MTU_CMD_SZ then mret BLE_HS_EMSGSIZE
  else set_u8 0 BLE_ATT_OP_MTU_REQ ;; htole16 1 (bamc_mtu r) ;; mret 0.

Definition ble_att_mtu_rsp_write (len : Z) (r : ble_att_mtu_cmd) : B Z :=
  if len <? BLE_ATT_MTU_CMD_SZ then mret BLE_HS_EMSGSIZE
  else set_u8 0 BLE_ATT_OP_MTU_RSP ;; htole16 1 (bamc_mtu r) ;; mret 0.

Definition ble_att_find_info_req_parse (len : Z) : B (Z + ble_att_find_info_req) :=
  if len <? BLE_ATT_FIND_INFO_REQ_SZ then mret (inl BLE_HS_EMSGSIZE)
  else op ← u8ptr 0;
    if negb (op =? BLE_ATT_OP_FIND_INFO_REQ) then mret (inl BLE_HS_EINVAL)
    else a ← le16toh 1; b ← le16toh 3; mret (inr (mk_find_info_req a b)).
Definition ble_att_find_info_req_write (len : Z) (r : ble_att_find_info_req) : B Z :=
  if len <? BLE_ATT_FIND_INFO_REQ_SZ then mret BLE_HS_EMSGSIZE
  else set_u8 0 BLE_ATT_OP_FIND_INFO_REQ ;; htole16 1 (bafq_start_handle r) ;; htole16 3 (bafq_end_handle r) ;; mret 0.

Definition ble_att_find_info_rsp_parse (len : Z) : B (Z + ble_att_find_info_rsp) :=
  if len <? BLE_ATT_FIND_INFO_RSP_BASE_SZ then mret (inl BLE_HS_EMSGSIZE)
  else op ← u8ptr 0;
    if negb (op =? BLE_ATT_OP_FIND_INFO_RSP) then mret (inl BLE_HS_EINVAL)
    else a ← u8ptr 1; mret (inr (mk_find_info_rsp a)).
Definition ble_att_find_info_rsp_write (len : Z) (r : ble_att_find_info_rsp) : B Z :=
  if len <? BLE_ATT_FIND_INFO_RSP_BASE_SZ then mret BLE_HS_EMSGSIZE
  else set_u8 0 BLE_ATT_OP_FIND_INFO_RSP ;; set_u8 1 (bafp_format r) ;; mret 0.

Definition ble_att_find_type_value_req_parse (len : Z) : B (Z + ble_att_find_type_value_req) :=
  if len <? BLE_ATT_FIND_TYPE_VALUE_REQ_BASE_SZ then mret (inl BLE_HS_EMSGSIZE)
  else op ← u8ptr 0;
    if negb (op =? BLE_ATT_OP_FIND_TYPE_VALUE_REQ) then mret (inl BLE_HS_EINVAL)
    else a ← le16toh 1; b ← le16toh 3; c ← le16toh 5; mret (inr (mk_find_type_value_req a b c)).
Definition ble_att_find_type_value_req_write (len : Z) (r : ble_att_find_type_value_req) : B Z :=
  if len <? BLE_ATT_FIND_TYPE_VALUE_REQ_BASE_SZ then mret BLE_HS_EMSGSIZE
  else set_u8 0 BLE_ATT_OP_FIND_TYPE_VALUE_REQ ;; htole16 1 (bavq_start_handle r) ;; htole16 3 (bavq_end_handle r) ;; htole16 5 (bavq_attr_type r) ;; mret 0.

Definition ble_att_read_type_req_parse (len : Z) : B (Z + ble_att_read_type_req) :=
  if len <? BLE_ATT_READ_TYPE_REQ_BASE_SZ then mret (inl BLE_HS_EMSGSIZE)
  else op ← u8ptr 0;
    if negb (op =? BLE_ATT_OP_READ_TYPE_REQ) then mret (inl BLE_HS_EINVAL)
    else a ← le16toh 1; b ← le16toh 3; mret (inr (mk_read_type_req a b)).
Definition ble_att_read_type_req_write (len : Z) (r : ble_att_read_type_req) : B Z :=
  if len <? BLE_ATT_READ_TYPE_REQ_BASE_SZ then mret BLE_HS_EMSGSIZE
  else set_u8 0 BLE_ATT_OP_READ_TYPE_REQ ;; htole16 1 (batq_start_handle r) ;; htole16 3 (batq_end_handle r) ;; mret 0.

(** This parser does not look at the opcode. *)
Definition ble_att_read_type_rsp_parse (len : Z) : B (Z + ble_att_read_type_rsp) :=
  if len <? BLE_ATT_READ_TYPE_RSP_BASE_SZ then mret (inl BLE_HS_EMSGSIZE)
  else a ← u8ptr 1; mret (inr (mk_read_type_rsp a)).
Definition ble_att_read_type_rsp_write (len : Z) (r : ble_att_read_type_rsp) : B Z :=
  if len <? BLE_ATT_READ_TYPE_RSP_BASE_SZ then mret BLE_HS_EMSGSIZE
  else set_u8 0 BLE_ATT_OP_READ_TYPE_RSP ;; set_u8 1 (batp_length r) ;; mret 0.

Definition ble_att_read_req_parse (len : Z) : B (Z + ble_att_read_req) :=
  if len <? BLE_ATT_READ_REQ_SZ then mret (inl BLE_HS_EMSGSIZE)
  else op ← u8ptr 0;
    if negb (op =? BLE_ATT_OP_READ_REQ) then mret (inl BLE_HS_EINVAL)
    else a ← le16toh 1; mret (inr (mk_read_req a)).
Definition ble_att_read_req_write (len : Z) (r : ble_att_read_req) : B Z :=
  if len <? BLE_ATT_READ_REQ_SZ then mret BLE_HS_EMSGSIZE
  else set_u8 0 BLE_ATT_OP_READ_REQ ;; htole16 1 (barq_handle r) ;; mret 0.

Definition ble_att_read_blob_req_parse (len : Z) : B (Z + ble_att_read_blob_req) :=
  if len <? BLE_ATT_READ_BLOB_REQ_SZ then mret (inl BLE_HS_EMSGSIZE)
  else op ← u8ptr 0;
    if negb (op =? BLE_ATT_OP_READ_BLOB_REQ) then mret (inl BLE_HS_EINVAL)
    else a ← le16toh 1; b ← le16toh 3; mret (inr (mk_read_blob_req a b)).
Definition ble_att_read_blob_req_write (len : Z) (r : ble_att_read_blob_req) : B Z :=
  if len <? BLE_ATT_READ_BLOB_REQ_SZ then mret BLE_HS_EMSGSIZE
  else set_u8 0 BLE_ATT_OP_READ_BLOB_REQ ;; htole16 1 (babq_handle r) ;; htole16 3 (babq_offset r) ;; mret 0.

Definition ble_att_read_mult_req_parse (len : Z) : B Z :=
  if len <? BLE_ATT_READ_MULT_REQ_BASE_SZ then mret BLE_HS_EMSGSIZE
  else op ← u8ptr 0;
    if negb (op =? BLE_ATT_OP_READ_MULT_REQ) then mret BLE_HS_EINVAL
    else mret 0.
Definition ble_att_read_mult_req_write (len : Z) : B Z :=
  if len <? BLE_ATT_READ_MULT_REQ_BASE_SZ then mret BLE_HS_EMSGSIZE
  else set_u8 0 BLE_ATT_OP_READ_MULT_REQ ;; mret 0.

Definition ble_att_read_mult_rsp_parse (len : Z) : B Z :=
  if len <? BLE_ATT_READ_MULT_RSP_BASE_SZ then mret BLE_HS_EMSGSIZE
  else op ← u8ptr 0;
    if negb (op =? BLE_ATT_OP_READ_MULT_RSP) then mret BLE_HS_EINVAL
    else mret 0.
Definition ble_att_read_mult_rsp_write (len : Z) : B Z :=
  if len <? BLE_ATT_READ_MULT_RSP_BASE_SZ then mret BLE_HS_EMSGSIZE
  else set_u8 0 BLE_ATT_OP_READ_MULT_RSP ;; mret 0.

Definition ble_att_read_group_type_req_parse (len : Z) : B (Z + ble_att_read_group_type_req) :=
  if len <? BLE_ATT_READ_GROUP_TYPE_REQ_BASE_SZ then mret (inl BLE_HS_EMSGSIZE)
  else op ← u8ptr 0;
    if negb (op =? BLE_ATT_OP_READ_GROUP_TYPE_REQ) then mret (inl BLE_HS_EINVAL)
    else a ← le16toh 1; b ← le16toh 3; mret (inr (mk_read_group_type_req a b)).
Definition ble_att_read_group_type_req_write (len : Z) (r : ble_att_read_group_type_req) : B Z :=
  if len <? BLE_ATT_READ_GROUP_TYPE_REQ_BASE_SZ then mret BLE_HS_EMSGSIZE
  else set_u8 0 BLE_ATT_OP_READ_GROUP_TYPE_REQ ;; htole16 1 (bagq_start_handle r) ;; htole16 3 (bagq_end_handle r) ;; mret 0.

Definition ble_att_read_group_type_rsp_parse (len : Z) : B (Z + ble_att_read_group_type_rsp) :=
  if len <? BLE_ATT_READ_GROUP_TYPE_RSP_BASE_SZ then mret (inl BLE_HS_EMSGSIZE)
  else op ← u8ptr 0;
    if negb (op =? BLE_ATT_OP_READ_GROUP_TYPE_RSP) then mret (inl BLE_HS_EINVAL)
    else a ← u8ptr 1; mret (inr (mk_read_group_type_rsp a)).
Definition ble_att_read_group_type_rsp_write (len : Z) (r : ble_att_read_group_type_rsp) : B Z :=
  if len <? BLE_ATT_READ_GROUP_TYPE_RSP_BASE_SZ then mret BLE_HS_EMSGSIZE
  else set_u8 0 BLE_ATT_OP_READ_GROUP_TYPE_RSP ;; set_u8 1 (bagp_length r) ;; mret 0.

Definition ble_att_write_req_parse (len : Z) : B (Z + ble_att_write_req) :=
  if len <? BLE_ATT_WRITE_REQ_BASE_SZ then mret (inl BLE_HS_EMSGSIZE)
  else op ← u8ptr 0;
    if negb (op =? BLE_ATT_OP_WRITE_REQ) then mret (inl BLE_HS_EINVAL)
    else a ← le16toh 1; mret (inr (mk_write_req a)).
Definition ble_att_write_req_write (len : Z) (r : ble_att_write_req) : B Z :=
  if len <? BLE_ATT_WRITE_REQ_BASE_SZ then mret BLE_HS_EMSGSIZE
  else set_u8 0 BLE_ATT_OP_WRITE_REQ ;; htole16 1 (bawq_handle r) ;; mret 0.

Definition ble_att_write_cmd_parse (len : Z) : B (Z + ble_att_write_req) :=
  if len <? BLE_ATT_WRITE_REQ_BASE_SZ then mret (inl BLE_HS_EMSGSIZE)
  else op ← u8ptr 0;
    if negb (op =? BLE_ATT_OP_WRITE_CMD) then mret (inl BLE_HS_EINVAL)
    else a ← le16toh 1; mret (inr (mk_write_req a)).
Definition ble_att_write_cmd_write (len : Z) (r : ble_att_write_req) : B Z :=
  if len <? BLE_ATT_WRITE_REQ_BASE_SZ then mret BLE_HS_EMSGSIZE
  else set_u8 0 BLE_ATT_OP_WRITE_CMD ;; htole16 1 (bawq_handle r) ;; mret 0.

Definition ble_att_prep_write_cmd_parse (len : Z) (is_req : bool) : B (Z + ble_att_prep_write_cmd) :=
  if len <? BLE_ATT_PREP_WRITE_CMD_BASE_SZ then mret (inl BLE_HS_EMSGSIZE)
  else op ← u8ptr 0;
    if (if is_req : bool then negb (op =? BLE_ATT_OP_PREP_WRITE_REQ) else negb (op =? BLE_ATT_OP_PREP_WRITE_RSP)) then mret (inl BLE_HS_EINVAL)
    else a ← le16toh 1; b ← le16toh 3; mret (inr (mk_prep_write_cmd a b)).
Definition ble_att_prep_write_cmd_write (len : Z) (r : ble_att_prep_write_cmd) (is_req : bool) : B Z :=
  if len <? BLE_ATT_PREP_WRITE_CMD_BASE_SZ then mret BLE_HS_EMSGSIZE
  else set_u8 0 (if is_req : bool then BLE_ATT_OP_PREP_WRITE_REQ else BLE_ATT_OP_PREP_WRITE_RSP) ;; htole16 1 (bapc_handle r) ;; htole16 3 (bapc_offset r) ;; mret 0.
Definition ble_att_prep_write_req_parse (len : Z) : B (Z + ble_att_prep_write_cmd) := ble_att_prep_write_cmd_parse len true.
Definition ble_att_prep_write_req_write (len : Z) (r : ble_att_prep_write_cmd) : B Z := ble_att_prep_write_cmd_write len r true.

Definition ble_att_prep_write_rsp_parse (len : Z) : B (Z + ble_att_prep_write_cmd) := ble_att_prep_write_cmd_parse len false.
Definition ble_att_prep_write_rsp_write (len : Z) (r : ble_att_prep_write_cmd) : B Z := ble_att_prep_write_cmd_write len r false.

Definition ble_att_exec_write_req_parse (len : Z) : B (Z + ble_att_exec_write_req) :=
  if len <? BLE_ATT_EXEC_WRITE_REQ_SZ then mret (inl BLE_HS_EMSGSIZE)
  else op ← u8ptr 0;
    if negb (op =? BLE_ATT_OP_EXEC_WRITE_REQ) then mret (inl BLE_HS_EINVAL)
    else a ← u8ptr 1; mret (inr (mk_exec_write_req a)).
Definition ble_att_exec_write_req_write (len : Z) (r : ble_att_exec_write_req) : B Z :=
  if len <? BLE_ATT_EXEC_WRITE_REQ_SZ then mret BLE_HS_EMSGSIZE
  else set_u8 0 BLE_ATT_OP_EXEC_WRITE_REQ ;; set_u8 1 (baeq_flags r) ;; mret 0.

Definition ble_att_exec_write_rsp_parse (len : Z) : B Z :=
  if len <? BLE_ATT_EXEC_WRITE_RSP_SZ then mret BLE_HS_EMSGSIZE
  else op ← u8ptr 0;
    if negb (op =? BLE_ATT_OP_EXEC_WRITE_RSP) then mret BLE_HS_EINVAL
    else mret 0.
Definition ble_att_exec_write_rsp_write (len : Z) : B Z :=
  if len <? BLE_ATT_EXEC_WRITE_RSP_SZ then mret BLE_HS_EMSGSIZE
  else set_u8 0 BLE_ATT_OP_EXEC_WRITE_RSP ;; mret 0.

Definition ble_att_notify_req_parse (len : Z) : B (Z + ble_att_notify_req) :=
  if len <? BLE_ATT_NOTIFY_REQ_BASE_SZ then mret (inl BLE_HS_EMSGSIZE)
  else op ← u8ptr 0;
    if negb (op =? BLE_ATT_OP_NOTIFY_REQ) then mret (inl BLE_HS_EINVAL)
    else a ← le16toh 1; mret (inr (mk_notify_req a)).
Definition ble_att_notify_req_write (len : Z) (r : ble_att_notify_req) : B Z :=
  if len <? BLE_ATT_NOTIFY_REQ_BASE_SZ then mret BLE_HS_EMSGSIZE
  else set_u8 0 BLE_ATT_OP_NOTIFY_REQ ;; htole16 1 (banq_handle r) ;; mret 0.

Definition ble_att_indicate_req_parse (len : Z) : B (Z + ble_att_indicate_req) :=
  if len <? BLE_ATT_INDICATE_REQ_BASE_SZ then mret (inl BLE_HS_EMSGSIZE)
  else op ← u8ptr 0;
    if negb (op =? BLE_ATT_OP_INDICATE_REQ) then mret (inl BLE_HS_EINVAL)
    else a ← le16toh 1; mret (inr (mk_indicate_req a)).
Definition ble_att_indicate_req_write (len : Z) (r : ble_att_indicate_req) : B Z :=
  if len <? BLE_ATT_INDICATE_REQ_BASE_SZ then mret BLE_HS_EMSGSIZE
  else set_u8 0 BLE_ATT_OP_INDICATE_REQ ;; htole16 1 (baiq_handle r) ;; mret 0.

Definition ble_att_indicate_rsp_parse (len : Z) : B Z :=
  if len <? BLE_ATT_INDICATE_RSP_SZ then mret BLE_HS_EMSGSIZE
  else op ← u8ptr 0;
    if negb (op =? BLE_ATT_OP_INDICATE_RSP) then mret BLE_HS_EINVAL
    else mret 0.
Definition ble_att_indicate_rsp_write (len : Z) : B Z :=
  if len <? BLE_ATT_INDICATE_RSP_SZ then mret BLE_HS_EMSGSIZE
  else set_u8 0 BLE_ATT_OP_INDICATE_RSP ;; mret 0.

(** ** The protocol data units

    The headers of all requests and responses, and their format as the tables of
    ble_att_cmd.h give it: the opcode and the fields, two-byte fields low byte first. *)

Definition byte (x : Z) : list Z := [x].
Definition le16 (x : Z) : list Z := [x mod 256; x / 256].

Inductive att_pdu :=
| ErrorRsp (r : ble_att_error_rsp)
| MtuReq (r : ble_att_mtu_cmd)
| MtuRsp (r : ble_att_mtu_cmd)
| FindInfoReq (r : ble_att_find_info_req)
| FindInfoRsp (r : ble_att_find_info_rsp)
| FindTypeValueReq (r : ble_att_find_type_value_req)
| ReadTypeReq (r : ble_att_read_type_req)
| ReadTypeRsp (r : ble_att_read_type_rsp)
| ReadReq (r : ble_att_read_req)
| ReadBlobReq (r : ble_att_read_blob_req)
| ReadMultReq
| ReadMultRsp
| ReadGroupTypeReq (r : ble_att_read_group_type_req)
| ReadGroupTypeRsp (r : ble_att_read_group_type_rsp)
| WriteReq (r : ble_att_write_req)
| WriteCmd (r : ble_att_write_req)
| PrepWriteReq (r : ble_att_prep_write_cmd)
| PrepWriteRsp (r : ble_att_prep_write_cmd)
| ExecWriteReq (r : ble_att_exec_write_req)
| ExecWriteRsp
| NotifyReq (r : ble_att_notify_req)
| IndicateReq (r : ble_att_indicate_req)
| IndicateRsp.

Definition att_size (p : att_pdu) : Z :=
  match p with
  | ErrorRsp _ => BLE_ATT_ERROR_RSP_SZ
  | MtuReq _ => BLE_ATT_MTU_CMD_SZ
  | MtuRsp _ => BLE_ATT_MTU_CMD_SZ
  | FindInfoReq _ => BLE_ATT_FIND_INFO_REQ_SZ
  | FindInfoRsp _ => BLE_ATT_FIND_INFO_RSP_BASE_SZ
  | FindTypeValueReq _ => BLE_ATT_FIND_TYPE_VALUE_REQ_BASE_SZ
  | ReadTypeReq _ => BLE_ATT_READ_TYPE_REQ_BASE_SZ
  | ReadTypeRsp _ => BLE_ATT_READ_TYPE_RSP_BASE_SZ
  | ReadReq _ => BLE_ATT_READ_REQ_SZ
  | ReadBlobReq _ => BLE_ATT_READ_BLOB_REQ_SZ
  | ReadMultReq => BLE_ATT_READ_MULT_REQ_BASE_SZ
  | ReadMultRsp => BLE_ATT_READ_MULT_RSP_BASE_SZ
  | ReadGroupTypeReq _ => BLE_ATT_READ_GROUP_TYPE_REQ_BASE_SZ
  | ReadGroupTypeRsp _ => BLE_ATT_READ_GROUP_TYPE_RSP_BASE_SZ
  | WriteReq _ => BLE_ATT_WRITE_REQ_BASE_SZ
  | WriteCmd _ => BLE_ATT_WRITE_REQ_BASE_SZ
  | PrepWriteReq _ => BLE_ATT_PREP_WRITE_CMD_BASE_SZ
  | PrepWriteRsp _ => BLE_ATT_PREP_WRITE_CMD_BASE_SZ
  | ExecWriteReq _ => BLE_ATT_EXEC_WRITE_REQ_SZ
  | ExecWriteRsp => BLE_ATT_EXEC_WRITE_RSP_SZ
  | NotifyReq _ => BLE_ATT_NOTIFY_REQ_BASE_SZ
  | IndicateReq _ => BLE_ATT_INDICATE_REQ_BASE_SZ
  | IndicateRsp => BLE_ATT_INDICATE_RSP_SZ
  end.

Definition att_wf (p : att_pdu) : Prop :=
  match p with
  | ErrorRsp r => is_byte (baep_req_op r) ∧ is_u16 (baep_handle r) ∧ is_byte (baep_error_code r)
  | MtuReq r => is_u16 (bamc_mtu r)
  | MtuRsp r => is_u16 (bamc_mtu r)
  | FindInfoReq r => is_u16 (bafq_start_handle r) ∧ is_u16 (bafq_end_handle r)
  | FindInfoRsp r => is_byte (bafp_format r)
  | FindTypeValueReq r => is_u16 (bavq_start_handle r) ∧ is_u16 (bavq_end_handle r) ∧ is_u16 (bavq_attr_type r)
  | ReadTypeReq r => is_u16 (batq_start_handle r) ∧ is_u16 (batq_end_handle r)
  | ReadTypeRsp r => is_byte (batp_length r)
  | ReadReq r => is_u16 (barq_handle r)
  | ReadBlobReq r => is_u16 (babq_handle r) ∧ is_u16 (babq_offset r)
  | ReadMultReq => True
  | ReadMultRsp => True
  | ReadGroupTypeReq r => is_u16 (bagq_start_handle r) ∧ is_u16 (bagq_end_handle r)
  | ReadGroupTypeRsp r => is_byte (bagp_length r)
  | WriteReq r => is_u16 (bawq_handle r)
  | WriteCmd r => is_u16 (bawq_handle r)
  | PrepWriteReq r => is_u16 (bapc_handle r) ∧ is_u16 (bapc_offset r)
  | PrepWriteRsp r => is_u16 (bapc_handle r) ∧ is_u16 (bapc_offset r)
  | ExecWriteReq r => is_byte (baeq_flags r)
  | ExecWriteRsp => True
  | NotifyReq r => is_u16 (banq_handle r)
  | IndicateReq r => is_u16 (baiq_handle r)
  | IndicateRsp => True
  end.

Definition att_bytes (p : att_pdu) : list Z :=
  match p with
  | ErrorRsp r => BLE_ATT_OP_ERROR_RSP :: byte (baep_req_op r) ++ le16 (baep_handle r) ++ byte (baep_error_code r)
  | MtuReq r => BLE_ATT_OP_MTU_REQ :: le16 (bamc_mtu r)
  | MtuRsp r => BLE_ATT_OP_MTU_RSP :: le16 (bamc_mtu r)
  | FindInfoReq r => BLE_ATT_OP_FIND_INFO_REQ :: le16 (bafq_start_handle r) ++ le16 (bafq_end_handle r)
  | FindInfoRsp r => BLE_ATT_OP_FIND_INFO_RSP :: byte (bafp_format r)
  | FindTypeValueReq r => BLE_ATT_OP_FIND_TYPE_VALUE_REQ :: le16 (bavq_start_handle r) ++ le16 (bavq_end_handle r) ++ le16 (bavq_attr_type r)
  | ReadTypeReq r => BLE_ATT_OP_READ_TYPE_REQ :: le16 (batq_start_handle r) ++ le16 (batq_end_handle r)
  | ReadTypeRsp r => BLE_ATT_OP_READ_TYPE_RSP :: byte (batp_length r)
  | ReadReq r => BLE_ATT_OP_READ_REQ :: le16 (barq_handle r)
  | ReadBlobReq r => BLE_ATT_OP_READ_BLOB_REQ :: le16 (babq_handle r) ++ le16 (babq_offset r)
  | ReadMultReq => BLE_ATT_OP_READ_MULT_REQ :: []
  | ReadMultRsp => BLE_ATT_OP_READ_MULT_RSP :: []
  | ReadGroupTypeReq r => BLE_ATT_OP_READ_GROUP_TYPE_REQ :: le16 (bagq_start_handle r) ++ le16 (bagq_end_handle r)
  | ReadGroupTypeRsp r => BLE_ATT_OP_READ_GROUP_TYPE_RSP :: byte (bagp_length r)
  | WriteReq r => BLE_ATT_OP_WRITE_REQ :: le16 (bawq_handle r)
  | WriteCmd r => BLE_ATT_OP_WRITE_CMD :: le16 (bawq_handle r)
  | PrepWriteReq r => BLE_ATT_OP_PREP_WRITE_REQ :: le16 (bapc_handle r) ++ le16 (bapc_offset r)
  | PrepWriteRsp r => BLE_ATT_OP_PREP_WRITE_RSP :: le16 (bapc_handle r) ++ le16 (bapc_offset r)
  | ExecWriteReq r => BLE_ATT_OP_EXEC_WRITE_REQ :: byte (baeq_flags r)
  | ExecWriteRsp => BLE_ATT_OP_EXEC_WRITE_RSP :: []
  | NotifyReq r => BLE_ATT_OP_NOTIFY_REQ :: le16 (banq_handle r)
  | IndicateReq r => BLE_ATT_OP_INDICATE_REQ :: le16 (baiq_handle r)
  | IndicateRsp => BLE_ATT_OP_INDICATE_RSP :: []
  end.

Definition write_pdu (len : Z) (p : att_pdu) : B Z :=
  match p with
  | ErrorRsp r => ble_att_error_rsp_write len r
  | MtuReq r => ble_att_mtu_req_write len r
  | MtuRsp r => ble_att_mtu_rsp_write len r
  | FindInfoReq r => ble_att_find_info_req_write len r
  | FindInfoRsp r => ble_att_find_info_rsp_write len r
  | FindTypeValueReq r => ble_att_find_type_value_req_write len r
  | ReadTypeReq r => ble_att_read_type_req_write len r
  | ReadTypeRsp r => ble_att_read_type_rsp_write len r
  | ReadReq r => ble_att_read_req_write len r
  | ReadBlobReq r => ble_att_read_blob_req_write len r
  | ReadMultReq => ble_att_read_mult_req_write len
  | ReadMultRsp => ble_att_read_mult_rsp_write len
  | ReadGroupTypeReq r => ble_att_read_group_type_req_write len r
  | ReadGroupTypeRsp r => ble_att_read_group_type_rsp_write len r
  | WriteReq r => ble_att_write_req_write len r
  | WriteCmd r => ble_att_write_cmd_write len r
  | PrepWriteReq r => ble_att_prep_write_req_write len r
  | PrepWriteRsp r => ble_att_prep_write_rsp_write len r
  | ExecWriteReq r => ble_att_exec_write_req_write len r
  | ExecWriteRsp => ble_att_exec_write_rsp_write len
  | NotifyReq r => ble_att_notify_req_write len r
  | IndicateReq r => ble_att_indicate_req_write len r
  | IndicateRsp => ble_att_indicate_rsp_write len
  end.

(** The parser for the kind of PDU of [p]. *)
Definition parse_like (p : att_pdu) (len : Z) : B (Z + att_pdu) :=
  match p with
  | ErrorRsp _ => r ← ble_att_error_rsp_parse len; mret (sum_map id ErrorRsp r)
  | MtuReq _ => r ← ble_att_mtu_cmd_parse len; mret (sum_map id MtuReq r)
  | MtuRsp _ => r ← ble_att_mtu_cmd_parse len; mret (sum_map id MtuRsp r)
  | FindInfoReq _ => r ← ble_att_find_info_req_parse len; mret (sum_map id FindInfoReq r)
  | FindInfoRsp _ => r ← ble_att_find_info_rsp_parse len; mret (sum_map id FindInfoRsp r)
  | FindTypeValueReq _ => r ← ble_att_find_type_value_req_parse len; mret (sum_map id FindTypeValueReq r)
  | ReadTypeReq _ => r ← ble_att_read_type_req_parse len; mret (sum_map id ReadTypeReq r)
  | ReadTypeRsp _ => r ← ble_att_read_type_rsp_parse len; mret (sum_map id ReadTypeRsp r)
  | ReadReq _ => r ← ble_att_read_req_parse len; mret (sum_map id ReadReq r)
  | ReadBlobReq _ => r ← ble_att_read_blob_req_parse len; mret (sum_map id ReadBlobReq r)
  | ReadMultReq => r ← ble_att_read_mult_req_parse len; mret (if r =? 0 then inr ReadMultReq else inl r)
  | ReadMultRsp => r ← ble_att_read_mult_rsp_parse len; mret (if r =? 0 then inr ReadMultRsp else inl r)
  | ReadGroupTypeReq _ => r ← ble_att_read_group_type_req_parse len; mret (sum_map id ReadGroupTypeReq r)
  | ReadGroupTypeRsp _ => r ← ble_att_read_group_type_rsp_parse len; mret (sum_map id ReadGroupTypeRsp r)
  | WriteReq _ => r ← ble_att_write_req_parse len; mret (sum_map id WriteReq r)
  | WriteCmd _ => r ← ble_att_write_cmd_parse len; mret (sum_map id WriteCmd r)
  | PrepWriteReq _ => r ← ble_att_prep_write_req_parse len; mret (sum_map id PrepWriteReq r)
  | PrepWriteRsp _ => r ← ble_att_prep_write_rsp_parse len; mret (sum_map id PrepWriteRsp r)
  | ExecWriteReq _ => r ← ble_att_exec_write_req_parse len; mret (sum_map id ExecWriteReq r)
  | ExecWriteRsp => r ← ble_att_exec_write_rsp_parse len; mret (if r =? 0 then inr ExecWriteRsp else inl r)
  | NotifyReq _ => r ← ble_att_notify_req_parse len; mret (sum_map id NotifyReq r)
  | IndicateReq _ => r ← ble_att_indicate_req_parse len; mret (sum_map id IndicateReq r)
  | IndicateRsp => r ← ble_att_indicate_rsp_parse len; mret (if r =? 0 then inr IndicateRsp else inl r)
  end.

(** ** Lemmas *)

Lemma lor_bytes_16 a b : 0 <= a < 256 → 0 <= b → Z.lor a (Z.shiftl b 8) = a + 256 * b.
Proof.
  intros Ha Hb. rewrite Z.lor_comm. rewrite (Z.shiftl_mul_pow2 b 8) by lia.
  pose proof (Z.add_lor_land (b * 2 ^ 8) a) as E.
  assert (Z.land (b * 2 ^ 8) a = 0) as E0; [|lia].
  rewrite <- Z.shiftl_mul_pow2 by lia. apply Z.bits_inj'. intros n Hn. rewrite Z.land_spec, Z.bits_0.
  destruct (decide (n < 8)); [by rewrite Z.shiftl_spec_low|].
  rewrite <- (Z.mod_small a (2 ^ 8)) by lia. rewrite Z.mod_pow2_bits_high by lia. apply andb_false_r.
Qed.

Lemma le16_bytes x : is_u16 x → u8 x = x mod 256 ∧ u8 (Z.shiftr x 8) = x / 256.
Proof. unfold is_u16. intros. rewrite Z.shiftr_div_pow2 by lia. change (2 ^ 8) with 256. wrap_lia. Qed.

Lemma le16_value x : is_u16 x → u16 (Z.lor (x mod 256) (Z.shiftl (x / 256) 8)) = x.
Proof. unfold is_u16. intros. rewrite lor_bytes_16 by (Z.to_euclidean_division_equations; lia). wrap_lia. Qed.

Lemma u8ptr_run i s v : s !! i = Some v → u8ptr i s = Ret (v, s).
Proof. intros H. unfold u8ptr, mbind, M_bind, get. by rewrite H. Qed.

Lemma set_u8_run i v s : (i < length s)%nat → set_u8 i v s = Ret (tt, <[i := v]> s).
Proof. intros H. unfold set_u8, mbind, M_bind, get. by rewrite decide_True. Qed.

(** Unfolding the parsers and writers, and running them on a buffer whose first bytes
    are explicit. *)
Create HintDb att.
#[local] Hint Unfold ble_att_error_rsp_parse ble_att_error_rsp_write ble_att_mtu_cmd_parse
  ble_att_mtu_req_write ble_att_mtu_rsp_write ble_att_find_info_req_parse
  ble_att_find_info_req_write ble_att_find_info_rsp_parse ble_att_find_info_rsp_write
  ble_att_find_type_value_req_parse ble_att_find_type_value_req_write
  ble_att_read_type_req_parse ble_att_read_type_req_write ble_att_read_type_rsp_parse
  ble_att_read_type_rsp_write ble_att_read_req_parse ble_att_read_req_write
  ble_att_read_blob_req_parse ble_att_read_blob_req_write ble_att_read_mult_req_parse
  ble_att_read_mult_req_write ble_att_read_mult_rsp_parse ble_att_read_mult_rsp_write
  ble_att_read_group_type_req_parse ble_att_read_group_type_req_write
  ble_att_read_group_type_rsp_parse ble_att_read_group_type_rsp_write
  ble_att_write_req_parse ble_att_write_req_write ble_att_write_cmd_parse
  ble_att_write_cmd_write ble_att_prep_write_req_parse ble_att_prep_write_req_write
  ble_att_prep_write_rsp_parse ble_att_prep_write_rsp_write ble_att_exec_write_req_parse
  ble_att_exec_write_req_write ble_att_exec_write_rsp_parse ble_att_exec_write_rsp_write
  ble_att_notify_req_parse ble_att_notify_req_write ble_att_indicate_req_parse
  ble_att_indicate_req_write ble_att_indicate_rsp_parse ble_att_indicate_rsp_write
  ble_att_prep_write_cmd_parse ble_att_prep_write_cmd_write : att.

Ltac run_header :=
  unfold htole16, le16toh, u8ptr, set_u8, mbind, M_bind, get, modify, mret, M_ret; cbn.

(** A buffer that holds at least [n] bytes starts with [n] bytes. *)
Lemma buf_split (n : nat) (buf : list Z) : (n <= length buf)%nat →
  ∃ h t, buf = h ++ t ∧ length h = n ∧ drop n buf = t.
Proof.
  intros H. exists (take n buf), (drop n buf). by rewrite take_drop, length_take_le.
Qed.

Ltac explicit_bytes H :=
  match type of H with
  | length ?h = 0%nat => apply nil_length_inv in H; subst h
  | length ?h = S _ => destruct h as [|?x h]; [discriminate H|apply (f_equal Nat.pred) in H; cbn in H; explicit_bytes H]
  end.

Definition opcode (p : att_pdu) : Z := default 0 (head (att_bytes p)).

(** The opcodes the parser for PDUs like [p] lets pass. *)
Definition accepts (p : att_pdu) (op : Z) : bool :=
  match p with
  | MtuReq _ | MtuRsp _ => (op =? BLE_ATT_OP_MTU_REQ) || (op =? BLE_ATT_OP_MTU_RSP)
  | ReadTypeRsp _ => true
  | _ => op =? opcode p
  end.

(** The opcodes of the PDUs that are read by the parser for PDUs like [p], and the one parser that
    does not look at the opcode. *)
Definition opcodes (p : att_pdu) : list Z :=
  match p with
  | MtuReq _ | MtuRsp _ => [BLE_ATT_OP_MTU_REQ; BLE_ATT_OP_MTU_RSP]
  | _ => [opcode p]
  end.
Definition unchecked (p : att_pdu) : bool := match p with ReadTypeRsp _ => true | _ => false end.

Lemma accepts_spec p op : accepts p op = true ↔ unchecked p = true ∨ op ∈ opcodes p.
Proof.
  destruct p; cbn [accepts unchecked opcodes];
    rewrite ?orb_true_iff, ?elem_of_cons, ?Z.eqb_eq, ?elem_of_nil; naive_solver.
Qed.

Lemma att_bytes_length p : Z.of_nat (length (att_bytes p)) = att_size p.
Proof. by destruct p. Qed.

Lemma write_pdu_run p len buf :
  att_wf p → att_size p <= len → len <= Z.of_nat (length buf) →
  write_pdu len p buf = Ret (0, att_bytes p ++ drop (length (att_bytes p)) buf).
Proof.
  intros Hw Hs Hl. destruct (buf_split (length (att_bytes p)) buf) as (h & t & -> & Hh & ->).
  { pose proof (att_bytes_length p). lia. }
  clear Hl.
  destruct p as [[]|[]|[]|[]|[]|[]|[]|[]|[]|[]| | |[]|[]|[]|[]|[]|[]|[]| |[]|[]| ];
    cbn [write_pdu att_bytes att_size att_wf] in *; cbn in Hw, Hh |- *; autounfold with att;
    explicit_bytes Hh;
    match goal with |- (if ?b then _ else _) _ = _ => destruct b eqn:E; [apply Z.ltb_lt in E; exfalso; lia|] end;
    run_header; unfold u8, is_byte, is_u16 in *;
    repeat match goal with H : _ ∧ _ |- _ => destruct H end;
    rewrite ?Z.shiftr_div_pow2 by lia; change (2 ^ 8) with 256; 
    rewrite ?(Z.mod_small (_ / 256) 256) by (Z.to_euclidean_division_equations; lia);
    rewrite ?Z.mod_small by lia; try reflexivity.
Qed.

Lemma parse_pdu_run p len t :
  att_wf p → att_size p <= len → parse_like p len (att_bytes p ++ t) = Ret (inr p, att_bytes p ++ t).
Proof.
  intros Hw Hs.
  destruct p as [[]|[]|[]|[]|[]|[]|[]|[]|[]|[]| | |[]|[]|[]|[]|[]|[]|[]| |[]|[]| ];
    cbn [parse_like att_bytes att_size att_wf] in *; cbn in Hw |- *; autounfold with att;
    unfold mbind at 1, M_bind at 1;
    match goal with |- context [if ?b then _ else _] => destruct b eqn:E; [apply Z.ltb_lt in E; exfalso; lia|] end;
    run_header;
    repeat match goal with H : _ ∧ _ |- _ => destruct H end;
    rewrite ?le16_value by done; reflexivity.
Qed.

Lemma pdu_short p len buf : len < att_size p →
  write_pdu len p buf = Ret (BLE_HS_EMSGSIZE, buf) ∧ parse_like p len buf = Ret (inl BLE_HS_EMSGSIZE, buf).
Proof.
  intros Hs. destruct p; cbn [write_pdu parse_like att_size] in *; autounfold with att;
    unfold mbind at 1, M_bind at 1; (rewrite (proj2 (Z.ltb_lt len _)) by lia); done.
Qed.

Lemma parse_wrong_op p len op t : att_size p <= len → accepts p op = false →
  parse_like p len (op :: t) = Ret (inl BLE_HS_EINVAL, op :: t).
Proof.
  intros Hs Ha. destruct p; cbn [parse_like att_size accepts opcode att_bytes default head] in *;
    try discriminate Ha; autounfold with att; unfold mbind at 1, M_bind at 1;
    (rewrite (proj2 (Z.ltb_ge len _)) by lia); unfold u8ptr, mbind, M_bind, get; cbn;
    unfold opcode in Ha; cbn in Ha; try apply orb_false_iff in Ha as [Ha1 Ha2];
    rewrite ?Ha, ?Ha1, ?Ha2; reflexivity.
Qed.

Lemma parse_unchecked_run p len op t :
  att_wf p → att_size p <= len → unchecked p = true →
  parse_like p len (op :: tail (att_bytes p) ++ t) = Ret (inr p, op :: tail (att_bytes p) ++ t).
Proof.
  intros Hw Hs Hc. destruct p as [| | | | | | |[l]| | | | | | | | | | | | | | |]; try done.
  cbn [parse_like att_size] in *. autounfold with att. unfold mbind at 1, M_bind at 1.
  by rewrite (proj2 (Z.ltb_ge len _)) by lia.
Qed.

(** C33. The headers of the attribute protocol have the format of the tables, and reading
    one back gives what was written: into a buffer that is long enough the writer of a
    header puts the opcode and the fields (two-byte fields low byte first), leaves the
    rest of the buffer alone and returns 0, and the parser of the same kind returns the
    same fields, without touching the buffer.  With a length below the size of the
    header both return BLE_HS_EMSGSIZE and touch nothing.  A header with another opcode is
    refused with BLE_HS_EINVAL (the MTU parser takes the request and the response), except by
    the parser of the read-by-type response, which reads the field behind any opcode. *)
Theorem att_header_roundtrip p len buf :
  att_wf p → len <= Z.of_nat (length buf) →
  (att_size p <= len →
     write_pdu len p buf = Ret (0, att_bytes p ++ drop (length (att_bytes p)) buf) ∧
     (∀ t, parse_like p len (att_bytes p ++ t) = Ret (inr p, att_bytes p ++ t)) ∧
     (∀ op t, op ∉ opcodes p →
        if unchecked p then
          parse_like p len (op :: tail (att_bytes p) ++ t) = Ret (inr p, op :: tail (att_bytes p) ++ t)
        else parse_like p len (op :: t) = Ret (inl BLE_HS_EINVAL, op :: t))) ∧
  (len < att_size p →
     write_pdu len p buf = Ret (BLE_HS_EMSGSIZE, buf) ∧ parse_like p len buf = Ret (inl BLE_HS_EMSGSIZE, buf)).
Proof.
  intros Hw Hl. split; [intros Hs|apply pdu_short]. split; [by apply write_pdu_run|].
  split; intros; [by apply parse_pdu_run|]. destruct (unchecked p) eqn:Hc; [by apply parse_unchecked_run|].
  apply parse_wrong_op; [done|]. apply not_true_iff_false. rewrite accepts_spec. intros [?|?]; [congruence|done].
Qed.

Lemma att_header_roundtrip_witness :
  ble_att_find_info_req_write 5 (mk_find_info_req 1 65535) [0; 0; 0; 0; 0; 7] = Ret (0, [4; 1; 0; 255; 255; 7]).
Proof.
  destruct (att_header_roundtrip (FindInfoReq (mk_find_info_req 1 65535)) 5 [0; 0; 0; 0; 0; 7]) as [H _].
  - cbn. unfold is_u16. lia.
  - cbn. lia.
  - destruct H as [H _]; [reflexivity || (vm_compute; discriminate)|]. exact H.
Defined.

(** *** What the parsers accept *)

Lemma le16_read a b : is_byte a → is_byte b →
  is_u16 (u16 (Z.lor a (Z.shiftl b 8))) ∧ le16 (u16 (Z.lor a (Z.shiftl b 8))) = [a; b].
Proof.
  unfold is_byte, is_u16, le16. intros. rewrite lor_bytes_16 by lia. rewrite u16_small by lia.
  split; [lia|]. f_equal; [|f_equal]; Z.to_euclidean_division_equations; lia.
Qed.

Definition same_kind (p q : att_pdu) : Prop := opcode q = opcode p ∧ att_size q = att_size p.

(** A header of the right kind is read completely: it is well formed, and its fields are
    the bytes of the buffer. *)
Lemma parse_good p len op t :
  Forall is_byte t → att_size p <= len → len <= Z.of_nat (S (length t)) → accepts p op = true →
  ∃ q, parse_like p len (op :: t) = Ret (inr q, op :: t) ∧ att_wf q ∧ same_kind p q ∧
    tail (att_bytes q) = take (Nat.pred (length (att_bytes q))) t.
Proof.
  intros Hb Hs Hl Ha.
  destruct (buf_split (Nat.pred (length (att_bytes p))) t) as (h & t' & -> & Hh & _).
  { pose proof (att_bytes_length p). lia. }
  clear Hl. apply Forall_app in Hb as [Hb _].
  destruct p as [[]|[]|[]|[]|[]|[]|[]|[]|[]|[]| | |[]|[]|[]|[]|[]|[]|[]| |[]|[]| ];
    cbn [parse_like att_size] in *; cbn in Hh |- *; explicit_bytes Hh;
    repeat (apply Forall_cons_1 in Hb as [? Hb]); autounfold with att; unfold mbind at 1, M_bind at 1;
    match goal with |- context [if ?b then _ else _] => destruct b eqn:E; [apply Z.ltb_lt in E; exfalso; lia|] end;
    unfold accepts, opcode in Ha; cbn in Ha; run_header; try (apply Z.eqb_eq in Ha; subst op); cbn; rewrite <-?negb_orb, ?Ha; cbn;
    (eexists; split; [reflexivity|]); unfold same_kind; cbn -[le16];
    repeat match goal with |- context [u16 (Z.lor ?a (Z.shiftl ?b 8))] => let Hle := fresh "Hle" in destruct (le16_read a b) as [? Hle]; [done..|];
      try rewrite !Hle; set (u16 (Z.lor a (Z.shiftl b 8))) in * end;
    cbn -[le16]; by split_and!.
Qed.

(** C32. The parsers of the attribute protocol are total and typed.  On every buffer, and for
    every length within it, a parser returns without a fault and leaves the buffer as it is:
    BLE_HS_EMSGSIZE if and only if the length is below the size of the header,
    BLE_HS_EINVAL if the opcode is not that of its kind (for the MTU parser: of the request or
    the response), and otherwise a header of its kind whose fields are in the range of their
    types and whose encoding, behind the opcode, is the beginning of the buffer.  The parser of the
    read-by-type response is the only one that does not look at the opcode: it never returns
    BLE_HS_EINVAL. *)
Theorem att_parse_typed p len buf :
  Forall is_byte buf → 0 < len <= Z.of_nat (length buf) →
  ∃ op t r, buf = op :: t ∧ parse_like p len buf = Ret (r, buf) ∧
    match r with
    | inl e => if len <? att_size p then e = BLE_HS_EMSGSIZE
               else e = BLE_HS_EINVAL ∧ unchecked p = false ∧ op ∉ opcodes p
    | inr q => att_size p <= len ∧ att_wf q ∧ same_kind p q ∧ (unchecked p = true ∨ op ∈ opcodes p) ∧
               op :: tail (att_bytes q) = take (length (att_bytes q)) buf
    end.
Proof.
  intros Hb Hl. destruct buf as [|op t]; [cbn in Hl; lia|]. exists op, t.
  destruct (Z.ltb_spec len (att_size p)) as [Hs|Hs].
  - exists (inl BLE_HS_EMSGSIZE). split; [done|]. split; [by apply pdu_short|done].
  - apply Forall_cons_1 in Hb as [_ Hb]. destruct (accepts p op) eqn:Ha.
    + destruct (parse_good p len op t) as (q & Hq & Hw & Hk & Ht); try done; [cbn in Hl; lia|].
      apply accepts_spec in Ha. exists (inr q). split_and!; try done. rewrite Ht. by destruct q.
    + exists (inl BLE_HS_EINVAL). split; [done|]. split; [by apply parse_wrong_op|]. split; [done|].
      apply not_true_iff_false in Ha. rewrite accepts_spec in Ha. split; [|by intros ?; apply Ha; right].
      destruct (unchecked p); [destruct Ha; by left|done].
Qed.

Lemma att_parse_typed_witness :
  parse_like (ReadReq (mk_read_req 0)) 3 [10; 52; 18; 99] = Ret (inr (ReadReq (mk_read_req 0x1234)), [10; 52; 18; 99]) ∧
  ∃ r, parse_like (ReadReq (mk_read_req 0)) 4 [11; 52; 18; 99] = Ret (r, [11; 52; 18; 99]) ∧ r = inl BLE_HS_EINVAL.
Proof.
  split; [reflexivity|].
  destruct (att_parse_typed (ReadReq (mk_read_req 0)) 4 [11; 52; 18; 99]) as (op & t & r & _ & Hr & H).
  - repeat constructor; discriminate.
  - cbn. lia.
  - exists r. split; [exact Hr|]. destruct r as [e|q]; [destruct H as [-> _]; reflexivity|].
    vm_compute in Hr. discriminate.
Defined.

(** *** Byte order *)

(** The value of the bytes of a buffer, lowest first. *)
Fixpoint le_value (l : list Z) : Z :=
  match l with [] => 0 | b :: l => b + 256 * le_value l end.

Lemma lor_shift a b n : 0 <= n → 0 <= a < 2 ^ n → 0 <= b → Z.lor a (Z.shiftl b n) = a + 2 ^ n * b.
Proof.
  intros Hn Ha Hb. rewrite Z.lor_comm. rewrite (Z.shiftl_mul_pow2 b n) by lia.
  pose proof (Z.add_lor_land (b * 2 ^ n) a) as E.
  assert (Z.land (b * 2 ^ n) a = 0) as E0; [|lia].
  rewrite <- Z.shiftl_mul_pow2 by lia. apply Z.bits_inj'. intros m Hm. rewrite Z.land_spec, Z.bits_0.
  destruct (decide (m < n)); [by rewrite Z.shiftl_spec_low|].
  rewrite <- (Z.mod_small a (2 ^ n)) by lia. rewrite Z.mod_pow2_bits_high by lia. apply andb_false_r.
Qed.

(** The last byte of a 64-bit value is read back at bit 54. *)
Lemma le64toh_run s a b c d e f g h t :
  s = [a; b; c; d; e; f; g; h] ++ t → Forall is_byte [a; b; c; d; e; f; g; h] →
  le64toh 0 s = Ret (Z.lor (le_value [a; b; c; d; e; f; g]) (Z.shiftl h 54), s).
Proof.
  intros -> Hb. repeat (apply Forall_cons in Hb as [? Hb]). unfold is_byte in *.
  unfold le64toh, u8ptr, mbind, M_bind, get, mret, M_ret. cbn -[u64 Z.shiftl Z.lor le_value].
  assert (∀ x n, 0 <= n → 0 <= x < 256 → n <= 56 → u64 (Z.shiftl x n) = Z.shiftl x n) as Hs.
  { intros x n Hn Hx Hn'. unfold u64. rewrite Z.shiftl_mul_pow2 by lia. apply Z.mod_small.
    pose proof (Z.pow_le_mono_r 2 n 56 ltac:(lia) Hn'). pose proof (Z.pow_pos_nonneg 2 n ltac:(lia) Hn).
    change (2 ^ 64) with (256 * 2 ^ 56). nia. }
  rewrite !Hs by lia. do 2 f_equal. f_equal.
  rewrite (lor_shift a b 8), (lor_shift _ c 16), (lor_shift _ d 24), (lor_shift _ e 32), (lor_shift _ f 40),
    (lor_shift _ g 48) by lia.
  cbn [le_value]. lia.
Qed.

Lemma shifted_byte x n : 0 <= n → u8 (Z.shiftr x n) = x / 2 ^ n mod 256.
Proof. intros. unfold u8. by rewrite Z.shiftr_div_pow2. Qed.

Lemma u8s_bytes l : Forall is_byte (map u8 l).
Proof. induction l; constructor; [apply u8_bound|done]. Qed.

Lemma digits_step x k n : 0 <= k → 0 <= n →
  x / 2 ^ k mod 2 ^ (8 + n) = x / 2 ^ k mod 256 + 256 * (x / 2 ^ (k + 8) mod 2 ^ n).
Proof.
  intros Hk Hn. rewrite Z.pow_add_r by lia. change (2 ^ 8) with 256.
  pose proof (Z.pow_pos_nonneg 2 n ltac:(lia) Hn). pose proof (Z.pow_pos_nonneg 2 k ltac:(lia) Hk).
  rewrite Z.rem_mul_r by lia. rewrite Z.div_div by lia. by rewrite Z.pow_add_r by lia.
Qed.

(** The byte-order functions are inverse to each other for values of 16 and 32 bits.
    For 64 bits they are not: the top byte is read back two bits too low, so that
    exactly the low 56 bits survive (2^56 is read back as 2^54). *)
Theorem byte_order_roundtrip x s :
  (is_u16 x → (2 <= length s)%nat →
     ∃ s', htole16 0 x s = Ret (tt, s') ∧ le16toh 0 s' = Ret (x, s')) ∧
  (is_u32 x → (4 <= length s)%nat →
     ∃ s', htole32 0 x s = Ret (tt, s') ∧ le32toh 0 s' = Ret (x, s')) ∧
  (0 <= x < 2 ^ 64 → (8 <= length s)%nat →
     ∃ s', htole64 0 x s = Ret (tt, s') ∧
       le64toh 0 s' = Ret (Z.lor (x mod 2 ^ 56) (Z.shiftl (x / 2 ^ 56) 54), s')).
Proof.
  split; [|split]; intros Hx Hl.
  - destruct (buf_split 2 s Hl) as (h & t & -> & Hh & _). explicit_bytes Hh.
    destruct (le16_bytes x Hx) as [E1 E2].
    eexists. split; [run_header; reflexivity|]. run_header. rewrite E1, E2, le16_value; done.
  - destruct (buf_split 4 s Hl) as (h & t & -> & Hh & _). explicit_bytes Hh.
    eexists. split; [unfold htole32; run_header; reflexivity|].
    unfold le32toh. run_header. rewrite !shifted_byte by lia. unfold is_u32 in Hx.
    change (u8 x) with (x mod 256). do 2 f_equal.
    assert (∀ v n, 0 <= n <= 24 → 0 <= v < 256 → u32 (Z.shiftl v n) = Z.shiftl v n) as Hs.
    { intros v n Hn Hv. unfold u32. rewrite Z.shiftl_mul_pow2 by lia. apply Z.mod_small.
      pose proof (Z.pow_le_mono_r 2 n 24 ltac:(lia) ltac:(lia)).
      pose proof (Z.pow_pos_nonneg 2 n ltac:(lia) ltac:(lia)). change (2 ^ 32) with (256 * 2 ^ 24). nia. }
    change (2 ^ 8) with 256. change (2 ^ 16) with 65536. change (2 ^ 24) with 16777216.
    assert (0 <= x mod 256 < 256 ∧ 0 <= x / 256 mod 256 < 256 ∧ 0 <= x / 65536 mod 256 < 256 ∧
      0 <= x / 16777216 mod 256 < 256) as (B0 & B1 & B2 & B3) by (repeat split; Z.to_euclidean_division_equations; lia).
    rewrite !Hs by lia. rewrite (lor_shift _ _ 8), (lor_shift _ _ 16), (lor_shift _ _ 24) by lia.
    Z.to_euclidean_division_equations; lia.
  - destruct (buf_split 8 s Hl) as (h & t & -> & Hh & _). explicit_bytes Hh.
    eexists. split; [unfold htole64; run_header; reflexivity|].
    erewrite le64toh_run; [|reflexivity|].
    + rewrite !shifted_byte by lia. change (u8 x) with (x mod 256). do 2 f_equal. f_equal.
      * cbn [le_value].
        pose proof (digits_step x 0 48 ltac:(lia) ltac:(lia) :
          x / 2 ^ 0 mod 2 ^ 56 = x / 2 ^ 0 mod 256 + 256 * (x / 2 ^ 8 mod 2 ^ 48)) as D0.
        pose proof (digits_step x 8 40 ltac:(lia) ltac:(lia) :
          x / 2 ^ 8 mod 2 ^ 48 = x / 2 ^ 8 mod 256 + 256 * (x / 2 ^ 16 mod 2 ^ 40)) as D1.
        pose proof (digits_step x 16 32 ltac:(lia) ltac:(lia) :
          x / 2 ^ 16 mod 2 ^ 40 = x / 2 ^ 16 mod 256 + 256 * (x / 2 ^ 24 mod 2 ^ 32)) as D2.
        pose proof (digits_step x 24 24 ltac:(lia) ltac:(lia) :
          x / 2 ^ 24 mod 2 ^ 32 = x / 2 ^ 24 mod 256 + 256 * (x / 2 ^ 32 mod 2 ^ 24)) as D3.
        pose proof (digits_step x 32 16 ltac:(lia) ltac:(lia) :
          x / 2 ^ 32 mod 2 ^ 24 = x / 2 ^ 32 mod 256 + 256 * (x / 2 ^ 40 mod 2 ^ 16)) as D4.
        pose proof (digits_step x 40 8 ltac:(lia) ltac:(lia) :
          x / 2 ^ 40 mod 2 ^ 16 = x / 2 ^ 40 mod 256 + 256 * (x / 2 ^ 48 mod 2 ^ 8)) as D5.
        change (2 ^ 0) with 1 in D0.
        rewrite Z.div_1_r in D0. change (2 ^ 8) with 256 in *. lia.
      * f_equal. apply Z.mod_small. change (2 ^ 64) with (2 ^ 56 * 256) in Hx.
        split; [apply Z.div_pos; lia|apply Z.div_lt_upper_bound; lia].
    + apply (u8s_bytes [x; Z.shiftr x 8; Z.shiftr x 16; Z.shiftr x 24; Z.shiftr x 32; Z.shiftr x 40;
        Z.shiftr x 48; Z.shiftr x 56]).
Qed.

Lemma byte_order_roundtrip_witness :
  ∃ s', htole64 0 (2 ^ 56) [0; 0; 0; 0; 0; 0; 0; 0] = Ret (tt, s') ∧ le64toh 0 s' = Ret (2 ^ 54, s').
Proof.
  destruct (byte_order_roundtrip (2 ^ 56) [0; 0; 0; 0; 0; 0; 0; 0]) as (_ & _ & H).
  apply H; [split; [discriminate|reflexivity]|]. simpl. lia.
Defined.

(** *** UUIDs *)

(** The 128-bit form of a short UUID. *)
Definition uuid_bytes (x : Z) : list Z := take 12 ble_uuid_base ++ le16 x ++ [0; 0].

Lemma uuid_16_to_128_run x s : is_u16 x → x ≠ 0 → (16 <= length s)%nat →
  ble_uuid_16_to_128 x s = Ret (0, uuid_bytes x ++ drop 16 s).
Proof.
  intros Hx Hne Hl. unfold ble_uuid_16_to_128. rewrite (proj2 (Z.eqb_neq x 0)) by done.
  unfold mbind at 1, M_bind at 1, get at 1. rewrite decide_False by lia.
  destruct (buf_split 16 s Hl) as (h & t & -> & Hh & ->). explicit_bytes Hh.
  run_header. destruct (le16_bytes x Hx) as [-> ->]. reflexivity.
Qed.

(** The short form of a 128-bit UUID: the one whose 128-bit form it is, or 0. *)
Lemma uuid_128_to_16_run s : (16 <= length s)%nat → Forall is_byte s →
  ∃ x, ble_uuid_128_to_16 s = Ret (x, s) ∧
    ((0 < x < 65536 ∧ take 16 s = uuid_bytes x) ∨ (x = 0 ∧ ∀ y, is_u16 y → y ≠ 0 → take 16 s ≠ uuid_bytes y)).
Proof.
  intros Hl Hb. destruct (buf_split 16 s Hl) as (h & t & -> & Hh & _).
  explicit_bytes Hh. unfold ble_uuid_128_to_16. unfold mbind at 1, M_bind at 1, get at 1.
  rewrite decide_False by (cbn; lia).
  match goal with |- context [decide (take 12 ?l = _)] => destruct (decide (take 12 l = take 12 ble_uuid_base)) as [E|E] end.
  2:{ exists 0. split; [done|]. right. split; [done|]. intros y _ _ Ey. apply E.
      apply (f_equal (take 12)) in Ey. exact Ey. }
  injection E as -> -> -> -> -> -> -> -> -> -> -> ->. clear Hl.
  do 12 (apply Forall_cons in Hb as [_ Hb]).
  apply Forall_cons in Hb as [Hb1 Hb]. apply Forall_cons in Hb as [Hb2 Hb]. clear Hb.
  unfold is_byte in *. run_header.
  match goal with |- context [negb (?a =? 0) || negb (?b =? 0)] =>
    destruct (Z.eqb_spec a 0) as [->|Ha]; [destruct (Z.eqb_spec b 0) as [->|Hb']|] end; cbn.
  - match goal with |- context [u16 (Z.lor ?a (Z.shiftl ?b 8))] =>
      exists (a + 256 * b); assert (u16 (Z.lor a (Z.shiftl b 8)) = a + 256 * b) as ->
        by (rewrite lor_bytes_16 by lia; apply u16_small; lia);
      split; [done|]; destruct (decide (a + 256 * b = 0)) as [Ez|Ez] end.
    + right. split; [done|]. intros y Hy Hne Ey. injection Ey as Ey1 Ey2. unfold is_u16 in Hy.
      Z.to_euclidean_division_equations; lia.
    + left. split; [lia|]. unfold uuid_bytes, le16. cbn. repeat f_equal; Z.to_euclidean_division_equations; lia.
  - exists 0. split; [done|]. right. split; [done|]. intros y _ _ Ey. injection Ey as _ _ Ey. congruence.
  - exists 0. split; [done|]. right. split; [done|]. intros y _ _ Ey. injection Ey as _ _ Ey _. congruence.
Qed.
