(* ===== verification/BleL2cap.v ===== *)
(** The logical link layer of the BLE host: the channels of a connection, the
    reassembly of received packets and their transmission
    (net/nimble/host/src/ble_l2cap.c, ble_hs_conn.c, and the data packets of host_hci.c).

    A received packet comes in fragments, each in an mbuf chain of its own.  The first one
    carries the L2CAP header; the fragments are collected in the channel the header
    names, until the packet is complete and is passed to the receive function of the
    channel.  The chains live in the buffers of [OsMbuf]; what the channels hold of them
    is followed with [OsMbufHeld].

    The receive functions of the channels, the transport below and the attribute client
    (which is told when a connection can send again) are parameters.  The lock of the
    connections and the log are not modelled.  Integers in memory are little-endian, as
    on every processor the system runs on. *)
From Stdlib Require Import ZArith Lia.
From stdpp Require Import base decidable list numbers gmap.
From S2P Require Import Prelude.
From S2P Require Import OsState.
From S2P Require Import OsMempool.
From S2P Require Import OsMbuf.
From S2P Require Import OsMbufSpec.
From S2P Require Import OsMbufWrite.
From S2P Require Import OsMbufHeld.
From S2P Require Import OsMbufProps.
From S2P Require Import BleAtt.

#[local] Open Scope Z_scope.

(** ** Data *)

Definition BLE_HS_EALREADY : Z := 2.
Definition BLE_HS_ENOTCONN : Z := 7.
Definition BLE_HCI_DATA_HDR_SZ : Z := 4.
Definition BLE_HCI_PB_FIRST_NON_FLUSH : Z := 0.
Definition BLE_HCI_PB_MIDDLE : Z := 1.
Definition BLE_HCI_PB_FIRST_FLUSH : Z := 2.
Definition BLE_L2CAP_HDR_SZ : Z := 4.
Definition BLE_L2CAP_CHAN_F_TXED_MTU : Z := 1.

Record hci_data_hdr := mk_hci_hdr { hdh_handle_pb_bc : Z; hdh_len : Z }.
Record ble_l2cap_hdr := mk_l2cap_hdr { blh_len : Z; blh_cid : Z }.

Definition BLE_HCI_DATA_HANDLE (h : Z) : Z := Z.land h 0x0fff.
Definition BLE_HCI_DATA_PB (h : Z) : Z := Z.shiftr (Z.land h 0x3000) 12.

(** [blc_rx_buf]: the packet under reassembly, 0 for NULL. *)
Record ble_l2cap_chan := mk_chan {
  blc_cid : Z; blc_my_mtu : Z; blc_peer_mtu : Z; blc_default_mtu : Z; blc_flags : Z;
  blc_rx_buf : Z; blc_rx_len : Z; blc_rx_fn : nat }.
#[export] Instance chan_inhabited : Inhabited ble_l2cap_chan := populate (mk_chan 0 0 0 0 0 0 0 0).

Record ble_hs_conn := mk_hs_conn {
  bhc_handle : Z; bhc_channels : list nat; bhc_rx_chan : option nat; bhc_outstanding_pkts : Z }.
#[export] Instance conn_inhabited : Inhabited ble_hs_conn := populate (mk_hs_conn 0 [] None 0).

Definition set_rx_buf (v : Z) (c : ble_l2cap_chan) : ble_l2cap_chan :=
  mk_chan (blc_cid c) (blc_my_mtu c) (blc_peer_mtu c) (blc_default_mtu c) (blc_flags c) v (blc_rx_len c) (blc_rx_fn c).
Definition set_rx_len (v : Z) (c : ble_l2cap_chan) : ble_l2cap_chan :=
  mk_chan (blc_cid c) (blc_my_mtu c) (blc_peer_mtu c) (blc_default_mtu c) (blc_flags c) (blc_rx_buf c) v (blc_rx_fn c).
Definition set_channels (v : list nat) (c : ble_hs_conn) : ble_hs_conn :=
  mk_hs_conn (bhc_handle c) v (bhc_rx_chan c) (bhc_outstanding_pkts c).
Definition set_rx_chan (v : option nat) (c : ble_hs_conn) : ble_hs_conn :=
  mk_hs_conn (bhc_handle c) (bhc_channels c) v (bhc_outstanding_pkts c).
Definition set_outstanding (v : Z) (c : ble_hs_conn) : ble_hs_conn :=
  mk_hs_conn (bhc_handle c) (bhc_channels c) (bhc_rx_chan c) v.

Section l2cap.
Context {S : Type} {AL : Allocator S} {inh : Inhabited S}.

(** The free channels are a stack of blocks, as a memory pool is ([OsMempool]). *)
Record hs_st := mk_hs {
  hs_bufs : bstate (S := S);
  ble_l2cap_chans : gmap nat ble_l2cap_chan;
  ble_l2cap_chan_pool : list nat;
  hs_conn_mem : gmap nat ble_hs_conn;
  ble_hs_conns : list nat;
  max_outstanding_pkts_per_conn : Z;
}.
Abbreviation H := (M hs_st) (only parsing).

Definition set_bufs (v : bstate) (s : hs_st) : hs_st :=
  mk_hs v (ble_l2cap_chans s) (ble_l2cap_chan_pool s) (hs_conn_mem s) (ble_hs_conns s) (max_outstanding_pkts_per_conn s).
Definition set_chans (v : gmap nat ble_l2cap_chan) (s : hs_st) : hs_st :=
  mk_hs (hs_bufs s) v (ble_l2cap_chan_pool s) (hs_conn_mem s) (ble_hs_conns s) (max_outstanding_pkts_per_conn s).
Definition set_chan_pool (v : list nat) (s : hs_st) : hs_st :=
  mk_hs (hs_bufs s) (ble_l2cap_chans s) v (hs_conn_mem s) (ble_hs_conns s) (max_outstanding_pkts_per_conn s).
Definition set_conn_mem (v : gmap nat ble_hs_conn) (s : hs_st) : hs_st :=
  mk_hs (hs_bufs s) (ble_l2cap_chans s) (ble_l2cap_chan_pool s) v (ble_hs_conns s) (max_outstanding_pkts_per_conn s).
Definition set_conns (v : list nat) (s : hs_st) : hs_st :=
  mk_hs (hs_bufs s) (ble_l2cap_chans s) (ble_l2cap_chan_pool s) (hs_conn_mem s) v (max_outstanding_pkts_per_conn s).

Definition chan_of (s : hs_st) (c : nat) : ble_l2cap_chan := ble_l2cap_chans s !!! c.
Definition conn_of (s : hs_st) (k : nat) : ble_hs_conn := hs_conn_mem s !!! k.
Definition upd_chan (c : nat) (f : ble_l2cap_chan → ble_l2cap_chan) (s : hs_st) : hs_st :=
  set_chans (<[c := f (chan_of s c)]> (ble_l2cap_chans s)) s.
Definition upd_conn (k : nat) (f : ble_hs_conn → ble_hs_conn) (s : hs_st) : hs_st :=
  set_conn_mem (<[k := f (conn_of s k)]> (hs_conn_mem s)) s.

Definition on_bufs {A} (m : M bstate A) : H A := λ s,
  match m (hs_bufs s) with
  | Ret (a, b) => Ret (a, set_bufs b s)
  | Fault f => Fault f
  end.

(** A local buffer of a function. *)
Definition with_local {A} (buf : list Z) (m : M (list Z) A) : H (A * list Z) := λ s,
  match m buf with
  | Ret r => Ret (r, s)
  | Fault f => Fault f
  end.

Definition OS_PKTLEN_at (om : Z) : H Z := m ← on_bufs (mbuf_at om); mret (OS_MBUF_PKTLEN m).

(** ** Connections (ble_hs_conn.c) *)

Fixpoint chan_find_loop (s : hs_st) (cid : Z) (l : list nat) : option nat :=
  match l with
  | [] => None
  | c :: l =>
      if blc_cid (chan_of s c) =? cid then Some c
      else if cid <? blc_cid (chan_of s c) then None
      else chan_find_loop s cid l
  end.
Definition ble_hs_conn_chan_find (conn : nat) (cid : Z) : H (option nat) :=
  gets (λ s, chan_find_loop s cid (bhc_channels (conn_of s conn))).

(** The list with [chan] in front of the first channel with a larger identifier. *)
Fixpoint chan_insert_loop (s : hs_st) (chan : nat) (l : list nat) : option (list nat) :=
  match l with
  | [] => Some [chan]
  | cur :: l =>
      if blc_cid (chan_of s cur) =? blc_cid (chan_of s chan) then None
      else if blc_cid (chan_of s chan) <? blc_cid (chan_of s cur) then Some (chan :: cur :: l)
      else cons cur <$> chan_insert_loop s chan l
  end.
Definition ble_hs_conn_chan_insert (conn chan : nat) : H Z :=
  s ← get;
  match chan_insert_loop s chan (bhc_channels (conn_of s conn)) return H Z with
  | None => mret BLE_HS_EALREADY
  | Some l => modify (upd_conn conn (set_channels l)) ;; mret 0
  end.

Definition ble_l2cap_chan_alloc : H (option nat) :=
  s ← get;
  match ble_l2cap_chan_pool s return H (option nat) with
  | [] => mret None
  | c :: l =>
      modify (set_chan_pool l) ;;
      modify (upd_chan c (λ _, mk_chan 0 0 0 0 0 0 0 0)) ;;
      mret (Some c)
  end.
Definition ble_l2cap_chan_free (chan : option nat) : H unit :=
  match chan with
  | None => mret tt
  | Some c => modify (λ s, set_chan_pool (c :: ble_l2cap_chan_pool s) s)
  end.

Definition ble_hs_conn_delete_chan (conn chan : nat) : H unit :=
  s ← get;
  (if decide (bhc_rx_chan (conn_of s conn) = Some chan) then modify (upd_conn conn (set_rx_chan None)) else mret tt) ;;
  s ← get;
  l ← from_option_fault FList (list_remove chan (bhc_channels (conn_of s conn)));
  modify (upd_conn conn (set_channels l)) ;;
  ble_l2cap_chan_free (Some chan).

Fixpoint conn_find_loop (s : hs_st) (handle : Z) (l : list nat) : option nat :=
  match l with
  | [] => None
  | k :: l => if bhc_handle (conn_of s k) =? handle then Some k else conn_find_loop s handle l
  end.
Definition ble_hs_conn_find (handle : Z) : H (option nat) :=
  gets (λ s, conn_find_loop s handle (ble_hs_conns s)).
Definition ble_hs_conn_exists (handle : Z) : H bool :=
  conn ← ble_hs_conn_find handle; mret (bool_decide (conn ≠ None)).
Definition ble_hs_conn_first : H (option nat) := gets (λ s, head (ble_hs_conns s)).
Definition ble_hs_conn_insert (conn : nat) : H unit :=
  s ← get;
  k ← ble_hs_conn_find (bhc_handle (conn_of s conn));
  assert_ (bool_decide (k = None)) ;;
  modify (λ s, set_conns (conn :: ble_hs_conns s) s).
Definition ble_hs_conn_remove (conn : nat) : H unit :=
  s ← get;
  l ← from_option_fault FList (list_remove conn (ble_hs_conns s));
  modify (set_conns l).

Definition ble_hs_conn_can_tx (s : hs_st) (conn : nat) : bool :=
  (max_outstanding_pkts_per_conn s =? 0) ||
  (bhc_outstanding_pkts (conn_of s conn) <? max_outstanding_pkts_per_conn s).

Section txable.
Context (ble_gattc_connection_txable : Z → H unit).

Definition ble_hs_conn_txable_transition (conn : nat) : H unit :=
  s ← get; ble_gattc_connection_txable (bhc_handle (conn_of s conn)).

Definition ble_hs_conn_rx_num_completed_pkts (handle num_pkts : Z) : H unit :=
  k ← ble_hs_conn_find handle;
  match k return H unit with
  | None => mret tt
  | Some conn =>
      s ← get;
      let could_tx := ble_hs_conn_can_tx s conn in
      let out := bhc_outstanding_pkts (conn_of s conn) in
      let num_pkts := if out <? num_pkts then out else num_pkts in
      modify (upd_conn conn (set_outstanding (u16 (out - num_pkts)))) ;;
      s ← get;
      let can_tx := ble_hs_conn_can_tx s conn in
      if negb could_tx && can_tx then ble_hs_conn_txable_transition conn else mret tt
  end.
End txable.

(** ** Channels (ble_l2cap.c) *)

Definition ble_l2cap_chan_mtu (chan : nat) : H Z :=
  s ← get;
  let c := chan_of s chan in
  let mtu :=
    if (Z.land (blc_flags c) BLE_L2CAP_CHAN_F_TXED_MTU =? 0) || (blc_peer_mtu c =? 0) then blc_default_mtu c
    else Z.min (blc_my_mtu c) (blc_peer_mtu c) in
  assert_ (blc_default_mtu c <=? mtu) ;;
  mret mtu.

Definition ble_l2cap_parse_hdr (om off : Z) : H (Z + ble_l2cap_hdr) :=
  '(rc, hdr) ← on_bufs (os_mbuf_copydata om off BLE_L2CAP_HDR_SZ);
  if negb (rc =? 0) then mret (inl BLE_HS_EMSGSIZE)
  else
    '(len, _) ← with_local hdr (le16toh 0);
    '(cid, _) ← with_local hdr (le16toh 2);
    mret (inr (mk_l2cap_hdr len cid)).

(** os_mbuf_prepend, and memcpy of the header to [om_data]. *)
Definition prepend_bytes (om : Z) (bytes : list Z) : M bstate Z :=
  om ← os_mbuf_prepend om (Z.of_nat (length bytes));
  if om =? 0 then mret 0
  else m ← mbuf_at om; write_buf om (om_off m) bytes ;; mret om.

Definition ble_l2cap_prepend_hdr (om cid len : Z) : H Z :=
  '(_, hdr) ← with_local [0; 0; 0; 0] (htole16 0 len ;; htole16 2 cid);
  on_bufs (prepend_bytes om hdr).

Definition ble_l2cap_forget_rx (conn chan : nat) : H unit :=
  modify (upd_conn conn (set_rx_chan None)) ;;
  modify (upd_chan chan (set_rx_buf 0)) ;;
  modify (upd_chan chan (set_rx_len 0)).

Definition ble_l2cap_discard_rx (conn chan : nat) : H unit :=
  s ← get;
  on_bufs (os_mbuf_free_chain (blc_rx_buf (chan_of s chan))) ;;
  ble_l2cap_forget_rx conn chan.

(** The second component: [*out_rx_cb] and [*out_rx_buf], when they are set. *)
Definition ble_l2cap_rx_payload (conn chan : nat) (om : Z) : H (Z * option (nat * Z)) :=
  s ← get;
  (if blc_rx_buf (chan_of s chan) =? 0 then modify (upd_chan chan (set_rx_buf om))
   else on_bufs (os_mbuf_concat (blc_rx_buf (chan_of s chan)) om)) ;;
  s ← get;
  pktlen ← OS_PKTLEN_at (blc_rx_buf (chan_of s chan));
  let len_diff := pktlen - blc_rx_len (chan_of s chan) in
  if 0 <? len_diff then
    ble_l2cap_discard_rx conn chan ;; mret (BLE_HS_EBADDATA, None)
  else if len_diff =? 0 then
    let out := (blc_rx_fn (chan_of s chan), blc_rx_buf (chan_of s chan)) in
    ble_l2cap_forget_rx conn chan ;; mret (0, Some out)
  else mret (BLE_HS_EAGAIN, None).

Definition rx_error (om rc : Z) : H (Z * option (nat * Z)) :=
  on_bufs (os_mbuf_free_chain om) ;; mret (rc, None).

Definition ble_l2cap_rx (conn : nat) (hci_hdr : hci_data_hdr) (om : Z) : H (Z * option (nat * Z)) :=
  let pb := BLE_HCI_DATA_PB (hdh_handle_pb_bc hci_hdr) in
  if pb =? BLE_HCI_PB_FIRST_FLUSH then
    r ← ble_l2cap_parse_hdr om 0;
    match r return H (Z * option (nat * Z)) with
    | inl rc => rx_error om rc
    | inr l2cap_hdr =>
        on_bufs (os_mbuf_adj om BLE_L2CAP_HDR_SZ) ;;
        chan ← ble_hs_conn_chan_find conn (blh_cid l2cap_hdr);
        match chan return H (Z * option (nat * Z)) with
        | None => rx_error om BLE_HS_ENOENT
        | Some chan =>
            s ← get;
            (if negb (blc_rx_buf (chan_of s chan) =? 0) then ble_l2cap_discard_rx conn chan else mret tt) ;;
            modify (upd_conn conn (set_rx_chan (Some chan))) ;;
            modify (upd_chan chan (set_rx_len (blh_len l2cap_hdr))) ;;
            ble_l2cap_rx_payload conn chan om
        end
    end
  else if pb =? BLE_HCI_PB_MIDDLE then
    s ← get;
    match bhc_rx_chan (conn_of s conn) return H (Z * option (nat * Z)) with
    | None => rx_error om BLE_HS_EBADDATA
    | Some chan =>
        if blc_rx_buf (chan_of s chan) =? 0 then rx_error om BLE_HS_EBADDATA
        else ble_l2cap_rx_payload conn chan om
    end
  else rx_error om BLE_HS_EBADDATA.

(** ** Data packets of the host controller interface (host_hci.c) *)

Definition host_hci_data_hdr_strip (om : Z) : H (Z + hci_data_hdr) :=
  '(rc, hdr) ← on_bufs (os_mbuf_copydata om 0 BLE_HCI_DATA_HDR_SZ);
  if negb (rc =? 0) then mret (inl BLE_HS_EMSGSIZE)
  else
    on_bufs (os_mbuf_adj om BLE_HCI_DATA_HDR_SZ) ;;
    '(h, _) ← with_local hdr (le16toh 0);
    '(len, _) ← with_local hdr (le16toh 2);
    mret (inr (mk_hci_hdr h len)).

Definition host_hci_handle_pb_bc_join (handle pb bc : Z) : H Z :=
  assert_ (handle <=? 0x0fff) ;;
  assert_ (pb <=? 3) ;;
  assert_ (bc <=? 3) ;;
  mret (u16 (Z.lor (Z.lor handle (Z.shiftl pb 12)) (Z.shiftl bc 14))).

(** The handle is stored in the byte order of the processor. *)
Definition host_hci_data_hdr_prepend (om handle pb_flag : Z) : H Z :=
  h ← host_hci_handle_pb_bc_join handle pb_flag 0;
  len ← OS_PKTLEN_at om;
  '(_, hdr) ← with_local [h mod 256; h / 256; 0; 0] (htole16 2 len);
  on_bufs (prepend_bytes om hdr).

Section callbacks.
(** The receive function of a channel gets the handle and the packet, and returns its
    result and what it left in [*om]. *)
Context (rx_cb : nat → Z → Z → H (Z * Z)) (ble_hs_tx_data : Z → H Z).

(** What [ble_l2cap_rx] leaves in [rx_cb] and [rx_buf] is defined if it returns 0. *)
Definition data_rx_deliver (handle : Z) (r : Z * option (nat * Z)) : H Z :=
  if r.1 =? 0 then
    '(fn, rx_buf) ← from_option_fault FNull r.2;
    '(rc, rx_buf) ← rx_cb fn handle rx_buf;
    on_bufs (os_mbuf_free_chain rx_buf) ;;
    mret rc
  else mret (if r.1 =? BLE_HS_EAGAIN then 0 else r.1).

Definition host_hci_data_rx (om : Z) : H Z :=
  r ← host_hci_data_hdr_strip om;
  match r return H Z with
  | inl rc => on_bufs (os_mbuf_free_chain om) ;; data_rx_deliver 0 (rc, None)
  | inr hci_hdr =>
      pktlen ← OS_PKTLEN_at om;
      if negb (hdh_len hci_hdr =? pktlen) then
        on_bufs (os_mbuf_free_chain om) ;; data_rx_deliver 0 (BLE_HS_EBADDATA, None)
      else
        let handle := BLE_HCI_DATA_HANDLE (hdh_handle_pb_bc hci_hdr) in
        conn ← ble_hs_conn_find handle;
        match conn return H Z with
        | None => on_bufs (os_mbuf_free_chain om) ;; data_rx_deliver handle (BLE_HS_ENOTCONN, None)
        | Some conn =>
            r ← ble_l2cap_rx conn hci_hdr om;
            on_bufs (os_mbuf_free_chain 0) ;;
            data_rx_deliver handle r
        end
  end.

Definition host_hci_data_tx (connection : nat) (om : Z) : H Z :=
  s ← get;
  om ← host_hci_data_hdr_prepend om (bhc_handle (conn_of s connection)) BLE_HCI_PB_FIRST_NON_FLUSH;
  if om =? 0 then mret BLE_HS_ENOMEM
  else
    rc ← ble_hs_tx_data om;
    if negb (rc =? 0) then mret rc
    else
      modify (upd_conn connection (λ c, set_outstanding (u16 (bhc_outstanding_pkts c + 1)) c)) ;;
      mret 0.

Definition ble_l2cap_tx (conn chan : nat) (om : Z) : H Z :=
  s ← get;
  len ← OS_PKTLEN_at om;
  om ← ble_l2cap_prepend_hdr om (blc_cid (chan_of s chan)) len;
  if om =? 0 then on_bufs (os_mbuf_free_chain 0) ;; mret BLE_HS_ENOMEM
  else
    rc ← host_hci_data_tx conn om;
    on_bufs (os_mbuf_free_chain 0) ;;
    mret rc.
End callbacks.

(** ** Reassembly, abstractly *)

(** The channel of the packet that is being received, and what has been collected of the
    packets that are not complete: their length and their bytes. *)
Record rx_abs := mk_abs { ra_cur : option nat; ra_part : gmap nat (Z * list Z) }.
Inductive rx_result := Deliver (c : nat) (d : list Z) | Refused (rc : Z).

Definition collect (c : nat) (len : Z) (d : list Z) (st : rx_abs) : rx_result * rx_abs :=
  let n := Z.of_nat (length d) in
  if len <? n then (Refused BLE_HS_EBADDATA, mk_abs None (delete c (ra_part st)))
  else if n =? len then (Deliver c d, mk_abs None (delete c (ra_part st)))
  else (Refused BLE_HS_EAGAIN, mk_abs (ra_cur st) (<[c := (len, d)]> (ra_part st))).

Definition le16_at (i : nat) (l : list Z) : Z := u16 (Z.lor (nth i l 0) (Z.shiftl (nth (i + 1) l 0) 8)).

Definition reassemble (find : Z → option nat) (pb : Z) (frag : list Z) (st : rx_abs) : rx_result * rx_abs :=
  if pb =? BLE_HCI_PB_FIRST_FLUSH then
    if decide (length frag < 4)%nat then (Refused BLE_HS_EMSGSIZE, st)
    else match find (le16_at 2 frag) with
    | None => (Refused BLE_HS_ENOENT, st)
    | Some c => collect c (le16_at 0 frag) (drop 4 frag) (mk_abs (Some c) (delete c (ra_part st)))
    end
  else if pb =? BLE_HCI_PB_MIDDLE then
    match ra_cur st with
    | None => (Refused BLE_HS_EBADDATA, st)
    | Some c =>
        match ra_part st !! c with
        | None => (Refused BLE_HS_EBADDATA, st)
        | Some (len, d) => collect c len (d ++ frag) st
        end
    end
  else (Refused BLE_HS_EBADDATA, st).

Lemma reassemble_ext find find' pb frag st :
  (∀ cid, find cid = find' cid) → reassemble find pb frag st = reassemble find' pb frag st.
Proof. intros Hf. unfold reassemble. by rewrite Hf. Qed.

(** ** The host's memory *)

Context (o : nat) (BL : list Z).
Implicit Types (s : hs_st).

(** [L c]: the mbufs of the packet channel [c] is collecting. *)
Record rx_rep (L : nat → list Z) (part : gmap nat (Z * list Z)) (free : list Z) (s : hs_st) : Prop := {
  rp_heap : heap_ok o BL free (hs_bufs s);
  rp_chan : ∀ c, match part !! c with
    | None => blc_rx_buf (chan_of s c) = 0 ∧ L c = []
    | Some (len, d) => blc_rx_len (chan_of s c) = len ∧ held o BL (hs_bufs s) (blc_rx_buf (chan_of s c)) (L c) d
    end;
  rp_disj : ∀ c c' b, b ∈ L c → b ∈ L c' → c = c';
}.

(** Every mbuf is free, in a channel or in one of the chains [l] at hand: none is lost. *)
Definition accounted (L : nat → list Z) (l free : list Z) : Prop :=
  ∀ b, b ∈ BL → b ∈ free ∨ b ∈ l ∨ ∃ c, b ∈ L c.

Definition fn_set (c : nat) (l : list Z) (L : nat → list Z) : nat → list Z :=
  λ c', if decide (c' = c) then l else L c'.

(** What reception leaves alone: everything of a channel but the packet it collects, the
    other connections, and everything of the connection but [bhc_rx_chan]. *)
Definition chan_config (c : ble_l2cap_chan) := (blc_cid c, blc_my_mtu c, blc_peer_mtu c, blc_default_mtu c, blc_flags c, blc_rx_fn c).
Record same_config (conn : nat) (s s' : hs_st) : Prop := {
  sc_chan : ∀ c, chan_config (chan_of s' c) = chan_config (chan_of s c);
  sc_other : ∀ k, k ≠ conn → conn_of s' k = conn_of s k;
  sc_conn : set_rx_chan None (conn_of s' conn) = set_rx_chan None (conn_of s conn);
  sc_conns : ble_hs_conns s' = ble_hs_conns s;
}.

#[local] Instance same_config_preorder conn : PreOrder (same_config conn).
Proof.
  split; [by intros s|]. intros s1 s2 s3 [A1 A2 A3 A4] [B1 B2 B3 B4].
  split; [intros c; by rewrite B1|intros k Hk; by rewrite B2, A2|by rewrite B3|by rewrite B4].
Qed.

Lemma chan_of_upd c f s c' : chan_of (upd_chan c f s) c' = if decide (c' = c) then f (chan_of s c) else chan_of s c'.
Proof.
  unfold chan_of, upd_chan; simpl. destruct (decide (c' = c)) as [->|Hne];
    [by rewrite lookup_total_insert_eq|by rewrite lookup_total_insert_ne by congruence].
Qed.
Lemma hs_conn_of_upd k f s k' : conn_of (upd_conn k f s) k' = if decide (k' = k) then f (conn_of s k) else conn_of s k'.
Proof.
  unfold conn_of, upd_conn; simpl. destruct (decide (k' = k)) as [->|Hne];
    [by rewrite lookup_total_insert_eq|by rewrite lookup_total_insert_ne by congruence].
Qed.

Lemma wp_hs_bufs {A} (m : M bstate A) (Q : A → hs_st → Prop) s :
  wp m (λ a b, Q a (set_bufs b s)) (hs_bufs s) → wp (on_bufs m) Q s.
Proof. unfold wp, on_bufs. by destruct (m (hs_bufs s)) as [[a b]|]. Qed.

(** A read of the buffers. *)
Lemma on_bufs_read {A} (m : M bstate A) a s : m (hs_bufs s) = Ret (a, hs_bufs s) → on_bufs m s = Ret (a, s).
Proof. unfold on_bufs. intros ->. by destruct s. Qed.
Lemma free_null_run s : on_bufs (os_mbuf_free_chain 0) s = Ret (OS_OK, s).
Proof. by apply on_bufs_read. Qed.
Lemma pktlen_run s a l d : held o BL (hs_bufs s) a l d → OS_PKTLEN_at a s = Ret (Z.of_nat (length d), s).
Proof.
  intros Hd. destruct (held_pktlen _ _ _ _ _ _ Hd) as (m & Hm & _ & _ & <-). unfold OS_PKTLEN_at.
  erewrite bind_ret_run by apply on_bufs_read, mbuf_at_run, Hm. done.
Qed.

Lemma same_config_chan conn c f s : (∀ x, chan_config (f x) = chan_config x) → same_config conn s (upd_chan c f s).
Proof. intros Hf. split; try done. intros c'. rewrite chan_of_upd. case_decide; [subst; apply Hf|done]. Qed.
Lemma same_config_conn conn v s : same_config conn s (upd_conn conn (set_rx_chan v) s).
Proof.
  split; try done.
  - intros k Hk. rewrite hs_conn_of_upd. by case_decide.
  - rewrite hs_conn_of_upd. by rewrite decide_True.
Qed.

(** A channel's packet is replaced; the others are framed. *)
Lemma rx_rep_replace c l' T L part part' free free' s s' :
  rx_rep L part free s → heap_ok o BL free' (hs_bufs s') → frame T (hs_bufs s) (hs_bufs s') →
  (∀ c', c' ≠ c → chan_of s' c' = chan_of s c') →
  (∀ c' b, c' ≠ c → b ∈ L c' → b ∉ T ∧ b ∉ l') →
  (∀ c', c' ≠ c → part' !! c' = part !! c') →
  match part' !! c with
  | None => blc_rx_buf (chan_of s' c) = 0 ∧ l' = []
  | Some (len, d) => blc_rx_len (chan_of s' c) = len ∧ held o BL (hs_bufs s') (blc_rx_buf (chan_of s' c)) l' d
  end →
  rx_rep (fn_set c l' L) part' free' s'.
Proof.
  intros [R1 R2 R3] Hh Hf Hc Hd Hp Hnew. split; [done| |].
  - intros c'. unfold fn_set. destruct (decide (c' = c)) as [->|Hne]; [done|].
    rewrite Hp, Hc by done. specialize (R2 c'). destruct (part !! c') as [[len d]|]; [|done].
    destruct R2 as [? R2]. split; [done|]. eapply held_frame; [done| |done]. intros b Hb. by eapply Hd.
  - intros c1 c2 b. unfold fn_set. repeat case_decide; subst; try done; [|..|by apply R3].
    + intros H1 H2. by destruct (Hd c2 b).
    + intros H1 H2. by destruct (Hd c1 b).
Qed.
(** The outcome of receiving [l0], as the abstract machine has it: what the channels hold
    follows its state, a delivered packet is handed to the caller and nobody else has it,
    every mbuf is still accounted for, and nothing else of the host has changed. *)
Definition rx_post (conn : nat) (L0 : nat → list Z) (l0 free0 : list Z) (s : hs_st) (res : rx_result * rx_abs)
    (r : Z * option (nat * Z)) (s' : hs_st) : Prop :=
  ∃ L free l, rx_rep L (ra_part res.2) free s' ∧ bhc_rx_chan (conn_of s' conn) = ra_cur res.2 ∧
    match res.1 with
    | Refused rc => r = (rc, None) ∧ l = []
    | Deliver c d => ∃ buf, r = (0, Some (blc_rx_fn (chan_of s c), buf)) ∧ held o BL (hs_bufs s') buf l d ∧
        (∀ c b, b ∈ L c → b ∉ l)
    end ∧ (accounted L0 l0 free0 → accounted L l free) ∧ same_config conn s s'.

Lemma rx_post_from conn L0 l0 free0 L1 l1 free1 s s1 res r s' :
  same_config conn s s1 → (accounted L0 l0 free0 → accounted L1 l1 free1) →
  rx_post conn L1 l1 free1 s1 res r s' → rx_post conn L0 l0 free0 s res r s'.
Proof.
  intros Hc Ha (L & free & l & H1 & H2 & H3 & H4 & H5). exists L, free, l. split_and!; [done|done| |by auto|by etrans].
  destruct (res.1) as [c d|rc]; [|done]. destruct H3 as (buf & -> & ?). exists buf. split; [|done].
  pose proof (sc_chan _ _ _ Hc c) as Hcfg. unfold chan_config in Hcfg. by injection Hcfg as _ _ _ _ _ ->.
Qed.

(** Forgetting a packet. *)
Definition forget (conn c : nat) (s : hs_st) : hs_st :=
  upd_chan c (set_rx_len 0) (upd_chan c (set_rx_buf 0) (upd_conn conn (set_rx_chan None) s)).
Lemma forget_run conn c s : ble_l2cap_forget_rx conn c s = Ret (tt, forget conn c s).
Proof. reflexivity. Qed.

Lemma forget_config conn c s : same_config conn s (forget conn c s).
Proof.
  etrans; [apply same_config_conn|]. etrans; apply same_config_chan; intros x; by destruct x.
Qed.
Lemma forget_chan conn c s : blc_rx_buf (chan_of (forget conn c s) c) = 0.
Proof. unfold forget. by rewrite !chan_of_upd, !decide_True by done. Qed.
Lemma forget_other conn c s c' : c' ≠ c → chan_of (forget conn c s) c' = chan_of s c'.
Proof. intros Hne. unfold forget. by rewrite !chan_of_upd, !decide_False by done. Qed.
Lemma forget_cur conn c s : bhc_rx_chan (conn_of (forget conn c s) conn) = None.
Proof. unfold forget. change (bhc_rx_chan (conn_of (upd_conn conn (set_rx_chan None) s) conn) = None). by rewrite hs_conn_of_upd, decide_True. Qed.

Lemma forget_rep conn c L part free s :
  rx_rep L part free s → rx_rep (fn_set c [] L) (delete c part) free (forget conn c s).
Proof.
  intros R. eapply (rx_rep_replace c [] [] L part _ free); [done|apply R|done|apply forget_other|..].
  - intros c' b _ _. split; apply not_elem_of_nil.
  - intros c' Hne. by rewrite lookup_delete_ne.
  - rewrite lookup_delete_eq. split; [apply forget_chan|done].
Qed.

Lemma accounted_moved c L l free : accounted L l free → accounted (fn_set c [] L) (L c ++ l) free.
Proof.
  intros Ha b Hb. rewrite elem_of_app. destruct (Ha b Hb) as [?|[?|[c' Hc']]]; [by left|by right; left; right|].
  destruct (decide (c' = c)) as [->|Hne]; [by right; left; left|]. right; right. exists c'. unfold fn_set. by rewrite decide_False.
Qed.
Lemma accounted_freed L l1 l2 free : accounted L (l1 ++ l2) free → accounted L l2 (reverse l1 ++ free).
Proof.
  intros Ha b Hb. rewrite elem_of_app, elem_of_reverse. destruct (Ha b Hb) as [?|[Hl|?]]; [by left; right| |by right; right].
  apply elem_of_app in Hl as [?|?]; [by left; left|by right; left].
Qed.

(** Discarding the packet of a channel gives its mbufs back. *)
Lemma discard_rx_ok conn c L part free s len d :
  rx_rep L part free s → part !! c = Some (len, d) →
  wp (ble_l2cap_discard_rx conn c) (λ _ s', rx_rep (fn_set c [] L) (delete c part) (reverse (L c) ++ free) s' ∧
    bhc_rx_chan (conn_of s' conn) = None ∧ same_config conn s s' ∧ frame (L c) (hs_bufs s) (hs_bufs s')) s.
Proof.
  intros R Hp. pose proof (rp_chan _ _ _ _ R c) as Hc. rewrite Hp in Hc. destruct Hc as [_ Hheld].
  unfold ble_l2cap_discard_rx. wp_step. apply wp_bind, wp_hs_bufs.
  eapply wp_mono; [by eapply free_held; [apply R|]|]. intros rc b (_ & Hh & Hf & _).
  eapply wp_eq; [apply forget_run|]. split_and!.
  - eapply (rx_rep_replace c [] (L c)); [done|done|done|intros c' Hne; by rewrite forget_other|..].
    + intros c' x Hne Hx. split; [intros Hx'; apply Hne; by eapply (rp_disj _ _ _ _ R)|apply not_elem_of_nil].
    + intros c' Hne. by rewrite lookup_delete_ne.
    + rewrite lookup_delete_eq. split; [apply forget_chan|done].
  - apply forget_cur.
  - transitivity (set_bufs b s); [done|apply forget_config].
  - done.
Qed.

(** The check at the end of [ble_l2cap_rx_payload], when the fragment has been added. *)
Lemma rx_check_ok conn c len d L part free s :
  rx_rep L part free s → part !! c = Some (len, d) →
  wp (s ← get;
      pktlen ← OS_PKTLEN_at (blc_rx_buf (chan_of s c));
      let len_diff := pktlen - blc_rx_len (chan_of s c) in
      if 0 <? len_diff then
        ble_l2cap_discard_rx conn c ;; mret (BLE_HS_EBADDATA, None)
      else if len_diff =? 0 then
        let out := (blc_rx_fn (chan_of s c), blc_rx_buf (chan_of s c)) in
        ble_l2cap_forget_rx conn c ;; mret (0, Some out)
      else mret (BLE_HS_EAGAIN, None))
    (rx_post conn L [] free s (collect c len d (mk_abs (bhc_rx_chan (conn_of s conn)) part))) s.
Proof.
  intros R Hp. pose proof (rp_chan _ _ _ _ R c) as Hc. rewrite Hp in Hc. destruct Hc as [Hlen Hheld].
  wp_step. apply wp_bind. eapply wp_eq; [by eapply pktlen_run|]. cbv zeta. rewrite Hlen. unfold collect. cbn [ra_part ra_cur].
  destruct (Z.ltb_spec len (Z.of_nat (length d))) as [Hlt|Hge].
  - rewrite (proj2 (Z.ltb_lt _ _)) by lia. apply wp_bind. eapply wp_mono; [by eapply (discard_rx_ok conn c L part free)|].
    intros [] s' (R' & Hcur & Hcfg & _). apply wp_ret. exists (fn_set c [] L), (reverse (L c) ++ free), [].
    split_and!; try done. intros Ha. apply accounted_freed, accounted_moved. done.
  - rewrite (proj2 (Z.ltb_ge _ _)) by lia. destruct (Z.eqb_spec (Z.of_nat (length d)) len) as [Heq|Hne].
    + rewrite (proj2 (Z.eqb_eq _ _)) by lia. apply wp_bind. eapply wp_eq; [apply forget_run|]. apply wp_ret.
      exists (fn_set c [] L), free, (L c). split_and!; [by apply forget_rep|apply forget_cur| | |apply forget_config].
      * eexists. split_and!; [done|done|]. intros c' b. unfold fn_set. case_decide as Hd; [by intros ?%elem_of_nil|].
        intros Hb Hb'. apply Hd. by eapply (rp_disj _ _ _ _ R).
      * intros Ha. pose proof (accounted_moved c _ _ _ Ha) as Ha'. by rewrite app_nil_r in Ha'.
    + rewrite (proj2 (Z.eqb_neq _ _)) by lia. apply wp_ret. exists L, free, []. cbn [ra_part ra_cur snd fst].
      rewrite insert_id by done. by split_and!.
Qed.
(** What [ble_l2cap_rx_payload] collects: the packet begun in the channel, if there is
    one, followed by the fragment. *)
Definition begun (c : nat) (part : gmap nat (Z * list Z)) : list Z :=
  match part !! c with Some (_, d) => d | None => [] end.

Lemma collect_insert c len d e cur part :
  collect c len d (mk_abs cur (<[c := e]> part)) = collect c len d (mk_abs cur part).
Proof. unfold collect. cbn. by rewrite delete_insert_eq, insert_insert_eq. Qed.

Lemma rx_payload_ok conn c om l0 frag L part free s :
  rx_rep L part free s → held o BL (hs_bufs s) om l0 frag → (∀ c b, b ∈ L c → b ∉ l0) →
  wp (ble_l2cap_rx_payload conn c om)
    (rx_post conn L l0 free s
      (collect c (blc_rx_len (chan_of s c)) (begun c part ++ frag) (mk_abs (bhc_rx_chan (conn_of s conn)) part))) s.
Proof.
  intros R Hom Hdis. pose proof (rp_chan _ _ _ _ R c) as Hc. unfold begun, ble_l2cap_rx_payload.
  wp_step. apply wp_bind. set (len := blc_rx_len (chan_of s c)).
  (* what the first step establishes, and why it is enough *)
  cut (∀ s1 l1 d1, heap_ok o BL free (hs_bufs s1) → frame l1 (hs_bufs s) (hs_bufs s1) →
    held o BL (hs_bufs s1) (blc_rx_buf (chan_of s1 c)) l1 d1 → (∀ b, b ∈ l1 ↔ b ∈ L c ∨ b ∈ l0) →
    (∀ c', c' ≠ c → chan_of s1 c' = chan_of s c') → blc_rx_len (chan_of s1 c) = len →
    same_config conn s s1 → conn_of s1 conn = conn_of s conn →
    wp (s ← get;
        pktlen ← OS_PKTLEN_at (blc_rx_buf (chan_of s c));
        let len_diff := pktlen - blc_rx_len (chan_of s c) in
        if 0 <? len_diff then ble_l2cap_discard_rx conn c ;; mret (BLE_HS_EBADDATA, None)
        else if len_diff =? 0 then
          let out := (blc_rx_fn (chan_of s c), blc_rx_buf (chan_of s c)) in
          ble_l2cap_forget_rx conn c ;; mret (0, Some out)
        else mret (BLE_HS_EAGAIN, None))
      (rx_post conn L l0 free s (collect c len d1 (mk_abs (bhc_rx_chan (conn_of s conn)) part))) s1).
  { intros Hcut. destruct (part !! c) as [[len' d]|] eqn:Hp.
    - destruct Hc as [<- Hheld]. rewrite (proj2 (Z.eqb_neq _ _)) by apply (pk_nonnull _ _ _ _ _ (hd_packet _ _ _ _ _ _ Hheld)).
      apply wp_hs_bufs. eapply wp_mono; [apply (concat_held o BL free _ _ (L c) d _ l0 frag); [apply R|done|done|by apply Hdis]|].
      intros [] b (Hh1 & Hhp & Hf). apply (Hcut _ (L c ++ l0)); try done. intros x. apply elem_of_app.
    - destruct Hc as [Hz HL]. rewrite (proj2 (Z.eqb_eq _ _)) by done. wp_step.
      apply (Hcut _ l0); try done.
      + apply R.
      + by rewrite chan_of_upd, decide_True.
      + intros b. rewrite HL. split; [by right|]. intros [?%elem_of_nil|?]; done.
      + intros c' Hne. by rewrite chan_of_upd, decide_False.
      + by rewrite chan_of_upd, decide_True.
      + apply same_config_chan. by intros []. }
  intros s1 l1 d1 Hh Hf Hd Hl1 Hc1 Hlen Hcfg Hk.
  eapply wp_mono; [apply (rx_check_ok conn c len d1 (fn_set c l1 L) (<[c := (len, d1)]> part) free)|].
  - eapply (rx_rep_replace c l1 l1); [done|done|done|done|..].
    + intros c' b Hne Hb. assert (b ∉ l1); [|done]. intros [Hb'|Hb']%Hl1; [|by eapply Hdis].
      apply Hne. by eapply (rp_disj _ _ _ _ R).
    + intros c' Hne. by rewrite lookup_insert_ne.
    + by rewrite lookup_insert_eq.
  - by rewrite lookup_insert_eq.
  - intros r s'. rewrite collect_insert, Hk. apply rx_post_from; [done|].
    intros Ha b Hb. destruct (Ha b Hb) as [?|[?|[c' Hc']]]; [by left|right; right..].
    + exists c. unfold fn_set. rewrite decide_True by done. apply Hl1. by right.
    + destruct (decide (c' = c)) as [->|Hne]; [exists c|exists c']; unfold fn_set; [rewrite decide_True by done|by rewrite decide_False].
      apply Hl1. by left.
Qed.

(** ** Reception *)

Lemma chan_find_ext s s' cid l :
  (∀ c, chan_of s' c = chan_of s c) → chan_find_loop s' cid l = chan_find_loop s cid l.
Proof. intros Hc. induction l as [|c l IH]; [done|]. simpl. by rewrite Hc, IH. Qed.

(** A change of mbufs that no channel holds. *)
Lemma rx_rep_frame L part free free' l0 s b :
  rx_rep L part free s → heap_ok o BL free' b → frame l0 (hs_bufs s) b → (∀ c b, b ∈ L c → b ∉ l0) →
  rx_rep L part free' (set_bufs b s).
Proof.
  intros R Hh Hf Hdis. split; [done| |apply R]. intros c. pose proof (rp_chan _ _ _ _ R c) as Hc.
  destruct (part !! c) as [[len d]|]; [|done]. destruct Hc as [? Hc]. split; [done|].
  eapply held_frame; [done|apply Hdis|done].
Qed.

Lemma rx_error_ok conn om l0 frag L part free s rc :
  rx_rep L part free s → held o BL (hs_bufs s) om l0 frag → (∀ c b, b ∈ L c → b ∉ l0) →
  wp (rx_error om rc) (rx_post conn L l0 free s (Refused rc, mk_abs (bhc_rx_chan (conn_of s conn)) part)) s.
Proof.
  intros R Hom Hdis. unfold rx_error. apply wp_bind, wp_hs_bufs.
  eapply wp_mono; [by eapply free_held; [apply R|]|]. intros rc' b (_ & Hh & Hf & _). apply wp_ret.
  exists L, (reverse l0 ++ free), []. split_and!; try done.
  - by eapply rx_rep_frame.
  - intros Ha. apply accounted_freed. by rewrite app_nil_r.
Qed.

(** The header of a first fragment. *)
Lemma parse_hdr_run s om l0 frag :
  held o BL (hs_bufs s) om l0 frag →
  ble_l2cap_parse_hdr om 0 s =
    Ret (if decide (length frag < 4)%nat then inl BLE_HS_EMSGSIZE else inr (mk_l2cap_hdr (le16_at 0 frag) (le16_at 2 frag)), s).
Proof.
  intros Hom. unfold ble_l2cap_parse_hdr, BLE_L2CAP_HDR_SZ.
  erewrite bind_ret_run by (apply on_bufs_read; by eapply copydata_held). unfold copy_result. cbn beta iota.
  rewrite drop_0, Z.sub_0_r. destruct (decide (length frag < 4)%nat) as [Hlt|Hge].
  - rewrite (proj2 (Z.leb_gt 4 _)) by lia. by rewrite andb_false_r.
  - rewrite !(proj2 (Z.leb_le _ _)) by lia. cbn [andb].
    destruct frag as [|a [|b [|c [|d frag]]]]; [simpl in Hge; lia..|]. reflexivity.
Qed.

(** A fragment is handled the way the abstract reassembler handles it. *)
Lemma l2cap_rx_ok conn hci_hdr om l0 frag L part free s :
  rx_rep L part free s → held o BL (hs_bufs s) om l0 frag → (∀ c b, b ∈ L c → b ∉ l0) →
  wp (ble_l2cap_rx conn hci_hdr om)
    (rx_post conn L l0 free s
      (reassemble (λ cid, chan_find_loop s cid (bhc_channels (conn_of s conn)))
         (BLE_HCI_DATA_PB (hdh_handle_pb_bc hci_hdr)) frag (mk_abs (bhc_rx_chan (conn_of s conn)) part))) s.
Proof.
  intros R Hom Hdis. unfold ble_l2cap_rx, reassemble. cbn [ra_cur ra_part].
  destruct (_ =? BLE_HCI_PB_FIRST_FLUSH); [|destruct (_ =? BLE_HCI_PB_MIDDLE)].
  - apply wp_bind. eapply wp_eq; [by eapply parse_hdr_run|].
    destruct (decide (length frag < 4)%nat) as [Hlt|Hge]; [by eapply rx_error_ok|].
    apply wp_bind, wp_hs_bufs. eapply wp_mono; [by eapply (adj_held o BL free); [apply R|..]|].
    intros [] b (Hom1 & Hh1 & Hf1). change (Z.to_nat BLE_L2CAP_HDR_SZ) with 4%nat in Hom1.
    set (s1 := set_bufs b s).
    assert (R1 : rx_rep L part free s1).
    { by eapply rx_rep_frame. }
    apply wp_bind. eapply wp_eq; [reflexivity|]. cbn [blh_cid].
    rewrite (chan_find_ext s s1) by done. change (conn_of s1 conn) with (conn_of s conn).
    destruct (chan_find_loop s _ _) as [c|].
    2:{ eapply wp_mono; [by eapply (rx_error_ok conn)|]. intros r s'. by apply rx_post_from. }
    wp_step. apply wp_bind. set (n := le16_at 0 frag).
    (* the channel after a begun packet has been discarded *)
    cut (∀ s2 L2 free2, rx_rep L2 (delete c part) free2 s2 → held o BL (hs_bufs s2) om l0 (drop 4 frag) →
      (∀ c b, b ∈ L2 c → b ∉ l0) → same_config conn s1 s2 → (accounted L l0 free → accounted L2 l0 free2) →
      wp (modify (upd_conn conn (set_rx_chan (Some c))) ;; modify (upd_chan c (set_rx_len n)) ;; ble_l2cap_rx_payload conn c om)
        (rx_post conn L l0 free s (collect c n (drop 4 frag) (mk_abs (Some c) (delete c part)))) s2).
    { intros Hcut. pose proof (rp_chan _ _ _ _ R1 c) as Hc. destruct (part !! c) as [[len d]|] eqn:Hp.
      - destruct Hc as [_ Hc]. rewrite (proj2 (Z.eqb_neq _ _)) by apply (pk_nonnull _ _ _ _ _ (hd_packet _ _ _ _ _ _ Hc)).
        eapply wp_mono; [by eapply (discard_rx_ok conn c L part free)|]. intros [] s2 (R2 & _ & Hcfg & Hf2).
        eapply Hcut; [done| | |done|].
        + eapply held_frame; [done| |done]. intros x Hx Hx'. by eapply Hdis.
        + intros c' x. unfold fn_set. case_decide; [by intros ?%elem_of_nil|apply Hdis].
        + intros Ha. by apply accounted_freed, accounted_moved.
      - destruct Hc as [Hz _]. rewrite (proj2 (Z.eqb_eq _ _)) by done. apply wp_ret.
        eapply (Hcut _ L free); try done. by rewrite delete_id. }
    intros s2 L2 free2 R2 Hom2 Hdis2 Hcfg Ha2. wp_step. wp_step.
    set (s3 := upd_chan c (set_rx_len n) (upd_conn conn (set_rx_chan (Some c)) s2)).
    assert (Hrest : ∀ c', c' ≠ c → chan_of s3 c' = chan_of s2 c').
    { intros c' Hne. unfold s3. by rewrite chan_of_upd, decide_False. }
    assert (R3 : rx_rep L2 (delete c part) free2 s3).
    { split; [apply R2| |apply R2]. intros c'. pose proof (rp_chan _ _ _ _ R2 c') as Hc.
      destruct (decide (c' = c)) as [->|Hne]; [|by rewrite Hrest by done].
      rewrite lookup_delete_eq in Hc |- *. unfold s3. by rewrite chan_of_upd, decide_True. }
    eapply wp_mono; [by eapply (rx_payload_ok conn c om l0 (drop 4 frag))|].
    intros r s'. unfold begun. rewrite lookup_delete_eq. cbn [app]. fold s3.
    replace (blc_rx_len (chan_of s3 c)) with n by (unfold s3; by rewrite chan_of_upd, decide_True).
    replace (bhc_rx_chan (conn_of s3 conn)) with (Some c).
    2:{ unfold s3. change (Some c = bhc_rx_chan (conn_of (upd_conn conn (set_rx_chan (Some c)) s2) conn)). by rewrite hs_conn_of_upd, decide_True. }
    apply rx_post_from; [|done]. transitivity s1; [by split|]. etrans; [exact Hcfg|]. etrans; [apply (same_config_conn conn (Some c))|].
    apply same_config_chan. by intros [].
  - apply wp_bind, wp_get. destruct (bhc_rx_chan (conn_of s conn)) as [c|] eqn:Hcur.
    2:{ pose proof (rx_error_ok conn om l0 frag L part free s BLE_HS_EBADDATA R Hom Hdis) as Herr. rewrite Hcur in Herr. exact Herr. }
    pose proof (rp_chan _ _ _ _ R c) as Hc. destruct (part !! c) as [[len d]|] eqn:Hp.
    + destruct Hc as [<- Hc]. rewrite (proj2 (Z.eqb_neq _ _)) by apply (pk_nonnull _ _ _ _ _ (hd_packet _ _ _ _ _ _ Hc)).
      eapply wp_mono; [by eapply (rx_payload_ok conn c om l0 frag)|]. intros r s'. unfold begun. by rewrite Hp, Hcur.
    + destruct Hc as [Hz _]. rewrite (proj2 (Z.eqb_eq _ _)) by done.
      pose proof (rx_error_ok conn om l0 frag L part free s BLE_HS_EBADDATA R Hom Hdis) as Herr. by rewrite Hcur in Herr.
  - by eapply rx_error_ok.
Qed.

(** ** Transmission *)

(** A data packet: the header of the host controller interface with handle and flags [h],
    the L2CAP header, and the data. *)
Definition hci_frame (h cid : Z) (d : list Z) : list Z :=
  le16 h ++ le16 (Z.of_nat (length d) + 4) ++ le16 (Z.of_nat (length d)) ++ le16 cid ++ d.

Lemma le16_at_0 x l : is_u16 x → le16_at 0 (le16 x ++ l) = x.
Proof. intros Hx. unfold le16_at, le16; simpl. by apply le16_value. Qed.
Lemma le16_at_2 x y l : is_u16 y → le16_at 2 (le16 x ++ le16 y ++ l) = y.
Proof. intros Hy. unfold le16_at, le16; simpl. by apply le16_value. Qed.

Lemma htole16_run x a b l : is_u16 x → htole16 0 x (a :: b :: l) = Ret (tt, le16 x ++ l).
Proof.
  intros Hx. destruct (le16_bytes x Hx) as [E1 E2]. unfold htole16, set_u8.
  cbn -[u8 Z.shiftr]. by rewrite E1, E2.
Qed.
Lemma htole16_run_2 x a b c d l : is_u16 x → htole16 2 x (a :: b :: c :: d :: l) = Ret (tt, a :: b :: le16 x ++ l).
Proof.
  intros Hx. destruct (le16_bytes x Hx) as [E1 E2]. unfold htole16, set_u8.
  cbn -[u8 Z.shiftr]. by rewrite E1, E2.
Qed.

(** A header in front of a packet that has room for it. *)
Lemma prepend_bytes_ok om l0 d free bytes s :
  heap_ok o BL free (hs_bufs s) → held o BL (hs_bufs s) om l0 d → 0 < Z.of_nat (length bytes) <= room (hs_bufs s) om →
  wp (on_bufs (prepend_bytes om bytes)) (λ r s', r = om ∧ (∃ b, s' = set_bufs b s) ∧ heap_ok o BL free (hs_bufs s') ∧
    held o BL (hs_bufs s') om l0 (bytes ++ d) ∧ frame [om] (hs_bufs s) (hs_bufs s') ∧
    room (hs_bufs s') om = room (hs_bufs s) om - Z.of_nat (length bytes)) s.
Proof.
  intros Hh Hd Hn. apply wp_hs_bufs. pose proof (prepend_held o BL free _ _ _ _ bytes Hh Hd Hn) as Hw.
  apply wp_run in Hw as (r & b & Hrun & -> & H1 & H2 & H3 & H4).
  unfold wp, prepend_bytes. unfold mbind, M_bind in Hrun |- *. destruct (os_mbuf_prepend _ _ _) as [[om' b']|]; [|done].
  assert (om' = om) as ->.
  { destruct (mbuf_at om' b') as [[m b1]|]; [|done]. destruct (write_buf _ _ _ _) as [[[] b2]|]; [|done]. by injection Hrun. }
  rewrite (proj2 (Z.eqb_neq _ _)) by apply (pk_nonnull _ _ _ _ _ (hd_packet _ _ _ _ _ _ Hd)).
  rewrite Hrun. split_and!; try done. by exists b.
Qed.

Lemma join_run h s : 0 <= h <= 0x0fff → host_hci_handle_pb_bc_join h BLE_HCI_PB_FIRST_NON_FLUSH 0 s = Ret (h, s).
Proof.
  intros Hh. unfold host_hci_handle_pb_bc_join, assert_. rewrite (proj2 (Z.leb_le h 0x0fff)) by lia.
  unfold mbind, M_bind, mret, M_ret. cbn -[u16]. rewrite !Z.lor_0_r. do 2 f_equal. apply u16_small. lia.
Qed.

Lemma data_tx_run (ble_hs_tx_data : Z → H Z) conn om s1 s2 :
  host_hci_data_hdr_prepend om (bhc_handle (conn_of s1 conn)) BLE_HCI_PB_FIRST_NON_FLUSH s1 = Ret (om, s2) → om ≠ 0 →
  host_hci_data_tx ble_hs_tx_data conn om s1 =
    (rc ← ble_hs_tx_data om;
     if negb (rc =? 0) then mret rc
     else modify (upd_conn conn (λ c, set_outstanding (u16 (bhc_outstanding_pkts c + 1)) c)) ;; mret 0) s2.
Proof.
  intros Hrun Hnz. unfold host_hci_data_tx. erewrite bind_ret_run by done. erewrite bind_ret_run by exact Hrun.
  by rewrite (proj2 (Z.eqb_neq _ _)).
Qed.

(** [ble_l2cap_tx] passes the transport a packet with both headers and the data, and counts
    it as outstanding if the transport accepts it. *)
Lemma l2cap_tx_ok (ble_hs_tx_data : Z → H Z) conn chan om l0 d free s :
  heap_ok o BL free (hs_bufs s) → held o BL (hs_bufs s) om l0 d → 8 <= room (hs_bufs s) om →
  0 <= bhc_handle (conn_of s conn) <= 0x0fff → is_u16 (blc_cid (chan_of s chan)) →
  ∃ b, let s1 := set_bufs b s in
    heap_ok o BL free b ∧ frame [om] (hs_bufs s) b ∧
    held o BL b om l0 (hci_frame (bhc_handle (conn_of s conn)) (blc_cid (chan_of s chan)) d) ∧
    ble_l2cap_tx ble_hs_tx_data conn chan om s =
      (rc ← ble_hs_tx_data om;
       if rc =? 0 then modify (upd_conn conn (λ c, set_outstanding (u16 (bhc_outstanding_pkts c + 1)) c)) ;; mret 0
       else mret rc) s1.
Proof.
  intros Hh Hd Hroom Hhandle Hcid. set (cid := blc_cid _) in *. set (h := bhc_handle _) in *.
  pose proof (held_length _ _ _ _ _ _ _ Hh Hd) as Hlen.
  pose proof (pk_nonnull _ _ _ _ _ (hd_packet _ _ _ _ _ _ Hd)) as Hnz.
  assert (Hn1 : is_u16 (Z.of_nat (length d))) by (unfold is_u16; lia).
  pose proof (prepend_bytes_ok om l0 d free (le16 (Z.of_nat (length d)) ++ le16 cid) s Hh Hd ltac:(simpl; lia)) as Hw1.
  apply wp_run in Hw1 as (r1 & s1 & Hrun1 & -> & (b1 & ->) & Hh1 & Hd1 & Hf1 & Hr1).
  pose proof (held_length _ _ _ _ _ _ _ Hh1 Hd1) as Hlen1.
  set (n2 := Z.of_nat (length ((le16 (Z.of_nat (length d)) ++ le16 cid) ++ d))) in *.
  assert (Hn2 : n2 = Z.of_nat (length d) + 4) by (unfold n2; rewrite !length_app; simpl; lia).
  pose proof (prepend_bytes_ok om l0 _ free (le16 h ++ le16 n2) (set_bufs b1 s) Hh1 Hd1 ltac:(rewrite Hr1; simpl; lia)) as Hw2.
  apply wp_run in Hw2 as (r2 & s2 & Hrun2 & -> & (b2 & ->) & Hh2 & Hd2 & Hf2 & Hr2).
  exists b2. cbv zeta. split_and!; [done| | |].
  - eapply frame_weaken; [by eapply frame_trans|]. intros x. rewrite elem_of_app. tauto.
  - unfold hci_frame. rewrite <- Hn2. rewrite <- !(assoc_L (++)) in Hd2. exact Hd2.
  - unfold ble_l2cap_tx. erewrite bind_ret_run by done. erewrite bind_ret_run by by eapply pktlen_run.
    assert (Hhdr : ble_l2cap_prepend_hdr om cid (Z.of_nat (length d)) s = Ret (om, set_bufs b1 s)).
    { unfold ble_l2cap_prepend_hdr. erewrite bind_ret_run.
      2:{ unfold with_local. erewrite bind_ret_run by by apply htole16_run.
          rewrite (htole16_run_2 cid (Z.of_nat (length d) mod 256) (Z.of_nat (length d) / 256) 0 0 [] Hcid : htole16 2 cid (le16 _ ++ [0; 0]) = _).
          reflexivity. }
      exact Hrun1. }
    fold cid. erewrite bind_ret_run by exact Hhdr. cbn beta iota. rewrite (proj2 (Z.eqb_neq _ _)) by done.
    assert (Hhdr2 : host_hci_data_hdr_prepend om h BLE_HCI_PB_FIRST_NON_FLUSH (set_bufs b1 s) = Ret (om, set_bufs b2 s)).
    { unfold host_hci_data_hdr_prepend. erewrite bind_ret_run by by apply join_run. cbn beta.
      erewrite bind_ret_run by by eapply pktlen_run. cbn beta. fold n2.
      erewrite bind_ret_run by (unfold with_local; erewrite htole16_run_2 by (unfold is_u16; lia); done).
      exact Hrun2. }
    unfold mbind at 1, M_bind at 1. rewrite (data_tx_run ble_hs_tx_data conn om (set_bufs b1 s) (set_bufs b2 s) Hhdr2 Hnz).
    unfold mbind, M_bind, mret, M_ret. destruct (ble_hs_tx_data om _) as [[rc s3]|]; [|done].
    destruct (rc =? 0); cbn [negb]; unfold modify; cbn beta iota; by rewrite free_null_run.
Qed.

(** ** Received data packets *)

Lemma hdr_strip_ok om l0 raw L part free s :
  rx_rep L part free s → held o BL (hs_bufs s) om l0 raw → (∀ c b, b ∈ L c → b ∉ l0) →
  wp (host_hci_data_hdr_strip om) (λ r s', ∃ b, s' = set_bufs b s ∧ rx_rep L part free s' ∧
    if decide (length raw < 4)%nat then r = inl BLE_HS_EMSGSIZE ∧ held o BL b om l0 raw
    else r = inr (mk_hci_hdr (le16_at 0 raw) (le16_at 2 raw)) ∧ held o BL b om l0 (drop 4 raw)) s.
Proof.
  intros R Hom Hdis. unfold host_hci_data_hdr_strip, BLE_HCI_DATA_HDR_SZ. apply wp_bind.
  eapply wp_eq; [by eapply on_bufs_read, copydata_held|]. unfold copy_result. cbn beta iota.
  rewrite drop_0, Z.sub_0_r. destruct (decide (length raw < 4)%nat) as [Hlt|Hge].
  - rewrite (proj2 (Z.leb_gt 4 _)) by lia. rewrite andb_false_r. apply wp_ret. exists (hs_bufs s). by destruct s.
  - rewrite !(proj2 (Z.leb_le _ _)) by lia. cbn [andb negb Z.eqb]. apply wp_bind, wp_hs_bufs.
    eapply wp_mono; [by eapply (adj_held o BL free); [apply R|..]|]. intros [] b (Hom1 & Hh1 & Hf1).
    destruct raw as [|x [|y [|z [|w raw]]]]; [simpl in Hge; lia..|].
    unfold wp. cbn -[le16_at]. exists b. split_and!; [done|by eapply rx_rep_frame|done|done].
Qed.

(** The bits of the first field of the header. *)
Definition frag_handle (raw : list Z) : Z := BLE_HCI_DATA_HANDLE (le16_at 0 raw).
Definition frag_flags (raw : list Z) : Z := BLE_HCI_DATA_PB (le16_at 0 raw).

(** What becomes of a received data packet: an error before it reaches a connection, or
    the connection and what the reassembler makes of the packet. *)
Definition classify (s : hs_st) (raw : list Z) : Z + nat :=
  if decide (length raw < 4)%nat then inl BLE_HS_EMSGSIZE
  else if decide (le16_at 2 raw = Z.of_nat (length raw) - 4) then
    match conn_find_loop s (frag_handle raw) (ble_hs_conns s) with
    | None => inl BLE_HS_ENOTCONN
    | Some conn => inr conn
    end
  else inl BLE_HS_EBADDATA.

Definition received (s : hs_st) (part : gmap nat (Z * list Z)) (conn : nat) (raw : list Z) : rx_result * rx_abs :=
  reassemble (λ cid, chan_find_loop s cid (bhc_channels (conn_of s conn))) (frag_flags raw) (drop 4 raw)
    (mk_abs (bhc_rx_chan (conn_of s conn)) part).

Lemma conn_find_ext s s' h l :
  (∀ k, conn_of s' k = conn_of s k) → conn_find_loop s' h l = conn_find_loop s h l.
Proof. intros Hc. induction l as [|k l IH]; [done|]. simpl. by rewrite Hc, IH. Qed.

Section data_rx.
Context (rx_cb : nat → Z → Z → H (Z * Z)).

(** An error that is reported before the packet reaches its connection frees it. *)
Lemma data_rx_refuse om l0 raw L part free s h rc :
  rx_rep L part free s → held o BL (hs_bufs s) om l0 raw → (∀ c b, b ∈ L c → b ∉ l0) → rc ≠ 0 → rc ≠ BLE_HS_EAGAIN →
  wp (on_bufs (os_mbuf_free_chain om) ;; data_rx_deliver rx_cb h (rc, None)) (λ rc' s', rc' = rc ∧
    rx_rep L part (reverse l0 ++ free) s' ∧ ∃ b, s' = set_bufs b s) s.
Proof.
  intros R Hom Hdis H0 H1. apply wp_bind, wp_hs_bufs. eapply wp_mono; [by eapply free_held; [apply R|]|].
  intros rc' b (_ & Hh & Hf & _). unfold data_rx_deliver. cbn [fst].
  rewrite (proj2 (Z.eqb_neq _ _)) by done. rewrite (proj2 (Z.eqb_neq _ _)) by done. apply wp_ret.
  split_and!; [done|by eapply rx_rep_frame|by exists b].
Qed.

Lemma data_rx_ok om l0 raw L part free s :
  rx_rep L part free s → held o BL (hs_bufs s) om l0 raw → (∀ c b, b ∈ L c → b ∉ l0) →
  match classify s raw with
  | inl rc => wp (host_hci_data_rx rx_cb om) (λ rc' s', rc' = rc ∧ rx_rep L part (reverse l0 ++ free) s' ∧
      ∃ b, s' = set_bufs b s) s
  | inr conn => ∃ r s', rx_post conn L l0 free s (received s part conn raw) r s' ∧
      host_hci_data_rx rx_cb om s = data_rx_deliver rx_cb (frag_handle raw) r s'
  end.
Proof.
  intros R Hom Hdis. pose proof (hdr_strip_ok _ _ _ _ _ _ _ R Hom Hdis) as Hs.
  apply wp_run in Hs as (r & s1 & Hrun & b & -> & R1 & Hr). unfold classify.
  destruct (decide (length raw < 4)%nat) as [Hlt|Hge].
  - destruct Hr as [-> Hom1]. unfold host_hci_data_rx. apply wp_bind. eapply wp_eq; [exact Hrun|].
    eapply wp_mono; [by eapply (data_rx_refuse om)|]. intros rc s' (-> & ? & b' & ->). split_and!; [done|done|by exists b'].
  - destruct Hr as [-> Hom1]. pose proof (pktlen_run _ _ _ _ (Hom1 : held o BL (hs_bufs (set_bufs b s)) _ _ _)) as Hpl.
    rewrite length_drop in Hpl. destruct (decide _) as [Hlen|Hlen].
    + assert (Hfind : ble_hs_conn_find (frag_handle raw) (set_bufs b s) =
        Ret (conn_find_loop s (frag_handle raw) (ble_hs_conns s), set_bufs b s)).
      { unfold ble_hs_conn_find, gets. by rewrite (conn_find_ext s). }
      destruct (conn_find_loop s _ _) as [conn|].
      * pose proof (l2cap_rx_ok conn (mk_hci_hdr (le16_at 0 raw) (le16_at 2 raw)) om l0 (drop 4 raw) L part free _ R1 Hom1 Hdis) as Hl.
        apply wp_run in Hl as (r & s' & Hrx & Hpost). exists r, s'. split.
        { rewrite (reassemble_ext _ (λ cid, chan_find_loop s cid (bhc_channels (conn_of s conn)))) in Hpost.
          2:{ intros cid. by apply chan_find_ext. }
          revert Hpost. apply rx_post_from; [by split|done]. }
        unfold host_hci_data_rx. erewrite bind_ret_run by exact Hrun. cbn beta iota. erewrite bind_ret_run by exact Hpl.
        cbn [hdh_len hdh_handle_pb_bc]. rewrite (proj2 (Z.eqb_eq _ _)) by lia. cbn [negb].
        erewrite bind_ret_run by exact Hfind. cbn beta iota. erewrite bind_ret_run by exact Hrx.
        erewrite bind_ret_run by apply free_null_run. done.
      * unfold host_hci_data_rx. apply wp_bind. eapply wp_eq; [exact Hrun|]. apply wp_bind. eapply wp_eq; [exact Hpl|].
        cbn [hdh_len hdh_handle_pb_bc]. rewrite (proj2 (Z.eqb_eq _ _)) by lia. cbn [negb].
        apply wp_bind. eapply wp_eq; [exact Hfind|]. cbn beta iota.
        eapply wp_mono; [by eapply (data_rx_refuse om)|]. intros rc s' (-> & ? & b' & ->). split_and!; [done|done|by exists b'].
    + unfold host_hci_data_rx. apply wp_bind. eapply wp_eq; [exact Hrun|]. apply wp_bind. eapply wp_eq; [exact Hpl|].
      cbn [hdh_len hdh_handle_pb_bc]. rewrite (proj2 (Z.eqb_neq _ _)) by lia. cbn [negb].
      eapply wp_mono; [by eapply (data_rx_refuse om)|]. intros rc s' (-> & ? & b' & ->). split_and!; [done|done|by exists b'].
Qed.
End data_rx.

(** ** A packet in fragments *)

Fixpoint feed (find : Z → option nat) (frags : list (Z * list Z)) (st : rx_abs) : list rx_result * rx_abs :=
  match frags with
  | [] => ([], st)
  | (pb, f) :: frags =>
      let '(r, st) := reassemble find pb f st in
      let '(rs, st) := feed find frags st in (r :: rs, st)
  end.

Lemma feed_middles find c n middles : ∀ d st,
  ra_cur st = Some c → ra_part st !! c = Some (n, d) → Forall (λ f, f ≠ []) middles → middles ≠ [] →
  n = Z.of_nat (length (d ++ concat middles)) →
  feed find (pair BLE_HCI_PB_MIDDLE <$> middles) st =
    (replicate (length middles - 1) (Refused BLE_HS_EAGAIN) ++ [Deliver c (d ++ concat middles)],
     mk_abs None (delete c (ra_part st))).
Proof.
  induction middles as [|f middles IH]; intros d st Hcur Hp Hne Hnn Hn; [done|].
  apply Forall_cons in Hne as [Hf Hne]. cbn [fmap list_fmap feed]. unfold reassemble.
  replace (BLE_HCI_PB_MIDDLE =? BLE_HCI_PB_FIRST_FLUSH) with false by done. rewrite Z.eqb_refl, Hcur, Hp.
  unfold collect. cbn [concat] in Hn |- *. rewrite (assoc_L (++)) in Hn |- *.
  rewrite length_app in Hn. destruct middles as [|g middles].
  - cbn [concat length] in Hn. rewrite (proj2 (Z.ltb_ge _ _)), (proj2 (Z.eqb_eq _ _)) by lia.
    cbn. by rewrite app_nil_r.
  - assert (0 < length (concat (g :: middles)))%nat.
    { apply Forall_cons in Hne as [Hg _]. cbn [concat]. rewrite length_app. destruct g; [done|simpl; lia]. }
    rewrite (proj2 (Z.ltb_ge _ _)), (proj2 (Z.eqb_neq _ _)) by lia.
    rewrite (IH (d ++ f)); [|done|cbn; by rewrite lookup_insert_eq|done|done|rewrite length_app; lia].
    cbn [ra_part length Nat.sub]. rewrite delete_insert_eq, Nat.sub_0_r. done.
Qed.

(** A packet of channel [c] that comes in any number of pieces is delivered with its last
    piece, whatever was being received before. *)
Lemma feed_packet find cid c first middles st :
  let d := first ++ concat middles in
  find cid = Some c → is_u16 cid → is_u16 (Z.of_nat (length d)) → Forall (λ f, f ≠ []) middles →
  feed find ((BLE_HCI_PB_FIRST_FLUSH, le16 (Z.of_nat (length d)) ++ le16 cid ++ first) :: (pair BLE_HCI_PB_MIDDLE <$> middles)) st =
    (replicate (length middles) (Refused BLE_HS_EAGAIN) ++ [Deliver c d], mk_abs None (delete c (ra_part st))).
Proof.
  intros d Hfind Hcid Hd Hne. cbn [feed]. unfold reassemble. rewrite Z.eqb_refl, decide_False by (simpl; lia).
  rewrite le16_at_0, le16_at_2, Hfind by done. change (drop 4 _) with first. unfold collect. cbn [ra_part ra_cur].
  rewrite delete_delete_eq. destruct middles as [|f middles].
  - replace d with first by (unfold d; simpl; by rewrite app_nil_r).
    rewrite Z.ltb_irrefl, Z.eqb_refl. done.
  - assert (length first < length d)%nat.
    { apply Forall_cons in Hne as [Hf _]. unfold d. cbn [concat]. rewrite !length_app. destruct f; [done|simpl; lia]. }
    rewrite (proj2 (Z.ltb_ge _ _)), (proj2 (Z.eqb_neq _ _)) by lia.
    rewrite (feed_middles find c (Z.of_nat (length d)) (f :: middles) first); [|done|cbn; by rewrite lookup_insert_eq|done|done|done].
    cbn [ra_part length Nat.sub replicate]. rewrite delete_insert_eq, delete_delete_eq, Nat.sub_0_r. done.
Qed.
End l2cap.
