(* ===== verification/BleL2capProps.v ===== *)
(** Properties of the logical link layer ([BleL2cap]): reception refines the abstract
    reassembler, data packets are handled on every branch, what one host sends another
    delivers, and two flaws. *)
From Stdlib Require Import ZArith Lia.
From stdpp Require Import base decidable list numbers gmap.
From S2P Require Import Prelude.
From S2P Require Import OsState.
From S2P Require Import OsMempool.
From S2P Require Import OsMbuf.
From S2P Require Import OsMbufSpec.
From S2P Require Import OsMbufWrite.
From S2P Require Import OsMbufHeld.
From S2P Require Import OsMbufProps.
From S2P Require Import BleAtt.
From S2P Require Import BleL2cap.

#[local] Open Scope Z_scope.

(** ** The bits of the header *)

Lemma frame_bits h : 0 <= h <= 0x0fff →
  is_u16 (Z.lor h 0x2000) ∧ BLE_HCI_DATA_HANDLE (Z.lor h 0x2000) = h ∧
  BLE_HCI_DATA_PB (Z.lor h 0x2000) = BLE_HCI_PB_FIRST_FLUSH.
Proof.
  intros Hh. assert (Hlor : Z.lor h 0x2000 = h + 0x2000) by (apply (lor_shift h 2 12); lia).
  rewrite Hlor. split; [unfold is_u16; lia|]. unfold BLE_HCI_DATA_HANDLE, BLE_HCI_DATA_PB. split.
  - change 0x0fff with (Z.ones 12). rewrite Z.land_ones by lia. change (2 ^ 12) with 4096. wrap_lia.
  - rewrite Z.shiftr_land, Z.shiftr_div_pow2 by lia. change (2 ^ 12) with 4096.
    replace ((h + 8192) / 4096) with 2; [done|]. Z.to_euclidean_division_equations; lia.
Qed.

Lemma collect_refused c len d st rc : (collect c len d st).1 = Refused rc → rc ≠ 0.
Proof. unfold collect. by repeat destruct (Z.ltb _ _) || destruct (Z.eqb _ _); intros [= <-]. Qed.

Lemma reassemble_refused find pb frag st rc : (reassemble find pb frag st).1 = Refused rc → rc ≠ 0.
Proof.
  unfold reassemble. repeat (destruct (Z.eqb _ _) || case_decide || case_match);
    try (by intros [= <-]); by apply collect_refused.
Qed.

(** ** A data packet on the way *)

Lemma frame_length h cid d : length (hci_frame h cid d) = (length d + 8)%nat.
Proof. unfold hci_frame. rewrite !length_app. simpl. lia. Qed.

Lemma frame_handle h cid d : 0 <= h <= 0x0fff →
  frag_handle (hci_frame (Z.lor h 0x2000) cid d) = h ∧
  frag_flags (hci_frame (Z.lor h 0x2000) cid d) = BLE_HCI_PB_FIRST_FLUSH.
Proof.
  intros Hh. destruct (frame_bits h Hh) as (Hw & H1 & H2). unfold frag_handle, frag_flags, hci_frame.
  by rewrite le16_at_0.
Qed.

Section frame.
Context {S : Type}.
Implicit Types (t : hs_st (S := S)).

Lemma classify_frame t h conn cid d :
  0 <= h <= 0x0fff → Z.of_nat (length d) + 8 < 65536 → conn_find_loop t h (ble_hs_conns t) = Some conn →
  classify t (hci_frame (Z.lor h 0x2000) cid d) = inr conn.
Proof.
  intros Hh Hd Hc. unfold classify. rewrite decide_False by (rewrite frame_length; lia).
  rewrite (proj1 (frame_handle h cid d Hh)), Hc. rewrite decide_True; [done|].
  rewrite frame_length. unfold hci_frame. rewrite le16_at_2 by (unfold is_u16; lia). lia.
Qed.

Lemma received_frame t part h conn c cid d :
  0 <= h <= 0x0fff → Z.of_nat (length d) + 8 < 65536 → is_u16 cid →
  chan_find_loop t cid (bhc_channels (conn_of t conn)) = Some c →
  received t part conn (hci_frame (Z.lor h 0x2000) cid d) = (Deliver c d, mk_abs None (delete c part)).
Proof.
  intros Hh Hd Hcid Hc. unfold received. rewrite (proj2 (frame_handle h cid d Hh)).
  pose proof (feed_packet (λ cid, chan_find_loop t cid (bhc_channels (conn_of t conn))) cid c d []
    (mk_abs (bhc_rx_chan (conn_of t conn)) part)) as Hf. cbn [concat] in Hf. rewrite app_nil_r in Hf.
  specialize (Hf Hc Hcid ltac:(unfold is_u16; lia) ltac:(done)). cbn [feed fmap list_fmap] in Hf.
  change (drop 4 (hci_frame _ cid d)) with (le16 (Z.of_nat (length d)) ++ le16 cid ++ d).
  destruct (reassemble _ _ _ _) as [r st]. by injection Hf as -> ->.
Qed.
End frame.

Section properties.
Context {S : Type} {AL : Allocator S} {inh : Inhabited S}.
Implicit Types (s t : hs_st (S := S)).

(** C17. Reception implements the abstract reassembler: given a fragment in an mbuf chain,
    [ble_l2cap_rx] never faults; its result, the channel that is being received and what
    every channel has collected are those of [reassemble]; a complete packet is handed to
    the caller with exactly its bytes and the receive function of its channel, and nobody
    else holds it; and after every outcome each mbuf of the pool is free, in a channel or
    in the packet handed over, so that none is lost.  The abstract reassembler in turn
    delivers a packet that comes in any number of fragments exactly as it was, with the
    last fragment. *)
Theorem l2cap_rx_refines o BL conn hci_hdr om l0 frag L part free s :
  rx_rep o BL L part free s → held o BL (hs_bufs s) om l0 frag → (∀ c b, b ∈ L c → b ∉ l0) →
  accounted BL L l0 free →
  let find cid := chan_find_loop s cid (bhc_channels (conn_of s conn)) in
  let st := mk_abs (bhc_rx_chan (conn_of s conn)) part in
  let res := reassemble find (BLE_HCI_DATA_PB (hdh_handle_pb_bc hci_hdr)) frag st in
  (∃ r s' L' free' l, ble_l2cap_rx conn hci_hdr om s = Ret (r, s') ∧
     rx_rep o BL L' (ra_part res.2) free' s' ∧ bhc_rx_chan (conn_of s' conn) = ra_cur res.2 ∧
     match res.1 with
     | Refused rc => r = (rc, None) ∧ l = []
     | Deliver c d => ∃ buf, r = (0, Some (blc_rx_fn (chan_of s c), buf)) ∧ held o BL (hs_bufs s') buf l d ∧
         (∀ c b, b ∈ L' c → b ∉ l)
     end ∧ accounted BL L' l free' ∧ same_config conn s s') ∧
  (∀ cid c first middles (d := first ++ concat middles),
     find cid = Some c → is_u16 cid → is_u16 (Z.of_nat (length d)) → Forall (λ f, f ≠ []) middles →
     feed find ((BLE_HCI_PB_FIRST_FLUSH, le16 (Z.of_nat (length d)) ++ le16 cid ++ first) ::
                (pair BLE_HCI_PB_MIDDLE <$> middles)) st =
       (replicate (length middles) (Refused BLE_HS_EAGAIN) ++ [Deliver c d], mk_abs None (delete c part))).
Proof.
  intros R Hom Hdis Ha find st res. split.
  - pose proof (l2cap_rx_ok o BL conn hci_hdr om l0 frag L part free s R Hom Hdis) as Hl.
    apply wp_run in Hl as (r & s' & Hrun & L' & free' & l & H1 & H2 & H3 & H4 & H5).
    exists r, s', L', free', l. split_and!; try done. by apply H4.
  - intros cid c first middles d. apply feed_packet.
Qed.

(** C39. A data packet from the controller is handled on every branch: one that is too short
    ([BLE_HS_EMSGSIZE]), whose length is not that of its header ([BLE_HS_EBADDATA]) or
    whose connection does not exist ([BLE_HS_ENOTCONN]) is freed, with the code as result
    and nothing else changed; any other goes to the reassembler of its connection.  If
    that wants more the result is 0, if it refuses the fragment its code; a complete packet
    is passed to the receive function of its channel, and what that leaves of it is
    freed. *)
Theorem hci_data_rx_handled o BL (rx_cb : nat → Z → Z → M (hs_st (S := S)) (Z * Z)) om l0 raw L part free s :
  rx_rep o BL L part free s → held o BL (hs_bufs s) om l0 raw → (∀ c b, b ∈ L c → b ∉ l0) →
  match classify s raw with
  | inl rc => ∃ b, host_hci_data_rx rx_cb om s = Ret (rc, set_bufs b s) ∧
      rx_rep o BL L part (reverse l0 ++ free) (set_bufs b s)
  | inr conn => let res := received s part conn raw in
      ∃ s' L' free', rx_rep o BL L' (ra_part res.2) free' s' ∧ bhc_rx_chan (conn_of s' conn) = ra_cur res.2 ∧
        same_config conn s s' ∧
        match res.1 with
        | Refused rc => rc ≠ 0 ∧ host_hci_data_rx rx_cb om s = Ret (if rc =? BLE_HS_EAGAIN then 0 else rc, s')
        | Deliver c d => ∃ buf l, held o BL (hs_bufs s') buf l d ∧ (∀ c b, b ∈ L' c → b ∉ l) ∧
            host_hci_data_rx rx_cb om s =
              ('(rc, rest) ← rx_cb (blc_rx_fn (chan_of s c)) (frag_handle raw) buf;
               on_bufs (os_mbuf_free_chain rest) ;; mret rc) s'
        end
  end.
Proof.
  intros R Hom Hdis. pose proof (data_rx_ok o BL rx_cb om l0 raw L part free s R Hom Hdis) as Hd.
  destruct (classify s raw) as [rc|conn].
  - apply wp_run in Hd as (rc' & s' & Hrun & -> & Hr & b & ->). by exists b.
  - destruct Hd as (r & s' & (L' & free' & l & H1 & H2 & H3 & _ & H5) & ->). exists s', L', free'. split_and!; try done.
    destruct (received s part conn raw).1 as [c d|rc] eqn:Hres.
    + destruct H3 as (buf & -> & Hheld & Hl). by exists buf, l.
    + destruct H3 as [-> _]. assert (rc ≠ 0) as Hrc by (eapply reassemble_refused; exact Hres).
      split; [done|]. unfold data_rx_deliver. cbn [fst]. by rewrite (proj2 (Z.eqb_neq _ _)).
Qed.

(** C18. What one host transmits another one delivers.  [ble_l2cap_tx] gives the transport the
    data behind the two headers, in the mbufs of the packet, and counts the packet as
    outstanding if the transport accepts it.  When these bytes arrive at another host,
    with the handle that host knows and the flag of a first fragment, the receive function
    of the channel with the same identifier gets a packet with exactly the data. *)
Theorem l2cap_roundtrip o BL (ble_hs_tx_data : Z → M (hs_st (S := S)) Z) conn chan om l0 d free s
    o' BL' (rx_cb : nat → Z → Z → M (hs_st (S := S)) (Z * Z)) h conn' c om' l' L part free' t
    (cid := blc_cid (chan_of s chan)) :
  heap_ok o BL free (hs_bufs s) → held o BL (hs_bufs s) om l0 d → 8 <= room (hs_bufs s) om →
  0 <= bhc_handle (conn_of s conn) <= 0x0fff → is_u16 cid →
  rx_rep o' BL' L part free' t → held o' BL' (hs_bufs t) om' l' (hci_frame (Z.lor h 0x2000) cid d) →
  (∀ c b, b ∈ L c → b ∉ l') → 0 <= h <= 0x0fff →
  conn_find_loop t h (ble_hs_conns t) = Some conn' →
  chan_find_loop t cid (bhc_channels (conn_of t conn')) = Some c →
  (∃ b, heap_ok o BL free b ∧ held o BL b om l0 (hci_frame (bhc_handle (conn_of s conn)) cid d) ∧
     ble_l2cap_tx ble_hs_tx_data conn chan om s =
       (rc ← ble_hs_tx_data om;
        if rc =? 0 then modify (upd_conn conn (λ c, set_outstanding (u16 (bhc_outstanding_pkts c + 1)) c)) ;; mret 0
        else mret rc) (set_bufs b s)) ∧
  (∃ t' L' free'' buf l, rx_rep o' BL' L' (delete c part) free'' t' ∧ held o' BL' (hs_bufs t') buf l d ∧
     host_hci_data_rx rx_cb om' t =
       ('(rc, rest) ← rx_cb (blc_rx_fn (chan_of t c)) h buf;
        on_bufs (os_mbuf_free_chain rest) ;; mret rc) t').
Proof.
  intros Hh Hd Hroom Hhandle Hcid R Hom' Hdis Hrh Hconn Hchan. split.
  - destruct (l2cap_tx_ok o BL ble_hs_tx_data conn chan om l0 d free s Hh Hd Hroom Hhandle Hcid) as (b & H1 & _ & H2 & H3).
    by exists b.
  - pose proof (data_rx_ok o' BL' rx_cb om' l' _ L part free' t R Hom' Hdis) as Hr.
    pose proof (held_length _ _ _ _ _ _ _ (rp_heap _ _ _ _ _ _ R) Hom') as Hlen.
    unfold hci_frame in Hlen. rewrite !length_app in Hlen. cbn [length le16] in Hlen.
    rewrite (classify_frame t h conn' cid d), (received_frame t part h conn' c cid d) in Hr by (done || lia).
    destruct Hr as (r & t' & (L' & free'' & l & H1 & H2 & (buf & -> & H3 & _) & _ & _) & ->).
    exists t', L', free'', buf, l. split_and!; [done|done|].
    by rewrite (proj1 (frame_handle h cid d Hrh)).
Qed.
End properties.

(** ** A host with one connection

    Eight mbufs of 32 bytes; connection 0 has the handle 64 and channels 0, 1 and 2 with
    the identifiers 4, 5 and 6. *)
Module L2capDemo.
#[local] Instance allocator : Allocator pstate := mempool_allocator 0.

Definition bufs : bstate (S := pstate) :=
  let p := (run_or (OS_OK, mk_pstate ∅ ∅ []) (os_mempool_init (Some 0%nat) 8 48 4096) (mk_pstate ∅ ∅ [])).2 in
  let b := mk_bstate ∅ ∅ {[ 0%nat := p ]} ∅ [] in
  (run_or (0, b) (os_mbuf_pool_init 0 0 48 8) b).2.

(** A packet with [room] bytes in front of its data. *)
Definition arrive (room : Z) (bytes : list Z) : M (bstate (S := pstate)) Z :=
  a ← os_mbuf_get_pkthdr 0 0;
  upd_mbuf a (λ m, set_om_off (om_off m + room) m) ;;
  os_mbuf_append a bytes ;;
  mret a.

Definition channel (cid : Z) (fn : nat) : ble_l2cap_chan := mk_chan cid 23 0 23 0 0 0 fn.
Definition host (b : bstate) : hs_st (S := pstate) :=
  mk_hs b {[ 0%nat := channel 4 10; 1%nat := channel 5 11; 2%nat := channel 6 12 ]} []
    {[ 0%nat := mk_hs_conn 64 [0%nat; 1%nat; 2%nat] None 0 ]} [0%nat] 0.

Definition with_packet (room : Z) (bytes : list Z) : hs_st (S := pstate) := host (run_or (0, bufs) (arrive room bytes) bufs).2.
Definition blocks : list Z := block_addrs 4096 48 8.

Lemma Forall_elems {A} (P : A → Prop) (l : list A) : Forall P l → ∀ x, x ∈ l → P x.
Proof. by rewrite Forall_forall. Qed.

(** The two packets of the witnesses: the data 1, 2, 3 with room for the headers, and the
    same data as it arrives. *)
Definition sender : hs_st (S := pstate) := with_packet 8 [1; 2; 3].
Definition receiver : hs_st (S := pstate) := with_packet 0 (hci_frame (Z.lor 64 0x2000) 4 [1; 2; 3]).
Definition free : list Z := block_addrs 4144 48 7.

Ltac decide_list := apply Forall_elems; repeat constructor; try by vm_compute.

Lemma one_packet (s : hs_st (S := pstate)) bytes m :
  mbufs (hs_bufs s) !! 4096 = Some m → om_omp m = 0%nat → om_bytes m = bytes → om_next m = 0 →
  mbuf_ok (hs_bufs s) m → OS_MBUF_IS_PKTHDR m = true → OS_MBUF_PKTLEN m = Z.of_nat (length bytes) →
  held 0 blocks (hs_bufs s) 4096 [4096] bytes.
Proof.
  intros Hm Ho Hb Hn Hok Hh Hl. split.
  - split; [done| |by apply NoDup_singleton| | |].
    + split_and!; [done|done|]. exists m. by rewrite Hn.
    + intros b ->%list_elem_of_singleton. by exists m.
    + unfold chain_data, bytes_at. simpl. by rewrite Hm, app_nil_r.
    + unfold pktlen_at. rewrite Hm. simpl. by rewrite Hh, Hl.
  - intros b ->%list_elem_of_singleton. apply (bool_decide_unpack _). by vm_compute.
Qed.

Lemma sender_held : held 0 blocks (hs_bufs sender) 4096 [4096] [1; 2; 3].
Proof.
  eapply one_packet; [vm_compute; reflexivity|done|by vm_compute|done| |done|by vm_compute].
  split; vm_compute; intuition congruence.
Qed.
Lemma receiver_held : held 0 blocks (hs_bufs receiver) 4096 [4096] (hci_frame (Z.lor 64 0x2000) 4 [1; 2; 3]).
Proof.
  eapply one_packet; [vm_compute; reflexivity|done|by vm_compute|done| |done|by vm_compute].
  split; vm_compute; intuition congruence.
Qed.

Ltac decide_heap :=
  split; [split; [split|..]|..];
  first [by vm_compute | apply (bool_decide_unpack _); by vm_compute | vm_compute; intuition congruence | decide_list].

Lemma sender_heap : heap_ok 0 blocks free (hs_bufs sender).
Proof. decide_heap. Qed.
Lemma receiver_heap : heap_ok 0 blocks free (hs_bufs receiver).
Proof. decide_heap. Qed.

Lemma nothing_begun b fr : heap_ok 0 blocks fr b → rx_rep 0 blocks (λ _, []) ∅ fr (host b).
Proof.
  intros Hh. split; [done| |by intros c c' x ?%elem_of_nil].
  intros c. rewrite lookup_empty. split; [|done]. unfold chan_of.
  do 3 (destruct c as [|c]; [done|]). change (ble_l2cap_chans (host b)) with
    (<[0%nat := channel 4 10]> (<[1%nat := channel 5 11]> ({[2%nat := channel 6 12]} : gmap nat ble_l2cap_chan))).
  by rewrite !lookup_total_insert_ne, lookup_total_singleton_ne.
Qed.
Lemma receiver_rep : rx_rep 0 blocks (λ _, []) ∅ free receiver.
Proof. apply nothing_begun, receiver_heap. Qed.

Lemma no_chain (c : nat) (b : Z) (l : list Z) : b ∈ (λ _ : nat, @nil Z) c → b ∉ l.
Proof. by intros ?%elem_of_nil. Qed.

Lemma all_accounted : accounted blocks (λ _, []) [4096] free.
Proof.
  intros b Hb. unfold blocks in Hb. change (block_addrs 4096 48 8) with (4096 :: free) in Hb.
  apply elem_of_cons in Hb as [->|Hb]; [right; left; by left|by left].
Qed.

(** The receive functions record nothing and leave the packet to be freed; the transport
    accepts every packet. *)
Definition leave (fn : nat) (handle buf : Z) : M (hs_st (S := pstate)) (Z * Z) := mret (0, buf).
Definition accept (om : Z) : M (hs_st (S := pstate)) Z := mret 0.
End L2capDemo.

#[local] Existing Instance L2capDemo.allocator.

Lemma l2cap_rx_refines_witness :
  let s := L2capDemo.with_packet 0 [3; 0; 4; 0; 1; 2; 3] in
  ∃ r s' L' free' l, ble_l2cap_rx 0 (mk_hci_hdr 0x2040 7) 4096 s = Ret (r, s') ∧
    r = (0, Some (10%nat, 4096)) ∧ held 0 L2capDemo.blocks (hs_bufs s') 4096 l [1; 2; 3] ∧
    accounted L2capDemo.blocks L' l free'.
Proof.
  intros s. assert (Hh : heap_ok 0 L2capDemo.blocks L2capDemo.free (hs_bufs s)) by L2capDemo.decide_heap.
  assert (Hp : held 0 L2capDemo.blocks (hs_bufs s) 4096 [4096] [3; 0; 4; 0; 1; 2; 3]).
  { eapply L2capDemo.one_packet; [vm_compute; reflexivity|done|by vm_compute|done| |done|by vm_compute].
    split; vm_compute; intuition congruence. }
  destruct (l2cap_rx_refines 0 L2capDemo.blocks 0 (mk_hci_hdr 0x2040 7) 4096 [4096] [3; 0; 4; 0; 1; 2; 3] (λ _, []) ∅
    L2capDemo.free s (L2capDemo.nothing_begun _ _ Hh) Hp (λ c b, L2capDemo.no_chain c b _)
    L2capDemo.all_accounted) as [(r & s' & L' & free' & l & H1 & _ & _ & H2 & H3 & _) _].
  exists r, s', L', free', l. split; [exact H1|].
  assert (Hr : r = (0, Some (10%nat, 4096))).
  { assert (Hrun : (λ x, match x with Ret (r, _) => r | Fault _ => (0, None) end)
      (ble_l2cap_rx 0 (mk_hci_hdr 0x2040 7) 4096 s) = (0, Some (10%nat, 4096))) by (vm_compute; reflexivity).
    rewrite H1 in Hrun. exact Hrun. }
  split; [exact Hr|]. split; [|exact H3].
  change ((reassemble (λ cid, chan_find_loop s cid [0%nat; 1%nat; 2%nat]) 2 [3; 0; 4; 0; 1; 2; 3] (mk_abs None ∅)).1)
    with (Deliver 0 [1; 2; 3]) in H2.
  destruct H2 as (buf & Hbuf & Hd & _). assert (buf = 4096) as -> by (rewrite Hr in Hbuf; by injection Hbuf). exact Hd.
Defined.

Lemma hci_data_rx_handled_witness :
  ∃ s' L' free' buf l, rx_rep 0 L2capDemo.blocks L' ∅ free' s' ∧ held 0 L2capDemo.blocks (hs_bufs s') buf l [1; 2; 3] ∧
    host_hci_data_rx L2capDemo.leave 4096 L2capDemo.receiver =
      ('(rc, rest) ← L2capDemo.leave 10 64 buf; on_bufs (os_mbuf_free_chain rest) ;; mret rc) s'.
Proof.
  pose proof (hci_data_rx_handled 0 L2capDemo.blocks L2capDemo.leave 4096 [4096] _ (λ _, []) ∅ L2capDemo.free
    L2capDemo.receiver L2capDemo.receiver_rep L2capDemo.receiver_held (λ c b, L2capDemo.no_chain c b _)) as Hw.
  rewrite (classify_frame L2capDemo.receiver 64 0 4 [1; 2; 3]) in Hw by (done || lia).
  cbv zeta in Hw. rewrite (received_frame L2capDemo.receiver ∅ 64 0 0 4 [1; 2; 3]) in Hw by (done || lia).
  destruct Hw as (s' & L' & free' & H1 & _ & _ & buf & l & H2 & _ & H3).
  exists s', L', free', buf, l. split; [exact H1|]. split; [exact H2|]. exact H3.
Defined.

Lemma l2cap_roundtrip_witness :
  (∃ b, held 0 L2capDemo.blocks b 4096 [4096] (hci_frame 64 4 [1; 2; 3]) ∧
    ble_l2cap_tx L2capDemo.accept 0 0 4096 L2capDemo.sender =
      Ret (0, upd_conn 0 (set_outstanding 1) (set_bufs b L2capDemo.sender))) ∧
  ∃ t' buf l, held 0 L2capDemo.blocks (hs_bufs t') buf l [1; 2; 3] ∧
    host_hci_data_rx L2capDemo.leave 4096 L2capDemo.receiver =
      ('(rc, rest) ← L2capDemo.leave 10 64 buf; on_bufs (os_mbuf_free_chain rest) ;; mret rc) t'.
Proof.
  destruct (l2cap_roundtrip 0 L2capDemo.blocks L2capDemo.accept 0 0 4096 [4096] [1; 2; 3] L2capDemo.free L2capDemo.sender
    0 L2capDemo.blocks L2capDemo.leave 64 0 0 4096 [4096] (λ _, []) ∅ L2capDemo.free L2capDemo.receiver
    L2capDemo.sender_heap L2capDemo.sender_held) as [(b & _ & H1 & H2) (t' & L' & fr & buf & l & _ & H3 & H4)].
  - by vm_compute.
  - by vm_compute.
  - by vm_compute.
  - exact L2capDemo.receiver_rep.
  - exact L2capDemo.receiver_held.
  - exact (λ c b, L2capDemo.no_chain c b _).
  - lia.
  - reflexivity.
  - reflexivity.
  - split.
    + exists b. split; [exact H1|]. rewrite H2. reflexivity.
    + exists t', buf, l. split; [exact H3|exact H4].
Defined.

(** ** Flaws *)

(** The results of feeding connection 0 fragments, each in an mbuf of its own: the code,
    and the bytes of the packet that is delivered. *)
Definition feed_code (frags : list (Z * list Z)) : M (hs_st (S := pstate)) (list (Z * option (nat * list Z))) :=
  foldr (λ '(h, bytes) rest,
    om ← on_bufs (L2capDemo.arrive 0 bytes);
    '(rc, out) ← ble_l2cap_rx 0 (mk_hci_hdr h (Z.of_nat (length bytes))) om;
    out ← (match out return M (hs_st (S := pstate)) (option (nat * list Z)) with
           | None => mret None
           | Some (fn, buf) =>
               len ← OS_PKTLEN_at buf;
               '(_, d) ← on_bufs (os_mbuf_copydata buf 0 len);
               on_bufs (os_mbuf_free_chain buf) ;;
               mret (Some (fn, d))
           end);
    rs ← rest;
    mret ((rc, out) :: rs)) (mret []) frags.

Definition demo_mbufs (s : hs_st (S := pstate)) : list Z := (map_to_list (mbufs (hs_bufs s))).*1.

(** Two flaws of reception.  (1) A first fragment for a channel that does not exist is
    refused, but the connection still points to the channel of an older packet that was
    not completed: the following fragments of the refused packet are appended to that
    one, and the mixture is delivered.  (2) Deleting a channel forgets the packet it was
    collecting: its mbufs are never freed. *)
Theorem l2cap_rx_flaws :
  (∃ s', feed_code [(0x2040, [6; 0; 4; 0; 1; 2; 3]); (0x2040, [6; 0; 99; 0; 7; 8; 9]); (0x1040, [10; 11; 12])]
      (L2capDemo.host L2capDemo.bufs) =
    Ret ([(BLE_HS_EAGAIN, None); (BLE_HS_ENOENT, None); (0, Some (10%nat, [1; 2; 3; 10; 11; 12]))], s')) ∧
  (∃ s', (feed_code [(0x2040, [6; 0; 4; 0; 1; 2; 3])] ;; ble_hs_conn_delete_chan 0 0 ;; ble_l2cap_chan_alloc)
      (L2capDemo.host L2capDemo.bufs) = Ret (Some 0%nat, s') ∧
    demo_mbufs s' = [4096] ∧ Forall (λ c, blc_rx_buf (chan_of s' c) = 0) [0%nat; 1%nat; 2%nat]).
Proof.
  split.
  - eexists. vm_compute. reflexivity.
  - eexists. split; [vm_compute; reflexivity|]. split; [by vm_compute|].
    repeat constructor.
Qed.
