(* ===== verification/BleConn.v ===== *)
(** The connections of the link layer: the choice of the data channel, and the data
    packets with their acknowledgement (net/nimble/controller/src/ble_ll_conn.c, the
    packet queues of ble_ll.c and the packet assembly of drivers/nrf52/src/ble_phy.c).

    A controller has one connection, the default of nimble_opt.h.  Its state is split into
    the groups of fields of the C structure.  Packets are kept by value, in their
    queues: a packet from the host is a single mbuf, of which the model keeps the data and
    the header the controller writes into it; freeing mbufs is not modelled.  The
    radio is a parameter of each operation: whether the hardware accepts a transmission,
    what it receives, and the time at which the code reads the clock. *)
From Stdlib Require Import ZArith Lia.
From stdpp Require Import base decidable list numbers.
From S2P Require Import Prelude.
From S2P Require Import BleSched.

#[local] Open Scope Z_scope.

(** ** Constants *)

Definition BLE_PHY_NUM_DATA_CHANS : Z := 37.
Definition BLE_LL_CONN_CHMAP_LEN : Z := 5.
Definition BLE_ACCESS_ADDR_ADV : Z := 0x8E89BED6.
Definition BLE_LL_DATA_HDR_LLID_MASK : Z := 0x03.
Definition BLE_LL_DATA_HDR_NESN_MASK : Z := 0x04.
Definition BLE_LL_DATA_HDR_SN_MASK : Z := 0x08.
Definition BLE_LL_DATA_HDR_MD_MASK : Z := 0x10.
Definition BLE_LL_LLID_DATA_FRAG : Z := 1.
Definition BLE_LL_LLID_DATA_START : Z := 2.
Definition BLE_LL_LLID_CTRL : Z := 3.
Definition BLE_LL_CTRL_TERMINATE_IND : Z := 2.
Definition BLE_LL_CTRL_REJECT_IND_EXT : Z := 17.
Definition BLE_LL_CTRL_TERMINATE_IND_LEN : Z := 1.
Definition BLE_LL_CTRL_PROC_TERMINATE : Z := 5.
Definition BLE_LL_CTRL_PROC_CONN_PARAM_REQ : Z := 6.
Definition BLE_LL_CTRL_PROC_IDLE : Z := 255.
Definition BLE_MBUF_HDR_F_TXD : Z := 0x01.
Definition BLE_LL_PDU_HDR_LEN : Z := 2.
Definition BLE_LL_PDU_OVERHEAD : Z := 10.
Definition BLE_LL_WFR_USECS : Z := BLE_LL_IFS + 40 + 32.
Definition BLE_LL_CONN_SUPP_TIME_MIN : Z := 328.
Definition BLE_LL_CONN_SUPP_BYTES_MIN : Z := 27.
Definition BLE_LL_CONN_UNKNOWN_RSSI : Z := 127.
Definition BLE_HCI_CONN_SPVN_TMO_UNITS : Z := 10.
Definition BLE_LL_CFG_CONN_OUR_SCA : Z := 60.
Definition BLE_TX_DUR_USECS_M (len : Z) : Z := Z.shiftl (len + BLE_LL_PDU_OVERHEAD) 3.
Definition NIMBLE_OPT_MAX_CONNECTIONS : Z := 1.

(** A connection has one of two roles (BLE_LL_CONN_ROLE_NONE is not used by this code); of the
    states of the link layer only the two of a connection occur here. *)
Inductive conn_role_t := BLE_LL_CONN_ROLE_MASTER | BLE_LL_CONN_ROLE_SLAVE.
Inductive conn_state_t := BLE_LL_CONN_STATE_IDLE | BLE_LL_CONN_STATE_CREATED | BLE_LL_CONN_STATE_ESTABLISHED.
Inductive ll_state_t := BLE_LL_STATE_STANDBY | BLE_LL_STATE_CONNECTION.
#[export] Instance role_dec : EqDecision conn_role_t := ltac:(solve_decision).
#[export] Instance conn_state_dec : EqDecision conn_state_t := ltac:(solve_decision).
#[export] Instance ll_state_dec : EqDecision ll_state_t := ltac:(solve_decision).

(** ** Data *)

(** struct ble_mbuf_hdr_txinfo; a packet to transmit: what is in memory from [om_data] on,
    the lengths of the mbuf and of the packet, and the transmit header. *)
Record txinfo := mk_txinfo { ti_flags : Z; ti_offset : Z; ti_pyld_len : Z; ti_hdr_byte : Z }.
Record tx_pdu := mk_tx { tx_data : list Z; tx_om_len : Z; tx_omp_len : Z; tx_info : txinfo }.

(** An element of the transmit queue: the empty PDU embedded in the connection, or a packet. *)
Inductive txq_item := Empty_pdu | Pkt (m : tx_pdu).

(** A received packet: the contents of its buffer, the length of the mbuf, and the receive
    header (struct ble_mbuf_hdr_rxinfo). *)
Record rx_pdu := mk_rx {
  rx_buf : list Z; rx_len : Z; rx_crcok : bool; rx_handle : Z; rx_rssi : Z; rx_end_cputime : Z }.

(** struct ble_ll_conn_sm, by groups: the fields the operations below use. *)
Record conn_flags := mk_flags {
  pdu_txd : bool; pkt_rxd : bool; terminate_ind_txd : bool; terminate_ind_rxd : bool;
  allow_slave_latency : bool; slave_set_last_anchor : bool; host_expects_upd_event : bool }.
Record conn_dlen := mk_dlen {
  max_tx_octets : Z; max_rx_octets : Z; rem_max_tx_octets : Z; rem_max_rx_octets : Z;
  eff_max_tx_octets : Z; eff_max_rx_octets : Z;
  max_tx_time : Z; max_rx_time : Z; rem_max_tx_time : Z; rem_max_rx_time : Z;
  eff_max_tx_time : Z; eff_max_rx_time : Z }.
Record conn_chan := mk_cchan {
  chanmap : list Z; hop_inc : Z; data_chan_index : Z; unmapped_chan : Z;
  last_unmapped_chan : Z; num_used_chans : Z }.
Record conn_ack := mk_ack {
  tx_seqnum : Z; next_exp_seqnum : Z; last_txd_md : bool; cons_rxd_bad_crc : Z;
  last_rxd_sn : Z; last_rxd_hdr_byte : Z }.
Record conn_mgmt := mk_mgmt {
  reject_reason : Z; cur_ctrl_proc : Z; rxd_disconnect_reason : Z; pending_ctrl_procs : Z;
  event_cntr : Z; completed_pkts : Z; access_addr : Z; ce_end_time : Z;
  terminate_timeout : Z; last_scheduled : Z }.
Record conn_timing := mk_timing {
  master_sca : Z; supervision_tmo : Z; anchor_point : Z; last_anchor_point : Z;
  slave_cur_tx_win_usecs : Z; slave_cur_window_widening : Z }.
Record ble_ll_conn := mk_conn {
  conn_state : conn_state_t; conn_role : conn_role_t; conn_handle : Z; conn_rssi : Z;
  csmflags : conn_flags; dlen : conn_dlen; chan : conn_chan; ack : conn_ack;
  mgmt : conn_mgmt; timing : conn_timing; conn_txq : list txq_item; conn_empty_pdu : tx_pdu }.

(** g_ble_ll_conn_stats and g_ble_ll_stats, the counters used here. *)
Inductive stat :=
  | wfr_expirations | handle_not_found | no_tx_pdu | no_conn_sm | rx_data_pdu_no_conn
  | rx_data_pdu_bad_aa | slave_ce_failures | rx_resent_pdus | data_pdu_rx_dup
  | data_pdu_txg | data_pdu_txf | l2cap_enqueued
  | bad_acl_hdr | rx_bytes | rx_valid_data_pdus | rx_invalid_data_pdus | rx_bad_llid
  | rx_ctrl_pdus | rx_l2cap_pdus | tx_empty_pdus | tx_ctrl_pdus | tx_ctrl_bytes
  | tx_l2cap_pdus | tx_l2cap_bytes.
#[export] Instance stat_dec : EqDecision stat := ltac:(solve_decision).

(** What the controller passes on: a data packet to the host (ble_hs_rx_data), a control PDU
    to the link-layer control procedures (ble_ll_ctrl_rx_pdu). *)
Inductive delivery := To_host (bytes : list Z) | To_ctrl (bytes : list Z).

(** The controller: the connection, whether it is the current one
    (g_ble_ll_conn_cur_sm), the packet queues between the interrupt handlers, the task of
    the link layer and the host, the times at which timers expire, and what is passed on. *)
Record ll_node := mk_node {
  nd_conn : ble_ll_conn; g_ble_ll_conn_cur_sm : bool; ll_state : ll_state_t;
  ll_wfr_timer : option Z; conn_spvn_timer : option Z; conn_ev_end_queued : bool;
  ll_rx_pkt_q : list rx_pdu; ll_tx_pkt_q : list (list Z);
  passed_on : list delivery; stats : stat → Z }.

(** Bytes of a buffer; what is read beyond the model of the buffer is 0. *)
Definition byte_at (l : list Z) (i : nat) : Z := default 0 (l !! i).

(** ** Updates *)

Definition set_info (f : txinfo → txinfo) (m : tx_pdu) : tx_pdu :=
  mk_tx (tx_data m) (tx_om_len m) (tx_omp_len m) (f (tx_info m)).
Definition set_flags (v : Z) (t : txinfo) : txinfo := mk_txinfo v (ti_offset t) (ti_pyld_len t) (ti_hdr_byte t).
Definition set_offset (v : Z) (t : txinfo) : txinfo := mk_txinfo (ti_flags t) v (ti_pyld_len t) (ti_hdr_byte t).
Definition set_pyld_len (v : Z) (t : txinfo) : txinfo := mk_txinfo (ti_flags t) (ti_offset t) v (ti_hdr_byte t).
Definition set_hdr_byte (v : Z) (t : txinfo) : txinfo := mk_txinfo (ti_flags t) (ti_offset t) (ti_pyld_len t) v.

Definition set_pdu_txd (f : conn_flags) : conn_flags :=
  mk_flags true (pkt_rxd f) (terminate_ind_txd f) (terminate_ind_rxd f) (allow_slave_latency f)
    (slave_set_last_anchor f) (host_expects_upd_event f).
Definition set_pkt_rxd (v : bool) (f : conn_flags) : conn_flags :=
  mk_flags (pdu_txd f) v (terminate_ind_txd f) (terminate_ind_rxd f) (allow_slave_latency f)
    (slave_set_last_anchor f) (host_expects_upd_event f).
Definition set_term_txd (f : conn_flags) : conn_flags :=
  mk_flags (pdu_txd f) (pkt_rxd f) true (terminate_ind_rxd f) (allow_slave_latency f)
    (slave_set_last_anchor f) (host_expects_upd_event f).
Definition set_term_rxd (f : conn_flags) : conn_flags :=
  mk_flags (pdu_txd f) (pkt_rxd f) (terminate_ind_txd f) true (allow_slave_latency f)
    (slave_set_last_anchor f) (host_expects_upd_event f).
Definition set_allow_latency (f : conn_flags) : conn_flags :=
  mk_flags (pdu_txd f) (pkt_rxd f) (terminate_ind_txd f) (terminate_ind_rxd f) true
    (slave_set_last_anchor f) (host_expects_upd_event f).
Definition set_set_anchor (v : bool) (f : conn_flags) : conn_flags :=
  mk_flags (pdu_txd f) (pkt_rxd f) (terminate_ind_txd f) (terminate_ind_rxd f) (allow_slave_latency f)
    v (host_expects_upd_event f).
Definition set_upd_event (f : conn_flags) : conn_flags :=
  mk_flags (pdu_txd f) (pkt_rxd f) (terminate_ind_txd f) (terminate_ind_rxd f) (allow_slave_latency f)
    (slave_set_last_anchor f) true.

Definition set_tx_seqnum (v : Z) (a : conn_ack) : conn_ack :=
  mk_ack v (next_exp_seqnum a) (last_txd_md a) (cons_rxd_bad_crc a) (last_rxd_sn a) (last_rxd_hdr_byte a).
Definition set_next_exp (v : Z) (a : conn_ack) : conn_ack :=
  mk_ack (tx_seqnum a) v (last_txd_md a) (cons_rxd_bad_crc a) (last_rxd_sn a) (last_rxd_hdr_byte a).
Definition set_last_md (v : bool) (a : conn_ack) : conn_ack :=
  mk_ack (tx_seqnum a) (next_exp_seqnum a) v (cons_rxd_bad_crc a) (last_rxd_sn a) (last_rxd_hdr_byte a).
Definition set_bad_crc (v : Z) (a : conn_ack) : conn_ack :=
  mk_ack (tx_seqnum a) (next_exp_seqnum a) (last_txd_md a) v (last_rxd_sn a) (last_rxd_hdr_byte a).
Definition set_last_sn (v : Z) (a : conn_ack) : conn_ack :=
  mk_ack (tx_seqnum a) (next_exp_seqnum a) (last_txd_md a) (cons_rxd_bad_crc a) v (last_rxd_hdr_byte a).
Definition set_last_hdr (v : Z) (a : conn_ack) : conn_ack :=
  mk_ack (tx_seqnum a) (next_exp_seqnum a) (last_txd_md a) (cons_rxd_bad_crc a) (last_rxd_sn a) v.

Definition upd_flags (f : conn_flags → conn_flags) (c : ble_ll_conn) : ble_ll_conn :=
  mk_conn (conn_state c) (conn_role c) (conn_handle c) (conn_rssi c) (f (csmflags c)) (dlen c) (chan c)
    (ack c) (mgmt c) (timing c) (conn_txq c) (conn_empty_pdu c).
Definition upd_dlen (f : conn_dlen → conn_dlen) (c : ble_ll_conn) : ble_ll_conn :=
  mk_conn (conn_state c) (conn_role c) (conn_handle c) (conn_rssi c) (csmflags c) (f (dlen c)) (chan c)
    (ack c) (mgmt c) (timing c) (conn_txq c) (conn_empty_pdu c).
Definition upd_chans (f : conn_chan → conn_chan) (c : ble_ll_conn) : ble_ll_conn :=
  mk_conn (conn_state c) (conn_role c) (conn_handle c) (conn_rssi c) (csmflags c) (dlen c) (f (chan c))
    (ack c) (mgmt c) (timing c) (conn_txq c) (conn_empty_pdu c).
Definition upd_ack (f : conn_ack → conn_ack) (c : ble_ll_conn) : ble_ll_conn :=
  mk_conn (conn_state c) (conn_role c) (conn_handle c) (conn_rssi c) (csmflags c) (dlen c) (chan c)
    (f (ack c)) (mgmt c) (timing c) (conn_txq c) (conn_empty_pdu c).
Definition upd_mgmt (f : conn_mgmt → conn_mgmt) (c : ble_ll_conn) : ble_ll_conn :=
  mk_conn (conn_state c) (conn_role c) (conn_handle c) (conn_rssi c) (csmflags c) (dlen c) (chan c)
    (ack c) (f (mgmt c)) (timing c) (conn_txq c) (conn_empty_pdu c).
Definition upd_timing (f : conn_timing → conn_timing) (c : ble_ll_conn) : ble_ll_conn :=
  mk_conn (conn_state c) (conn_role c) (conn_handle c) (conn_rssi c) (csmflags c) (dlen c) (chan c)
    (ack c) (mgmt c) (f (timing c)) (conn_txq c) (conn_empty_pdu c).
Definition set_rssi (v : Z) (c : ble_ll_conn) : ble_ll_conn :=
  mk_conn (conn_state c) (conn_role c) (conn_handle c) v (csmflags c) (dlen c) (chan c)
    (ack c) (mgmt c) (timing c) (conn_txq c) (conn_empty_pdu c).
Definition set_txq (v : list txq_item) (c : ble_ll_conn) : ble_ll_conn :=
  mk_conn (conn_state c) (conn_role c) (conn_handle c) (conn_rssi c) (csmflags c) (dlen c) (chan c)
    (ack c) (mgmt c) (timing c) v (conn_empty_pdu c).
Definition set_empty_pdu (v : tx_pdu) (c : ble_ll_conn) : ble_ll_conn :=
  mk_conn (conn_state c) (conn_role c) (conn_handle c) (conn_rssi c) (csmflags c) (dlen c) (chan c)
    (ack c) (mgmt c) (timing c) (conn_txq c) v.

Definition upd_conn (f : ble_ll_conn → ble_ll_conn) (n : ll_node) : ll_node :=
  mk_node (f (nd_conn n)) (g_ble_ll_conn_cur_sm n) (ll_state n) (ll_wfr_timer n) (conn_spvn_timer n)
    (conn_ev_end_queued n) (ll_rx_pkt_q n) (ll_tx_pkt_q n) (passed_on n) (stats n).
Definition set_cur_sm (b : bool) (st : ll_state_t) (n : ll_node) : ll_node :=
  mk_node (nd_conn n) b st (ll_wfr_timer n) (conn_spvn_timer n)
    (conn_ev_end_queued n) (ll_rx_pkt_q n) (ll_tx_pkt_q n) (passed_on n) (stats n).
Definition set_wfr (v : option Z) (n : ll_node) : ll_node :=
  mk_node (nd_conn n) (g_ble_ll_conn_cur_sm n) (ll_state n) v (conn_spvn_timer n)
    (conn_ev_end_queued n) (ll_rx_pkt_q n) (ll_tx_pkt_q n) (passed_on n) (stats n).
Definition set_spvn (v : option Z) (n : ll_node) : ll_node :=
  mk_node (nd_conn n) (g_ble_ll_conn_cur_sm n) (ll_state n) (ll_wfr_timer n) v
    (conn_ev_end_queued n) (ll_rx_pkt_q n) (ll_tx_pkt_q n) (passed_on n) (stats n).
Definition set_ev_end (v : bool) (n : ll_node) : ll_node :=
  mk_node (nd_conn n) (g_ble_ll_conn_cur_sm n) (ll_state n) (ll_wfr_timer n) (conn_spvn_timer n)
    v (ll_rx_pkt_q n) (ll_tx_pkt_q n) (passed_on n) (stats n).
Definition set_rx_q (v : list rx_pdu) (n : ll_node) : ll_node :=
  mk_node (nd_conn n) (g_ble_ll_conn_cur_sm n) (ll_state n) (ll_wfr_timer n) (conn_spvn_timer n)
    (conn_ev_end_queued n) v (ll_tx_pkt_q n) (passed_on n) (stats n).
Definition set_tx_q (v : list (list Z)) (n : ll_node) : ll_node :=
  mk_node (nd_conn n) (g_ble_ll_conn_cur_sm n) (ll_state n) (ll_wfr_timer n) (conn_spvn_timer n)
    (conn_ev_end_queued n) (ll_rx_pkt_q n) v (passed_on n) (stats n).
Definition pass_on (d : delivery) (n : ll_node) : ll_node :=
  mk_node (nd_conn n) (g_ble_ll_conn_cur_sm n) (ll_state n) (ll_wfr_timer n) (conn_spvn_timer n)
    (conn_ev_end_queued n) (ll_rx_pkt_q n) (ll_tx_pkt_q n) (passed_on n ++ [d]) (stats n).
Definition count_by (k : Z) (x : stat) (n : ll_node) : ll_node :=
  mk_node (nd_conn n) (g_ble_ll_conn_cur_sm n) (ll_state n) (ll_wfr_timer n) (conn_spvn_timer n)
    (conn_ev_end_queued n) (ll_rx_pkt_q n) (ll_tx_pkt_q n) (passed_on n)
    (λ y, if decide (y = x) then u32 (stats n y + k) else stats n y).
Definition count (x : stat) (n : ll_node) : ll_node := count_by 1 x n.

(** ** Channel selection *)

(** The bits of a byte, lowest first: the loops over [mask] of the code. *)
Definition mask_bits (b : Z) : list bool := (λ j, Z.testbit b (Z.of_nat j)) <$> seq 0 8.

Definition count_byte (used chanbyte : Z) : Z :=
  if chanbyte =? 0 then used
  else if chanbyte =? 0xff then u8 (used + 8)
  else foldl (λ used bit, if bit : bool then u8 (used + 1) else used) used (mask_bits chanbyte).
Definition ble_ll_conn_calc_used_chans (chmap : list Z) : Z := foldl count_byte 0 chmap.

(** The search of the [remap_index]-th usable channel: [inl cntr] while it goes on, [inr] the
    value returned. *)
Definition remap_bit (remap_index : Z) (st : Z + Z) (bit : bool) : Z + Z :=
  match st with
  | inr r => inr r
  | inl cntr => if bit then (if cntr =? remap_index then inr cntr else inl (u8 (cntr + 1))) else inl cntr
  end.
Definition remap_byte (remap_index : Z) (st : Z + Z) (usable_chans : Z) : Z + Z :=
  if usable_chans =? 0 then st else foldl (remap_bit remap_index) st (mask_bits usable_chans).

(** The channel, and the new value of [unmapped_chan]. *)
Definition ble_ll_conn_calc_dci (k : conn_chan) : Z * conn_chan :=
  let curchan := u8 (last_unmapped_chan k + hop_inc k) in
  let curchan := if BLE_PHY_NUM_DATA_CHANS <? curchan then u8 (curchan - BLE_PHY_NUM_DATA_CHANS) else curchan in
  let k' := mk_cchan (chanmap k) (hop_inc k) (data_chan_index k) curchan (last_unmapped_chan k) (num_used_chans k) in
  let bitpos := u8 (Z.shiftl 1 (Z.land curchan 0x07)) in
  if Z.land (byte_at (chanmap k) (Z.to_nat (Z.shiftr curchan 3))) bitpos =? 0 then
    let remap_index := u8 (curchan mod num_used_chans k) in
    match foldl (remap_byte remap_index) (inl 0) (chanmap k) with
    | inr r => (r, k')
    | inl _ => (curchan, k')
    end
  else (curchan, k').

(** The loop of ble_ll_conn_next_event over the events it moves on by. *)
Definition next_channel (k : conn_chan) : conn_chan :=
  let k := mk_cchan (chanmap k) (hop_inc k) (data_chan_index k) (unmapped_chan k) (unmapped_chan k) (num_used_chans k) in
  let '(dci, k) := ble_ll_conn_calc_dci k in
  mk_cchan (chanmap k) (hop_inc k) dci (unmapped_chan k) (last_unmapped_chan k) (num_used_chans k).
Definition next_channels (latency : nat) (k : conn_chan) : conn_chan := Nat.iter latency next_channel k.

(** ** Access addresses *)

Definition aa_bits : list Z := Z.of_nat <$> seq 0 32.
Definition aa_bits_diff (aa : Z) : Z :=
  foldl (λ d i, if 1 <? d then d else if Z.testbit (Z.lxor aa BLE_ACCESS_ADDR_ADV) i then d + 1 else d) 0 aa_bits.

(** The loop over the bits above the lowest: [prev_bit] is the lowest bit all along. *)
Definition aa_scan_bit (aa : Z) (st : bool * Z * Z) (i : Z) : bool * Z * Z :=
  let '(stopped, transitions, consecutive) := st in
  if stopped : bool then st
  else
    let '(transitions, consecutive) :=
      if eqb (Z.testbit aa i) (Z.testbit aa 0) then (transitions, consecutive + 1) else (transitions + 1, 0) in
    (6 <? consecutive, transitions, consecutive).
Definition aa_scan (aa : Z) : bool * Z * Z := foldl (aa_scan_bit aa) (false, 0, 0) (tail aa_bits).

(** One round of the loop; [r1] and [r2] are the values of rand(). *)
Definition aa_try (r1 r2 : Z) : option Z :=
  let aa_low := Z.land r1 0xFFFF in
  let aa_high := Z.land r2 0xFFFF in
  let temp := Z.land aa_high 0xFC00 in
  let aa := Z.lor (Z.shiftl aa_high 16) aa_low in
  if aa_low =? aa_high then None
  else if (temp =? 0) || (temp =? 0xFC00) then None
  else if aa_bits_diff aa <=? 1 then None
  else
    let '(_, transitions, consecutive) := aa_scan aa in
    if (6 <? consecutive) || (24 <? transitions) then None else Some aa.

(** [rand]: the random numbers, in the order of the calls; [None]: none of them gives an
    access address. *)
Fixpoint ble_ll_conn_calc_access_addr (rand : list Z) : option Z :=
  match rand with
  | r1 :: r2 :: rand =>
      match aa_try r1 r2 with
      | Some aa => Some aa
      | None => ble_ll_conn_calc_access_addr rand
      end
  | _ => None
  end.

(** ** Transmission *)

Definition queue_item (c : ble_ll_conn) (q : txq_item) : tx_pdu :=
  match q with Empty_pdu => conn_empty_pdu c | Pkt m => m end.

(** Writes to the packet at the head of the queue. *)
Definition write_head (m : tx_pdu) (c : ble_ll_conn) : ble_ll_conn :=
  match conn_txq c with
  | [] => c
  | Empty_pdu :: _ => set_empty_pdu m c
  | Pkt _ :: q => set_txq (Pkt m :: q) c
  end.

Definition BLE_IS_RETRY_M (t : txinfo) : bool := negb (Z.land (ti_flags t) BLE_MBUF_HDR_F_TXD =? 0).

Definition ble_ll_ctrl_is_terminate_ind (hdr opcode : Z) : bool :=
  (Z.land hdr BLE_LL_DATA_HDR_LLID_MASK =? BLE_LL_LLID_CTRL) && (opcode =? BLE_LL_CTRL_TERMINATE_IND).
Definition ble_ll_ctrl_is_reject_ind_ext (hdr opcode : Z) : bool :=
  (Z.land hdr BLE_LL_DATA_HDR_LLID_MASK =? BLE_LL_LLID_CTRL) && (opcode =? BLE_LL_CTRL_REJECT_IND_EXT).
Definition ble_ll_conn_is_l2cap_pdu (t : txinfo) : bool :=
  negb (Z.land (ti_hdr_byte t) BLE_LL_DATA_HDR_LLID_MASK =? BLE_LL_LLID_CTRL) && negb (ti_pyld_len t =? 0).

(** ble_phy_tx: the bytes on the air are the transmit header and the payload at the
    offset of the packet (os_mbuf_copydata of a packet in one mbuf). *)
Definition phy_tx_bytes (m : tx_pdu) : list Z :=
  let t := tx_info m in
  ti_hdr_byte t :: ti_pyld_len t ::
    take (Z.to_nat (ti_pyld_len t)) (drop (Z.to_nat (ti_offset t)) (take (Z.to_nat (tx_om_len m)) (tx_data m))).

Definition is_master (c : ble_ll_conn) : bool := bool_decide (conn_role c = BLE_LL_CONN_ROLE_MASTER).
Definition is_slave (c : ble_ll_conn) : bool := bool_decide (conn_role c = BLE_LL_CONN_ROLE_SLAVE).

Definition ble_ll_mbuf_init (m : tx_pdu) (pdulen hdr : Z) : tx_pdu :=
  mk_tx (tx_data m) pdulen pdulen (mk_txinfo 0 0 pdulen hdr).

(** The length of the payload and the header byte, the packet with the length noted. *)
Definition tx_choose (c : ble_ll_conn) (m : tx_pdu) : Z * Z * tx_pdu :=
  let t := tx_info m in
  if BLE_IS_RETRY_M t then
    (ti_pyld_len t,
     Z.land (ti_hdr_byte t) (Z.lnot (Z.lor BLE_LL_DATA_HDR_MD_MASK BLE_LL_DATA_HDR_NESN_MASK)), m)
  else
    let cur_txlen := eff_max_tx_octets (dlen c) in
    let rem_bytes := u8 (tx_omp_len m - ti_offset t) in
    let cur_txlen := if rem_bytes <? cur_txlen then rem_bytes else cur_txlen in
    let hdr_byte := if ti_offset t =? 0 then ti_hdr_byte t else BLE_LL_LLID_DATA_FRAG in
    let hdr_byte := if tx_seqnum (ack c) =? 0 then hdr_byte else Z.lor hdr_byte BLE_LL_DATA_HDR_SN_MASK in
    (cur_txlen, hdr_byte, set_info (set_pyld_len cur_txlen) m).

Section link_layer.

(** The resolution of the cpu time, as in [HalCputime]. *)
Variable ticks_per_usec : Z.
Definition usecs_to_ticks (usecs : Z) : Z := u32 (usecs * ticks_per_usec).
Definition ticks_to_usecs (ticks : Z) : Z := u32 (ticks + u32 (ticks_per_usec - 1)) / ticks_per_usec.

Definition sca_ppm_tbl : list Z := [500; 250; 150; 100; 75; 50; 30; 20].
Definition ble_ll_conn_calc_window_widening (t : conn_timing) : Z :=
  let time_since_last_anchor := s32 (u32 (anchor_point t - last_anchor_point t)) in
  if 0 <? time_since_last_anchor then
    let delta_msec := ticks_to_usecs time_since_last_anchor / 1000 in
    let total_sca_ppm := byte_at sca_ppm_tbl (Z.to_nat (master_sca t)) + BLE_LL_CFG_CONN_OUR_SCA in
    u32 (total_sca_ppm * delta_msec) / 1000
  else 0.

(** The more-data bit. *)
Definition tx_more_data (now : Z) (c : ble_ll_conn) (m : tx_pdu) (next : bool) (cur_txlen : Z) : bool :=
  (next || (ti_offset (tx_info m) + cur_txlen <? tx_omp_len m)) && negb (terminate_ind_rxd (csmflags c)) &&
  (if is_master c then
     let ticks := usecs_to_ticks (BLE_LL_IFS * 4 + 3 * BLE_LL_CONN_SUPP_TIME_MIN + BLE_TX_DUR_USECS_M cur_txlen) in
     negb (ce_end_time (mgmt c) <=? u32 (now + ticks))
   else true).

Definition count_tx (tx_empty_pdu : bool) (t : txinfo) (n : ll_node) : ll_node :=
  if tx_empty_pdu then count tx_empty_pdus n
  else if Z.land (ti_hdr_byte t) BLE_LL_DATA_HDR_LLID_MASK =? BLE_LL_LLID_CTRL then
    count_by (ti_pyld_len t) tx_ctrl_bytes (count tx_ctrl_pdus n)
  else count_by (ti_pyld_len t) tx_l2cap_bytes (count tx_l2cap_pdus n).

(** The result of ble_ll_conn_tx_data_pdu: its return code, the bytes on the air, and whether
    the event ends when the transmission does (ble_ll_conn_wait_txend). *)
Record tx_result := mk_txr { txr_rc : Z; txr_air : option (list Z); txr_ends : bool }.

(** The packet to send, the header byte and the more-data bit; an empty PDU is
    put into an empty queue. *)
Definition tx_prepare (now : Z) (c : ble_ll_conn) : ble_ll_conn * tx_pdu * Z * bool * bool :=
  match conn_txq c with
  | q :: rest =>
      let '(cur_txlen, hdr_byte, m) := tx_choose c (queue_item c q) in
      (c, m, hdr_byte, tx_more_data now c m (negb (bool_decide (rest = []))) cur_txlen, false)
  | [] =>
      let hdr_byte := BLE_LL_LLID_DATA_FRAG in
      let hdr_byte := if tx_seqnum (ack c) =? 0 then hdr_byte else Z.lor hdr_byte BLE_LL_DATA_HDR_SN_MASK in
      (set_txq [Empty_pdu] c, set_info (set_flags 0) (conn_empty_pdu c), hdr_byte, false, true)
  end.

(** [phy_rc]: what the radio answers. *)
Definition ble_ll_conn_tx_data_pdu (now phy_rc : Z) (n : ll_node) : tx_result * ll_node :=
  let '(c, m, hdr_byte, md, tx_empty_pdu) := tx_prepare now (nd_conn n) in
  let m := set_info (λ t, set_flags (Z.lor (ti_flags t) BLE_MBUF_HDR_F_TXD) t) m in
  let hdr_byte := if md then Z.lor hdr_byte BLE_LL_DATA_HDR_MD_MASK else hdr_byte in
  let hdr_byte := if next_exp_seqnum (ack c) =? 0 then hdr_byte else Z.lor hdr_byte BLE_LL_DATA_HDR_NESN_MASK in
  let m := set_info (set_hdr_byte hdr_byte) m in
  let ends :=
    terminate_ind_rxd (csmflags c) ||
    (is_slave c && negb md && (cons_rxd_bad_crc (ack c) =? 0) &&
     (Z.land (last_rxd_hdr_byte (ack c)) BLE_LL_DATA_HDR_MD_MASK =? 0) &&
     negb (ble_ll_ctrl_is_terminate_ind hdr_byte (byte_at (tx_data m) 0))) in
  let c := write_head m c in
  if phy_rc =? 0 then
    let c := upd_ack (set_last_md md) (upd_flags set_pdu_txd c) in
    (mk_txr 0 (Some (phy_tx_bytes m)) ends, count_tx tx_empty_pdu (tx_info m) (upd_conn (λ _, c) n))
  else (mk_txr phy_rc None ends, upd_conn (λ _, c) n).

Definition ble_ll_conn_can_send_next_pdu (c : ble_ll_conn) (begtime : Z) : bool :=
  if is_master c then
    let usecs :=
      match conn_txq c with
      | q :: _ =>
          let m := queue_item c q in
          let rem_bytes := u8 (tx_omp_len m - ti_offset (tx_info m)) in
          let rem_bytes := if eff_max_tx_octets (dlen c) <? rem_bytes then eff_max_tx_octets (dlen c) else rem_bytes in
          BLE_TX_DUR_USECS_M rem_bytes
      | [] => BLE_TX_DUR_USECS_M 0
      end in
    let ticks := usecs_to_ticks (usecs + (BLE_LL_IFS * 2 + BLE_LL_CONN_SUPP_TIME_MIN)) in
    negb (ce_end_time (mgmt c) <=? u32 (begtime + ticks))
  else true.

(** ** Connection events *)

Definition ble_ll_conn_current_sm_over (n : ll_node) : ll_node :=
  set_cur_sm false BLE_LL_STATE_STANDBY (set_wfr None n).
Definition ble_ll_conn_wfr_timer_exp (n : ll_node) : ll_node :=
  let connsm := g_ble_ll_conn_cur_sm n in
  let n := ble_ll_conn_current_sm_over n in
  if connsm then count wfr_expirations (set_ev_end true n) else n.
Definition ble_ll_conn_wait_txend (n : ll_node) : ll_node :=
  set_ev_end true (ble_ll_conn_current_sm_over n).

(** [rx_rc]: the result of ble_phy_rx, for a slave. *)
Definition ble_ll_conn_event_start_cb (now phy_rc rx_rc : Z) (n : ll_node) : tx_result * ll_node :=
  let n := set_cur_sm true BLE_LL_STATE_CONNECTION n in
  let c := nd_conn n in
  let '(res, running, n) :=
    if is_master c then
      let '(res, n) := ble_ll_conn_tx_data_pdu now phy_rc n in (res, txr_rc res =? 0, n)
    else if rx_rc =? 0 then
      let usecs := u32 (slave_cur_tx_win_usecs (timing c) + BLE_LL_WFR_USECS + slave_cur_window_widening (timing c)) in
      let wfr_time := u32 (anchor_point (timing c) + usecs_to_ticks usecs) in
      (mk_txr 0 None false, true, set_wfr (Some wfr_time) (upd_conn (upd_flags (set_set_anchor true)) n))
    else (mk_txr 0 None false, false, count slave_ce_failures n) in
  let n := if running : bool then n else set_cur_sm false BLE_LL_STATE_STANDBY (set_ev_end true n) in
  (res, upd_conn (upd_mgmt (λ g, mk_mgmt (reject_reason g) (cur_ctrl_proc g) (rxd_disconnect_reason g)
          (pending_ctrl_procs g) (event_cntr g) (completed_pkts g) (access_addr g) (ce_end_time g)
          (terminate_timeout g) now)) n).

(** The end of an event, in the task: a connection that has seen a TERMINATE_IND acknowledged or
    received is over ([None]), any other resets the variables of the event.  The next event is
    the subject of [BleConnSetup]; what ble_ll_conn_end does is not modelled. *)
Definition conn_over (c : ble_ll_conn) : bool := terminate_ind_txd (csmflags c) || terminate_ind_rxd (csmflags c).
Definition reset_event (n : ll_node) : ll_node :=
  upd_conn (λ c, upd_flags (set_pkt_rxd false) (upd_ack (set_bad_crc 0) c)) (set_ev_end false n).
Definition event_end (n : ll_node) : option ll_node :=
  if conn_over (nd_conn n) then None else Some (reset_event n).

Definition ble_ll_conn_rx_isr_start (n : ll_node) : ll_node :=
  let n := set_wfr None n in
  if g_ble_ll_conn_cur_sm n then upd_conn (upd_flags (set_pkt_rxd true)) n else n.

(** ** Reception, in the interrupt handler *)

Definition add_completed (g : conn_mgmt) : conn_mgmt :=
  mk_mgmt (reject_reason g) (cur_ctrl_proc g) (rxd_disconnect_reason g) (pending_ctrl_procs g) (event_cntr g)
    (u16 (completed_pkts g + 1)) (access_addr g) (ce_end_time g) (terminate_timeout g) (last_scheduled g).
Definition set_reject (v : Z) (g : conn_mgmt) : conn_mgmt :=
  mk_mgmt v (cur_ctrl_proc g) (rxd_disconnect_reason g) (pending_ctrl_procs g) (event_cntr g)
    (completed_pkts g) (access_addr g) (ce_end_time g) (terminate_timeout g) (last_scheduled g).
Definition set_disconnect (v : Z) (g : conn_mgmt) : conn_mgmt :=
  mk_mgmt (reject_reason g) (cur_ctrl_proc g) v (pending_ctrl_procs g) (event_cntr g)
    (completed_pkts g) (access_addr g) (ce_end_time g) (terminate_timeout g) (last_scheduled g).

(** The packet at the head of the queue has been acknowledged.  The flag of the result:
    it was a TERMINATE_IND. *)
Definition rx_acked (c : ble_ll_conn) : bool * ble_ll_conn :=
  match conn_txq c with
  | [] => (false, c)
  | q :: rest =>
      let m := queue_item c q in
      let t := tx_info m in
      if ble_ll_ctrl_is_terminate_ind (ti_hdr_byte t) (byte_at (tx_data m) 0) then
        (true, set_txq rest (upd_flags set_term_txd c))
      else
        let c :=
          if ble_ll_ctrl_is_reject_ind_ext (ti_hdr_byte t) (byte_at (tx_data m) 0) &&
             (cur_ctrl_proc (mgmt c) =? BLE_LL_CTRL_PROC_CONN_PARAM_REQ)
          then upd_flags set_upd_event (upd_mgmt (set_reject (byte_at (tx_data m) 2)) c)
          else c in
        let offset := u8 (ti_offset t + ti_pyld_len t) in
        let m := set_info (set_offset offset) m in
        if tx_omp_len m <=? offset then
          let c := set_txq rest (write_head m c) in
          (false, if ble_ll_conn_is_l2cap_pdu t then upd_mgmt add_completed c else c)
        else
          (false, write_head (set_info (λ t, set_flags (Z.land (ti_flags t) (Z.lnot BLE_MBUF_HDR_F_TXD)) t) m) c)
  end.

(** [(hdr && bit) || (!hdr && !bit)] for a header bit and a sequence number. *)
Definition seq_match (hdr_bit seqnum : Z) : bool := eqb (hdr_bit =? 0) (seqnum =? 0).

(** The sequence number and the acknowledgement of a packet with a good CRC. *)
Definition rx_check_sn (hdr_byte : Z) (n : ll_node) : ll_node :=
  if seq_match (Z.land hdr_byte BLE_LL_DATA_HDR_SN_MASK) (next_exp_seqnum (ack (nd_conn n))) then
    upd_conn (upd_ack (λ a, set_next_exp (Z.lxor (next_exp_seqnum a) 1) a)) n
  else count rx_resent_pdus n.
Definition rx_check_nesn (hdr_byte : Z) (n : ll_node) : bool * ll_node :=
  let c := nd_conn n in
  if pdu_txd (csmflags c) then
    if seq_match (Z.land hdr_byte BLE_LL_DATA_HDR_NESN_MASK) (tx_seqnum (ack c)) then (false, count data_pdu_txf n)
    else
      let c := upd_ack (λ a, set_tx_seqnum (Z.lxor (tx_seqnum a) 1) a) c in
      let n := count data_pdu_txg n in
      let n := if decide (conn_txq c = []) then count no_tx_pdu n else n in
      let '(terminated, c) := rx_acked c in
      (terminated, upd_conn (λ _, c) n)
  else (false, n).

(** Whether to reply; [None]: the handler is left, a TERMINATE_IND has been acknowledged. *)
Definition rx_crc_bad (n : ll_node) : option bool * ll_node :=
  let n := upd_conn (upd_ack (λ a, set_bad_crc (u8 (cons_rxd_bad_crc a + 1)) a)) n in
  let c := nd_conn n in
  (Some (if 2 <=? cons_rxd_bad_crc (ack c) then false
         else if is_master c then last_txd_md (ack c) else true), n).
Definition rx_crc_good (rxpdu : rx_pdu) (n : ll_node) : option bool * ll_node :=
  let hdr_byte := byte_at (rx_buf rxpdu) 0 in
  let n := upd_conn (upd_ack (λ a, set_last_hdr hdr_byte (set_bad_crc 0 a))) n in
  let n := rx_check_sn hdr_byte n in
  let '(terminated, n) := rx_check_nesn hdr_byte n in
  if terminated : bool then (None, n)
  else
    let c := nd_conn n in
    if ble_ll_ctrl_is_terminate_ind hdr_byte (byte_at (rx_buf rxpdu) 2) then
      (Some true, upd_conn (λ c, upd_flags set_term_rxd (upd_mgmt (set_disconnect (byte_at (rx_buf rxpdu) 3)) c)) n)
    else if is_master c then
      (Some (last_txd_md (ack c) || negb (Z.land hdr_byte BLE_LL_DATA_HDR_MD_MASK =? 0)), n)
    else (Some true, n).

(** The terminate timer would expire before an answer to another packet. *)
Definition terminate_too_late (now : Z) (c : ble_ll_conn) : bool :=
  Z.testbit (pending_ctrl_procs (mgmt c)) BLE_LL_CTRL_PROC_TERMINATE &&
  (let ticks := u32 (usecs_to_ticks (BLE_TX_DUR_USECS_M 0 +
       BLE_TX_DUR_USECS_M (BLE_LL_CTRL_TERMINATE_IND_LEN + 1) + BLE_LL_IFS) + now) in
   s32 (u32 (terminate_timeout (mgmt c) - ticks)) <? 0).

(** Reply, if there is to be one. *)
Definition rx_reply (now phy_rc : Z) (rxpdu : rx_pdu) (reply : option bool) (n : ll_node) : tx_result * ll_node :=
  match reply with
  | Some true =>
      if ble_ll_conn_can_send_next_pdu (nd_conn n) (rx_end_cputime rxpdu) && negb (terminate_too_late now (nd_conn n))
      then ble_ll_conn_tx_data_pdu now phy_rc n
      else (mk_txr (-1) None false, n)
  | _ => (mk_txr (-1) None false, n)
  end.

Definition set_anchors (rxpdu : rx_pdu) (c : ble_ll_conn) : ble_ll_conn :=
  if slave_set_last_anchor (csmflags c) then
    let anchor := u32 (rx_end_cputime rxpdu - usecs_to_ticks (BLE_TX_DUR_USECS_M (byte_at (rx_buf rxpdu) 1))) in
    upd_flags (set_set_anchor false)
      (upd_timing (λ t, mk_timing (master_sca t) (supervision_tmo t) anchor anchor (slave_cur_tx_win_usecs t)
                          (slave_cur_window_widening t)) c)
  else c.

Definition set_handle (h : Z) (p : rx_pdu) : rx_pdu :=
  mk_rx (rx_buf p) (rx_len p) (rx_crcok p) h (rx_rssi p) (rx_end_cputime p).

(** [i]: the place of the packet in the receive queue, where its handle is written. *)
Definition ble_ll_conn_rx_isr_end (now phy_rc aa : Z) (i : nat) (rxpdu : rx_pdu) (n : ll_node) : tx_result * ll_node :=
  let failed := mk_txr (-1) None false in
  if negb (g_ble_ll_conn_cur_sm n) then
    (failed, ble_ll_conn_current_sm_over (count rx_data_pdu_no_conn n))
  else
    let '(res, n) :=
      if negb (aa =? access_addr (mgmt (nd_conn n))) then (failed, count rx_data_pdu_bad_aa n)
      else
        let n := set_rx_q (alter (set_handle (u8 (conn_handle (nd_conn n)))) i (ll_rx_pkt_q n)) n in
        let '(reply, n) := if rx_crcok rxpdu then rx_crc_good rxpdu n else rx_crc_bad n in
        let '(res, n) := rx_reply now phy_rc rxpdu reply n in
        (res, upd_conn (set_anchors rxpdu) n) in
    if txr_rc res =? 0 then (res, n) else (res, set_ev_end true (ble_ll_conn_current_sm_over n)).

(** ble_ll_rx_pdu_in and ble_ll_rx_end on a data channel.  The event that wakes the task up is not
    modelled: the task may empty its queues at any time. *)
Definition ble_ll_rx_pdu_in (rxpdu : rx_pdu) (n : ll_node) : ll_node := set_rx_q (ll_rx_pkt_q n ++ [rxpdu]) n.
Definition ble_ll_rx_end (now phy_rc aa : Z) (rxpdu : rx_pdu) (n : ll_node) : tx_result * ll_node :=
  let mblen := u16 (byte_at (rx_buf rxpdu) 1 + BLE_LL_PDU_HDR_LEN) in
  let rxpdu := mk_rx (rx_buf rxpdu) mblen (rx_crcok rxpdu) (rx_handle rxpdu) (rx_rssi rxpdu) (rx_end_cputime rxpdu) in
  ble_ll_conn_rx_isr_end now phy_rc aa (length (ll_rx_pkt_q n)) rxpdu (ble_ll_rx_pdu_in rxpdu n).

(** ** Reception, in the task *)

Definition ble_ll_conn_find_active_conn (handle : Z) (n : ll_node) : option ble_ll_conn :=
  if negb (handle =? 0) && (handle <=? NIMBLE_OPT_MAX_CONNECTIONS) then
    if decide (conn_state (nd_conn n) = BLE_LL_CONN_STATE_IDLE) then None else Some (nd_conn n)
  else None.

(** The packet as the host gets it: the data header written before the payload. *)
Definition acl_packet (acl_hdr acl_len : Z) (rxpdu : rx_pdu) : list Z :=
  u8 acl_hdr :: u8 (acl_hdr / 256) :: u8 acl_len :: u8 (acl_len / 256) ::
    drop 2 (take (Z.to_nat (rx_len rxpdu)) (rx_buf rxpdu)).

Definition rx_new_pdu (c : ble_ll_conn) (rxpdu : rx_pdu) (llid acl_len : Z) (n : ll_node) : ll_node :=
  if (llid =? BLE_LL_LLID_DATA_FRAG) && (acl_len =? 0) then n
  else if llid =? BLE_LL_LLID_CTRL then
    pass_on (To_ctrl (take (Z.to_nat (rx_len rxpdu)) (rx_buf rxpdu))) (count rx_ctrl_pdus n)
  else
    let acl_hdr := u16 (Z.lor (Z.shiftl llid 12) (conn_handle c)) in
    pass_on (To_host (acl_packet acl_hdr acl_len rxpdu)) (count rx_l2cap_pdus n).

Definition ble_ll_conn_rx_data_pdu (now : Z) (rxpdu : rx_pdu) (n : ll_node) : ll_node :=
  if rx_crcok rxpdu then
    let n := count rx_valid_data_pdus n in
    match ble_ll_conn_find_active_conn (rx_handle rxpdu) n with
    | Some c =>
        let tmo := u32 (supervision_tmo (timing c) * BLE_HCI_CONN_SPVN_TMO_UNITS * 1000) in
        let n := set_spvn (Some (u32 (now + usecs_to_ticks tmo))) n in
        let hdr_byte := byte_at (rx_buf rxpdu) 0 in
        let acl_len := byte_at (rx_buf rxpdu) 1 in
        let acl_hdr := Z.land hdr_byte BLE_LL_DATA_HDR_LLID_MASK in
        if (acl_hdr =? 0) || ((acl_hdr =? BLE_LL_LLID_DATA_START) && (acl_len =? 0)) then count rx_bad_llid n
        else
          let n := upd_conn (set_rssi (rx_rssi rxpdu)) n in
          let n :=
            if is_slave c && negb (Z.land hdr_byte BLE_LL_DATA_HDR_NESN_MASK =? 0)
            then upd_conn (upd_flags set_allow_latency) n else n in
          let rxd_sn := Z.land hdr_byte BLE_LL_DATA_HDR_SN_MASK in
          if negb (rxd_sn =? last_rxd_sn (ack c)) then
            rx_new_pdu c rxpdu acl_hdr acl_len (upd_conn (upd_ack (set_last_sn rxd_sn)) n)
          else count data_pdu_rx_dup n
    | None => count no_conn_sm n
    end
  else count rx_invalid_data_pdus n.

(** ble_ll_rx_pkt_in for packets of data channels. *)
Definition rx_pkt_in_one (now : Z) (n : ll_node) (m : rx_pdu) : ll_node :=
  ble_ll_conn_rx_data_pdu now m (if rx_crcok m then count_by (rx_len m) rx_bytes n else n).
Definition ble_ll_rx_pkt_in (now : Z) (n : ll_node) : ll_node :=
  foldl (rx_pkt_in_one now) (set_rx_q [] n) (ll_rx_pkt_q n).

(** ** Packets from the host, and the parameters of the connection *)

Definition ble_ll_conn_enqueue_pkt (om : tx_pdu) (hdr_byte length : Z) (c : ble_ll_conn) : ble_ll_conn :=
  let om := ble_ll_mbuf_init om length hdr_byte in
  let om :=
    if eff_max_tx_octets (dlen c) <? length then set_info (set_pyld_len (eff_max_tx_octets (dlen c))) om else om in
  set_txq (conn_txq c ++ [Pkt om]) c.

Definition ble_ll_conn_tx_pkt_in (om : tx_pdu) (handle length : Z) (n : ll_node) : ll_node :=
  match ble_ll_conn_find_active_conn (Z.land handle 0x0FFF) n with
  | Some _ =>
      let hdr_byte := if Z.land handle 0x3000 =? 0 then BLE_LL_LLID_DATA_START else BLE_LL_LLID_DATA_FRAG in
      upd_conn (ble_ll_conn_enqueue_pkt om hdr_byte (u8 length)) (count l2cap_enqueued n)
  | None => count handle_not_found n
  end.

Definition tx_pkt_in_one (n : ll_node) (pkt : list Z) : ll_node :=
  let handle := byte_at pkt 0 + 256 * byte_at pkt 1 in
  let len := byte_at pkt 2 + 256 * byte_at pkt 3 in
  let data := drop 4 pkt in
  let om := mk_tx data (Z.of_nat (length data)) (Z.of_nat (length data)) (mk_txinfo 0 0 0 0) in
  let pb := Z.land handle 0x3000 in
  if negb (tx_omp_len om =? len) || (0x1000 <? pb) || (len =? 0) then count bad_acl_hdr n
  else ble_ll_conn_tx_pkt_in om handle len n.
Definition ble_ll_tx_pkt_in (n : ll_node) : ll_node :=
  foldl tx_pkt_in_one (set_tx_q [] n) (ll_tx_pkt_q n).
Definition ble_ll_acl_data_in (pkt : list Z) (n : ll_node) : ll_node := set_tx_q (ll_tx_pkt_q n ++ [pkt]) n.

(** A length request of the peer: octets and times it can receive and transmit. *)
Record ble_ll_len_req := mk_len_req { lr_max_rx_bytes : Z; lr_max_rx_time : Z; lr_max_tx_bytes : Z; lr_max_tx_time : Z }.
(** The flag of the result: an event is sent to the host. *)
Definition ble_ll_conn_datalen_update (req : ble_ll_len_req) (d : conn_dlen) : bool * conn_dlen :=
  let rem_tx := u8 (lr_max_tx_bytes req) in
  let rem_rx := u8 (lr_max_rx_bytes req) in
  let eff_rx_time := Z.min (lr_max_tx_time req) (max_rx_time d) in
  let eff_tx_time := Z.min (lr_max_rx_time req) (max_tx_time d) in
  let eff_rx := Z.min rem_tx (max_rx_octets d) in
  let eff_tx := Z.min rem_rx (max_tx_octets d) in
  (negb ((eff_rx_time =? eff_max_rx_time d) && (eff_tx_time =? eff_max_tx_time d) &&
         (eff_rx =? eff_max_rx_octets d) && (eff_tx =? eff_max_tx_octets d)),
   mk_dlen (max_tx_octets d) (max_rx_octets d) rem_tx rem_rx eff_tx eff_rx
     (max_tx_time d) (max_rx_time d) (lr_max_tx_time req) (lr_max_rx_time req) eff_tx_time eff_rx_time).

(** The global parameters and a new connection (ble_ll_conn_sm_new). *)
Record conn_global_params := mk_gparams {
  supp_max_rx_octets : Z; conn_init_max_tx_octets : Z; conn_init_max_tx_time : Z; supp_max_rx_time : Z }.
Definition ble_ll_conn_sm_new (g : conn_global_params) (c : ble_ll_conn) : ble_ll_conn :=
  let k := mk_cchan (chanmap (chan c)) (hop_inc (chan c)) (data_chan_index (chan c)) (unmapped_chan (chan c)) 0
             (num_used_chans (chan c)) in
  let '(dci, k) := ble_ll_conn_calc_dci k in
  mk_conn BLE_LL_CONN_STATE_IDLE (conn_role c) (conn_handle c) BLE_LL_CONN_UNKNOWN_RSSI
    (mk_flags false false false false false false false)
    (mk_dlen (conn_init_max_tx_octets g) (supp_max_rx_octets g) BLE_LL_CONN_SUPP_BYTES_MIN BLE_LL_CONN_SUPP_BYTES_MIN
       BLE_LL_CONN_SUPP_BYTES_MIN BLE_LL_CONN_SUPP_BYTES_MIN (conn_init_max_tx_time g) (supp_max_rx_time g)
       BLE_LL_CONN_SUPP_TIME_MIN BLE_LL_CONN_SUPP_TIME_MIN BLE_LL_CONN_SUPP_TIME_MIN BLE_LL_CONN_SUPP_TIME_MIN)
    (mk_cchan (chanmap k) (hop_inc k) dci (unmapped_chan k) (last_unmapped_chan k) (num_used_chans k))
    (mk_ack 0 0 false 0 1 (last_rxd_hdr_byte (ack c)))
    (mk_mgmt 0 BLE_LL_CTRL_PROC_IDLE (rxd_disconnect_reason (mgmt c)) 0 0 0 (access_addr (mgmt c))
       (ce_end_time (mgmt c)) (terminate_timeout (mgmt c)) (last_scheduled (mgmt c)))
    (timing c) [] (conn_empty_pdu c).

End link_layer.

(** A connection as ble_ll_conn_module_init and ble_ll_conn_sm_new leave it, with all
    channels in use, for examples. *)
Module LlDemo.

Definition zero_conn (role : conn_role_t) : ble_ll_conn :=
  mk_conn BLE_LL_CONN_STATE_IDLE role 1 0 (mk_flags false false false false false false false)
    (mk_dlen 0 0 0 0 0 0 0 0 0 0 0 0) (mk_cchan [0xff; 0xff; 0xff; 0xff; 0x1f] 7 0 0 0 37) (mk_ack 0 0 false 0 0 0)
    (mk_mgmt 0 0 0 0 0 0 0x71764129 0 0 0) (mk_timing 0 100 0 0 0 0) []
    (ble_ll_mbuf_init (mk_tx [] 0 0 (mk_txinfo 0 0 0 0)) 0 BLE_LL_LLID_DATA_FRAG).
Definition gparams : conn_global_params := mk_gparams 251 251 2120 2120.
Definition established (c : ble_ll_conn) : ble_ll_conn :=
  mk_conn BLE_LL_CONN_STATE_ESTABLISHED (conn_role c) (conn_handle c) (conn_rssi c) (csmflags c) (dlen c) (chan c)
    (ack c) (mgmt c) (timing c) (conn_txq c) (conn_empty_pdu c).
Definition node (role : conn_role_t) : ll_node :=
  mk_node (established (ble_ll_conn_sm_new gparams (zero_conn role))) false BLE_LL_STATE_STANDBY None None false
    [] [] [] (λ _, 0).

End LlDemo.
