(* ===== verification/BleConnLink.v ===== *)
(** The acknowledgement scheme of a link-layer connection.

    Two controllers, a master and a slave, exchange packets over a radio that loses and
    corrupts them ([link_step]: every step is a handler of one of the controllers or an
    act of the radio).  What is sent is a stream of [item]s: bytes, of which the first one
    of a packet from the host is marked, and control packets.  The scheme keeps one fragment
    in flight; [dir_ok] says for each direction where every item of the stream is, and
    [link_ok], that it holds in both, is an invariant of the link.

    The link is followed as long as the connection lasts: there is no step for its end. *)
From Stdlib Require Import ZArith Lia.
From stdpp Require Import base decidable list numbers.
From S2P Require Import Prelude.
From S2P Require Import BleConn.

#[local] Open Scope Z_scope.

(** ** Streams *)

Inductive item := It_byte (start : bool) (b : Z) | It_ctrl (bs : list Z).

(** The items a fragment carries. *)
Definition frag_items (llid : Z) (bs : list Z) : list item :=
  if llid =? BLE_LL_LLID_CTRL then [It_ctrl bs]
  else match bs with
       | [] => []
       | b :: bs => It_byte (llid =? BLE_LL_LLID_DATA_START) b :: (It_byte false <$> bs)
       end.

(** The items of what a controller has passed on. *)
Definition delivery_items (d : delivery) : list item :=
  match d with
  | To_host (_ :: h :: _ :: _ :: bs) => frag_items (Z.land (Z.shiftr h 4) 3) bs
  | To_ctrl (_ :: _ :: bs) => [It_ctrl bs]
  | _ => []
  end.
Definition received (n : ll_node) : list item := mjoin (delivery_items <$> passed_on n).

(** The items of a packet from the host, if the controller takes it. *)
Definition acl_items (n : ll_node) (pkt : list Z) : list item :=
  let handle := byte_at pkt 0 + 256 * byte_at pkt 1 in
  let len := byte_at pkt 2 + 256 * byte_at pkt 3 in
  let pb := Z.land handle 0x3000 in
  if (Z.of_nat (length (drop 4 pkt)) =? len) && (pb <=? 0x1000) && negb (len =? 0) &&
     bool_decide (is_Some (ble_ll_conn_find_active_conn (Z.land handle 0x0FFF) n))
  then frag_items (if pb =? 0 then BLE_LL_LLID_DATA_START else BLE_LL_LLID_DATA_FRAG) (drop 4 pkt)
  else [].

Lemma frag_items_nil llid : llid ≠ 3 → frag_items llid [] = [].
Proof. unfold frag_items, BLE_LL_LLID_CTRL. intros. by rewrite (proj2 (Z.eqb_neq _ _)). Qed.

Lemma frag_items_frag bs : frag_items 1 bs = It_byte false <$> bs.
Proof. by destruct bs. Qed.

(** Fragmentation does not change the stream. *)
Lemma frag_items_split llid bs k :
  llid ≠ 3 → (0 < k)%nat → frag_items llid bs = frag_items llid (take k bs) ++ frag_items 1 (drop k bs).
Proof.
  unfold frag_items at 1 2, BLE_LL_LLID_CTRL. intros. rewrite (proj2 (Z.eqb_neq _ _)) by done.
  destruct bs as [|b bs]; [by rewrite take_nil, drop_nil|]. destruct k as [|k]; [lia|].
  cbn [take drop app]. by rewrite frag_items_frag, <-fmap_app, take_drop.
Qed.

(** ** Packets and queues *)

(** The header byte of a transmitted packet. *)
Definition hdr_of (llid : Z) (sn nesn md : bool) : Z :=
  Z.lor (Z.lor (Z.lor llid (if sn then 8 else 0)) (if md then 16 else 0)) (if nesn then 4 else 0).
Definition llid_ok (llid : Z) : Prop := llid = 1 ∨ llid = 2 ∨ llid = 3.
Definition sn_bit (s : bool) : Z := if s then 8 else 0.

(** Bit facts about headers are decided by computation. *)
Ltac hdr_cases :=
  repeat match goal with
    | H : llid_ok _ |- _ => destruct H as [->|[->| ->]]
    | b : bool |- _ => destruct b
    end; try done.

Lemma hdr_llid llid sn nesn md : llid_ok llid → Z.land (hdr_of llid sn nesn md) BLE_LL_DATA_HDR_LLID_MASK = llid.
Proof. intros. hdr_cases. Qed.
Lemma hdr_sn llid sn nesn md : llid_ok llid → Z.land (hdr_of llid sn nesn md) BLE_LL_DATA_HDR_SN_MASK = sn_bit sn.
Proof. intros. hdr_cases. Qed.
Lemma hdr_nesn llid sn nesn md :
  llid_ok llid → Z.land (hdr_of llid sn nesn md) BLE_LL_DATA_HDR_NESN_MASK = (if nesn then 4 else 0).
Proof. intros. hdr_cases. Qed.

(** The header byte the code computes, from a packet that is sent first and from one that is
    sent again. *)
Definition add_bits (h : Z) (md nesn : bool) : Z :=
  let h := if md then Z.lor h BLE_LL_DATA_HDR_MD_MASK else h in
  if nesn then Z.lor h BLE_LL_DATA_HDR_NESN_MASK else h.
Lemma add_bits_first llid sn md nesn :
  llid_ok llid → add_bits (if sn : bool then Z.lor llid BLE_LL_DATA_HDR_SN_MASK else llid) md nesn = hdr_of llid sn nesn md.
Proof. intros. hdr_cases. Qed.
Lemma add_bits_retry llid sn md0 nesn0 md nesn :
  llid_ok llid →
  add_bits (Z.land (hdr_of llid sn nesn0 md0) (Z.lnot (Z.lor BLE_LL_DATA_HDR_MD_MASK BLE_LL_DATA_HDR_NESN_MASK))) md nesn
  = hdr_of llid sn nesn md.
Proof. intros. hdr_cases. Qed.

Definition payload (m : tx_pdu) : list Z := take (Z.to_nat (tx_om_len m)) (tx_data m).

(** The LLID of the next fragment, and what is left to send. *)
Definition next_llid (t : txinfo) : Z :=
  if BLE_IS_RETRY_M t || (ti_offset t =? 0) then Z.land (ti_hdr_byte t) 3 else 1.
Definition left_of (m : tx_pdu) : list item :=
  frag_items (next_llid (tx_info m)) (drop (Z.to_nat (ti_offset (tx_info m))) (payload m)).
(** The fragment that is in flight. *)
Definition fragment (m : tx_pdu) : list Z :=
  take (Z.to_nat (ti_pyld_len (tx_info m))) (drop (Z.to_nat (ti_offset (tx_info m))) (payload m)).
Definition flight_of (m : tx_pdu) : list item :=
  if BLE_IS_RETRY_M (tx_info m) then frag_items (Z.land (ti_hdr_byte (tx_info m)) 3) (fragment m) else [].

Definition pkt_wf (m : tx_pdu) : Prop :=
  tx_omp_len m = tx_om_len m ∧ 0 < tx_om_len m < 256 ∧ tx_om_len m <= Z.of_nat (length (tx_data m)).
(** Not transmitted yet; partly acknowledged; transmitted with sequence number [s]. *)
Definition fresh_pkt (m : tx_pdu) : Prop :=
  pkt_wf m ∧ ti_flags (tx_info m) = 0 ∧ ti_offset (tx_info m) = 0 ∧ llid_ok (ti_hdr_byte (tx_info m)) ∧
  (ti_hdr_byte (tx_info m) = 3 → tx_om_len m <= 27).
Definition part_pkt (m : tx_pdu) : Prop :=
  pkt_wf m ∧ ti_flags (tx_info m) = 0 ∧ 0 < ti_offset (tx_info m) < tx_om_len m.
Definition sent_with (s : bool) (llid : Z) (m : tx_pdu) : Prop :=
  ti_flags (tx_info m) = 1 ∧ ∃ nesn md, ti_hdr_byte (tx_info m) = hdr_of llid s nesn md.
Definition sent_pkt (s : bool) (m : tx_pdu) : Prop :=
  pkt_wf m ∧ 0 <= ti_offset (tx_info m) ∧ 0 < ti_pyld_len (tx_info m) ∧
  ti_offset (tx_info m) + ti_pyld_len (tx_info m) <= tx_om_len m ∧
  ∃ llid, llid_ok llid ∧ sent_with s llid m ∧
    (llid = 3 → ti_offset (tx_info m) = 0 ∧ ti_pyld_len (tx_info m) = tx_om_len m).
Definition empty_wf (m : tx_pdu) : Prop :=
  tx_omp_len m = 0 ∧ tx_om_len m = 0 ∧ ti_offset (tx_info m) = 0 ∧ ti_pyld_len (tx_info m) = 0.

Definition head_ok (s : bool) (c : ble_ll_conn) (q : txq_item) : Prop :=
  match q with
  | Empty_pdu => sent_with s 1 (conn_empty_pdu c)
  | Pkt m => fresh_pkt m ∨ part_pkt m ∨ sent_pkt s m
  end.
Definition fresh_item (q : txq_item) : Prop := ∃ m, q = Pkt m ∧ fresh_pkt m.
Definition queue_ok (s : bool) (c : ble_ll_conn) : Prop :=
  empty_wf (conn_empty_pdu c) ∧
  match conn_txq c with [] => True | q :: rest => head_ok s c q ∧ Forall fresh_item rest end.

(** What the queue of a connection holds, what of it is in flight, and whether the packet at
    its head has been transmitted. *)
Definition unacked (c : ble_ll_conn) : list item := mjoin (left_of ∘ queue_item c <$> conn_txq c).
Definition in_flight (c : ble_ll_conn) : list item :=
  match conn_txq c with [] => [] | q :: _ => flight_of (queue_item c q) end.
Definition head_sent (c : ble_ll_conn) : Prop :=
  match conn_txq c with [] => False | q :: _ => BLE_IS_RETRY_M (tx_info (queue_item c q)) = true end.

(** ** The receive queue *)

Definition rx_llid (p : rx_pdu) : Z := Z.land (byte_at (rx_buf p) 0) BLE_LL_DATA_HDR_LLID_MASK.
Definition rx_sn (p : rx_pdu) : Z := Z.land (byte_at (rx_buf p) 0) BLE_LL_DATA_HDR_SN_MASK.
Definition rx_items (p : rx_pdu) : list item := frag_items (rx_llid p) (drop 2 (take (Z.to_nat (rx_len p)) (rx_buf p))).
(** A packet that arrived intact. *)
Definition good_rx (p : rx_pdu) : Prop :=
  rx_crcok p = true → rx_handle p = 1 ∧ llid_ok (rx_llid p) ∧
    rx_len p = byte_at (rx_buf p) 1 + 2 ∧ 0 <= byte_at (rx_buf p) 1 < 256 ∧
    (rx_llid p = 1 ∨ 0 < byte_at (rx_buf p) 1) ∧ rx_len p <= Z.of_nat (length (rx_buf p)).
(** What the task will pass on of the queue, and the last sequence number after it. *)
Fixpoint queued (last : Z) (q : list rx_pdu) : list item * Z :=
  match q with
  | [] => ([], last)
  | p :: q =>
      if rx_crcok p && negb (rx_sn p =? last) then
        let '(l, last') := queued (rx_sn p) q in (rx_items p ++ l, last')
      else queued last q
  end.
Definition accepted (n : ll_node) : list item :=
  received n ++ (queued (last_rxd_sn (ack (nd_conn n))) (ll_rx_pkt_q n)).1.
Definition last_sn (n : ll_node) : Z := (queued (last_rxd_sn (ack (nd_conn n))) (ll_rx_pkt_q n)).2.

(** ** One direction of the link *)

Definition conn_wf (c : ble_ll_conn) : Prop :=
  conn_handle c = 1 ∧ conn_state c ≠ BLE_LL_CONN_STATE_IDLE ∧
  27 <= eff_max_tx_octets (dlen c) < 256 ∧ 27 <= max_tx_octets (dlen c) < 256.

(** [X] sends the stream [sent] to [Y]; [s] and [e] are the sequence number of the
    sender and the one the receiver expects.  They differ from the moment the
    receiver takes the fragment in flight until the sender learns of it. *)
Record dir_ok (X Y : ll_node) (sent : list item) : Prop := {
  do_seq : ∃ s e, tx_seqnum (ack (nd_conn X)) = Z.b2z s ∧ next_exp_seqnum (ack (nd_conn Y)) = Z.b2z e ∧
    queue_ok s (nd_conn X) ∧ Forall good_rx (ll_rx_pkt_q Y) ∧
    ∃ acked, sent = acked ++ unacked (nd_conn X) ∧
      if eqb s e then accepted Y = acked ∧ last_sn Y ≠ sn_bit s
      else accepted Y = acked ++ in_flight (nd_conn X) ∧ last_sn Y = sn_bit s ∧
           head_sent (nd_conn X) ∧ pdu_txd (csmflags (nd_conn X)) = true }.

(** ** Packets in transmission *)

Lemma retry_flag f o p h : BLE_IS_RETRY_M (mk_txinfo f o p h) = negb (Z.land f 1 =? 0).
Proof. done. Qed.

Lemma length_payload m : pkt_wf m → length (payload m) = Z.to_nat (tx_om_len m).
Proof. intros (?&?&?). unfold payload. rewrite length_take. lia. Qed.

(** The acknowledgement a packet carries. *)
Definition nesn_is (e : bool) (m : tx_pdu) : Prop :=
  Z.land (ti_hdr_byte (tx_info m)) BLE_LL_DATA_HDR_NESN_MASK = (if e then 4 else 0).

(** The packet of the head of the queue as it is transmitted. *)
Definition transmitted (c : ble_ll_conn) (md nesn : bool) (m : tx_pdu) : tx_pdu :=
  let '(_, h, m) := tx_choose c m in
  set_info (set_hdr_byte (add_bits h md nesn)) (set_info (λ t, set_flags (Z.lor (ti_flags t) BLE_MBUF_HDR_F_TXD) t) m).

Lemma transmit_first c s md nesn m :
  fresh_pkt m ∨ part_pkt m → conn_wf c → tx_seqnum (ack c) = Z.b2z s →
  sent_pkt s (transmitted c md nesn m) ∧ left_of (transmitted c md nesn m) = left_of m ∧
  nesn_is nesn (transmitted c md nesn m).
Proof.
  destruct m as [data oml ompl [fl off pl h]]. intros Hm (_ & _ & Heff & _) Hs.
  assert (pkt_wf (mk_tx data oml ompl (mk_txinfo fl off pl h)) ∧ fl = 0 ∧ 0 <= off < oml ∧
          (if off =? 0 then llid_ok h ∧ (h = 3 → oml <= 27) else True)) as ((Hw1 & Hw2 & Hw3) & -> & Hoff & Hh).
  { destruct Hm as [(Hw & ?&?&?&?)|(Hw & ?&?)]; cbn in *; subst; destruct Hw as (?&?&?); cbn in *.
    - split_and!; try done; lia.
    - split_and!; try done; try lia. by rewrite (proj2 (Z.eqb_neq _ _)) by lia. }
  cbn in Hw1, Hw2, Hw3. subst ompl. clear Hm.
  unfold transmitted, tx_choose. cbn -[add_bits Z.land Z.lor]. rewrite retry_flag.
  change (negb (Z.land 0 1 =? 0)) with false. cbn -[add_bits Z.land Z.lor]. rewrite (u8_small (oml - off)) by lia.
  set (len := if _ <? _ then _ else _).
  assert (0 < len <= oml - off) by (subst len; destruct (Z.ltb_spec (oml - off) (eff_max_tx_octets (dlen c))); lia).
  set (llid := if off =? 0 then h else BLE_LL_LLID_DATA_FRAG).
  assert (llid_ok llid) as Hl.
  { subst llid. destruct (Z.eqb_spec off 0); [apply Hh|by left]. }
  assert (add_bits (if tx_seqnum (ack c) =? 0 then llid else Z.lor llid BLE_LL_DATA_HDR_SN_MASK) md nesn = hdr_of llid s nesn md) as ->.
  { rewrite Hs, <-add_bits_first by done. by destruct s. }
  split_and!; [| |by apply hdr_nesn].
  - split_and!; cbn; try done; try lia. exists llid. split_and!; [done| |].
    + split; [done|]. by exists nesn, md.
    + intros Hl3. subst llid. destruct (Z.eqb_spec off 0) as [->|]; [|done].
      destruct Hh as [_ Hh]. split; [done|]. subst len. specialize (Hh Hl3).
      destruct (Z.ltb_spec (oml - 0) (eff_max_tx_octets (dlen c))); lia.
  - unfold left_of, payload. cbn. f_equal. unfold next_llid. cbn -[hdr_of Z.land].
    rewrite !retry_flag. cbn -[hdr_of Z.land].
    change (Z.land (hdr_of llid s nesn md) 3) with (Z.land (hdr_of llid s nesn md) BLE_LL_DATA_HDR_LLID_MASK).
    rewrite hdr_llid by done. subst llid. destruct (Z.eqb_spec off 0); [|done].
    destruct Hh as [Hh _]. by destruct Hh as [->|[->| ->]].
Qed.

Lemma transmit_retry c s llid md nesn m :
  llid_ok llid → sent_with s llid m →
  sent_with s llid (transmitted c md nesn m) ∧ tx_info (transmitted c md nesn m) =
    set_hdr_byte (hdr_of llid s nesn md) (tx_info m) ∧
  tx_data (transmitted c md nesn m) = tx_data m ∧ tx_om_len (transmitted c md nesn m) = tx_om_len m ∧
  tx_omp_len (transmitted c md nesn m) = tx_omp_len m.
Proof.
  destruct m as [data oml ompl [fl off pl h]]. intros Hl (Hf & nesn0 & md0 & Hh). cbn in Hf, Hh. subst.
  unfold transmitted, tx_choose. cbn -[add_bits Z.land Z.lor Z.lnot hdr_of]. rewrite retry_flag.
  change (negb (Z.land 1 1 =? 0)) with true. cbn -[add_bits Z.land Z.lor Z.lnot hdr_of].
  rewrite add_bits_retry by done.
  split_and!; try done. split; [done|]. by exists nesn, md.
Qed.

(** ** The transmit queue *)

Lemma rest_items c c' rest :
  Forall fresh_item rest → left_of ∘ queue_item c <$> rest = left_of ∘ queue_item c' <$> rest.
Proof. induction 1 as [|? ? (m & -> & _) ? IH]; [done|]. cbn. by rewrite IH. Qed.

Lemma unacked_cons c q rest :
  conn_txq c = q :: rest → unacked c = left_of (queue_item c q) ++ mjoin (left_of ∘ queue_item c <$> rest).
Proof. unfold unacked. by intros ->. Qed.

Lemma write_head_eq m c q rest :
  conn_txq c = q :: rest → ∃ q', conn_txq (write_head m c) = q' :: rest ∧ queue_item (write_head m c) q' = m ∧
    (q = Empty_pdu ∧ q' = Empty_pdu ∧ conn_empty_pdu (write_head m c) = m ∨
     q' = Pkt m ∧ (∃ m0, q = Pkt m0) ∧ conn_empty_pdu (write_head m c) = conn_empty_pdu c).
Proof.
  unfold write_head. intros Eq. rewrite Eq. destruct q as [|m0].
  - exists Empty_pdu. split_and!; [done|done|]. by left.
  - exists (Pkt m). split_and!; [done|done|]. right. split_and!; [done|by eexists|done].
Qed.

Lemma write_head_frame m c :
  ack (write_head m c) = ack c ∧ csmflags (write_head m c) = csmflags c ∧ dlen (write_head m c) = dlen c ∧
  conn_handle (write_head m c) = conn_handle c ∧ conn_state (write_head m c) = conn_state c ∧
  mgmt (write_head m c) = mgmt c ∧ conn_role (write_head m c) = conn_role c.
Proof. unfold write_head. by destruct (conn_txq c) as [|[|] ]. Qed.

(** A new version of the head of the queue. *)
Lemma write_head_ok s c q rest m :
  empty_wf (conn_empty_pdu c) → Forall fresh_item rest → conn_txq c = q :: rest →
  match q with Empty_pdu => empty_wf m ∧ sent_with s 1 m | Pkt _ => fresh_pkt m ∨ part_pkt m ∨ sent_pkt s m end →
  queue_ok s (write_head m c) ∧
  unacked (write_head m c) = left_of m ++ mjoin (left_of ∘ queue_item c <$> rest) ∧
  in_flight (write_head m c) = flight_of m ∧
  (head_sent (write_head m c) ↔ BLE_IS_RETRY_M (tx_info m) = true).
Proof.
  intros Hemp Hrest Eq Hm.
  destruct (write_head_eq m c q rest Eq) as (q' & Eq' & Hitem & Hcase).
  split_and!.
  - destruct Hcase as [(-> & -> & He)|(-> & (m0 & ->) & He)]; unfold queue_ok; rewrite Eq', He.
    + destruct Hm as (Hm & Hs). split_and!; [done| |done]. cbn. by rewrite He.
    + by split_and!.
  - by rewrite (unacked_cons _ q' rest), Hitem, (rest_items _ c) by done.
  - unfold in_flight. by rewrite Eq', Hitem.
  - unfold head_sent. by rewrite Eq', Hitem.
Qed.

(** The fields the acknowledgement scheme uses, apart from the queue, are kept. *)
Definition same_cfg (c c' : ble_ll_conn) : Prop :=
  conn_handle c' = conn_handle c ∧ conn_state c' = conn_state c ∧ dlen c' = dlen c.
Definition same_rx (n n' : ll_node) : Prop :=
  passed_on n' = passed_on n ∧ ll_rx_pkt_q n' = ll_rx_pkt_q n ∧
  last_rxd_sn (ack (nd_conn n')) = last_rxd_sn (ack (nd_conn n)) ∧
  next_exp_seqnum (ack (nd_conn n')) = next_exp_seqnum (ack (nd_conn n)).

(** The bytes on the air are those of the head of the queue, with the number [c] expects. *)
Definition in_air (c : ble_ll_conn) (e : bool) (bytes : list Z) : Prop :=
  ∃ q rest, conn_txq c = q :: rest ∧ BLE_IS_RETRY_M (tx_info (queue_item c q)) = true ∧
    bytes = phy_tx_bytes (queue_item c q) ∧
    Z.land (ti_hdr_byte (tx_info (queue_item c q))) BLE_LL_DATA_HDR_NESN_MASK = (if e then 4 else 0) ∧
    pdu_txd (csmflags c) = true.

Record tx_effect (s e : bool) (n n' : ll_node) (r : tx_result) : Prop := {
  te_queue : queue_ok s (nd_conn n');
  te_unacked : unacked (nd_conn n') = unacked (nd_conn n);
  te_flight : head_sent (nd_conn n) → in_flight (nd_conn n') = in_flight (nd_conn n) ∧ head_sent (nd_conn n');
  te_seq : tx_seqnum (ack (nd_conn n')) = tx_seqnum (ack (nd_conn n));
  te_cfg : same_cfg (nd_conn n) (nd_conn n');
  te_rx : same_rx n n';
  te_tx_q : ll_tx_pkt_q n' = ll_tx_pkt_q n;
  te_txd : pdu_txd (csmflags (nd_conn n)) = true → pdu_txd (csmflags (nd_conn n')) = true;
  te_air : ∀ bytes, txr_air r = Some bytes → in_air (nd_conn n') e bytes }.

Lemma tx_effect_refl s e n rc : queue_ok s (nd_conn n) → tx_effect s e n n (mk_txr rc None false).
Proof. intros. by split. Qed.

Lemma sent_retry s llid m : sent_with s llid m → BLE_IS_RETRY_M (tx_info m) = true.
Proof. intros (Hf & _). unfold BLE_IS_RETRY_M. by rewrite Hf. Qed.
Lemma sent_pkt_retry s m : sent_pkt s m → BLE_IS_RETRY_M (tx_info m) = true.
Proof. intros (_ & _ & _ & _ & llid & _ & Hs & _). by eapply sent_retry. Qed.
Lemma fresh_no_retry m : fresh_pkt m ∨ part_pkt m → BLE_IS_RETRY_M (tx_info m) = false.
Proof. intros [(_ & Hf & _)|(_ & Hf & _)]; unfold BLE_IS_RETRY_M; by rewrite Hf. Qed.

(** A packet sent again keeps its stream. *)
Lemma retry_stream c s llid md nesn m :
  llid_ok llid → sent_with s llid m →
  left_of (transmitted c md nesn m) = left_of m ∧ flight_of (transmitted c md nesn m) = flight_of m ∧
  nesn_is nesn (transmitted c md nesn m).
Proof.
  intros Hl Hs. destruct (transmit_retry c s llid md nesn m Hl Hs) as (Hs' & Hi & Hd & Ho & _).
  pose proof (sent_retry _ _ _ Hs) as Hr. pose proof (sent_retry _ _ _ Hs') as Hr'.
  destruct Hs as (_ & n0 & m0 & Hh).
  unfold left_of, flight_of, next_llid, fragment, payload, nesn_is. rewrite Hr, Hr', Hd, Ho, Hi. cbn [set_hdr_byte ti_offset ti_pyld_len ti_hdr_byte orb].
  change 3 with BLE_LL_DATA_HDR_LLID_MASK. rewrite Hh, !hdr_llid by done. split_and!; [done|done|by apply hdr_nesn].
Qed.

(** Whatever is at the head of the queue, transmitting it is safe. *)
Lemma transmit_head s c q rest md nesn m :
  queue_ok s c → conn_wf c → tx_seqnum (ack c) = Z.b2z s → conn_txq c = q :: rest →
  m = transmitted c md nesn (queue_item c q) →
  (match q with Empty_pdu => empty_wf m ∧ sent_with s 1 m | Pkt _ => sent_pkt s m end) ∧
  left_of m = left_of (queue_item c q) ∧ nesn_is nesn m ∧
  (BLE_IS_RETRY_M (tx_info (queue_item c q)) = true → flight_of m = flight_of (queue_item c q)).
Proof.
  intros (Hemp & Hq) Hwf Hs Eq ->. rewrite Eq in Hq. destruct Hq as (Hh & _).
  destruct q as [|m]; cbn [queue_item head_ok] in *.
  - destruct (transmit_retry c s 1 md nesn (conn_empty_pdu c) ltac:(by left) Hh) as (Hs' & Hi & Hd & Ho & Hp).
    destruct (retry_stream c s 1 md nesn (conn_empty_pdu c) ltac:(by left) Hh) as (Hl & Hf & Hn).
    split_and!; try done. destruct Hemp as (?&?&?&?). unfold empty_wf. rewrite Hp, Ho, Hi. done.
  - destruct Hh as [Hh|[Hh|Hh]].
    1,2: destruct (transmit_first c s md nesn m ltac:(auto)) as (?&?&?); [done..|]; by rewrite (fresh_no_retry m) by auto.
    destruct Hh as ((Hw1 & Hw2 & Hw3) & Ho & Hp & Hop & llid & Hl & Hsw & H3).
    destruct (transmit_retry c s llid md nesn m Hl Hsw) as (Hs' & Hi & Hd & Hol & Hpl).
    destruct (retry_stream c s llid md nesn m Hl Hsw) as (? & ? & ?). split_and!; [|done..].
    unfold sent_pkt, pkt_wf. rewrite Hd, Hol, Hpl, Hi. cbn. split_and!; try done; try lia. exists llid. by split_and!.
Qed.

(** The packet [tx_data_pdu] writes to the head of the queue. *)
Definition tx_final (md nesn : bool) (h : Z) (m : tx_pdu) : tx_pdu :=
  set_info (set_hdr_byte (add_bits h md nesn)) (set_info (λ t, set_flags (Z.lor (ti_flags t) BLE_MBUF_HDR_F_TXD) t) m).

Lemma tx_prepare_ok now tpu s c c1 m h md em nesn :
  queue_ok s c → conn_wf c → tx_seqnum (ack c) = Z.b2z s → tx_prepare tpu now c = (c1, m, h, md, em) →
  ∃ q rest, conn_txq c1 = q :: rest ∧ empty_wf (conn_empty_pdu c1) ∧ Forall fresh_item rest ∧
    (c1 = c ∨ conn_txq c = [] ∧ c1 = set_txq [Empty_pdu] c) ∧
    let m := tx_final md nesn h m in
    (match q with Empty_pdu => empty_wf m ∧ sent_with s 1 m | Pkt _ => sent_pkt s m end) ∧ nesn_is nesn m ∧
    left_of m ++ mjoin (left_of ∘ queue_item c1 <$> rest) = unacked c ∧
    (head_sent c → flight_of m = in_flight c).
Proof.
  intros Hok Hwf Hs Hp. pose proof Hok as (Hemp & Hq). unfold tx_prepare in Hp.
  destruct (conn_txq c) as [|q rest] eqn:Eq.
  - injection Hp as <- <- <- <- <-. exists Empty_pdu, [].
    split; [done|]. split; [done|]. split; [done|]. split; [by right|]. intros mf. subst mf.
    destruct Hemp as (He1 & He2 & He3 & He4).
    set (h := if tx_seqnum (ack c) =? 0 then _ else _).
    assert (add_bits h false nesn = hdr_of 1 s nesn false) as Hh.
    { rewrite <-add_bits_first by (by left). f_equal. subst h. rewrite Hs. by destruct s. }
    unfold head_sent, unacked, tx_final. rewrite Hh, Eq. split_and!.
    + done.
    + split; [done|]. by exists nesn, false.
    + by apply hdr_nesn; left.
    + unfold left_of, payload, next_llid. cbn -[hdr_of Z.land]. rewrite He2, He3, take_0, drop_nil.
      change 3 with BLE_LL_DATA_HDR_LLID_MASK. by rewrite hdr_llid by (by left).
    + done.
  - destruct (tx_choose c (queue_item c q)) as [[len h0] m0] eqn:Ec. injection Hp as <- <- <- <- <-.
    exists q, rest. destruct Hq as (Hh & Hrest).
    set (md := tx_more_data _ _ _ _ _ _).
    destruct (transmit_head s c q rest md nesn (transmitted c md nesn (queue_item c q)))
      as (Hm & Hl & Hn & Hf); [done..|].
    assert (transmitted c md nesn (queue_item c q) = tx_final md nesn h0 m0) as Et.
    { unfold transmitted. by rewrite Ec. }
    rewrite Et in Hm, Hl, Hn, Hf.
    split; [done|]. split; [done|]. split; [done|]. split; [by left|]. intros mf. subst mf.
    split; [done|]. split; [done|]. split.
    + by rewrite Hl, <-(unacked_cons c q rest).
    + unfold head_sent, in_flight. by rewrite Eq.
Qed.

Lemma count_tx_frame em t n :
  nd_conn (count_tx em t n) = nd_conn n ∧ passed_on (count_tx em t n) = passed_on n ∧
  ll_rx_pkt_q (count_tx em t n) = ll_rx_pkt_q n ∧ ll_tx_pkt_q (count_tx em t n) = ll_tx_pkt_q n.
Proof. unfold count_tx. destruct em; [done|]. by case_match. Qed.

Lemma tx_ok tpu now rc n s e r n' :
  queue_ok s (nd_conn n) → conn_wf (nd_conn n) →
  tx_seqnum (ack (nd_conn n)) = Z.b2z s → next_exp_seqnum (ack (nd_conn n)) = Z.b2z e →
  ble_ll_conn_tx_data_pdu tpu now rc n = (r, n') → tx_effect s e n n' r.
Proof.
  intros Hok Hwf Hs He. unfold ble_ll_conn_tx_data_pdu.
  destruct (tx_prepare tpu now (nd_conn n)) as [[[[c1 m] h] md] em] eqn:Ep.
  destruct (tx_prepare_ok now tpu s (nd_conn n) c1 m h md em e) as (q & rest & Eq & Hemp & Hrest & Hc1 & Hm & Hn & Hl & Hf);
    [done..|].
  assert (next_exp_seqnum (ack c1) = Z.b2z e) as He1 by (destruct Hc1 as [->|(_ & ->)]; done).
  rewrite He1.
  assert (∀ a b : Z, (if Z.b2z e =? 0 then a else b) = if e then b else a) as Hif by (by destruct e). rewrite Hif.
  change (if e then Z.lor (if md then Z.lor h BLE_LL_DATA_HDR_MD_MASK else h) BLE_LL_DATA_HDR_NESN_MASK
          else if md then Z.lor h BLE_LL_DATA_HDR_MD_MASK else h) with (add_bits h md e).
  change (set_info (set_hdr_byte (add_bits h md e)) _) with (tx_final md e h m).
  set (mf := tx_final md e h m) in *.
  destruct (write_head_ok s c1 q rest mf Hemp Hrest Eq) as (Hok' & Hu & Hfl & Hhs).
  { destruct q; [done|]. by right; right. }
  destruct (write_head_frame mf c1) as (Fa & Ff & Fd & Fh & Fs & _).
  destruct (write_head_eq mf c1 q rest Eq) as (q' & Eq' & Hitem & _).
  assert (BLE_IS_RETRY_M (tx_info mf) = true) as Hret.
  { destruct q; [destruct Hm as (_ & Hm); by eapply sent_retry|by eapply sent_pkt_retry]. }
  assert (tx_seqnum (ack c1) = tx_seqnum (ack (nd_conn n)) ∧ csmflags c1 = csmflags (nd_conn n) ∧
          same_cfg (nd_conn n) c1 ∧ last_rxd_sn (ack c1) = last_rxd_sn (ack (nd_conn n)) ∧
          next_exp_seqnum (ack c1) = next_exp_seqnum (ack (nd_conn n))) as (H1 & H2 & (H3 & H4 & H5) & H6 & H7).
  { destruct Hc1 as [->|(_ & ->)]; done. }
  destruct (rc =? 0); intros [= <- <-].
  - match goal with |- tx_effect _ _ _ ?x _ => set (nn := x) end.
    assert (nd_conn nn = upd_ack (set_last_md md) (upd_flags set_pdu_txd (write_head mf c1)) ∧
            passed_on nn = passed_on n ∧ ll_rx_pkt_q nn = ll_rx_pkt_q n ∧ ll_tx_pkt_q nn = ll_tx_pkt_q n) as (Ec & E1 & E2 & E3).
    { apply count_tx_frame. }
    split; rewrite ?Ec; try done; cbn.
    + by rewrite <-Hl.
    + intros Hhd. split; [|by apply Hhs]. rewrite <-Hf by done. exact Hfl.
    + by rewrite Fa.
    + split_and!; cbn; congruence.
    + split_and!; try done; rewrite Ec; cbn; congruence.
    + intros bytes [= <-]. exists q', rest. split_and!; [done|by rewrite <-Hitem in Hret| | |done].
      * by rewrite <-Hitem at 1.
      * rewrite <-Hn. unfold nesn_is. by rewrite <-Hitem at 2.
  - split; try done; cbn.
    + by rewrite Hu.
    + intros Hhd. split; [|by apply Hhs]. rewrite <-Hf by done. exact Hfl.
    + by rewrite Fa.
    + split_and!; cbn; congruence.
    + split_and!; cbn; congruence.
    + by rewrite Ff, H2.
Qed.

(** ** Acknowledgements *)

Lemma left_flight s m m' :
  sent_pkt s m →
  m' = set_info (λ t, set_flags (Z.land (ti_flags t) (Z.lnot BLE_MBUF_HDR_F_TXD)) t)
         (set_info (set_offset (u8 (ti_offset (tx_info m) + ti_pyld_len (tx_info m)))) m) →
  if tx_omp_len m <=? u8 (ti_offset (tx_info m) + ti_pyld_len (tx_info m)) then left_of m = flight_of m
  else left_of m = flight_of m ++ left_of m' ∧ part_pkt m'.
Proof.
  intros Hsp ->. pose proof (sent_pkt_retry _ _ Hsp) as Hr.
  destruct Hsp as (Hw & Ho & Hp & Hop & llid & Hl & (Hf & nesn & md & Hh) & H3).
  destruct m as [data oml ompl [fl off pl h]]. cbn [tx_info ti_offset ti_pyld_len tx_om_len tx_omp_len ti_flags ti_hdr_byte] in *.
  subst fl h. pose proof (length_payload _ Hw) as Hlen. cbn in Hlen. destruct Hw as (Hw1 & Hw2 & Hw3). cbn in Hw1, Hw2, Hw3. subst ompl.
  rewrite u8_small by lia.
  assert (∀ b, left_of (mk_tx data oml oml (mk_txinfo 1 off pl b)) =
    frag_items (Z.land b 3) (drop (Z.to_nat off) (payload (mk_tx data oml oml (mk_txinfo 1 off pl b))))) as El by done.
  assert (∀ b, flight_of (mk_tx data oml oml (mk_txinfo 1 off pl b)) =
    frag_items (Z.land b 3) (take (Z.to_nat pl) (drop (Z.to_nat off) (payload (mk_tx data oml oml (mk_txinfo 1 off pl b)))))) as Efl by done.
  rewrite El, Efl. change 3 with BLE_LL_DATA_HDR_LLID_MASK. rewrite hdr_llid by done.
  unfold payload in *. cbn [tx_om_len tx_data] in *.
  destruct (Z.leb_spec oml (off + pl)).
  - rewrite (take_ge (drop _ _)); [done|]. rewrite length_drop, Hlen. lia.
  - split.
    + rewrite (frag_items_split llid _ (Z.to_nat pl)); [|intros Hl3; specialize (H3 Hl3); lia|lia].
      f_equal. unfold left_of, payload, next_llid.
      match goal with |- context [BLE_IS_RETRY_M ?t] => change (BLE_IS_RETRY_M t) with false end.
      cbn [orb set_info set_flags set_offset tx_info ti_offset ti_hdr_byte tx_om_len tx_data]. rewrite (proj2 (Z.eqb_neq (off + pl) 0)) by lia.
      rewrite drop_drop. do 2 f_equal. lia.
    + split_and!; cbn; try done; lia.
Qed.

Lemma queue_ok_rest s c : empty_wf (conn_empty_pdu c) → Forall fresh_item (conn_txq c) → queue_ok s c.
Proof.
  intros Hemp Hf. split; [done|]. destruct Hf as [|? ? (m & -> & Hm) Hf]; [done|]. split; [by left|done].
Qed.

Lemma unacked_rest c c' :
  Forall fresh_item (conn_txq c') → unacked c' = mjoin (left_of ∘ queue_item c <$> conn_txq c').
Proof. intros. unfold unacked. by rewrite (rest_items c' c). Qed.

Lemma no_ctrl_ind llid sn nesn md op :
  llid_ok llid → llid ≠ 3 →
  ble_ll_ctrl_is_terminate_ind (hdr_of llid sn nesn md) op = false ∧
  ble_ll_ctrl_is_reject_ind_ext (hdr_of llid sn nesn md) op = false.
Proof.
  intros. unfold ble_ll_ctrl_is_terminate_ind, ble_ll_ctrl_is_reject_ind_ext. rewrite hdr_llid by done.
  unfold BLE_LL_LLID_CTRL. by rewrite (proj2 (Z.eqb_neq llid 3)) by done.
Qed.

(** What an acknowledgement does to the connection. *)
Record ack_effect (s : bool) (c c' : ble_ll_conn) : Prop := {
  ae_queue : queue_ok s c';
  ae_unacked : unacked c = in_flight c ++ unacked c';
  ae_cfg : same_cfg c c';
  ae_txd : pdu_txd (csmflags c') = pdu_txd (csmflags c) }.

Lemma ack_pop s c c' q rest :
  empty_wf (conn_empty_pdu c') → Forall fresh_item rest → conn_txq c = q :: rest → conn_txq c' = rest →
  left_of (queue_item c q) = flight_of (queue_item c q) →
  same_cfg c c' → pdu_txd (csmflags c') = pdu_txd (csmflags c) → ack_effect s c c'.
Proof.
  intros He Hrest Eq Eq' Hl Hc Ht. split; [|idtac|done..].
  - apply queue_ok_rest; by rewrite ?Eq'.
  - rewrite (unacked_cons c q rest) by done. rewrite (unacked_rest c c') by by rewrite Eq'.
    unfold in_flight. by rewrite Eq, Eq', Hl.
Qed.

Lemma acked_empty_ok s s' c rest term c' :
  empty_wf (conn_empty_pdu c) → Forall fresh_item rest → conn_txq c = Empty_pdu :: rest →
  sent_with s 1 (conn_empty_pdu c) → rx_acked c = (term, c') → ack_effect s' c c'.
Proof.
  intros Hemp Hrest Eq Hh. pose proof (sent_retry _ _ _ Hh) as Hhd. unfold rx_acked. rewrite Eq. cbn [queue_item].
  destruct Hh as (Hf & nesn & md & Hh). destruct Hemp as (He1 & He2 & He3 & He4).
  destruct (no_ctrl_ind 1 s nesn md (byte_at (tx_data (conn_empty_pdu c)) 0)) as (E1 & E2); [by left|done|].
  rewrite Hh, E1, E2, He3, He4. cbn [andb].
  change (tx_omp_len (set_info _ (conn_empty_pdu c))) with (tx_omp_len (conn_empty_pdu c)). rewrite He1.
  change (0 <=? u8 (0 + 0)) with true. cbn [andb].
  assert (ble_ll_conn_is_l2cap_pdu (tx_info (conn_empty_pdu c)) = false) as ->.
  { unfold ble_ll_conn_is_l2cap_pdu. rewrite He4. by rewrite andb_false_r. }
  intros [= <- <-].
  assert (write_head (set_info (set_offset (u8 (0 + 0))) (conn_empty_pdu c)) c =
          set_empty_pdu (set_info (set_offset (u8 (0 + 0))) (conn_empty_pdu c)) c) as -> by (unfold write_head; by rewrite Eq).
  eapply ack_pop; [|exact Hrest|exact Eq|done| |done..].
  + by split_and!.
  + cbn [queue_item]. unfold left_of, flight_of, next_llid, payload, fragment, payload. rewrite Hhd, He2. cbn [orb].
    by rewrite !take_0, !drop_nil, !take_nil.
Qed.

Lemma acked_pkt_ok s s' c m rest term c' :
  empty_wf (conn_empty_pdu c) → Forall fresh_item rest → conn_txq c = Pkt m :: rest →
  sent_pkt s m → rx_acked c = (term, c') → ack_effect s' c c'.
Proof.
  intros Hemp Hrest Eq Hh. unfold rx_acked. rewrite Eq. cbn [queue_item].
  pose proof (left_flight s m _ Hh eq_refl) as Hsplit.
  destruct Hh as (Hw & Ho & Hp & Hop & llid & Hl & (Hf & nesn & md & Hh) & H3).
  destruct (ble_ll_ctrl_is_terminate_ind _ _) eqn:Eterm.
  + intros [= <- <-]. eapply ack_pop; [|exact Hrest|exact Eq|done| |done..]; [done|].
    destruct (decide (llid = 3)) as [H3'|Hn]; [|by rewrite Hh, (proj1 (no_ctrl_ind llid s nesn md _ Hl Hn)) in Eterm].
    specialize (H3 H3'). destruct H3 as (Ho0 & Hpl). rewrite Ho0, Hpl in Hsplit. destruct Hw as (Hw1 & Hw2 & Hw3).
    rewrite u8_small, Hw1 in Hsplit by lia. by rewrite (proj2 (Z.leb_le _ _)) in Hsplit by lia.
  + set (c0 := if _ && _ then _ else c).
    assert (conn_txq c0 = conn_txq c ∧ ack c0 = ack c ∧ same_cfg c c0 ∧ pdu_txd (csmflags c0) = pdu_txd (csmflags c) ∧
            conn_empty_pdu c0 = conn_empty_pdu c) as (C1 & C2 & C3 & C4 & C5).
    { subst c0. by destruct (_ && _). }
    change (tx_omp_len (set_info _ m)) with (tx_omp_len m).
    destruct (tx_omp_len m <=? _) eqn:Ele.
    * set (w := write_head _ c0). destruct (write_head_frame (set_info (set_offset (u8 (ti_offset (tx_info m) + ti_pyld_len (tx_info m)))) m) c0)
        as (F1 & F2 & F3 & F4 & F5 & _). fold w in F1, F2, F3, F4, F5.
      assert (conn_empty_pdu w = conn_empty_pdu c) as Ew.
      { subst w. unfold write_head. by rewrite C1, Eq. }
      intros [= <- <-]. destruct C3 as (D1 & D2 & D3).
      eapply ack_pop; [|exact Hrest|exact Eq| |exact Hsplit|..]; destruct (ble_ll_conn_is_l2cap_pdu _); cbn;
        try (by rewrite Ew); try done; try (split_and!; cbn); congruence.
    * intros [= <- <-]. destruct Hsplit as (Hsplit & Hpart).
      set (m' := set_info _ (set_info _ m)) in *.
      destruct (write_head_ok s' c0 (Pkt m) rest m') as (Q1 & Q2 & _); [by rewrite C5|done|congruence|by right; left|].
      destruct (write_head_frame m' c0) as (F1 & F2 & F3 & F4 & F5 & _). destruct C3 as (D1 & D2 & D3). split; [done| | |].
      -- rewrite Q2, (unacked_cons c (Pkt m) rest) by done. unfold in_flight. rewrite Eq. cbn [queue_item].
         rewrite Hsplit, (rest_items c0 c) by done. by rewrite (assoc (++)).
      -- split_and!; congruence.
      -- congruence.
Qed.

Lemma acked_ok s s' c term c' :
  queue_ok s c → head_sent c → rx_acked c = (term, c') → ack_effect s' c c'.
Proof.
  intros (Hemp & Hq) Hhd Hr. unfold head_sent in Hhd.
  destruct (conn_txq c) as [|[|m] rest] eqn:Eq; [done| |]; destruct Hq as (Hh & Hrest); cbn [queue_item head_ok] in *.
  - by eapply acked_empty_ok.
  - destruct Hh as [Hh|[Hh|Hh]]; [by rewrite fresh_no_retry in Hhd by auto..|]. by eapply acked_pkt_ok.
Qed.

(** ** The receiver *)

(** What the receiving side of a controller does not touch. *)
Definition same_tx (n n' : ll_node) : Prop :=
  conn_txq (nd_conn n') = conn_txq (nd_conn n) ∧ conn_empty_pdu (nd_conn n') = conn_empty_pdu (nd_conn n) ∧
  tx_seqnum (ack (nd_conn n')) = tx_seqnum (ack (nd_conn n)) ∧
  pdu_txd (csmflags (nd_conn n')) = pdu_txd (csmflags (nd_conn n)) ∧ same_cfg (nd_conn n) (nd_conn n').

Lemma same_tx_refl n : same_tx n n.
Proof. by split_and!. Qed.
Lemma same_tx_trans n1 n2 n3 : same_tx n1 n2 → same_tx n2 n3 → same_tx n1 n3.
Proof. intros (?&?&?&?&?&?&?) (?&?&?&?&?&?&?). repeat split; etrans; eassumption. Qed.
Lemma same_rx_refl n : same_rx n n.
Proof. by split_and!. Qed.
Lemma same_rx_trans n1 n2 n3 : same_rx n1 n2 → same_rx n2 n3 → same_rx n1 n3.
Proof. intros (?&?&?&?) (?&?&?&?). repeat split; etrans; eassumption. Qed.

Lemma queued_app q : ∀ last p,
  queued last (q ++ [p]) =
  if rx_crcok p && negb (rx_sn p =? (queued last q).2) then ((queued last q).1 ++ rx_items p, rx_sn p)
  else queued last q.
Proof.
  induction q as [|p' q IH]; intros last p; cbn [queued app].
  - cbn. destruct (rx_crcok p && _); [by rewrite app_nil_r|done].
  - destruct (rx_crcok p' && _); [|apply IH]. rewrite IH.
    destruct (queued (rx_sn p') q) as [l la] eqn:Eq. cbn. destruct (rx_crcok p && _); [by rewrite (assoc (++))|done].
Qed.

Lemma received_pass_on d n : received (pass_on d n) = received n ++ delivery_items d.
Proof. unfold received. cbn. rewrite fmap_app, join_app. cbn. by rewrite app_nil_r. Qed.

(** The packet that is passed on carries its items. *)
Lemma new_pdu_ok c p n :
  good_rx p → rx_crcok p = true → conn_handle c = 1 →
  received (rx_new_pdu c p (rx_llid p) (byte_at (rx_buf p) 1) n) = received n ++ rx_items p.
Proof.
  intros Hg Hc Hh. destruct (Hg Hc) as (_ & Hl & Hlen & Hb & Hnz & Hbuf). unfold rx_new_pdu.
  destruct ((_ =? _) && (_ =? _)) eqn:E0.
  - apply andb_true_iff in E0 as (El%Z.eqb_eq & E0%Z.eqb_eq). unfold rx_items. rewrite El, Hlen, E0.
    rewrite (drop_ge (take _ _)) by (rewrite length_take; lia).
    rewrite (frag_items_nil BLE_LL_LLID_DATA_FRAG) by done. by rewrite app_nil_r.
  - assert (0 < byte_at (rx_buf p) 1) as Hpos.
    { destruct Hnz as [Hnz|]; [|done]. rewrite Hnz in E0. destruct (Z.eqb_spec (byte_at (rx_buf p) 1) 0); [done|lia]. }
    assert (∃ a b bs, take (Z.to_nat (rx_len p)) (rx_buf p) = a :: b :: bs) as (a & b & bs & Et).
    { destruct (take _ _) as [|a [|b bs]] eqn:Et; [| |by do 3 eexists];
        apply (f_equal length) in Et; rewrite length_take in Et; cbn in Et; lia. }
    unfold rx_items. rewrite Et. cbn [drop]. rewrite drop_0.
    destruct (Z.eqb_spec (rx_llid p) BLE_LL_LLID_CTRL) as [El|El]; rewrite received_pass_on; f_equal.
    + unfold frag_items. by rewrite El.
    + unfold acl_packet. rewrite Et, Hh. cbn [delivery_items drop]. rewrite drop_0.
      destruct Hl as [->|[->| ->]]; [done|done|done].
Qed.

Lemma new_pdu_frame c p llid len n :
  nd_conn (rx_new_pdu c p llid len n) = nd_conn n ∧ ll_rx_pkt_q (rx_new_pdu c p llid len n) = ll_rx_pkt_q n ∧
  ll_tx_pkt_q (rx_new_pdu c p llid len n) = ll_tx_pkt_q n.
Proof. unfold rx_new_pdu. by repeat case_match. Qed.

(** One packet in the task. *)
Record task_effect (n n' : ll_node) (l : list item) (last : Z) : Prop := {
  ke_tx : same_tx n n';
  ke_received : received n' = received n ++ l;
  ke_last : last_rxd_sn (ack (nd_conn n')) = last;
  ke_next : next_exp_seqnum (ack (nd_conn n')) = next_exp_seqnum (ack (nd_conn n));
  ke_rx_q : ll_rx_pkt_q n' = ll_rx_pkt_q n;
  ke_tx_q : ll_tx_pkt_q n' = ll_tx_pkt_q n }.

Lemma find_active c n : conn_wf (nd_conn n) → nd_conn n = c → ble_ll_conn_find_active_conn 1 n = Some c.
Proof. intros (_ & Hst & _) <-. unfold ble_ll_conn_find_active_conn. cbn. by rewrite decide_False. Qed.

Lemma rx_one_ok tpu now n p :
  good_rx p → conn_wf (nd_conn n) →
  let new := rx_crcok p && negb (rx_sn p =? last_rxd_sn (ack (nd_conn n))) in
  task_effect n (rx_pkt_in_one tpu now n p) (if new then rx_items p else [])
    (if new then rx_sn p else last_rxd_sn (ack (nd_conn n))).
Proof.
  intros Hg Hwf new. subst new. unfold rx_pkt_in_one, ble_ll_conn_rx_data_pdu.
  destruct (rx_crcok p) eqn:Hc; [|split; try done; by rewrite ?app_nil_r].
  destruct (Hg Hc) as (Hh & Hl & _ & _ & Hnz & _).
  rewrite Hh, (find_active (nd_conn n)) by done.
  fold (rx_llid p). fold (rx_sn p).
  assert ((rx_llid p =? 0) || ((rx_llid p =? BLE_LL_LLID_DATA_START) && (byte_at (rx_buf p) 1 =? 0)) = false) as ->.
  { destruct Hl as [E|[E|E]]; rewrite E in *; try done. cbn. apply Z.eqb_neq. lia. }
  cbn [andb]. destruct (negb (rx_sn p =? _)) eqn:En; [|by split; try done; rewrite ?app_nil_r; destruct (is_slave _ && _)].
  match goal with |- task_effect _ (rx_new_pdu ?c ?p ?l ?x ?m) _ _ =>
    set (n1 := m); destruct (new_pdu_frame c p l x n1) as (F1 & F2 & F3);
    pose proof (new_pdu_ok c p n1 Hg Hc (proj1 Hwf)) as Hr end.
  assert (received n1 = received n ∧ same_tx n n1 ∧ last_rxd_sn (ack (nd_conn n1)) = rx_sn p ∧
          next_exp_seqnum (ack (nd_conn n1)) = next_exp_seqnum (ack (nd_conn n)) ∧ ll_rx_pkt_q n1 = ll_rx_pkt_q n ∧
          ll_tx_pkt_q n1 = ll_tx_pkt_q n) as (G1 & G2 & G3 & G4 & G5 & G6).
  { subst n1. by destruct (is_slave _ && _). }
  split; rewrite ?F1, ?F2, ?F3, ?Hr, ?G1; try done.
  eapply same_tx_trans; [exact G2|]. unfold same_tx. rewrite F1. apply same_tx_refl.
Qed.

Lemma conn_wf_same c c' : conn_wf c → same_cfg c c' → conn_wf c'.
Proof. intros Hwf (E1&E2&E3). unfold conn_wf in *. by rewrite E1, E2, E3. Qed.

Lemma rx_all_ok tpu now q : ∀ n,
  Forall good_rx q → conn_wf (nd_conn n) →
  task_effect n (foldl (rx_pkt_in_one tpu now) n q)
    (queued (last_rxd_sn (ack (nd_conn n))) q).1 (queued (last_rxd_sn (ack (nd_conn n))) q).2.
Proof.
  induction q as [|p q IH]; intros n Hg Hwf; cbn [foldl].
  - split; try done. by rewrite app_nil_r.
  - apply Forall_cons_1 in Hg as (Hp & Hg). destruct (rx_one_ok tpu now n p Hp Hwf) as [T1 T2 T3 T4 T5 T6].
    set (n1 := rx_pkt_in_one tpu now n p) in *.
    destruct (IH n1 Hg ltac:(eapply conn_wf_same; [done|apply T1])) as [U1 U2 U3 U4 U5 U6].
    rewrite T3 in U2, U3. cbn [queued].
    split; [by eapply same_tx_trans| | |congruence..].
    + rewrite U2, T2. destruct (rx_crcok p && _); [|by rewrite app_nil_r].
      destruct (queued (rx_sn p) q). cbn. by rewrite (assoc (++)).
    + rewrite U3. destruct (rx_crcok p && _); [|done]. by destruct (queued (rx_sn p) q).
Qed.

(** The task changes where items are, not which are accepted. *)
Lemma rx_pkt_in_ok tpu now n n' :
  Forall good_rx (ll_rx_pkt_q n) → conn_wf (nd_conn n) → n' = ble_ll_rx_pkt_in tpu now n →
  accepted n' = accepted n ∧ last_sn n' = last_sn n ∧ ll_rx_pkt_q n' = [] ∧ received n' = accepted n ∧
  next_exp_seqnum (ack (nd_conn n')) = next_exp_seqnum (ack (nd_conn n)) ∧ ll_tx_pkt_q n' = ll_tx_pkt_q n ∧ same_tx n n'.
Proof.
  intros Hg Hwf ->. unfold ble_ll_rx_pkt_in.
  destruct (rx_all_ok tpu now (ll_rx_pkt_q n) (set_rx_q [] n) Hg Hwf) as [T1 T2 T3 T4 T5 T6].
  set (n1 := foldl _ _ _) in *. unfold accepted at 1 3, last_sn at 1 2. cbn in T5. rewrite T5, T3, T2. cbn [queued fst snd].
  split_and!; try done. by rewrite app_nil_r.
Qed.

(** ** A frame that arrives *)

Lemma length_fragment s m : sent_pkt s m → length (fragment m) = Z.to_nat (ti_pyld_len (tx_info m)).
Proof.
  intros (Hw & Ho & Hp & Hop & _). pose proof (length_payload m Hw). destruct Hw as (_ & Hw & _).
  unfold fragment. rewrite length_take, length_drop. lia.
Qed.

(** The header, the length and the payload of the head of a queue that has been sent. *)
Lemma frame_shape s c q rest bytes :
  queue_ok s c → conn_txq c = q :: rest → BLE_IS_RETRY_M (tx_info (queue_item c q)) = true →
  bytes = phy_tx_bytes (queue_item c q) →
  ∃ llid nesn md bs, llid_ok llid ∧ bytes = hdr_of llid s nesn md :: Z.of_nat (length bs) :: bs ∧
    ti_hdr_byte (tx_info (queue_item c q)) = hdr_of llid s nesn md ∧
    in_flight c = frag_items llid bs ∧ (length bs < 256)%nat ∧ (llid = 1 ∨ bs ≠ []).
Proof.
  intros (Hemp & Hq) Eq Hr ->. rewrite Eq in Hq. destruct Hq as (Hh & _).
  unfold in_flight. rewrite Eq. unfold flight_of. rewrite Hr.
  change (phy_tx_bytes (queue_item c q)) with (ti_hdr_byte (tx_info (queue_item c q)) ::
    ti_pyld_len (tx_info (queue_item c q)) :: fragment (queue_item c q)).
  destruct q as [|m]; cbn [queue_item head_ok] in *.
  - destruct Hh as (_ & nesn & md & Hh). destruct Hemp as (_ & He2 & He3 & He4).
    exists 1, nesn, md, []. unfold fragment, payload. rewrite Hh, He2, He4. cbn [Z.to_nat take]. rewrite !take_0.
    change 3 with BLE_LL_DATA_HDR_LLID_MASK. rewrite hdr_llid by (by left).
    split_and!; try done; try by left. cbn. lia.
  - destruct Hh as [Hh|[Hh|Hh]]; [by rewrite fresh_no_retry in Hr by auto..|].
    pose proof (length_fragment s m Hh) as Hlen.
    destruct Hh as (Hw & Ho & Hp & Hop & llid & Hl & (Hf & nesn & md & Hh) & H3). destruct Hw as (_ & Hw & _).
    exists llid, nesn, md, (fragment m). rewrite Hh, Hlen. change 3 with BLE_LL_DATA_HDR_LLID_MASK. rewrite hdr_llid by done.
    split_and!; try done; [by rewrite Z2Nat.id by lia|lia|]. right. intros E. rewrite E in Hlen. cbn in Hlen. lia.
Qed.

(** What the receiver makes of it. *)
Lemma frame_good s e c bytes stale len p :
  queue_ok s c → in_air c e bytes → rx_buf p = bytes ++ stale → rx_len p = len → len = byte_at (rx_buf p) 1 + 2 →
  rx_handle p = 1 →
  good_rx p ∧ rx_sn p = sn_bit s ∧ rx_items p = in_flight c ∧
  Z.land (byte_at (rx_buf p) 0) BLE_LL_DATA_HDR_NESN_MASK = (if e then 4 else 0).
Proof.
  intros Hok (q & rest & Eq & Hr & Hb & Hn & _) Hbuf Hlen Hlen' Hh.
  destruct (frame_shape s c q rest bytes Hok Eq Hr Hb) as (llid & nesn & md & bs & Hl & Hbs & Hhdr & Hfl & Hlt & Hnz).
  rewrite Hhdr in Hn. rewrite Hbs in Hbuf. cbn [app] in Hbuf.
  assert (byte_at (rx_buf p) 0 = hdr_of llid s nesn md) as E0 by by rewrite Hbuf.
  assert (byte_at (rx_buf p) 1 = Z.of_nat (length bs)) as E1 by by rewrite Hbuf.
  unfold rx_items, rx_sn. unfold good_rx, rx_llid. rewrite E0, E1, hdr_llid, hdr_sn in * by done. split_and!; try done.
  - intros _. split_and!; try done; try lia.
    + destruct Hnz as [|Hnz]; [by left|right]. destruct bs; [done|cbn; lia].
    + rewrite Hlen, Hlen', Hbuf. cbn. rewrite length_app. lia.
  - rewrite Hfl, Hlen, Hlen', Hbuf. f_equal.
    replace (Z.to_nat (Z.of_nat (length bs) + 2)) with (S (S (length bs))) by lia. cbn. by rewrite drop_0, take_app_length.
Qed.

(** ** The two sides of a direction, one step at a time *)

Lemma dir_ok_rx X Y Y' sent : dir_ok X Y sent → same_rx Y Y' → dir_ok X Y' sent.
Proof.
  intros [(s & e & Hs & He & Hq & Hg & acked & Hsent & Hc)] (E1 & E2 & E4 & E5). split.
  assert (accepted Y' = accepted Y ∧ last_sn Y' = last_sn Y) as (Ea & El).
  { unfold accepted, last_sn, received. by rewrite E1, E2, E4. }
  exists s, e. rewrite E2, E5, Ea, El. split_and!; try done. by exists acked.
Qed.

Lemma same_tx_stream n n' :
  same_tx n n' → unacked (nd_conn n') = unacked (nd_conn n) ∧ in_flight (nd_conn n') = in_flight (nd_conn n) ∧
  (head_sent (nd_conn n) → head_sent (nd_conn n')) ∧ ∀ s, queue_ok s (nd_conn n) → queue_ok s (nd_conn n').
Proof.
  intros (E1 & E2 & _). unfold unacked, in_flight, head_sent, queue_ok, head_ok, queue_item. by rewrite E1, E2.
Qed.

Lemma dir_ok_tx_same X X' Y sent : dir_ok X Y sent → same_tx X X' → dir_ok X' Y sent.
Proof.
  intros [(s & e & Hs & He & Hq & Hg & acked & Hsent & Hc)] Ht. split.
  destruct (same_tx_stream X X' Ht) as (Eu & Ef & Eh & Eq). destruct Ht as (_ & _ & Es & Ep & _).
  exists s, e. rewrite Es, Ep, Eu, Ef. split_and!; [done|done|by apply Eq|done|]. exists acked. split; [done|].
  destruct (eqb s e); [done|]. destruct Hc as (?&?&?&?). split_and!; auto.
Qed.

(** Transmission keeps a direction. *)
Lemma dir_ok_tx X X' Y sent s e' r :
  dir_ok X Y sent → tx_seqnum (ack (nd_conn X)) = Z.b2z s → tx_effect s e' X X' r → dir_ok X' Y sent.
Proof.
  intros [(s0 & e & Hs & He & Hq & Hg & acked & Hsent & Hc)] Hs' [T1 T2 T3 T4 T5 T6 _ T7 T8]. split.
  assert (s0 = s) as -> by (apply Z.b2z_inj; congruence).
  exists s, e. rewrite T4, T2. split_and!; try done. exists acked. split; [done|].
  destruct (eqb s e); [done|]. destruct Hc as (?& ?& Hh & ?). destruct (T3 Hh) as (-> & ?). by split_and!; auto.
Qed.

Lemma queue_ok_of X Y sent s : dir_ok X Y sent → tx_seqnum (ack (nd_conn X)) = Z.b2z s → queue_ok s (nd_conn X).
Proof.
  intros [(s0 & e & Hs & He & Hq & _)] Hs'. assert (s0 = s) as -> by (apply Z.b2z_inj; congruence). done.
Qed.

(** The receiver queues the frame and moves on if it has the number expected. *)
Lemma dir_ok_receive X Y Y' sent e s p :
  dir_ok X Y sent → tx_seqnum (ack (nd_conn X)) = Z.b2z s → next_exp_seqnum (ack (nd_conn Y)) = Z.b2z e →
  good_rx p → rx_crcok p = true → rx_sn p = sn_bit s → rx_items p = in_flight (nd_conn X) →
  head_sent (nd_conn X) → pdu_txd (csmflags (nd_conn X)) = true →
  passed_on Y' = passed_on Y → ll_rx_pkt_q Y' = ll_rx_pkt_q Y ++ [p] →
  last_rxd_sn (ack (nd_conn Y')) = last_rxd_sn (ack (nd_conn Y)) →
  next_exp_seqnum (ack (nd_conn Y')) = Z.b2z (if eqb s e then negb e else e) → dir_ok X Y' sent.
Proof.
  intros [(s0 & e0 & Hs & He & Hq & Hg & acked & Hsent & Hc)] Hs' He' Hgp Hcrc Hsn Hit Hhd Htx E1 E2 E3 E4.
  assert (s0 = s) as -> by (apply Z.b2z_inj; congruence). assert (e0 = e) as -> by (apply Z.b2z_inj; congruence).
  split. exists s, (if eqb s e then negb e else e).
  assert (accepted Y' = accepted Y ++ (if negb (sn_bit s =? last_sn Y) then in_flight (nd_conn X) else []) ∧
          last_sn Y' = if negb (sn_bit s =? last_sn Y) then sn_bit s else last_sn Y) as (Ea & El).
  { unfold accepted, last_sn, received. rewrite E1, E2, E3, queued_app, Hcrc, Hsn, Hit. cbn [andb].
    fold (received Y). destruct (queued _ _) as [l la]. cbn [fst snd].
    destruct (sn_bit s =? la); cbn [fst snd negb]; [by rewrite app_nil_r|by rewrite app_assoc]. }
  rewrite Ea, El. split_and!; [done|done|done|rewrite E2; apply Forall_app; split; [done|by constructor]|].
  exists acked. split; [done|]. destruct (eqb s e) eqn:Ese.
  - apply eqb_prop in Ese as ->. destruct Hc as (-> & Hc). rewrite (proj2 (Z.eqb_neq _ _)) by congruence. cbn [negb].
    rewrite eqb_negb2. by split_and!.
  - destruct Hc as (-> & -> & ? & ?). rewrite Ese, Z.eqb_refl. cbn [negb]. rewrite app_nil_r. by split_and!.
Qed.

(** The sender takes an acknowledgement. *)
Lemma dir_ok_ack X X' Y sent e :
  dir_ok X Y sent → next_exp_seqnum (ack (nd_conn Y)) = Z.b2z e →
  (∀ s, tx_seqnum (ack (nd_conn X)) = Z.b2z s →
     if eqb s e || negb (pdu_txd (csmflags (nd_conn X))) then same_tx X X'
     else (queue_ok s (nd_conn X) → head_sent (nd_conn X) →
             ∃ c, ack_effect (negb s) (nd_conn X) c ∧ conn_txq (nd_conn X') = conn_txq c ∧
                  conn_empty_pdu (nd_conn X') = conn_empty_pdu c) ∧
          tx_seqnum (ack (nd_conn X')) = Z.b2z (negb s)) →
  dir_ok X' Y sent.
Proof.
  intros Hd He' Hack. pose proof Hd as [(s & e0 & Hs & He & Hq & Hg & acked & Hsent & Hc)].
  assert (e0 = e) as -> by (apply Z.b2z_inj; congruence). specialize (Hack s Hs).
  destruct (eqb s e) eqn:Ese; cbn [orb] in Hack; [by eapply dir_ok_tx_same|].
  destruct Hc as (Ha & Hl & Hhd & Hp). rewrite Hp in Hack. cbn [negb] in Hack. destruct Hack as (Hack & Hs').
  destruct (Hack Hq Hhd) as (c & [Aq Au Ac At] & E1 & E2).
  assert (unacked (nd_conn X') = unacked c ∧ ∀ t, queue_ok t c → queue_ok t (nd_conn X')) as (Eu & Eq).
  { unfold unacked, queue_ok, head_ok, queue_item. by rewrite E1, E2. }
  split. exists (negb s), e. split_and!; [done|done|by apply Eq|done|]. exists (acked ++ in_flight (nd_conn X)).
  rewrite Eu, <-(assoc (++)), <-Au. split; [done|].
  assert (eqb (negb s) e = true) as -> by (by destruct s, e). split; [done|]. rewrite Hl. by destruct s.
Qed.

(** ** The interrupt handler *)

(** A packet the host may send: its payload fits the length field of the link layer. *)
Definition host_pkt (pkt : list Z) : Prop := (length (drop 4 pkt) < 256)%nat.

(** Both directions between a controller and its peer. *)
Definition pair_ok (X Y : ll_node) (sx sy : list item) : Prop :=
  dir_ok X Y sx ∧ dir_ok Y X sy ∧ conn_wf (nd_conn X) ∧ conn_wf (nd_conn Y) ∧
  Forall host_pkt (ll_tx_pkt_q X) ∧ Forall host_pkt (ll_tx_pkt_q Y).
(** A frame of [n] is on the air. *)
Definition air_ok (n : ll_node) (bytes : list Z) : Prop :=
  ∃ e, next_exp_seqnum (ack (nd_conn n)) = Z.b2z e ∧ in_air (nd_conn n) e bytes.

Lemma pair_ok_same X Y Y' sx sy : pair_ok X Y sx sy → same_rx Y Y' → same_tx Y Y' →
  (Forall host_pkt (ll_tx_pkt_q Y) → Forall host_pkt (ll_tx_pkt_q Y')) → pair_ok X Y' sx sy.
Proof.
  intros (H1 & H2 & H3 & H4 & H5 & H6) Hr Ht Hq.
  split_and!; [by eapply dir_ok_rx|by eapply dir_ok_tx_same|done| |done|by apply Hq].
  eapply conn_wf_same; [done|apply Ht].
Qed.
(** A pair seen from the other side. *)
Lemma pair_sym X Y sx sy : pair_ok X Y sx sy → pair_ok Y X sy sx.
Proof. intros (H1 & H2 & H3 & H4 & H5 & H6). by split_and!. Qed.

Lemma pair_ok_same_l X X' Y sx sy :
  pair_ok X Y sx sy → same_rx X X' → same_tx X X' →
  (Forall host_pkt (ll_tx_pkt_q X) → Forall host_pkt (ll_tx_pkt_q X')) → pair_ok X' Y sx sy.
Proof. intros Hp Hr Ht Hq. apply pair_sym. by eapply pair_ok_same; [apply pair_sym| | |]. Qed.

Lemma air_ok_same n n' bytes :
  same_tx n n' → next_exp_seqnum (ack (nd_conn n')) = next_exp_seqnum (ack (nd_conn n)) → air_ok n bytes → air_ok n' bytes.
Proof.
  intros (E1 & E2 & _ & E4 & _) En (e & He & Ha). exists e. split; [congruence|].
  unfold in_air, queue_item in *. by rewrite E1, E2, E4.
Qed.

Lemma pair_tx tpu now rc X Y sx sy r Y' :
  pair_ok X Y sx sy → ble_ll_conn_tx_data_pdu tpu now rc Y = (r, Y') →
  pair_ok X Y' sx sy ∧ passed_on Y' = passed_on Y ∧ ∀ bytes, txr_air r = Some bytes → air_ok Y' bytes.
Proof.
  intros (H1 & H2 & H3 & H4 & H5 & H6) Htx. pose proof H1 as [(s1 & e & _ & He & _)]. pose proof H2 as [(s & e2 & Hs & _ & Hq & _)].
  pose proof (tx_ok tpu now rc Y s e r Y' Hq H4 Hs He Htx) as T. split.
  - split_and!; [eapply dir_ok_rx; [done|apply T]|by eapply dir_ok_tx|done|eapply conn_wf_same; [done|apply T]|done|].
    by rewrite (te_tx_q _ _ _ _ _ T).
  - split; [apply T|]. intros bytes Hb. exists e. split; [|by eapply te_air]. destruct (te_rx _ _ _ _ _ T) as (_ & _ & _ & ->). done.
Qed.

Lemma set_anchors_same tpu p n n' :
  n' = upd_conn (set_anchors tpu p) n → same_tx n n' ∧ same_rx n n' ∧ ll_tx_pkt_q n' = ll_tx_pkt_q n.
Proof. intros ->. unfold set_anchors, upd_conn, same_tx, same_rx. cbn. destruct (slave_set_last_anchor _); by split_and!. Qed.

(** From the decision to reply to the end of the handler. *)
Lemma reply_tail tpu now rc p reply X n sx sy r n' :
  pair_ok X n sx sy →
  (let '(res, n) := rx_reply tpu now rc p reply n in (res, upd_conn (set_anchors tpu p) n)) = (r, n') →
  pair_ok X n' sx sy ∧ passed_on n' = passed_on n ∧ ∀ bytes, txr_air r = Some bytes → air_ok n' bytes.
Proof.
  intros Hp. destruct (rx_reply tpu now rc p reply n) as [res n1] eqn:Er. intros [= <- <-].
  assert (pair_ok X n1 sx sy ∧ passed_on n1 = passed_on n ∧ ∀ bytes, txr_air res = Some bytes → air_ok n1 bytes)
    as (Hp1 & Hpo & Ha).
  { unfold rx_reply in Er. destruct reply as [[|]|]; [|by injection Er as <- <-..].
    destruct (_ && _); [by eapply pair_tx|by injection Er as <- <-]. }
  destruct (set_anchors_same tpu p n1 _ eq_refl) as (Ht & Hr & Hq). split; [eapply pair_ok_same; [done..|by rewrite Hq]|].
  split; [rewrite <-Hpo; apply Hr|]. intros bytes Hb. eapply air_ok_same; [done|apply Hr|auto].
Qed.

Lemma seq_match_spec e s k : k ≠ 0 → seq_match (if e : bool then k else 0) (Z.b2z s) = eqb e s.
Proof. intros. unfold seq_match. destruct e, s; cbn; rewrite ?(proj2 (Z.eqb_neq _ _)) by done; done. Qed.
Lemma lxor_one s : Z.lxor (Z.b2z s) 1 = Z.b2z (negb s).
Proof. by destruct s. Qed.

(** The two checks of a packet with a good CRC. *)
Lemma check_sn_ok hdr n s e :
  Z.land hdr BLE_LL_DATA_HDR_SN_MASK = sn_bit s → next_exp_seqnum (ack (nd_conn n)) = Z.b2z e →
  let n' := rx_check_sn hdr n in
  same_tx n n' ∧ passed_on n' = passed_on n ∧ ll_rx_pkt_q n' = ll_rx_pkt_q n ∧ ll_tx_pkt_q n' = ll_tx_pkt_q n ∧
  last_rxd_sn (ack (nd_conn n')) = last_rxd_sn (ack (nd_conn n)) ∧
  next_exp_seqnum (ack (nd_conn n')) = Z.b2z (if eqb s e then negb e else e).
Proof.
  intros Hs He n'. subst n'. unfold rx_check_sn. rewrite Hs, He.
  change (sn_bit s) with (if s then 8 else 0). rewrite seq_match_spec by done.
  destruct (eqb s e) eqn:Ese; split_and!; try done. cbn. by rewrite He, lxor_one.
Qed.

Lemma acked_frame c term c' :
  rx_acked c = (term, c') → ack c' = ack c ∧ same_cfg c c'.
Proof.
  unfold rx_acked. intros Hr.
  destruct (conn_txq c) as [|q rest]; [by injection Hr as <- <-|].
  destruct (ble_ll_ctrl_is_terminate_ind _ _); [by injection Hr as <- <-|].
  set (c0 := if _ && _ then _ else c) in Hr.
  assert (ack c0 = ack c ∧ same_cfg c c0) as (C1 & C2 & C3 & C4) by (subst c0; by destruct (_ && _)).
  match type of Hr with context [write_head ?m c0] => destruct (write_head_frame m c0) as (F1&F2&F3&F4&F5&_) end.
  destruct (tx_omp_len _ <=? _).
  - destruct (ble_ll_conn_is_l2cap_pdu _); injection Hr as <- <-; cbn; repeat split; cbn; congruence.
  - match type of Hr with context [write_head ?m c0] => destruct (write_head_frame m c0) as (G1&G2&G3&G4&G5&_) end.
    injection Hr as <- <-. repeat split; congruence.
Qed.

Lemma check_nesn_ok hdr n n' t e :
  Z.land hdr BLE_LL_DATA_HDR_NESN_MASK = (if e : bool then 4 else 0) → rx_check_nesn hdr n = (t, n') →
  same_rx n n' ∧ ll_tx_pkt_q n' = ll_tx_pkt_q n ∧ same_cfg (nd_conn n) (nd_conn n') ∧
  ∀ s, tx_seqnum (ack (nd_conn n)) = Z.b2z s →
    if eqb s e || negb (pdu_txd (csmflags (nd_conn n))) then same_tx n n'
    else (queue_ok s (nd_conn n) → head_sent (nd_conn n) →
            ∃ c, ack_effect (negb s) (nd_conn n) c ∧ conn_txq (nd_conn n') = conn_txq c ∧
                 conn_empty_pdu (nd_conn n') = conn_empty_pdu c) ∧
         tx_seqnum (ack (nd_conn n')) = Z.b2z (negb s).
Proof.
  intros He. unfold rx_check_nesn. rewrite He.
  destruct (pdu_txd (csmflags (nd_conn n))) eqn:Ht; cbn [negb].
  2:{ intros [= <- <-]. split_and!; try done. intros s _. by rewrite orb_true_r. }
  destruct (seq_match _ _) eqn:Em.
  { intros [= <- <-]. split_and!; try done. intros s Hs. rewrite Hs, seq_match_spec in Em by done.
    apply eqb_prop in Em as ->. by rewrite eqb_reflx. }
  set (c1 := upd_ack _ (nd_conn n)). set (n1 := if decide _ then _ else _).
  destruct (rx_acked c1) as [t' c'] eqn:Er. intros [= <- <-].
  destruct (acked_frame c1 t' c' Er) as (Ea & Ecfg).
  assert (passed_on n1 = passed_on n ∧ ll_rx_pkt_q n1 = ll_rx_pkt_q n ∧ ll_tx_pkt_q n1 = ll_tx_pkt_q n) as (N1 & N2 & N3).
  { subst n1. by destruct (decide _). }
  split; [unfold same_rx; cbn; rewrite Ea; by split_and!|]. split; [exact N3|]. split; [exact Ecfg|].
  intros s Hs. rewrite Hs, seq_match_spec in Em by done.
  assert (eqb s e = false) as -> by (by destruct s, e). cbn [orb]. split.
  - intros Hq Hh. exists c'. split_and!; [|done|done].
    destruct (acked_ok s (negb s) c1 t' c' Hq Hh Er) as [A1 A2 A3 A4]. split; [exact A1|exact A2|exact A3|exact A4].
  - cbn. rewrite Ea. cbn. by rewrite Hs, lxor_one.
Qed.

(** A packet with a good CRC, up to the decision to reply. *)
Lemma crc_good_ok p X Y n reply n3 sx sy eX bytes stale :
  pair_ok X Y sx sy → next_exp_seqnum (ack (nd_conn X)) = Z.b2z eX → in_air (nd_conn X) eX bytes →
  rx_buf p = bytes ++ stale → rx_len p = byte_at (rx_buf p) 1 + 2 → rx_crcok p = true → rx_handle p = 1 →
  same_tx Y n → passed_on n = passed_on Y → ll_rx_pkt_q n = ll_rx_pkt_q Y ++ [p] → ll_tx_pkt_q n = ll_tx_pkt_q Y →
  ack (nd_conn n) = ack (nd_conn Y) → rx_crc_good p n = (reply, n3) → pair_ok X n3 sx sy ∧ passed_on n3 = passed_on Y.
Proof.
  intros (H1 & H2 & H3 & H4 & H5 & H6) HeX Hair Hbuf Hlen Hcrc Hh Htx Epo Erq Etq Eack Hr.
  pose proof H1 as [(s & e & Hs & He & Hq & _)].
  destruct (frame_good s eX (nd_conn X) bytes stale (rx_len p) p Hq Hair Hbuf eq_refl Hlen Hh) as (Hg & Hsn & Hit & Hnesn).
  unfold rx_crc_good in Hr.
  set (n1 := upd_conn (upd_ack _) n) in Hr.
  destruct (check_sn_ok (byte_at (rx_buf p) 0) n1 s e Hsn ltac:(cbn; by rewrite Eack)) as (S1 & S2 & S3 & S4 & S5 & S6).
  set (n2 := rx_check_sn _ n1) in *.
  destruct (rx_check_nesn _ n2) as [t n2'] eqn:En.
  destruct (check_nesn_ok _ _ _ _ _ Hnesn En) as (R1 & R4 & R2 & R3).
  assert (same_tx Y n2) as Ht2.
  { eapply same_tx_trans; [exact Htx|]. eapply same_tx_trans; [|exact S1]. unfold same_tx. cbn. by split_and!. }
  assert (pair_ok X n2' sx sy ∧ passed_on n2' = passed_on Y) as (Hp & Hpo).
  { split; [|rewrite (proj1 R1), S2; exact Epo]. split_and!; [| |done| |done|by rewrite R4, S4; cbn; rewrite Etq].
    - eapply dir_ok_rx; [|exact R1]. destruct Hair as (q & rest & Eq & Hret & _ & _ & Hptx).
      eapply (dir_ok_receive X Y n2 sx e s p); try done.
      + unfold head_sent. by rewrite Eq.
      + rewrite S2. exact Epo.
      + rewrite S3. exact Erq.
      + rewrite S5. cbn. by rewrite Eack.
    - eapply (dir_ok_ack n2 n2' X sy eX); [by eapply dir_ok_tx_same|done|exact R3].
    - eapply conn_wf_same; [|exact R2]. eapply conn_wf_same; [exact H4|apply Ht2]. }
  destruct t; [by injection Hr as <- <-|].
  destruct (ble_ll_ctrl_is_terminate_ind _ _); [|by destruct (is_master _); injection Hr as <- <-].
  injection Hr as <- <-. split; [|exact Hpo]. eapply pair_ok_same; [exact Hp|by split_and!|by split_and!|done].
Qed.

Lemma crc_bad_ok p X Y n reply n3 sx sy :
  pair_ok X Y sx sy → rx_crcok p = false →
  same_tx Y n → passed_on n = passed_on Y → ll_rx_pkt_q n = ll_rx_pkt_q Y ++ [p] → ll_tx_pkt_q n = ll_tx_pkt_q Y →
  ack (nd_conn n) = ack (nd_conn Y) → rx_crc_bad n = (reply, n3) → pair_ok X n3 sx sy ∧ passed_on n3 = passed_on Y.
Proof.
  intros (H1 & H2 & H3 & H4 & H5 & H6) Hcrc Htx Epo Erq Etq Eack [= <- <-]. split; [|exact Epo].
  match goal with |- pair_ok _ ?m _ _ => assert (same_tx Y m) as Ht end.
  { eapply same_tx_trans; [exact Htx|]. unfold same_tx. cbn. by split_and!. }
  split_and!; [|by eapply dir_ok_tx_same|done|eapply conn_wf_same; [done|apply Ht]|done|by cbn; rewrite Etq].
  destruct H1 as [(s & e & Hs & He & Hq & Hg & acked & Hsent & Hc)]. split. exists s, e.
  match goal with |- context [accepted ?m] => assert (accepted m = accepted Y ∧ last_sn m = last_sn Y) as (Ea & El) end.
  { unfold accepted, last_sn, received. cbn. rewrite Epo, Erq, Eack, queued_app, Hcrc. done. }
  rewrite Ea, El. cbn. rewrite Eack, Erq. split_and!; try done; [|by exists acked].
  apply Forall_app. split; [done|]. constructor; [|done]. intros Hc'. congruence.
Qed.

(** The parts of the handler, and its effect. *)
Lemma rx_end_parts tpu now rc X Y sx sy buf crcok rssi endt r Y' :
  pair_ok X Y sx sy → g_ble_ll_conn_cur_sm Y = true →
  (crcok = true → ∃ bytes stale, air_ok X bytes ∧ buf = bytes ++ stale) →
  ble_ll_rx_end tpu now rc (access_addr (mgmt (nd_conn Y))) (mk_rx buf 0 crcok 0 rssi endt) Y = (r, Y') →
  ∃ p n reply n3 n4, (rx_buf p = buf ∧ nd_conn n = nd_conn Y ∧ g_ble_ll_conn_cur_sm n = true ∧
    (if crcok then rx_crc_good p n else rx_crc_bad n) = (reply, n3) ∧ pair_ok X n3 sx sy ∧
    rx_reply tpu now rc p reply n3 = (r, n4) ∧ nd_conn Y' = set_anchors tpu p (nd_conn n4)) ∧
  pair_ok X Y' sx sy ∧ passed_on Y' = passed_on Y ∧ ∀ bytes, txr_air r = Some bytes → air_ok Y' bytes.
Proof.
  intros Hp Hcur Hair. unfold ble_ll_rx_end, ble_ll_conn_rx_isr_end.
  cbn [rx_buf rx_crcok rx_handle rx_rssi rx_end_cputime g_ble_ll_conn_cur_sm ble_ll_rx_pdu_in set_rx_q nd_conn].
  rewrite Hcur. cbn [negb]. rewrite Z.eqb_refl. cbn [negb].
  set (len := u16 _). set (p := mk_rx buf len crcok 0 rssi endt).
  change (g_ble_ll_conn_cur_sm (ble_ll_rx_pdu_in p Y)) with (g_ble_ll_conn_cur_sm Y).
  set (n := set_rx_q _ _). set (p' := mk_rx buf len crcok 1 rssi endt).
  assert (ll_rx_pkt_q n = ll_rx_pkt_q Y ++ [p']) as Eq.
  { subst n. cbn. pose proof (alter_app_r (set_handle (u8 (conn_handle (nd_conn Y)))) (ll_rx_pkt_q Y) [p] 0) as E.
    rewrite Nat.add_0_r in E. rewrite E. destruct Hp as (_ & _ & _ & (-> & _) & _). done. }
  destruct (if crcok then rx_crc_good p n else rx_crc_bad n) as [reply n3] eqn:Er.
  assert (pair_ok X n3 sx sy ∧ passed_on n3 = passed_on Y) as (Hp3 & Hpo3).
  { destruct crcok.
    - destruct (Hair eq_refl) as (bytes & stale & (e & He & Ha) & ->).
      change (rx_crc_good p n) with (rx_crc_good p' n) in Er.
      eapply (crc_good_ok p' X Y n reply n3 sx sy e bytes stale);
        [exact Hp|exact He|exact Ha|done| |done|done|by split_and!|done|exact Eq|done|done|exact Er].
      cbn. subst len. destruct Hp as ([(s & e0 & _ & _ & Hq & _)] & _). destruct Ha as (q & rest & Eqq & Hr & Hb & _).
      destruct (frame_shape s (nd_conn X) q rest bytes Hq Eqq Hr Hb) as (? & ? & ? & bs & ? & -> & _ & _ & Hlt & _).
      cbn. apply u16_small. lia.
    - eapply (crc_bad_ok p' X Y n reply n3); [exact Hp|done|by split_and!|done|exact Eq|done|done|exact Er]. }
  destruct (rx_reply tpu now rc p reply n3) as [res n4] eqn:Ert.
  destruct (reply_tail tpu now rc p reply X n3 sx sy res (upd_conn (set_anchors tpu p) n4) Hp3) as (Hp5 & Hpo5 & Ha5);
    [by rewrite Ert|]. rewrite Hpo3 in Hpo5.
  destruct (txr_rc res =? 0); intros [= <- <-]; exists p, n, reply, n3, n4; (split; [by split_and!|]); [done|]. split; [|split; [exact Hpo5|exact Ha5]].
  eapply pair_ok_same; [exact Hp5|by split_and!|by split_and!|done].
Qed.

Lemma rx_end_ok tpu now rc X Y sx sy buf crcok rssi endt r Y' :
  pair_ok X Y sx sy → g_ble_ll_conn_cur_sm Y = true →
  (crcok = true → ∃ bytes stale, air_ok X bytes ∧ buf = bytes ++ stale) →
  ble_ll_rx_end tpu now rc (access_addr (mgmt (nd_conn Y))) (mk_rx buf 0 crcok 0 rssi endt) Y = (r, Y') →
  pair_ok X Y' sx sy ∧ passed_on Y' = passed_on Y ∧ ∀ bytes, txr_air r = Some bytes → air_ok Y' bytes.
Proof. intros. by edestruct rx_end_parts as (?&?&?&?&?&?&?). Qed.

(** ** Packets from the host *)

Lemma enqueue_ok s c om llid len c' :
  queue_ok s c → llid_ok llid → 0 < len < 256 → len <= Z.of_nat (length (tx_data om)) → (llid = 3 → len <= 27) →
  c' = ble_ll_conn_enqueue_pkt om llid len c →
  ∃ m, conn_txq c' = conn_txq c ++ [Pkt m] ∧ fresh_pkt m ∧
    left_of m = frag_items llid (take (Z.to_nat len) (tx_data om)) ∧
    ack c' = ack c ∧ same_cfg c c' ∧ csmflags c' = csmflags c ∧ conn_empty_pdu c' = conn_empty_pdu c.
Proof.
  intros Hq Hl Hlen Hd H3 ->. unfold ble_ll_conn_enqueue_pkt.
  set (m := if _ <? _ then _ else _). exists m. split_and!; try done.
  - subst m. destruct (_ <? _); split_and!; cbn; try done; lia.
  - assert (tx_data m = tx_data om ∧ tx_om_len m = len ∧ ti_flags (tx_info m) = 0 ∧ ti_offset (tx_info m) = 0 ∧
            ti_hdr_byte (tx_info m) = llid) as (E1 & E2 & E3 & E4 & E5) by (subst m; by destruct (_ <? _)).
    unfold left_of, next_llid, payload. rewrite E1, E2, E4, E5. cbn [Z.to_nat]. rewrite drop_0, Z.eqb_refl, orb_true_r.
    f_equal. by destruct Hl as [->|[->| ->]].
Qed.

(** A packet at the end of the queue. *)
Lemma snoc_ok s c c' m :
  queue_ok s c → fresh_pkt m → conn_txq c' = conn_txq c ++ [Pkt m] → conn_empty_pdu c' = conn_empty_pdu c →
  queue_ok s c' ∧ unacked c' = unacked c ++ left_of m ∧
  (head_sent c → head_sent c' ∧ in_flight c' = in_flight c) ∧
  ∀ q rest, conn_txq c = q :: rest → ∃ rest', conn_txq c' = q :: rest' ∧ queue_item c' q = queue_item c q.
Proof.
  intros (Hemp & Hq) Hm Eq Ee.
  assert (∀ q, queue_item c' q = queue_item c q) as Hi by (intros [|?]; by cbn; rewrite ?Ee).
  split_and!.
  - split; [by rewrite Ee|]. rewrite Eq. destruct (conn_txq c) as [|q rest]; cbn [app].
    + split; [by left|done].
    + destruct Hq as (Hh & Hrest). split; [destruct q; cbn in *; by rewrite ?Ee|].
      apply Forall_app. split; [done|]. constructor; [by exists m|done].
  - unfold unacked. rewrite Eq, fmap_app, join_app. f_equal.
    + f_equal. apply list_fmap_ext. intros ? q _. cbn. by rewrite Hi.
    + cbn. by rewrite app_nil_r.
  - unfold head_sent, in_flight. rewrite Eq. destruct (conn_txq c) as [|q rest]; [done|]. cbn [app]. by rewrite Hi.
  - intros q rest Eq'. rewrite Eq, Eq'. by eexists.
Qed.

(** Enqueueing in a controller. *)
Lemma pair_enqueue X Y X' sx sy om llid len :
  pair_ok X Y sx sy → llid_ok llid → 0 < len < 256 → len <= Z.of_nat (length (tx_data om)) → (llid = 3 → len <= 27) →
  nd_conn X' = ble_ll_conn_enqueue_pkt om llid len (nd_conn X) →
  passed_on X' = passed_on X → ll_rx_pkt_q X' = ll_rx_pkt_q X → ll_tx_pkt_q X' = ll_tx_pkt_q X →
  pair_ok X' Y (sx ++ frag_items llid (take (Z.to_nat len) (tx_data om))) sy ∧ ∀ bytes, air_ok X bytes → air_ok X' bytes.
Proof.
  intros (H1 & H2 & H3 & H4 & H5 & H6) Hl Hlen Hd H3' Ec Epo Erq Etq.
  pose proof H1 as [(s & e & Hs & He & Hq & Hg & acked & Hsent & Hc)].
  destruct (enqueue_ok s _ om llid len _ Hq Hl Hlen Hd H3' Ec) as (m & Eq & Hm & Hleft & Ea & Ecfg & Ef & Ee).
  destruct (snoc_ok s _ _ m Hq Hm Eq Ee) as (Hq' & Hu & Hh & Hi). split; [split_and!|].
  - split. exists s, e. rewrite Ea. split_and!; try done. exists acked. rewrite Hu, Hsent, <-Hleft, (assoc (++)). split; [done|].
    destruct (eqb s e); [done|]. destruct Hc as (C1 & C2 & C3 & C4). destruct (Hh C3) as (? & ->). rewrite Ef. by split_and!.
  - eapply dir_ok_rx; [done|]. unfold same_rx. by rewrite Ea, Epo, Erq.
  - exact (conn_wf_same _ _ H3 Ecfg).
  - done.
  - by rewrite Etq.
  - done.
  - intros bytes (e' & He' & q & rest & Eq' & Hr & Hb & Hn & Hp). exists e'. split; [by rewrite Ea|].
    destruct (Hi q rest Eq') as (rest' & E1 & E2). exists q, rest'. rewrite E2, Ef. by split_and!.
Qed.

Lemma host_packet_items pkt :
  Z.of_nat (length (drop 4 pkt)) = byte_at pkt 2 + 256 * byte_at pkt 3 →
  take (Z.to_nat (byte_at pkt 2 + 256 * byte_at pkt 3)) (drop 4 pkt) = drop 4 pkt.
Proof. intros <-. apply take_ge. lia. Qed.

(** One packet of the host, in the task. *)
Lemma pair_tx_pkt_in_one X Y sx sy pkt :
  pair_ok X Y sx sy → host_pkt pkt →
  let X' := tx_pkt_in_one X pkt in
  pair_ok X' Y (sx ++ acl_items X pkt) sy ∧ (∀ bytes, air_ok X bytes → air_ok X' bytes) ∧
  conn_state (nd_conn X') = conn_state (nd_conn X).
Proof.
  intros Hp Hpkt X'. subst X'. unfold tx_pkt_in_one, acl_items, ble_ll_conn_tx_pkt_in.
  set (handle := byte_at pkt 0 + 256 * byte_at pkt 1). set (len := byte_at pkt 2 + 256 * byte_at pkt 3).
  cbn [tx_omp_len].
  assert (∀ x, pair_ok (count x X) Y (sx ++ []) sy ∧ (∀ bytes, air_ok X bytes → air_ok (count x X) bytes) ∧
               conn_state (nd_conn (count x X)) = conn_state (nd_conn X)) as Hcount.
  { intros x. rewrite app_nil_r. split; [|by split]. eapply pair_ok_same_l; [exact Hp|by split_and!|by split_and!|done]. }
  rewrite Z.leb_antisym. destruct (Z.eqb_spec (Z.of_nat (length (drop 4 pkt))) len) as [El|]; [|by apply Hcount].
  destruct (0x1000 <? Z.land handle 0x3000); [by apply Hcount|].
  destruct (Z.eqb_spec len 0) as [|Hnz]; [by apply Hcount|]. cbn [negb orb andb].
  destruct (ble_ll_conn_find_active_conn _ X) as [c|] eqn:Ef; [|by apply Hcount].
  rewrite bool_decide_true by done. unfold host_pkt in Hpkt. rewrite u8_small by lia.
  set (llid := if _ =? 0 then _ else _). set (om := mk_tx _ _ _ _). set (X' := upd_conn _ _).
  destruct (pair_enqueue X Y X' sx sy om llid len) as (Hp' & Ha); try done.
  - subst llid. destruct (_ =? 0); [by right; left|by left].
  - lia.
  - change (tx_data om) with (drop 4 pkt). lia.
  - subst llid. by destruct (_ =? 0).
  - change (tx_data om) with (drop 4 pkt) in Hp'. subst len. rewrite host_packet_items in Hp' by done.
    split; [exact Hp'|]. by split.
Qed.

Lemma acl_items_state X X' pkt : conn_state (nd_conn X') = conn_state (nd_conn X) → acl_items X' pkt = acl_items X pkt.
Proof.
  intros E. unfold acl_items.
  assert (∀ h, bool_decide (is_Some (ble_ll_conn_find_active_conn h X')) =
               bool_decide (is_Some (ble_ll_conn_find_active_conn h X))) as Eb; [|by rewrite Eb].
  intros h. apply bool_decide_ext. unfold ble_ll_conn_find_active_conn. rewrite E.
  destruct (negb (h =? 0) && _); [|done]. destruct (decide _); [done|]. split; intros _; by eexists.
Qed.

Lemma pair_tx_pkt_in_all q : ∀ X Y sx sy,
  pair_ok X Y sx sy → Forall host_pkt q →
  pair_ok (foldl tx_pkt_in_one X q) Y (sx ++ mjoin (acl_items X <$> q)) sy ∧
  ∀ bytes, air_ok X bytes → air_ok (foldl tx_pkt_in_one X q) bytes.
Proof.
  induction q as [|pkt q IH]; intros X Y sx sy Hp Hq; cbn [foldl].
  - cbn. by rewrite app_nil_r.
  - apply Forall_cons_1 in Hq as (Hpkt & Hq).
    destruct (pair_tx_pkt_in_one X Y sx sy pkt Hp Hpkt) as (Hp1 & Ha1 & Es).
    destruct (IH _ _ _ _ Hp1 Hq) as (Hp2 & Ha2). split; [|auto].
    assert (acl_items (tx_pkt_in_one X pkt) <$> q = acl_items X <$> q) as E.
    { apply list_fmap_ext. intros. by apply acl_items_state. }
    rewrite E, <-(assoc (++)) in Hp2. exact Hp2.
Qed.

Lemma pair_tx_pkt_in X Y sx sy :
  pair_ok X Y sx sy →
  pair_ok (ble_ll_tx_pkt_in X) Y (sx ++ mjoin (acl_items X <$> ll_tx_pkt_q X)) sy ∧
  ∀ bytes, air_ok X bytes → air_ok (ble_ll_tx_pkt_in X) bytes.
Proof.
  intros (H1 & H2 & H3 & H4 & H5 & H6). unfold ble_ll_tx_pkt_in.
  destruct (pair_tx_pkt_in_all (ll_tx_pkt_q X) (set_tx_q [] X) Y sx sy) as (Hp & Ha); [|done|].
  { eapply (pair_ok_same_l X); [by split_and!|by split_and!|by split_and!|done]. }
  split; [exact Hp|exact Ha].
Qed.

(** ** The link *)

Lemma pair_event_start tpu now rc rx_rc X Y sx sy r Y' :
  pair_ok X Y sx sy → ble_ll_conn_event_start_cb tpu now rc rx_rc Y = (r, Y') →
  pair_ok X Y' sx sy ∧ passed_on Y' = passed_on Y ∧ ∀ bytes, txr_air r = Some bytes → air_ok Y' bytes.
Proof.
  intros Hp. unfold ble_ll_conn_event_start_cb. set (n := set_cur_sm _ _ Y).
  assert (pair_ok X n sx sy) as Hn by (eapply pair_ok_same; [exact Hp|by split_and!|by split_and!|done]).
  destruct (is_master (nd_conn n)).
  - destruct (ble_ll_conn_tx_data_pdu tpu now rc n) as [res n1] eqn:Et.
    destruct (pair_tx tpu now rc X n sx sy res n1 Hn Et) as (H1 & Hpo & Ha).
    destruct (txr_rc res =? 0); intros [= <- <-];
      (split; [eapply pair_ok_same; [exact H1|by split_and!|by split_and!|done]|split; [exact Hpo|exact Ha]]).
  - destruct (rx_rc =? 0); intros [= <- <-];
      (split; [eapply pair_ok_same; [exact Hn|by split_and!|by split_and!|done]|done]).
Qed.

(** Two controllers, [true] being the master, the frame on the air with the controller it is
    sent to, and what each of them has been given to send. *)
Record link := mk_link { nodes : bool → ll_node; air : option (bool * list Z); sent : bool → list item }.
Definition set_side {A} (b : bool) (x : A) (f : bool → A) : bool → A := λ b', if eqb b b' then x else f b'.
Definition set_node (b : bool) (n : ll_node) (L : link) : link := mk_link (set_side b n (nodes L)) (air L) (sent L).
Definition set_air (a : option (bool * list Z)) (L : link) : link := mk_link (nodes L) a (sent L).
Definition add_sent (b : bool) (l : list item) (L : link) : link :=
  mk_link (nodes L) (air L) (set_side b (sent L b ++ l) (sent L)).
Definition on_air (b : bool) (r : tx_result) : option (bool * list Z) := (λ bytes, (negb b, bytes)) <$> txr_air r.

(** A step of one of the controllers, or of the radio.  The arguments are the side, the time,
    and what the radio hardware answers ([rc], [rx_rc]). *)
Inductive link_step (tpu : Z) (L : link) : link → Prop :=
| Host_sends b pkt :
    host_pkt pkt → link_step tpu L (set_node b (ble_ll_acl_data_in pkt (nodes L b)) L)
| Task_takes_packets b :
    link_step tpu L (add_sent b (mjoin (acl_items (nodes L b) <$> ll_tx_pkt_q (nodes L b)))
                       (set_node b (ble_ll_tx_pkt_in (nodes L b)) L))
| Control_sends b om :
    0 < Z.of_nat (length (tx_data om)) <= 27 →
    link_step tpu L (add_sent b [It_ctrl (tx_data om)]
      (set_node b (upd_conn (ble_ll_conn_enqueue_pkt om BLE_LL_LLID_CTRL (Z.of_nat (length (tx_data om)))) (nodes L b)) L))
| Event_starts b now rc rx_rc r n :
    ble_ll_conn_event_start_cb tpu now rc rx_rc (nodes L b) = (r, n) →
    link_step tpu L (set_air (if is_master (nd_conn (nodes L b)) then on_air b r else air L) (set_node b n L))
| Frame_starts b :
    link_step tpu L (set_node b (ble_ll_conn_rx_isr_start (nodes L b)) L)
| Frame_arrives b bytes stale now rc rssi endt r n :
    air L = Some (b, bytes) → g_ble_ll_conn_cur_sm (nodes L b) = true →
    ble_ll_rx_end tpu now rc (access_addr (mgmt (nd_conn (nodes L b))))
      (mk_rx (bytes ++ stale) 0 true 0 rssi endt) (nodes L b) = (r, n) →
    link_step tpu L (set_air (on_air b r) (set_node b n L))
| Noise_arrives b buf now rc rssi endt r n :
    g_ble_ll_conn_cur_sm (nodes L b) = true →
    ble_ll_rx_end tpu now rc (access_addr (mgmt (nd_conn (nodes L b))))
      (mk_rx buf 0 false 0 rssi endt) (nodes L b) = (r, n) →
    link_step tpu L (set_air (on_air b r) (set_node b n L))
| Frame_is_lost : link_step tpu L (set_air None L)
| Response_times_out b : link_step tpu L (set_node b (ble_ll_conn_wfr_timer_exp (nodes L b)) L)
| Transmission_ends b : link_step tpu L (set_node b (ble_ll_conn_wait_txend (nodes L b)) L)
| Event_ends b : link_step tpu L (set_node b (reset_event (nodes L b)) L)
| Task_takes_pdus b now : link_step tpu L (set_node b (ble_ll_rx_pkt_in tpu now (nodes L b)) L)
| Lengths_change b req :
    27 <= lr_max_rx_bytes req < 256 →
    link_step tpu L (set_node b (upd_conn (upd_dlen (λ d, (ble_ll_conn_datalen_update req d).2)) (nodes L b)) L)
| Parameters_change b f g h :
    link_step tpu L (set_node b (upd_conn (λ c, upd_chans f (upd_mgmt g (upd_timing h c))) (nodes L b)) L).

Inductive link_reachable (tpu : Z) (L0 : link) : link → Prop :=
| reach_init : link_reachable tpu L0 L0
| reach_step L L' : link_reachable tpu L0 L → link_step tpu L L' → link_reachable tpu L0 L'.

(** A link that has just been set up: [ble_ll_conn_sm_new] on both sides. *)
Definition new_conn (role : conn_role_t) (c : ble_ll_conn) : Prop :=
  conn_role c = role ∧ conn_state c ≠ BLE_LL_CONN_STATE_IDLE ∧
  ∃ g c0, 27 <= conn_init_max_tx_octets g < 256 ∧ conn_handle c0 = 1 ∧
    conn_empty_pdu c0 = ble_ll_mbuf_init (conn_empty_pdu c0) 0 BLE_LL_LLID_DATA_FRAG ∧
    let c1 := ble_ll_conn_sm_new g c0 in
    conn_handle c = conn_handle c1 ∧ csmflags c = csmflags c1 ∧ dlen c = dlen c1 ∧ ack c = ack c1 ∧
    conn_txq c = conn_txq c1 ∧ conn_empty_pdu c = conn_empty_pdu c1.
Definition new_link (L : link) : Prop :=
  new_conn BLE_LL_CONN_ROLE_MASTER (nd_conn (nodes L true)) ∧
  new_conn BLE_LL_CONN_ROLE_SLAVE (nd_conn (nodes L false)) ∧ air L = None ∧
  ∀ b, sent L b = [] ∧ ll_rx_pkt_q (nodes L b) = [] ∧ ll_tx_pkt_q (nodes L b) = [] ∧ passed_on (nodes L b) = [].

Record link_ok (L : link) : Prop := {
  lk_pair : ∀ b, pair_ok (nodes L b) (nodes L (negb b)) (sent L b) (sent L (negb b));
  lk_air : match air L with Some (b, bytes) => air_ok (nodes L (negb b)) bytes | None => True end }.

Lemma set_side_eq {A} b (x : A) f : set_side b x f b = x.
Proof. unfold set_side. by rewrite eqb_reflx. Qed.
Lemma set_side_ne {A} b (x : A) f : set_side b x f (negb b) = f (negb b).
Proof. unfold set_side. by destruct b. Qed.
Lemma side_cases b b' : b' = b ∨ b' = negb b.
Proof. destruct b, b'; auto. Qed.

(** A step of one side. *)
Lemma link_ok_side L b X' sx' :
  link_ok L → pair_ok X' (nodes L (negb b)) sx' (sent L (negb b)) →
  (∀ bytes, air_ok (nodes L b) bytes → air_ok X' bytes) →
  link_ok (mk_link (set_side b X' (nodes L)) (air L) (set_side b sx' (sent L))).
Proof.
  intros [Hp Ha] Hp' Ha'. split; cbn.
  - intros b'. destruct (side_cases b b') as [->| ->]; rewrite ?set_side_eq, ?set_side_ne, ?negb_involutive, ?set_side_eq; [done|].
    by apply pair_sym.
  - destruct (air L) as [[b' bytes]|]; [|done].
    destruct (side_cases b (negb b')) as [E|E]; rewrite E in *; rewrite ?set_side_eq, ?set_side_ne; auto.
Qed.

(** A step of one side that replaces the frame on the air. *)
Lemma link_ok_node L b X' a :
  (∀ b, pair_ok (nodes L b) (nodes L (negb b)) (sent L b) (sent L (negb b))) →
  pair_ok X' (nodes L (negb b)) (sent L b) (sent L (negb b)) →
  match a with Some (b', bytes) => air_ok (set_side b X' (nodes L) (negb b')) bytes | None => True end →
  link_ok (set_air a (set_node b X' L)).
Proof.
  intros Hp Hp' Ha. split; cbn; [|done].
  intros b'. destruct (side_cases b b') as [->| ->]; rewrite ?set_side_eq, ?set_side_ne, ?negb_involutive, ?set_side_eq; [done|].
  by apply pair_sym.
Qed.

(** Steps of one side that send nothing. *)
Lemma link_ok_keep L b X' :
  link_ok L → pair_ok X' (nodes L (negb b)) (sent L b) (sent L (negb b)) →
  (∀ bytes, air_ok (nodes L b) bytes → air_ok X' bytes) → link_ok (set_node b X' L).
Proof.
  intros [Hp Ha] Hp' Ha'. split; cbn.
  - intros b'. destruct (side_cases b b') as [->| ->]; rewrite ?set_side_eq, ?set_side_ne, ?negb_involutive, ?set_side_eq; [done|].
    by apply pair_sym.
  - destruct (air L) as [[b' bytes]|]; [|done].
    destruct (side_cases b (negb b')) as [E|E]; rewrite E in *; rewrite ?set_side_eq, ?set_side_ne; auto.
Qed.

(** Steps that touch neither the streams nor the sequence numbers. *)
Lemma link_ok_same L b X' :
  link_ok L → same_rx (nodes L b) X' → same_tx (nodes L b) X' →
  (Forall host_pkt (ll_tx_pkt_q (nodes L b)) → Forall host_pkt (ll_tx_pkt_q X')) → link_ok (set_node b X' L).
Proof.
  intros HL Hr Ht Hq. apply link_ok_keep; [done| |].
  - eapply pair_ok_same_l; [apply HL|done..].
  - intros bytes. eapply air_ok_same; [exact Ht|apply Hr].
Qed.

Lemma on_air_ok b r X' L :
  (∀ bytes, txr_air r = Some bytes → air_ok X' bytes) →
  match on_air b r with Some (b', bytes) => air_ok (set_side b X' (nodes L) (negb b')) bytes | None => True end.
Proof.
  intros Ha. unfold on_air. destruct (txr_air r) as [bytes|]; [|done]. cbn. rewrite negb_involutive, set_side_eq. auto.
Qed.

(** The task empties the receive queue. *)
Lemma pair_rx_pkt_in tpu now X Y sx sy :
  pair_ok X Y sx sy → pair_ok X (ble_ll_rx_pkt_in tpu now Y) sx sy ∧
  same_tx Y (ble_ll_rx_pkt_in tpu now Y) ∧
  next_exp_seqnum (ack (nd_conn (ble_ll_rx_pkt_in tpu now Y))) = next_exp_seqnum (ack (nd_conn Y)).
Proof.
  intros (H1 & H2 & H3 & H4 & H5 & H6). pose proof H1 as [(s & e & Hs & He & Hq & Hg & acked & Hsent & Hc)].
  destruct (rx_pkt_in_ok tpu now Y _ Hg H4 eq_refl) as (E1 & E2 & E3 & _ & E5 & E6 & Ht). split; [|done].
  split_and!; [|by eapply dir_ok_tx_same|done|eapply conn_wf_same; [exact H4|apply Ht]|done|by rewrite E6].
  split. exists s, e. rewrite E1, E2, E3, E5. split_and!; [done..|by constructor|]. by exists acked.
Qed.

Lemma pair_datalen X Y sx sy req :
  pair_ok X Y sx sy → 27 <= lr_max_rx_bytes req < 256 →
  pair_ok (upd_conn (upd_dlen (λ d, (ble_ll_conn_datalen_update req d).2)) X) Y sx sy.
Proof.
  intros ([D1] & [D2] & H3 & H4 & H5 & H6) Hreq.
  split_and!; [split; exact D1|split; exact D2| |done|done|done].
  destruct H3 as (W1 & W2 & W3 & W4). unfold conn_wf. cbn. rewrite u8_small by lia. split_and!; [done|done|lia..].
Qed.

Ltac keep_side := eapply link_ok_same; [done|by split_and!|by split_and!|done].

Lemma link_step_ok tpu L L' : link_ok L → link_step tpu L L' → link_ok L'.
Proof.
  intros HL Hst. pose proof HL as [Hp Ha]. destruct Hst.
  - eapply link_ok_same; [done|by split_and!|by split_and!|]. intros Hq. cbn. apply Forall_app. split; [done|by constructor].
  - destruct (pair_tx_pkt_in _ _ _ _ (Hp b)) as (Hp' & Ha'). exact (link_ok_side L b _ _ HL Hp' Ha').
  - destruct (pair_enqueue (nodes L b) (nodes L (negb b)) (upd_conn (ble_ll_conn_enqueue_pkt om BLE_LL_LLID_CTRL
      (Z.of_nat (length (tx_data om)))) (nodes L b)) (sent L b) (sent L (negb b)) om BLE_LL_LLID_CTRL
      (Z.of_nat (length (tx_data om)))) as (Hp' & Ha'); [done|by right; right|lia|lia|lia|done..|].
    rewrite Nat2Z.id, take_ge in Hp' by lia. exact (link_ok_side L b _ _ HL Hp' Ha').
  - destruct (pair_event_start tpu now rc rx_rc _ _ _ _ r n (pair_sym _ _ _ _ (Hp b)) H) as (Hp' & _ & Ha').
    apply link_ok_node; [done|by apply pair_sym|]. destruct (is_master _) eqn:Em; [by apply on_air_ok|].
    destruct (air L) as [[b' bytes]|]; [|done].
    destruct (side_cases b (negb b')) as [E|E]; rewrite E in *; rewrite ?set_side_eq, ?set_side_ne; [|done].
    eapply air_ok_same; [| |exact Ha]; unfold ble_ll_conn_event_start_cb in H; cbn [set_cur_sm nd_conn] in H; rewrite Em in H;
      destruct (rx_rc =? 0); injection H as <- <-; cbn; [by split_and!..|done|done].
  - unfold ble_ll_conn_rx_isr_start. destruct (g_ble_ll_conn_cur_sm _); keep_side.
  - rewrite H in Ha.
    destruct (rx_end_ok tpu now rc (nodes L (negb b)) (nodes L b) (sent L (negb b)) (sent L b) (bytes ++ stale) true rssi endt r n)
      as (Hp' & _ & Ha'); [by apply pair_sym|done|by exists bytes, stale|done|].
    apply link_ok_node; [done|by apply pair_sym|by apply on_air_ok].
  - destruct (rx_end_ok tpu now rc (nodes L (negb b)) (nodes L b) (sent L (negb b)) (sent L b) buf false rssi endt r n)
      as (Hp' & _ & Ha'); [by apply pair_sym|done|done|done|].
    apply link_ok_node; [done|by apply pair_sym|by apply on_air_ok].
  - by split.
  - unfold ble_ll_conn_wfr_timer_exp. destruct (g_ble_ll_conn_cur_sm _); keep_side.
  - keep_side.
  - keep_side.
  - destruct (pair_rx_pkt_in tpu now _ _ _ _ (pair_sym _ _ _ _ (Hp b))) as (Hp' & Ht & En).
    apply link_ok_keep; [done|by apply pair_sym|]. intros bytes. by apply air_ok_same.
  - apply link_ok_keep; [done|by apply pair_datalen|]. intros bytes (e & He & Hin). by exists e.
  - keep_side.
Qed.

(** ** A new link *)

Lemma new_link_ok L : new_link L → link_ok L.
Proof.
  intros (Hm & Hs & Hair & Hq).
  assert (∀ b, ∃ role, new_conn role (nd_conn (nodes L b))) as Hnew by (intros []; eauto).
  split; [|by rewrite Hair].
  assert (∀ b, conn_wf (nd_conn (nodes L b)) ∧ queue_ok false (nd_conn (nodes L b)) ∧ conn_txq (nd_conn (nodes L b)) = [] ∧
          tx_seqnum (ack (nd_conn (nodes L b))) = 0 ∧ next_exp_seqnum (ack (nd_conn (nodes L b))) = 0 ∧
          last_rxd_sn (ack (nd_conn (nodes L b))) = 1) as Hc.
  { intros b. destruct (Hnew b) as (role & _ & Hst & g & c0 & Hg & Hh & Hemp & E1 & E2 & E3 & E4 & E5 & E6).
    unfold ble_ll_conn_sm_new in *. destruct (ble_ll_conn_calc_dci _) as [dci k]. cbn in *.
    unfold conn_wf, queue_ok. rewrite E1, E3, E4, E5, E6. cbn. split_and!; try done; try lia.
    rewrite Hemp. by split_and!. }
  assert (∀ b, dir_ok (nodes L b) (nodes L (negb b)) (sent L b)) as Hd.
  { intros b. destruct (Hc b) as (_ & Hqok & Etx & Es & _ & _). destruct (Hc (negb b)) as (_ & _ & _ & _ & En & El).
    destruct (Hq b) as (Esent & _ & _ & _). destruct (Hq (negb b)) as (_ & Erq & _ & Epo).
    split. exists false, false. rewrite Es, En, Erq. split_and!; [done|done|done|by constructor|].
    exists []. unfold accepted, last_sn, received, unacked. rewrite Esent, Etx, Erq, El, Epo. done. }
  intros b. destruct (Hq b) as (_ & _ & E1 & _). destruct (Hq (negb b)) as (_ & _ & E2 & _).
  pose proof (Hd (negb b)) as Hd'. rewrite negb_involutive in Hd'.
  split_and!; [apply Hd|done|apply Hc|apply Hc|by rewrite E1|by rewrite E2].
Qed.

Lemma link_reachable_ok tpu L0 L : new_link L0 → link_reachable tpu L0 L → link_ok L.
Proof. intros H0. induction 1; [by apply new_link_ok|by eapply link_step_ok]. Qed.
