(* ===== verification/BleConnProps.v ===== *)
(** The data channel of a connection delivers what is sent: it refines a queue, and while the
    radio does not disturb it everything arrives. *)
From Stdlib Require Import ZArith Lia.
From stdpp Require Import base decidable list numbers.
From S2P Require Import Prelude.
From S2P Require Import BleConn.
From S2P Require Import BleConnLink.

#[local] Open Scope Z_scope.

(** ** What has arrived is the beginning of what was sent *)

Lemma flight_prefix s c : queue_ok s c → in_flight c `prefix_of` unacked c.
Proof.
  intros (Hemp & Hq). unfold in_flight. destruct (conn_txq c) as [|q rest] eqn:Eq; [apply prefix_nil|].
  rewrite (unacked_cons c q rest Eq). apply prefix_app_r. unfold flight_of.
  destruct (BLE_IS_RETRY_M _) eqn:Hr; [|apply prefix_nil]. destruct Hq as (Hh & _).
  destruct q as [|m]; cbn [queue_item head_ok] in *.
  - destruct Hemp as (_ & _ & _ & Hp). destruct Hh as (_ & nesn & md & Hh).
    unfold fragment. rewrite Hp, Hh. cbn [Z.to_nat]. rewrite take_0. change 3 with BLE_LL_DATA_HDR_LLID_MASK.
    rewrite hdr_llid by (by left). apply prefix_nil.
  - destruct Hh as [Hh|[Hh|Hh]]; [by rewrite fresh_no_retry in Hr by auto..|].
    pose proof (left_flight s m _ Hh eq_refl) as Hs. unfold flight_of in Hs. rewrite Hr in Hs.
    destruct (_ <=? _); [by rewrite Hs|]. destruct Hs as (-> & _). by apply prefix_app_r.
Qed.

Lemma accepted_prefix X Y sent : dir_ok X Y sent → accepted Y `prefix_of` sent.
Proof.
  intros [(s & e & _ & _ & Hq & _ & acked & -> & Hc)].
  destruct (eqb s e); destruct Hc as (-> & _); [by apply prefix_app_r|]. apply prefix_app. by eapply flight_prefix.
Qed.
Lemma received_prefix X Y sent : dir_ok X Y sent → received Y `prefix_of` sent.
Proof. intros Hd. etrans; [|by eapply accepted_prefix]. by apply prefix_app_r. Qed.

(** The abstract link: a queue of items, of which the ones delivered are a beginning. *)
Inductive fifo_step : list item * list item → list item * list item → Prop :=
| fifo_send new s r : fifo_step (s, r) (s ++ new, r)
| fifo_deliver got s r : r ++ got `prefix_of` s → fifo_step (s, r) (s, r ++ got).

(** What the side [b] has been given to send, and what the other side has passed on of it. *)
Definition stream (L : link) (b : bool) : list item * list item := (sent L b, received (nodes L (negb b))).

Lemma fifo_stay s r : fifo_step (s, r) (s, r).
Proof. rewrite <-(app_nil_r s) at 2. constructor. Qed.

Lemma received_same n n' : passed_on n' = passed_on n → received n' = received n.
Proof. unfold received. by intros ->. Qed.

(** A step of the side [b] in the two directions. *)
Lemma stream_side L b X' sx' a :
  (∃ new, sx' = sent L b ++ new) →
  (received X' = received (nodes L b) ∨
   sx' = sent L b ∧ (∃ got, received X' = received (nodes L b) ++ got) ∧ received X' `prefix_of` sent L (negb b)) →
  ∀ b', fifo_step (stream L b') (stream (mk_link (set_side b X' (nodes L)) a (set_side b sx' (sent L))) b').
Proof.
  intros (new & Hs) Hr b'. unfold stream. cbn. destruct (side_cases b b') as [->| ->].
  - rewrite set_side_eq, set_side_ne, Hs. constructor.
  - rewrite set_side_ne, negb_involutive, set_side_eq. destruct Hr as [->|(_ & (got & Hg) & Hp)]; [apply fifo_stay|].
    rewrite Hg in *. by constructor.
Qed.

Lemma set_side_id {A} b (f : bool → A) b' : set_side b (f b) f b' = f b'.
Proof. by destruct (side_cases b b') as [->| ->]; rewrite ?set_side_eq, ?set_side_ne. Qed.

Lemma stream_node L b X' a :
  (received X' = received (nodes L b) ∨
   (∃ got, received X' = received (nodes L b) ++ got) ∧ received X' `prefix_of` sent L (negb b)) →
  ∀ b', fifo_step (stream L b') (stream (set_air a (set_node b X' L)) b').
Proof.
  intros Hr b'.
  assert (fifo_step (stream L b') (stream (mk_link (set_side b X' (nodes L)) a (set_side b (sent L b) (sent L))) b')) as H.
  { apply stream_side; [exists []; by rewrite app_nil_r|]. destruct Hr as [|[? ?]]; [by left|by right]. }
  unfold stream in *. cbn in *. by rewrite set_side_id in H.
Qed.

Lemma tx_pkt_in_passed q : ∀ n, passed_on (foldl tx_pkt_in_one n q) = passed_on n.
Proof.
  induction q as [|pkt q IH]; intros n; cbn [foldl]; [done|]. rewrite IH.
  unfold tx_pkt_in_one, ble_ll_conn_tx_pkt_in. destruct (_ || _); [done|]. by destruct (ble_ll_conn_find_active_conn _ _).
Qed.

Lemma link_step_stream tpu L L' : link_ok L → link_step tpu L L' → ∀ b, fifo_step (stream L b) (stream L' b).
Proof.
  intros [Hp Ha] Hst. destruct Hst.
  - apply (stream_node L b _ (air L)). by left.
  - apply (stream_side L b _ _ (air L)); [by eexists|left]. apply received_same. unfold ble_ll_tx_pkt_in. by rewrite tx_pkt_in_passed.
  - apply (stream_side L b _ _ (air L)); [by eexists|by left].
  - apply stream_node. left. apply received_same.
    destruct (pair_event_start tpu now rc rx_rc _ _ _ _ r n (pair_sym _ _ _ _ (Hp b)) H) as (_ & Hpo & _). done.
  - apply (stream_node L b _ (air L)). left. apply received_same. unfold ble_ll_conn_rx_isr_start.
    by destruct (g_ble_ll_conn_cur_sm _).
  - rewrite H in Ha. apply stream_node. left. apply received_same.
    by destruct (rx_end_ok tpu now rc (nodes L (negb b)) (nodes L b) (sent L (negb b)) (sent L b) (bytes ++ stale) true rssi endt r n)
      as (_ & Hpo & _); [by apply pair_sym|done|by exists bytes, stale|done|].
  - apply stream_node. left. apply received_same.
    by destruct (rx_end_ok tpu now rc (nodes L (negb b)) (nodes L b) (sent L (negb b)) (sent L b) buf false rssi endt r n)
      as (_ & Hpo & _); [by apply pair_sym|done|done|done|].
  - intros b. apply fifo_stay.
  - apply (stream_node L b _ (air L)). left. apply received_same. unfold ble_ll_conn_wfr_timer_exp.
    by destruct (g_ble_ll_conn_cur_sm _).
  - apply (stream_node L b _ (air L)). by left.
  - apply (stream_node L b _ (air L)). by left.
  - apply (stream_node L b _ (air L)). right.
    destruct (pair_sym _ _ _ _ (Hp b)) as (H1 & _ & _ & Hwf & _). pose proof (accepted_prefix _ _ _ H1) as Hpre.
    destruct H1 as [(s & e & _ & _ & _ & Hg & _)].
    destruct (rx_pkt_in_ok tpu now (nodes L b) _ Hg Hwf eq_refl) as (_ & _ & _ & -> & _). split; [by eexists|done].
  - apply (stream_node L b _ (air L)). by left.
  - apply (stream_node L b _ (air L)). by left.
Qed.

(** C4. Over a radio that loses and corrupts frames, whatever the controllers and their tasks
    do in whatever order, each direction of a connection behaves like a queue: every step
    adds to what is sent or delivers the next items of it, so that what has been delivered is
    the beginning of what was sent: nothing is lost, repeated, reordered or altered. *)
Theorem ble_link_refines_queue tpu L0 L :
  new_link L0 → link_reachable tpu L0 L →
  (∀ b, (stream L b).2 `prefix_of` (stream L b).1) ∧
  ∀ L', link_step tpu L L' → ∀ b, fifo_step (stream L b) (stream L' b).
Proof.
  intros H0 Hr. pose proof (link_reachable_ok tpu L0 L H0 Hr) as HL. split.
  - intros b. destruct (lk_pair L HL b) as (Hd & _). by eapply received_prefix.
  - intros L' Hst. by eapply link_step_stream.
Qed.

(** ** Undisturbed exchanges *)

(** What an exchange does not change. *)
Definition role_of (c : ble_ll_conn) : conn_role_t * Z := (conn_role c, pending_ctrl_procs (mgmt c)).

Lemma role_write_head m c : role_of (write_head m c) = role_of c.
Proof. unfold role_of. destruct (write_head_frame m c) as (_ & _ & _ & _ & _ & -> & ->). done. Qed.

Lemma role_tx tpu now rc n r n' :
  ble_ll_conn_tx_data_pdu tpu now rc n = (r, n') → role_of (nd_conn n') = role_of (nd_conn n).
Proof.
  unfold ble_ll_conn_tx_data_pdu. destruct (tx_prepare tpu now (nd_conn n)) as [[[[c1 m] h] md] em] eqn:Ep.
  assert (role_of c1 = role_of (nd_conn n)) as E.
  { unfold tx_prepare in Ep. destruct (conn_txq (nd_conn n)); [by injection Ep as <- _ _ _ _|].
    destruct (tx_choose _ _) as [[? ?] ?]. by injection Ep as <- _ _ _ _. }
  destruct (rc =? 0); intros [= <- <-].
  - match goal with |- role_of (nd_conn (count_tx ?a ?b ?c)) = _ => rewrite (proj1 (count_tx_frame a b c)) end.
    rewrite <-E. match goal with |- context [write_head ?x c1] => exact (role_write_head x c1) end.
  - rewrite <-E. match goal with |- context [write_head ?x c1] => exact (role_write_head x c1) end.
Qed.

Lemma role_acked c : role_of (rx_acked c).2 = role_of c.
Proof.
  unfold rx_acked. destruct (conn_txq c) as [|q rest]; [done|].
  destruct (ble_ll_ctrl_is_terminate_ind _ _); [done|].
  set (c0 := if _ && _ then _ else c). assert (role_of c0 = role_of c) as E by (subst c0; by destruct (_ && _)).
  destruct (tx_omp_len _ <=? _); cbn [snd].
  - destruct (ble_ll_conn_is_l2cap_pdu _); rewrite <-E;
      match goal with |- context [write_head ?x c0] => exact (role_write_head x c0) end.
  - rewrite <-E. match goal with |- context [write_head ?x c0] => exact (role_write_head x c0) end.
Qed.

Lemma role_crc_good p n : role_of (nd_conn (rx_crc_good p n).2) = role_of (nd_conn n).
Proof.
  unfold rx_crc_good. set (n1 := upd_conn _ n). set (n2 := rx_check_sn _ n1).
  assert (role_of (nd_conn n2) = role_of (nd_conn n)) as E2 by (subst n2; unfold rx_check_sn; by destruct (seq_match _ _)).
  destruct (rx_check_nesn _ n2) as [t n3] eqn:E3.
  assert (role_of (nd_conn n3) = role_of (nd_conn n)) as E.
  { rewrite <-E2. unfold rx_check_nesn in E3. destruct (pdu_txd _); [|by injection E3 as <- <-].
    destruct (seq_match _ _); [by injection E3 as <- <-|].
    match type of E3 with context [rx_acked ?c] => pose proof (role_acked c) as Ea; destruct (rx_acked c) as [t' c'] end.
    by injection E3 as <- <-. }
  destruct t; [done|]. destruct (ble_ll_ctrl_is_terminate_ind _ _); [done|]. by destruct (is_master _).
Qed.

Lemma role_reply tpu now rc p reply n : role_of (nd_conn (rx_reply tpu now rc p reply n).2) = role_of (nd_conn n).
Proof.
  unfold rx_reply. destruct reply as [[|]|]; [|done..]. destruct (_ && _); [|done].
  destruct (ble_ll_conn_tx_data_pdu tpu now rc n) as [r n'] eqn:E. by apply role_tx in E.
Qed.

Lemma role_rx_pdus tpu now q : ∀ n, role_of (nd_conn (foldl (rx_pkt_in_one tpu now) n q)) = role_of (nd_conn n).
Proof.
  induction q as [|p q IH]; intros n; cbn [foldl]; [done|]. rewrite IH.
  unfold rx_pkt_in_one, ble_ll_conn_rx_data_pdu. destruct (rx_crcok p); [|done].
  destruct (ble_ll_conn_find_active_conn _ _) as [c|]; [|done]. destruct (_ || _); [done|].
  destruct (negb (_ =? _)); [|by destruct (_ && _)].
  match goal with |- role_of (nd_conn (rx_new_pdu ?c ?p ?l ?x ?m)) = _ => rewrite (proj1 (new_pdu_frame c p l x m)) end.
  by destruct (_ && _).
Qed.

(** Neither does it end the connection, unless a TERMINATE_IND is acknowledged or received. *)
Lemma over_tx tpu now rc n r n' :
  ble_ll_conn_tx_data_pdu tpu now rc n = (r, n') → conn_over (nd_conn n') = conn_over (nd_conn n).
Proof.
  unfold ble_ll_conn_tx_data_pdu. destruct (tx_prepare tpu now (nd_conn n)) as [[[[c1 m] h] md] em] eqn:Ep.
  assert (csmflags c1 = csmflags (nd_conn n)) as E.
  { unfold tx_prepare in Ep. destruct (conn_txq (nd_conn n)); [by injection Ep as <- _ _ _ _|].
    destruct (tx_choose _ _) as [[? ?] ?]. by injection Ep as <- _ _ _ _. }
  assert (∀ x, csmflags (write_head x c1) = csmflags (nd_conn n)) as Ew.
  { intros x. rewrite <-E. apply write_head_frame. }
  unfold conn_over. destruct (rc =? 0); intros [= <- <-].
  - match goal with |- context [nd_conn (count_tx ?a ?b ?c)] => rewrite (proj1 (count_tx_frame a b c)) end. cbn. by rewrite Ew.
  - cbn. by rewrite Ew.
Qed.

Lemma over_acked c c' : rx_acked c = (false, c') → conn_over c' = conn_over c.
Proof.
  unfold rx_acked. destruct (conn_txq c) as [|q rest]; [by intros [= <-]|].
  destruct (ble_ll_ctrl_is_terminate_ind _ _); [done|].
  set (c0 := if _ && _ then _ else c). assert (conn_over c0 = conn_over c) as E by (subst c0; by destruct (_ && _)).
  assert (∀ x, conn_over (write_head x c0) = conn_over c) as Ew.
  { intros x. rewrite <-E. unfold conn_over. by rewrite (proj1 (proj2 (write_head_frame x c0))). }
  destruct (tx_omp_len _ <=? _); intros [= <-]; [|apply Ew].
  destruct (ble_ll_conn_is_l2cap_pdu _); exact (Ew _).
Qed.

Lemma over_crc_good p n reply n3 :
  rx_crc_good p n = (reply, n3) → reply ≠ None →
  ble_ll_ctrl_is_terminate_ind (byte_at (rx_buf p) 0) (byte_at (rx_buf p) 2) = false →
  conn_over (nd_conn n3) = conn_over (nd_conn n).
Proof.
  unfold rx_crc_good. set (n1 := upd_conn _ n). set (n2 := rx_check_sn _ n1). intros Hr Hne Hti. rewrite Hti in Hr.
  assert (conn_over (nd_conn n2) = conn_over (nd_conn n)) as E2 by (subst n2; unfold rx_check_sn; by destruct (seq_match _ _)).
  destruct (rx_check_nesn _ n2) as [[|] n2'] eqn:E3; [by injection Hr as <- <-|].
  assert (conn_over (nd_conn n2') = conn_over (nd_conn n)) as E.
  { rewrite <-E2. unfold rx_check_nesn in E3. destruct (pdu_txd _); [|by injection E3 as <-].
    destruct (seq_match _ _); [by injection E3 as <-|].
    match type of E3 with context [rx_acked ?c] => destruct (rx_acked c) as [t c'] eqn:Ea end.
    injection E3 as -> <-. exact (over_acked _ _ Ea). }
  destruct (is_master _); by injection Hr as <- <-.
Qed.

Lemma over_reply tpu now rc p reply n : conn_over (nd_conn (rx_reply tpu now rc p reply n).2) = conn_over (nd_conn n).
Proof.
  unfold rx_reply. destruct reply as [[|]|]; [|done..]. destruct (_ && _); [|done].
  destruct (ble_ll_conn_tx_data_pdu tpu now rc n) as [r n'] eqn:E. by apply over_tx in E.
Qed.

Lemma over_rx_pdus tpu now q : ∀ n, conn_over (nd_conn (foldl (rx_pkt_in_one tpu now) n q)) = conn_over (nd_conn n).
Proof.
  induction q as [|p q IH]; intros n; cbn [foldl]; [done|]. rewrite IH.
  unfold rx_pkt_in_one, ble_ll_conn_rx_data_pdu. destruct (rx_crcok p); [|done].
  destruct (ble_ll_conn_find_active_conn _ _) as [c|]; [|done]. destruct (_ || _); [done|].
  destruct (negb (_ =? _)); [|by destruct (_ && _)].
  match goal with |- conn_over (nd_conn (rx_new_pdu ?c ?p ?l ?x ?m)) = _ => rewrite (proj1 (new_pdu_frame c p l x m)) end.
  by destruct (_ && _).
Qed.

Definition is_pkt (q : txq_item) : Prop := q ≠ Empty_pdu.
(** The empty PDU is sent only when there is nothing else. *)
Definition clean (c : ble_ll_conn) : Prop :=
  match conn_txq c with Empty_pdu :: _ => unacked c = [] | _ => True end.

Lemma clean_pkts c : Forall is_pkt (conn_txq c) → clean c.
Proof. unfold clean. by destruct 1 as [|[|m] ? Hp]. Qed.

Lemma acked_pkts s c t c' :
  queue_ok s c → head_sent c → rx_acked c = (t, c') → Forall is_pkt (conn_txq c').
Proof.
  intros (Hemp & Hq) Hh. unfold rx_acked, head_sent in *.
  destruct (conn_txq c) as [|q rest] eqn:Eq; [done|]. destruct Hq as (_ & Hrest).
  assert (Forall is_pkt rest) as Hr.
  { clear -Hrest. induction Hrest as [|? ? (m & -> & _)]; by constructor. }
  destruct (ble_ll_ctrl_is_terminate_ind _ _); [by intros [= <- <-]|].
  set (c0 := if _ && _ then _ else c).
  assert (conn_txq c0 = q :: rest) as E0 by (subst c0; by destruct (_ && _)).
  destruct (tx_omp_len _ <=? _) eqn:Ele; intros [= <- <-].
  - by destruct (ble_ll_conn_is_l2cap_pdu _).
  - unfold write_head. rewrite E0. destruct q as [|m].
    + destruct Hemp as (He1 & _ & He3 & He4). cbn [queue_item] in Ele.
      change (tx_omp_len (set_info _ (conn_empty_pdu c))) with (tx_omp_len (conn_empty_pdu c)) in Ele.
      by rewrite He1, He3, He4 in Ele.
    + by constructor.
Qed.

(** Sending when the radio is ready. *)
Lemma tx_ready tpu now n r n' s e :
  queue_ok s (nd_conn n) → conn_wf (nd_conn n) →
  tx_seqnum (ack (nd_conn n)) = Z.b2z s → next_exp_seqnum (ack (nd_conn n)) = Z.b2z e →
  ble_ll_conn_tx_data_pdu tpu now 0 n = (r, n') →
  txr_rc r = 0 ∧ (∃ bytes, txr_air r = Some bytes) ∧ g_ble_ll_conn_cur_sm n' = g_ble_ll_conn_cur_sm n.
Proof.
  intros Hq Hwf Hs He. unfold ble_ll_conn_tx_data_pdu.
  destruct (tx_prepare tpu now (nd_conn n)) as [[[[c1 m] h] md] em]. cbn [Z.eqb].
  intros [= <- <-]. split_and!; [done|by eexists|]. unfold count_tx. destruct em; [done|]. by case_match.
Qed.

Lemma tx_clean tpu now rc n r n' s e :
  queue_ok s (nd_conn n) → conn_wf (nd_conn n) →
  tx_seqnum (ack (nd_conn n)) = Z.b2z s → next_exp_seqnum (ack (nd_conn n)) = Z.b2z e →
  ble_ll_conn_tx_data_pdu tpu now rc n = (r, n') → clean (nd_conn n) → clean (nd_conn n').
Proof.
  intros Hq Hwf Hs He Htx. pose proof (tx_ok tpu now rc n s e r n' Hq Hwf Hs He Htx) as T.
  unfold clean. rewrite (te_unacked _ _ _ _ _ T). clear T. unfold ble_ll_conn_tx_data_pdu in Htx.
  destruct (tx_prepare tpu now (nd_conn n)) as [[[[c1 m] h] md] em] eqn:Ep.
  assert (∀ x, match conn_txq (nd_conn n) with Empty_pdu :: _ => unacked (nd_conn n) = [] | _ => True end →
    match conn_txq (write_head x c1) with Empty_pdu :: _ => unacked (nd_conn n) = [] | _ => True end) as Hw.
  { intros x Hc. unfold tx_prepare in Ep. destruct (conn_txq (nd_conn n)) as [|q rest] eqn:Eq.
    - assert (unacked (nd_conn n) = []) as -> by (unfold unacked; by rewrite Eq). by repeat case_match.
    - destruct (tx_choose _ _) as [[? ?] ?]. injection Ep as <- _ _ _ _. unfold write_head. rewrite Eq.
      destruct q; [|done]. cbn. by rewrite Eq. }
  destruct (rc =? 0); injection Htx as <- <-.
  - match goal with |- context [nd_conn (count_tx ?a ?b ?c)] => rewrite (proj1 (count_tx_frame a b c)) end. apply Hw.
  - apply Hw.
Qed.

(** The packet at the head of the queue ends the connection. *)
Definition head_terminates (c : ble_ll_conn) : Prop :=
  match conn_txq c with
  | [] => False
  | q :: _ => ble_ll_ctrl_is_terminate_ind (ti_hdr_byte (tx_info (queue_item c q))) (byte_at (tx_data (queue_item c q)) 0) = true
  end.

Lemma acked_terminates c c' : rx_acked c = (true, c') → head_terminates c.
Proof.
  unfold rx_acked, head_terminates. destruct (conn_txq c) as [|q rest]; [done|].
  destruct (ble_ll_ctrl_is_terminate_ind _ _); [done|]. by destruct (tx_omp_len _ <=? _).
Qed.

(** The sequence number of the sender when it is told that the other side expects [ex]. *)
Lemma check_nesn_seq hdr n t n' ex sy :
  Z.land hdr BLE_LL_DATA_HDR_NESN_MASK = (if ex : bool then 4 else 0) → tx_seqnum (ack (nd_conn n)) = Z.b2z sy →
  rx_check_nesn hdr n = (t, n') →
  role_of (nd_conn n') = role_of (nd_conn n) ∧ g_ble_ll_conn_cur_sm n' = g_ble_ll_conn_cur_sm n ∧
  (eqb sy ex = false → pdu_txd (csmflags (nd_conn n)) = true → queue_ok sy (nd_conn n) → head_sent (nd_conn n) →
     tx_seqnum (ack (nd_conn n')) = Z.b2z ex ∧ Forall is_pkt (conn_txq (nd_conn n'))) ∧
  (t = true → eqb sy ex = false ∧ head_terminates (nd_conn n)).
Proof.
  intros Hnesn Hsy En. destruct (check_nesn_ok _ _ _ _ _ Hnesn En) as (_ & _ & _ & R3). specialize (R3 sy Hsy).
  unfold rx_check_nesn in En. rewrite Hsy, Hnesn, seq_match_spec in En by done.
  destruct (pdu_txd (csmflags (nd_conn n))) eqn:Ep; [|by injection En as <- <-].
  destruct (eqb ex sy) eqn:Ees.
  { apply eqb_prop in Ees as ->. injection En as <- <-. by rewrite eqb_reflx. }
  assert (eqb sy ex = false) as Ese by (by destruct sy, ex). rewrite Ese in *. cbn [orb negb] in R3.
  match type of En with context [rx_acked ?c] => set (c1 := c) in En end.
  pose proof (role_acked c1) as Ra. destruct (rx_acked c1) as [t' c'] eqn:Ea.
  set (n1 := if decide _ then _ else _) in En.
  assert (g_ble_ll_conn_cur_sm n1 = g_ble_ll_conn_cur_sm n) as Ecur by (subst n1; by destruct (decide _)).
  injection En as <- <-. split; [exact Ra|]. split; [exact Ecur|]. split.
  - intros _ _ Hq Hh. destruct R3 as (_ & Hs). split; [rewrite Hs; by destruct sy, ex|].
    exact (acked_pkts sy c1 t' c' Hq Hh Ea).
  - intros ->. split; [done|]. exact (acked_terminates c1 c' Ea).
Qed.

(** The sequence numbers across the handler, and the reply of a slave. *)
Lemma crc_good_seq p n reply n3 s ex e sy :
  Z.land (byte_at (rx_buf p) 0) BLE_LL_DATA_HDR_SN_MASK = sn_bit s →
  Z.land (byte_at (rx_buf p) 0) BLE_LL_DATA_HDR_NESN_MASK = (if ex : bool then 4 else 0) →
  next_exp_seqnum (ack (nd_conn n)) = Z.b2z e → tx_seqnum (ack (nd_conn n)) = Z.b2z sy →
  rx_crc_good p n = (reply, n3) →
  next_exp_seqnum (ack (nd_conn n3)) = Z.b2z (negb s) ∧ g_ble_ll_conn_cur_sm n3 = g_ble_ll_conn_cur_sm n ∧
  (eqb sy ex = false → pdu_txd (csmflags (nd_conn n)) = true → queue_ok sy (nd_conn n) → head_sent (nd_conn n) →
     tx_seqnum (ack (nd_conn n3)) = Z.b2z ex ∧ Forall is_pkt (conn_txq (nd_conn n3))) ∧
  (reply = None → eqb sy ex = false ∧ head_terminates (nd_conn n)) ∧
  (is_slave (nd_conn n) = true → reply = None ∨ reply = Some true).
Proof.
  intros Hsn Hnesn He Hsy Hr. unfold rx_crc_good in Hr. set (n1 := upd_conn _ n) in Hr.
  destruct (check_sn_ok (byte_at (rx_buf p) 0) n1 s e Hsn He) as (S1 & _ & _ & _ & _ & S6).
  assert (role_of (nd_conn (rx_check_sn (byte_at (rx_buf p) 0) n1)) = role_of (nd_conn n) ∧
          g_ble_ll_conn_cur_sm (rx_check_sn (byte_at (rx_buf p) 0) n1) = g_ble_ll_conn_cur_sm n) as (Srole & Scur).
  { unfold rx_check_sn. by destruct (seq_match _ _). }
  set (n2 := rx_check_sn _ n1) in *. destruct (rx_check_nesn _ n2) as [t n2'] eqn:En.
  assert (same_tx n n2) as Ht by exact S1. destruct (same_tx_stream n n2 Ht) as (_ & _ & Eh & Eq).
  destruct Ht as (T1 & T2 & T3 & T4 & _).
  destruct (check_nesn_seq _ _ _ _ _ sy Hnesn ltac:(by rewrite T3) En) as (N1 & N2 & N3 & N4). rewrite T4 in N3.
  destruct (check_nesn_ok _ _ _ _ _ Hnesn En) as ((_ & _ & _ & R1) & _).
  assert (next_exp_seqnum (ack (nd_conn n2')) = Z.b2z (negb s)) as Enext by (rewrite R1, S6; by destruct s, e).
  assert (head_terminates (nd_conn n2) → head_terminates (nd_conn n)) as Hht.
  { unfold head_terminates, queue_item. by rewrite T1, T2. }
  assert (is_slave (nd_conn n) = true → is_master (nd_conn n2') = false) as Hm.
  { injection N1 as E1 _. injection Srole as E2 _. unfold is_slave, is_master. rewrite E1, E2.
    by destruct (conn_role (nd_conn n)). }
  destruct t; [injection Hr as <- <-|].
  { split; [done|]. split; [congruence|]. split; [auto|].
    split; [|by left]. intros _. destruct (N4 eq_refl). auto. }
  destruct (ble_ll_ctrl_is_terminate_ind _ _); [injection Hr as <- <-|].
  { split; [done|]. split; [cbn; congruence|]. split; [auto|]. split; [done|by right]. }
  destruct (is_master (nd_conn n2')) eqn:Em; injection Hr as <- <-;
    (split; [done|]; split; [congruence|]; split; [auto|]; split; [done|]); [intros Hsl; by specialize (Hm Hsl)|by right].
Qed.

Lemma air_frame s e X bytes p :
  queue_ok s (nd_conn X) → in_air (nd_conn X) e bytes → rx_buf p = bytes →
  Z.land (byte_at (rx_buf p) 0) BLE_LL_DATA_HDR_SN_MASK = sn_bit s ∧
  Z.land (byte_at (rx_buf p) 0) BLE_LL_DATA_HDR_NESN_MASK = (if e then 4 else 0).
Proof.
  intros Hq (q & rest & Eq & Hr & Hb & Hn & _) ->.
  destruct (frame_shape s (nd_conn X) q rest bytes Hq Eq Hr Hb) as (llid & nesn & md & bs & Hl & -> & Hh & _).
  rewrite Hh in Hn. split; [by apply hdr_sn|done].
Qed.

(** A TERMINATE_IND at the head of the queue is part of what was sent. *)
Lemma terminates_unacked s c :
  queue_ok s c → head_sent c → head_terminates c → ∃ bs, It_ctrl (BLE_LL_CTRL_TERMINATE_IND :: bs) ∈ unacked c.
Proof.
  unfold head_sent, head_terminates. intros (Hemp & Hq) Hh Ht. destruct (conn_txq c) as [|q rest] eqn:Eq; [done|].
  destruct Hq as (Hhd & _). rewrite (unacked_cons c q rest Eq). destruct q as [|m]; cbn [queue_item head_ok] in *.
  - destruct Hhd as (_ & nesn & md & Hhd). rewrite Hhd in Ht.
    by rewrite (proj1 (no_ctrl_ind 1 s nesn md _ ltac:(by left) ltac:(done))) in Ht.
  - destruct Hhd as [Hhd|[Hhd|Hhd]]; [by rewrite fresh_no_retry in Hh by auto..|].
    pose proof (length_payload m (proj1 Hhd)) as Hlen.
    destruct Hhd as ((_ & Hw & _) & _ & _ & _ & llid & Hl & (_ & nesn & md & Hhdr) & H3). rewrite Hhdr in Ht.
    destruct (decide (llid = 3)) as [->|Hn]; [|by rewrite (proj1 (no_ctrl_ind llid s nesn md _ Hl Hn)) in Ht].
    unfold ble_ll_ctrl_is_terminate_ind in Ht. apply andb_true_iff in Ht as (_ & Ht%Z.eqb_eq).
    destruct (H3 eq_refl) as (Ho & _). unfold left_of, next_llid. rewrite Hh, Hhdr, Ho. cbn [orb Z.to_nat].
    change 3 with BLE_LL_DATA_HDR_LLID_MASK at 1. rewrite hdr_llid by done. rewrite drop_0.
    unfold payload in *. destruct (tx_data m) as [|d ds]; [rewrite take_nil in Hlen; cbn in Hlen; lia|].
    cbn in Ht. subst d. destruct (Z.to_nat (tx_om_len m)) as [|k] eqn:Ek; [lia|]. exists (take k ds). by left.
Qed.

(** No TERMINATE_IND has been given to be sent. *)
Definition quiet (l : list item) : Prop := ∀ bs, It_ctrl (BLE_LL_CTRL_TERMINATE_IND :: bs) ∉ l.

Lemma quiet_head X Y sx : quiet sx → dir_ok X Y sx → head_sent (nd_conn X) → ¬ head_terminates (nd_conn X).
Proof.
  intros Hno [(s & e & _ & _ & Hq & _ & acked & Hsent & _)] Hh Ht.
  destruct (terminates_unacked s _ Hq Hh Ht) as (bs & Hin). apply (Hno bs). rewrite Hsent. apply elem_of_app. by right.
Qed.

(** A frame that is a TERMINATE_IND is the head of the queue of its sender. *)
Lemma air_terminates s e c bytes :
  queue_ok s c → in_air c e bytes → ble_ll_ctrl_is_terminate_ind (byte_at bytes 0) (byte_at bytes 2) = true →
  head_sent c ∧ head_terminates c.
Proof.
  intros Hq (q & rest & Eq & Hr & -> & _) Ht. unfold head_sent, head_terminates. rewrite Eq. split; [done|].
  destruct Hq as (Hemp & Hq). rewrite Eq in Hq. destruct Hq as (Hhd & _).
  destruct q as [|m]; cbn [queue_item head_ok] in *.
  - destruct Hhd as (_ & nesn & md & Hhd). cbn in Ht. rewrite Hhd in Ht.
    by rewrite (proj1 (no_ctrl_ind 1 s nesn md _ ltac:(by left) ltac:(done))) in Ht.
  - destruct Hhd as [Hhd|[Hhd|Hhd]]; [by rewrite fresh_no_retry in Hr by auto..|].
    destruct Hhd as ((_ & Hw & _) & _ & Hp & _ & llid & Hl & (_ & nesn & md & Hhdr) & H3).
    unfold byte_at in Ht. cbn [phy_tx_bytes lookup list_lookup default] in Ht. rewrite Hhdr in *.
    destruct (decide (llid = 3)) as [->|Hn]; [|by rewrite (proj1 (no_ctrl_ind llid s nesn md _ Hl Hn)) in Ht].
    destruct (H3 eq_refl) as (Ho & Hpl). rewrite Ho, Hpl in Ht. cbn [Z.to_nat] in Ht. rewrite drop_0 in Ht.
    destruct (Z.to_nat (tx_om_len m)) as [|k] eqn:Ek; [lia|]. unfold byte_at.
    by destruct (tx_data m).
Qed.

(** A frame that arrives intact: the receiver expects the next one, and a sender that is told so
    moves on.  A slave replies, and nothing ends the connection, as no TERMINATE_IND is sent. *)
Lemma arrive_seq tpu now X Y sx sy bytes rssi endt r Y' s ex ty :
  pair_ok X Y sx sy → quiet sx → quiet sy → g_ble_ll_conn_cur_sm Y = true →
  next_exp_seqnum (ack (nd_conn X)) = Z.b2z ex → in_air (nd_conn X) ex bytes →
  tx_seqnum (ack (nd_conn X)) = Z.b2z s → tx_seqnum (ack (nd_conn Y)) = Z.b2z ty →
  ble_ll_rx_end tpu now 0 (access_addr (mgmt (nd_conn Y))) (mk_rx bytes 0 true 0 rssi endt) Y = (r, Y') →
  next_exp_seqnum (ack (nd_conn Y')) = Z.b2z (negb s) ∧ role_of (nd_conn Y') = role_of (nd_conn Y) ∧
  conn_over (nd_conn Y') = conn_over (nd_conn Y) ∧
  (eqb ty ex = false → pdu_txd (csmflags (nd_conn Y)) = true → head_sent (nd_conn Y) →
     tx_seqnum (ack (nd_conn Y')) = Z.b2z ex ∧ clean (nd_conn Y')) ∧
  (is_slave (nd_conn Y) = true → Z.testbit (pending_ctrl_procs (mgmt (nd_conn Y))) BLE_LL_CTRL_PROC_TERMINATE = false →
   ∃ f, txr_air r = Some f).
Proof.
  intros Hp Hqx Hqy Hcur Hex Hair Hs Hty Hrx.
  destruct (rx_end_parts tpu now 0 X Y sx sy bytes true rssi endt r Y' Hp Hcur) as
    (p & n & reply & n3 & n4 & (Hbuf & En & Hcn & Hg & Hp3 & Hrep & Ec) & _); [|done|].
  { intros _. exists bytes, []. rewrite app_nil_r. split; [by exists ex|done]. }
  pose proof Hp as (H1 & H2 & _). pose proof (queue_ok_of X Y sx s H1 Hs) as HqX.
  pose proof (queue_ok_of Y X sy ty H2 Hty) as HqY.
  destruct (air_frame s ex X bytes p HqX Hair Hbuf) as (Hsn & Hnesn).
  assert (reply ≠ None ∧ conn_over (nd_conn n3) = conn_over (nd_conn Y)) as (Hreply & Hover).
  { pose proof H1 as [(? & e & _ & He & _)].
    destruct (crc_good_seq p n reply n3 s ex e ty Hsn Hnesn) as (_ & _ & _ & Q4 & _); [by rewrite En..|done|].
    assert (reply ≠ None) as Hne.
    { intros E. destruct (Q4 E) as (Ene & Hht). rewrite En in Hht. apply (quiet_head Y X sy Hqy H2); [|exact Hht].
      pose proof H2 as [(sy0 & ey0 & Et & Ee & _ & _ & ? & _ & Hc)].
      assert (sy0 = ty) as -> by (apply Z.b2z_inj; congruence). assert (ey0 = ex) as -> by (apply Z.b2z_inj; congruence).
      rewrite Ene in Hc. apply Hc. }
    split; [done|]. rewrite <-En. apply (over_crc_good p n reply n3 Hg Hne).
    destruct (ble_ll_ctrl_is_terminate_ind _ _) eqn:Et; [|done]. rewrite Hbuf in Et.
    destruct (air_terminates s ex (nd_conn X) bytes HqX Hair Et) as (Hh & Ht).
    by destruct (quiet_head X Y sx Hqx H1 Hh Ht). }
  destruct H1 as [(? & e & _ & He & _)].
  destruct (crc_good_seq p n reply n3 s ex e ty Hsn Hnesn) as (Q1 & _ & Q3 & _ & Q4); [by rewrite En..|done|].
  pose proof (role_crc_good p n) as Q5. rewrite Hg in Q5. cbn [snd] in Q5. rewrite En in Q3, Q4, Q5.
  pose proof (role_reply tpu now 0 p reply n3) as Q6. rewrite Hrep in Q6. cbn [snd] in Q6.
  destruct (set_anchors_same tpu p n4 _ eq_refl) as ((A1 & A2 & A3 & _) & (_ & _ & _ & A4) & _).
  cbn [upd_conn nd_conn] in A1, A2, A3, A4. rewrite <-Ec in A1, A2, A3, A4.
  assert (role_of (nd_conn Y') = role_of (nd_conn n4)) as Q7.
  { rewrite Ec. unfold set_anchors. by destruct (slave_set_last_anchor _). }
  (* the reply *)
  destruct Hp3 as (P1 & P2 & _ & P4 & _). pose proof P1 as [(? & e3 & _ & He3 & _)].
  pose proof P2 as [(t3 & ? & Ht3 & _ & Hq3 & _)].
  assert (next_exp_seqnum (ack (nd_conn n4)) = next_exp_seqnum (ack (nd_conn n3)) ∧
          tx_seqnum (ack (nd_conn n4)) = tx_seqnum (ack (nd_conn n3)) ∧ (clean (nd_conn n3) → clean (nd_conn n4))) as (R1 & R2 & R3).
  { unfold rx_reply in Hrep. destruct reply as [[|]|]; [|by injection Hrep as <- <-..].
    destruct (_ && _); [|by injection Hrep as <- <-].
    pose proof (tx_ok tpu now 0 n3 t3 e3 r n4 Hq3 P4 Ht3 He3 Hrep) as T.
    split_and!; [apply T|apply T|]. by eapply tx_clean. }
  split; [by rewrite A4, R1|]. split; [congruence|]. split; [|split].
  - rewrite <-Hover. pose proof (over_reply tpu now 0 p reply n3) as Q8. rewrite Hrep in Q8. cbn [snd] in Q8. rewrite <-Q8.
    rewrite Ec. unfold set_anchors. by destruct (slave_set_last_anchor _).
  - intros Ene Hpd Hhd. destruct (Q3 Ene Hpd HqY Hhd) as (E & Hpk). split; [by rewrite A3, R2|].
    assert (clean (nd_conn n4)) as Hc4 by by apply R3, clean_pkts.
    unfold clean, unacked, queue_item in *. by rewrite A1, A2.
  - intros Hsl Hpend. destruct (Q4 Hsl) as [-> | ->]; [done|].
    injection Q5 as E1 E2. unfold rx_reply in Hrep.
    assert (ble_ll_conn_can_send_next_pdu tpu (nd_conn n3) (rx_end_cputime p) && negb (terminate_too_late tpu now (nd_conn n3)) = true) as Ecan.
    { unfold ble_ll_conn_can_send_next_pdu, terminate_too_late, is_master. unfold is_slave in Hsl. rewrite E1, E2, Hpend.
      apply bool_decide_eq_true in Hsl. by rewrite Hsl. }
    rewrite Ecan in Hrep. by destruct (tx_ready tpu now n3 r n4 t3 e3 Hq3 P4 Ht3 He3 Hrep) as (_ & ? & _).
Qed.

Lemma reach_trans tpu L0 L L' : link_reachable tpu L0 L → link_reachable tpu L L' → link_reachable tpu L0 L'.
Proof. intros H0. induction 1; [done|by eapply reach_step]. Qed.

Lemma received_mono tpu L L' b :
  link_ok L → link_reachable tpu L L' → received (nodes L (negb b)) `prefix_of` received (nodes L' (negb b)).
Proof.
  intros HL Hr. cut (link_ok L' ∧ received (nodes L (negb b)) `prefix_of` received (nodes L' (negb b))); [by intros []|].
  induction Hr as [|L1 L2 Hr IH Hst]; [done|]. destruct IH as (HL1 & IH).
  split; [by eapply link_step_ok|]. etrans; [exact IH|].
  pose proof (link_step_stream tpu L1 L2 HL1 Hst b) as Hf. unfold stream in Hf.
  inversion Hf; subst; [done|]. by apply prefix_app_r.
Qed.

(** An exchange that the radio does not disturb: an event starts on both sides, the frame of
    the master and the answer arrive, the tasks run, and the event ends on both sides. *)
Section exchange.
Variables tpu now : Z.

Definition start (b : bool) (L : link) : link :=
  let '(r, n) := ble_ll_conn_event_start_cb tpu now 0 0 (nodes L b) in
  set_air (if is_master (nd_conn (nodes L b)) then on_air b r else air L) (set_node b n L).
Definition arrive (b : bool) (L : link) : link :=
  match air L with
  | Some (b', bytes) =>
      if eqb b b' then
        let '(r, n) := ble_ll_rx_end tpu now 0 (access_addr (mgmt (nd_conn (nodes L b))))
                         (mk_rx (bytes ++ []) 0 true 0 0 now) (nodes L b) in
        set_air (on_air b r) (set_node b n L)
      else L
  | None => L
  end.
Definition task (b : bool) (L : link) : link := set_node b (ble_ll_rx_pkt_in tpu now (nodes L b)) L.
Definition finish (b : bool) (L : link) : option link := (λ n, set_node b n L) <$> event_end (nodes L b).
Definition radio (L : link) : link :=
  task true (task false (arrive true (arrive false (start true (start false L))))).
(** [None]: the connection ended on one of the sides. *)
Definition exchange (L : link) : option link := L ← finish false (radio L); finish true L.
Definition exchanges (n : nat) (L : link) : option link := Nat.iter n (mbind exchange) (Some L).

Lemma start_step b L : link_step tpu L (start b L).
Proof. unfold start. destruct (ble_ll_conn_event_start_cb _ _ _ _ _) as [r n] eqn:E. by eapply Event_starts. Qed.
Lemma arrive_step b L bytes :
  air L = Some (b, bytes) → g_ble_ll_conn_cur_sm (nodes L b) = true → link_step tpu L (arrive b L).
Proof.
  intros Ha Hc. unfold arrive. rewrite Ha, eqb_reflx. destruct (ble_ll_rx_end _ _ _ _ _ _) as [r n] eqn:E.
  by eapply Frame_arrives.
Qed.
Lemma task_step b L : link_step tpu L (task b L).
Proof. apply Task_takes_pdus. Qed.
Lemma finish_step b L :
  conn_over (nd_conn (nodes L b)) = false →
  finish b L = Some (set_node b (reset_event (nodes L b)) L) ∧ link_step tpu L (set_node b (reset_event (nodes L b)) L).
Proof. intros Ho. unfold finish, event_end. rewrite Ho. split; [done|apply Event_ends]. Qed.

(** The start of an event, at a slave and at a master. *)
Lemma start_slave L :
  conn_role (nd_conn (nodes L false)) = BLE_LL_CONN_ROLE_SLAVE →
  let L' := start false L in
  nodes L' true = nodes L true ∧ sent L' = sent L ∧ g_ble_ll_conn_cur_sm (nodes L' false) = true ∧
  same_tx (nodes L false) (nodes L' false) ∧ same_rx (nodes L false) (nodes L' false) ∧
  role_of (nd_conn (nodes L' false)) = role_of (nd_conn (nodes L false)) ∧
  conn_over (nd_conn (nodes L' false)) = conn_over (nd_conn (nodes L false)).
Proof.
  intros Hr L'. subst L'. unfold start, ble_ll_conn_event_start_cb.
  change (is_master (nd_conn (set_cur_sm true BLE_LL_STATE_CONNECTION (nodes L false)))) with (is_master (nd_conn (nodes L false))).
  assert (is_master (nd_conn (nodes L false)) = false) as -> by (unfold is_master; by rewrite Hr).
  cbn [Z.eqb]. by split_and!.
Qed.

Lemma start_master L s e :
  pair_ok (nodes L true) (nodes L false) (sent L true) (sent L false) →
  conn_role (nd_conn (nodes L true)) = BLE_LL_CONN_ROLE_MASTER →
  tx_seqnum (ack (nd_conn (nodes L true))) = Z.b2z s → next_exp_seqnum (ack (nd_conn (nodes L true))) = Z.b2z e →
  let L' := start true L in
  nodes L' false = nodes L false ∧ sent L' = sent L ∧ g_ble_ll_conn_cur_sm (nodes L' true) = true ∧
  tx_effect s e (nodes L true) (nodes L' true) (mk_txr 0 (snd <$> air L') false) ∧
  (∃ bytes, air L' = Some (false, bytes)) ∧ role_of (nd_conn (nodes L' true)) = role_of (nd_conn (nodes L true)) ∧
  conn_over (nd_conn (nodes L' true)) = conn_over (nd_conn (nodes L true)) ∧
  (clean (nd_conn (nodes L true)) → clean (nd_conn (nodes L' true))).
Proof.
  intros (H1 & _ & Hwf & _) Hr Hs He L'. subst L'. unfold start, ble_ll_conn_event_start_cb.
  change (is_master (nd_conn (set_cur_sm true BLE_LL_STATE_CONNECTION (nodes L true)))) with (is_master (nd_conn (nodes L true))).
  assert (is_master (nd_conn (nodes L true)) = true) as -> by (unfold is_master; by rewrite Hr).
  pose proof (queue_ok_of _ _ _ s H1 Hs) as Hq. set (n0 := set_cur_sm _ _ _).
  destruct (ble_ll_conn_tx_data_pdu tpu now 0 n0) as [r n1] eqn:Et.
  destruct (tx_ok tpu now 0 n0 s e r n1 Hq Hwf Hs He Et) as [T1 T2 T3 T4 T5 T6 T7 T8 T9].
  destruct (tx_ready tpu now n0 r n1 s e Hq Hwf Hs He Et) as (Erc & (bytes & Hb) & Ecur).
  pose proof (role_tx tpu now 0 n0 r n1 Et) as Hrole. pose proof (over_tx tpu now 0 n0 r n1 Et) as Hover.
  pose proof (tx_clean tpu now 0 n0 r n1 s e Hq Hwf Hs He Et) as Hclean.
  rewrite Erc. cbn [Z.eqb]. split; [done|]. split; [done|]. split; [exact Ecur|]. split.
  - split; [exact T1|exact T2|exact T3|exact T4|exact T5|exact T6|exact T7|exact T8|].
    unfold on_air. cbn. rewrite Hb. cbn. intros bytes' [= <-]. exact (T9 bytes Hb).
  - split; [|split; [exact Hrole|split; [exact Hover|exact Hclean]]]. exists bytes. unfold on_air. cbn. by rewrite Hb.
Qed.

(** Nothing ends the connection: neither side has been given a TERMINATE_IND to send or has
    such a procedure pending, and the connection is not over yet. *)
Definition calm (L : link) : Prop :=
  conn_role (nd_conn (nodes L true)) = BLE_LL_CONN_ROLE_MASTER ∧
  conn_role (nd_conn (nodes L false)) = BLE_LL_CONN_ROLE_SLAVE ∧
  ∀ b, Z.testbit (pending_ctrl_procs (mgmt (nd_conn (nodes L b)))) BLE_LL_CTRL_PROC_TERMINATE = false ∧
    conn_over (nd_conn (nodes L b)) = false ∧ quiet (sent L b).

Lemma flight_nonempty s c :
  queue_ok s c → head_sent c → clean c → unacked c ≠ [] → in_flight c ≠ [].
Proof.
  unfold head_sent, clean, in_flight. intros (_ & Hq) Hh Hc Hu.
  destruct (conn_txq c) as [|[|m] rest] eqn:Eq; [done|done|]. cbn [queue_item] in *. destruct Hq as (Hhd & _).
  destruct Hhd as [Hhd|[Hhd|Hhd]]; [by rewrite fresh_no_retry in Hh by auto..|].
  pose proof (length_fragment s m Hhd) as Hlen. destruct Hhd as (_ & _ & Hp & _).
  unfold flight_of. rewrite Hh. unfold frag_items. destruct (_ =? _); [done|].
  destruct (fragment m); [cbn in Hlen; lia|done].
Qed.

Lemma arrive_eq b L bytes r n :
  air L = Some (b, bytes) →
  ble_ll_rx_end tpu now 0 (access_addr (mgmt (nd_conn (nodes L b)))) (mk_rx bytes 0 true 0 0 now) (nodes L b) = (r, n) →
  arrive b L = set_air (on_air b r) (set_node b n L).
Proof. intros Ha Hr. unfold arrive. by rewrite Ha, eqb_reflx, app_nil_r, Hr. Qed.

(** The first half of an exchange: the frame of the master reaches the slave, which answers. *)
Lemma exchange_first L s :
  link_ok L → calm L → tx_seqnum (ack (nd_conn (nodes L true))) = Z.b2z s →
  let L3 := arrive false (start true (start false L)) in
  link_reachable tpu L L3 ∧ link_ok L3 ∧ sent L3 = sent L ∧ (∃ f, air L3 = Some (true, f)) ∧
  g_ble_ll_conn_cur_sm (nodes L3 true) = true ∧
  next_exp_seqnum (ack (nd_conn (nodes L3 false))) = Z.b2z (negb s) ∧
  tx_seqnum (ack (nd_conn (nodes L3 true))) = Z.b2z s ∧
  head_sent (nd_conn (nodes L3 true)) ∧ pdu_txd (csmflags (nd_conn (nodes L3 true))) = true ∧
  unacked (nd_conn (nodes L3 true)) = unacked (nd_conn (nodes L true)) ∧
  (clean (nd_conn (nodes L true)) → clean (nd_conn (nodes L3 true))) ∧
  role_of (nd_conn (nodes L3 true)) = role_of (nd_conn (nodes L true)) ∧
  role_of (nd_conn (nodes L3 false)) = role_of (nd_conn (nodes L false)) ∧
  ∀ b, conn_over (nd_conn (nodes L3 b)) = false.
Proof.
  intros HL Hcalm Hs L3. pose proof Hcalm as (Hm & Hsl & Hq). destruct (Hq false) as (Hpend & Hov & Hqf), (Hq true) as (_ & Hov' & Hqt).
  pose proof (link_step_ok tpu L _ HL (start_step false L)) as HL1.
  destruct (start_slave L Hsl) as (A1 & A2 & A3 & A4 & A5 & A6 & A9). set (L1 := start false L) in *.
  pose proof (lk_pair L1 HL1 true) as Hp1. cbn [negb] in Hp1.
  pose proof Hp1 as (_ & [(ts & e & Hts & He & _)] & _).
  destruct (start_master L1 s e Hp1) as (B1 & B2 & B3 & B4 & (bytes & B5) & B6 & B9 & B7); [by rewrite A1..|done|].
  pose proof (link_step_ok tpu L1 _ HL1 (start_step true L1)) as HL2.
  set (L2 := start true L1) in *. rewrite A1 in B6, B7, B4, B9.
  pose proof (lk_air L2 HL2) as Hair. rewrite B5 in Hair. cbn [negb] in Hair. destruct Hair as (ex & Hex & Hin).
  pose proof (lk_pair L2 HL2 true) as Hp2. cbn [negb] in Hp2.
  assert (g_ble_ll_conn_cur_sm (nodes L2 false) = true) as Hcur by by rewrite B1.
  pose proof (link_step_ok tpu L2 _ HL2 (arrive_step false L2 bytes B5 Hcur)) as HL3.
  destruct (ble_ll_rx_end tpu now 0 (access_addr (mgmt (nd_conn (nodes L2 false)))) (mk_rx bytes 0 true 0 0 now) (nodes L2 false))
    as [r n] eqn:Er.
  assert (L3 = set_air (on_air false r) (set_node false n L2)) as E3 by exact (arrive_eq false L2 bytes r n B5 Er).
  assert (tx_seqnum (ack (nd_conn (nodes L2 true))) = Z.b2z s) as Hs2 by by rewrite (te_seq _ _ _ _ _ B4).
  assert (tx_seqnum (ack (nd_conn (nodes L2 false))) = Z.b2z ts) as Hts2 by by rewrite B1.
  destruct (arrive_seq tpu now _ _ _ _ bytes 0 now r n s ex ts Hp2 ltac:(by rewrite B2, A2) ltac:(by rewrite B2, A2) Hcur
    Hex Hin Hs2 Hts2 Er) as (C1 & C2 & C3 & _ & C4).
  injection A6 as A7 A8.
  destruct C4 as (f & Hf).
  { unfold is_slave. rewrite B1, A7, Hsl. done. }
  { rewrite B1, A8. exact Hpend. }
  destruct Hin as (q & rest & Eq & Hret & _ & _ & Hpd).
  assert (head_sent (nd_conn (nodes L2 true))) as Hh by (unfold head_sent; by rewrite Eq).
  split; [|split; [exact HL3|]].
  - eapply reach_step; [eapply reach_step; [eapply reach_step; [constructor|apply start_step]|apply start_step]|].
    by eapply arrive_step.
  - rewrite E3. cbn. split; [by rewrite B2, A2|]. split; [exists f; unfold on_air; by rewrite Hf|].
    split; [done|]. split; [done|]. split; [done|]. split; [done|]. split; [done|].
    split; [by rewrite (te_unacked _ _ _ _ _ B4)|]. split; [done|]. split; [done|].
    split; [rewrite C2, B1; unfold role_of; by rewrite A7, A8|]. intros []; cbn; [congruence|]. rewrite C3, B1. congruence.
Qed.

(** The other side has what the sender knows to be acknowledged. *)
Definition synced (L : link) : Prop :=
  tx_seqnum (ack (nd_conn (nodes L true))) = next_exp_seqnum (ack (nd_conn (nodes L false))) ∧
  clean (nd_conn (nodes L true)).

Lemma synced_accepted L : link_ok L → synced L → sent L true = accepted (nodes L false) ++ unacked (nd_conn (nodes L true)).
Proof.
  intros HL (Hs & _). destruct (lk_pair L HL true) as ([(s & e & Es & Ee & _ & _ & acked & -> & Hc)] & _).
  cbn [negb] in *. assert (s = e) as -> by (apply Z.b2z_inj; congruence). rewrite eqb_reflx in Hc. by destruct Hc as (-> & _).
Qed.

(** From a synchronised link, the first half of an exchange gets something across. *)
Lemma first_progress L L3 :
  link_ok L → synced L → link_ok L3 → sent L3 = sent L →
  tx_seqnum (ack (nd_conn (nodes L3 true))) = tx_seqnum (ack (nd_conn (nodes L true))) →
  next_exp_seqnum (ack (nd_conn (nodes L3 false))) ≠ tx_seqnum (ack (nd_conn (nodes L3 true))) →
  head_sent (nd_conn (nodes L3 true)) → clean (nd_conn (nodes L3 true)) →
  unacked (nd_conn (nodes L3 true)) = unacked (nd_conn (nodes L true)) → unacked (nd_conn (nodes L true)) ≠ [] →
  (length (accepted (nodes L false)) < length (accepted (nodes L3 false)))%nat.
Proof.
  intros HL Hsy HL3 Esent Eseq Hne Hh Hc Eu Hu. pose proof (synced_accepted L HL Hsy) as Ea.
  destruct (lk_pair L3 HL3 true) as ([(s & e & Es & Ee & Hq & _ & acked & Eacked & Hacc)] & _). cbn [negb] in *.
  destruct (eqb s e) eqn:Ese; [apply eqb_prop in Ese as ->; congruence|]. destruct Hacc as (-> & _).
  rewrite Esent, Ea, Eu in Eacked. apply app_inv_tail in Eacked as <-. rewrite length_app.
  pose proof (flight_nonempty s _ Hq Hh Hc ltac:(by rewrite Eu)). destruct (in_flight _); [done|cbn; lia].
Qed.

Lemma calm_role L L' :
  calm L → sent L' = sent L → role_of (nd_conn (nodes L' false)) = role_of (nd_conn (nodes L false)) →
  role_of (nd_conn (nodes L' true)) = role_of (nd_conn (nodes L true)) →
  (∀ b, conn_over (nd_conn (nodes L' b)) = false) → calm L'.
Proof.
  unfold role_of, calm. intros (H1 & H2 & H3) -> E1 E2 Ho. injection E1 as E11 E12. injection E2 as E21 E22.
  split_and!; [congruence..|]. intros b. destruct (H3 b) as (H4 & _ & H5). split_and!; [|done..].
  destruct b; congruence.
Qed.

Lemma radio_ok L :
  link_ok L → calm L →
  link_reachable tpu L (radio L) ∧ link_ok (radio L) ∧ calm (radio L) ∧ sent (radio L) = sent L ∧
  synced (radio L) ∧ received (nodes (radio L) false) = accepted (nodes (radio L) false) ∧
  (synced L → unacked (nd_conn (nodes L true)) ≠ [] →
   (length (accepted (nodes L false)) < length (accepted (nodes (radio L) false)))%nat).
Proof.
  intros HL Hcalm. pose proof Hcalm as (_ & _ & Hqt). destruct (Hqt true) as (_ & _ & Hq1), (Hqt false) as (_ & _ & Hq2).
  pose proof (lk_pair L HL true) as ([(s & e & Hs & _)] & _).
  destruct (exchange_first L s HL Hcalm Hs) as (D1 & D2 & D3 & (f & D4) & D5 & D6 & D7 & D8 & D9 & D10 & D11 & D12 & D13 & D14).
  unfold radio. set (L3 := arrive false (start true (start false L))) in *.
  pose proof (lk_air L3 D2) as Hair. rewrite D4 in Hair. cbn [negb] in Hair. destruct Hair as (ex & Hex & Hin).
  assert (ex = negb s) as -> by (apply Z.b2z_inj; congruence).
  pose proof (pair_sym _ _ _ _ (lk_pair L3 D2 true)) as Hp3. cbn [negb] in Hp3.
  destruct (ble_ll_rx_end tpu now 0 (access_addr (mgmt (nd_conn (nodes L3 true)))) (mk_rx f 0 true 0 0 now) (nodes L3 true))
    as [r n] eqn:Er.
  pose proof Hp3 as ([(ts & _ & Hts & _)] & _).
  destruct (arrive_seq tpu now _ _ _ _ f 0 now r n ts (negb s) s Hp3 ltac:(by rewrite D3) ltac:(by rewrite D3) D5 Hex Hin Hts D7 Er)
    as (_ & E2 & E6 & E3 & _).
  destruct (E3 ltac:(by destruct s) D9 D8) as (E4 & E5).
  pose proof (link_step_ok tpu L3 _ D2 (arrive_step true L3 f D4 D5)) as HL4.
  assert (arrive true L3 = set_air (on_air true r) (set_node true n L3)) as EL4 by exact (arrive_eq true L3 f r n D4 Er).
  pose proof (arrive_step true L3 f D4 D5) as Hstep4. rewrite EL4 in HL4, Hstep4 |- *.
  set (L4 := set_air (on_air true r) (set_node true n L3)) in *.
  pose proof (link_step_ok tpu L4 _ HL4 (task_step false L4)) as HL5. set (L5 := task false L4) in *.
  pose proof (link_step_ok tpu L5 _ HL5 (task_step true L5)) as HL6. set (L6 := task true L5) in *.
  (* the tasks *)
  destruct (lk_pair L4 HL4 true) as ([(? & ? & _ & _ & _ & Hg4 & _)] & ([(? & ? & _ & _ & _ & Hg4' & _)] & Hw4 & Hw4' & _)).
  cbn [negb] in Hg4, Hg4', Hw4, Hw4'.
  destruct (rx_pkt_in_ok tpu now (nodes L4 false) _ Hg4 Hw4' eq_refl) as (F1 & _ & _ & F4 & F5 & _ & F7).
  destruct (rx_pkt_in_ok tpu now (nodes L4 true) _ Hg4' Hw4 eq_refl) as (_ & _ & _ & _ & _ & _ & G7).
  change (ble_ll_rx_pkt_in tpu now (nodes L4 false)) with (nodes L6 false) in *.
  change (ble_ll_rx_pkt_in tpu now (nodes L4 true)) with (nodes L6 true) in *.
  change (nodes L4 false) with (nodes L3 false) in *. change (nodes L4 true) with n in *.
  assert (role_of (nd_conn (nodes L6 false)) = role_of (nd_conn (nodes L false))) as Hr1.
  { rewrite <-D13. exact (role_rx_pdus tpu now _ (set_rx_q [] (nodes L3 false))). }
  assert (role_of (nd_conn (nodes L6 true)) = role_of (nd_conn (nodes L true))) as Hr2.
  { rewrite <-D12, <-E2. exact (role_rx_pdus tpu now _ (set_rx_q [] n)). }
  assert (∀ b, conn_over (nd_conn (nodes L6 b)) = false) as Hr3.
  { intros []; [transitivity (conn_over (nd_conn n))|transitivity (conn_over (nd_conn (nodes L3 false)))];
      [exact (over_rx_pdus tpu now _ (set_rx_q [] n))|congruence|
       exact (over_rx_pdus tpu now _ (set_rx_q [] (nodes L3 false)))|done]. }
  split; [|split; [exact HL6|split; [|split; [exact D3|split; [|split]]]]].
  - eapply reach_step; [|apply task_step]. eapply reach_step; [|apply task_step]. by eapply reach_step.
  - apply (calm_role L); [done|exact D3|exact Hr1|exact Hr2|exact Hr3].
  - split; [destruct G7 as (_ & _ & -> & _); congruence|].
    destruct G7 as (G1 & G2 & _). unfold clean, unacked, queue_item in *. by rewrite G1, G2.
  - by rewrite F4, F1.
  - intros Hsy Hu. rewrite F1. apply (first_progress L L3 HL Hsy D2 D3); try done; [congruence| |apply D11, Hsy].
    rewrite D6, D7. by destruct s.
Qed.

Lemma exchange_ok L :
  link_ok L → calm L → ∃ L', exchange L = Some L' ∧
  link_reachable tpu L L' ∧ link_ok L' ∧ calm L' ∧ sent L' = sent L ∧
  synced L' ∧ received (nodes L' false) = accepted (nodes L' false) ∧
  (synced L → unacked (nd_conn (nodes L true)) ≠ [] →
   (length (accepted (nodes L false)) < length (accepted (nodes L' false)))%nat).
Proof.
  intros HL Hcalm. destruct (radio_ok L HL Hcalm) as (R1 & R2 & R3 & R4 & R5 & R6 & R7).
  unfold exchange. set (L1 := radio L) in *. pose proof R3 as (_ & _ & Hq).
  destruct (finish_step false L1) as (-> & S1); [apply Hq|]. cbn [mbind option_bind].
  pose proof (link_step_ok tpu L1 _ R2 S1) as HL2. set (L2 := set_node false _ L1) in *.
  destruct (finish_step true L2) as (-> & S2); [apply (Hq true)|].
  eexists. split; [done|]. split; [|split; [by eapply link_step_ok|]].
  - eapply reach_step; [eapply reach_step; [exact R1|exact S1]|exact S2].
  - split; [|by split_and!]. apply (calm_role L1); try done. intros b. pose proof (Hq b) as (_ & Ho & _). by destruct b.
Qed.

Lemma exchanges_ok L n :
  link_ok L → calm L → ∃ L', exchanges n L = Some L' ∧
  link_reachable tpu L L' ∧ link_ok L' ∧ calm L' ∧ sent L' = sent L ∧
  ((0 < n)%nat → synced L' ∧ received (nodes L' false) = accepted (nodes L' false) ∧
     (accepted (nodes L' false) = sent L true ∨ (n <= S (length (accepted (nodes L' false))))%nat)).
Proof.
  intros HL Hc. induction n as [|n IH].
  { exists L. split; [done|]. split; [apply reach_init|]. split; [done|]. split; [done|]. split; [done|]. lia. }
  destruct IH as (Ln & I0 & I1 & I2 & I3 & I4 & I5). unfold exchanges in *. rewrite Nat.iter_succ, I0.
  destruct (exchange_ok Ln I2 I3) as (L' & X0 & X1 & X2 & X3 & X4 & X5 & X6 & X7). exists L'. split; [exact X0|].
  split; [|split; [done|split; [done|split; [congruence|]]]].
  - by eapply reach_trans.
  - intros _. split; [done|]. split; [done|].
    pose proof (synced_accepted _ X2 X5) as Ea. rewrite X4, I4 in Ea.
    destruct n as [|n]; [right; lia|]. destruct (I5 ltac:(lia)) as (Hsy & Erec & Hcount).
    pose proof (synced_accepted _ I2 Hsy) as Eb. rewrite I4 in Eb.
    destruct (unacked (nd_conn (nodes Ln true))) eqn:Eu.
    + left. rewrite app_nil_r in Eb. pose proof (received_mono tpu Ln _ true I2 X1) as Hmono. cbn [negb] in Hmono.
      rewrite Erec, X6, <-Eb in Hmono. apply prefix_length_eq; [|by apply prefix_length].
      rewrite Ea. by apply prefix_app_r.
    + right. specialize (X7 Hsy ltac:(done)). destruct Hcount as [Hall|]; [|lia].
      rewrite Hall in Eb. apply (f_equal length) in Eb. rewrite length_app in Eb. cbn in Eb. lia.
Qed.
End exchange.

(** C6. As long as neither side is told to end the connection, it takes no more undisturbed
    exchanges than there are items, and one, until everything given to the master before has been
    delivered by the slave, in whatever state the link was; and none of the exchanges ends the
    connection. *)
Theorem ble_link_delivers tpu now L0 L n :
  new_link L0 → link_reachable tpu L0 L → calm L → (length (sent L true) < n)%nat →
  ∃ L', exchanges tpu now n L = Some L' ∧
    link_reachable tpu L0 L' ∧ calm L' ∧ sent L' = sent L ∧ received (nodes L' false) = sent L true.
Proof.
  intros H0 Hr Hc Hn. pose proof (link_reachable_ok tpu L0 L H0 Hr) as HL.
  destruct (exchanges_ok tpu now L n HL Hc) as (L' & I0 & I1 & I2 & I3 & I4 & I5). exists L'. split; [done|].
  destruct (I5 ltac:(lia)) as (_ & -> & Hcount). split; [by eapply reach_trans|]. split; [done|]. split; [done|].
  destruct Hcount as [|Hcount]; [done|].
  destruct (lk_pair L' I2 true) as (Hd & _). apply accepted_prefix in Hd. cbn [negb] in Hd. rewrite I4 in Hd.
  apply prefix_length_eq; [done|lia].
Qed.


(** ** An example *)

Module LinkDemo.

Definition L0 : link :=
  mk_link (λ b, LlDemo.node (if b : bool then BLE_LL_CONN_ROLE_MASTER else BLE_LL_CONN_ROLE_SLAVE)) None (λ _, []).
(** The host of the master sends three bytes, which the task takes. *)
Definition L1 : link := set_node true (ble_ll_acl_data_in [1; 0; 3; 0; 104; 105; 33] (nodes L0 true)) L0.
Definition L2 : link :=
  add_sent true (mjoin (acl_items (nodes L1 true) <$> ll_tx_pkt_q (nodes L1 true)))
    (set_node true (ble_ll_tx_pkt_in (nodes L1 true)) L1).
(** The first transmission is lost. *)
Definition L3 : link := set_air None (start 1 0 true L2).
Definition L4 : link := default L3 (exchange 1 0 L3).

Lemma new0 : new_link L0.
Proof.
  split_and!; [| |done|by intros []].
  - split; [done|]. split; [done|]. exists LlDemo.gparams, (LlDemo.zero_conn BLE_LL_CONN_ROLE_MASTER). by split_and!.
  - split; [done|]. split; [done|]. exists LlDemo.gparams, (LlDemo.zero_conn BLE_LL_CONN_ROLE_SLAVE). by split_and!.
Qed.
Lemma reach2 : link_reachable 1 L0 L2.
Proof.
  apply (reach_step 1 L0 L1 L2); [apply (reach_step 1 L0 L0 L1); [apply reach_init|]|].
  - apply (Host_sends 1 L0 true). apply Nat.ltb_lt. by vm_compute.
  - apply (Task_takes_packets 1 L1 true).
Qed.
Lemma reach3 : link_reachable 1 L0 L3.
Proof. eapply reach_step; [eapply reach_step; [exact reach2|apply start_step]|apply Frame_is_lost]. Qed.
Lemma calm_demo L : conn_role (nd_conn (nodes L true)) = BLE_LL_CONN_ROLE_MASTER →
  conn_role (nd_conn (nodes L false)) = BLE_LL_CONN_ROLE_SLAVE →
  (∀ b, pending_ctrl_procs (mgmt (nd_conn (nodes L b))) = 0 ∧ conn_over (nd_conn (nodes L b)) = false ∧
    forallb (λ i, if i is It_byte _ _ then true else false) (sent L b) = true) → calm L.
Proof.
  intros H1 H2 H3. split; [done|]. split; [done|]. intros b. destruct (H3 b) as (-> & Ho & Hf).
  split; [done|]. split; [done|]. intros bs Hin. rewrite forallb_forall in Hf. by apply list_elem_of_In, Hf in Hin.
Qed.
Lemma calm3 : calm L3.
Proof. by apply calm_demo; [vm_compute..|intros []; vm_compute]. Qed.
Lemma reach4 : link_reachable 1 L0 L4.
Proof.
  eapply reach_trans; [exact reach3|].
  destruct (exchange_ok 1 0 L3) as (L' & E & Hr & _); [apply (link_reachable_ok 1 L0 L3 new0 reach3)|exact calm3|].
  unfold L4. by rewrite E.
Qed.

End LinkDemo.

Lemma ble_link_refines_queue_witness :
  stream LinkDemo.L4 true = ([It_byte true 104; It_byte false 105; It_byte false 33],
                             [It_byte true 104; It_byte false 105; It_byte false 33]) ∧
  ∀ b, (stream LinkDemo.L4 b).2 `prefix_of` (stream LinkDemo.L4 b).1.
Proof.
  split; [vm_compute; reflexivity|].
  exact (proj1 (ble_link_refines_queue 1 LinkDemo.L0 LinkDemo.L4 LinkDemo.new0 LinkDemo.reach4)).
Defined.

Lemma ble_link_delivers_witness :
  (∃ L', exchanges 1 0 4 LinkDemo.L3 = Some L' ∧ received (nodes L' false) = sent LinkDemo.L3 true) ∧
  length (sent LinkDemo.L3 true) = 3%nat.
Proof.
  split; [|vm_compute; reflexivity].
  destruct (ble_link_delivers 1 0 LinkDemo.L0 LinkDemo.L3 4 LinkDemo.new0 LinkDemo.reach3) as (L' & E & _ & _ & _ & H);
    [exact LinkDemo.calm3|vm_compute; lia|].
  exists L'. split; [exact E|exact H].
Defined.
