(* ===== verification/BleConnChan.v ===== *)
(** The channels of a connection: which data channel an event uses, and where the choice and
    other parts of ble_ll_conn.c go wrong. *)
From Stdlib Require Import ZArith Lia.
From stdpp Require Import base decidable list numbers.
From S2P Require Import Prelude.
From S2P Require Import BleConn.

#[local] Open Scope Z_scope.

(** ** The channel map *)

(** The bits of a channel map, channel 0 first, and the channels in use. *)
Definition map_bits (chmap : list Z) : list bool := mjoin (mask_bits <$> chmap).
Definition ones (bits : list bool) : Z := foldr (λ b n, (if b : bool then 1 else 0) + n) 0 bits.
(** A map of the 37 data channels. *)
Definition chmap_ok (chmap : list Z) : Prop :=
  ∃ b0 b1 b2 b3 b4, chmap = [b0; b1; b2; b3; b4] ∧ is_byte b0 ∧ is_byte b1 ∧ is_byte b2 ∧ is_byte b3 ∧ 0 <= b4 < 32.
Definition chan_used (chmap : list Z) (c : Z) : bool := default false (map_bits chmap !! Z.to_nat c).

Lemma ones_cons b bits : ones (b :: bits) = (if b then 1 else 0) + ones bits.
Proof. done. Qed.
Lemma ones_app l1 l2 : ones (l1 ++ l2) = ones l1 + ones l2.
Proof. induction l1 as [|b l1 IH]; [done|]. cbn [app]. rewrite !ones_cons, IH. lia. Qed.
Lemma ones_bound bits : 0 <= ones bits <= Z.of_nat (length bits).
Proof. induction bits as [|b bits IH]; [done|]. rewrite ones_cons. cbn [length]. destruct b; lia. Qed.
Lemma length_mask_bits b : length (mask_bits b) = 8%nat.
Proof. done. Qed.
Lemma mask_bits_0 : ones (mask_bits 0) = 0.
Proof. done. Qed.
Lemma mask_bits_ff : ones (mask_bits 0xff) = 8.
Proof. done. Qed.

Lemma count_bits bits : ∀ used,
  0 <= used → used + ones bits < 256 →
  foldl (λ used bit, if bit : bool then u8 (used + 1) else used) used bits = used + ones bits.
Proof.
  induction bits as [|b bits IH]; intros used H0 H; cbn [foldl]; [cbn; lia|].
  rewrite ones_cons in *. pose proof (ones_bound bits). destruct b; [rewrite u8_small by lia|]; rewrite IH by lia; lia.
Qed.

Lemma count_byte_ok used b : 0 <= used < 248 → count_byte used b = used + ones (mask_bits b).
Proof.
  intros. unfold count_byte. pose proof (ones_bound (mask_bits b)) as Hb. rewrite length_mask_bits in Hb.
  destruct (Z.eqb_spec b 0) as [->|]; [rewrite mask_bits_0; lia|].
  destruct (Z.eqb_spec b 0xff) as [->|]; [rewrite mask_bits_ff, u8_small by lia; lia|].
  apply count_bits; lia.
Qed.

Lemma count_bytes_ok chmap : ∀ used,
  0 <= used → used + 8 * Z.of_nat (length chmap) < 256 →
  foldl count_byte used chmap = used + ones (map_bits chmap).
Proof.
  induction chmap as [|b chmap IH]; intros used H0 H; cbn [foldl]; [cbn; lia|].
  cbn [length] in H. change (map_bits (b :: chmap)) with (mask_bits b ++ map_bits chmap). rewrite ones_app.
  pose proof (ones_bound (mask_bits b)) as Hb. rewrite length_mask_bits in Hb.
  rewrite count_byte_ok by lia. rewrite IH by lia. lia.
Qed.

(** The number of channels in use is counted. *)
Lemma calc_used_chans_ok chmap : (length chmap <= 31)%nat → ble_ll_conn_calc_used_chans chmap = ones (map_bits chmap).
Proof. intros. unfold ble_ll_conn_calc_used_chans. rewrite count_bytes_ok by lia. lia. Qed.

(** The search for the [r]-th channel in use finds its index, not the channel. *)
Lemma remap_bits_inr r v bits : foldl (remap_bit r) (inr v) bits = inr v.
Proof. induction bits; [done|]. cbn. done. Qed.
Lemma remap_bits r bits : ∀ c,
  0 <= c <= r → r < 255 →
  foldl (remap_bit r) (inl c) bits = if r <? c + ones bits then inr r else inl (c + ones bits).
Proof.
  induction bits as [|b bits IH]; intros c Hc Hr; cbn [foldl].
  - cbn. rewrite (proj2 (Z.ltb_ge _ _)) by lia. f_equal. lia.
  - rewrite ones_cons. pose proof (ones_bound bits). destruct b; cbn [remap_bit].
    + destruct (Z.eqb_spec c r) as [->|].
      * rewrite remap_bits_inr. by rewrite (proj2 (Z.ltb_lt _ _)) by lia.
      * rewrite u8_small by lia. rewrite IH by lia. by replace (c + 1 + ones bits) with (c + (1 + ones bits)) by lia.
    + by rewrite IH by lia.
Qed.

Lemma remap_bytes r chmap : ∀ c,
  0 <= c <= r → r < 255 →
  foldl (remap_byte r) (inl c) chmap = if r <? c + ones (map_bits chmap) then inr r else inl (c + ones (map_bits chmap)).
Proof.
  induction chmap as [|b chmap IH]; intros c Hc Hr; cbn [foldl].
  - cbn. rewrite (proj2 (Z.ltb_ge _ _)) by lia. f_equal. lia.
  - change (map_bits (b :: chmap)) with (mask_bits b ++ map_bits chmap). rewrite ones_app.
    pose proof (ones_bound (mask_bits b)). pose proof (ones_bound (map_bits chmap)).
    assert (remap_byte r (inl c) b = if r <? c + ones (mask_bits b) then inr r else inl (c + ones (mask_bits b))) as ->.
    { unfold remap_byte. destruct (Z.eqb_spec b 0) as [->|]; [|by apply remap_bits].
      rewrite mask_bits_0, (proj2 (Z.ltb_ge _ _)) by lia. f_equal. lia. }
    destruct (Z.ltb_spec r (c + ones (mask_bits b))).
    + rewrite (proj2 (Z.ltb_lt _ _)) by lia. clear IH. induction chmap as [|b' chmap IH']; [done|]. cbn.
      unfold remap_byte at 2. destruct (b' =? 0); [|rewrite remap_bits_inr]; apply IH'; apply ones_bound.
    + rewrite IH by lia. by replace (c + ones (mask_bits b) + ones (map_bits chmap))
        with (c + (ones (mask_bits b) + ones (map_bits chmap))) by lia.
Qed.

(** ** The channel of an event *)

(** Channel [last] plus the hop, modulo 37 - except that 37 stays 37. *)
Definition next_unmapped (last hop : Z) : Z := if 37 <? last + hop then last + hop - 37 else last + hop.

Lemma land_pow2 b j : 0 <= j → (Z.land b (2 ^ j) =? 0) = negb (Z.testbit b j).
Proof.
  intros Hj. destruct (Z.testbit b j) eqn:E; cbn.
  - apply Z.eqb_neq. intros H. assert (Z.testbit (Z.land b (2 ^ j)) j = true) as Ht.
    { by rewrite Z.land_spec, E, Z.pow2_bits_true. }
    by rewrite H, Z.bits_0 in Ht.
  - apply Z.eqb_eq. apply Z.bits_inj_0. intros i. rewrite Z.land_spec, Z.pow2_bits_eqb by done.
    destruct (Z.eqb_spec j i) as [->|]; [by rewrite E|by rewrite andb_false_r].
Qed.

(** The test of the channel map. *)
Lemma chan_test chmap c :
  chmap_ok chmap → 0 <= c <= 37 →
  (Z.land (byte_at chmap (Z.to_nat (Z.shiftr c 3))) (u8 (Z.shiftl 1 (Z.land c 0x07))) =? 0) = negb (chan_used chmap c).
Proof.
  intros (b0 & b1 & b2 & b3 & b4 & -> & _) Hc. rewrite <-(Z2Nat.id c) by lia.
  assert (Z.to_nat c < 38)%nat as Hn by lia. generalize dependent (Z.to_nat c). clear c Hc. intros n Hn.
  do 8 (destruct n as [|n]; [match goal with |- context [Z.of_nat ?k] => exact (land_pow2 b0 (Z.of_nat k) ltac:(lia)) end|]).
  do 8 (destruct n as [|n]; [match goal with |- context [Z.of_nat ?k] => exact (land_pow2 b1 (Z.of_nat k - 8) ltac:(lia)) end|]).
  do 8 (destruct n as [|n]; [match goal with |- context [Z.of_nat ?k] => exact (land_pow2 b2 (Z.of_nat k - 16) ltac:(lia)) end|]).
  do 8 (destruct n as [|n]; [match goal with |- context [Z.of_nat ?k] => exact (land_pow2 b3 (Z.of_nat k - 24) ltac:(lia)) end|]).
  do 6 (destruct n as [|n]; [match goal with |- context [Z.of_nat ?k] => exact (land_pow2 b4 (Z.of_nat k - 32) ltac:(lia)) end|]).
  lia.
Qed.

Lemma chan_used_37 chmap : chmap_ok chmap → chan_used chmap 37 = false.
Proof.
  intros (b0 & b1 & b2 & b3 & b4 & -> & _ & _ & _ & _ & Hb). unfold chan_used, map_bits. cbn -[Z.testbit].
  apply Z.bits_above_log2; [lia|]. destruct (decide (b4 = 0)) as [->|]; [done|]. apply Z.log2_lt_pow2; lia.
Qed.

Lemma next_unmapped_bound last hop : 0 <= last <= 37 → 0 <= hop < 32 → 0 <= next_unmapped last hop <= 37.
Proof. intros. unfold next_unmapped. destruct (Z.ltb_spec 37 (last + hop)); lia. Qed.

(** The channel of the next event, whatever the map of the channels in use. *)
Lemma calc_dci_ok k c :
  chmap_ok (chanmap k) → num_used_chans k = ones (map_bits (chanmap k)) → 0 < num_used_chans k →
  0 <= last_unmapped_chan k <= 37 → 0 <= hop_inc k < 32 → c = next_unmapped (last_unmapped_chan k) (hop_inc k) →
  ble_ll_conn_calc_dci k =
    (if chan_used (chanmap k) c then c else c mod num_used_chans k,
     mk_cchan (chanmap k) (hop_inc k) (data_chan_index k) c (last_unmapped_chan k) (num_used_chans k)).
Proof.
  intros Hm Hnum Hpos Hlast Hhop Hc. pose proof (next_unmapped_bound _ _ Hlast Hhop) as Hb. rewrite <-Hc in Hb.
  unfold ble_ll_conn_calc_dci, BLE_PHY_NUM_DATA_CHANS. rewrite (u8_small (_ + _)) by lia.
  assert ((if 37 <? last_unmapped_chan k + hop_inc k then u8 (last_unmapped_chan k + hop_inc k - 37)
           else last_unmapped_chan k + hop_inc k) = c) as ->.
  { subst c. unfold next_unmapped. destruct (Z.ltb_spec 37 (last_unmapped_chan k + hop_inc k)); [by rewrite u8_small by lia|done]. }
  rewrite chan_test by done. destruct (chan_used (chanmap k) c); cbn [negb]; [done|].
  pose proof (Z.mod_pos_bound c (num_used_chans k) Hpos) as Hmod.
  assert (c mod num_used_chans k <= c) by (apply Z.mod_le; lia).
  rewrite u8_small by lia. rewrite remap_bytes by lia. rewrite <-Hnum. by rewrite (proj2 (Z.ltb_lt _ _)) by lia.
Qed.

(** ** The rule of the specification *)

(** The data channels in use, in ascending order. *)
Definition used_channels (chmap : list Z) : list Z := List.filter (chan_used chmap) (seqZ 0 37).

(** The channel of an event: the unmapped one if it is in use, else the one at its remapping
    index among those in use. *)
Definition channel_rule (chmap : list Z) (last hop : Z) : option Z :=
  let c := (last + hop) mod 37 in
  if chan_used chmap c then Some c
  else used_channels chmap !! Z.to_nat (c mod Z.of_nat (length (used_channels chmap))).

Lemma ones_filter bits :
  ones bits = Z.of_nat (length (List.filter (λ c, default false (bits !! Z.to_nat c)) (seqZ 0 (Z.of_nat (length bits))))).
Proof.
  induction bits as [|b bits IH] using rev_ind; [done|].
  rewrite ones_app, IH, length_app. cbn [length].
  replace (Z.of_nat (length bits + 1)) with (Z.of_nat (length bits) + 1) by lia.
  rewrite seqZ_app, List.filter_app, length_app, Nat2Z.inj_add by lia. f_equal.
  - f_equal. f_equal. apply List.filter_ext_in. intros c Hc%list_elem_of_In%elem_of_seqZ.
    rewrite lookup_app_l; [done|lia].
  - rewrite seqZ_cons, (seqZ_nil _ (Z.pred 1)), Z.add_0_l by lia. cbn [List.filter ones foldr].
    rewrite Nat2Z.id, lookup_app_r, Nat.sub_diag by lia. by destruct b.
Qed.

Lemma chan_used_high chmap c : chmap_ok chmap → 37 <= c < 40 → chan_used chmap c = false.
Proof.
  intros (b0 & b1 & b2 & b3 & b4 & -> & _ & _ & _ & _ & Hb) Hc.
  assert (∀ j, 5 <= j → Z.testbit b4 j = false) as Ht.
  { intros j Hj. destruct (decide (b4 = 0)) as [->|]; [apply Z.bits_0|].
    apply Z.bits_above_log2; [lia|]. assert (Z.log2 b4 < 5) by (apply Z.log2_lt_pow2; lia). lia. }
  assert (c = 37 ∨ c = 38 ∨ c = 39) as [->|[->| ->]] by lia;
    unfold chan_used, map_bits; cbn -[Z.testbit]; by apply Ht.
Qed.

(** The number of channels in use. *)
Lemma length_used_channels chmap :
  chmap_ok chmap → Z.of_nat (length (used_channels chmap)) = ones (map_bits chmap).
Proof.
  intros Hm. rewrite ones_filter.
  assert (length (map_bits chmap) = 40%nat) as -> by (by destruct Hm as (? & ? & ? & ? & ? & -> & _)).
  change (Z.of_nat 40) with (37 + 3). rewrite seqZ_app, List.filter_app, length_app by lia.
  change (List.filter _ (seqZ (0 + 37) 3)) with (List.filter (chan_used chmap) [37; 38; 39]).
  cbn [List.filter]. rewrite !chan_used_high by (done || lia). cbn [length].
  unfold used_channels, chan_used. lia.
Qed.

Lemma filter_seqZ_low (P : Z → bool) n : ∀ a i x,
  List.filter P (seqZ a (Z.of_nat n)) !! i = Some x → a + Z.of_nat i <= x.
Proof.
  induction n as [|n IH]; intros a i x; [done|].
  rewrite Nat2Z.inj_succ, seqZ_cons by lia. rewrite Z.pred_succ. cbn [List.filter].
  destruct (P a); [destruct i as [|i]; cbn; [intros [= ->]; lia|]|]; intros H%IH; lia.
Qed.

(** The element at index [r] is the [r]-th number if and only if none up to it is left out. *)
Lemma filter_index (P : Z → bool) n : ∀ a r,
  0 <= r → List.filter P (seqZ a (Z.of_nat n)) !! Z.to_nat r = Some (a + r) ↔
  r < Z.of_nat n ∧ ∀ j, 0 <= j <= r → P (a + j) = true.
Proof.
  induction n as [|n IH]; intros a r Hr; [split; [done|lia]|].
  rewrite Nat2Z.inj_succ, seqZ_cons by lia. rewrite Z.pred_succ. cbn [List.filter].
  destruct (P a) eqn:E.
  - destruct (decide (r = 0)) as [->|].
    { cbn. rewrite Z.add_0_r. split; [|done]. intros _. split; [lia|]. intros j Hj.
      by replace (a + j) with a by lia. }
    replace (Z.to_nat r) with (S (Z.to_nat (r - 1))) by lia. cbn [lookup list_lookup].
    replace (a + r) with (Z.succ a + (r - 1)) by lia. rewrite IH by lia.
    split; intros [Hn HP]; (split; [lia|]); intros j Hj.
    + destruct (decide (j = 0)) as [->|]; [by rewrite Z.add_0_r|].
      replace (a + j) with (Z.succ a + (j - 1)) by lia. apply HP. lia.
    + replace (Z.succ a + j) with (a + (j + 1)) by lia. apply HP. lia.
  - split.
    + intros H%filter_seqZ_low. lia.
    + intros [_ HP]. specialize (HP 0). rewrite Z.add_0_r in HP. rewrite HP in E; [done|lia].
Qed.

(** C40. The channel of an event for every map of the data channels: it is always a data
    channel; the unmapped one is the sum of the previous one and the hop, modulo 37, except
    that 37 is not taken to 0; and the channel is the one the rule of the specification gives
    if and only if the unmapped one is in use or no channel up to the remapping index is
    excluded, since the search returns the index and not the channel it finds there.  When the
    sum is 37 the event uses the channel 37 modulo the number of channels in use. *)
Theorem ble_event_channel k :
  chmap_ok (chanmap k) → num_used_chans k = ble_ll_conn_calc_used_chans (chanmap k) →
  0 < num_used_chans k → 0 <= last_unmapped_chan k <= 37 → 0 <= hop_inc k < 32 →
  let '(dci, k') := ble_ll_conn_calc_dci k in
  let c := unmapped_chan k' in
  let sum := last_unmapped_chan k + hop_inc k in
  0 <= dci < 37 ∧ 0 <= c <= 37 ∧ c mod 37 = sum mod 37 ∧ (c = 37 ↔ sum = 37) ∧
  (sum = 37 → dci = 37 mod num_used_chans k) ∧
  (sum ≠ 37 →
   channel_rule (chanmap k) (last_unmapped_chan k) (hop_inc k) = Some dci ↔
   chan_used (chanmap k) c = true ∨ ∀ j, 0 <= j <= dci → chan_used (chanmap k) j = true).
Proof.
  intros Hm Hnum Hpos Hlast Hhop. rewrite calc_used_chans_ok in Hnum
    by (destruct Hm as (? & ? & ? & ? & ? & -> & _); cbn; lia).
  pose proof (next_unmapped_bound _ _ Hlast Hhop) as Hb.
  rewrite (calc_dci_ok k _ Hm Hnum Hpos Hlast Hhop eq_refl). cbn [unmapped_chan].
  assert (next_unmapped (last_unmapped_chan k) (hop_inc k) mod 37 = (last_unmapped_chan k + hop_inc k) mod 37) as Hmod.
  { unfold next_unmapped. destruct (Z.ltb_spec 37 (last_unmapped_chan k + hop_inc k)); [|done].
    by rewrite <-(Z.mod_add _ 1 37), Z.mul_1_l, Z.sub_add. }
  assert (next_unmapped (last_unmapped_chan k) (hop_inc k) = 37 ↔ last_unmapped_chan k + hop_inc k = 37) as H37.
  { unfold next_unmapped. destruct (Z.ltb_spec 37 (last_unmapped_chan k + hop_inc k)); lia. }
  set (c := next_unmapped _ _) in *. rewrite <-length_used_channels in Hnum by done.
  assert (num_used_chans k <= 37) as Hmax.
  { rewrite Hnum. unfold used_channels. pose proof (List.filter_length_le (chan_used (chanmap k)) (seqZ 0 37)) as Hle.
    change (length (seqZ 0 37)) with 37%nat in Hle. lia. }
  pose proof (Z.mod_pos_bound c (num_used_chans k) Hpos) as Hr.
  assert (0 <= (if chan_used (chanmap k) c then c else c mod num_used_chans k) < 37) as Hdci.
  { destruct (chan_used (chanmap k) c) eqn:E; [|lia].
    destruct (decide (c = 37)) as [Hc|]; [|lia]. by rewrite Hc, chan_used_37 in E. }
  refine (conj Hdci (conj Hb (conj Hmod (conj H37 (conj _ _))))).
  - intros Hsum%H37. rewrite Hsum, chan_used_37 by done. done.
  - intros Hsum. assert (c ≠ 37) by tauto. unfold channel_rule. rewrite <-Hmod, (Z.mod_small c) by lia.
    destruct (chan_used (chanmap k) c) eqn:E; [by split; [left|]|].
    rewrite <-Hnum. change (seqZ 0 37) with (seqZ 0 (Z.of_nat 37)). unfold used_channels.
    pose proof (filter_index (chan_used (chanmap k)) 37 0 (c mod num_used_chans k) ltac:(lia)) as Hf.
    rewrite Z.add_0_l in Hf. change (Z.of_nat 37) with 37 in Hf. rewrite Hf. split.
    + intros [_ HP]. by right.
    + intros [|HP]; [done|]. split; [lia|]. exact HP.
Qed.

(** Channels 0 to 7 excluded: the hop of 5 from channel 0 is remapped to channel 5, which is
    excluded too. *)
Lemma ble_event_channel_witness :
  let k := mk_cchan [0; 0xff; 0xff; 0xff; 0x1f] 5 0 0 0 29 in
  (ble_ll_conn_calc_dci k).1 = 5 ∧
  (channel_rule (chanmap k) 0 5 = Some 5 ↔
   chan_used (chanmap k) 5 = true ∨ ∀ j, 0 <= j <= 5 → chan_used (chanmap k) j = true) ∧
  channel_rule (chanmap k) 0 5 = Some 13.
Proof.
  intros k. split; [by vm_compute|]. split; [|by vm_compute].
  pose proof (ble_event_channel k) as H.
  destruct H as (_ & _ & _ & _ & _ & H); [..|exact (H ltac:(by vm_compute))].
  - exists 0, 0xff, 0xff, 0xff, 0x1f. unfold is_byte. split_and!; try done; lia.
  - by vm_compute.
  - by vm_compute.
  - by vm_compute.
  - by vm_compute.
Defined.

(** ** Hopping over all channels *)

Definition full_map : list Z := [0xff; 0xff; 0xff; 0xff; 0x1f].

Lemma full_map_used c : 0 <= c < 37 → chan_used full_map c = true.
Proof.
  intros Hc. rewrite <-(Z2Nat.id c) by lia. assert (Z.to_nat c < 37)%nat as Hn by lia.
  generalize dependent (Z.to_nat c). clear c Hc. intros n Hn. do 37 (destruct n as [|n]; [done|]). lia.
Qed.
Lemma full_map_ok : chmap_ok full_map.
Proof. exists 255, 255, 255, 255, 31. unfold is_byte. split_and!; try done; lia. Qed.

(** One event with all channels in use. *)
Lemma next_channel_full k :
  chanmap k = full_map → num_used_chans k = 37 → 0 <= unmapped_chan k <= 37 → 0 <= hop_inc k < 32 →
  let k' := next_channel k in
  chanmap k' = full_map ∧ num_used_chans k' = 37 ∧ hop_inc k' = hop_inc k ∧ 0 <= unmapped_chan k' <= 37 ∧
  unmapped_chan k' mod 37 = (unmapped_chan k + hop_inc k) mod 37 ∧
  data_chan_index k' = (unmapped_chan k + hop_inc k) mod 37.
Proof.
  intros Hm Hn Hu Hh. pose proof (next_unmapped_bound _ _ Hu Hh) as Hb. unfold next_channel.
  rewrite (calc_dci_ok (mk_cchan (chanmap k) (hop_inc k) (data_chan_index k) (unmapped_chan k) (unmapped_chan k) (num_used_chans k))
    (next_unmapped (unmapped_chan k) (hop_inc k))); cbn [chanmap num_used_chans last_unmapped_chan hop_inc unmapped_chan data_chan_index];
    rewrite ?Hm, ?Hn; try done; [|apply full_map_ok].
  assert (next_unmapped (unmapped_chan k) (hop_inc k) mod 37 = (unmapped_chan k + hop_inc k) mod 37) as E.
  { unfold next_unmapped. destruct (Z.ltb_spec 37 (unmapped_chan k + hop_inc k)); [|done].
    replace (unmapped_chan k + hop_inc k - 37) with (unmapped_chan k + hop_inc k + (-1) * 37) by lia. by rewrite Z.mod_add. }
  split_and!; try done; try lia. rewrite <-E. set (c := next_unmapped _ _) in *.
  destruct (decide (c = 37)) as [->|]; [by rewrite chan_used_37 by apply full_map_ok|].
  rewrite full_map_used by lia. by rewrite Z.mod_small by lia.
Qed.

Lemma next_channels_full n : ∀ k,
  chanmap k = full_map → num_used_chans k = 37 → 0 <= unmapped_chan k <= 37 → 0 <= hop_inc k < 32 →
  let k' := next_channels (S n) k in
  chanmap k' = full_map ∧ num_used_chans k' = 37 ∧ hop_inc k' = hop_inc k ∧ 0 <= unmapped_chan k' <= 37 ∧
  unmapped_chan k' mod 37 = (unmapped_chan k + Z.of_nat (S n) * hop_inc k) mod 37 ∧
  data_chan_index k' = (unmapped_chan k + Z.of_nat (S n) * hop_inc k) mod 37.
Proof.
  intros k Hm Hk Hu Hh. unfold next_channels. induction n as [|n IH].
  - replace (Z.of_nat 1 * hop_inc k) with (hop_inc k) by lia. by apply next_channel_full.
  - rewrite Nat.iter_succ. destruct IH as (I1 & I2 & I3 & I4 & I5 & _). set (kn := Nat.iter (S n) next_channel k) in *.
    destruct (next_channel_full kn I1 I2 I4) as (J1 & J2 & J3 & J4 & J5 & J6); [by rewrite I3|].
    assert ((unmapped_chan kn + hop_inc kn) mod 37 = (unmapped_chan k + Z.of_nat (S (S n)) * hop_inc k) mod 37) as E.
    { rewrite Z.add_mod, I5, I3, <-Z.add_mod by done. f_equal. lia. }
    rewrite E in J5, J6. split_and!; try done; [congruence|lia..].
Qed.

Lemma hop_coprime h : 0 < h < 37 → Z.gcd 37 h = 1.
Proof.
  intros Hh. rewrite <-(Z2Nat.id h) by lia. assert (0 < Z.to_nat h < 37)%nat as Hn by lia.
  generalize dependent (Z.to_nat h). clear h Hh. intros n Hn. do 37 (destruct n as [|n]; [done || lia|]). lia.
Qed.

(** C31. With all 37 data channels in use, the channel after n events is the first one plus n hops,
    modulo 37, and each of the 37 channels is used once in 37 successive events. *)
Theorem ble_hops_over_all_channels k n :
  chanmap k = full_map → num_used_chans k = 37 → 0 <= unmapped_chan k <= 37 → 0 < hop_inc k < 32 → (0 < n)%nat →
  data_chan_index (next_channels n k) = (unmapped_chan k + Z.of_nat n * hop_inc k) mod 37 ∧
  NoDup ((λ i, data_chan_index (next_channels (n + i) k)) <$> seq 0 37) ∧
  ∀ c, 0 <= c < 37 → c ∈ (λ i, data_chan_index (next_channels (n + i) k)) <$> seq 0 37.
Proof.
  intros Hm Hk Hu Hh Hn.
  assert (∀ i, (0 < i)%nat → data_chan_index (next_channels i k) = (unmapped_chan k + Z.of_nat i * hop_inc k) mod 37) as Hval.
  { intros [|i] Hi; [lia|]. destruct (next_channels_full i k Hm Hk Hu ltac:(lia)) as (_ & _ & _ & _ & _ & H). exact H. }
  split; [by apply Hval|].
  assert (NoDup ((λ i, data_chan_index (next_channels (n + i) k)) <$> seq 0 37)) as Hnd.
  { apply NoDup_fmap_2_strong; [|apply NoDup_seq]. intros i j Hi%elem_of_seq Hj%elem_of_seq.
    rewrite !Hval by lia. intros E.
    assert ((37 | hop_inc k * (Z.of_nat i - Z.of_nat j))) as Hdiv.
    { apply Z.mod_divide; [done|]. replace (hop_inc k * (Z.of_nat i - Z.of_nat j)) with
        ((unmapped_chan k + Z.of_nat (n + i) * hop_inc k) - (unmapped_chan k + Z.of_nat (n + j) * hop_inc k)) by lia.
      by rewrite Zminus_mod, E, Z.sub_diag. }
    apply Z.gauss in Hdiv; [|apply hop_coprime; lia]. destruct Hdiv as (q & Hq). lia. }
  split; [done|]. intros c Hc.
  assert (c ∈ seqZ 0 37) as Hin by (apply elem_of_seqZ; lia).
  set (l := _ <$> _) in *. assert (l ⊆ seqZ 0 37) as Hsub.
  { intros x (i & -> & Hi%elem_of_seq)%list_elem_of_fmap. apply elem_of_seqZ. rewrite Hval by lia.
    pose proof (Z.mod_pos_bound (unmapped_chan k + Z.of_nat (n + i) * hop_inc k) 37). lia. }
  assert (l ≡ₚ seqZ 0 37) as ->; [|done].
  apply submseteq_length_Permutation; [by apply NoDup_submseteq|]. subst l. by rewrite length_fmap, length_seq.
Qed.

(** ** Defects *)

(** What the specification asks of an access address, of the runs of equal bits and the
    changes between them. *)
Definition aa_changes (aa : Z) : Z :=
  ones ((λ i, xorb (Z.testbit aa i) (Z.testbit aa (i + 1))) <$> take 31 aa_bits).
Definition aa_run_at (aa i len : Z) : bool :=
  forallb (λ j, eqb (Z.testbit aa (i + Z.of_nat j)) (Z.testbit aa i)) (seq 0 (Z.to_nat len)).

(** A slave in an event that receives the packets [bufs], each with a good CRC, and runs its task. *)
Definition rx_all (bufs : list (list Z)) (n : ll_node) : ll_node :=
  let n := (ble_ll_conn_event_start_cb 1 0 0 0 n).2 in
  ble_ll_rx_pkt_in 1 0
    (foldl (λ n buf, (ble_ll_rx_end 1 0 0 (access_addr (mgmt (nd_conn n))) (mk_rx buf 0 true 0 0 0)
                        (set_cur_sm true BLE_LL_STATE_CONNECTION n)).2) n bufs).

(** The packet of the transmit queue, as it goes on the air. *)
Definition first_air (n : ll_node) : option (list Z) := txr_air (ble_ll_conn_event_start_cb 1 0 0 0 n).1.

(** Five defects of the connection code: a remapped event uses a channel that the map excludes;
    the wrap to channel 0 is missed, so that an event uses a channel not chosen by the
    specification; an access address with eleven equal bits in a row is accepted, and
    a valid one refused; a packet with an invalid header is acknowledged, after which the next
    good one is acknowledged but discarded as a repetition; of a packet of 256 bytes of the host
    an empty one is sent. *)
Theorem ble_conn_flaws :
  (let chmap := [0; 0xff; 0xff; 0xff; 0x1f] in
   let dci := (ble_ll_conn_calc_dci (mk_cchan chmap 5 0 0 0 (ble_ll_conn_calc_used_chans chmap))).1 in
   dci = 5 ∧ chan_used chmap dci = false) ∧
  (let chmap := [0xff; 0xff; 0; 0; 0] in
   let dci := (ble_ll_conn_calc_dci (mk_cchan chmap 7 0 0 30 (ble_ll_conn_calc_used_chans chmap))).1 in
   dci = 5 ∧ chan_used chmap ((30 + 7) mod 37) = true) ∧
  (ble_ll_conn_calc_access_addr [0x0FFE; 0x4924] = Some 0x49240FFE ∧ aa_run_at 0x49240FFE 1 11 = true ∧
   ble_ll_conn_calc_access_addr [0xBF7E; 0xEFDF] = None ∧ aa_changes 0xEFDFBF7E = 9 ∧
   forallb (λ i, negb (aa_run_at 0xEFDFBF7E (Z.of_nat i) 7)) (seq 0 26) = true) ∧
  (let n := rx_all [[2; 1; 97; 0]; [10; 0; 0; 0]; [2; 1; 98; 0]] (LlDemo.node BLE_LL_CONN_ROLE_SLAVE) in
   next_exp_seqnum (ack (nd_conn n)) = 1 ∧ stats n rx_resent_pdus = 0 ∧ stats n data_pdu_rx_dup = 1 ∧
   passed_on n = [To_host [1; 32; 1; 0; 97]]) ∧
  (let pkt := [1; 0; 0; 1] ++ replicate 256 7 in
   let n := ble_ll_tx_pkt_in (ble_ll_acl_data_in pkt (LlDemo.node BLE_LL_CONN_ROLE_MASTER)) in
   stats n l2cap_enqueued = 1 ∧ first_air n = Some [2; 0]).
Proof. vm_compute. repeat split. Qed.

Lemma ble_hops_over_all_channels_witness :
  let k := mk_cchan full_map 7 0 0 0 37 in
  data_chan_index (next_channels 6 k) = 5 ∧
  NoDup ((λ i, data_chan_index (next_channels (6 + i) k)) <$> seq 0 37).
Proof.
  intros k. destruct (ble_hops_over_all_channels k 6) as (H1 & H2 & _); try reflexivity; [split; discriminate|by cbn|lia|].
  split; [exact H1|exact H2].
Defined.
