(* ===== verification/BleConnSetup.v ===== *)
(** How a connection of the link layer is set up and how its events follow each other: the
    connect request between the two controllers, and the time and channel of the next
    event (ble_ll_conn.c and ble_ll_conn_hci.c in net/nimble/controller/src).

    The fields of the connection that [BleConn] leaves out are in [conn_params]; [spvn_expires]
    is the time the supervision timer is set to.  The random numbers of a new connection
    are arguments, and integers are in the request as their bytes ([int_bytes]).  Not
    modelled here: the scheduler (see [BleSched]), the control procedures and the
    events for the host. *)
From Stdlib Require Import ZArith Lia.
From stdpp Require Import base decidable list numbers relations.
From S2P Require Import Prelude.
From S2P Require Import BleSched.
From S2P Require Import BleConn.
From S2P Require Import BleConnChan.

#[local] Open Scope Z_scope.

(** ** Data *)

Definition BLE_HCI_CONN_ITVL_MIN : Z := 0x0006.
Definition BLE_HCI_CONN_ITVL_MAX : Z := 0x0c80.
Definition BLE_HCI_CONN_LATENCY_MAX : Z := 0x01f3.
Definition BLE_HCI_CONN_SPVN_TIMEOUT_MIN : Z := 0x000a.
Definition BLE_HCI_CONN_SPVN_TIMEOUT_MAX : Z := 0x0c80.
Definition BLE_LL_CONN_TX_WIN_USECS : Z := 1250.
Definition BLE_LL_CONN_TX_WIN_MIN : Z := 1.
Definition BLE_LL_CONN_SLAVE_LATENCY_MAX : Z := 499.
Definition BLE_LL_CFG_CONN_TX_WIN_SIZE : Z := 1.
Definition BLE_LL_CFG_CONN_TX_WIN_OFF : Z := 0.
Definition BLE_LL_CFG_CONN_MASTER_SCA : Z := Z.shiftl 4 5.
Definition BLE_LL_CFG_CONN_INIT_SLOTS : Z := 4.
Definition BLE_HCI_SCAN_ITVL_MIN : Z := 4.
Definition BLE_HCI_SCAN_ITVL_MAX : Z := 16384.
Definition BLE_HCI_SCAN_WINDOW_MIN : Z := 4.
Definition BLE_HCI_SCAN_WINDOW_MAX : Z := 16384.
Definition BLE_HCI_INITIATOR_FILT_POLICY_MAX : Z := 1.
Definition BLE_HCI_CONN_PEER_ADDR_MAX : Z := 3.
Definition BLE_HCI_ADV_OWN_ADDR_MAX : Z := 3.
Definition BLE_ADV_PDU_HDR_TXADD_MASK : Z := 0x40.
Definition BLE_ADV_PDU_HDR_RXADD_MASK : Z := 0x80.
Definition BLE_ADV_PDU_TYPE_CONNECT_REQ : Z := 5.
Definition BLE_CONNECT_REQ_LEN : Z := 34.

Record ble_ll_conn_upd_req := mk_upd {
  u_winsize : Z; u_winoffset : Z; u_interval : Z; u_latency : Z; u_timeout : Z; u_instant : Z }.

Record conn_params := mk_params {
  conn_itvl_min : Z; conn_itvl_max : Z; conn_itvl : Z; slave_latency : Z; min_ce_len : Z; max_ce_len : Z;
  tx_win_size : Z; tx_win_off : Z; crcinit : Z; own_addr_type : Z; peer_addr_type : Z; peer_addr : list Z;
  conn_update_scheduled : bool; conn_update_req : ble_ll_conn_upd_req; spvn_expires : option Z }.

Record conn_ev := mk_ev { ev_conn : ble_ll_conn; ev_par : conn_params }.

(** struct hci_create_conn, without the parameters of the scan. *)
Record hci_create_conn := mk_hcc {
  filter_policy : Z; hcc_peer_addr_type : Z; hcc_peer_addr : list Z; hcc_own_addr_type : Z;
  hcc_conn_itvl_min : Z; hcc_conn_itvl_max : Z; hcc_conn_latency : Z; supervision_timeout : Z;
  hcc_min_ce_len : Z; hcc_max_ce_len : Z }.

(** ** The next event *)

Section link_layer.
Variable ticks_per_usec : Z.

Definition add_event_cntr (n : Z) (g : conn_mgmt) : conn_mgmt :=
  mk_mgmt (reject_reason g) (cur_ctrl_proc g) (rxd_disconnect_reason g) (pending_ctrl_procs g)
    (u16 (event_cntr g + n)) (completed_pkts g) (access_addr g) (ce_end_time g) (terminate_timeout g) (last_scheduled g).
Definition set_ce_end (v : Z) (g : conn_mgmt) : conn_mgmt :=
  mk_mgmt (reject_reason g) (cur_ctrl_proc g) (rxd_disconnect_reason g) (pending_ctrl_procs g)
    (event_cntr g) (completed_pkts g) (access_addr g) v (terminate_timeout g) (last_scheduled g).
Definition set_anchor (v : Z) (t : conn_timing) : conn_timing :=
  mk_timing (master_sca t) (supervision_tmo t) v (last_anchor_point t) (slave_cur_tx_win_usecs t) (slave_cur_window_widening t).
Definition set_widening (v : Z) (t : conn_timing) : conn_timing :=
  mk_timing (master_sca t) (supervision_tmo t) (anchor_point t) (last_anchor_point t) (slave_cur_tx_win_usecs t) v.

(** The number of events to move on by, and the time until then. *)
Definition next_latency (e : conn_ev) : Z * Z :=
  let itvl := u32 (conn_itvl (ev_par e) * BLE_LL_CONN_ITVL_USECS) in
  if allow_slave_latency (csmflags (ev_conn e)) && negb (conn_update_scheduled (ev_par e)) &&
     pkt_rxd (csmflags (ev_conn e))
  then let latency := u16 (1 + slave_latency (ev_par e)) in (latency, u32 (itvl * latency))
  else (1, itvl).

(** The parameters of a connection update take effect. *)
Definition apply_update (e : conn_ev) : conn_ev :=
  let c := ev_conn e in
  let p := ev_par e in
  let upd := conn_update_req p in
  if conn_update_scheduled p && (event_cntr (mgmt c) =? u_instant upd) then
    let expects := is_master c || negb (conn_itvl p =? u_interval upd) || negb (slave_latency p =? u_latency upd) ||
                   negb (supervision_tmo (timing c) =? u_timeout upd) in
    let c := if expects then upd_flags set_upd_event c else c in
    let anchor := u32 (anchor_point (timing c) + usecs_to_ticks ticks_per_usec (u_winoffset upd * BLE_LL_CONN_ITVL_USECS)) in
    let tmo := u32 (u_timeout upd * BLE_HCI_CONN_SPVN_TMO_UNITS * 1000) in
    mk_ev
      (upd_timing (λ t, mk_timing (master_sca t) (u_timeout upd) anchor (last_anchor_point t)
                          (u_winsize upd * BLE_LL_CONN_TX_WIN_USECS) (slave_cur_window_widening t)) c)
      (mk_params (conn_itvl_min p) (conn_itvl_max p) (u_interval upd) (u_latency upd) (min_ce_len p) (max_ce_len p)
         (u_winsize upd) (u_winoffset upd) (crcinit p) (own_addr_type p) (peer_addr_type p) (peer_addr p)
         false upd (Some (u32 (anchor + usecs_to_ticks ticks_per_usec tmo))))
  else e.

(** The end of the event; [true]: the connection ends instead. *)
Definition next_event_end (e : conn_ev) : bool * conn_ev :=
  let c := ev_conn e in
  if Z.testbit (pending_ctrl_procs (mgmt c)) BLE_LL_CTRL_PROC_TERMINATE &&
     (s32 (u32 (terminate_timeout (mgmt c) - anchor_point (timing c))) <=? 0) then (true, e)
  else
    let itvl := BLE_LL_CFG_CONN_INIT_SLOTS * BLE_LL_SCHED_USECS_PER_SLOT in
    let finish (itvl : Z) (c : ble_ll_conn) :=
      (false, mk_ev (upd_mgmt (set_ce_end (u32 (anchor_point (timing c) + usecs_to_ticks ticks_per_usec itvl))) c) (ev_par e)) in
    if is_slave c then
      let cur_ww := ble_ll_conn_calc_window_widening ticks_per_usec (timing c) in
      let max_ww := u32 (conn_itvl (ev_par e) * (BLE_LL_CONN_ITVL_USECS / 2) - BLE_LL_IFS) in
      if max_ww <=? cur_ww then (true, e)
      else
        let c := upd_timing (set_widening cur_ww) c in
        finish (u32 (itvl + (cur_ww + slave_cur_tx_win_usecs (timing c)))) c
    else finish (itvl - XCVR_TX_SCHED_DELAY_USECS) c.

(** From the event counter on; what a finished procedure reports to the host before is left out. *)
Definition next_event_rest (e : conn_ev) : bool * conn_ev :=
  let '(latency, itvl) := next_latency e in
  let c := upd_mgmt (add_event_cntr latency) (ev_conn e) in
  let c := upd_timing (λ t, set_anchor (u32 (anchor_point t + usecs_to_ticks ticks_per_usec itvl)) t) c in
  let e := apply_update (mk_ev c (ev_par e)) in
  let e := mk_ev (upd_chans (next_channels (Z.to_nat latency)) (ev_conn e)) (ev_par e) in
  next_event_end e.
End link_layer.

(** ** Creating a connection *)

Definition ble_ll_conn_hci_chk_conn_params (itvl_min itvl_max latency spvn_tmo : Z) : bool :=
  if (itvl_max <? itvl_min) || (itvl_min <? BLE_HCI_CONN_ITVL_MIN) || (BLE_HCI_CONN_ITVL_MAX <? itvl_min) ||
     (BLE_HCI_CONN_LATENCY_MAX <? latency) || (spvn_tmo <? BLE_HCI_CONN_SPVN_TIMEOUT_MIN) ||
     (BLE_HCI_CONN_SPVN_TIMEOUT_MAX <? spvn_tmo) then false
  else
    let spvn_tmo_usecs := u32 (spvn_tmo * (BLE_HCI_CONN_SPVN_TMO_UNITS * 1000)) in
    let min_spvn_tmo_usecs := u32 (u32 (itvl_max * 2 * BLE_LL_CONN_ITVL_USECS) * (1 + latency)) in
    min_spvn_tmo_usecs <? spvn_tmo_usecs.

Definition field (n off : nat) (l : list Z) : Z := bytes_val (take n (drop off l)).

(** The checks of ble_ll_conn_create; [None]: BLE_ERR_INV_HCI_CMD_PARMS.  Without a peer its address is not set. *)
Definition create_params (cmdbuf : list Z) : option hci_create_conn :=
  let scan_itvl := field 2 0 cmdbuf in
  let scan_window := field 2 2 cmdbuf in
  let policy := field 1 4 cmdbuf in
  let peer := policy =? 0 in
  let own := field 1 12 cmdbuf in
  let min_ce := field 2 21 cmdbuf in
  let max_ce := field 2 23 cmdbuf in
  if (scan_itvl <? BLE_HCI_SCAN_ITVL_MIN) || (BLE_HCI_SCAN_ITVL_MAX <? scan_itvl) ||
     (scan_window <? BLE_HCI_SCAN_WINDOW_MIN) || (BLE_HCI_SCAN_WINDOW_MAX <? scan_window) || (scan_itvl <? scan_window)
  then None
  else if BLE_HCI_INITIATOR_FILT_POLICY_MAX <? policy then None
  else if peer && (BLE_HCI_CONN_PEER_ADDR_MAX <? field 1 5 cmdbuf) then None
  else if BLE_HCI_ADV_OWN_ADDR_MAX <? own then None
  else if negb (ble_ll_conn_hci_chk_conn_params (field 2 13 cmdbuf) (field 2 15 cmdbuf) (field 2 17 cmdbuf) (field 2 19 cmdbuf))
  then None
  else if max_ce <? min_ce then None
  else Some (mk_hcc policy (if peer then field 1 5 cmdbuf else 0) (if peer then take 6 (drop 6 cmdbuf) else []) own
         (field 2 13 cmdbuf) (field 2 15 cmdbuf) (field 2 17 cmdbuf) (field 2 19 cmdbuf) min_ce max_ce).

(** [r1], [r2]: the two calls of rand; [aa]: the access address. *)
Definition ble_ll_conn_master_init (hcc : hci_create_conn) (r1 aa r2 : Z) (e : conn_ev) : conn_ev :=
  let c := ev_conn e in
  let p := ev_par e in
  let itvl := hcc_conn_itvl_max hcc in
  let limit (len : Z) := if itvl * 2 <? len then u16 (itvl * 2) else len in
  let peer := filter_policy hcc =? 0 in
  mk_ev
    (mk_conn (conn_state c) BLE_LL_CONN_ROLE_MASTER (conn_handle c) (conn_rssi c) (csmflags c) (dlen c)
       (mk_cchan [0xff; 0xff; 0xff; 0xff; 0x1f] (r1 mod 12 + 5) (data_chan_index (chan c)) (unmapped_chan (chan c))
          (last_unmapped_chan (chan c)) BLE_PHY_NUM_DATA_CHANS)
       (ack c)
       (mk_mgmt (reject_reason (mgmt c)) (cur_ctrl_proc (mgmt c)) (rxd_disconnect_reason (mgmt c))
          (pending_ctrl_procs (mgmt c)) (event_cntr (mgmt c)) (completed_pkts (mgmt c)) aa (ce_end_time (mgmt c))
          (terminate_timeout (mgmt c)) (last_scheduled (mgmt c)))
       (mk_timing BLE_LL_CFG_CONN_MASTER_SCA (supervision_timeout hcc) (anchor_point (timing c))
          (last_anchor_point (timing c)) (slave_cur_tx_win_usecs (timing c)) (slave_cur_window_widening (timing c)))
       (conn_txq c) (conn_empty_pdu c))
    (mk_params (hcc_conn_itvl_min hcc) itvl itvl (hcc_conn_latency hcc) (limit (hcc_min_ce_len hcc))
       (limit (hcc_max_ce_len hcc)) BLE_LL_CFG_CONN_TX_WIN_SIZE BLE_LL_CFG_CONN_TX_WIN_OFF (Z.land r2 0xffffff)
       (hcc_own_addr_type hcc) (if peer then hcc_peer_addr_type hcc else peer_addr_type p)
       (if peer then hcc_peer_addr hcc else peer_addr p) (conn_update_scheduled p) (conn_update_req p) (spvn_expires p)).

(** The header byte and the payload of the connect request, with the addresses of the device;
    [None]: an assertion fails.  [junk]: the address of the advertiser, not known yet. *)
Definition ble_ll_conn_req_pdu_make (g_dev_addr g_random_addr junk : list Z) (e : conn_ev) : option (Z * list Z) :=
  let c := ev_conn e in
  let p := ev_par e in
  let pdu (pdu_type : Z) (addr : list Z) :=
    Some (pdu_type, addr ++ junk ++ int_bytes 4 (access_addr (mgmt c)) ++ int_bytes 3 (crcinit p) ++
      [u8 (tx_win_size p)] ++ int_bytes 2 (tx_win_off p) ++ int_bytes 2 (conn_itvl p) ++ int_bytes 2 (slave_latency p) ++
      int_bytes 2 (supervision_tmo (timing c)) ++ chanmap (chan c) ++
      [u8 (Z.lor (hop_inc (chan c)) (master_sca (timing c)))]) in
  if own_addr_type p =? 0 then pdu BLE_ADV_PDU_TYPE_CONNECT_REQ g_dev_addr
  else if own_addr_type p =? 1 then pdu (Z.lor BLE_ADV_PDU_TYPE_CONNECT_REQ BLE_ADV_PDU_HDR_TXADD_MASK) g_random_addr
  else None.

Definition ble_ll_conn_req_pdu_update (m : Z * list Z) (adva : list Z) (addr_type txoffset : Z) : Z * list Z :=
  let '(pdu_type, data) := m in
  (if addr_type =? 0 then Z.land pdu_type (Z.lnot BLE_ADV_PDU_HDR_RXADD_MASK) else Z.lor pdu_type BLE_ADV_PDU_HDR_RXADD_MASK,
   let data := take 6 data ++ adva ++ drop 12 data in
   take 20 data ++ int_bytes 2 txoffset ++ drop 22 data).

(** ble_ll_conn_sm_new, which clears all flags. *)
Definition ev_new (g : conn_global_params) (e : conn_ev) : conn_ev :=
  let p := ev_par e in
  mk_ev (ble_ll_conn_sm_new g (ev_conn e))
    (mk_params (conn_itvl_min p) (conn_itvl_max p) (conn_itvl p) (slave_latency p) (min_ce_len p) (max_ce_len p)
       (tx_win_size p) (tx_win_off p) (crcinit p) (own_addr_type p) (peer_addr_type p) (peer_addr p) false
       (conn_update_req p) (spvn_expires p)).

(** The request as it goes on the air. *)
Definition on_air (m : Z * list Z) : list Z := m.1 :: BLE_CONNECT_REQ_LEN :: m.2.

(** ** Accepting a connection *)

(** The part of ble_ll_conn_slave_start that reads the request, checks it and sets up the
    connection [e] taken from the free list. *)
Definition slave_start (g : conn_global_params) (rxbuf : list Z) (e : conn_ev) : option conn_ev :=
  let c := ev_conn e in
  let p := ev_par e in
  let dptr := drop 14 rxbuf in
  let chmap := take 5 (drop 16 dptr) in
  let win_size := field 1 7 dptr in
  let win_off := field 2 8 dptr in
  let itvl := field 2 10 dptr in
  let latency := field 2 12 dptr in
  let tmo := field 2 14 dptr in
  if (itvl <? win_off) || (itvl <? BLE_HCI_CONN_ITVL_MIN) || (BLE_HCI_CONN_ITVL_MAX <? itvl) ||
     (win_size <? BLE_LL_CONN_TX_WIN_MIN) || (BLE_LL_CONN_SLAVE_LATENCY_MAX <? latency) then None
  else if u32 (tmo * 10000) <=? u32 ((latency + 1) * (itvl * 2) * BLE_LL_CONN_ITVL_USECS) then None
  else if (if 8 <? itvl - 1 then 8 else itvl - 1) <? win_size then None
  else
    let num := ble_ll_conn_calc_used_chans chmap in
    if num <? 2 then None
    else
      Some (ev_new g (mk_ev
          (mk_conn (conn_state c) BLE_LL_CONN_ROLE_SLAVE (conn_handle c) (conn_rssi c) (csmflags c) (dlen c)
             (mk_cchan chmap (Z.land (field 1 21 dptr) 0x1F) (data_chan_index (chan c)) (unmapped_chan (chan c))
                (last_unmapped_chan (chan c)) num)
             (ack c)
             (mk_mgmt (reject_reason (mgmt c)) (cur_ctrl_proc (mgmt c)) (rxd_disconnect_reason (mgmt c))
                (pending_ctrl_procs (mgmt c)) (event_cntr (mgmt c)) (completed_pkts (mgmt c)) (field 4 0 dptr)
                (ce_end_time (mgmt c)) (terminate_timeout (mgmt c)) (last_scheduled (mgmt c)))
             (mk_timing (Z.shiftr (field 1 21 dptr) 5) tmo (anchor_point (timing c)) (last_anchor_point (timing c))
                (slave_cur_tx_win_usecs (timing c)) (slave_cur_window_widening (timing c)))
             (conn_txq c) (conn_empty_pdu c))
        (mk_params (conn_itvl_min p) (conn_itvl_max p) itvl latency (min_ce_len p) (max_ce_len p)
           win_size win_off (field 3 4 dptr) (own_addr_type p)
           (if Z.land (field 1 0 rxbuf) BLE_ADV_PDU_HDR_TXADD_MASK =? 0 then 0 else 1) (take 6 (drop 2 rxbuf))
           (conn_update_scheduled p) (conn_update_req p) (spvn_expires p)))).

(** ** Events in step *)

Section in_step.
Variable tpu : Z.

(** The fields that both sides must agree on. *)
Definition shared (e : conn_ev) : Z * conn_chan * (Z * Z * Z) * bool :=
  (event_cntr (mgmt (ev_conn e)), chan (ev_conn e),
   (conn_itvl (ev_par e), slave_latency (ev_par e), supervision_tmo (timing (ev_conn e))),
   conn_update_scheduled (ev_par e)).

Record in_step (m s : conn_ev) : Prop := {
  st_master : conn_role (ev_conn m) = BLE_LL_CONN_ROLE_MASTER;
  st_slave : conn_role (ev_conn s) = BLE_LL_CONN_ROLE_SLAVE;
  st_allow : allow_slave_latency (csmflags (ev_conn m)) = false;
  st_shared : shared m = shared s;
  st_cntr : 0 <= event_cntr (mgmt (ev_conn m)) < 65536;
  st_req : conn_update_scheduled (ev_par m) = true → conn_update_req (ev_par m) = conn_update_req (ev_par s) }.

(** How far the anchor point of the slave is behind that of the master. *)
Definition anchor_diff (m s : conn_ev) : Z :=
  u32 (anchor_point (timing (ev_conn s)) - anchor_point (timing (ev_conn m))).

(** A connection whose update takes effect in the event [cntr]. *)
Definition update_at (cntr : Z) (e : conn_ev) : bool :=
  conn_update_scheduled (ev_par e) && (cntr =? u_instant (conn_update_req (ev_par e))).

(** What [next_event_rest] does to the shared fields and to the anchor point. *)
Definition moved (L : Z) (e : conn_ev) : Z * conn_chan * (Z * Z * Z) * bool :=
  let upd := conn_update_req (ev_par e) in
  let cntr := u16 (event_cntr (mgmt (ev_conn e)) + L) in
  (cntr, next_channels (Z.to_nat L) (chan (ev_conn e)),
   (if update_at cntr e then (u_interval upd, u_latency upd, u_timeout upd)
    else (conn_itvl (ev_par e), slave_latency (ev_par e), supervision_tmo (timing (ev_conn e)))),
   conn_update_scheduled (ev_par e) && negb (update_at cntr e)).
Definition moved_by (L : Z) (e : conn_ev) : Z :=
  L * (conn_itvl (ev_par e) * BLE_LL_CONN_ITVL_USECS * tpu) +
  (if update_at (u16 (event_cntr (mgmt (ev_conn e)) + L)) e
   then u_winoffset (conn_update_req (ev_par e)) * BLE_LL_CONN_ITVL_USECS * tpu else 0).

Lemma u32_add_l a b : u32 (u32 a + b) = u32 (a + b).
Proof. unfold u32. apply Zplus_mod_idemp_l. Qed.
Lemma u32_add_r a b : u32 (a + u32 b) = u32 (a + b).
Proof. unfold u32. apply Zplus_mod_idemp_r. Qed.
Lemma u16_add_l a b : u16 (u16 a + b) = u16 (a + b).
Proof. unfold u16. apply Zplus_mod_idemp_l. Qed.
Lemma u32_mul_l a b : u32 (u32 a * b) = u32 (a * b).
Proof. unfold u32. apply Zmult_mod_idemp_l. Qed.
Lemma u32_sub a b : u32 (u32 a - u32 b) = u32 (a - b).
Proof. unfold u32. symmetry. apply Zminus_mod. Qed.
Lemma u32_idem a : u32 (u32 a) = u32 a.
Proof. apply u32_small, u32_bound. Qed.

Lemma anchor_diff_moved a1 b1 a2 b2 d :
  u32 a2 = u32 (a1 + d) → u32 b2 = u32 (b1 + d) → u32 (b2 - a2) = u32 (b1 - a1).
Proof. intros Ha Hb. rewrite <-u32_sub, Ha, Hb, u32_sub. f_equal. lia. Qed.

(** The time until the next event is the number of events times the interval. *)
Lemma next_latency_ticks e L it :
  next_latency e = (L, it) → u32 (it * tpu) = u32 (L * (conn_itvl (ev_par e) * BLE_LL_CONN_ITVL_USECS * tpu)).
Proof.
  unfold next_latency. intros H. case_match; simplify_eq; rewrite !u32_mul_l; [|f_equal; lia].
  rewrite <-Z.mul_assoc, u32_mul_l. f_equal. lia.
Qed.

Lemma next_event_end_fields e :
  let e' := (next_event_end tpu e).2 in
  conn_role (ev_conn e') = conn_role (ev_conn e) ∧ csmflags (ev_conn e') = csmflags (ev_conn e) ∧
  shared e' = shared e ∧ ev_par e' = ev_par e ∧
  anchor_point (timing (ev_conn e')) = anchor_point (timing (ev_conn e)).
Proof.
  unfold next_event_end. destruct (_ && _); [done|]. cbv zeta. destruct (is_slave _); [|done]. by destruct (_ <=? _).
Qed.

Lemma next_event_fields e L it :
  next_latency e = (L, it) →
  let e' := (next_event_rest tpu e).2 in
  conn_role (ev_conn e') = conn_role (ev_conn e) ∧
  allow_slave_latency (csmflags (ev_conn e')) = allow_slave_latency (csmflags (ev_conn e)) ∧
  shared e' = moved L e ∧ conn_update_req (ev_par e') = conn_update_req (ev_par e) ∧
  u32 (anchor_point (timing (ev_conn e'))) = u32 (anchor_point (timing (ev_conn e)) + moved_by L e).
Proof.
  intros HL e'. subst e'. unfold next_event_rest. rewrite HL. apply next_latency_ticks in HL.
  match goal with |- context [next_event_end tpu ?x] => set (e1 := x) end.
  destruct (next_event_end_fields e1) as (H1 & H2 & H3 & H4 & H5). rewrite H1, H2, H3, H4, H5. clear H1 H2 H3 H4 H5.
  subst e1. unfold apply_update, shared, moved, moved_by, update_at, usecs_to_ticks.
  cbn [ev_conn ev_par mgmt upd_timing upd_mgmt add_event_cntr event_cntr].
  assert (∀ a, u32 (a + it * tpu) = u32 (a + L * (conn_itvl (ev_par e) * BLE_LL_CONN_ITVL_USECS * tpu))) as Hadd.
  { intros a. by rewrite <-(u32_add_r a (it * tpu)), HL, u32_add_r. }
  destruct (conn_update_scheduled (ev_par e)) eqn:Es; cbn [andb].
  - destruct (u16 _ =? _) eqn:Eh; cbn [andb negb]; cbv zeta.
    + split_and!; try (by destruct (_ || _)). destruct (_ || _);
        cbn [anchor_point timing ev_conn upd_chans upd_timing upd_flags set_anchor upd_mgmt];
        rewrite ?u32_idem, ?u32_add_r, ?u32_add_l, <-u32_add_l, Hadd, u32_add_l; f_equal; lia.
    + split_and!; try done; [by cbn; rewrite Es|]. cbn. by rewrite u32_idem, u32_add_r, Hadd, Z.add_0_r.
  - split_and!; try done; [by cbn; rewrite Es|]. cbn. by rewrite u32_idem, u32_add_r, Hadd, Z.add_0_r.
Qed.

(** [n] events of a connection, one after the other. *)
Definition next_events (n : nat) (e : conn_ev) : conn_ev := Nat.iter n (λ e, (next_event_rest tpu e).2) e.

Lemma next_latency_1 e : allow_slave_latency (csmflags (ev_conn e)) = false → (next_latency e).1 = 1.
Proof. intros H. unfold next_latency. by rewrite H. Qed.
Lemma next_latency_upd e : conn_update_scheduled (ev_par e) = true → (next_latency e).1 = 1.
Proof. intros H. unfold next_latency. rewrite H. by destruct (allow_slave_latency _). Qed.
Lemma next_latency_bound e : 0 <= (next_latency e).1.
Proof. unfold next_latency. case_match; cbn [fst]; [apply u16_bound|done]. Qed.

(** The events of a master without an update: one after the other is as good as all at once. *)
Lemma next_events_plain n : ∀ e,
  allow_slave_latency (csmflags (ev_conn e)) = false → conn_update_scheduled (ev_par e) = false →
  event_cntr (mgmt (ev_conn e)) = u16 (event_cntr (mgmt (ev_conn e))) →
  let e' := next_events n e in
  conn_role (ev_conn e') = conn_role (ev_conn e) ∧
  allow_slave_latency (csmflags (ev_conn e')) = false ∧
  shared e' = moved (Z.of_nat n) e ∧ conn_update_req (ev_par e') = conn_update_req (ev_par e) ∧
  u32 (anchor_point (timing (ev_conn e'))) = u32 (anchor_point (timing (ev_conn e)) + moved_by (Z.of_nat n) e).
Proof.
  induction n as [|n IH]; intros e Ha Hu Hc.
  - change (next_events 0 e) with e. change (Z.of_nat 0) with 0. unfold moved, moved_by, update_at, shared. rewrite Hu. cbn [andb].
    split_and!; try done; [by rewrite Z.add_0_r, <-Hc|f_equal; lia].
  - cbn zeta. change (next_events (S n) e) with (next_event_rest tpu (next_events n e)).2.
    destruct (IH e Ha Hu Hc) as (I1 & I2 & I3 & I4 & I5). set (en := next_events n e) in *.
    destruct (next_latency en) as [L it] eqn:EL.
    assert (L = 1) as -> by (pose proof (next_latency_1 en I2) as H; by rewrite EL in H).
    destruct (next_event_fields en 1 it EL) as (J1 & J2 & J3 & J4 & J5).
    rewrite J1, J2, J3, J4, J5, I1, I2, I4. unfold shared, moved, update_at in I3. rewrite Hu in I3. cbn [andb] in I3.
    injection I3 as K1 K2 K3 K4 K5 K6. unfold moved, moved_by, update_at. rewrite K1, K2, K3, K4, K5, K6, Hu. cbn [andb].
    split_and!; try done.
    + rewrite !Nat2Z.id. rewrite u16_add_l. do 3 f_equal. f_equal. lia.
    + rewrite <-u32_add_l, I5, u32_add_l. unfold moved_by, update_at. rewrite Hu. cbn [andb]. f_equal. lia.
Qed.

(** The slave takes part in its next event, and the master has gone through those before; what
    is sent and received changes the flags; and an update is agreed upon. *)
Definition upd_ev_flags (f : conn_flags → conn_flags) (e : conn_ev) : conn_ev := mk_ev (upd_flags f (ev_conn e)) (ev_par e).
Definition schedule_update (upd : ble_ll_conn_upd_req) (e : conn_ev) : conn_ev :=
  let p := ev_par e in
  mk_ev (ev_conn e)
    (mk_params (conn_itvl_min p) (conn_itvl_max p) (conn_itvl p) (slave_latency p) (min_ce_len p) (max_ce_len p)
       (tx_win_size p) (tx_win_off p) (crcinit p) (own_addr_type p) (peer_addr_type p) (peer_addr p) true upd (spvn_expires p)).
Inductive silent_step : conn_ev * conn_ev → conn_ev * conn_ev → Prop :=
  | pair_events m s :
      silent_step (m, s) (next_events (Z.to_nat (next_latency s).1) m, (next_event_rest tpu s).2)
  | pair_flags m s f g :
      allow_slave_latency (f (csmflags (ev_conn m))) = false → silent_step (m, s) (upd_ev_flags f m, upd_ev_flags g s)
  | pair_update m s upd :
      conn_update_scheduled (ev_par m) = false → silent_step (m, s) (schedule_update upd m, schedule_update upd s).

(** With the end of a received packet the slave also sets its anchor points, if it is the first one of
    an event ([set_anchors], the end of ble_ll_conn_rx_isr_end). *)
Definition hear (rx : rx_pdu) (e : conn_ev) : conn_ev := mk_ev (set_anchors tpu rx (ev_conn e)) (ev_par e).
Inductive pair_step (x : conn_ev * conn_ev) : conn_ev * conn_ev → Prop :=
  | pair_silent y : silent_step x y → pair_step x y
  | pair_hear rx : pair_step x (x.1, hear rx x.2).

Lemma next_events_1 m : next_events 1 m = (next_event_rest tpu m).2.
Proof. done. Qed.

(** The fields of the master after the events until the next one of the slave. *)
Lemma master_fields m s L :
  in_step m s → (next_latency s).1 = L →
  let m' := next_events (Z.to_nat L) m in
  conn_role (ev_conn m') = conn_role (ev_conn m) ∧
  allow_slave_latency (csmflags (ev_conn m')) = false ∧
  shared m' = moved L m ∧ conn_update_req (ev_par m') = conn_update_req (ev_par m) ∧
  u32 (anchor_point (timing (ev_conn m'))) = u32 (anchor_point (timing (ev_conn m)) + moved_by L m).
Proof.
  intros H HL. pose proof (next_latency_bound s) as Hb. rewrite HL in Hb. pose proof (st_allow _ _ H) as Ha.
  destruct (conn_update_scheduled (ev_par m)) eqn:Eu.
  - assert (conn_update_scheduled (ev_par s) = true) as Es.
    { pose proof (st_shared _ _ H) as E. unfold shared in E. congruence. }
    rewrite next_latency_upd in HL by done. subst L. change (Z.to_nat 1) with 1%nat. rewrite next_events_1.
    destruct (next_latency m) as [L it] eqn:EL.
    assert (L = 1) as -> by (pose proof (next_latency_1 m Ha) as E; by rewrite EL in E).
    rewrite <-Ha. exact (next_event_fields m 1 it EL).
  - rewrite <-(Z2Nat.id L) by done. rewrite Nat2Z.id. apply next_events_plain; [done..|].
    by rewrite u16_small by apply (st_cntr _ _ H).
Qed.

Lemma update_at_eq m s n : in_step m s → update_at n m = update_at n s.
Proof.
  intros H. pose proof (st_shared _ _ H) as E. unfold shared in E. unfold update_at.
  destruct (conn_update_scheduled (ev_par m)) eqn:Eu; [|by replace (conn_update_scheduled (ev_par s)) with false by congruence].
  replace (conn_update_scheduled (ev_par s)) with true by congruence. by rewrite (st_req _ _ H Eu).
Qed.

(** Both sides move in the same way. *)
Lemma moved_eq m s L : in_step m s → moved L m = moved L s ∧ moved_by L m = moved_by L s.
Proof.
  intros H. pose proof (update_at_eq m s) as Hat. pose proof (st_shared _ _ H) as E. unfold shared in E.
  unfold moved, moved_by. injection E as -> -> -> -> -> Eu. rewrite !Hat, Eu by done. unfold update_at.
  destruct (conn_update_scheduled (ev_par s)) eqn:Es; cbn [andb]; [|done].
  by rewrite (st_req _ _ H Eu).
Qed.

Lemma silent_step_ok m s m' s' :
  in_step m s → silent_step (m, s) (m', s') → in_step m' s' ∧ anchor_diff m' s' = anchor_diff m s.
Proof.
  intros H Hstep. inversion Hstep; subst; clear Hstep.
  - destruct (next_latency s) as [L it] eqn:EL. cbn [fst].
    destruct (master_fields m s L H) as (M1 & M2 & M3 & M4 & M5); [by rewrite EL|].
    destruct (next_event_fields s L it EL) as (S1 & S2 & S3 & S4 & S5).
    destruct (moved_eq m s L H) as [Hmv Hby]. split.
    + split.
      * rewrite M1. apply (st_master _ _ H).
      * rewrite S1. apply (st_slave _ _ H).
      * done.
      * by rewrite M3, S3.
      * change (0 <= (shared (next_events (Z.to_nat L) m)).1.1.1 < 65536). rewrite M3. apply u16_bound.
      * change ((shared (next_events (Z.to_nat L) m)).2 = true →
          conn_update_req (ev_par (next_events (Z.to_nat L) m)) = conn_update_req (ev_par (next_event_rest tpu s).2)).
        rewrite M3, M4, S4. intros [Hu _]%andb_true_iff. by apply (st_req _ _ H).
    + rewrite Hby in M5. unfold anchor_diff. exact (anchor_diff_moved _ _ _ _ _ M5 S5).
  - split; [|done]. destruct H; by split.
  - split; [|done]. destruct H as [? ? ? E ? ?]. unfold shared in E. split; try done. unfold shared. cbn. congruence.
Qed.

Lemma hear_ok m s rx : in_step m s → in_step m (hear rx s).
Proof.
  intros [H1 H2 H3 H4 H5 H6]. unfold hear, set_anchors. destruct (slave_set_last_anchor _); [|by destruct s].
  by split.
Qed.

Lemma pair_step_ok m s m' s' : in_step m s → pair_step (m, s) (m', s') → in_step m' s'.
Proof.
  intros H Hstep. inversion Hstep as [y Hs|rx]; subst; [by eapply silent_step_ok|by apply hear_ok].
Qed.

Lemma pair_steps_ok m s m' s' : in_step m s → rtc pair_step (m, s) (m', s') → in_step m' s'.
Proof.
  intros H Hs. remember (m, s) as x eqn:Ex. remember (m', s') as y eqn:Ey. revert m s Ex H.
  induction Hs as [x|x [m1 s1] z Hstep _ IH]; intros m s -> H; [by simplify_eq|].
  apply (IH Ey m1 s1 eq_refl). by eapply pair_step_ok.
Qed.

Lemma silent_steps_ok m s m' s' : in_step m s → rtc silent_step (m, s) (m', s') → anchor_diff m' s' = anchor_diff m s.
Proof.
  intros H Hs. remember (m, s) as x eqn:Ex. remember (m', s') as y eqn:Ey. revert m s Ex H.
  induction Hs as [x|x [m1 s1] z Hstep _ IH]; intros m s -> H; [by simplify_eq|].
  destruct (silent_step_ok m s m1 s1 H Hstep) as [H1 <-]. by apply (IH Ey).
Qed.

(** C30. A master and a slave that agree on the event counter, the channels, the interval, the latency, the
    timeout and a scheduled update still do so in every event the slave takes part in, however many
    events it skips, whatever it hears, and when an update takes effect.  The slave sets its anchor
    point by the first packet it hears in an event: to the time at which that packet began.
    Until then the anchor points of the two stay as far apart as they were. *)
Theorem ble_conn_in_step m s m' s' :
  in_step m s → rtc pair_step (m, s) (m', s') →
  in_step m' s' ∧
  (∀ m2 s2, rtc silent_step (m', s') (m2, s2) → anchor_diff m2 s2 = anchor_diff m' s') ∧
  ∀ rx, let s2 := hear rx s' in
    if slave_set_last_anchor (csmflags (ev_conn s')) then
      anchor_point (timing (ev_conn s2)) =
        u32 (rx_end_cputime rx - usecs_to_ticks tpu (BLE_TX_DUR_USECS_M (byte_at (rx_buf rx) 1))) ∧
      slave_set_last_anchor (csmflags (ev_conn s2)) = false
    else anchor_diff m' s2 = anchor_diff m' s'.
Proof.
  intros H Hs. pose proof (pair_steps_ok _ _ _ _ H Hs) as H'. split; [done|]. split; [by intros; apply silent_steps_ok|].
  intros rx s2. unfold s2, hear, anchor_diff, set_anchors. by destruct (slave_set_last_anchor _) eqn:E.
Qed.
End in_step.

(** ** The request and its receiver *)

Lemma field_bound n off l : Forall is_byte l → 0 <= field n off l < 256 ^ Z.of_nat n.
Proof.
  intros Hl. unfold field. assert (Forall is_byte (take n (drop off l))) as Ht by by apply Forall_take, Forall_drop.
  pose proof (bytes_val_bound _ Ht) as Hb.
  assert (256 ^ Z.of_nat (length (take n (drop off l))) <= 256 ^ Z.of_nat n); [|lia].
  apply Z.pow_le_mono_r; [lia|]. rewrite length_take. lia.
Qed.

(** What a command that is accepted satisfies. *)
Record hcc_ok (hcc : hci_create_conn) : Prop := {
  ok_itvl : 6 <= hcc_conn_itvl_max hcc < 65536;
  ok_latency : 0 <= hcc_conn_latency hcc <= 499;
  ok_tmo : 10 <= supervision_timeout hcc <= 3200;
  ok_time : u32 (u32 (hcc_conn_itvl_max hcc * 2 * 1250) * (1 + hcc_conn_latency hcc)) < supervision_timeout hcc * 10000 }.

Lemma create_params_ok cmd hcc : Forall is_byte cmd → create_params cmd = Some hcc → hcc_ok hcc.
Proof.
  intros Hb H. unfold create_params in H.
  destruct (_ || _ || _ || _ || _) in H; [done|].
  do 3 (match type of H with (if ?b then None else _) = _ => destruct b; [done|] end).
  destruct (ble_ll_conn_hci_chk_conn_params _ _ _ _) eqn:E; [|done]. cbn [negb] in H.
  destruct (_ <? _) in H; [done|]. simplify_eq.
  pose proof (field_bound 2 15 cmd Hb). pose proof (field_bound 2 17 cmd Hb).
  unfold ble_ll_conn_hci_chk_conn_params, BLE_HCI_CONN_ITVL_MIN, BLE_HCI_CONN_LATENCY_MAX, BLE_HCI_CONN_SPVN_TIMEOUT_MIN,
    BLE_HCI_CONN_SPVN_TIMEOUT_MAX in E.
  destruct (_ || _) eqn:Ec in E; [done|]. rewrite !orb_false_iff, !Z.ltb_ge in Ec. destruct Ec as [[[[[E1 E2] E3] E4] E5] E6].
  apply Z.ltb_lt in E. rewrite (u32_small (field 2 19 cmd * _)) in E by (unfold BLE_HCI_CONN_SPVN_TMO_UNITS; lia).
  split; cbn [hcc_conn_itvl_max hcc_conn_latency supervision_timeout]; [lia..|exact E].
Qed.

Lemma create_own_type cmd hcc : Forall is_byte cmd → create_params cmd = Some hcc → 0 <= hcc_own_addr_type hcc.
Proof.
  intros Hb H. unfold create_params in H. pose proof (field_bound 1 12 cmd Hb).
  repeat (match type of H with (if ?b then None else _) = _ => destruct b; [done|] end). simplify_eq. cbn [hcc_own_addr_type]. lia.
Qed.

(** The connection data of a request. *)
Definition conn_data (aa crc win off itvl lat tmo : Z) (map : list Z) (hop_sca : Z) : list Z :=
  int_bytes 4 aa ++ int_bytes 3 crc ++ [win] ++ int_bytes 2 off ++ int_bytes 2 itvl ++ int_bytes 2 lat ++
  int_bytes 2 tmo ++ map ++ [hop_sca].

Lemma conn_data_fields aa crc win off itvl lat tmo hs :
  0 <= aa < 2 ^ 32 → 0 <= crc < 2 ^ 24 → is_byte win → 0 <= off < 65536 → 0 <= itvl < 65536 → 0 <= lat < 65536 →
  0 <= tmo < 65536 → is_byte hs →
  let d := conn_data aa crc win off itvl lat tmo full_map hs in
  field 4 0 d = aa ∧ field 3 4 d = crc ∧ field 1 7 d = win ∧ field 2 8 d = off ∧ field 2 10 d = itvl ∧
  field 2 12 d = lat ∧ field 2 14 d = tmo ∧ take 5 (drop 16 d) = full_map ∧ field 1 21 d = hs.
Proof.
  intros Haa Hcrc Hwin Hoff Hitvl Hlat Htmo Hhs d. unfold is_byte in Hwin, Hhs. split_and!.
  - exact (bytes_val_int 4 aa Haa).
  - exact (bytes_val_int 3 crc Hcrc).
  - change (field 1 7 d) with (win + 256 * 0). lia.
  - exact (bytes_val_int 2 off Hoff).
  - exact (bytes_val_int 2 itvl Hitvl).
  - exact (bytes_val_int 2 lat Hlat).
  - exact (bytes_val_int 2 tmo Htmo).
  - done.
  - change (field 1 21 d) with (hs + 256 * 0). lia.
Qed.

Lemma six_bytes (l : list Z) : length l = 6%nat → ∃ a b c d e f, l = [a; b; c; d; e; f].
Proof. do 7 (destruct l; try done). by eauto 10. Qed.

(** The request, with the address of the advertiser and the offset of the window filled in. *)
Lemma request_on_air t own junk adva aa crc win off itvl lat tmo map hs at_ txoff :
  length own = 6%nat → length junk = 6%nat → length adva = 6%nat →
  on_air (ble_ll_conn_req_pdu_update (t, own ++ junk ++ conn_data aa crc win off itvl lat tmo map hs) adva at_ txoff) =
  (if at_ =? 0 then Z.land t (Z.lnot BLE_ADV_PDU_HDR_RXADD_MASK) else Z.lor t BLE_ADV_PDU_HDR_RXADD_MASK) :: BLE_CONNECT_REQ_LEN ::
    own ++ adva ++ conn_data aa crc win txoff itvl lat tmo map hs.
Proof.
  intros Ho Hj Ha. destruct (six_bytes _ Ho) as (?&?&?&?&?&?&->). destruct (six_bytes _ Hj) as (?&?&?&?&?&?&->).
  by destruct (six_bytes _ Ha) as (?&?&?&?&?&?&->).
Qed.

(** The fields of a new connection. *)
Lemma sm_new_fields g c :
  let c' := ble_ll_conn_sm_new g c in
  conn_role c' = conn_role c ∧ allow_slave_latency (csmflags c') = false ∧ event_cntr (mgmt c') = 0 ∧
  timing c' = timing c ∧ access_addr (mgmt c') = access_addr (mgmt c) ∧
  chanmap (chan c') = chanmap (chan c) ∧ hop_inc (chan c') = hop_inc (chan c) ∧ num_used_chans (chan c') = num_used_chans (chan c).
Proof.
  unfold ble_ll_conn_sm_new, ble_ll_conn_calc_dci. cbn [chanmap hop_inc last_unmapped_chan num_used_chans].
  destruct (Z.land _ _ =? 0); [|done]. by destruct (foldl _ _ _).
Qed.
Lemma sm_new_chan g g' c c' :
  chanmap (chan c) = chanmap (chan c') → hop_inc (chan c) = hop_inc (chan c') →
  num_used_chans (chan c) = num_used_chans (chan c') →
  chan (ble_ll_conn_sm_new g c) = chan (ble_ll_conn_sm_new g' c').
Proof.
  intros Hm Hh Hn. unfold ble_ll_conn_sm_new, ble_ll_conn_calc_dci. cbn [chanmap hop_inc last_unmapped_chan num_used_chans].
  rewrite Hm, Hh, Hn. destruct (Z.land _ _ =? 0); [|done]. by destruct (foldl _ _ _).
Qed.

Lemma hop_sca_byte hop : 5 <= hop <= 16 →
  Z.land (u8 (Z.lor hop BLE_LL_CFG_CONN_MASTER_SCA)) 0x1F = hop ∧
  Z.shiftr (u8 (Z.lor hop BLE_LL_CFG_CONN_MASTER_SCA)) 5 = Z.shiftr BLE_LL_CFG_CONN_MASTER_SCA 5.
Proof.
  intros Hh. rewrite <-(Z2Nat.id hop) by lia. assert (5 <= Z.to_nat hop <= 16)%nat as Hn by lia.
  generalize dependent (Z.to_nat hop). clear hop Hh. intros n Hn. do 17 (destruct n as [|n]; [done || lia|]). lia.
Qed.

(** What the slave makes of the request of a master. *)
Lemma slave_start_ok gs t own adva aa crc win off itvl lat tmo hs es :
  length own = 6%nat → length adva = 6%nat →
  0 <= aa < 2 ^ 32 → 0 <= crc < 2 ^ 24 → is_byte win → 0 <= off <= itvl → itvl < 65536 → 0 <= lat < 65536 →
  0 <= tmo < 65536 → is_byte hs → 6 <= itvl → 1 <= win <= 5 → lat <= 499 →
  u32 (u32 (itvl * 2 * 1250) * (1 + lat)) < tmo * 10000 →
  let rx := t :: BLE_CONNECT_REQ_LEN :: own ++ adva ++ conn_data aa crc win off itvl lat tmo full_map hs in
  if 3200 <? itvl then slave_start gs rx es = None
  else ∃ s, slave_start gs rx es = Some s ∧
    conn_role (ev_conn s) = BLE_LL_CONN_ROLE_SLAVE ∧ conn_update_scheduled (ev_par s) = false ∧
    event_cntr (mgmt (ev_conn s)) = 0 ∧
    (conn_itvl (ev_par s), slave_latency (ev_par s), supervision_tmo (timing (ev_conn s))) = (itvl, lat, tmo) ∧
    chan (ev_conn s) = chan (ble_ll_conn_sm_new gs (upd_chans (λ k, mk_cchan full_map (Z.land hs 0x1F) 0 0 0 37) (ev_conn s))) ∧
    access_addr (mgmt (ev_conn s)) = aa ∧ crcinit (ev_par s) = crc ∧ tx_win_size (ev_par s) = win ∧ tx_win_off (ev_par s) = off ∧
    master_sca (timing (ev_conn s)) = Z.shiftr hs 5 ∧ peer_addr (ev_par s) = own ∧
    peer_addr_type (ev_par s) = (if Z.land t BLE_ADV_PDU_HDR_TXADD_MASK =? 0 then 0 else 1).
Proof.
  intros Ho Ha Haa Hcrc Hwin Hoff Hitvl Hlat Htmo Hhs H6 Hw Hl Ht rx.
  destruct (conn_data_fields aa crc win off itvl lat tmo hs) as (F1 & F2 & F3 & F4 & F5 & F6 & F7 & F8 & F9); [lia || done..|].
  assert (drop 14 rx = conn_data aa crc win off itvl lat tmo full_map hs ∧ take 6 (drop 2 rx) = own ∧ field 1 0 rx = t) as (Hd & Hp & Hf).
  { subst rx. destruct (six_bytes _ Ho) as (?&?&?&?&?&?&->). destruct (six_bytes _ Ha) as (?&?&?&?&?&?&->).
    split_and!; [done..|]. unfold field. cbn [take drop bytes_val app]. lia. }
  unfold slave_start. rewrite Hd, Hp, Hf, F1, F2, F3, F4, F5, F6, F7, F8, F9.
  change (ble_ll_conn_calc_used_chans full_map) with 37.
  unfold BLE_HCI_CONN_ITVL_MIN, BLE_HCI_CONN_ITVL_MAX, BLE_LL_CONN_TX_WIN_MIN, BLE_LL_CONN_SLAVE_LATENCY_MAX, BLE_LL_CONN_ITVL_USECS.
  rewrite (proj2 (Z.ltb_ge itvl off)), (proj2 (Z.ltb_ge itvl 6)), (proj2 (Z.ltb_ge win 1)), (proj2 (Z.ltb_ge 499 lat)) by lia.
  cbn [orb]. change 0x0c80 with 3200. rewrite orb_false_r. destruct (Z.ltb_spec 3200 itvl) as [|Hmax]; [done|]. cbn [orb].
  rewrite u32_mul_l in Ht. rewrite (u32_small (tmo * 10000)) by lia.
  replace ((lat + 1) * (itvl * 2) * 1250) with (itvl * 2 * 1250 * (1 + lat)) by lia.
  rewrite (proj2 (Z.leb_gt _ _)) by done.
  rewrite (proj2 (Z.ltb_ge _ win)) by (destruct (8 <? itvl - 1); lia).
  change (37 <? 2) with false. cbv iota.
  eexists. split; [done|]. unfold ev_new. cbn [ev_conn ev_par].
  match goal with |- context [ble_ll_conn_sm_new gs ?x] => pose proof (sm_new_fields gs x) as (R1 & R2 & R3 & R4 & R5 & R6 & R7 & R8) end.
  rewrite R1, R3, R4, R5. split_and!; try done. apply sm_new_chan; by rewrite ?R6, ?R7, ?R8.
Qed.

(** The request of the master. *)
Lemma master_request gm hcc ga ra junk r1 aa r2 em :
  0 <= hcc_own_addr_type hcc <= 1 →
  ble_ll_conn_req_pdu_make ga ra junk (ev_new gm (ble_ll_conn_master_init hcc r1 aa r2 em)) =
    Some (if hcc_own_addr_type hcc =? 0 then 5 else 69,
          (if hcc_own_addr_type hcc =? 0 then ga else ra) ++ junk ++
          conn_data aa (Z.land r2 0xffffff) 1 0 (hcc_conn_itvl_max hcc) (hcc_conn_latency hcc) (supervision_timeout hcc) full_map
            (u8 (Z.lor (r1 mod 12 + 5) BLE_LL_CFG_CONN_MASTER_SCA))).
Proof.
  intros Hown. unfold ble_ll_conn_req_pdu_make, ev_new. cbn [ev_conn ev_par].
  pose proof (sm_new_fields gm (ev_conn (ble_ll_conn_master_init hcc r1 aa r2 em))) as (_ & _ & _ & -> & -> & -> & -> & _).
  cbn [own_addr_type ev_par ble_ll_conn_master_init].
  assert (hcc_own_addr_type hcc = 0 ∨ hcc_own_addr_type hcc = 1) as [-> | ->] by lia; done.
Qed.

(** C29. A connection created with a command that the controller accepts: the request that the master sends is
    accepted by the slave exactly if the interval is at most 4 s - the largest interval is what the
    command's check forgets -, and then the slave has the master's parameters, access address, hop and
    clock accuracy, knows the master by its address, and both sides are in step. *)
Theorem ble_connect_request_agrees gm gs cmd hcc ga ra junk adva at_ txoff r1 aa r2 em es :
  Forall is_byte cmd → create_params cmd = Some hcc → hcc_own_addr_type hcc <= 1 →
  length ga = 6%nat → length ra = 6%nat → length junk = 6%nat → length adva = 6%nat →
  0 <= r1 → 0 <= aa < 2 ^ 32 → 0 <= txoff <= hcc_conn_itvl_max hcc →
  let m := ev_new gm (ble_ll_conn_master_init hcc r1 aa r2 em) in
  ∃ req, ble_ll_conn_req_pdu_make ga ra junk m = Some req ∧
    let got := slave_start gs (on_air (ble_ll_conn_req_pdu_update req adva at_ txoff)) es in
    if BLE_HCI_CONN_ITVL_MAX <? hcc_conn_itvl_max hcc then got = None
    else ∃ s, got = Some s ∧ in_step m s ∧
      access_addr (mgmt (ev_conn s)) = aa ∧ crcinit (ev_par s) = crcinit (ev_par m) ∧
      tx_win_size (ev_par s) = tx_win_size (ev_par m) ∧ tx_win_off (ev_par s) = txoff ∧
      master_sca (timing (ev_conn s)) = Z.shiftr BLE_LL_CFG_CONN_MASTER_SCA 5 ∧
      peer_addr (ev_par s) = (if hcc_own_addr_type hcc =? 0 then ga else ra) ∧ peer_addr_type (ev_par s) = hcc_own_addr_type hcc.
Proof.
  intros Hcmd Hcreate Hown Hga Hra Hjunk Hadva Hr1 Haa Hoff m.
  assert (0 <= hcc_own_addr_type hcc) as Hown0.
  { pose proof (create_own_type cmd hcc Hcmd Hcreate). lia. }
  destruct (create_params_ok cmd hcc Hcmd Hcreate) as [O1 O2 O3 O4].
  set (own := if hcc_own_addr_type hcc =? 0 then ga else ra).
  set (t := if hcc_own_addr_type hcc =? 0 then 5 else 69).
  set (hop := r1 mod 12 + 5). assert (5 <= hop <= 16) as Hhop by (subst hop; pose proof (Z.mod_pos_bound r1 12); lia).
  set (crc := Z.land r2 0xffffff).
  assert (0 <= crc < 2 ^ 24) as Hcrc.
  { subst crc. change 0xffffff with (Z.ones 24). rewrite Z.land_ones by lia. by apply Z.mod_pos_bound. }
  set (hs := u8 (Z.lor hop BLE_LL_CFG_CONN_MASTER_SCA)). destruct (hop_sca_byte hop Hhop) as [Hh Hs].
  pose proof (sm_new_fields gm (ev_conn (ble_ll_conn_master_init hcc r1 aa r2 em))) as (R1 & R2 & R3 & R4 & _).
  exists (t, own ++ junk ++ conn_data aa crc 1 0 (hcc_conn_itvl_max hcc) (hcc_conn_latency hcc) (supervision_timeout hcc) full_map hs).
  split; [apply master_request; lia|].
  assert (length own = 6%nat) as Hownlen by (subst own; by destruct (_ =? 0)).
  rewrite request_on_air by done. cbv zeta.
  match goal with |- context [slave_start gs (?x :: _) es] => set (t' := x) end.
  assert ((if Z.land t' BLE_ADV_PDU_HDR_TXADD_MASK =? 0 then 0 else 1) = hcc_own_addr_type hcc) as Ht'.
  { subst t' t. assert (hcc_own_addr_type hcc = 0 ∨ hcc_own_addr_type hcc = 1) as [-> | ->] by lia; by destruct (at_ =? 0). }
  pose proof (slave_start_ok gs t' own adva aa crc 1 txoff (hcc_conn_itvl_max hcc) (hcc_conn_latency hcc)
    (supervision_timeout hcc) hs es) as Hslave. cbv zeta in Hslave. change BLE_HCI_CONN_ITVL_MAX with 3200.
  destruct (3200 <? hcc_conn_itvl_max hcc).
  - apply Hslave; try done; unfold is_byte; try lia. apply u8_bound.
  - destruct Hslave as (s & -> & S1 & S2 & S3 & S4 & S5 & S6 & S7 & S8 & S9 & S10 & S11 & S12);
      try done; unfold is_byte; try lia; [apply u8_bound|].
    exists s. split; [done|]. split.
    { subst m. split; try done. 
      - unfold shared. rewrite S2, S3, S4, S5. unfold ev_new. cbn [ev_conn ev_par]. rewrite R3, R4.
        rewrite (sm_new_chan gm gs _ (upd_chans (λ _, mk_cchan full_map (Z.land hs 31) 0 0 0 37) (ev_conn s))); try done.
      - unfold ev_new. cbn [ev_conn]. by rewrite R3. }
    split_and!; try done; [by rewrite S10|by rewrite S12].
Qed.

(** ** Witnesses *)

Module SetupDemo.

Definition cmd : list Z :=
  [16; 0; 16; 0; 0; 0; 1; 2; 3; 4; 5; 6; 1; 24; 0; 40; 0; 4; 0; 100; 0; 0; 0; 0; 0].
Definition hcc : hci_create_conn := mk_hcc 0 0 [1; 2; 3; 4; 5; 6] 1 24 40 4 100 0 0.
Definition fresh : conn_ev :=
  mk_ev (LlDemo.zero_conn BLE_LL_CONN_ROLE_MASTER) (mk_params 0 0 0 0 0 0 0 0 0 0 0 [] false (mk_upd 0 0 0 0 0 0) None).
Definition ga : list Z := [0xa; 0xb; 0xc; 0xd; 0xe; 0xf].
Definition ra : list Z := [0x1a; 0x1b; 0x1c; 0x1d; 0x1e; 0xdf].
Definition m : conn_ev := ev_new LlDemo.gparams (ble_ll_conn_master_init hcc 7 0x71764129 99 fresh).
Definition req : Z * list Z := default (0, []) (ble_ll_conn_req_pdu_make ga ra ga m).
Definition s : conn_ev :=
  default fresh (slave_start LlDemo.gparams (on_air (ble_ll_conn_req_pdu_update req [1; 2; 3; 4; 5; 6] 0 3)) fresh).
Definition upd : ble_ll_conn_upd_req := mk_upd 1 2 30 0 200 6.

(** The slave has heard the master, and skips four events; then an update takes effect. *)
Definition rx : rx_pdu := mk_rx [1; 0] 2 true 0 0 5000.
Definition flagged (e : conn_ev * conn_ev) : conn_ev * conn_ev :=
  (upd_ev_flags (set_pkt_rxd true) e.1, upd_ev_flags (λ f, set_set_anchor true (set_allow_latency (set_pkt_rxd true f))) e.2).
Definition heard (e : conn_ev * conn_ev) : conn_ev * conn_ev := ((flagged e).1, hear 1 rx (flagged e).2).
Definition event (e : conn_ev * conn_ev) : conn_ev * conn_ev :=
  (next_events 1 (Z.to_nat (next_latency e.2).1) e.1, (next_event_rest 1 e.2).2).
Definition updated (e : conn_ev * conn_ev) : conn_ev * conn_ev := (schedule_update upd e.1, schedule_update upd e.2).
Definition last : conn_ev * conn_ev := event (updated (event (heard (m, s)))).

Lemma step_flagged e : allow_slave_latency (csmflags (ev_conn e.1)) = false → pair_step 1 e (flagged e).
Proof. destruct e. intros. by apply pair_silent, pair_flags. Qed.
Lemma step_heard e : pair_step 1 (flagged e) (heard e).
Proof. exact (pair_hear 1 (flagged e) rx). Qed.
Lemma step_event e : pair_step 1 e (event e).
Proof. destruct e. apply pair_silent, pair_events. Qed.
Lemma step_updated e : conn_update_scheduled (ev_par e.1) = false → pair_step 1 e (updated e).
Proof. destruct e. intros. by apply pair_silent, pair_update. Qed.

Lemma last_reached : rtc (pair_step 1) (m, s) last.
Proof.
  eapply rtc_l; [apply step_flagged; by vm_compute|]. eapply rtc_l; [apply step_heard|]. eapply rtc_l; [apply step_event|].
  eapply rtc_l; [apply step_updated; by vm_compute|]. eapply rtc_l; [apply step_event|]. apply rtc_refl.
Qed.

Example demo_moved :
  (event_cntr (mgmt (ev_conn last.1)), conn_itvl (ev_par last.2), anchor_point (timing (ev_conn last.1))) =
    (6, 30, 5 * 40 * 1250 + 40 * 1250 + 2 * 1250).
Proof. by vm_compute. Qed.

End SetupDemo.

Lemma ble_connect_request_agrees_witness :
  create_params SetupDemo.cmd = Some SetupDemo.hcc ∧
  ∃ req, ble_ll_conn_req_pdu_make SetupDemo.ga SetupDemo.ra SetupDemo.ga SetupDemo.m = Some req ∧
    ∃ s, slave_start LlDemo.gparams (on_air (ble_ll_conn_req_pdu_update req [1; 2; 3; 4; 5; 6] 0 3)) SetupDemo.fresh = Some s ∧
      in_step SetupDemo.m s.
Proof.
  split; [by vm_compute|].
  destruct (ble_connect_request_agrees LlDemo.gparams LlDemo.gparams SetupDemo.cmd SetupDemo.hcc SetupDemo.ga SetupDemo.ra
    SetupDemo.ga [1; 2; 3; 4; 5; 6] 0 3 7 0x71764129 99 SetupDemo.fresh SetupDemo.fresh) as (req & H1 & H2).
  - unfold SetupDemo.cmd, is_byte. repeat (apply Forall_cons; split; [lia|]). by apply Forall_nil.
  - by vm_compute.
  - done.
  - done.
  - done.
  - done.
  - done.
  - lia.
  - lia.
  - cbn. lia.
  - exists req. split; [exact H1|]. destruct H2 as (s & H2 & H3 & _). by exists s.
Defined.

Lemma ble_conn_in_step_witness :
  in_step SetupDemo.m SetupDemo.s ∧ in_step SetupDemo.last.1 SetupDemo.last.2.
Proof.
  assert (in_step SetupDemo.m SetupDemo.s) as H.
  { split; [by vm_compute..|]. intros _. by vm_compute. }
  split; [exact H|].
  refine (proj1 (ble_conn_in_step 1 SetupDemo.m SetupDemo.s SetupDemo.last.1 SetupDemo.last.2 H _)).
  rewrite <-surjective_pairing. exact SetupDemo.last_reached.
Defined.
